(* ===== verification/_CoqProject ===== *)
-Q . S2P
Prelude.v
PyData.v
Codec.v
Models.v
Database.v
JobEvents.v
JobRepo.v
Cascade.v
Redis.v
Queue.v
DagPause.v
JobService.v
World.v
Dispatcher.v
Sweeps.v
OutboxRelay.v
Resolver.v
SagaFlow.v
DbInv.v
OpsInv.v
Fixtures.v
System.v
RepoProps.v
RunProps.v
ServiceProps.v
SweepProps.v
ReleaseOrder.v
SagaProps.v
QueueProps.v
KafkaConsumer.v
KafkaProps.v
CircuitBreaker.v
BreakerProps.v
Idempotency.v
IdempotencyProps.v
Admission.v
AdmissionProps.v
ReadModel.v
ReadModelProps.v
EventLog.v
EventLogProps.v
Cache.v
CacheProps.v
Supervision.v
SupervisionProps.v
LeaderLock.v
LeaderLockProps.v
ConsumerLag.v
ConsumerLagProps.v
Alerts.v
AlertsProps.v
Slo.v
SloProps.v
ControlLoops.v
ControlLoopsProps.v
AgentRuns.v
AgentRunsProps.v
Accounts.v
AccountsProps.v
SchemaRegistry.v
SchemaProps.v
Auth.v
AuthProps.v
Progress.v
ProgressProps.v
Processors.v
ProcessorsProps.v
BreakerState.v
BreakerStateProps.v
McpServer.v
McpServerProps.v
McpActions.v
McpReads.v
McpActionsProps.v
LabFixtures.v
LabFixturesProps.v
PoolGauge.v
Health.v
PoolFaults.v
PoolProps.v
