(* ===== verification/Prelude.v ===== *)
(** * A verification development for the incident platform backend

    The platform (src/backend/app) runs user jobs.  An HTTP or agent request stores a
    job row and an outbox row in one transaction; a relay publishes outbox rows to
    Kafka; a dispatcher consumes [job.submitted], claims the job, runs its processor
    under a deadline and settles it: completed, retried after a backoff kept in Redis,
    or dead-lettered.  Every terminal status write announces itself through the outbox
    and cancels the waiting descendants it strands.  A dependency resolver and a saga
    coordinator consume those events; background passes recover what crashes and
    outages leave behind.  The state is shared by all of them: PostgreSQL tables, Redis
    keys and the Kafka log.

    ** How the model is built

    A transaction ([async with session.begin()]) is one function on the database; what
    other processes do between the transactions of one operation is either an explicit
    argument ([others], [re_meanwhile]) or another step of a transition system.  A
    service that may fail is a flag or an outcome of the call that reaches it
    ([tx_outcome], [publish_outcome], [MsgEnv]); an exception is a value of [result].
    Timestamps are microseconds ([Z]), Redis times and delays are seconds ([Q]).  What
    the environment decides is an interface: the order of a [SELECT] without [ORDER BY]
    ([Database.SqlOrder]), the identifiers drawn ([Database.UuidSource]), both with
    instances; the processors a run calls ([Processors] models them on their own), the LLM
    retry policy, the Kafka producer, schema validation and clocks are arguments.

    ** Files

    - [Prelude]: results, tactics, list lemmas.  [PyData]: UUIDs, JSON, dictionaries,
      printing of numbers and times.  [Models]: enums, rows, settings, errors.
    - [Database]: the tables and single statements (repositories/base.py,
      job_dependency.py, [OutboxRepository.add], [AuditRepository.log]).
      [JobEvents]: the event payloads (schemas/job_events.py).
    - [JobRepo]: repositories/job.py; [Cascade]: what its status write and cascade do to
      the tables, as one statement.
    - [Redis]: keys with expiry, counters and sorted sets; [Queue]: workers/queue.py and
      workers/dlq_replay_scheduler.py; [DagPause]: utils/dag_pause.py.
    - [JobService]: services/job.py.  [World]: database, Redis and log together.
    - [Dispatcher]: [_run_job], its safety net and admission (workers/dispatcher.py);
      [Sweeps]: the background passes; [OutboxRelay]: repositories/outbox.py and the
      relay tick.  [Resolver]: workers/dependency_resolver.py.  [SagaFlow]:
      repositories/saga.py, services/saga.py, workers/saga_coordinator.py.
    - [DbInv]: the invariant [wf] of the tables and what each statement does to it;
      [OpsInv]: every operation preserves it; [System]: the platform as a transition
      system of nineteen kinds of step, its reachable states and their invariant;
      [ReleaseOrder]: when that system releases a dependent job.
    - [KafkaConsumer]: the base consumer (workers/kafka_consumer.py) for the members of a
      group over one log.  [CircuitBreaker]: core/circuit_breaker.py.  [Idempotency]:
      services/idempotency.py, its repository and their use in mcp/handlers.py.
      [Admission]: utils/rate_limit.py, quota.py, backpressure.py and admission.py, and
      the endpoints that create jobs (api/jobs.py, api/sagas.py).
    - [Codec]: reading JSON and ISO times back.  [ReadModel]: workers/read_model.py.
      [EventLog]: workers/event_log_consumer.py, audit_consumer.py and the audit listing.
      [Cache]: utils/cache.py and post_commit.py.  [SchemaRegistry]: schemas/kafka,
      workers/schema_registry.py and kafka_producer.py.
    - [Supervision]: workers/supervisor.py and the consumers' supervisor and kill switch;
      [LeaderLock]: core/leader_lock.py; [ControlLoops]: the loops around the passes,
      their pauses and heartbeats; [ConsumerLag]: core/consumer_lag.py; [Alerts]:
      services/alerts.py and alert_rules.py; [Slo]: services/slo.py.
    - [Accounts]: service accounts, their tokens and scopes; [Auth]: users, passwords,
      tokens and api/auth.py; [Progress]: workers/progress.py, progress_broker.py,
      sse_consumer.py and api/streaming.py; [AgentRuns]: services/agent_run.py.
    - [Processors]: workers/thread_adapters.py, cpu_processors.py and async_tasks.py;
      [BreakerState]: core/breaker_state.py, the breaker registry and
      mcp/tools/circuit_breakers.py.
    - [McpServer]: the agent-facing server (mcp/protocol.py, registry.py, chaos.py,
      commander.py, lab_probe.py, handlers.py, standalone.py and
      services/operator_audit.py); [McpActions] and [McpReads]: its action tools, reads
      and two chaos tools, as handlers of that server; [LabFixtures]:
      lab/dlq_failure_stories.py and the chaos tools that plant jobs and Redis faults.
    - [RepoProps], [RunProps], [ServiceProps], [SweepProps], [SagaProps], [QueueProps],
      [System.SystemProps] and, for each other component [X], [XProps] ([BreakerProps],
      [SchemaProps], [McpServerProps] and [McpActionsProps] among them): the properties
      and, after them, worked examples at concrete inputs; [Fixtures] holds their data.

    ** What is shown

    - Over every interleaving (System.v): terminal jobs are announced, dispatchable jobs
      were submitted, attempts stay within their bound, dependencies are acyclic,
      published rows are in the log, nothing recorded is lost, keys are unique, and no job
      is released before all its parents are COMPLETED.
    - A status write and its cascade are characterised exactly; claims are exclusive;
      guarded writes are compare-and-set.
    - A job is run exactly [max_attempts] times when it always fails, is never left
      RUNNING by a worker that stays up, keeps its retry through a Redis outage, and is
      held without loss while its DAG is paused.
    - Creation is idempotent, also across the check-then-insert race; a replay starts
      afresh; reads and replays stay in the tenant.
    - The passes: delayed retries are conserved, the resume sweep reaches every
      promotable job, the backstop re-publishes at most once per window, crash recovery
      spares live leases, renewals are bounded, a claim of due replays loses nothing.
    - Sagas are chains; a rollback commits, compensates in reverse order, survives
      redelivery and is settled on what happened.
    - The relay settles each row by its own publish and no row stays in its window for
      ever.
    - Kafka delivery is at least once as long as no commit of a schema-invalid message
      raises, and is not when one does; a failing message blocks only its partition.
    - The breaker trips exactly at its threshold, probes alone when no earlier call is
      in flight, and forgets only what a reset covers; a cancelled probe wedges it.
    - A request key held by an unfinished call is refused to every other call, an
      answered one is replayed, and a completion that fails wedges its key.
    - A rate window admits exactly its limit, the monthly quota holds after every
      admitted request that runs alone, and a Redis outage refuses nobody.

    - The read model implements a map from jobs to statuses and a rebuild shows what the
      table holds; each event is recorded once however often it is delivered; a cache
      hit is never staler than the last commit; every event conforms to its schema.
    - At most one replica leads; a killed consumer stays down until its key is observed
      absent; a held loop does nothing; the liveness verdict and the restart ladder are
      exact until the ladder overflows.
    - A series has at most one open alert as long as its two reads agree; an objective
      pages strictly above its threshold, once per window.
    - A revoked token stays refused; membership of a tenant comes only by registration or
      by its administrator; access follows a login that knew the password; a stream needs
      its job's token.
    - The slots of the stream broker count its open streams, and every open stream
      receives the end of its job or a closing item.
    - Nothing an MCP request changes is committed without the row of its tool call; a tool
      runs only for a principal with its scope; a failing tool leaves only its row; a
      retry is answered and not run; a label needs the lab's credential; a deployment
      without chaos has no lab.
    - The replay tools keep to dead jobs of the caller's tenant, a batch is the sequence
      of its items, an armed replay is audited, no other tenant's cache key is touched,
      and withheld audit rows do not show.
    - A CSV upload is parsed whole; a sync accounts for every endpoint and a degraded one
      opens the breaker; a healthy pool survives the reset meant for a broken one.  A
      breaker reset is complete when no recording is under way; a racing one undoes it.
    - The lab's fixtures only add rows, marked and coherent; a chain behind a dead letter
      stays WAITING; a repeated fixture call adds nothing; the stale cache is cleared by
      its compensator and a degradation flag is read as it was written.

    ** Bounds and fuel

    The cascade runs to the code's own depth limit of 50.  The ancestor walk is a loop
    until the frontier is empty; its fuel is one more than the number of dependency
    rows, and [QueueProps.ancestor_walk_terminates] shows more changes nothing.  The JSON
    reader of [Codec] spends fuel per nesting and item; its fuel is the length of the
    text, and it is proved to read back every printed value.  Other printing and parsing
    recurses on its input.  Retry counts, attempts and thresholds are Python integers
    ([Z]); Kafka offsets are [N]; burn rates are IEEE binary64.  The percentages of a
    sync are checked by computation for every endpoint count the processor accepts (1 to
    100).

    ** Not modelled

    HTTP routing and serialisation, the admin and dashboard reads, LLM prompts and calls,
    metrics, logging and tracing, row-level security, database bootstrap and pools, the
    maintenance scripts, and of the MCP tools the remaining reads and fault injectors
    (poison messages, database, memory and deployment faults).  JWT, bcrypt, SHA-256,
    HMAC, name-based UUIDs and the validation library are parameters with what the
    code relies on as hypotheses or interface laws. *)
From stdpp Require Import base tactics numbers option list gmap strings sorting fin_maps.
From Stdlib Require Import QArith.

(** ** Results: code that returns or raises *)

(** A Python call either returns or raises; [result E A] is the outcome. *)
Inductive result (E A : Type) : Type :=
  | Ok (a : A)
  | Err (e : E).
Arguments Ok {E A} a.
Arguments Err {E A} e.

#[export] Instance result_mret (E : Type) : MRet (result E) := fun _ a => Ok a.
#[export] Instance result_mbind (E : Type) : MBind (result E) :=
  fun _ _ k m => match m with Ok a => k a | Err e => Err e end.

Definition is_ok {E A} (r : result E A) : bool :=
  match r with Ok _ => true | Err _ => false end.

Lemma bind_return {E A B} (a : A) (k : A → result E B) : (Ok a ≫= k) = k a.
Proof. reflexivity. Qed.

Lemma bind_ok {E A B} (m : result E A) (k : A → result E B) (b : B) :
  (m ≫= k) = Ok b ↔ ∃ a, m = Ok a ∧ k a = Ok b.
Proof. destruct m; cbn; split; [eauto|intros (?&[=]&?)|done|intros (?&[=]&?)]; by subst. Qed.

Lemma bind_err {E A B} (m : result E A) (k : A → result E B) (e : E) :
  (m ≫= k) = Err e ↔ m = Err e ∨ ∃ a, m = Ok a ∧ k a = Err e.
Proof.
  destruct m; cbn; split; intros H.
  - eauto.
  - destruct H as [[=]|(?&[= <-]&?)]; done.
  - left; congruence.
  - destruct H as [[= ->]|(?&[=]&?)]; done.
Qed.

(** ** Automation *)

(** Lemmas that discharge the routine goals of the components. *)
Create HintDb platform.

(** Case split on the tests the code makes, then clean up. *)
Ltac split_tests :=
  repeat (case_match || case_bool_decide || case_decide); simplify_eq/=.

(** Turn boolean guards in the context into propositions. *)
Ltac reflect_bools :=
  repeat match goal with
  | H : (_ && _)%bool = true |- _ => apply andb_true_iff in H as [? ?]
  | H : (_ || _)%bool = false |- _ => apply orb_false_iff in H as [? ?]
  | H : negb _ = true |- _ => apply negb_true_iff in H
  | H : negb _ = false |- _ => apply negb_false_iff in H
  | H : bool_decide _ = true |- _ => apply bool_decide_eq_true_1 in H
  | H : bool_decide _ = false |- _ => apply bool_decide_eq_false_1 in H
  end.

(** ** Lists *)

Lemma filter_all {A} (P : A → Prop) `{!∀ x, Decision (P x)} (l : list A) :
  (∀ x, x ∈ l → P x) → filter P l = l.
Proof.
  induction l as [|x l IH]; intros HP; [done|].
  rewrite filter_cons_True by (apply HP; left).
  f_equal. apply IH. intros y Hy. apply HP. by right.
Qed.

Lemma filter_none {A} (P : A → Prop) `{!∀ x, Decision (P x)} (l : list A) :
  (∀ x, x ∈ l → ¬ P x) → filter P l = [].
Proof.
  induction l as [|x l IH]; intros HP; [done|].
  rewrite filter_cons_False by (apply HP; left).
  apply IH. intros y Hy. apply HP. by right.
Qed.

Lemma filter_filter_iff {A} (P Q R : A → Prop) `{!∀ x, Decision (P x), !∀ x, Decision (Q x), !∀ x, Decision (R x)}
    (l : list A) :
  (∀ x, x ∈ l → P x ∧ Q x ↔ R x) → filter P (filter Q l) = filter R l.
Proof.
  induction l as [|x l IH]; intros HR; [done|].
  rewrite (filter_cons Q), (filter_cons R). pose proof (HR x ltac:(left)) as Hx.
  rewrite <- IH by (intros y Hy; apply HR; by right).
  destruct (decide (Q x)), (decide (R x)); rewrite ?filter_cons; repeat case_decide; naive_solver.
Qed.

Lemma existsb_same {A} (f g : A → bool) l : (∀ x, f x = g x) → existsb f l = existsb g l.
Proof. intros Hfg. induction l as [|x l IH]; cbn; [done|]. by rewrite Hfg, IH. Qed.

(** Sorted lists: sublists by [filter], weaker orders, one more element. *)
Lemma sorted_filter {A} (R : A → A → Prop) (P : A → Prop) `{!∀ x, Decision (P x)} l :
  StronglySorted R l → StronglySorted R (filter P l).
Proof.
  induction 1 as [|x l _ IH Hx]; [constructor|]. rewrite filter_cons. case_decide; [|done].
  constructor; [done|]. apply Forall_forall. intros y [_ Hy]%list_elem_of_filter.
  by apply (proj1 (Forall_forall _ _) Hx).
Qed.

Lemma sorted_weaken {A} (R R' : A → A → Prop) l :
  (∀ x y, x ∈ l → y ∈ l → R x y → R' x y) → StronglySorted R l → StronglySorted R' l.
Proof.
  intros HR Hs. induction Hs as [|x l _ IH Hx]; [constructor|]. constructor.
  - apply IH. intros y z Hy Hz. apply HR; by right.
  - apply Forall_forall. intros y Hy. apply HR; [left|by right|]. by apply (proj1 (Forall_forall _ _) Hx).
Qed.

Lemma sorted_app_one {A} (R : A → A → Prop) l x :
  StronglySorted R l → (∀ y, y ∈ l → R y x) → StronglySorted R (l ++ [x]).
Proof.
  induction 1 as [|y l _ IH Hy]; intros Hx; cbn.
  - constructor; constructor.
  - constructor; [apply IH; intros z Hz; apply Hx; by right|].
    apply Forall_app. split; [done|]. constructor; [apply Hx; left|constructor].
Qed.
