(* ===== verification/PyData.v ===== *)
(** * Python values the platform moves around

    UUIDs with [str(u)] and [uuid.UUID(s)], JSON values with [json.dumps], and
    dictionaries as association lists in insertion order.  A Python [str] is a
    Rocq [string] whose characters are read as the code points 0..255. *)
From stdpp Require Import base tactics numbers option list gmap strings pretty sorting.
From Stdlib Require Import Ascii ZArith QArith Qabs Qround.
From S2P Require Import Prelude.

(** ** UUIDs *)

(** A UUID is Python's [UUID.int]; every real UUID is below 2^128. *)
Definition uuid := N.
Bind Scope N_scope with uuid.

Definition uuid_bound : N := 2 ^ 128.

Definition nibble (d : N) : ascii :=
  if (d <? 10)%N then ascii_of_N (48 + d) else ascii_of_N (87 + d).

(** The [k] low hexadecimal digits of [n], most significant first. *)
Fixpoint hex_digits (k : nat) (n : N) : list ascii :=
  match k with
  | O => []
  | S k' => hex_digits k' (n / 16) ++ [nibble (n mod 16)]
  end.

(** [str(uuid)]: 32 digits grouped 8-4-4-4-12. *)
Definition uuid_chars (u : uuid) : list ascii :=
  let h := hex_digits 32 u in
  take 8 h ++ ["-"%char] ++ take 4 (drop 8 h) ++ ["-"%char] ++
  take 4 (drop 12 h) ++ ["-"%char] ++ take 4 (drop 16 h) ++ ["-"%char] ++ drop 20 h.

Definition uuid_str (u : uuid) : string := String.string_of_list_ascii (uuid_chars u).

(** [s.replace(pat, '')]: drop every occurrence, left to right.  Each step drops
    at least one character of [s], so [length s] steps are enough. *)
Fixpoint remove_all_fuel (fuel : nat) (pat s : list ascii) : list ascii :=
  match fuel, s with
  | S f, c :: s' =>
      if bool_decide (take (length pat) s = pat)
      then remove_all_fuel f pat (drop (length pat) s)
      else c :: remove_all_fuel f pat s'
  | _, _ => []
  end.

Definition remove_all (pat s : list ascii) : list ascii :=
  remove_all_fuel (length s) pat s.

Fixpoint lstrip (P : ascii → bool) (s : list ascii) : list ascii :=
  match s with
  | c :: s' => if P c then lstrip P s' else s
  | [] => []
  end.

Definition strip (P : ascii → bool) (s : list ascii) : list ascii :=
  rev (lstrip P (rev (lstrip P s))).

Definition is_brace (c : ascii) : bool :=
  bool_decide (c = "{"%char ∨ c = "}"%char).

(** Python's [str.isspace] on code points 0..255. *)
Definition is_space (c : ascii) : bool :=
  let n := N_of_ascii c in
  ((9 <=? n) && (n <=? 13) || (28 <=? n) && (n <=? 32) || (n =? 133) || (n =? 160))%N.

Definition hex_value (c : ascii) : option N :=
  let n := N_of_ascii c in
  if ((48 <=? n) && (n <=? 57))%N then Some (n - 48)%N
  else if ((97 <=? n) && (n <=? 102))%N then Some (n - 87)%N
  else if ((65 <=? n) && (n <=? 70))%N then Some (n - 55)%N
  else None.

(** The digits of [int(s, 16)] after sign and prefix: single underscores are
    allowed between digits only. *)
Fixpoint int16_digits (after_digit : bool) (acc : N) (s : list ascii) : option N :=
  match s with
  | [] => if after_digit then Some acc else None
  | c :: s' =>
      match hex_value c with
      | Some d => int16_digits true (acc * 16 + d)%N s'
      | None =>
          if (bool_decide (c = "_"%char) && after_digit)%bool
          then int16_digits false acc s' else None
      end
  end.

(** [int(s, 16)] after the sign: an optional [0x], then optionally one
    underscore, then the digits. *)
Definition int16_unsigned (s : list ascii) : option N :=
  match s with
  | "0"%char :: x :: s' =>
      if bool_decide (x = "x"%char ∨ x = "X"%char) then
        match s' with
        | "_"%char :: s'' => int16_digits false 0 s''
        | _ => int16_digits false 0 s'
        end
      else int16_digits false 0 s
  | _ => int16_digits false 0 s
  end.

(** [int(s, 16)]; [None] is a [ValueError]. *)
Definition py_int16 (s : list ascii) : option Z :=
  match strip is_space s with
  | "+"%char :: s' => Z.of_N <$> int16_unsigned s'
  | "-"%char :: s' => (fun n => - Z.of_N n)%Z <$> int16_unsigned s'
  | s' => Z.of_N <$> int16_unsigned s'
  end.

(** The digits of [int(s)]: single underscores are allowed between digits only. *)
Fixpoint int_digits (after_digit : bool) (acc : Z) (s : list ascii) : option Z :=
  match s with
  | [] => if after_digit then Some acc else None
  | c :: s' =>
      let n := Z.of_N (N_of_ascii c) in
      if ((48 <=? n) && (n <=? 57))%Z then int_digits true (acc * 10 + (n - 48)) s'
      else if (bool_decide (c = "_"%char) && after_digit)%bool then int_digits false acc s' else None
  end.

(** [int(s)] of a string; [None] is a [ValueError]. *)
Definition py_int (s : string) : option Z :=
  match strip is_space (String.list_ascii_of_string s) with
  | "+"%char :: s' => int_digits false 0 s'
  | "-"%char :: s' => Z.opp <$> int_digits false 0 s'
  | s' => int_digits false 0 s'
  end.

(** A run of decimal digits, underscores between digits only: its value, how many, and
    the rest. *)
Fixpoint dec_digits (after_digit : bool) (acc : Z) (n : nat) (s : list ascii) : option (Z * nat * list ascii) :=
  match s with
  | [] => if after_digit || (n =? 0)%nat then Some (acc, n, []) else None
  | c :: s' =>
      let d := Z.of_N (N_of_ascii c) in
      if ((48 <=? d) && (d <=? 57))%Z then dec_digits true (acc * 10 + (d - 48)) (S n) s'
      else if (bool_decide (c = "_"%char) && after_digit)%bool then dec_digits false acc n s'
      else if after_digit || (n =? 0)%nat then Some (acc, n, s) else None
  end.

(** An optional exponent. *)
Definition dec_exponent (s : list ascii) : option Z :=
  let digits (s : list ascii) :=
    match dec_digits false 0 0 s with Some (e, S _, []) => Some e | _ => None end in
  match s with
  | [] => Some 0%Z
  | c :: s' =>
      if bool_decide (c = "e"%char ∨ c = "E"%char) then
        match s' with
        | "+"%char :: s'' => digits s''
        | "-"%char :: s'' => Z.opp <$> digits s''
        | _ => digits s'
        end
      else None
  end.

(** The value of a decimal numeral, exact (the code's is the nearest double). *)
Definition dec_value (mantissa exponent : Z) : Q :=
  if (0 <=? exponent)%Z then inject_Z (mantissa * 10 ^ exponent)
  else Qmake mantissa (Z.to_pos (10 ^ (- exponent))).

Definition dec_numeral (s : list ascii) : option Q :=
  match dec_digits false 0 0 s with
  | Some (i, ni, "."%char :: rest) =>
      match dec_digits false 0 0 rest with
      | Some (f, nf, rest) =>
          if (ni + nf =? 0)%nat then None
          else e ← dec_exponent rest; Some (dec_value (i * 10 ^ Z.of_nat nf + f) (e - Z.of_nat nf))
      | None => None
      end
  | Some (i, S _, rest) => e ← dec_exponent rest; Some (dec_value i e)
  | _ => None
  end.

(** [float(s)] when it is a finite number; [None] when it raises, is infinite or NaN. *)
Definition py_float (s : string) : option Q :=
  q ← match strip is_space (String.list_ascii_of_string s) with
      | "+"%char :: s' => dec_numeral s'
      | "-"%char :: s' => Qopp <$> dec_numeral s'
      | s' => dec_numeral s'
      end;
  if Qle_bool (inject_Z (2 ^ 1024 - 2 ^ 970)) (Qabs.Qabs q) then None else Some q.

(** [round(x)]: to the nearest integer, ties to even. *)
Definition py_round (x : Q) : Z :=
  let f := Qround.Qfloor x in
  let twice := ((x - inject_Z f) * 2)%Q in
  if Qle_bool 1 twice then
    if Qle_bool twice 1 && Z.even f then f else (f + 1)%Z
  else f.

(** [s.split(c)]. *)
Fixpoint split_char (c : ascii) (s : list ascii) : list (list ascii) :=
  match s with
  | [] => [[]]
  | x :: s' =>
      if bool_decide (x = c) then [] :: split_char c s'
      else match split_char c s' with
           | [] => [[x]]
           | p :: ps => (x :: p) :: ps
           end
  end.

(** [uuid.UUID(s)] for a string [s]; [None] is a [ValueError]. *)
Definition uuid_parse (s : string) : option uuid :=
  let h := String.list_ascii_of_string s in
  let h := remove_all (String.list_ascii_of_string "uuid:")
             (remove_all (String.list_ascii_of_string "urn:") h) in
  let h := remove_all ["-"%char] (strip is_brace h) in
  if (length h =? 32)%nat then
    z ← py_int16 h;
    if ((0 <=? z) && (z <? Z.of_N uuid_bound))%Z then Some (Z.to_N z) else None
  else None.

Example uuid_str_example :
  uuid_str 5 = "00000000-0000-0000-0000-000000000005".
Proof. vm_compute. reflexivity. Qed.

Example uuid_parse_examples :
  uuid_parse "{00000000-0000-0000-0000-0000000000ff}" = Some 255%N ∧
  uuid_parse "urn:uuid:00000000-0000-0000-0000-00000000000A" = Some 10%N ∧
  uuid_parse "not-a-uuid" = None.
Proof. vm_compute. done. Qed.

Example py_float_examples :
  py_float " -12.5e1 " = Some (-125 # 1)%Q ∧ py_float "1_0.25" = Some (1025 # 100)%Q ∧
  py_float "nan" = None ∧ py_float "1e400" = None ∧ py_float "." = None ∧
  py_round (5 # 2) = 2%Z ∧ py_round (7 # 2) = 4%Z ∧ py_round (-13 # 10) = (-1)%Z.
Proof. vm_compute. done. Qed.

(** *** The round trip *)

Definition is_hex (c : ascii) : Prop := is_Some (hex_value c).

Lemma nibble_value (d : N) : (d < 16)%N → hex_value (nibble d) = Some d.
Proof.
  intros Hd. destruct d as [|p]; [done|].
  do 4 (destruct p as [p|p|]; try reflexivity); exfalso; lia.
Qed.

Lemma hex_digits_length k n : length (hex_digits k n) = k.
Proof.
  revert n. induction k as [|k IH]; intros n; [done|].
  simpl. rewrite length_app, IH. simpl. lia.
Qed.

Lemma hex_digits_hex k n : Forall is_hex (hex_digits k n).
Proof.
  revert n. induction k as [|k IH]; intros n; simpl; [done|].
  apply Forall_app. split; [apply IH|]. constructor; [|constructor].
  unfold is_hex. rewrite nibble_value by (apply N.mod_lt; lia). eauto.
Qed.

Lemma int16_digits_app b acc l1 l2 n :
  l1 ≠ [] → int16_digits b acc l1 = Some n → int16_digits b acc (l1 ++ l2) = int16_digits true n l2.
Proof.
  revert b acc. induction l1 as [|c l1 IH]; intros b acc Hne H1; [done|]. simpl in *.
  destruct (hex_value c) as [d|].
  - destruct l1 as [|c' l1]; [simpl in *; congruence|]. by apply IH.
  - destruct (bool_decide _ && _)%bool; [|done].
    destruct l1 as [|c' l1]; [done|]. by apply IH.
Qed.

Lemma int16_hex_digits k n b :
  (n < 16 ^ N.of_nat (S k))%N → int16_digits b 0 (hex_digits (S k) n) = Some n.
Proof.
  revert n. induction k as [|k IH]; intros n Hn.
  - simpl. rewrite nibble_value by (apply N.mod_lt; lia).
    by rewrite N.mod_small by lia.
  - change (hex_digits (S (S k)) n) with (hex_digits (S k) (n / 16) ++ [nibble (n mod 16)]).
    assert (Hq : (n / 16 < 16 ^ N.of_nat (S k))%N).
    { apply N.Div0.div_lt_upper_bound. rewrite <- N.pow_succ_r'.
      by replace (N.succ (N.of_nat (S k))) with (N.of_nat (S (S k))) by lia. }
    erewrite int16_digits_app; [|intros E; apply (f_equal length) in E;
      rewrite hex_digits_length in E; done|by apply IH].
    cbn [int16_digits]. rewrite nibble_value by (apply N.mod_lt; lia).
    f_equal. rewrite N.mul_comm. symmetry. apply N.div_mod. lia.
Qed.

Lemma remove_all_absent_fuel f p pat s :
  Forall (λ c, c ≠ p) s → f = length s → remove_all_fuel f (p :: pat) s = s.
Proof.
  revert f. induction s as [|c s IH]; intros f Hs ->; [done|].
  apply Forall_cons in Hs as [Hc Hs]. simpl.
  rewrite bool_decide_false by (simpl; congruence). f_equal. by apply IH.
Qed.

Lemma remove_all_absent p pat s :
  Forall (λ c, c ≠ p) s → remove_all (p :: pat) s = s.
Proof. intros Hs. by apply remove_all_absent_fuel. Qed.

Lemma remove_char_fuel f p s :
  f = length s → remove_all_fuel f [p] s = filter (λ c, c ≠ p) s.
Proof.
  revert f. induction s as [|c s IH]; intros f ->; [done|]. simpl.
  rewrite filter_cons. destruct (decide (c = p)) as [->|Hc].
  - rewrite bool_decide_true by done. rewrite decide_False by naive_solver. by apply IH.
  - rewrite bool_decide_false by (simpl; congruence). rewrite decide_True by done.
    f_equal. by apply IH.
Qed.

Lemma lstrip_absent (P : ascii → bool) s : Forall (λ c, P c = false) s → lstrip P s = s.
Proof. destruct 1 as [|c s Hc]; simpl; [done|]. by rewrite Hc. Qed.

Lemma strip_absent (P : ascii → bool) s : Forall (λ c, P c = false) s → strip P s = s.
Proof.
  intros Hs. unfold strip. rewrite (lstrip_absent P s) by done.
  rewrite lstrip_absent by (by apply Forall_rev). apply rev_involutive.
Qed.

(** Facts about one character, checked on all 256 of them. *)
Lemma hex_char_facts c :
  is_hex c →
  is_brace c = false ∧ is_space c = false ∧ c ≠ "-"%char ∧ c ≠ "u"%char ∧
  c ≠ "x"%char ∧ c ≠ "X"%char ∧ c ≠ "+"%char.
Proof.
  intros [v Hv]. destruct c as [[] [] [] [] [] [] [] []]; vm_compute in Hv;
    try discriminate Hv; vm_compute; done.
Qed.

Lemma uuid_chars_safe u :
  Forall (λ c, (is_hex c ∨ c = "-"%char)) (uuid_chars u).
Proof.
  pose proof (hex_digits_hex 32 u) as Hh. unfold uuid_chars.
  assert (Hd : Forall (λ c, is_hex c ∨ c = "-"%char) ["-"%char]) by (repeat constructor; by right).
  assert (Hw : Forall (λ c, is_hex c ∨ c = "-"%char) (hex_digits 32 u)).
  { eapply Forall_impl; [exact Hh|]. auto. }
  repeat (apply Forall_app; split); auto using Forall_take, Forall_drop.
Qed.

Lemma regroup {A} (h : list A) :
  take 8 h ++ take 4 (drop 8 h) ++ take 4 (drop 12 h) ++ take 4 (drop 16 h) ++ drop 20 h = h.
Proof.
  replace (drop 20 h) with (drop 4 (drop 16 h)) by (by rewrite drop_drop).
  rewrite take_drop.
  replace (drop 16 h) with (drop 4 (drop 12 h)) by (by rewrite drop_drop).
  rewrite take_drop.
  replace (drop 12 h) with (drop 4 (drop 8 h)) by (by rewrite drop_drop).
  rewrite take_drop.
  apply take_drop.
Qed.

Lemma uuid_chars_dedash u :
  filter (λ c, c ≠ "-"%char) (uuid_chars u) = hex_digits 32 u.
Proof.
  assert (Hk : ∀ l, Forall is_hex l → filter (λ c, c ≠ "-"%char) l = l).
  { intros l Hl. apply filter_all. intros x Hx. eapply Forall_forall in Hl; [|done].
    by apply hex_char_facts in Hl as (_&_&?&_). }
  pose proof (hex_digits_hex 32 u) as Hh. unfold uuid_chars. revert Hh.
  generalize (hex_digits 32 u) as h. intros h Hh. cbv zeta.
  rewrite !filter_app.
  change (filter (λ c, c ≠ "-"%char) ["-"%char]) with (@nil ascii). simpl app.
  rewrite (Hk (take 8 h)), (Hk (take 4 (drop 8 h))), (Hk (take 4 (drop 12 h))),
    (Hk (take 4 (drop 16 h))), (Hk (drop 20 h)) by auto using Forall_take, Forall_drop.
  exact (regroup h).
Qed.

Lemma int16_unsigned_hex s : Forall is_hex s → int16_unsigned s = int16_digits false 0 s.
Proof.
  intros Hs. unfold int16_unsigned.
  destruct Hs as [|c l Hc [|x l' Hx Hl']]; [done| |].
  - by destruct c as [[] [] [] [] [] [] [] []].
  - apply hex_char_facts in Hx as (_&_&_&_&Hx&HX&_).
    rewrite bool_decide_false by naive_solver.
    by destruct c as [[] [] [] [] [] [] [] []].
Qed.

Lemma py_int16_hex s : Forall is_hex s → py_int16 s = Z.of_N <$> int16_digits false 0 s.
Proof.
  intros Hs. unfold py_int16. rewrite strip_absent.
  2:{ eapply Forall_impl; [exact Hs|]. intros c Hc. by apply hex_char_facts in Hc as (_&?&_). }
  rewrite <- int16_unsigned_hex by done. destruct Hs as [|c l Hc Hl]; [done|].
  apply hex_char_facts in Hc as (_&_&Hm&_&_&_&Hp).
  by destruct c as [[] [] [] [] [] [] [] []].
Qed.

Lemma list_ascii_of_uuid_str u : String.list_ascii_of_string (uuid_str u) = uuid_chars u.
Proof. apply String.list_ascii_of_string_of_list_ascii. Qed.

Lemma list_ascii_app s1 s2 :
  String.list_ascii_of_string (s1 +:+ s2) =
  String.list_ascii_of_string s1 ++ String.list_ascii_of_string s2.
Proof. induction s1 as [|c s1 IH]; [done|]. exact (f_equal (cons c) IH). Qed.

(** Parsing the printed form of a UUID gives the UUID back. *)
Lemma uuid_parse_str u : (u < uuid_bound)%N → uuid_parse (uuid_str u) = Some u.
Proof.
  intros Hu. unfold uuid_parse. rewrite list_ascii_of_uuid_str.
  pose proof (uuid_chars_safe u) as Hsafe.
  assert (Hnou : Forall (λ c, c ≠ "u"%char) (uuid_chars u)).
  { eapply Forall_impl; [exact Hsafe|]. intros c [Hc| ->]; [|done].
    by apply hex_char_facts in Hc as (_&_&_&?&_). }
  change (String.list_ascii_of_string "urn:") with ["u"; "r"; "n"; ":"]%char.
  change (String.list_ascii_of_string "uuid:") with ["u"; "u"; "i"; "d"; ":"]%char.
  rewrite (remove_all_absent "u" ["r"; "n"; ":"]%char) by done.
  rewrite (remove_all_absent "u" ["u"; "i"; "d"; ":"]%char) by done.
  rewrite strip_absent.
  2:{ eapply Forall_impl; [exact Hsafe|]. intros c [Hc| ->]; [|done].
      by apply hex_char_facts in Hc as (?&_). }
  unfold remove_all. rewrite remove_char_fuel, uuid_chars_dedash by done.
  cbv zeta. rewrite hex_digits_length. cbn [Nat.eqb].
  rewrite py_int16_hex by apply hex_digits_hex.
  rewrite int16_hex_digits by exact Hu. cbn [fmap option_fmap option_map mbind option_bind].
  unfold uuid_bound in *.
  destruct (Z.leb_spec 0 (Z.of_N u)); [|lia].
  destruct (Z.ltb_spec (Z.of_N u) (Z.of_N (2 ^ 128))); [|lia].
  cbn. by rewrite N2Z.id.
Qed.

(** Distinct UUIDs print differently. *)
Lemma uuid_str_inj u v :
  (u < uuid_bound)%N → (v < uuid_bound)%N → uuid_str u = uuid_str v → u = v.
Proof.
  intros Hu Hv E. apply (f_equal uuid_parse) in E.
  rewrite !uuid_parse_str in E by done. by simplify_eq.
Qed.

(** ** JSON values and dictionaries *)

(** A JSON value; a float carries its [repr]. *)
Inductive json : Type :=
  | JNull
  | JBool (b : bool)
  | JInt (z : Z)
  | JFloat (repr : string)
  | JStr (s : string)
  | JList (l : list json)
  | JObj (d : list (string * json)).

(** A Python [dict] with string keys, in insertion order. *)
Abbreviation dict := (list (string * json)).

(** [d.get(k)]; a key that occurs once is found, as in a [dict]. *)
Fixpoint dget (d : dict) (k : string) : option json :=
  match d with
  | [] => None
  | (k', v) :: d' => if bool_decide (k = k') then Some v else dget d' k
  end.

(** [{k: v for k, v in d.items() if k != key}], and the removal part of [d.pop(key)]. *)
Definition dremove (key : string) (d : dict) : dict :=
  filter (λ kv, kv.1 ≠ key) d.

(** [d[key] = v]: in place when the key is there, appended otherwise. *)
Fixpoint dset (d : dict) (key : string) (v : json) : dict :=
  match d with
  | [] => [(key, v)]
  | (k', v') :: d' => if bool_decide (key = k') then (key, v) :: d' else (k', v') :: dset d' key v
  end.

(** Python truthiness of a value. *)
Definition truthy (j : json) : bool :=
  match j with
  | JNull => false
  | JBool b => b
  | JInt z => bool_decide (z ≠ 0%Z)
  | JFloat r => negb (bool_decide (r = "0.0" ∨ r = "-0.0"))
  | JStr s => bool_decide (s ≠ "")
  | JList l => match l with [] => false | _ => true end
  | JObj d => match d with [] => false | _ => true end
  end.

(** [value.get(k)] tested for truth: the value when present and truthy. *)
Definition dget_truthy (d : dict) (k : string) : option json :=
  v ← dget d k; if truthy v then Some v else None.

Definition jstr_opt (o : option string) : json :=
  match o with Some s => JStr s | None => JNull end.

Definition juuid (u : uuid) : json := JStr (uuid_str u).

(** [f"{n}"] on an [int]. *)
Definition show_Z (z : Z) : string := pretty z.

(** One character of a [json.dumps] string (ASCII output). *)
Definition json_escape (c : ascii) : string :=
  let n := N_of_ascii c in
  if (n =? 34)%N then String "092"%char (String "034"%char EmptyString)
  else if (n =? 92)%N then String "092"%char (String "092"%char EmptyString)
  else if (n =? 10)%N then String "092"%char (String "n"%char EmptyString)
  else if (n =? 13)%N then String "092"%char (String "r"%char EmptyString)
  else if (n =? 9)%N then String "092"%char (String "t"%char EmptyString)
  else if (n =? 8)%N then String "092"%char (String "b"%char EmptyString)
  else if (n =? 12)%N then String "092"%char (String "f"%char EmptyString)
  else if ((32 <=? n) && (n <=? 126))%N then String c EmptyString
  else String "092"%char (String.string_of_list_ascii ("u"%char :: hex_digits 4 n)).

Fixpoint json_escape_all (s : string) : string :=
  match s with
  | EmptyString => EmptyString
  | String c s' => json_escape c +:+ json_escape_all s'
  end.

Definition quote : string := String "034"%char EmptyString.

Definition json_string (s : string) : string := quote +:+ json_escape_all s +:+ quote.

Definition str_join (sep : string) (l : list string) : string :=
  match l with
  | [] => ""
  | x :: l' => foldl (λ acc y, acc +:+ sep +:+ y) x l'
  end.

(** Ordering of the members of an object by key. *)
Definition member_le (a b : string * string) : Prop := String.leb a.1 b.1 = true.

#[export] Instance member_le_dec : RelDecision member_le.
Proof. intros a b. unfold member_le. apply _. Defined.

(** [json.dumps(v)] with the given separators; [sort_keys] orders the members
    of every object by key. *)
Fixpoint json_dumps_with (isep ksep : string) (sort_keys : bool) (v : json) : string :=
  match v with
  | JNull => "null"
  | JBool true => "true"
  | JBool false => "false"
  | JInt z => show_Z z
  | JFloat r => r
  | JStr s => json_string s
  | JList l => "[" +:+ str_join isep (map (json_dumps_with isep ksep sort_keys) l) +:+ "]"
  | JObj d =>
      let ms := map (λ kv, (kv.1, json_dumps_with isep ksep sort_keys kv.2)) d in
      let ms := if sort_keys then merge_sort member_le ms else ms in
      "{" +:+ str_join isep (map (λ kv, json_string kv.1 +:+ ksep +:+ kv.2) ms) +:+ "}"
  end.

(** [json.dumps(v)]. *)
Definition json_dumps (v : json) : string := json_dumps_with ", " ": " false v.

Example json_dumps_example :
  json_dumps (JObj [("b", JInt (-3)); ("a", JList [JNull; JBool true])]) =
  "{" +:+ quote +:+ "b" +:+ quote +:+ ": -3, " +:+ quote +:+ "a" +:+ quote +:+ ": [null, true]}".
Proof. vm_compute. reflexivity. Qed.

(** *** Strings *)

Lemma prefix_app p s : String.prefix p (p +:+ s) = true.
Proof.
  induction p as [|c p IH]; [by destruct s|]. change (String c p +:+ s) with (String c (p +:+ s)). cbn.
  by destruct (Ascii.ascii_dec c c).
Qed.

Lemma show_Z_inj x y : show_Z x = show_Z y → x = y.
Proof. apply (inj pretty). Qed.

(** The order of strings. *)
Definition string_le (a b : string) : Prop := String.leb a b = true.
#[export] Instance string_le_dec : RelDecision string_le.
Proof. intros a b. unfold string_le. apply _. Defined.

(** *** Lookup lemmas *)

Lemma dget_dremove_eq d k : dget (dremove k d) k = None.
Proof.
  induction d as [|[k' v] d IH]; [done|]. unfold dremove. rewrite filter_cons.
  case_decide as Hk; [|done]. cbn in *. rewrite bool_decide_false by congruence. exact IH.
Qed.

Lemma dget_dremove_ne d k k' : k ≠ k' → dget (dremove k d) k' = dget d k'.
Proof.
  intros Hne. induction d as [|[k'' v] d IH]; [done|]. unfold dremove. rewrite filter_cons. cbn.
  case_decide as Hk; cbn in *.
  - by case_bool_decide.
  - rewrite bool_decide_false by naive_solver. exact IH.
Qed.

Lemma dget_dset_eq d k v : dget (dset d k v) k = Some v.
Proof.
  induction d as [|[k' v'] d IH]; cbn; [by rewrite bool_decide_true|].
  case_bool_decide; cbn; case_bool_decide; done.
Qed.

(** ** Times

    A [datetime] in UTC is its distance from the epoch in microseconds. *)

(** The decimal digits of [n], padded with zeros to [width]. *)
Definition show_padded (width : nat) (n : Z) : string :=
  let s := show_Z n in
  String.concat "" (replicate (width - String.length s) "0") +:+ s.

(** Days since the epoch as year, month and day of the Gregorian calendar. *)
Definition civil_from_days (days : Z) : Z * Z * Z :=
  let z := (days + 719468)%Z in
  let era := (z / 146097)%Z in
  let doe := (z - era * 146097)%Z in
  let yoe := ((doe - doe / 1460 + doe / 36524 - doe / 146096) / 365)%Z in
  let doy := (doe - (365 * yoe + yoe / 4 - yoe / 100))%Z in
  let mp := ((5 * doy + 2) / 153)%Z in
  let d := (doy - (153 * mp + 2) / 5 + 1)%Z in
  let m := if (mp <? 10)%Z then (mp + 3)%Z else (mp - 9)%Z in
  ((yoe + era * 400 + (if (m <=? 2)%Z then 1 else 0))%Z, m, d).

(** [datetime.isoformat()] of an aware UTC datetime. *)
Definition isoformat (us : Z) : string :=
  let secs := (us / 1000000)%Z in
  let frac := (us mod 1000000)%Z in
  let '(y, m, d) := civil_from_days (secs / 86400) in
  let tod := (secs mod 86400)%Z in
  show_padded 4 y +:+ "-" +:+ show_padded 2 m +:+ "-" +:+ show_padded 2 d +:+ "T" +:+
  show_padded 2 (tod / 3600) +:+ ":" +:+ show_padded 2 (tod mod 3600 / 60) +:+ ":" +:+
  show_padded 2 (tod mod 60) +:+
  (if bool_decide (frac = 0%Z) then "" else "." +:+ show_padded 6 frac) +:+ "+00:00".

(** [timedelta.total_seconds()], printed: the fraction without trailing zeros. *)
Fixpoint trim_zeros (l : list Ascii.ascii) : list Ascii.ascii :=
  match l with
  | c :: l' => if bool_decide (c = "0"%char ∧ l' ≠ []) then trim_zeros l' else l
  | [] => l
  end.
Definition show_seconds (us : Z) : string :=
  let n := Z.abs us in
  (if (us <? 0)%Z then "-" else "") +:+ show_Z (n / 1000000) +:+ "." +:+
  String.string_of_list_ascii
    (rev (trim_zeros (rev (String.list_ascii_of_string (show_padded 6 (n mod 1000000)))))).

Example isoformat_now : isoformat 1753963200123456 = "2025-07-31T12:00:00.123456+00:00".
Proof. vm_compute. reflexivity. Qed.
Example isoformat_leap : isoformat 951782400000000 = "2000-02-29T00:00:00+00:00".
Proof. vm_compute. reflexivity. Qed.
Example show_seconds_frac : show_seconds 900250000 = "900.25".
Proof. vm_compute. reflexivity. Qed.
Example show_seconds_whole : show_seconds 900000000 = "900.0".
Proof. vm_compute. reflexivity. Qed.

(** ** [str()] of a JSON value *)

Fixpoint has_char (c : Ascii.ascii) (s : string) : bool :=
  match s with EmptyString => false | String x s' => bool_decide (x = c) || has_char c s' end.

(** One character inside the quotes [q] of a [repr]. *)
Definition repr_char (q c : Ascii.ascii) : string :=
  let n := Ascii.N_of_ascii c in
  if bool_decide (c = q ∨ c = "\"%char) then String "\"%char (String c EmptyString)
  else if (n =? 10)%N then "\n" else if (n =? 13)%N then "\r" else if (n =? 9)%N then "\t"
  else if ((n <? 32) || (n =? 127))%N
  then "\x" +:+ String.string_of_list_ascii (hex_digits 2 n)
  else String c EmptyString.

(** [repr(s)]; the bytes of a character outside ASCII are kept. *)
Definition repr_str (s : string) : string :=
  let q := if has_char "'" s && negb (has_char (Ascii.ascii_of_N 34) s) then Ascii.ascii_of_N 34 else "'"%char in
  let quote := String q EmptyString in
  quote +:+ String.concat "" (repr_char q <$> String.list_ascii_of_string s) +:+ quote.

Fixpoint py_repr (j : json) : string :=
  match j with
  | JNull => "None"
  | JBool b => if b then "True" else "False"
  | JInt z => show_Z z
  | JFloat r => r
  | JStr s => repr_str s
  | JList l => "[" +:+ String.concat ", " (map py_repr l) +:+ "]"
  | JObj d => "{" +:+ String.concat ", " (map (λ kv, repr_str kv.1 +:+ ": " +:+ py_repr kv.2) d) +:+ "}"
  end.

(** [str(v)]. *)
Definition py_str (j : json) : string := match j with JStr s => s | _ => py_repr j end.

(** [str(d.get(k))]. *)
Definition py_str_opt (o : option json) : string := match o with Some j => py_str j | None => "None" end.
