(* ===== verification/Codec.v ===== *)
(** * Reading back what the platform writes: JSON and ISO times

    [json.loads] and [datetime.fromisoformat] accept more than [json.dumps] and
    [isoformat] print; what the platform relies on is that they read it back.  That
    reliance is the interface [PyCodec]; [printed_codec] is an instance that reads
    exactly the printed forms. *)
From stdpp Require Import base tactics numbers option list gmap strings pretty.
From Stdlib Require Import Ascii ZArith Lia.
From S2P Require Import Prelude PyData.

Definition chars : string → list ascii := String.list_ascii_of_string.

Definition digit_of (c : ascii) : option N :=
  let n := N_of_ascii c in if ((48 <=? n) && (n <=? 57))%N then Some (n - 48)%N else None.

Definition all_digits (l : list ascii) : bool := forallb (λ c, bool_decide (is_Some (digit_of c))) l.

(** What is left of a text after the digits at its head. *)
Fixpoint drop_digits (s : list ascii) : list ascii :=
  match s with c :: s' => if bool_decide (is_Some (digit_of c)) then drop_digits s' else s | [] => [] end.

(** The text of a float without an exponent: digits on both sides of one dot. *)
Definition unsigned_float (l : list ascii) : bool :=
  match drop_digits l with
  | "."%char :: frac => bool_decide (drop_digits l ≠ l) && bool_decide (frac ≠ []) && all_digits frac
  | _ => false
  end.
Definition float_text (s : string) : bool :=
  match chars s with "-"%char :: l => unsigned_float l | l => unsigned_float l end.

(** A value [json.dumps] prints and [json.loads] reads back: floats, named by the text
    Python prints for them, without an exponent, and object keys that occur once, as in
    a [dict]. *)
Fixpoint json_plain (v : json) : bool :=
  match v with
  | JFloat f => float_text f
  | JList l => forallb json_plain l
  | JObj d => bool_decide (NoDup d.*1) && forallb (λ kv, json_plain kv.2) d
  | _ => true
  end.

(** The datetimes Python has: years 1 to 9999. *)
Definition valid_datetime (us : Z) : bool :=
  let '(y, _, _) := civil_from_days (us / 1000000 / 86400) in ((1 <=? y) && (y <=? 9999))%Z.

Class PyCodec := {
  json_loads : string → option json;
  fromisoformat : string → option Z;
  loads_dumps v : json_plain v = true → json_loads (json_dumps v) = Some v;
  iso_roundtrip us : valid_datetime us = true → fromisoformat (isoformat us) = Some us
}.

(** ** Characters and digits *)

Lemma chars_app a b : chars (a +:+ b) = chars a ++ chars b.
Proof. induction a as [|c a IH]; [done|].
  change (chars (String c a +:+ b)) with (c :: chars (a +:+ b)). by rewrite IH.
Qed.

Lemma chars_inj s : String.string_of_list_ascii (chars s) = s.
Proof. apply String.string_of_list_ascii_of_string. Qed.

(** The digits at the head of a text, after those already read. *)
Fixpoint read_digits (acc : N) (s : list ascii) : N * list ascii :=
  match s with
  | [] => (acc, [])
  | c :: s' => match digit_of c with Some d => read_digits (acc * 10 + d) s' | None => (acc, s) end
  end.

Definition stops (rest : list ascii) : Prop :=
  match rest with [] => True | c :: _ => digit_of c = None end.

(** What may follow a number. *)
Definition ends (rest : list ascii) : Prop := match rest with "."%char :: _ => False | _ => stops rest end.

Lemma ends_stops rest : ends rest → stops rest.
Proof. destruct rest as [|[[] [] [] [] [] [] [] []] rest]; done. Qed.

Lemma digit_pretty x : (x < 10)%N → digit_of (pretty_N_char x) = Some x.
Proof.
  intros Hx. assert (H : (x = 0 ∨ x = 1 ∨ x = 2 ∨ x = 3 ∨ x = 4 ∨ x = 5 ∨ x = 6 ∨ x = 7 ∨ x = 8 ∨ x = 9)%N) by lia.
  repeat destruct H as [->|H]; try done. by subst.
Qed.

Lemma read_pretty_go x s rest :
  read_digits 0 (chars (pretty_N_go x s) ++ rest) = read_digits x (chars s ++ rest).
Proof.
  revert s. induction (N.lt_wf_0 x) as [x _ IH]; intros s.
  assert (x = 0 ∨ 0 < x)%N as [->|Hx] by lia; [by rewrite pretty_N_go_0|].
  rewrite pretty_N_go_step by done. rewrite IH by (apply N.div_lt; lia).
  cbn [chars String.list_ascii_of_string app read_digits].
  rewrite digit_pretty by (apply N.mod_lt; lia). f_equal.
  rewrite N.mul_comm, <- N.div_mod; lia.
Qed.

Lemma read_stops n rest : stops rest → read_digits n rest = (n, rest).
Proof. destruct rest as [|c rest]; [done|]. cbn. by intros ->. Qed.

Lemma read_pretty_N (n : N) rest : stops rest → read_digits 0 (chars (pretty n) ++ rest) = (n, rest).
Proof.
  intros Hr. unfold pretty, pretty_N. case_decide; [subst; cbn; by apply read_stops|].
  rewrite read_pretty_go. by apply read_stops.
Qed.

Lemma pretty_head (n : N) : ∃ c tl, chars (pretty n) = c :: tl ∧ is_Some (digit_of c).
Proof.
  assert (Hgo : ∀ x s, (0 < x)%N → ∃ c tl, chars (pretty_N_go x s) = c :: tl ∧ is_Some (digit_of c)).
  { intros x. induction (N.lt_wf_0 x) as [x _ IH]; intros s Hx.
    rewrite pretty_N_go_step by done. destruct (N.eq_0_gt_0_cases (x `div` 10)) as [E|E].
    - rewrite E, pretty_N_go_0. eexists _, _. split; [done|]. rewrite digit_pretty by (apply N.mod_lt; lia). eauto.
    - apply IH; [apply N.div_lt; lia|done]. }
  unfold pretty, pretty_N. case_decide; [eexists _, _; split; [done|]; vm_compute; eauto|]. apply Hgo. lia.
Qed.

Lemma digit_char c d : digit_of c = Some d →
  is_space c = false ∧ c ≠ "-"%char ∧ c ≠ "+"%char ∧
  ((48 <=? Z.of_N (N_of_ascii c)) && (Z.of_N (N_of_ascii c) <=? 57))%Z = true ∧ (Z.of_N (N_of_ascii c) - 48)%Z = Z.of_N d.
Proof. destruct c as [[] [] [] [] [] [] [] []]; vm_compute; intros [=<-]; done. Qed.

Lemma int_read_digits l : ∀ (b : bool) (acc n : N), read_digits acc l = (n, []) → (b = true ∨ l ≠ []) →
  Forall (λ c, is_Some (digit_of c)) l ∧ int_digits b (Z.of_N acc) l = Some (Z.of_N n).
Proof.
  induction l as [|c l IH]; intros b acc n Hr Hb; cbn [read_digits] in Hr.
  - destruct Hb as [->|]; [|done]. injection Hr as <-. by split.
  - destruct (digit_of c) as [d|] eqn:Ed; [|done]. destruct (IH true _ _ Hr) as [Hl Hi]; [by left|].
    split; [by constructor|]. cbn [int_digits]. apply digit_char in Ed as (_ & _ & _ & -> & ->).
    replace (Z.of_N acc * 10 + Z.of_N d)%Z with (Z.of_N (acc * 10 + d)) by lia. done.
Qed.

(** [int(str(z))] is [z]. *)
Lemma py_int_show z : py_int (show_Z z) = Some z.
Proof.
  assert (Hn : ∀ m, Forall (λ c, is_space c = false) (chars (pretty m)) ∧
    int_digits false 0 (chars (pretty m)) = Some (Z.of_N m) ∧ py_int (pretty m) = Some (Z.of_N m)).
  { intros m. pose proof (read_pretty_N m [] I) as Hr. rewrite app_nil_r in Hr.
    destruct (pretty_head m) as (c & tl & E & [d Hd]).
    destruct (int_read_digits _ false _ _ Hr) as [Hl Hi]; [right; by rewrite E|].
    assert (Hs : Forall (λ c, is_space c = false) (chars (pretty m))).
    { eapply Forall_impl; [exact Hl|]. intros x [? Hx]. by apply digit_char in Hx as [? _]. }
    split_and!; [done..|]. unfold py_int. fold chars. rewrite strip_absent by done. change (Z.of_N 0) with 0%Z in Hi.
    rewrite E in *. apply digit_char in Hd as (_ & Hm & Hp & _).
    destruct c as [[] [] [] [] [] [] [] []]; done. }
  unfold show_Z, pretty, pretty_Z. destruct z as [|p|p]; [reflexivity|by apply (Hn (N.pos p))|].
  destruct (Hn (N.pos p)) as (Hs & Hi & _). unfold py_int. rewrite chars_app.
  change (chars "-" ++ ?l) with ("-"%char :: l). rewrite strip_absent by (constructor; [done|exact Hs]).
  transitivity (Z.opp <$> int_digits false 0 (chars (pretty (N.pos p)))); [done|]. by rewrite Hi.
Qed.

(** ** JSON *)

Definition char (n : nat) : ascii := ascii_of_nat n.

Definition hex4 (a b c d : ascii) : option ascii :=
  match hex_value a, hex_value b, hex_value c, hex_value d with
  | Some a, Some b, Some c, Some d =>
      let n := (((a * 16 + b) * 16 + c) * 16 + d)%N in
      if (n <? 256)%N then Some (ascii_of_N n) else None
  | _, _, _, _ => None
  end.

Definition unescape (c : ascii) : option ascii :=
  if bool_decide (c = "n"%char) then Some (char 10)
  else if bool_decide (c = "r"%char) then Some (char 13)
  else if bool_decide (c = "t"%char) then Some (char 9)
  else if bool_decide (c = "b"%char) then Some (char 8)
  else if bool_decide (c = "f"%char) then Some (char 12)
  else if bool_decide (c = char 34) then Some (char 34)
  else if bool_decide (c = char 92) then Some (char 92)
  else None.

(** The rest of a string after its opening quote. *)
Fixpoint read_str (s : list ascii) : option (list ascii * list ascii) :=
  match s with
  | [] => None
  | c :: s1 =>
      if bool_decide (c = char 34) then Some ([], s1)
      else if bool_decide (c = char 92) then
        match s1 with
        | [] => None
        | e :: s2 =>
            if bool_decide (e = "u"%char) then
              match s2 with
              | h1 :: h2 :: h3 :: h4 :: s3 =>
                  x ← hex4 h1 h2 h3 h4; '(l, r) ← read_str s3; Some (x :: l, r)
              | _ => None
              end
            else x ← unescape e; '(l, r) ← read_str s2; Some (x :: l, r)
        end
      else '(l, r) ← read_str s1; Some (c :: l, r)
  end.

Lemma read_escaped c tl :
  read_str (chars (json_escape c) ++ tl) = ('(l, r) ← read_str tl; Some (c :: l, r)).
Proof. destruct c as [[] [] [] [] [] [] [] []]; reflexivity. Qed.

Lemma read_str_escape s rest : read_str (chars (json_escape_all s) ++ char 34 :: rest) = Some (chars s, rest).
Proof.
  induction s as [|c s IH]; [reflexivity|].
  change (json_escape_all (String c s)) with (json_escape c +:+ json_escape_all s).
  rewrite chars_app, <- app_assoc, read_escaped, IH. reflexivity.
Qed.

(** Is this text a number? *)
Definition number_next (s : list ascii) : bool :=
  match s with c :: _ => bool_decide (c = "-"%char) || bool_decide (is_Some (digit_of c)) | [] => false end.

(** A number: an integer, or a float kept as its text. *)
Definition read_number (s : list ascii) : option (json * list ascii) :=
  match s with
  | c :: s' =>
      let neg := bool_decide (c = "-"%char) in
      let '(n, r) := read_digits 0 (if neg then s' else s) in
      match r with
      | "."%char :: r' =>
          let rest := drop_digits r' in
          Some (JFloat (String.string_of_list_ascii (take (length s - length rest) s)), rest)
      | _ => Some (JInt (if neg then - Z.of_N n else Z.of_N n), r)
      end
  | [] => None
  end.

(** Drop a literal. *)
Fixpoint eat (lit s : list ascii) : option (list ascii) :=
  match lit, s with
  | [], _ => Some s
  | a :: lit', c :: s' => if bool_decide (a = c) then eat lit' s' else None
  | _ :: _, [] => None
  end.

Lemma eat_app lit rest : eat lit (lit ++ rest) = Some rest.
Proof. induction lit as [|a lit IH]; [done|]. cbn. by rewrite bool_decide_true. Qed.

(** One value, the items of a list or the members of an object; each call of one for
    another spends fuel. *)
Fixpoint read_value (fuel : nat) (s : list ascii) : option (json * list ascii) :=
  match fuel with
  | O => None
  | S fuel =>
      if number_next s then read_number s
      else match s with
           | "n"%char :: _ => r ← eat (chars "null") s; Some (JNull, r)
           | "t"%char :: _ => r ← eat (chars "true") s; Some (JBool true, r)
           | "f"%char :: _ => r ← eat (chars "false") s; Some (JBool false, r)
           | "["%char :: "]"%char :: r => Some (JList [], r)
           | "["%char :: r => '(l, r) ← read_items fuel r; Some (JList l, r)
           | "{"%char :: "}"%char :: r => Some (JObj [], r)
           | "{"%char :: r => '(d, r) ← read_members fuel r; Some (JObj d, r)
           | c :: r =>
               if bool_decide (c = char 34) then '(l, r) ← read_str r; Some (JStr (String.string_of_list_ascii l), r)
               else None
           | [] => None
           end
  end
with read_items (fuel : nat) (s : list ascii) : option (list json * list ascii) :=
  match fuel with
  | O => None
  | S fuel =>
      '(v, r) ← read_value fuel s;
      match r with
      | "]"%char :: r => Some ([v], r)
      | _ => r ← eat (chars ", ") r; '(l, r) ← read_items fuel r; Some (v :: l, r)
      end
  end
with read_members (fuel : nat) (s : list ascii) : option (dict * list ascii) :=
  match fuel with
  | O => None
  | S fuel =>
      r ← eat [char 34] s;
      '(k, r) ← read_str r;
      r ← eat (chars ": ") r;
      '(v, r) ← read_value fuel r;
      let kv := (String.string_of_list_ascii k, v) in
      match r with
      | "}"%char :: r => Some ([kv], r)
      | _ => r ← eat (chars ", ") r; '(d, r) ← read_members fuel r; Some (kv :: d, r)
      end
  end.

(** The whole text is one value. *)
Definition json_read (s : string) : option json :=
  match read_value (length (chars s)) (chars s) with Some (v, []) => Some v | _ => None end.

(** Fuel enough to read a value back. *)
Fixpoint jsize (v : json) : nat :=
  match v with
  | JList l => S (sum_list (map (λ v, S (jsize v)) l))
  | JObj d => S (sum_list (map (λ kv, S (jsize kv.2)) d))
  | _ => 1
  end.

Lemma append_assoc (a b c : string) : (a +:+ b) +:+ c = a +:+ b +:+ c.
Proof.
  rewrite <- (chars_inj ((a +:+ b) +:+ c)), <- (chars_inj (a +:+ b +:+ c)). by rewrite !chars_app, app_assoc.
Qed.

Lemma str_join_cons sep x y l : str_join sep (x :: y :: l) = x +:+ sep +:+ str_join sep (y :: l).
Proof.
  cbn. revert y. induction l as [|z l IH]; intros y; [done|]. cbn. rewrite <- IH.
  f_equal. by rewrite !append_assoc.
Qed.

Definition items_text (l : list json) : list ascii := chars (str_join ", " (map json_dumps l)).
Definition member_text (kv : string * json) : string := json_string kv.1 +:+ ": " +:+ json_dumps kv.2.
Definition members_text (d : dict) : list ascii := chars (str_join ", " (map member_text d)).

Lemma dumps_list l : chars (json_dumps (JList l)) = "["%char :: items_text l ++ ["]"%char].
Proof.
  unfold json_dumps at 1. cbn [json_dumps_with]. rewrite !chars_app. done.
Qed.

Lemma dumps_obj d : chars (json_dumps (JObj d)) = "{"%char :: members_text d ++ ["}"%char].
Proof.
  unfold json_dumps at 1. cbn [json_dumps_with]. rewrite !chars_app.
  cbn [chars String.list_ascii_of_string app]. do 3 f_equal. unfold members_text. do 2 f_equal.
  rewrite map_map. apply map_ext. done.
Qed.

Lemma stops_comma rest : ends (chars ", " ++ rest).
Proof. done. Qed.

(** A float as text: a sign or nothing, digits, a dot and digits. *)
Definition signed (neg : bool) (l : list ascii) : list ascii := if neg then "-"%char :: l else l.

Lemma drop_digits_app l : ∃ d, l = d ++ drop_digits l ∧ all_digits d = true.
Proof.
  induction l as [|c l (d & E & Hd)]; [by exists []|]. cbn. destruct (bool_decide (is_Some (digit_of c))) eqn:Ec.
  - exists (c :: d). split; [cbn; by rewrite <- E|]. unfold all_digits in *. cbn [forallb]. by rewrite Ec, Hd.
  - by exists [].
Qed.

Lemma float_shape s : float_text s = true →
  ∃ neg a b, chars s = signed neg (a ++ "."%char :: b) ∧ a ≠ [] ∧ all_digits a = true ∧ all_digits b = true.
Proof.
  assert (Hu : ∀ l, unsigned_float l = true → ∃ a b, l = a ++ "."%char :: b ∧ a ≠ [] ∧ all_digits a = true ∧ all_digits b = true).
  { intros l. unfold unsigned_float. destruct (drop_digits_app l) as (a & E & Ha).
    destruct (drop_digits l) as [|c b] eqn:Eb; [done|]. intros Hf.
    assert (c = "."%char) as -> by (destruct c as [[] [] [] [] [] [] [] []]; done). apply andb_true_iff in Hf as [Hf Hb].
    apply andb_true_iff in Hf as [Hne _]. apply bool_decide_eq_true_1 in Hne. exists a, b. split_and!; try done. by intros ->. }
  unfold float_text. intros Hf. destruct (chars s) as [|c l]; [by apply Hu in Hf as (a & b & ? & ?); exists false, a, b|].
  destruct (decide (c = "-"%char)) as [->|Hc]; [apply Hu in Hf as (a & b & -> & ?); by exists true, a, b|].
  exists false. apply Hu. by destruct c as [[] [] [] [] [] [] [] []].
Qed.

Lemma float_head s : float_text s = true →
  ∃ c tl, chars s = c :: tl ∧ c ≠ "]"%char ∧ number_next (c :: tl) = true.
Proof.
  intros (neg & a & b & E & Ha & Hd & _)%float_shape. destruct neg, a as [|c a]; try done; rewrite E; cbn; eexists _, _; split; try done.
  cbn in Hd. apply andb_true_iff in Hd as [Hc _]. rewrite Hc, orb_true_r. split; [|done]. intros ->. done.
Qed.

Lemma read_digits_skip n a rest : all_digits a = true → stops rest → ∃ m, read_digits n (a ++ rest) = (m, rest).
Proof.
  intros Ha Hr. revert n. induction a as [|c a IH]; intros n; [exists n; by apply read_stops|]. cbn in *.
  apply andb_true_iff in Ha as [Hc Ha]. apply bool_decide_eq_true_1 in Hc as [d ->]. by apply IH.
Qed.

Lemma drop_digits_skip a rest : all_digits a = true → stops rest → drop_digits (a ++ rest) = rest.
Proof.
  intros Ha Hr. induction a as [|c a IH]; cbn in *.
  - destruct rest as [|c rest]; [done|]. cbn in *. by rewrite Hr.
  - apply andb_true_iff in Ha as [-> Ha]. by apply IH.
Qed.

Lemma read_float s rest : float_text s = true → ends rest → read_number (chars s ++ rest) = Some (JFloat s, rest).
Proof.
  intros (neg & a & b & E & Hne & Ha & Hb)%float_shape Hr%ends_stops. destruct a as [|d a]; [done|].
  assert (Hd : d ≠ "-"%char) by (intros ->; done).
  assert (Hread : ∀ l, l = chars s ++ rest →
    JFloat (String.string_of_list_ascii (take (length l - length rest) l)) = JFloat s).
  { intros l ->. rewrite length_app, Nat.add_sub, take_app_length. by rewrite chars_inj. }
  destruct (read_digits_skip 0 (d :: a) ("."%char :: b ++ rest) Ha eq_refl) as [m Hm].
  rewrite <- (Hread _ eq_refl), E. destruct neg; cbn [signed app] in *.
  - unfold read_number. rewrite (bool_decide_true ("-"%char = "-"%char)) by done. cbn [negb]. rewrite <- app_assoc. cbn [app].
    rewrite Hm, drop_digits_skip by done. done.
  - unfold read_number. rewrite bool_decide_false by done. rewrite <- app_assoc. cbn [app].
    rewrite Hm, drop_digits_skip by done. done.
Qed.

(** No value starts with a closing bracket, and none but a number starts like one. *)
Lemma dumps_head v : json_plain v = true →
  ∃ c tl, chars (json_dumps v) = c :: tl ∧ c ≠ "]"%char ∧
    (number_next (c :: tl) = match v with JInt _ | JFloat _ => true | _ => false end).
Proof.
  destruct v as [|[]|z|f|s|l|d]; intros Hp; try done; try (eexists _, _; split; [reflexivity|]; split; done).
  - unfold json_dumps, json_dumps_with, show_Z, pretty, pretty_Z.
    destruct z as [|p|p]; [by eexists _, _| |].
    + unfold pretty, pretty_positive. destruct (pretty_head (N.pos p)) as (c & tl & E & Hd). exists c, tl.
      split; [exact E|]. unfold number_next. split; [|by rewrite (bool_decide_true (is_Some _)), orb_true_r].
      intros ->. by destruct Hd.
    + eexists _, _. split; [reflexivity|]. split; [done|reflexivity].
  - apply float_head in Hp as (c & tl & E & Hc & Hn). by exists c, tl.
Qed.

(** ** Reading back *)

Definition reads_value (fuel : nat) : Prop := ∀ v rest,
  json_plain v = true → (jsize v ≤ fuel)%nat → ends rest →
  read_value fuel (chars (json_dumps v) ++ rest) = Some (v, rest).

Definition reads_items (fuel : nat) : Prop := ∀ v l rest,
  forallb json_plain (v :: l) = true → (sum_list (map (λ v, S (jsize v)) (v :: l)) ≤ fuel)%nat →
  read_items fuel (items_text (v :: l) ++ "]"%char :: rest) = Some (v :: l, rest).

Definition reads_members (fuel : nat) : Prop := ∀ kv d rest,
  forallb (λ kv, json_plain kv.2) (kv :: d) = true → (sum_list (map (λ kv, S (jsize kv.2)) (kv :: d)) ≤ fuel)%nat →
  read_members fuel (members_text (kv :: d) ++ "}"%char :: rest) = Some (kv :: d, rest).

Lemma read_int z rest : ends rest → read_number (chars (show_Z z) ++ rest) = Some (JInt z, rest).
Proof.
  intros He. pose proof (ends_stops _ He) as Hr.
  assert (Hend : ∀ (l : list ascii) (z' : Z), z' = z →
    match rest with
    | "."%char :: r' => Some (JFloat (String.string_of_list_ascii (take (length l - length (drop_digits r')) l)), drop_digits r')
    | _ => Some (JInt z', rest)
    end = Some (JInt z, rest)).
  { intros l z' ->. destruct rest as [|[[] [] [] [] [] [] [] []] rest]; done. }
  unfold show_Z, pretty, pretty_Z. destruct z as [|p|p].
  - unfold read_number. cbn [chars String.list_ascii_of_string app]. rewrite bool_decide_false by done.
    change ("0"%char :: rest) with (chars (pretty 0%N) ++ rest) at 1. rewrite read_pretty_N by done. by apply Hend.
  - unfold pretty, pretty_positive. pose proof (read_pretty_N (N.pos p) rest Hr) as Hn.
    destruct (pretty_head (N.pos p)) as (c & tl & E & Hd). rewrite E in *. cbn [app] in *.
    unfold read_number. rewrite bool_decide_false by (intros ->; by destruct Hd). rewrite Hn. by apply Hend.
  - rewrite chars_app. unfold pretty, pretty_positive.
    change (chars "-" ++ chars (pretty (N.pos p))) with ("-"%char :: chars (pretty (N.pos p))). cbn [app].
    unfold read_number. rewrite bool_decide_true by done. rewrite read_pretty_N by done. by apply Hend.
Qed.

Lemma items_cons v w l : items_text (v :: w :: l) = chars (json_dumps v) ++ chars ", " ++ items_text (w :: l).
Proof. unfold items_text. cbn [map]. rewrite str_join_cons, !chars_app. done. Qed.
Lemma members_cons kv kw d : members_text (kv :: kw :: d) = chars (member_text kv) ++ chars ", " ++ members_text (kw :: d).
Proof. unfold members_text. cbn [map]. rewrite str_join_cons, !chars_app. done. Qed.

(** A value that does not start like a number is dispatched on its first character. *)
Lemma read_value_step fuel v rest : json_plain v = true → ends rest →
  (∀ l, v = JList l → l ≠ [] → read_items fuel (items_text l ++ "]"%char :: rest) = Some (l, rest)) →
  (∀ d, v = JObj d → d ≠ [] → read_members fuel (members_text d ++ "}"%char :: rest) = Some (d, rest)) →
  read_value (S fuel) (chars (json_dumps v) ++ rest) = Some (v, rest).
Proof.
  intros Hp Hr Hl Hd. destruct (dumps_head v Hp) as (c & tl & E & _ & Hn).
  assert (Hnext : number_next (chars (json_dumps v) ++ rest) = match v with JInt _ | JFloat _ => true | _ => false end).
  { rewrite E. exact Hn. }
  change (read_value (S fuel) (chars (json_dumps v) ++ rest)) with
    (if number_next (chars (json_dumps v) ++ rest) then read_number (chars (json_dumps v) ++ rest)
     else ltac:(let t := eval cbn [read_value] in (read_value (S fuel) (chars (json_dumps v) ++ rest)) in
                match t with (if _ then _ else ?e) => exact e end)).
  rewrite Hnext. destruct v as [|[]|z|f|s|l|d]; try done.
  - by apply read_int.
  - by apply read_float.
  - assert (Hs : chars (json_dumps (JStr s)) ++ rest = char 34 :: chars (json_escape_all s) ++ char 34 :: rest).
    { unfold json_dumps, json_dumps_with, json_string. rewrite !chars_app, <- app_assoc. cbn. by rewrite <- app_assoc. }
    rewrite Hs. cbn beta iota. rewrite bool_decide_true by done. rewrite read_str_escape. cbn. by rewrite chars_inj.
  - destruct l as [|x l]; [done|]. rewrite dumps_list. cbn [app]. rewrite <- app_assoc. cbn [app].
    specialize (Hl _ eq_refl ltac:(done)).
    assert (Hx : ∃ c tl, items_text (x :: l) = c :: tl ∧ c ≠ "]"%char).
    { cbn [json_plain forallb] in Hp. apply andb_true_iff in Hp as [Hp _]. destruct (dumps_head x Hp) as (c' & tl' & E' & Hc & _).
      destruct l as [|y l]; [exists c', tl'|rewrite items_cons, E'; by exists c', (tl' ++ chars ", " ++ items_text (y :: l))].
      unfold items_text. cbn. by rewrite E'. }
    destruct Hx as (c' & tl' & E' & Hc). rewrite E' in *. cbn [app] in *.
    destruct c' as [[] [] [] [] [] [] [] []]; first [by destruct Hc|cbn beta iota; rewrite Hl; reflexivity].
  - destruct d as [|kv d]; [done|]. rewrite dumps_obj. cbn [app]. rewrite <- app_assoc. cbn [app].
    specialize (Hd _ eq_refl ltac:(done)).
    assert (Hx : ∃ tl, members_text (kv :: d) = char 34 :: tl).
    { destruct d as [|kw d]; [|rewrite members_cons]; unfold members_text; cbn [map str_join foldl]; unfold member_text, json_string;
        rewrite !chars_app; cbn; eauto. }
    destruct Hx as (tl' & E'). rewrite E' in *. cbn [app] in *. cbn beta iota. rewrite Hd. reflexivity.
Qed.

Lemma reads_all fuel : reads_value fuel ∧ reads_items fuel ∧ reads_members fuel.
Proof.
  induction fuel as [|fuel (IHv & IHi & IHm)].
  { split; [|split].
    - intros v rest _ H. destruct v; cbn in H; lia.
    - intros v l rest _ H. cbn in H. lia.
    - intros kv d rest _ H. cbn in H. lia. }
  split; [|split].
  - intros v rest Hp Hs Hr. apply read_value_step; [done|done| |].
    + intros [|x l] -> Hne; [done|]. apply IHi; [done|]. cbn in *. lia.
    + intros [|x d] -> Hne; [done|]. cbn [json_plain] in Hp. apply andb_true_iff in Hp as [_ Hp]. apply IHm; [done|]. cbn in *. lia.
  - intros v l rest Hp Hs. cbn [forallb] in Hp. apply andb_true_iff in Hp as [Hv Hl]. cbn [map sum_list sum_list_with] in Hs.
    destruct l as [|w l].
    + unfold items_text. cbn [map str_join foldl]. cbn [read_items].
      rewrite IHv; [reflexivity|done|cbn in Hs; lia|done].
    + rewrite items_cons, <- !app_assoc. cbn [read_items].
      rewrite IHv; [|done|cbn in *; lia|apply stops_comma]. cbn [mbind option_bind].
      change (chars ", " ++ ?x) with (","%char :: " "%char :: x). cbn beta iota. cbn [eat chars String.list_ascii_of_string].
      rewrite !bool_decide_true by done. cbn [mbind option_bind]. rewrite IHi; [reflexivity|done|cbn in *; lia].
  - intros [k v] d rest Hp Hs. cbn [forallb] in Hp. apply andb_true_iff in Hp as [Hv Hd]. cbn [map sum_list sum_list_with] in Hs.
    assert (Hm : ∀ tl, chars (member_text (k, v)) ++ tl = char 34 :: chars (json_escape_all k) ++ char 34 :: chars ": " ++ chars (json_dumps v) ++ tl).
    { intros tl. unfold member_text, json_string. cbn [fst snd]. rewrite !chars_app, <- !app_assoc. reflexivity. }
    assert (Hhead : ∀ tl, read_members (S fuel) (chars (member_text (k, v)) ++ tl) =
       '(v, r) ← read_value fuel (chars (json_dumps v) ++ tl);
       match r with
       | "}"%char :: r => Some ([(k, v)], r)
       | _ => r ← eat (chars ", ") r; '(d, r) ← read_members fuel r; Some ((k, v) :: d, r)
       end).
    { intros tl. rewrite Hm. cbn [read_members eat]. rewrite bool_decide_true by done. cbn [mbind option_bind].
      rewrite read_str_escape. cbn [mbind option_bind]. rewrite eat_app. cbn [mbind option_bind]. by rewrite chars_inj. }
    destruct d as [|kw d].
    + unfold members_text. cbn [map str_join foldl]. rewrite Hhead, IHv; [reflexivity|done|cbn in Hs; lia|done].
    + rewrite members_cons, <- !app_assoc, Hhead. rewrite IHv; [|done|cbn in *; lia|apply stops_comma]. cbn [mbind option_bind].
      change (chars ", " ++ ?x) with (","%char :: " "%char :: x). cbn beta iota. cbn [eat chars String.list_ascii_of_string].
      rewrite !bool_decide_true by done. cbn [mbind option_bind]. rewrite IHm; [reflexivity|done|cbn in *; lia].
Qed.

(** The text of a value is long enough to be the fuel. *)
Lemma items_long l : l ≠ [] → (∀ v, v ∈ l → (jsize v ≤ length (chars (json_dumps v)))%nat) →
  (sum_list (map (λ v, S (jsize v)) l) ≤ S (length (items_text l)))%nat.
Proof.
  intros Hne H. induction l as [|v l IH]; [done|]. pose proof (H v ltac:(left)) as Hv. destruct l as [|w l].
  - unfold items_text. cbn in *. lia.
  - rewrite items_cons, !length_app. specialize (IH ltac:(done) ltac:(intros x Hx; apply H; by right)).
    change (length (chars ", ")) with 2%nat. cbn [map sum_list sum_list_with] in *. cbn in *. lia.
Qed.

Lemma members_long d : d ≠ [] → (∀ kv, kv ∈ d → (jsize kv.2 ≤ length (chars (json_dumps kv.2)))%nat) →
  (sum_list (map (λ kv, S (jsize kv.2)) d) ≤ length (members_text d))%nat.
Proof.
  intros Hne H. assert (Hm : ∀ kv, (S (length (chars (json_dumps kv.2))) ≤ length (chars (member_text kv)))%nat).
  { intros kv. unfold member_text. rewrite !chars_app, !length_app. change (length (chars ": ")) with 2%nat. lia. }
  induction d as [|kv d IH]; [done|]. pose proof (H kv ltac:(left)) as Hv. specialize (Hm kv) as Hkv. destruct d as [|kw d].
  - unfold members_text. cbn [map str_join foldl sum_list sum_list_with] in *. cbn in *. lia.
  - rewrite members_cons, !length_app. specialize (IH ltac:(done) ltac:(intros x Hx; apply H; by right)).
    cbn [map sum_list sum_list_with] in *. cbn in *. lia.
Qed.

Lemma sum_map_ge {A} (f : A → nat) l x : x ∈ l → (f x ≤ sum_list (map f l))%nat.
Proof. induction 1; cbn in *; lia. Qed.

Lemma jsize_text n v : (jsize v ≤ n)%nat → json_plain v = true → (jsize v ≤ length (chars (json_dumps v)))%nat.
Proof.
  revert v. induction n as [|n IH]; intros v Hn Hp; [destruct v; cbn in Hn; lia|].
  assert (Hone : (1 ≤ length (chars (json_dumps v)))%nat).
  { destruct (dumps_head v Hp) as (c & tl & -> & _). cbn. lia. }
  destruct v as [|[]|z|f|s|l|d]; try done.
  - rewrite dumps_list. destruct l as [|x l]; [cbn; lia|]. cbn [length]. rewrite length_app. cbn [length jsize].
    pose proof (items_long (x :: l) ltac:(done)) as H. cbn [json_plain] in Hp.
    enough (sum_list (map (λ v, S (jsize v)) (x :: l)) ≤ S (length (items_text (x :: l))))%nat by lia.
    apply H. intros v Hv. apply IH; [|by apply (proj1 (forallb_forall _ _) Hp), list_elem_of_In].
    cbn [jsize] in Hn. pose proof (sum_map_ge (λ v, S (jsize v)) _ _ Hv). cbn beta in *. lia.
  - rewrite dumps_obj. destruct d as [|x d]; [cbn; lia|]. cbn [length]. rewrite length_app. cbn [length jsize].
    pose proof (members_long (x :: d) ltac:(done)) as H. cbn [json_plain] in Hp. apply andb_true_iff in Hp as [_ Hp].
    enough (sum_list (map (λ kv, S (jsize kv.2)) (x :: d)) ≤ length (members_text (x :: d)))%nat by lia.
    apply H. intros v Hv. apply IH; [|by apply (proj1 (forallb_forall _ _) Hp), list_elem_of_In].
    cbn [jsize] in Hn. pose proof (sum_map_ge (λ kv, S (jsize kv.2)) _ _ Hv). cbn beta in *. lia.
Qed.

(** [json.loads(json.dumps(v))] is [v]. *)
Theorem json_read_dumps v : json_plain v = true → json_read (json_dumps v) = Some v.
Proof.
  intros Hp. unfold json_read. pose proof (jsize_text (jsize v) v ltac:(lia) Hp) as Hn.
  pose proof (proj1 (reads_all (length (chars (json_dumps v)))) v [] Hp Hn I) as H.
  rewrite app_nil_r in H. by rewrite H.
Qed.

(** ** Times *)

(** [k] digits. *)
Definition read_fixed (k : nat) (s : list ascii) : option (Z * list ascii) :=
  match read_digits 0 (take k s) with
  | (n, []) => if (length (take k s) =? k)%nat then Some (Z.of_N n, drop k s) else None
  | _ => None
  end.

(** The day of a date, counted from the epoch. *)
Definition days_from_civil (y m d : Z) : Z :=
  let y := (if (m <=? 2)%Z then y - 1 else y)%Z in
  let era := (y / 400)%Z in
  let yoe := (y - era * 400)%Z in
  let doy := ((153 * (if (2 <? m)%Z then m - 3 else m + 9) + 2) / 5 + d - 1)%Z in
  (era * 146097 + (yoe * 365 + yoe / 4 - yoe / 100 + doy) - 719468)%Z.

Definition iso_read (s : string) : option Z :=
  '(y, r) ← read_fixed 4 (chars s); r ← eat (chars "-") r;
  '(m, r) ← read_fixed 2 r; r ← eat (chars "-") r;
  '(d, r) ← read_fixed 2 r; r ← eat (chars "T") r;
  '(hh, r) ← read_fixed 2 r; r ← eat (chars ":") r;
  '(mm, r) ← read_fixed 2 r; r ← eat (chars ":") r;
  '(ss, r) ← read_fixed 2 r;
  '(frac, r) ← match eat (chars ".") r with Some r => read_fixed 6 r | None => Some (0%Z, r) end;
  r ← eat (chars "+00:00") r;
  if bool_decide (r = [])
  then Some (((days_from_civil y m d * 86400 + hh * 3600 + mm * 60 + ss) * 1000000 + frac)%Z) else None.

Lemma pretty_go_length k x s : (x < 10 ^ N.of_nat k)%N → (length (chars (pretty_N_go x s)) ≤ k + length (chars s))%nat.
Proof.
  revert x s. induction k as [|k IH]; intros x s Hx.
  - assert (x = 0%N) as -> by (cbn in Hx; lia). by rewrite pretty_N_go_0.
  - destruct (N.eq_0_gt_0_cases x) as [->|H0]; [rewrite pretty_N_go_0; lia|].
    rewrite pretty_N_go_step by done. etrans; [apply IH|cbn; lia].
    apply N.Div0.div_lt_upper_bound. rewrite <- N.pow_succ_r'. by rewrite <- Nat2N.inj_succ.
Qed.

Lemma pretty_length k (n : N) : (0 < k)%nat → (n < 10 ^ N.of_nat k)%N → (length (chars (pretty n)) ≤ k)%nat.
Proof.
  intros Hk Hn. unfold pretty, pretty_N. case_decide; [cbn; lia|].
  etrans; [by apply (pretty_go_length k)|cbn; lia].
Qed.

Lemma chars_zeros k : chars (String.concat "" (replicate k "0")) = replicate k "0"%char.
Proof.
  induction k as [|[|k] IH]; [done|done|].
  change (String.concat "" (replicate (S (S k)) "0")) with ("0" +:+ "" +:+ String.concat "" (replicate (S k) "0")).
  rewrite !chars_app, IH. done.
Qed.

Lemma read_zeros k s : read_digits 0 (replicate k "0"%char ++ s) = read_digits 0 s.
Proof. induction k as [|k IH]; [done|]. exact IH. Qed.

Lemma read_padded k n rest : (0 < k)%nat → (0 ≤ n < 10 ^ Z.of_nat k)%Z →
  read_fixed k (chars (show_padded k n) ++ rest) = Some (n, rest).
Proof.
  intros Hk Hn. unfold show_padded, show_Z.
  assert (Hp : pretty n = pretty (Z.to_N n)) by (destruct n; [done|done|lia]). rewrite Hp.
  set (s := pretty (Z.to_N n)).
  assert (Hlen : String.length s = length (chars s)).
  { clear. generalize s. induction s0 as [|c s' IH]; [done|]. cbn. by f_equal. }
  rewrite Hlen, chars_app, chars_zeros.
  assert (Hl : (length (chars s) ≤ k)%nat).
  { apply pretty_length; [done|]. apply N2Z.inj_lt. rewrite N2Z.inj_pow, Z2N.id, nat_N_Z by lia. apply Hn. }
  set (t := replicate (k - length (chars s)) "0"%char ++ chars s).
  assert (Ht : length t = k) by (unfold t; rewrite length_app, length_replicate; lia).
  unfold read_fixed. rewrite take_app_le, take_ge by lia. rewrite Ht, Nat.eqb_refl.
  rewrite drop_app_ge by lia. rewrite Ht, Nat.sub_diag. unfold t. rewrite read_zeros.
  pose proof (read_pretty_N (Z.to_N n) [] I) as Hr. rewrite app_nil_r in Hr. fold s in Hr. rewrite Hr.
  by rewrite Z2N.id by lia.
Qed.

(** The part of the calendar that depends on the day of the 400-year era only. *)
Definition era_year (doe : Z) : Z := ((doe - doe / 1460 + doe / 36524 - doe / 146096) / 365)%Z.
Definition era_month (doe : Z) : Z :=
  let yoe := era_year doe in
  let mp := ((5 * (doe - (365 * yoe + yoe / 4 - yoe / 100)) + 2) / 153)%Z in
  (if (mp <? 10)%Z then mp + 3 else mp - 9)%Z.
Definition era_day (doe : Z) : Z :=
  let yoe := era_year doe in
  let doy := (doe - (365 * yoe + yoe / 4 - yoe / 100))%Z in
  (doy - (153 * ((5 * doy + 2) / 153) + 2) / 5 + 1)%Z.

Definition era_ok (doe : Z) : bool :=
  let y := era_year doe in let m := era_month doe in let d := era_day doe in
  ((0 <=? y) && (y <=? 399) && (1 <=? m) && (m <=? 12) && (1 <=? d) && (d <=? 31) &&
   (y * 365 + y / 4 - y / 100 + ((153 * (if 2 <? m then m - 3 else m + 9) + 2) / 5 + d - 1) =? doe))%Z.

Lemma era_year_bounds doe : (0 ≤ doe < 146097)%Z →
  (0 ≤ era_year doe ≤ 399)%Z ∧ (0 ≤ doe - (365 * era_year doe + era_year doe / 4 - era_year doe / 100) ≤ 365)%Z.
Proof. intros Hd. unfold era_year. Z.div_mod_to_equations. lia. Qed.

Lemma era_ok_at doe : (0 ≤ doe < 146097)%Z → era_ok doe = true.
Proof.
  intros Hd. destruct (era_year_bounds doe Hd) as [Hy Hdoy]. unfold era_ok, era_month, era_day.
  generalize dependent (era_year doe). intros y Hy Hdoy. cbv zeta.
  set (doy := (doe - (365 * y + y / 4 - y / 100))%Z) in *.
  assert (Hmp : (0 ≤ (5 * doy + 2) / 153 ≤ 11)%Z) by (Z.div_mod_to_equations; lia).
  assert (Hday : (0 ≤ doy - (153 * ((5 * doy + 2) / 153) + 2) / 5 ≤ 30)%Z) by (Z.div_mod_to_equations; lia).
  generalize dependent ((5 * doy + 2) / 153)%Z. intros mp Hmp Hday.
  assert (Hinv : (if 2 <? (if mp <? 10 then mp + 3 else mp - 9) then (if mp <? 10 then mp + 3 else mp - 9) - 3
                  else (if mp <? 10 then mp + 3 else mp - 9) + 9)%Z = mp).
  { destruct (mp <? 10)%Z eqn:E; [apply Z.ltb_lt in E|apply Z.ltb_ge in E].
    - rewrite (proj2 (Z.ltb_lt _ _)) by lia. lia.
    - rewrite (proj2 (Z.ltb_ge _ _)) by lia. lia. }
  rewrite Hinv. rewrite !andb_true_iff, !Z.leb_le, Z.eqb_eq.
  destruct (mp <? 10)%Z eqn:E; [apply Z.ltb_lt in E|apply Z.ltb_ge in E]; unfold doy in *; lia.
Qed.

Lemma civil_inverse days : ∀ y m d, civil_from_days days = (y, m, d) →
  days_from_civil y m d = days ∧ (1 ≤ m ≤ 12)%Z ∧ (1 ≤ d ≤ 31)%Z.
Proof.
  intros y m d E. unfold civil_from_days in E.
  set (z := (days + 719468)%Z) in E. set (era := (z / 146097)%Z) in E. set (doe := (z - era * 146097)%Z) in E.
  assert (Hdoe : (0 ≤ doe < 146097)%Z).
  { unfold doe, era. pose proof (Z.mod_pos_bound z 146097 ltac:(lia)). rewrite Z.mod_eq in H by lia. lia. }
  pose proof (era_ok_at doe Hdoe) as Hok. unfold era_ok in Hok.
  injection E as Ey Em Ed.
  assert (Hm : era_month doe = m) by exact Em. assert (Hd : era_day doe = d) by exact Ed.
  assert (Hy : (era_year doe + era * 400 + (if m <=? 2 then 1 else 0))%Z = y) by (rewrite <- Em; exact Ey).
  cbv zeta in Hok. rewrite Hm, Hd in Hok. reflect_bools.
  repeat match goal with H : (_ <=? _)%Z = true |- _ => apply Z.leb_le in H | H : (_ =? _)%Z = true |- _ => apply Z.eqb_eq in H end.
  split; [|lia]. unfold days_from_civil.
  assert (Hy' : (if m <=? 2 then y - 1 else y)%Z = (era_year doe + era * 400)%Z) by (destruct (m <=? 2)%Z; lia).
  rewrite Hy'. assert (Hera : ((era_year doe + era * 400) / 400)%Z = era).
  { rewrite Z.div_add by lia. rewrite Z.div_small by lia. lia. }
  rewrite Hera. replace (era_year doe + era * 400 - era * 400)%Z with (era_year doe) by lia.
  unfold doe, z in *. lia.
Qed.

(** [datetime.fromisoformat(dt.isoformat())] is [dt]. *)
Theorem iso_read_isoformat us : valid_datetime us = true → iso_read (isoformat us) = Some us.
Proof.
  intros Hv. unfold valid_datetime in Hv. unfold isoformat, iso_read.
  destruct (civil_from_days (us / 1000000 / 86400)) as [[y m] d] eqn:E.
  destruct (civil_inverse _ y m d E) as (Hdays & Hm & Hd). apply andb_true_iff in Hv as [H1 H2].
  apply Z.leb_le in H1. apply Z.leb_le in H2.
  set (secs := (us / 1000000)%Z) in *. set (frac := (us mod 1000000)%Z).
  assert (Hus : us = (secs * 1000000 + frac)%Z) by (unfold secs, frac; rewrite Z.mul_comm; apply Z.div_mod; lia).
  assert (Hfr : (0 ≤ frac < 1000000)%Z) by (apply Z.mod_pos_bound; lia).
  set (tod := (secs mod 86400)%Z).
  assert (Htod : (0 ≤ tod < 86400)%Z) by (apply Z.mod_pos_bound; lia).
  assert (Hsecs : secs = (secs / 86400 * 86400 + tod)%Z) by (unfold tod; rewrite Z.mul_comm; apply Z.div_mod; lia).
  assert (Hhms : (0 ≤ tod / 3600 < 100 ∧ 0 ≤ tod mod 3600 / 60 < 100 ∧ 0 ≤ tod mod 60 < 100)%Z ∧
                 tod = (tod / 3600 * 3600 + tod mod 3600 / 60 * 60 + tod mod 60)%Z) by (Z.div_mod_to_equations; lia).
  destruct Hhms as ((Hh & Hmi & Hs) & Hsum).
  rewrite !chars_app.
  rewrite read_padded by (cbn; lia). cbn [mbind option_bind]. rewrite eat_app. cbn [mbind option_bind].
  rewrite read_padded by (cbn; lia). cbn [mbind option_bind]. rewrite eat_app. cbn [mbind option_bind].
  rewrite read_padded by (cbn; lia). cbn [mbind option_bind]. rewrite eat_app. cbn [mbind option_bind].
  rewrite read_padded by (cbn; lia). cbn [mbind option_bind]. rewrite eat_app. cbn [mbind option_bind].
  rewrite read_padded by (cbn; lia). cbn [mbind option_bind]. rewrite eat_app. cbn [mbind option_bind].
  rewrite read_padded by (cbn; lia). cbn [mbind option_bind].
  assert (Hval : ((days_from_civil y m d * 86400 + tod / 3600 * 3600 + tod mod 3600 / 60 * 60 + tod mod 60) * 1000000 + frac)%Z = us)
    by (rewrite Hdays; lia).
  case_bool_decide as Hf.
  - rewrite Hf in *. change (chars "" ++ chars "+00:00") with (chars "+00:00").
    change (eat (chars ".") (chars "+00:00")) with (@None (list ascii)). cbn [mbind option_bind].
    change (eat (chars "+00:00") (chars "+00:00")) with (Some (@nil ascii)). cbn [mbind option_bind].
    rewrite bool_decide_true by done. by rewrite Hval.
  - rewrite chars_app, <- app_assoc, eat_app. rewrite read_padded by (cbn; lia). cbn [mbind option_bind].
    change (eat (chars "+00:00") (chars "+00:00")) with (Some (@nil ascii)). cbn [mbind option_bind].
    rewrite bool_decide_true by done. by rewrite Hval.
Qed.

#[export] Instance printed_codec : PyCodec | 100 := {|
  json_loads := json_read;
  fromisoformat := iso_read;
  loads_dumps := json_read_dumps;
  iso_roundtrip := iso_read_isoformat
|}.
