(* ===== verification/Models.v ===== *)
(** * Data model

    The enumerations of [models/enums.py], the rows of the tables the job engine
    reads and writes ([models/job.py], [outbox.py], [saga.py], [audit.py],
    [job_dependency.py]), the settings of [config.py] it reads, and the errors of
    [core/exceptions.py]. *)
From stdpp Require Import base tactics numbers option list gmap strings.
From S2P Require Import Prelude PyData.

(** ** Enumerations (models/enums.py) *)

Inductive UserRole : Type := USER | SUPPORT | ADMIN.

Inductive JobType : Type := CSV_UPLOAD | REPORT_GEN | BULK_API_SYNC | DOC_ANALYSIS.

Inductive JobStatus : Type :=
  | WAITING | PENDING | RUNNING | COMPLETED | FAILED | DEAD_LETTER | CANCELLED.

Inductive SagaStatus : Type :=
  | SAGA_RUNNING | SAGA_COMPLETED | SAGA_FAILED | SAGA_COMPENSATING | SAGA_COMPENSATED.

#[export] Instance UserRole_eq_dec : EqDecision UserRole.
Proof. solve_decision. Defined.
#[export] Instance JobType_eq_dec : EqDecision JobType.
Proof. solve_decision. Defined.
#[export] Instance JobStatus_eq_dec : EqDecision JobStatus.
Proof. solve_decision. Defined.
#[export] Instance SagaStatus_eq_dec : EqDecision SagaStatus.
Proof. solve_decision. Defined.

(** [JobType(s)] raises [ValueError] ([None]) on a string that is not a member. *)
Definition job_type_value (t : JobType) : string :=
  match t with
  | CSV_UPLOAD => "csv_upload"
  | REPORT_GEN => "report_gen"
  | BULK_API_SYNC => "bulk_api_sync"
  | DOC_ANALYSIS => "doc_analysis"
  end.

Definition job_type_of_string (s : string) : option JobType :=
  if bool_decide (s = "csv_upload") then Some CSV_UPLOAD
  else if bool_decide (s = "report_gen") then Some REPORT_GEN
  else if bool_decide (s = "bulk_api_sync") then Some BULK_API_SYNC
  else if bool_decide (s = "doc_analysis") then Some DOC_ANALYSIS
  else None.

Definition job_status_value (s : JobStatus) : string :=
  match s with
  | WAITING => "waiting"
  | PENDING => "pending"
  | RUNNING => "running"
  | COMPLETED => "completed"
  | FAILED => "failed"
  | DEAD_LETTER => "dead_letter"
  | CANCELLED => "cancelled"
  end.

(** [TERMINAL_JOB_STATUSES]. *)
Definition is_terminal (s : JobStatus) : bool :=
  match s with COMPLETED | DEAD_LETTER | CANCELLED => true | _ => false end.

(** ** The [jobs] table (models/job.py) *)

(** One row of [jobs].  Timestamps are microseconds since the epoch, UTC. *)
Record Job := mkJob {
  job_id : uuid;
  job_tenant_id : uuid;
  job_user_id : uuid;
  job_type : string;
  job_status : JobStatus;
  job_idempotency_key : option string;
  job_payload : option dict;
  job_result : option dict;
  job_error_message : option string;
  job_retry_count : Z;
  job_max_attempts : Z;
  job_remediation_hint : option string;
  job_dead_lettered_by : option string;
  job_fenced_at : option Z;
  job_fenced_by : option string;
  job_priority : Z;
  job_trace_id : option string;
  job_started_at : option Z;
  job_completed_at : option Z;
  job_requeued_at : option Z;
  job_heartbeat_at : option Z;
  job_saga_id : option uuid;
  job_saga_step_index : option Z;
  job_created_at : Z;
  job_updated_at : Z
}.

(** One [column = value] of an [UPDATE jobs SET ...]; the constructors are the
    columns the code writes after the insert. *)
Inductive job_set : Type :=
  | SetStatus (v : JobStatus)
  | SetResult (v : option dict)
  | SetErrorMessage (v : option string)
  | SetRetryCount (v : Z)
  | SetRemediationHint (v : option string)
  | SetDeadLetteredBy (v : option string)
  | SetFencedAt (v : option Z)
  | SetFencedBy (v : option string)
  | SetStartedAt (v : option Z)
  | SetCompletedAt (v : option Z)
  | SetRequeuedAt (v : option Z)
  | SetHeartbeatAt (v : option Z)
  | SetUpdatedAt (v : Z)
  | KeepUpdatedAt.  (** [updated_at=Job.updated_at] *)

(** Assign one column. *)
Definition apply_set (j : Job) (s : job_set) : Job :=
  match s with
  | SetStatus v =>
      mkJob (job_id j) (job_tenant_id j) (job_user_id j) (job_type j) v (job_idempotency_key j)
        (job_payload j) (job_result j) (job_error_message j) (job_retry_count j)
        (job_max_attempts j) (job_remediation_hint j) (job_dead_lettered_by j) (job_fenced_at j)
        (job_fenced_by j) (job_priority j) (job_trace_id j) (job_started_at j)
        (job_completed_at j) (job_requeued_at j) (job_heartbeat_at j) (job_saga_id j)
        (job_saga_step_index j) (job_created_at j) (job_updated_at j)
  | SetResult v =>
      mkJob (job_id j) (job_tenant_id j) (job_user_id j) (job_type j) (job_status j)
        (job_idempotency_key j) (job_payload j) v (job_error_message j) (job_retry_count j)
        (job_max_attempts j) (job_remediation_hint j) (job_dead_lettered_by j) (job_fenced_at j)
        (job_fenced_by j) (job_priority j) (job_trace_id j) (job_started_at j)
        (job_completed_at j) (job_requeued_at j) (job_heartbeat_at j) (job_saga_id j)
        (job_saga_step_index j) (job_created_at j) (job_updated_at j)
  | SetErrorMessage v =>
      mkJob (job_id j) (job_tenant_id j) (job_user_id j) (job_type j) (job_status j)
        (job_idempotency_key j) (job_payload j) (job_result j) v (job_retry_count j)
        (job_max_attempts j) (job_remediation_hint j) (job_dead_lettered_by j) (job_fenced_at j)
        (job_fenced_by j) (job_priority j) (job_trace_id j) (job_started_at j)
        (job_completed_at j) (job_requeued_at j) (job_heartbeat_at j) (job_saga_id j)
        (job_saga_step_index j) (job_created_at j) (job_updated_at j)
  | SetRetryCount v =>
      mkJob (job_id j) (job_tenant_id j) (job_user_id j) (job_type j) (job_status j)
        (job_idempotency_key j) (job_payload j) (job_result j) (job_error_message j) v
        (job_max_attempts j) (job_remediation_hint j) (job_dead_lettered_by j) (job_fenced_at j)
        (job_fenced_by j) (job_priority j) (job_trace_id j) (job_started_at j)
        (job_completed_at j) (job_requeued_at j) (job_heartbeat_at j) (job_saga_id j)
        (job_saga_step_index j) (job_created_at j) (job_updated_at j)
  | SetRemediationHint v =>
      mkJob (job_id j) (job_tenant_id j) (job_user_id j) (job_type j) (job_status j)
        (job_idempotency_key j) (job_payload j) (job_result j) (job_error_message j)
        (job_retry_count j) (job_max_attempts j) v (job_dead_lettered_by j) (job_fenced_at j)
        (job_fenced_by j) (job_priority j) (job_trace_id j) (job_started_at j)
        (job_completed_at j) (job_requeued_at j) (job_heartbeat_at j) (job_saga_id j)
        (job_saga_step_index j) (job_created_at j) (job_updated_at j)
  | SetDeadLetteredBy v =>
      mkJob (job_id j) (job_tenant_id j) (job_user_id j) (job_type j) (job_status j)
        (job_idempotency_key j) (job_payload j) (job_result j) (job_error_message j)
        (job_retry_count j) (job_max_attempts j) (job_remediation_hint j) v (job_fenced_at j)
        (job_fenced_by j) (job_priority j) (job_trace_id j) (job_started_at j)
        (job_completed_at j) (job_requeued_at j) (job_heartbeat_at j) (job_saga_id j)
        (job_saga_step_index j) (job_created_at j) (job_updated_at j)
  | SetFencedAt v =>
      mkJob (job_id j) (job_tenant_id j) (job_user_id j) (job_type j) (job_status j)
        (job_idempotency_key j) (job_payload j) (job_result j) (job_error_message j)
        (job_retry_count j) (job_max_attempts j) (job_remediation_hint j)
        (job_dead_lettered_by j) v (job_fenced_by j) (job_priority j) (job_trace_id j)
        (job_started_at j) (job_completed_at j) (job_requeued_at j) (job_heartbeat_at j)
        (job_saga_id j) (job_saga_step_index j) (job_created_at j) (job_updated_at j)
  | SetFencedBy v =>
      mkJob (job_id j) (job_tenant_id j) (job_user_id j) (job_type j) (job_status j)
        (job_idempotency_key j) (job_payload j) (job_result j) (job_error_message j)
        (job_retry_count j) (job_max_attempts j) (job_remediation_hint j)
        (job_dead_lettered_by j) (job_fenced_at j) v (job_priority j) (job_trace_id j)
        (job_started_at j) (job_completed_at j) (job_requeued_at j) (job_heartbeat_at j)
        (job_saga_id j) (job_saga_step_index j) (job_created_at j) (job_updated_at j)
  | SetStartedAt v =>
      mkJob (job_id j) (job_tenant_id j) (job_user_id j) (job_type j) (job_status j)
        (job_idempotency_key j) (job_payload j) (job_result j) (job_error_message j)
        (job_retry_count j) (job_max_attempts j) (job_remediation_hint j)
        (job_dead_lettered_by j) (job_fenced_at j) (job_fenced_by j) (job_priority j)
        (job_trace_id j) v (job_completed_at j) (job_requeued_at j) (job_heartbeat_at j)
        (job_saga_id j) (job_saga_step_index j) (job_created_at j) (job_updated_at j)
  | SetCompletedAt v =>
      mkJob (job_id j) (job_tenant_id j) (job_user_id j) (job_type j) (job_status j)
        (job_idempotency_key j) (job_payload j) (job_result j) (job_error_message j)
        (job_retry_count j) (job_max_attempts j) (job_remediation_hint j)
        (job_dead_lettered_by j) (job_fenced_at j) (job_fenced_by j) (job_priority j)
        (job_trace_id j) (job_started_at j) v (job_requeued_at j) (job_heartbeat_at j)
        (job_saga_id j) (job_saga_step_index j) (job_created_at j) (job_updated_at j)
  | SetRequeuedAt v =>
      mkJob (job_id j) (job_tenant_id j) (job_user_id j) (job_type j) (job_status j)
        (job_idempotency_key j) (job_payload j) (job_result j) (job_error_message j)
        (job_retry_count j) (job_max_attempts j) (job_remediation_hint j)
        (job_dead_lettered_by j) (job_fenced_at j) (job_fenced_by j) (job_priority j)
        (job_trace_id j) (job_started_at j) (job_completed_at j) v (job_heartbeat_at j)
        (job_saga_id j) (job_saga_step_index j) (job_created_at j) (job_updated_at j)
  | SetHeartbeatAt v =>
      mkJob (job_id j) (job_tenant_id j) (job_user_id j) (job_type j) (job_status j)
        (job_idempotency_key j) (job_payload j) (job_result j) (job_error_message j)
        (job_retry_count j) (job_max_attempts j) (job_remediation_hint j)
        (job_dead_lettered_by j) (job_fenced_at j) (job_fenced_by j) (job_priority j)
        (job_trace_id j) (job_started_at j) (job_completed_at j) (job_requeued_at j) v
        (job_saga_id j) (job_saga_step_index j) (job_created_at j) (job_updated_at j)
  | SetUpdatedAt v =>
      mkJob (job_id j) (job_tenant_id j) (job_user_id j) (job_type j) (job_status j)
        (job_idempotency_key j) (job_payload j) (job_result j) (job_error_message j)
        (job_retry_count j) (job_max_attempts j) (job_remediation_hint j)
        (job_dead_lettered_by j) (job_fenced_at j) (job_fenced_by j) (job_priority j)
        (job_trace_id j) (job_started_at j) (job_completed_at j) (job_requeued_at j)
        (job_heartbeat_at j) (job_saga_id j) (job_saga_step_index j) (job_created_at j) v
  | KeepUpdatedAt => j
  end.

(** The SET clause: the assignments in order, the last one of a column wins. *)
Definition apply_sets (sets : list job_set) (j : Job) : Job := foldl apply_set j sets.

Definition sets_started_at (sets : list job_set) : bool :=
  existsb (λ s, match s with SetStartedAt _ => true | _ => false end) sets.
Definition sets_completed_at (sets : list job_set) : bool :=
  existsb (λ s, match s with SetCompletedAt _ => true | _ => false end) sets.
Definition sets_updated_at (sets : list job_set) : bool :=
  existsb (λ s, match s with SetUpdatedAt _ | KeepUpdatedAt => true | _ => false end) sets.

(** [updated_at] has [onupdate=func.now()]: an UPDATE that does not assign the
    column stamps it (models/base.py). *)
Definition touch (now : Z) (sets : list job_set) : list job_set :=
  if sets_updated_at sets then sets else sets ++ [SetUpdatedAt now].

(** ** The other tables *)

(** One row of [job_dependencies]: [dep_job] waits for [dep_parent]. *)
Record JobDependency := mkDep { dep_job : uuid; dep_parent : uuid }.

#[export] Instance JobDependency_eq_dec : EqDecision JobDependency.
Proof. solve_decision. Defined.

(** One row of [outbox_events]. *)
Record OutboxEvent := mkOutbox {
  ob_id : uuid;
  ob_tenant_id : uuid;
  ob_topic : string;
  ob_key : string;
  ob_payload : dict;
  ob_attempts : Z;
  ob_created_at : Z;
  ob_published_at : option Z;
  ob_failed_at : option Z;
  ob_error_message : option string
}.

(** One row of [sagas]. *)
Record Saga := mkSaga {
  saga_id : uuid;
  saga_tenant_id : uuid;
  saga_name : string;
  saga_status : SagaStatus;
  saga_created_at : Z;
  saga_completed_at : option Z
}.

(** One row of [audit_logs]; the columns only the Kafka audit consumer fills
    are left out. *)
Record AuditLog := mkAudit {
  audit_action : string;
  audit_tenant_id : uuid;
  audit_user_id : option uuid;
  audit_principal_type : string;
  audit_principal_id : option uuid;
  audit_job_id : option uuid;
  audit_resource_type : option string;
  audit_resource_id : option string;
  audit_extra_data : option dict;
  audit_created_at : Z
}.

(** ** Settings (config.py), the fields the modelled code reads *)

Record Settings := mkSettings {
  kafka_topic_job_submitted : string;
  kafka_topic_job_progress : string;
  kafka_topic_job_completed : string;
  kafka_topic_job_failed : string;
  kafka_topic_job_cancelled : string;
  kafka_topic_job_dlq : string;
  max_job_attempts : Z;
  job_retry_backoff_base : QArith_base.Q;
  outbox_max_attempts : Z;
  stale_running_threshold_seconds : Z;
  llm_retry_policy_enabled : bool;
  llm_retry_policy_min_retry_count : Z;
  backpressure_lag_threshold : Z;
  chaos_enabled : bool;
  job_create_rate_limit : Z;
  job_create_rate_window_seconds : Z
}.

(** The defaults. *)
Definition default_settings : Settings := {|
  kafka_topic_job_submitted := "job.submitted";
  kafka_topic_job_progress := "job.progress";
  kafka_topic_job_completed := "job.completed";
  kafka_topic_job_failed := "job.failed";
  kafka_topic_job_cancelled := "job.cancelled";
  kafka_topic_job_dlq := "job.dlq";
  max_job_attempts := 3;
  job_retry_backoff_base := QArith_base.inject_Z 2;
  outbox_max_attempts := 900;
  stale_running_threshold_seconds := 900;
  llm_retry_policy_enabled := false;
  llm_retry_policy_min_retry_count := 1;
  backpressure_lag_threshold := 1000;
  chaos_enabled := false;
  job_create_rate_limit := 30;
  job_create_rate_window_seconds := 60
|}.

(** ** Errors (core/exceptions.py, and what Python and the database raise) *)

Inductive exn : Type :=
  | NotFoundError (msg : string)
  | AuthenticationError (msg : string)
  | AuthorizationError (msg : string)
  | ConflictError (msg : string)
  | JobError (msg : string)
  | RequestValidationError (msg : string)
  | RateLimitError (msg : string)
  | QuotaExceededError (msg : string)
  | BackpressureError (msg : string)
  | StreamCapacityError (msg : string)
  | ToolError (status : Z) (code msg : string)  (** an [AppError] subclass a tool declares *)
  | KeyError (key : string)
  | ValueError (msg : string)
  | IntegrityError
  | RuntimeError (msg : string)
  | AssertionError
  | ServiceError.  (** the database, Redis or the broker was unreachable *)

(** ** Lemmas *)

Lemma job_type_of_value t : job_type_of_string (job_type_value t) = Some t.
Proof. by destruct t. Qed.

Lemma job_type_of_string_value s t : job_type_of_string s = Some t → s = job_type_value t.
Proof. unfold job_type_of_string. intros H. repeat case_bool_decide; by simplify_eq. Qed.

Lemma job_status_value_inj s s' : job_status_value s = job_status_value s' → s = s'.
Proof. by destruct s, s'. Qed.

Lemma apply_sets_app s1 s2 j : apply_sets (s1 ++ s2) j = apply_sets s2 (apply_sets s1 j).
Proof. apply foldl_app. Qed.

(** No assignment changes the identity columns of a row. *)
Definition same_identity (j j' : Job) : Prop :=
  job_id j' = job_id j ∧ job_tenant_id j' = job_tenant_id j ∧ job_user_id j' = job_user_id j ∧
  job_type j' = job_type j ∧ job_idempotency_key j' = job_idempotency_key j ∧
  job_payload j' = job_payload j ∧ job_saga_id j' = job_saga_id j ∧
  job_max_attempts j' = job_max_attempts j ∧ job_created_at j' = job_created_at j ∧
  job_priority j' = job_priority j ∧ job_trace_id j' = job_trace_id j.

#[export] Instance same_identity_preorder : PreOrder same_identity.
Proof.
  split; [intros j; by repeat split|]. unfold same_identity.
  intros j1 j2 j3. intuition congruence.
Qed.

Lemma apply_set_identity s j : same_identity j (apply_set j s).
Proof. by destruct s. Qed.

Lemma apply_sets_identity sets j : same_identity j (apply_sets sets j).
Proof.
  revert j. induction sets as [|s sets IH]; intros j; [done|].
  etrans; [apply apply_set_identity|apply IH].
Qed.

Lemma apply_sets_id sets j : job_id (apply_sets sets j) = job_id j.
Proof. apply apply_sets_identity. Qed.
