(* ===== verification/Database.v ===== *)
(** * The database the services share

    The tables as one record; [SELECT], [INSERT] and [UPDATE] on them; the
    repositories that are only those statements ([repositories/base.py],
    [job_dependency.py], [OutboxRepository.add], [AuditRepository.log]).

    A block [async with session.begin()] is one function on [DB]: it commits as a
    whole, so it is one step of the system, and a raise inside it leaves the
    database as it was.  Two things PostgreSQL and [uuid4] leave open are inputs:
    the order of a [SELECT] without [ORDER BY] ([SqlOrder]) and the identifiers
    drawn ([UuidSource]). *)
From stdpp Require Import base tactics numbers option list gmap strings.
From S2P Require Import Prelude PyData Models.

(** ** What the environment decides *)

(** The rows of a [SELECT] without [ORDER BY] come in some order. *)
Class SqlOrder := {
  sql_scan : ∀ {A : Type}, list A → list A;
  sql_scan_perm : ∀ {A : Type} (l : list A), sql_scan l ≡ₚ l
}.

(** [uuid.uuid4()]: the n-th identifier drawn; no identifier is drawn twice. *)
Class UuidSource := {
  uuid4 : N → uuid;
  uuid4_inj : Inj (=) (=) uuid4
}.
#[export] Existing Instance uuid4_inj.

(** Both interfaces can be met: heap order, and identifiers counted from one. *)
#[export] Instance heap_order : SqlOrder | 100 := {
  sql_scan := λ _ l, l;
  sql_scan_perm := λ _ _, reflexivity _
}.

#[export] Instance counted_uuids : UuidSource | 100 := {
  uuid4 := N.succ;
  uuid4_inj := N.succ_inj
}.

Lemma sql_scan_elem `{SqlOrder} {A} (l : list A) x : x ∈ sql_scan l ↔ x ∈ l.
Proof. by rewrite sql_scan_perm. Qed.

Lemma sql_scan_length `{SqlOrder} {A} (l : list A) : length (sql_scan l) = length l.
Proof. by rewrite sql_scan_perm. Qed.

(** ** The tables *)

Record DB := mkDB {
  db_jobs : gmap uuid Job;
  db_deps : list JobDependency;
  db_outbox : list OutboxEvent;
  db_audit : list AuditLog;
  db_sagas : gmap uuid Saga;
  db_draws : N  (** how many identifiers have been drawn *)
}.

Definition empty_db : DB := mkDB ∅ [] [] [] ∅ 0.

Definition with_jobs (m : gmap uuid Job) (db : DB) : DB :=
  mkDB m (db_deps db) (db_outbox db) (db_audit db) (db_sagas db) (db_draws db).
Definition with_deps (l : list JobDependency) (db : DB) : DB :=
  mkDB (db_jobs db) l (db_outbox db) (db_audit db) (db_sagas db) (db_draws db).
Definition with_outbox (l : list OutboxEvent) (db : DB) : DB :=
  mkDB (db_jobs db) (db_deps db) l (db_audit db) (db_sagas db) (db_draws db).
Definition with_audit (l : list AuditLog) (db : DB) : DB :=
  mkDB (db_jobs db) (db_deps db) (db_outbox db) l (db_sagas db) (db_draws db).
Definition with_sagas (m : gmap uuid Saga) (db : DB) : DB :=
  mkDB (db_jobs db) (db_deps db) (db_outbox db) (db_audit db) m (db_draws db).

(** [uuid.uuid4()]. *)
Definition draw_uuid `{UuidSource} (db : DB) : uuid * DB :=
  (uuid4 (db_draws db),
   mkDB (db_jobs db) (db_deps db) (db_outbox db) (db_audit db) (db_sagas db) (db_draws db + 1)%N).

(** ** Statements on [jobs] *)

(** [SELECT ... WHERE id = i] (BaseRepository.get_by_id). *)
Definition get_by_id (i : uuid) (db : DB) : option Job := db_jobs db !! i.

(** All rows, in the order the scan delivers them. *)
Definition all_jobs `{SqlOrder} (db : DB) : list Job :=
  sql_scan (map_to_list (db_jobs db)).*2.

(** [UPDATE jobs SET ... WHERE id = i AND guard]: whether a row was changed. *)
Definition update_job (now : Z) (i : uuid) (guard : Job → bool) (sets : list job_set)
    (db : DB) : bool * DB :=
  match db_jobs db !! i with
  | Some j =>
      if guard j
      then (true, with_jobs (<[i := apply_sets (touch now sets) j]> (db_jobs db)) db)
      else (false, db)
  | None => (false, db)
  end.

(** [UPDATE jobs SET ... WHERE p]: the number of rows changed. *)
Definition update_jobs (now : Z) (p : Job → bool) (sets : list job_set) (db : DB) : nat * DB :=
  (size (filter (λ kv, p kv.2 = true) (db_jobs db)),
   with_jobs ((λ j, if p j then apply_sets (touch now sets) j else j) <$> db_jobs db) db).

(** [UPDATE] without an extra condition. *)
Definition no_guard (j : Job) : bool := true.

(** [INSERT INTO jobs]: refused when the primary key or the pair
    (tenant_id, idempotency_key) is taken ([uq_jobs_tenant_idempotency_key];
    a NULL key never collides). *)
Definition same_idempotency_slot (j j' : Job) : bool :=
  match job_idempotency_key j, job_idempotency_key j' with
  | Some k, Some k' => bool_decide (k = k' ∧ job_tenant_id j = job_tenant_id j')
  | _, _ => false
  end.

Definition insert_job (j : Job) (db : DB) : result exn DB :=
  if bool_decide (is_Some (db_jobs db !! job_id j)) then Err IntegrityError
  else if existsb (same_idempotency_slot j) (map_to_list (db_jobs db)).*2 then Err IntegrityError
  else Ok (with_jobs (<[job_id j := j]> (db_jobs db)) db).

(** ** Statements on the other tables *)

(** [OutboxRepository.add]. *)
Definition outbox_add `{UuidSource} (now : Z) (tenant : uuid) (topic key : string)
    (payload : dict) (db : DB) : DB :=
  let '(i, db) := draw_uuid db in
  with_outbox (db_outbox db ++ [mkOutbox i tenant topic key payload 0 now None None None]) db.

(** [AuditRepository.log]: the principal defaults to the user. *)
Definition audit_log (now : Z) (action : string) (tenant : uuid) (user_id : option uuid)
    (principal_type : option string) (principal_id : option uuid) (job_id : option uuid)
    (resource_type resource_id : option string) (extra : option dict) (db : DB) : DB :=
  let pt := default "user" principal_type in
  let pid := match principal_id with
             | Some p => Some p
             | None => if bool_decide (pt = "user") then user_id else None
             end in
  with_audit (db_audit db ++
    [mkAudit action tenant user_id pt pid job_id resource_type resource_id extra now]) db.

(** [f"{tenant_id}:{user_id}"], the partition key of every lifecycle event. *)
Definition partition_key (tenant user : uuid) : string :=
  uuid_str tenant +:+ ":" +:+ uuid_str user.

(** JobDependencyRepository: [add] inserts one row per parent and is refused when
    a row exists already (the pair is the primary key). *)
Fixpoint dep_add (child : uuid) (parents : list uuid) (deps : list JobDependency)
    : result exn (list JobDependency) :=
  match parents with
  | [] => Ok deps
  | p :: ps =>
      if bool_decide (mkDep child p ∈ deps) then Err IntegrityError
      else dep_add child ps (deps ++ [mkDep child p])
  end.

Definition dep_parents `{SqlOrder} (child : uuid) (db : DB) : list uuid :=
  dep_parent <$> sql_scan (filter (λ d, dep_job d = child) (db_deps db)).

Definition dep_children_of `{SqlOrder} (parent : uuid) (db : DB) : list uuid :=
  dep_job <$> sql_scan (filter (λ d, dep_parent d = parent) (db_deps db)).

(** A dependency row whose parent job exists and is not COMPLETED. *)
Definition is_unmet (db : DB) (d : JobDependency) : bool :=
  match db_jobs db !! dep_parent d with
  | Some p => bool_decide (job_status p ≠ COMPLETED)
  | None => false
  end.

Definition dep_unmet_count (child : uuid) (db : DB) : nat :=
  length (filter (λ d, dep_job d = child ∧ is_unmet db d = true) (db_deps db)).

(** ** Lemmas *)

Lemma all_jobs_elem `{SqlOrder} db j :
  j ∈ all_jobs db ↔ ∃ i, db_jobs db !! i = Some j.
Proof.
  unfold all_jobs. rewrite sql_scan_elem, list_elem_of_fmap. split.
  - intros ([i j'] & -> & Hin). exists i. by apply elem_of_map_to_list.
  - intros [i Hi]. exists (i, j). split; [done|]. by apply elem_of_map_to_list.
Qed.

Lemma update_job_jobs now i guard sets db i' :
  db_jobs (update_job now i guard sets db).2 !! i' =
  match db_jobs db !! i' with
  | Some j => Some (if bool_decide (i = i') && guard j
                    then apply_sets (touch now sets) j else j)
  | None => None
  end.
Proof.
  unfold update_job. destruct (decide (i = i')) as [<-|Hne].
  - rewrite bool_decide_true by done. cbn. destruct (db_jobs db !! i) as [j|] eqn:E; cbn.
    + destruct (guard j); cbn; [by rewrite lookup_insert_eq|done].
    + done.
  - rewrite bool_decide_false by done. cbn.
    destruct (db_jobs db !! i) as [j|]; [destruct (guard j)|]; cbn;
      rewrite ?lookup_insert_ne by done; by destruct (db_jobs db !! i').
Qed.

Lemma update_job_spec now i guard sets db :
  update_job now i guard sets db =
  match db_jobs db !! i with
  | Some j => if guard j then (true, with_jobs (<[i := apply_sets (touch now sets) j]> (db_jobs db)) db)
              else (false, db)
  | None => (false, db)
  end.
Proof. done. Qed.

(** What an update leaves alone. *)
Lemma update_job_frame now i guard sets db :
  let db' := (update_job now i guard sets db).2 in
  db_deps db' = db_deps db ∧ db_outbox db' = db_outbox db ∧ db_audit db' = db_audit db ∧
  db_sagas db' = db_sagas db ∧ db_draws db' = db_draws db.
Proof. unfold update_job. destruct (db_jobs db !! i) as [j|]; [destruct (guard j)|]; done. Qed.

Lemma unmet_count_zero child db :
  dep_unmet_count child db = 0%nat ↔
  ∀ d p, d ∈ db_deps db → dep_job d = child → db_jobs db !! dep_parent d = Some p →
         job_status p = COMPLETED.
Proof.
  unfold dep_unmet_count. rewrite length_zero_iff_nil. split.
  - intros Hnil d p Hd Hj Hp. destruct (decide (job_status p = COMPLETED)) as [|Hs]; [done|].
    assert (Hin : d ∈ filter (λ d, dep_job d = child ∧ is_unmet db d = true) (db_deps db)).
    { apply list_elem_of_filter. repeat split; [done| |done]. unfold is_unmet. rewrite Hp.
      by rewrite bool_decide_true. }
    rewrite Hnil in Hin. by apply not_elem_of_nil in Hin.
  - intros Hall. apply filter_none. intros d Hd [Hj Hu]. unfold is_unmet in Hu.
    destruct (db_jobs db !! dep_parent d) as [p|] eqn:Hp; [|done].
    apply bool_decide_eq_true in Hu. by apply Hu, (Hall d p).
Qed.

Lemma dep_add_ok child ps deps deps' :
  dep_add child ps deps = Ok deps' →
  deps' = deps ++ (mkDep child <$> ps) ∧ NoDup ps ∧ (∀ p, p ∈ ps → mkDep child p ∉ deps).
Proof.
  revert deps. induction ps as [|p ps IH]; intros deps H; cbn in *.
  - simplify_eq. rewrite app_nil_r. split_and!; [done|constructor|set_solver].
  - case_bool_decide as Hp; [done|]. apply IH in H as (-> & Hnd & Hni).
    rewrite <- app_assoc. split_and!; [done| |].
    + constructor; [|done]. intros Hin. apply (Hni p Hin), elem_of_app. right. by apply list_elem_of_singleton.
    + intros q [->|Hq]%elem_of_cons; [done|]. intros Hin. apply (Hni q Hq), elem_of_app. by left.
Qed.

Lemma dep_add_nodup child ps deps :
  NoDup ps → (∀ p, p ∈ ps → mkDep child p ∉ deps) →
  dep_add child ps deps = Ok (deps ++ (mkDep child <$> ps)).
Proof.
  intros Hnd. revert deps. induction Hnd as [|p ps Hp Hnd IH]; intros deps Hni; cbn.
  - by rewrite app_nil_r.
  - rewrite bool_decide_false by (apply Hni; left). rewrite IH; [by rewrite <- app_assoc|].
    intros q Hq [Hin|Hin]%elem_of_app; [by apply (Hni q); [right|]|].
    apply list_elem_of_singleton in Hin. simplify_eq. done.
Qed.
