(* ===== verification/JobEvents.v ===== *)
(** * Lifecycle event payloads (schemas/job_events.py)

    The dictionaries published on the lifecycle topics, built from a job row. *)
From stdpp Require Import base tactics numbers option list gmap strings.
From S2P Require Import Prelude PyData Models.

Definition DLQ_PAYLOAD_MAX_BYTES : nat := 4096.

Definition DLQ_EVENT_KEYS : list string :=
  ["event"; "tenant_id"; "job_id"; "user_id"; "job_type"; "error"; "message"; "retry_count";
   "max_attempts"; "max_retries"; "payload"; "trace_id"; "dead_lettered"].

Definition COMPLETED_EVENT_KEYS : list string :=
  ["event"; "tenant_id"; "job_id"; "user_id"; "job_type"; "result"; "retry_count"].

Definition CANCELLED_EVENT_KEYS : list string :=
  ["event"; "tenant_id"; "job_id"; "user_id"; "job_type"; "reason"; "retry_count"; "trace_id"].

Definition UNSPECIFIED_ERROR : string := "job dead-lettered without a recorded error".
Definition UNSPECIFIED_CANCEL_REASON : string := "job cancelled without a recorded reason".
Definition TRACE_CARRIER_KEY : string := "__traceparent".

(** [x or default] on an optional string: NULL and the empty string are falsy. *)
Definition str_or (o : option string) (d : string) : string :=
  match o with Some s => if bool_decide (s = "") then d else s | None => d end.

(** The size that counts: [len(json.dumps(payload).encode("utf-8"))].  The output
    is ASCII, so bytes and characters agree; a value read from a JSON column
    always serializes. *)
Definition payload_bytes (p : dict) : nat := String.length (json_dumps (JObj p)).

Definition payload_for_event (payload : option dict) : option dict :=
  match payload with
  | None => None
  | Some p =>
      let size := payload_bytes p in
      if (size <=? DLQ_PAYLOAD_MAX_BYTES)%nat then Some p
      else Some [("_truncated", JBool true); ("_original_bytes", JInt (Z.of_nat size))]
  end.

Definition jobj_opt (o : option dict) : json :=
  match o with Some d => JObj d | None => JNull end.

Definition dlq_event_payload (job : Job) (message : option string) : dict :=
  let error := str_or (job_error_message job) UNSPECIFIED_ERROR in
  [("event", JStr "job.failed");
   ("tenant_id", juuid (job_tenant_id job));
   ("job_id", juuid (job_id job));
   ("user_id", juuid (job_user_id job));
   ("job_type", JStr (job_type job));
   ("error", JStr error);
   ("message", JStr (default error message));
   ("retry_count", JInt (job_retry_count job));
   ("max_attempts", JInt (job_max_attempts job));
   ("max_retries", JInt (job_max_attempts job));
   ("payload", jobj_opt (payload_for_event
                 (Some (dremove TRACE_CARRIER_KEY (default [] (job_payload job))))));
   ("trace_id", jstr_opt (job_trace_id job));
   ("dead_lettered", JBool true)].

Definition cancelled_event_payload (job : Job) : dict :=
  [("event", JStr "job.cancelled");
   ("tenant_id", juuid (job_tenant_id job));
   ("job_id", juuid (job_id job));
   ("user_id", juuid (job_user_id job));
   ("job_type", JStr (job_type job));
   ("reason", JStr (str_or (job_error_message job) UNSPECIFIED_CANCEL_REASON));
   ("retry_count", JInt (job_retry_count job));
   ("trace_id", jstr_opt (job_trace_id job))].

Definition completed_event_payload (job : Job) : dict :=
  [("event", JStr "job.completed");
   ("tenant_id", juuid (job_tenant_id job));
   ("job_id", juuid (job_id job));
   ("user_id", juuid (job_user_id job));
   ("job_type", JStr (job_type job));
   ("result", jobj_opt (job_result job));
   ("retry_count", JInt (job_retry_count job))].

(** [_job_submitted_payload] of workers/dispatcher.py, shared by every path that
    publishes a job row. *)
Definition job_submitted_payload (job : Job) : dict :=
  [("event", JStr "job.submitted");
   ("tenant_id", juuid (job_tenant_id job));
   ("job_id", juuid (job_id job));
   ("user_id", juuid (job_user_id job));
   ("job_type", JStr (job_type job));
   ("payload", JObj (default [] (job_payload job)));
   ("priority", JInt (job_priority job));
   ("trace_id", jstr_opt (job_trace_id job))].

(** ** Properties *)

Lemma dlq_event_keys job msg : (dlq_event_payload job msg).*1 = DLQ_EVENT_KEYS.
Proof. done. Qed.

Lemma completed_event_keys job : (completed_event_payload job).*1 = COMPLETED_EVENT_KEYS.
Proof. done. Qed.

Lemma cancelled_event_keys job : (cancelled_event_payload job).*1 = CANCELLED_EVENT_KEYS.
Proof. done. Qed.

Lemma payload_for_event_absent_key k p :
  dget p k = None → k ≠ "_truncated" → k ≠ "_original_bytes" →
  ∃ q, payload_for_event (Some p) = Some q ∧ dget q k = None.
Proof.
  intros Hk H1 H2. unfold payload_for_event. cbv zeta. case_match; [eauto|].
  eexists. split; [done|]. cbn. by rewrite !bool_decide_false by done.
Qed.

(** The event announcing a dead letter never carries the trace carrier, whatever
    the job's payload holds, and its payload is a bounded copy. *)
Lemma dlq_event_no_trace_carrier job msg :
  ∃ q, dget (dlq_event_payload job msg) "payload" = Some (JObj q) ∧
       dget q TRACE_CARRIER_KEY = None.
Proof.
  destruct (payload_for_event_absent_key TRACE_CARRIER_KEY
              (dremove TRACE_CARRIER_KEY (default [] (job_payload job)))) as (q & Hq & Hk);
    [apply dget_dremove_eq|done|done|].
  exists q. split; [|done]. unfold dlq_event_payload. cbn -[payload_for_event dremove].
  by rewrite Hq.
Qed.
