(* ===== verification/JobRepo.v ===== *)
(** * JobRepository (repositories/job.py)

    Every write to [jobs].  A terminal write also inserts the outbox row that
    announces it, and a dead-lettered or cancelled parent cancels the WAITING
    descendants it strands, all in the caller's transaction. *)
From stdpp Require Import base tactics numbers option list gmap strings sorting.
From S2P Require Import Prelude PyData Models Database JobEvents.

Section JobRepository.
Context `{SqlOrder, UuidSource} (cfg : Settings).

(** ** Status writes *)

(** [_TERMINAL_EVENT_STATUSES]. *)
Definition emits_terminal_event (s : JobStatus) : bool :=
  match s with DEAD_LETTER | COMPLETED | CANCELLED => true | _ => false end.

(** [_COMPLETED_AT_STATUSES]. *)
Definition stamps_completed_at (s : JobStatus) : bool :=
  match s with COMPLETED | FAILED | DEAD_LETTER | CANCELLED => true | _ => false end.

(** [_CASCADE_SOURCE_STATUSES]. *)
Definition cascade_source (s : JobStatus) : bool :=
  match s with DEAD_LETTER | CANCELLED => true | _ => false end.

(** [_CASCADE_MAX_DEPTH]. *)
Definition CASCADE_MAX_DEPTH : nat := 50.

(** The columns [update_status] writes. *)
Definition status_values (now : Z) (status : JobStatus) (extra : list job_set) : list job_set :=
  let values := SetStatus status :: extra in
  let values := if bool_decide (status = RUNNING) && negb (sets_started_at values)
                then values ++ [SetStartedAt (Some now)] else values in
  if stamps_completed_at status && negb (sets_completed_at values)
  then values ++ [SetCompletedAt (Some now)] else values.

Definition terminal_event_topic (status : JobStatus) : string :=
  match status with
  | DEAD_LETTER => kafka_topic_job_dlq cfg
  | CANCELLED => kafka_topic_job_cancelled cfg
  | _ => kafka_topic_job_completed cfg
  end.

Definition terminal_event_payload (job : Job) (status : JobStatus) (msg : option string) : dict :=
  match status with
  | DEAD_LETTER => dlq_event_payload job msg
  | CANCELLED => cancelled_event_payload job
  | _ => completed_event_payload job
  end.

(** [_emit_terminal_event]. *)
Definition emit_terminal_event (now : Z) (job : Job) (status : JobStatus) (msg : option string)
    (db : DB) : DB :=
  outbox_add now (job_tenant_id job) (terminal_event_topic status)
    (partition_key (job_tenant_id job) (job_user_id job))
    (terminal_event_payload job status msg) db.

(** ** The dependency cascade *)

(** A job the cascade may cancel. *)
Definition cancellable (j : Job) : bool :=
  bool_decide (job_status j = WAITING ∧ job_saga_id j = None).

(** The join of [job_dependencies] with [jobs] under one frontier. *)
Definition cascade_row (frontier : list uuid) (db : DB) (d : JobDependency) : bool :=
  bool_decide (dep_parent d ∈ frontier) &&
  match db_jobs db !! dep_job d with Some j => cancellable j | None => false end.

Definition cascade_targets (frontier : list uuid) (seen : gset uuid) (db : DB) : list uuid :=
  filter (λ i, i ∉ seen)
    (dep_job <$> sql_scan (filter (λ d, cascade_row frontier db d = true) (db_deps db))).

Definition cascade_reason (parent : uuid) (status : JobStatus) : string :=
  "dependency parent " +:+ uuid_str parent +:+ " ended in " +:+ job_status_value status.

Definition cancel_sets (now : Z) (reason : string) : list job_set :=
  [SetStatus CANCELLED; SetErrorMessage (Some reason); SetCompletedAt (Some now)].

Definition announce_cancelled (now : Z) (db : DB) (child : Job) : DB :=
  outbox_add now (job_tenant_id child) (kafka_topic_job_cancelled cfg)
    (partition_key (job_tenant_id child) (job_user_id child))
    (cancelled_event_payload child) db.

(** The rows of [targets] this UPDATE touched, recognised by its timestamp. *)
Definition newly_cancelled (now : Z) (targets : list uuid) (db : DB) : list Job :=
  filter (λ j, job_id j ∈ targets ∧ job_completed_at j = Some now) (all_jobs db).

(** The loop [for _ in range(_CASCADE_MAX_DEPTH)]; the result is the number of
    rows cancelled. *)
Fixpoint cascade_loop (depth : nat) (now : Z) (reason : string) (frontier : list uuid)
    (seen : gset uuid) (cancelled : nat) (db : DB) : nat * DB :=
  match depth, frontier with
  | O, _ | _, [] => (cancelled, db)
  | S depth', _ =>
      match cascade_targets frontier seen db with
      | [] => (cancelled, db)
      | targets =>
          let '(rowcount, db) :=
            update_jobs now (λ j, bool_decide (job_id j ∈ targets) && cancellable j)
              (cancel_sets now reason) db in
          let db := foldl (announce_cancelled now) db (newly_cancelled now targets db) in
          cascade_loop depth' now reason targets (seen ∪ list_to_set targets)
            (cancelled + rowcount) db
      end
  end.

Definition cascade_cancel_blocked_children (now : Z) (parent : uuid) (status : JobStatus)
    (db : DB) : nat * DB :=
  cascade_loop CASCADE_MAX_DEPTH now (cascade_reason parent status) [parent] {[parent]} 0 db.

(** [update_status]; [guard = None] is the unguarded form.  The result is the row
    as re-read after the write. *)
Definition update_status (now : Z) (job_id : uuid) (status : JobStatus) (extra : list job_set)
    (msg : option string) (guard : option (Job → bool)) (db : DB) : option Job * DB :=
  let '(hit, db) := update_job now job_id (default no_guard guard)
                      (status_values now status extra) db in
  if bool_decide (is_Some guard) && negb hit then (None, db) else
  match get_by_id job_id db with
  | None => (None, db)
  | Some job =>
      let db := if emits_terminal_event status
                then emit_terminal_event now job status msg db else db in
      let db := if cascade_source status
                then (cascade_cancel_blocked_children now job_id status db).2 else db in
      (Some job, db)
  end.

(** ** Compare-and-set writes *)

Definition claim_for_running (now : Z) (job_id : uuid) (db : DB) : bool * DB :=
  update_job now job_id (λ j, bool_decide (job_status j = PENDING))
    [SetStatus RUNNING; SetStartedAt (Some now)] db.

Definition promote_waiting_to_pending (now : Z) (job_id : uuid) (db : DB) : bool * DB :=
  update_job now job_id (λ j, bool_decide (job_status j = WAITING))
    [SetStatus PENDING; SetErrorMessage None] db.

Definition set_remediation_hint_if_unset (now : Z) (job_id tenant : uuid) (hint : string) (db : DB)
    : bool * DB :=
  update_job now job_id
    (λ j, bool_decide (job_tenant_id j = tenant ∧ job_remediation_hint j = None))
    [SetRemediationHint (Some hint)] db.

(** A RUNNING job started at most [max_age] seconds ago; [started_at] NULL never
    matches. *)
Definition lease_renewable (now max_age_seconds : Z) (j : Job) : bool :=
  bool_decide (job_status j = RUNNING) &&
  match job_started_at j with
  | Some t => (now - max_age_seconds * 1000000 <=? t)%Z
  | None => false
  end.

Definition renew_running_leases (now : Z) (job_ids : list uuid) (max_age_seconds : Z) (db : DB)
    : nat * DB :=
  match job_ids with
  | [] => (0%nat, db)
  | _ => update_jobs now
           (λ j, bool_decide (job_id j ∈ job_ids) && lease_renewable now max_age_seconds j)
           [SetHeartbeatAt (Some now); KeepUpdatedAt] db
  end.

(** ** Reads *)

(** At most one row matches ([uq_jobs_tenant_idempotency_key]). *)
Definition get_by_idempotency_key (key : string) (tenant : uuid) (db : DB) : option Job :=
  head (filter (λ j, job_idempotency_key j = Some key ∧ job_tenant_id j = tenant) (all_jobs db)).

Definition get_for_tenant (job_id tenant : uuid) (db : DB) : option Job :=
  match db_jobs db !! job_id with
  | Some j => if bool_decide (job_tenant_id j = tenant) then Some j else None
  | None => None
  end.

Definition existing_ids_for_tenant (job_ids : list uuid) (tenant : uuid) (db : DB) : gset uuid :=
  match job_ids with
  | [] => ∅
  | _ => list_to_set (job_id <$>
           filter (λ j, job_id j ∈ job_ids ∧ job_tenant_id j = tenant) (all_jobs db))
  end.

End JobRepository.

(** The walk is reasoned about through its specification, never by unrolling it. *)
#[global] Arguments cascade_cancel_blocked_children : simpl never.
#[global] Arguments update_status : simpl never.
