(* ===== verification/Cascade.v ===== *)
(** * Correctness of the status writes and of the dependency cascade

    What [update_status] and [cascade_cancel_blocked_children] of
    [repositories/job.py] do to the tables: which rows change and how, which
    outbox rows appear, and which descendants the walk reaches. *)
From stdpp Require Import base tactics numbers option list gmap strings sorting.
From S2P Require Import Prelude PyData Models Database JobEvents JobRepo.

(** The primary key of a row is the key it is stored under. *)
Definition keys_ok (db : DB) : Prop := ∀ i j, db_jobs db !! i = Some j → job_id j = i.

(** What a consumer sees of an outbox row. *)
Definition ob_content (e : OutboxEvent) : string * string * dict :=
  (ob_topic e, ob_key e, ob_payload e).

(** A row that was just queued: not published, not failed, no attempt made. *)
Definition ob_fresh (e : OutboxEvent) : Prop :=
  ob_published_at e = None ∧ ob_failed_at e = None ∧ ob_attempts e = 0%Z.

(** Identifiers drawn between two states of the counter, each once. *)
Definition drawn_between `{UuidSource} (lo hi : N) (ids : list uuid) : Prop :=
  ∃ ns, ids = uuid4 <$> ns ∧ NoDup ns ∧ Forall (λ n, lo ≤ n < hi)%N ns.

Lemma drawn_between_nil `{UuidSource} lo hi : drawn_between lo hi [].
Proof. exists []. by repeat constructor. Qed.

Lemma drawn_between_app `{UuidSource} lo mid hi l1 l2 :
  (lo ≤ mid ≤ hi)%N → drawn_between lo mid l1 → drawn_between mid hi l2 →
  drawn_between lo hi (l1 ++ l2).
Proof.
  intros Hle (n1 & -> & Hnd1 & F1) (n2 & -> & Hnd2 & F2). rewrite Forall_forall in F1, F2.
  exists (n1 ++ n2). rewrite fmap_app. split_and!; [done| |].
  - apply NoDup_app. split_and!; [done| |done]. intros n Hn1 Hn2.
    specialize (F1 n Hn1). specialize (F2 n Hn2). lia.
  - apply Forall_forall. intros n [Hn|Hn]%elem_of_app; [specialize (F1 n Hn)|specialize (F2 n Hn)]; lia.
Qed.

(** [db'] is [db] after some outbox rows with these contents were queued. *)
Definition queued `{UuidSource} (db db' : DB) (contents : list (string * string * dict)) : Prop :=
  (db_draws db ≤ db_draws db')%N ∧
  ∃ evs, db_outbox db' = db_outbox db ++ evs ∧ ob_content <$> evs = contents ∧
         Forall ob_fresh evs ∧ drawn_between (db_draws db) (db_draws db') (ob_id <$> evs).

Lemma queued_nil `{UuidSource} db db' :
  db_outbox db' = db_outbox db → (db_draws db ≤ db_draws db')%N → queued db db' [].
Proof.
  intros E Hd. split; [done|]. exists []. rewrite app_nil_r.
  split_and!; [done|done|done|apply drawn_between_nil].
Qed.

Lemma queued_trans `{UuidSource} db1 db2 db3 c1 c2 :
  queued db1 db2 c1 → queued db2 db3 c2 → queued db1 db3 (c1 ++ c2).
Proof.
  intros (L1 & e1 & E1 & <- & F1 & D1) (L2 & e2 & E2 & <- & F2 & D2). split; [lia|]. exists (e1 ++ e2).
  rewrite E2, E1, <- app_assoc, !fmap_app. split_and!; [done|done|by apply Forall_app|].
  by eapply drawn_between_app.
Qed.

(** Only the outbox and the counter matter. *)
Lemma queued_frame `{UuidSource} db1 db2 db1' db2' c :
  db_outbox db1' = db_outbox db1 → db_draws db1' = db_draws db1 →
  db_outbox db2' = db_outbox db2 → db_draws db2' = db_draws db2 →
  queued db1 db2 c → queued db1' db2' c.
Proof. unfold queued. by intros -> -> -> ->. Qed.

Section Facts.
Context `{SqlOrder, UuidSource} (cfg : Settings).

Lemma outbox_add_queued now tenant topic key payload db :
  queued db (outbox_add now tenant topic key payload db) [(topic, key, payload)].
Proof.
  split; [cbn; lia|]. eexists. split_and!; [done|done|by repeat constructor|].
  exists [db_draws db]. split_and!; [done|apply NoDup_singleton|].
  constructor; [cbn; lia|constructor].
Qed.

Lemma outbox_add_frame now tenant topic key payload db :
  let db' := outbox_add now tenant topic key payload db in
  db_jobs db' = db_jobs db ∧ db_deps db' = db_deps db ∧ db_audit db' = db_audit db ∧
  db_sagas db' = db_sagas db ∧ db_draws db' = (db_draws db + 1)%N.
Proof. done. Qed.

(** ** One level of the cascade *)

Definition cancel_row (now : Z) (reason : string) (j : Job) : Job :=
  apply_sets (touch now (cancel_sets now reason)) j.

Definition cancelled_content (j : Job) : string * string * dict :=
  (kafka_topic_job_cancelled cfg, partition_key (job_tenant_id j) (job_user_id j),
   cancelled_event_payload j).

Lemma announce_all now rows db :
  let db' := foldl (announce_cancelled cfg now) db rows in
  db_jobs db' = db_jobs db ∧ db_deps db' = db_deps db ∧ db_audit db' = db_audit db ∧
  db_sagas db' = db_sagas db ∧ queued db db' (cancelled_content <$> rows).
Proof.
  revert db. induction rows as [|j rows IH]; intros db; cbn.
  - split_and!; try done. by apply queued_nil.
  - destruct (IH (announce_cancelled cfg now db j)) as (Hj & Hd & Ha & Hs & Hq). cbn in *.
    split_and!; try done.
    eapply (queued_trans _ _ _ [_]); [apply outbox_add_queued|exact Hq].
Qed.

(** The edges of the dependency graph. *)
Definition edge (db : DB) (p c : uuid) : Prop := mkDep c p ∈ db_deps db.

Definition blocked (db : DB) (i : uuid) : Prop :=
  ∃ j, db_jobs db !! i = Some j ∧ cancellable j = true.

Lemma cascade_targets_elem frontier seen db c :
  c ∈ cascade_targets frontier seen db ↔
  (c ∉ seen) ∧ blocked db c ∧ (∃ p, p ∈ frontier ∧ edge db p c).
Proof.
  unfold cascade_targets. rewrite list_elem_of_filter, list_elem_of_fmap.
  split.
  - intros (Hseen & [c' p] & -> & Hin). rewrite sql_scan_elem, list_elem_of_filter in Hin.
    destruct Hin as [Hrow Hin]. unfold cascade_row in Hrow. reflect_bools. cbn in *.
    destruct (db_jobs db !! c') as [j|] eqn:Ej; [|done].
    split_and!; [done|by exists j|by exists p].
  - intros (Hseen & (j & Ej & Hc) & p & Hp & He). split; [done|].
    exists (mkDep c p). split; [done|]. rewrite sql_scan_elem, list_elem_of_filter. split; [|done].
    unfold cascade_row. cbn. by rewrite bool_decide_true, Ej by done.
Qed.

(** The state after the walk has cancelled the set [gone]. *)
Definition cancelled_state (now : Z) (reason : string) (db0 db : DB) (gone : gset uuid) : Prop :=
  db_deps db = db_deps db0 ∧ db_audit db = db_audit db0 ∧ db_sagas db = db_sagas db0 ∧
  (∀ i, db_jobs db !! i =
        if bool_decide (i ∈ gone) then cancel_row now reason <$> db_jobs db0 !! i
        else db_jobs db0 !! i) ∧
  (∀ i, i ∈ gone → blocked db0 i) ∧
  ∃ rows, NoDup (job_id <$> rows) ∧
    (∀ i, i ∈ gone ↔ i ∈ job_id <$> rows) ∧
    (∀ j, j ∈ rows → db_jobs db !! job_id j = Some j) ∧
    queued db0 db (cancelled_content <$> rows).

Lemma cancelled_state_refl now reason db : cancelled_state now reason db db ∅.
Proof.
  split_and!; try done.
  exists []. split_and!; [constructor|set_solver|set_solver|by apply queued_nil].
Qed.

Lemma cancel_row_not_cancellable now reason j : cancellable (cancel_row now reason j) = false.
Proof. unfold cancellable. rewrite bool_decide_false; [done|]. cbn. by intros [? _]. Qed.

Lemma cancelled_state_blocked now reason db0 db gone i :
  cancelled_state now reason db0 db gone → (blocked db i ↔ blocked db0 i ∧ i ∉ gone).
Proof.
  intros (_ & _ & _ & Hjobs & _). unfold blocked. rewrite Hjobs. case_bool_decide as Hi.
  - split; [|by intros [_ ?]]. intros (j & Ej & Hc).
    apply fmap_Some in Ej as (j0 & _ & ->).
    by rewrite cancel_row_not_cancellable in Hc.
  - naive_solver.
Qed.

Lemma newly_cancelled_nodup now targets db :
  keys_ok db → NoDup (job_id <$> newly_cancelled now targets db).
Proof.
  intros Hk. unfold newly_cancelled, all_jobs.
  assert (Hall : ∀ l : list (uuid * Job), NoDup l.*1 → (∀ i j, (i, j) ∈ l → job_id j = i) →
            NoDup (job_id <$> l.*2)).
  { intros l Hnd Hl. replace (job_id <$> l.*2) with l.*1; [done|].
    clear Hnd. induction l as [|[i j] l IH]; [done|]. cbn. f_equal.
    - symmetry. apply Hl. left.
    - apply IH. intros i' j' Hij. apply Hl. by right. }
  assert (Hnd : NoDup (job_id <$> sql_scan (map_to_list (db_jobs db)).*2)).
  { rewrite sql_scan_perm. apply Hall; [apply NoDup_fst_map_to_list|].
    intros i j Hij. apply Hk. by apply elem_of_map_to_list. }
  revert Hnd. generalize (sql_scan (map_to_list (db_jobs db)).*2) as l.
  induction l as [|j l IH]; [done|]. rewrite fmap_cons. intros [Hni Hnd]%NoDup_cons.
  rewrite filter_cons. case_decide; [|by apply IH]. rewrite fmap_cons. constructor; [|by apply IH].
  intros Hin. apply Hni. apply list_elem_of_fmap in Hin as (j' & -> & Hj').
  apply list_elem_of_fmap. exists j'. split; [done|]. by apply list_elem_of_filter in Hj' as [_ ?].
Qed.

Lemma cancelled_state_keys now reason db0 db gone :
  keys_ok db0 → cancelled_state now reason db0 db gone → keys_ok db.
Proof.
  intros Hk (_ & _ & _ & Hjobs & _) i j Hj. rewrite Hjobs in Hj. case_bool_decide; [|by apply Hk].
  apply fmap_Some in Hj as (j0 & E & ->).
  unfold cancel_row. rewrite apply_sets_id. by apply Hk.
Qed.

(** The UPDATE of one level, with the rows announced. *)
Definition cancel_level (now : Z) (reason : string) (targets : list uuid) (db : DB) : nat * DB :=
  let '(rowcount, db) :=
    update_jobs now (λ j, bool_decide (job_id j ∈ targets) && cancellable j)
      (cancel_sets now reason) db in
  (rowcount, foldl (announce_cancelled cfg now) db (newly_cancelled now targets db)).

Section Level.
Context (now : Z) (reason : string) (db0 db : DB) (gone : gset uuid) (targets : list uuid).
Context (Hkeys : keys_ok db0) (Hst : cancelled_state now reason db0 db gone).
Context (Htargets : ∀ c, c ∈ targets → blocked db c).

Let p (j : Job) : bool := bool_decide (job_id j ∈ targets) && cancellable j.

#[local] Lemma level_hit i j :
  db_jobs db !! i = Some j → p j = bool_decide (i ∈ targets).
Proof.
  intros Hj. unfold p. pose proof (cancelled_state_keys _ _ _ _ _ Hkeys Hst i j Hj) as Hid.
  rewrite Hid. case_bool_decide as Hi; [|done]. cbn.
  destruct (Htargets i Hi) as (j' & Ej' & Hc). congruence.
Qed.

Let db1 : DB := (update_jobs now p (cancel_sets now reason) db).2.

#[local] Lemma level_lookup i :
  db_jobs db1 !! i =
  if bool_decide (i ∈ targets) then cancel_row now reason <$> db_jobs db !! i else db_jobs db !! i.
Proof.
  unfold db1. cbn. rewrite lookup_fmap. destruct (db_jobs db !! i) as [j|] eqn:Ej; cbn.
  - rewrite (level_hit _ _ Ej). by case_bool_decide.
  - by case_bool_decide.
Qed.

#[local] Lemma level_keys : keys_ok db1.
Proof.
  intros i j Hj. rewrite level_lookup in Hj.
  assert (Hk : keys_ok db) by eauto using cancelled_state_keys.
  case_bool_decide; [|by apply Hk]. apply fmap_Some in Hj as (j0 & E & ->). unfold cancel_row. rewrite apply_sets_id. by apply Hk.
Qed.

#[local] Lemma level_newly j :
  j ∈ newly_cancelled now targets db1 ↔ db_jobs db1 !! job_id j = Some j ∧ job_id j ∈ targets.
Proof.
  unfold newly_cancelled. rewrite list_elem_of_filter, all_jobs_elem. split.
  - intros [[Hin _] [i Hi]]. split; [|done]. by rewrite (level_keys i j Hi).
  - intros [Hj Hin]. split; [|by eexists]. split; [done|].
    rewrite level_lookup, bool_decide_true in Hj by done.
    by apply fmap_Some in Hj as (j0 & _ & ->).
Qed.

Lemma cancel_level_rowcount :
  (cancel_level now reason targets db).1 = size (list_to_set targets : gset uuid).
Proof.
  unfold cancel_level. cbn.
  assert (Hdom : dom (filter (λ kv : uuid * Job, p kv.2 = true) (db_jobs db)) =
                 (list_to_set targets : gset uuid)).
  { apply leibniz_equiv. intros i. rewrite elem_of_dom, elem_of_list_to_set. split.
    - intros [j Hj]. apply map_lookup_filter_Some in Hj as [Hj Hp]. cbn in Hp.
      rewrite (level_hit _ _ Hj) in Hp. by apply bool_decide_eq_true in Hp.
    - intros Hi. destruct (Htargets i Hi) as (j & Ej & _). exists j.
      apply map_lookup_filter_Some. split; [done|]. cbn. rewrite (level_hit _ _ Ej).
      by rewrite bool_decide_true. }
  rewrite <- Hdom, size_dom. done.
Qed.

Lemma cancel_level_state :
  cancelled_state now reason db0 (cancel_level now reason targets db).2
    (gone ∪ list_to_set targets).
Proof.
  pose proof Hst as (Hd & Ha & Hs & Hjobs & Hgone & rows & Hnd & Hrows & Hrow & Hq).
  unfold cancel_level. fold p. cbn [update_jobs]. fold db1.
  change (foldl (announce_cancelled cfg now) _ _)
    with (foldl (announce_cancelled cfg now) db1 (newly_cancelled now targets db1)).
  destruct (announce_all now (newly_cancelled now targets db1) db1) as (Fj & Fd & Fa & Fs & Fq).
  assert (Hdis : ∀ i, i ∈ targets → i ∉ gone).
  { intros i Hi. by apply (cancelled_state_blocked _ _ _ _ _ i Hst) in Htargets as [_ ?]. }
  cbn [snd]. split_and!.
  - by rewrite Fd.
  - by rewrite Fa.
  - by rewrite Fs.
  - intros i. rewrite Fj, level_lookup, Hjobs.
    destruct (decide (i ∈ targets)) as [Hi|Hi].
    + rewrite (bool_decide_true (i ∈ targets)), (bool_decide_false (i ∈ gone)),
        bool_decide_true; set_solver.
    + rewrite (bool_decide_false (i ∈ targets)) by done.
      destruct (decide (i ∈ gone)); [rewrite !bool_decide_true|rewrite !bool_decide_false]; set_solver.
  - intros i [Hi|Hi]%elem_of_union; [by apply Hgone|]. apply elem_of_list_to_set in Hi.
    by apply (cancelled_state_blocked _ _ _ _ _ i Hst), Htargets.
  - exists (rows ++ newly_cancelled now targets db1). split_and!.
    + rewrite fmap_app. apply NoDup_app. split_and!; [done| |apply newly_cancelled_nodup, level_keys].
      intros i Hi Hi'. apply Hrows in Hi. apply list_elem_of_fmap in Hi' as (j & -> & Hj).
      apply level_newly in Hj as [_ Hin]. by apply (Hdis _ Hin).
    + intros i. rewrite fmap_app, elem_of_app, <- Hrows, elem_of_union, elem_of_list_to_set.
      apply or_iff_compat_l. rewrite list_elem_of_fmap. split.
      * intros Hi. destruct (Htargets i Hi) as (j & Ej & _).
        exists (cancel_row now reason j).
        assert (Hid : job_id (cancel_row now reason j) = i).
        { unfold cancel_row. rewrite apply_sets_id. by apply (cancelled_state_keys _ _ _ _ _ Hkeys Hst). }
        split; [done|]. apply level_newly. rewrite Hid. split; [|done].
        by rewrite level_lookup, bool_decide_true, Ej.
      * intros (j & -> & Hj). by apply level_newly in Hj as [_ ?].
    + intros j [Hj|Hj]%elem_of_app; rewrite Fj.
      * rewrite level_lookup, bool_decide_false; [by apply Hrow|].
        intros Hin. apply (Hdis _ Hin), Hrows, list_elem_of_fmap. by exists j.
      * by apply level_newly in Hj as [? _].
    + rewrite fmap_app. eapply queued_trans; [exact Hq|].
      by eapply queued_frame; [..|exact Fq].
Qed.
End Level.

(** ** The whole walk *)

(** [chain db n p c]: a path of [n] dependency edges from [p] down to [c] whose
    nodes below [p] are all WAITING jobs outside any saga. *)
Inductive chain (db : DB) (p : uuid) : nat → uuid → Prop :=
  | chain_one c : edge db p c → blocked db c → chain db p 1 c
  | chain_step n m c : chain db p n m → edge db m c → blocked db c → chain db p (S n) c.

Section Walk.
Context (now : Z) (reason : string) (db0 : DB) (parent : uuid).
Context (Hkeys : keys_ok db0) (Hparent : ¬ blocked db0 parent).

(** Where the walk stands after [k] levels: [gone] is cancelled, every child of
    a node already expanded is in [gone], and so is every node at distance at most
    [k]. *)
Definition walk_inv (k : nat) (frontier : list uuid) (gone : gset uuid) (db : DB) : Prop :=
  cancelled_state now reason db0 db gone ∧
  (∀ i, i ∈ frontier → i = parent ∨ i ∈ gone) ∧
  (∀ i, i ∈ gone → ∃ n, (1 ≤ n ≤ k)%nat ∧ chain db0 parent n i) ∧
  (∀ m c, m = parent ∨ m ∈ gone → m ∉ frontier → edge db0 m c → blocked db0 c → c ∈ gone) ∧
  (∀ n c, chain db0 parent n c → (n ≤ k)%nat → c ∈ gone) ∧
  (∀ i, i ∈ frontier → i = parent ∧ k = 0%nat ∨ chain db0 parent k i).

(** The set of cancelled jobs when no frontier is left to expand. *)
Lemma walk_closed k frontier gone db :
  walk_inv k frontier gone db → cascade_targets frontier ({[parent]} ∪ gone) db = [] →
  ∀ n c, chain db0 parent n c → c ∈ gone.
Proof.
  intros (Hst & Hf & _ & Hexp & _ & _) Hnil.
  assert (Hall : ∀ m c, m = parent ∨ m ∈ gone → edge db0 m c → blocked db0 c → c ∈ gone).
  { intros m c Hm He Hb. destruct (decide (m ∈ frontier)) as [Hmf|Hmf]; [|by eapply Hexp].
    destruct (decide (c ∈ gone)) as [|Hc]; [done|]. exfalso.
    assert (Hin : c ∈ cascade_targets frontier ({[parent]} ∪ gone) db).
    { apply cascade_targets_elem. split_and!.
      - assert (c ≠ parent) by (by intros ->). set_solver.
      - by apply (cancelled_state_blocked _ _ _ _ _ c Hst).
      - exists m. split; [done|]. unfold edge. destruct Hst as (-> & _). done. }
    rewrite Hnil in Hin. by apply not_elem_of_nil in Hin. }
  induction 1 as [c He Hb|n m c Hch IH He Hb]; [apply (Hall parent)|apply (Hall m)]; auto.
Qed.

Lemma walk_step k frontier gone db targets :
  walk_inv k frontier gone db →
  cascade_targets frontier ({[parent]} ∪ gone) db = targets →
  walk_inv (S k) targets (gone ∪ list_to_set targets) (cancel_level now reason targets db).2.
Proof.
  intros (Hst & Hf & Hreach & Hexp & Hlvl & Hfr) Ht.
  assert (Htb : ∀ c, c ∈ targets → blocked db c).
  { intros c Hc. rewrite <- Ht in Hc. by apply cascade_targets_elem in Hc as (_ & ? & _). }
  assert (Hedge : ∀ m c, edge db m c ↔ edge db0 m c).
  { intros m c. unfold edge. by destruct Hst as (-> & _). }
  assert (Htarget : ∀ c m, m ∈ frontier → edge db0 m c → blocked db0 c → c ∈ gone ∨ c ∈ targets).
  { intros c m Hm He Hb. destruct (decide (c ∈ gone)) as [|Hc]; [by left|]. right. rewrite <- Ht.
    apply cascade_targets_elem. split_and!.
    - assert (c ≠ parent) by (by intros ->). set_solver.
    - by apply (cancelled_state_blocked _ _ _ _ _ c Hst).
    - exists m. by rewrite Hedge. }
  assert (Hnew : ∀ i, i ∈ targets → chain db0 parent (S k) i).
  { intros i Hi. rewrite <- Ht in Hi. apply cascade_targets_elem in Hi as (_ & Hb & p & Hp & He).
    apply (cancelled_state_blocked _ _ _ _ _ i Hst) in Hb as [Hb _]. apply Hedge in He.
    destruct (Hfr p Hp) as [[-> ->]|Hch]; [by constructor|by eapply chain_step]. }
  split_and!.
  - by apply cancel_level_state.
  - intros i Hi. right. set_solver.
  - intros i [Hi|Hi]%elem_of_union.
    + destruct (Hreach i Hi) as (n & Hn & Hch). exists n. split; [lia|done].
    + exists (S k). split; [lia|]. apply Hnew. set_solver.
  - intros m c Hm Hmf He Hb. destruct (decide (m ∈ frontier)) as [Hmf'|Hmf'].
    + destruct (Htarget c m Hmf' He Hb); set_solver.
    + apply elem_of_union_l. eapply Hexp; [|done|done|done].
      destruct Hm as [->|[?|?]%elem_of_union]; [by left|by right|set_solver].
  - intros n c Hch Hn. destruct (decide (n ≤ k)%nat) as [Hk|Hk].
    { apply elem_of_union_l. by eapply Hlvl. }
    assert (n = S k) as -> by lia. inversion Hch as [c' He Hb|n m c' Hch' He Hb]; subst.
    + destruct (decide (parent ∈ frontier)) as [Hp|Hp].
      * destruct (Htarget c parent Hp He Hb); set_solver.
      * apply elem_of_union_l, (Hexp parent); auto.
    + assert (Hm : m ∈ gone) by (eapply Hlvl; [done|lia]).
      destruct (decide (m ∈ frontier)) as [Hp|Hp].
      * destruct (Htarget c m Hp He Hb); set_solver.
      * apply elem_of_union_l, (Hexp m); auto.
  - intros i Hi. right. by apply Hnew.
Qed.

(** The walk ends with a set [gone] that is sound (every member is a stranded
    descendant), counted, and complete up to the depth it was allowed. *)
Lemma cascade_loop_spec depth k frontier gone db n :
  walk_inv k frontier gone db → n = size gone →
  ∃ gone',
    let out := cascade_loop cfg depth now reason frontier ({[parent]} ∪ gone) n db in
    cancelled_state now reason db0 out.2 gone' ∧ out.1 = size gone' ∧
    (∀ i, i ∈ gone' → ∃ m, (1 ≤ m ≤ k + depth)%nat ∧ chain db0 parent m i) ∧
    (∀ m c, chain db0 parent m c → (m ≤ k + depth)%nat → c ∈ gone').
Proof.
  revert k frontier gone db n. induction depth as [|depth IH]; intros k frontier gone db n Hinv ->.
  { exists gone. cbn. destruct Hinv as (Hst & _ & Hreach & _ & Hlvl & _). split_and!; try done.
    - intros i Hi. destruct (Hreach i Hi) as (m & ? & ?). exists m. split; [lia|done].
    - intros m c Hch Hm. eapply Hlvl; [done|lia]. }
  assert (Hstop : cascade_targets frontier ({[parent]} ∪ gone) db = [] →
    ∃ gone', cancelled_state now reason db0 db gone' ∧ size gone = size gone' ∧
      (∀ i, i ∈ gone' → ∃ m, (1 ≤ m ≤ k + S depth)%nat ∧ chain db0 parent m i) ∧
      (∀ m c, chain db0 parent m c → (m ≤ k + S depth)%nat → c ∈ gone')).
  { intros Hnil. exists gone. pose proof Hinv as (Hst & _ & Hreach & _). split_and!; [done|done| |].
    - intros i Hi. destruct (Hreach i Hi) as (m & ? & ?). exists m. split; [lia|done].
    - intros m c Hch _. by eapply walk_closed. }
  destruct frontier as [|f0 fs].
  { cbn. apply Hstop. unfold cascade_targets. rewrite (filter_none _ (db_deps db)).
    - assert (E : sql_scan (@nil JobDependency) = []) by apply Permutation_nil_r, sql_scan_perm.
      by rewrite E.
    - intros d _ Hd. unfold cascade_row in Hd. by rewrite bool_decide_false in Hd by set_solver. }
  cbn -[cascade_targets update_jobs list_to_set]. destruct (cascade_targets _ _ db) as [|t0 ts] eqn:Ht; [by apply Hstop|].
  set (targets := t0 :: ts) in *.
  pose proof (walk_step _ _ _ _ _ Hinv Ht) as Hstep.
  assert (Htb : ∀ c, c ∈ targets → blocked db c ∧ c ∉ gone).
  { intros c Hc. rewrite <- Ht in Hc. apply cascade_targets_elem in Hc as (? & ? & _). set_solver. }
  destruct Hinv as (Hst & _).
  pose proof (cancel_level_rowcount now reason db0 db gone targets Hkeys Hst
                (λ c Hc, proj1 (Htb c Hc))) as Hcount.
  unfold cancel_level in Hstep, Hcount. cbn -[update_jobs list_to_set] in Hstep, Hcount |- *.
  destruct (update_jobs _ _ _ db) as [rows db1] eqn:Eup. cbn -[list_to_set] in Hstep, Hcount |- *.
  rewrite <- (assoc_L (∪) {[parent]} gone (list_to_set targets)). replace (k + S depth)%nat with (S k + depth)%nat by lia.
  eapply IH; [exact Hstep|]. rewrite Hcount, size_union; [done|]. set_solver.
Qed.

End Walk.

(** ** What the cascade does, in one statement *)

Lemma cascade_spec now parent status db :
  keys_ok db → ¬ blocked db parent →
  let out := cascade_cancel_blocked_children cfg now parent status db in
  ∃ gone,
    cancelled_state now (cascade_reason parent status) db out.2 gone ∧
    out.1 = size gone ∧
    (∀ i, i ∈ gone → ∃ n, (1 ≤ n ≤ CASCADE_MAX_DEPTH)%nat ∧ chain db parent n i) ∧
    (∀ n i, chain db parent n i → (n ≤ CASCADE_MAX_DEPTH)%nat → i ∈ gone).
Proof.
  intros Hk Hp. unfold cascade_cancel_blocked_children.
  destruct (cascade_loop_spec now (cascade_reason parent status) db parent Hk Hp
              CASCADE_MAX_DEPTH 0 [parent] ∅ db 0) as (gone & Hg); [|done|].
  - split_and!.
    + apply cancelled_state_refl.
    + set_solver.
    + set_solver.
    + set_solver.
    + intros n c Hch Hn. destruct Hch; lia.
    + intros i Hi. left. set_solver.
  - exists gone. by rewrite (right_id_L ∅ (∪)) in Hg.
Qed.

(** ** [update_status] *)

#[local] Opaque cascade_cancel_blocked_children.

(** The assignments a caller passes in [extra] never touch the status. *)
Definition keeps_status (s : job_set) : Prop :=
  match s with SetStatus _ => False | _ => True end.

Lemma apply_sets_keeps_status sets j :
  Forall keeps_status sets → job_status (apply_sets sets j) = job_status j.
Proof.
  intros Hs. revert j. induction Hs as [|s sets Hs _ IH]; intros j; [done|].
  etrans; [apply (IH (apply_set j s))|]. by destruct s.
Qed.

Lemma touch_keeps_status now sets : Forall keeps_status sets → Forall keeps_status (touch now sets).
Proof.
  intros Hs. unfold touch. case_match; [done|]. apply Forall_app. split; [done|]. by repeat constructor.
Qed.

(** The row a status write leaves. *)
Definition written_row (now : Z) (status : JobStatus) (extra : list job_set) (j : Job) : Job :=
  apply_sets (touch now (status_values now status extra)) j.

Lemma status_values_cons now status extra :
  Forall keeps_status extra →
  ∃ rest, touch now (status_values now status extra) = SetStatus status :: rest ∧
          Forall keeps_status rest.
Proof.
  intros He.
  assert (Hv : ∃ rest, status_values now status extra = SetStatus status :: rest ∧
                       Forall keeps_status rest).
  { unfold status_values. cbv zeta.
    case_match; case_match; eexists; (split; [cbn; reflexivity|]);
      rewrite ?Forall_app; repeat split; try done; by repeat constructor. }
  destruct Hv as (rest & -> & Hr). unfold touch.
  case_match; [by exists rest|]. exists (rest ++ [SetUpdatedAt now]). split; [done|].
  apply Forall_app. split; [done|]. by repeat constructor.
Qed.

Lemma written_row_status now status extra j :
  Forall keeps_status extra → job_status (written_row now status extra j) = status.
Proof.
  intros He. unfold written_row.
  destruct (status_values_cons now status extra He) as (rest & -> & Hr).
  change (job_status (apply_sets rest (apply_set j (SetStatus status))) = status).
  by rewrite apply_sets_keeps_status.
Qed.

Lemma written_row_identity now status extra j : same_identity j (written_row now status extra j).
Proof. apply apply_sets_identity. Qed.

Definition terminal_content (status : JobStatus) (msg : option string) (j : Job)
    : list (string * string * dict) :=
  if emits_terminal_event status
  then [(terminal_event_topic cfg status, partition_key (job_tenant_id j) (job_user_id j),
         terminal_event_payload j status msg)]
  else [].

(** The effect of a status write that found its row: the row itself, the
    descendants [gone] cancelled with it, and the events of both. *)
Record write_effect (now : Z) (i : uuid) (status : JobStatus) (msg : option string)
    (j' : Job) (gone : gset uuid) (db db' : DB) : Prop := {
  we_deps : db_deps db' = db_deps db;
  we_audit : db_audit db' = db_audit db;
  we_sagas : db_sagas db' = db_sagas db;
  we_self : db_jobs db' !! i = Some j';
  we_gone : ∀ k, k ∈ gone → k ≠ i ∧ blocked db k ∧
    db_jobs db' !! k = cancel_row now (cascade_reason i status) <$> db_jobs db !! k;
  we_other : ∀ k, k ≠ i → k ∉ gone → db_jobs db' !! k = db_jobs db !! k;
  we_no_cascade : cascade_source status = false → gone = ∅;
  we_events : ∃ rows, NoDup (job_id <$> rows) ∧ (∀ k, k ∈ gone ↔ k ∈ job_id <$> rows) ∧
    (∀ r, r ∈ rows → db_jobs db' !! job_id r = Some r) ∧
    queued db db' (terminal_content status msg j' ++ (cancelled_content <$> rows))
}.

Lemma update_status_miss now i status extra msg guard db :
  (∀ j, db_jobs db !! i = Some j → default no_guard guard j = false) →
  update_status cfg now i status extra msg guard db = (None, db).
Proof.
  intros Hmiss. unfold update_status, update_job, get_by_id.
  destruct (db_jobs db !! i) as [j|] eqn:Ej.
  - specialize (Hmiss j eq_refl). destruct guard as [g|]; [|done]. cbn in *. by rewrite Hmiss.
  - case_match; [done|]. by rewrite Ej.
Qed.

(** Chains only depend on the jobs and the edges. *)
Lemma chain_ext db1 db2 p n k :
  db_jobs db2 = db_jobs db1 → db_deps db2 = db_deps db1 → chain db1 p n k → chain db2 p n k.
Proof.
  intros Hj Hd. assert (Hb : ∀ x, blocked db1 x → blocked db2 x) by (intros x; unfold blocked; by rewrite Hj).
  assert (He : ∀ x y, edge db1 x y → edge db2 x y) by (intros x y; unfold edge; by rewrite Hd).
  induction 1 as [c ??|m x c ? IH ??]; [apply chain_one|apply (chain_step _ _ m x)]; auto.
Qed.

(** The row is written and its own event queued. *)
Lemma own_event_effect now i status msg j j' db :
  keys_ok db → db_jobs db !! i = Some j → job_id j' = job_id j →
  let db1 := with_jobs (<[i := j']> (db_jobs db)) db in
  let db2 := if emits_terminal_event status then emit_terminal_event cfg now j' status msg db1 else db1 in
  db_jobs db2 = db_jobs db1 ∧ db_deps db2 = db_deps db ∧ db_audit db2 = db_audit db ∧
  db_sagas db2 = db_sagas db ∧ queued db db2 (terminal_content status msg j') ∧ keys_ok db2.
Proof.
  intros Hk Hj Hid db1 db2. assert (Hjobs : db_jobs db2 = db_jobs db1) by (subst db2; by destruct (emits_terminal_event _)).
  assert (Hk2 : keys_ok db2).
  { intros k x Hx. rewrite Hjobs in Hx. cbn in Hx. destruct (decide (k = i)) as [->|Hne].
    - rewrite lookup_insert_eq in Hx. injection Hx as <-. rewrite Hid. by apply Hk.
    - rewrite lookup_insert_ne in Hx by done. by apply Hk. }
  unfold terminal_content. subst db2. destruct (emits_terminal_event status).
  - split_and!; try done. exact (outbox_add_queued now _ _ _ _ db1).
  - split_and!; try done. by apply queued_nil.
Qed.

Lemma update_status_hit now i status extra msg guard db j :
  keys_ok db → Forall keeps_status extra →
  db_jobs db !! i = Some j → default no_guard guard j = true →
  let j' := written_row now status extra j in
  let db1 := with_jobs (<[i := j']> (db_jobs db)) db in
  let out := update_status cfg now i status extra msg guard db in
  out.1 = Some j' ∧ ∃ gone, write_effect now i status msg j' gone db out.2 ∧
    (cascade_source status = true →
      (∀ k, k ∈ gone → ∃ n, (1 ≤ n ≤ CASCADE_MAX_DEPTH)%nat ∧ chain db1 i n k) ∧
      (∀ n k, chain db1 i n k → (n ≤ CASCADE_MAX_DEPTH)%nat → k ∈ gone)).
Proof.
  intros Hk He Hj Hg j' db1 out. unfold out, update_status, update_job. rewrite Hj, Hg.
  fold (written_row now status extra j). fold j'. fold db1. cbn [negb].
  rewrite andb_false_r. unfold get_by_id. assert (Hself : db_jobs db1 !! i = Some j') by apply lookup_insert_eq.
  rewrite Hself.
  set (db2 := if emits_terminal_event status then emit_terminal_event cfg now j' status msg db1 else db1).
  destruct (own_event_effect now i status msg j j' db Hk Hj) as (Hj2 & Hd2 & Ha2 & Hs2 & Hq2 & Hk2);
    [apply (written_row_identity now status extra j)|]. fold db1 db2 in Hj2, Hd2, Ha2, Hs2, Hq2, Hk2.
  assert (Hst : job_status j' = status) by (by apply written_row_status).
  cbn [fst snd]. split; [done|]. destruct (cascade_source status) eqn:Ecs.
  2:{ exists ∅. split; [|done]. split; try done.
      - by rewrite Hj2.
      - intros k Hne _. rewrite Hj2. cbn. by rewrite lookup_insert_ne.
      - exists []. split_and!; [constructor|set_solver|set_solver|by rewrite app_nil_r]. }
  assert (Hnb : ¬ blocked db2 i).
  { intros (x & Hx & Hc). rewrite Hj2, Hself in Hx. injection Hx as <-.
    unfold cancellable in Hc. apply bool_decide_eq_true in Hc as [Hw _]. rewrite Hst in Hw.
    by rewrite Hw in Ecs. }
  destruct (cascade_spec now i status db2 Hk2 Hnb) as (gone & Hcs & _ & Hsound & Hcompl).
  exists gone. split.
  2:{ intros _. split.
      - intros k Hkg. destruct (Hsound k Hkg) as (n & ? & ?). exists n. split; [done|]. by apply (chain_ext db2).
      - intros n k Hch. apply (Hcompl n k). by apply (chain_ext db1). }
  assert (Hni : i ∉ gone).
  { intros Hin. apply Hnb. destruct Hcs as (_ & _ & _ & _ & Fg & _). by apply Fg. }
  destruct Hcs as (Fd & Fa & Fs & Fj & Fg & rows & Hnd & Hrows & Hrow & Hq). split.
  - by rewrite Fd.
  - by rewrite Fa.
  - by rewrite Fs.
  - by rewrite Fj, bool_decide_false, Hj2 by done.
  - intros k Hkg. assert (k ≠ i) by (by intros ->). split_and!; [done| |].
    + destruct (Fg k Hkg) as (x & Hx & Hc). rewrite Hj2 in Hx. cbn in Hx.
      rewrite lookup_insert_ne in Hx by done. by exists x.
    + rewrite Fj, bool_decide_true, Hj2 by done. cbn. by rewrite lookup_insert_ne.
  - intros k Hne Hkg. rewrite Fj, bool_decide_false, Hj2 by done. cbn. by rewrite lookup_insert_ne.
  - by rewrite Ecs.
  - exists rows. split_and!; [done|done|done|]. by eapply queued_trans.
Qed.

(** The row a status write leaves, and what it keeps, without the cascade's detail. *)
Lemma update_status_row now i status extra msg guard db j :
  keys_ok db → Forall keeps_status extra → db_jobs db !! i = Some j → default no_guard guard j = true →
  let db' := (update_status cfg now i status extra msg guard db).2 in
  db_jobs db' !! i = Some (written_row now status extra j) ∧ keys_ok db' ∧
  db_deps db' = db_deps db ∧ db_sagas db' = db_sagas db.
Proof.
  intros Hk He Hj Hg db'.
  destruct (update_status_hit now i status extra msg guard db j Hk He Hj Hg)
    as (_ & gone & [Wd _ Ws Wself Wgone Wother _ _] & _).
  fold db' in Wd, Ws, Wself, Wgone, Wother.
  split_and!; [done| |done|done]. intros k x Hx. destruct (decide (k = i)) as [->|Hne].
  - rewrite Wself in Hx. injection Hx as <-. etrans; [apply written_row_identity|by apply Hk].
  - destruct (decide (k ∈ gone)) as [Hin|Hout].
    + destruct (Wgone k Hin) as (_ & _ & E). rewrite E in Hx. apply fmap_Some in Hx as (y & Hy & ->).
      unfold cancel_row. rewrite apply_sets_id. by apply Hk.
    + rewrite Wother in Hx by done. by apply Hk.
Qed.
End Facts.
