(* ===== verification/Redis.v ===== *)
(** * The Redis keys the platform uses

    A keyspace of typed values with expiry and the commands the source issues on
    it.  Scores and instants are seconds ([time.time()]), kept exact as rationals.
    A command on a key of another type raises ([WRONGTYPE]); a caller models an
    unreachable server by not having a keyspace to ask. *)
From stdpp Require Import base tactics numbers option list gmap strings sorting.
From Stdlib Require Import QArith.
From S2P Require Import Prelude PyData Models.

Inductive rval : Type :=
  | RStr (s : string)
  | RInt (z : Z)
  | RZset (m : gmap string Q)
  | RSet (s : gset string).  (** what older releases stored under the read-model keys *)

(** A value and the instant it expires. *)
Record rentry := mkEntry { e_val : rval; e_exp : option Q }.

Abbreviation Redis := (gmap string rentry).

Definition expired (t : Q) (e : rentry) : bool :=
  match e_exp e with Some x => Qle_bool x t | None => false end.

(** What a command sees under a key at time [t]. *)
Definition live (t : Q) (r : Redis) (k : string) : option rentry :=
  match r !! k with
  | Some e => if expired t e then None else Some e
  | None => None
  end.

(** ** Reaching the server *)

(** How a Redis command ended: answered, not delivered, or executed with its reply
    lost. *)
Inductive reach : Type := Answered | NotReached | ReplyLost.

Definition redis_cmd {A} (o : reach) (f : Redis → result exn (A * Redis)) (r : Redis) : result exn A * Redis :=
  match o, f r with
  | NotReached, _ => (Err ServiceError, r)
  | _, Err e => (Err e, r)
  | Answered, Ok (a, r') => (Ok a, r')
  | ReplyLost, Ok (_, r') => (Err ServiceError, r')
  end.

(** ** Strings *)

(** [GET]: strings and counters are answered, a collection is [WRONGTYPE]. *)
Definition r_get (t : Q) (k : string) (r : Redis) : result exn (option rval) :=
  match live t r k with
  | None => Ok None
  | Some e => match e_val e with
              | RStr s => Ok (Some (RStr s))
              | RInt z => Ok (Some (RInt z))
              | _ => Err ServiceError
              end
  end.

(** [int(raw)] of a reply; [None] when it raises. *)
Definition int_of_reply (v : rval) : option Z :=
  match v with RInt z => Some z | RStr s => py_int s | _ => None end.

(** [MGET]: a key that holds no string is nil, never an error. *)
Definition r_mget (t : Q) (ks : list string) (r : Redis) : list (option rval) :=
  (λ k, match r_get t k r with Ok o => o | Err _ => None end) <$> ks.

(** [SET k v EX ttl]. *)
Definition r_set (t : Q) (k : string) (v : rval) (ex : option Q) (r : Redis) : Redis :=
  <[k := mkEntry v ((λ d, (t + d)%Q) <$> ex)]> r.

(** [SET k v EX ttl NX]. *)
Definition r_set_nx (t : Q) (k : string) (v : rval) (ex : option Q) (r : Redis) : Redis :=
  match live t r k with Some _ => r | None => r_set t k v ex r end.

Definition r_del (k : string) (r : Redis) : Redis := delete k r.

(** [EXPIRE k ttl]. *)
Definition r_expire (t : Q) (k : string) (ttl : Q) (r : Redis) : Redis :=
  match live t r k with
  | Some e => <[k := mkEntry (e_val e) (Some (t + ttl)%Q)]> r
  | None => r
  end.

(** [INCRBY k n]: an absent key counts from zero and has no expiry. *)
Definition r_incrby (t : Q) (k : string) (n : Z) (r : Redis) : result exn (Z * Redis) :=
  match live t r k with
  | None => Ok (n, <[k := mkEntry (RInt n) None]> r)
  | Some e => match e_val e with
              | RInt z => Ok ((z + n)%Z, <[k := mkEntry (RInt (z + n)) (e_exp e)]> r)
              | _ => Err ServiceError
              end
  end.

(** ** Sorted sets *)

(** The sorted set under a key; an absent key is the empty set. *)
Definition r_zset (t : Q) (k : string) (r : Redis) : result exn (gmap string Q) :=
  match live t r k with
  | None => Ok ∅
  | Some e => match e_val e with RZset m => Ok m | _ => Err ServiceError end
  end.

(** Store a sorted set back, keeping the key's expiry; an empty set has no key. *)
Definition put_zset (t : Q) (k : string) (m : gmap string Q) (r : Redis) : Redis :=
  if bool_decide (m = ∅) then delete k r
  else <[k := mkEntry (RZset m) (e ← live t r k; e_exp e)]> r.

Definition r_zadd (t : Q) (k member : string) (score : Q) (r : Redis) : result exn Redis :=
  m ← r_zset t k r; Ok (put_zset t k (<[member := score]> m) r).

Definition r_zrem (t : Q) (k member : string) (r : Redis) : result exn Redis :=
  m ← r_zset t k r; Ok (put_zset t k (delete member m) r).

Definition r_zscore (t : Q) (k member : string) (r : Redis) : result exn (option Q) :=
  m ← r_zset t k r; Ok (m !! member).

Definition r_zcard (t : Q) (k : string) (r : Redis) : result exn nat :=
  m ← r_zset t k r; Ok (size m).

(** Members in the order of the set: by score, then by name. *)
Definition zle (a b : string * Q) : Prop :=
  Qle_bool a.2 b.2 = true ∧ (Qle_bool b.2 a.2 = true → String.leb a.1 b.1 = true).

#[export] Instance zle_dec : RelDecision zle.
Proof. intros a b. unfold zle. apply _. Defined.

Definition zsorted (m : gmap string Q) : list (string * Q) := merge_sort zle (map_to_list m).

(** [ZRANGEBYSCORE k -inf max LIMIT 0 n]. *)
Definition zrange_due (m : gmap string Q) (max : Q) (n : nat) : list string :=
  take n (zsorted (filter (λ kv, Qle_bool kv.2 max = true) m)).*1.

Definition zrem_all (ms : list string) (m : gmap string Q) : gmap string Q :=
  foldr delete m ms.

(** [ZADD k s1 m1 s2 m2 ...]. *)
Definition r_zadd_all (t : Q) (k : string) (members : list (string * Q)) (r : Redis) : result exn Redis :=
  m ← r_zset t k r; Ok (put_zset t k (foldl (λ m ms, <[ms.1 := ms.2]> m) m members) r).

(** [ZREMRANGEBYRANK k 0 (n - 1)]: the [n] lowest go; how many went. *)
Definition r_zrem_lowest (t : Q) (k : string) (n : nat) (r : Redis) : result exn (nat * Redis) :=
  m ← r_zset t k r;
  let low := take n (zsorted m).*1 in
  Ok (length low, put_zset t k (zrem_all low m) r).

(** [SCARD k]. *)
Definition r_scard (t : Q) (k : string) (r : Redis) : result exn nat :=
  match live t r k with
  | None => Ok 0%nat
  | Some e => match e_val e with RSet s => Ok (size s) | _ => Err ServiceError end
  end.

(** [SCAN] with [MATCH prefix*] until the cursor is zero, each batch deleted: how many. *)
Definition r_scan_delete (t : Q) (prefix : string) (r : Redis) : nat * Redis :=
  (size (filter (λ ke, String.prefix prefix ke.1 = true ∧ expired t ke.2 = false) r),
   filter (λ ke, String.prefix prefix ke.1 = false) r).

(** ** Lemmas *)

Lemma zsorted_elem m kv : kv ∈ zsorted m ↔ m !! kv.1 = Some kv.2.
Proof.
  unfold zsorted. rewrite merge_sort_Permutation. destruct kv. apply elem_of_map_to_list.
Qed.

Lemma zsorted_nodup m : NoDup (zsorted m).*1.
Proof.
  unfold zsorted. rewrite merge_sort_Permutation. apply NoDup_fst_map_to_list.
Qed.

Lemma zrange_due_elem m max n s :
  s ∈ zrange_due m max n → ∃ q, m !! s = Some q ∧ Qle_bool q max = true.
Proof.
  intros Hs. apply elem_of_take in Hs as (i & Hs & _). apply list_elem_of_lookup_2 in Hs.
  apply list_elem_of_fmap in Hs as ([s' q] & -> & Hin). apply zsorted_elem in Hin.
  apply map_lookup_filter_Some in Hin as [? ?]. eauto.
Qed.

Lemma zrange_due_nodup m max n : NoDup (zrange_due m max n).
Proof.
  unfold zrange_due. eapply sublist_NoDup; [apply zsorted_nodup|apply sublist_take].
Qed.

(** With room for all of them, every due member is returned. *)
Lemma zrange_due_complete m max n s q :
  (size m ≤ n)%nat → m !! s = Some q → Qle_bool q max = true → s ∈ zrange_due m max n.
Proof.
  intros Hn Hs Hq. unfold zrange_due. rewrite take_ge.
  - apply list_elem_of_fmap. exists (s, q). split; [done|]. apply zsorted_elem. cbn.
    by apply map_lookup_filter_Some.
  - rewrite length_fmap. unfold zsorted. rewrite merge_sort_Permutation, length_map_to_list.
    etrans; [apply map_size_filter|done].
Qed.

Lemma lookup_zrem_all ms m s :
  zrem_all ms m !! s = if bool_decide (s ∈ ms) then None else m !! s.
Proof.
  induction ms as [|x ms IH]; [by rewrite bool_decide_false by set_solver|].
  change (zrem_all (x :: ms) m) with (delete x (zrem_all ms m)).
  rewrite lookup_delete. destruct (decide (x = s)); [by rewrite bool_decide_true by set_solver|].
  rewrite IH. destruct (decide (s ∈ ms)).
  - by rewrite !bool_decide_true by set_solver.
  - by rewrite !bool_decide_false by set_solver.
Qed.

(** Reading a sorted set back after storing it. *)
Lemma zset_put t k m r : r_zset t k (put_zset t k m r) = Ok m.
Proof.
  unfold put_zset, r_zset. case_bool_decide as Hm.
  - subst. unfold live. by rewrite lookup_delete_eq.
  - unfold live at 1. rewrite lookup_insert_eq. unfold expired. cbn.
    destruct (live t r k) as [e|] eqn:E; cbn; [|done].
    unfold live in E. destruct (r !! k); [|done]. destruct (expired t r0) eqn:Ex; [done|].
    simplify_eq. unfold expired in Ex. by rewrite Ex.
Qed.

Lemma live_put_ne t t' k k' m r : k ≠ k' → live t' (put_zset t k m r) k' = live t' r k'.
Proof.
  intros Hne. unfold put_zset, live. case_bool_decide.
  - by rewrite lookup_delete_ne.
  - by rewrite lookup_insert_ne.
Qed.

Lemma zset_put_ne t t' k k' m r : k ≠ k' → r_zset t' k' (put_zset t k m r) = r_zset t' k' r.
Proof. intros Hne. unfold r_zset. by rewrite live_put_ne. Qed.
