(* ===== verification/Queue.v ===== *)
(** * Delayed work in Redis (workers/queue.py, workers/dlq_replay_scheduler.py)

    [jobs:delayed] holds the retries waiting out their backoff; popping it is
    destructive.  Scheduled DLQ replays are claimed instead of popped: a claim
    that is never acknowledged lapses and is taken again. *)
From stdpp Require Import base tactics numbers option list gmap strings sorting.
From Stdlib Require Import QArith Ascii.
From S2P Require Import Prelude PyData Models Redis.

(** ** queue.py *)

Definition DELAYED_KEY : string := "jobs:delayed".

(** The Lua scripts touch at most this many members per call. *)
Definition LUA_LIMIT : nat := 1000.

(** [_POP_READY_LUA], run by [_atomic_pop_ready]. *)
Definition atomic_pop_ready (t : Q) (key : string) (max_score : Q) (r : Redis)
    : result exn (list string * Redis) :=
  m ← r_zset t key r;
  let due := zrange_due m max_score LUA_LIMIT in
  Ok (due, match due with [] => r | _ => put_zset t key (zrem_all due m) r end).

Definition push_delayed (t : Q) (job_id : string) (delay_seconds : Q) (r : Redis)
    : result exn Redis :=
  r_zadd t DELAYED_KEY job_id (t + delay_seconds)%Q r.

Definition pop_ready_delayed (t : Q) (r : Redis) : result exn (list string * Redis) :=
  atomic_pop_ready t DELAYED_KEY t r.

Definition delayed_length (t : Q) (r : Redis) : result exn nat := r_zcard t DELAYED_KEY r.

(** ** dlq_replay_scheduler.py *)

Definition SCHEDULED_KEY : string := "jobs:dlq_replay_delayed".
Definition INFLIGHT_KEY : string := "jobs:dlq_replay_inflight".
Definition CLAIM_TTL_SECONDS : Q := 60.

Definition replay_member (tenant principal job : uuid) : string :=
  uuid_str tenant +:+ ":" +:+ uuid_str principal +:+ ":" +:+ uuid_str job.

(** [s.split(":", n)] on characters. *)
Fixpoint split_colon (n : nat) (acc s : list ascii) : list (list ascii) :=
  match s with
  | [] => [rev acc]
  | c :: s' =>
      match n with
      | O => [rev acc ++ s]
      | S n' => if bool_decide (c = ":"%char) then rev acc :: split_colon n' [] s'
                else split_colon n (c :: acc) s'
      end
  end.

(** [_parse]; [None] is the [ValueError] of the unpacking or of [uuid.UUID]. *)
Definition parse_member (member : string) : option (uuid * uuid * uuid) :=
  match split_colon 2 [] (String.list_ascii_of_string member) with
  | [a; b; c] =>
      t ← uuid_parse (String.string_of_list_ascii a);
      p ← uuid_parse (String.string_of_list_ascii b);
      j ← uuid_parse (String.string_of_list_ascii c);
      Some (t, p, j)
  | _ => None
  end.

Definition arm_replay (t : Q) (tenant principal job : uuid) (execute_at : Q) (r : Redis)
    : result exn Redis :=
  r_zadd t SCHEDULED_KEY (replay_member tenant principal job) execute_at r.

Definition schedule_replay (t : Q) (tenant principal job : uuid) (delay_seconds : Q) (r : Redis)
    : result exn (Q * Redis) :=
  r' ← arm_replay t tenant principal job (t + delay_seconds)%Q r;
  Ok ((t + delay_seconds)%Q, r').

Definition cancel_scheduled_replay (t : Q) (tenant principal job : uuid) (r : Redis)
    : result exn Redis :=
  r_zrem t SCHEDULED_KEY (replay_member tenant principal job) r.

(** [_CLAIM_READY_LUA] on the two sets: lapsed claims first, then the due
    scheduled members up to the budget, then a fresh deadline on all of them. *)
Definition claim_script (scheduled inflight : gmap string Q) (now deadline : Q)
    : list string * gmap string Q * gmap string Q :=
  let claimed := zrange_due inflight now LUA_LIMIT in
  let due := zrange_due scheduled now (LUA_LIMIT - length claimed) in
  let claimed := claimed ++ due in
  (claimed, zrem_all due scheduled, foldl (λ m c, <[c := deadline]> m) inflight claimed).

(** [claim_ready]: run the script, parse the members, drop the unparseable ones
    from the in-flight set. *)
Definition claim_ready (t : Q) (r : Redis) : result exn (list (uuid * uuid * uuid) * Redis) :=
  scheduled ← r_zset t SCHEDULED_KEY r;
  inflight ← r_zset t INFLIGHT_KEY r;
  let '(claimed, scheduled', inflight') :=
    claim_script scheduled inflight t (t + CLAIM_TTL_SECONDS)%Q in
  let r := put_zset t INFLIGHT_KEY inflight' (put_zset t SCHEDULED_KEY scheduled' r) in
  let bad := filter (λ c, parse_member c = None) claimed in
  let r := match bad with [] => r | _ => put_zset t INFLIGHT_KEY (zrem_all bad inflight') r end in
  Ok (omap parse_member claimed, r).

Definition ack_replay (t : Q) (tenant principal job : uuid) (r : Redis) : result exn Redis :=
  r_zrem t INFLIGHT_KEY (replay_member tenant principal job) r.

(** ** Popping the delayed set *)

(** The delayed set seen as a map. *)
Definition delayed (t : Q) (r : Redis) : gmap string Q :=
  match r_zset t DELAYED_KEY r with Ok m => m | Err _ => ∅ end.

Lemma pop_ready_delayed_spec t r m :
  r_zset t DELAYED_KEY r = Ok m →
  ∃ r', pop_ready_delayed t r = Ok (zrange_due m t LUA_LIMIT, r') ∧
        r_zset t DELAYED_KEY r' = Ok (zrem_all (zrange_due m t LUA_LIMIT) m) ∧
        (∀ t' k, k ≠ DELAYED_KEY → live t' r' k = live t' r k).
Proof.
  intros Hm. unfold pop_ready_delayed, atomic_pop_ready. rewrite Hm. cbn [mbind result_mbind].
  eexists. split; [done|]. destruct (zrange_due m t LUA_LIMIT) as [|d ds].
  - split; [by rewrite Hm|done].
  - split; [apply zset_put|]. intros t' k Hk. by apply live_put_ne.
Qed.

Lemma push_delayed_spec t job d r m :
  r_zset t DELAYED_KEY r = Ok m →
  ∃ r', push_delayed t job d r = Ok r' ∧
        r_zset t DELAYED_KEY r' = Ok (<[job := (t + d)%Q]> m) ∧
        (∀ t' k, k ≠ DELAYED_KEY → live t' r' k = live t' r k).
Proof.
  intros Hm. unfold push_delayed, r_zadd. rewrite Hm. cbn [mbind result_mbind]. eexists. split; [done|].
  split; [apply zset_put|]. intros t' k Hk. by apply live_put_ne.
Qed.

(** ** Claiming scheduled replays *)

Lemma foldl_insert_lookup (l : list string) (d : Q) (m : gmap string Q) s :
  foldl (λ m c, <[c := d]> m) m l !! s = if bool_decide (s ∈ l) then Some d else m !! s.
Proof.
  revert m. induction l as [|c l IH]; intros m; cbn [foldl].
  { by rewrite bool_decide_false by set_solver. }
  rewrite IH, lookup_insert. destruct (decide (s ∈ l)).
  { by rewrite !bool_decide_true by set_solver. }
  rewrite (bool_decide_false (s ∈ l)) by done.
  destruct (decide (c = s)); [by rewrite bool_decide_true by set_solver|].
  by rewrite bool_decide_false by set_solver.
Qed.

(** The script loses no member: it is in one of the two sets before exactly when
    it is in one of them after. *)
Lemma claim_script_conserves sch inf now dl s :
  let '(claimed, sch', inf') := claim_script sch inf now dl in
  (is_Some (sch !! s) ∨ is_Some (inf !! s) ↔ is_Some (sch' !! s) ∨ is_Some (inf' !! s)) ∧
  (s ∈ claimed → inf' !! s = Some dl) ∧
  (s ∉ claimed → inf' !! s = inf !! s ∧ sch' !! s = sch !! s).
Proof.
  unfold claim_script. cbv zeta. set (old := zrange_due inf now LUA_LIMIT).
  set (due := zrange_due sch now _).
  rewrite foldl_insert_lookup, lookup_zrem_all.
  assert (Hold : s ∈ old → is_Some (inf !! s)).
  { intros Hs. apply zrange_due_elem in Hs as (q & ? & _). eauto. }
  assert (Hdue : s ∈ due → is_Some (sch !! s)).
  { intros Hs. apply zrange_due_elem in Hs as (q & ? & _). eauto. }
  split_and!.
  - destruct (decide (s ∈ due)); destruct (decide (s ∈ old)).
    + rewrite (bool_decide_true (s ∈ due)), bool_decide_true by set_solver. naive_solver.
    + rewrite (bool_decide_true (s ∈ due)), bool_decide_true by set_solver. naive_solver.
    + rewrite (bool_decide_false (s ∈ due)), bool_decide_true by set_solver. naive_solver.
    + by rewrite (bool_decide_false (s ∈ due)), bool_decide_false by set_solver.
  - intros Hs. by rewrite bool_decide_true.
  - intros Hs. by rewrite !bool_decide_false by set_solver.
Qed.

(** ** The member encoding *)

Lemma split_colon_go n acc a s :
  Forall (λ c, c ≠ ":"%char) a →
  split_colon (S n) acc (a ++ ":"%char :: s) = (rev acc ++ a) :: split_colon n [] s.
Proof.
  revert acc. induction a as [|c a IH]; intros acc Ha; cbn.
  - by rewrite app_nil_r.
  - apply Forall_cons in Ha as [Hc Ha]. rewrite bool_decide_false by done.
    rewrite IH by done. cbn. by rewrite <- app_assoc.
Qed.

Lemma uuid_chars_no_colon u : Forall (λ c, c ≠ ":"%char) (uuid_chars u).
Proof.
  eapply Forall_impl; [apply uuid_chars_safe|]. intros c [[v Hv]| ->]; [|done].
  intros ->. vm_compute in Hv. done.
Qed.

Lemma parse_replay_member tenant principal job :
  (tenant < uuid_bound)%N → (principal < uuid_bound)%N → (job < uuid_bound)%N →
  parse_member (replay_member tenant principal job) = Some (tenant, principal, job).
Proof.
  intros Ht Hp Hj. unfold parse_member, replay_member.
  rewrite !list_ascii_app, !list_ascii_of_uuid_str.
  change (String.list_ascii_of_string ":") with [":"%char]. cbn [app].
  rewrite split_colon_go by apply uuid_chars_no_colon. cbn [rev app].
  rewrite split_colon_go by apply uuid_chars_no_colon. cbn [rev app].
  replace (split_colon 0 [] (uuid_chars job)) with [uuid_chars job]
    by (by destruct (uuid_chars job)).
  change (String.string_of_list_ascii (uuid_chars ?u)) with (uuid_str u).
  by rewrite !uuid_parse_str by done.
Qed.
