(* ===== verification/DagPause.v ===== *)
(** * DAG pause flags (utils/dag_pause.py)

    A job is held back while it or any ancestor carries [dag:paused:<id>]; the
    ancestors are walked breadth first up to a cap, and a failed lookup promotes
    as if unpaused. *)
From stdpp Require Import base tactics numbers option list gmap strings sorting relations.
From Stdlib Require Import QArith.
From S2P Require Import Prelude PyData Models Database Redis.

Definition MAX_ANCESTOR_NODES : nat := 64.

Definition pause_key_for (root : uuid) : string := "dag:paused:" +:+ uuid_str root.

Section DagPause.
Context `{SqlOrder}.

(** The loop of [collect_ancestors]: [frontier], [seen] and [order] are the
    variables of the code. *)
Fixpoint ancestors_loop (fuel : nat) (db : DB) (frontier : list uuid) (seen : gset uuid)
    (order : list uuid) : list uuid :=
  match fuel, frontier with
  | S fuel', node :: rest =>
      if (MAX_ANCESTOR_NODES <=? length order)%nat then order
      else if bool_decide (node ∈ seen) then ancestors_loop fuel' db rest seen order
      else ancestors_loop fuel' db (rest ++ dep_parents node db) ({[node]} ∪ seen) (order ++ [node])
  | _, _ => order
  end.

(** Each iteration pops one node, and a node's edges are pushed once, so one more
    iteration than there are edges is enough ([ancestors_fuel]). *)
Definition collect_ancestors (db : DB) (job_id : uuid) : list uuid :=
  ancestors_loop (S (length (db_deps db))) db [job_id] ∅ [].

(** [find_blocking_pause]; [redis = None] is a lookup that raises. *)
Definition find_blocking_pause (t : Q) (redis : option Redis) (db : DB) (job_id : uuid)
    : option uuid :=
  match redis with
  | None => None
  | Some r =>
      let nodes := collect_ancestors db job_id in
      let values := r_mget t (pause_key_for <$> nodes) r in
      fst <$> head (filter (λ nv, is_Some nv.2) (zip nodes values))
  end.

(** [pause_state]: [TTL] is -2 for a missing key, -1 for one with no expiry. *)
Definition pause_state (t : Q) (redis : option Redis) (job_id : uuid) : bool * option Q :=
  match redis with
  | None => (false, None)
  | Some r =>
      match live t r (pause_key_for job_id) with
      | None => (false, None)
      | Some e => (true, (λ x, (x - t)%Q) <$> e_exp e)
      end
  end.

(** ** The walk terminates and finds the ancestors *)

(** [parent_of db i p]: [i] depends on [p]. *)
Definition parent_of (db : DB) (i p : uuid) : Prop := mkDep i p ∈ db_deps db.

(** Edges not yet followed. *)
Definition edges_left (db : DB) (seen : gset uuid) : nat :=
  length (filter (λ d, dep_job d ∉ seen) (db_deps db)).

Lemma dep_parents_elem db i p : p ∈ dep_parents i db ↔ parent_of db i p.
Proof.
  unfold dep_parents, parent_of. rewrite list_elem_of_fmap. split.
  - intros ([i' p'] & -> & Hin). rewrite sql_scan_elem, list_elem_of_filter in Hin. cbn in *.
    by destruct Hin as [-> ?].
  - intros Hin. exists (mkDep i p). split; [done|]. by rewrite sql_scan_elem, list_elem_of_filter.
Qed.

Lemma edges_left_add db seen node :
  node ∉ seen →
  (edges_left db ({[node]} ∪ seen) + length (dep_parents node db) = edges_left db seen)%nat.
Proof.
  intros Hn. unfold edges_left, dep_parents. rewrite length_fmap, sql_scan_length.
  induction (db_deps db) as [|d l IH]; [done|]. rewrite !filter_cons.
  destruct (decide (dep_job d = node)) as [Hd|Hd].
  - rewrite (decide_False (P := dep_job d ∉ {[node]} ∪ seen)) by set_solver.
    rewrite (decide_True (P := dep_job d ∉ seen)) by set_solver. cbn. lia.
  - destruct (decide (dep_job d ∉ seen)).
    + rewrite (decide_True (P := dep_job d ∉ {[node]} ∪ seen)) by set_solver. cbn. lia.
    + rewrite (decide_False (P := dep_job d ∉ {[node]} ∪ seen)) by set_solver. cbn. lia.
Qed.

(** More fuel than the measure changes nothing: the loop ends by its own test. *)
Lemma ancestors_fuel f1 f2 db frontier seen order :
  (length frontier + edges_left db seen ≤ f1)%nat →
  (length frontier + edges_left db seen ≤ f2)%nat →
  ancestors_loop f1 db frontier seen order = ancestors_loop f2 db frontier seen order.
Proof.
  revert f2 frontier seen order.
  induction f1 as [|f1 IH]; intros f2 [|node rest] seen order H1 H2;
    cbn [ancestors_loop length] in *; try lia.
  - by destruct f2.
  - by destruct f2.
  - destruct f2 as [|f2]; [lia|]. cbn [ancestors_loop]. case_match; [done|].
    case_bool_decide as Hs; [apply IH; lia|].
    pose proof (edges_left_add db seen node Hs).
    apply IH; rewrite length_app; lia.
Qed.

Lemma edges_left_empty db : edges_left db ∅ = length (db_deps db).
Proof. unfold edges_left. rewrite filter_all; [done|]. set_solver. Qed.

(** The state of the walk from [root]. *)
Definition anc_inv (db : DB) (root : uuid) (frontier : list uuid) (seen : gset uuid)
    (order : list uuid) : Prop :=
  NoDup order ∧ (∀ i, i ∈ order ↔ i ∈ seen) ∧
  (∀ i, i ∈ order ∨ i ∈ frontier → rtc (parent_of db) root i) ∧
  (∀ i p, i ∈ seen → parent_of db i p → p ∈ seen ∨ p ∈ frontier) ∧
  (root ∈ seen ∨ root ∈ frontier) ∧ (length order ≤ MAX_ANCESTOR_NODES)%nat.

(** An empty frontier means the walk saw every ancestor. *)
Lemma anc_inv_done db root seen order :
  anc_inv db root [] seen order →
  NoDup order ∧ (length order ≤ MAX_ANCESTOR_NODES)%nat ∧
  (∀ i, i ∈ order → rtc (parent_of db) root i) ∧
  ((length order < MAX_ANCESTOR_NODES)%nat → ∀ i, rtc (parent_of db) root i → i ∈ order) ∧
  (∃ suffix, order = order ++ suffix).
Proof.
  intros (Hnd & Hseen & Hanc & Hcl & Hroot & Hlen). split_and!; [done|done| | |].
  - intros i Hi. apply Hanc. by left.
  - intros _ i Hi. apply Hseen.
    assert (Hclosed : ∀ x y, rtc (parent_of db) x y → x ∈ seen → y ∈ seen).
    { induction 1 as [|x y z Hxy _ IHr]; [done|]. intros Hx. apply IHr.
      by destruct (Hcl x y Hx Hxy) as [?|?%not_elem_of_nil]. }
    destruct Hroot as [?|?%not_elem_of_nil]; [by eapply Hclosed|done].
  - exists []. by rewrite app_nil_r.
Qed.

Lemma ancestors_loop_spec f db root frontier seen order :
  (length frontier + edges_left db seen ≤ f)%nat → anc_inv db root frontier seen order →
  let out := ancestors_loop f db frontier seen order in
  NoDup out ∧ (length out ≤ MAX_ANCESTOR_NODES)%nat ∧
  (∀ i, i ∈ out → rtc (parent_of db) root i) ∧
  ((length out < MAX_ANCESTOR_NODES)%nat → ∀ i, rtc (parent_of db) root i → i ∈ out) ∧
  (∃ suffix, out = order ++ suffix).
Proof.
  revert frontier seen order.
  induction f as [|f IH]; intros [|node rest] seen order Hf Hinv;
    cbn [ancestors_loop length] in *; try lia.
  1,2: by apply (anc_inv_done db root seen order).
  destruct (Nat.leb_spec MAX_ANCESTOR_NODES (length order)) as [Hmax|Hmax].
  { destruct Hinv as (Hnd & Hseen & Hanc & Hcl & Hroot & Hlen).
    split_and!; [done|exact Hlen| |lia|].
    - intros i Hi. apply Hanc. by left.
    - exists []. by rewrite app_nil_r. }
  destruct Hinv as (Hnd & Hseen & Hanc & Hcl & Hroot & Hlen).
  case_bool_decide as Hs.
  - apply IH; [lia|]. split_and!; try done.
    + intros i [Hi|Hi]; apply Hanc; [by left|right; by right].
    + intros i p Hi Hp. destruct (Hcl i p Hi Hp) as [?|[->|?]%elem_of_cons]; auto.
    + destruct Hroot as [?|[->|?]%elem_of_cons]; auto.
  - pose proof (edges_left_add db seen node Hs).
    destruct (IH (rest ++ dep_parents node db) ({[node]} ∪ seen) (order ++ [node]))
      as (? & ? & ? & ? & suf & Hsuf).
    + rewrite length_app. lia.
    + split_and!.
      * apply NoDup_app. split_and!; [done| |apply NoDup_singleton].
        intros i Hi ->%list_elem_of_singleton. by apply Hs, Hseen.
      * intros i. rewrite elem_of_app, list_elem_of_singleton, Hseen. set_solver.
      * assert (Hnode : rtc (parent_of db) root node) by (apply Hanc; right; left).
        intros i [[Hi|Hi]%elem_of_app|[Hi|Hi]%elem_of_app].
        -- apply Hanc. by left.
        -- apply list_elem_of_singleton in Hi as ->. done.
        -- apply Hanc. right. by right.
        -- apply dep_parents_elem in Hi. by eapply rtc_r.
      * intros i p Hi Hp. rewrite elem_of_app. apply elem_of_union in Hi as [Hi|Hi].
        -- apply elem_of_singleton in Hi as ->. right. right. by apply dep_parents_elem.
        -- destruct (Hcl i p Hi Hp) as [?|[->|?]%elem_of_cons]; set_solver.
      * destruct Hroot as [?|[->|?]%elem_of_cons]; set_solver.
      * rewrite length_app. cbn. lia.
    + split_and!; try done. exists (node :: suf). by rewrite Hsuf, <- app_assoc.
Qed.

Lemma collect_ancestors_spec db root :
  let out := collect_ancestors db root in
  NoDup out ∧ (length out ≤ MAX_ANCESTOR_NODES)%nat ∧
  (∀ i, i ∈ out → rtc (parent_of db) root i) ∧
  ((length out < MAX_ANCESTOR_NODES)%nat → ∀ i, rtc (parent_of db) root i → i ∈ out) ∧
  head out = Some root.
Proof.
  assert (Hinv : anc_inv db root [root] ∅ []).
  { split_and!; [constructor|set_solver| |set_solver|set_solver|vm_compute; lia].
    intros i [Hi|Hi]; [set_solver|]. apply list_elem_of_singleton in Hi as ->. done. }
  cbv zeta. destruct (ancestors_loop_spec (S (length (db_deps db))) db root [root] ∅ [])
    as (? & ? & ? & ? & _); [cbn; rewrite edges_left_empty; lia|done|].
  split_and!; try done. unfold collect_ancestors. cbn [ancestors_loop]. cbn [length Nat.leb].
  rewrite bool_decide_false by set_solver.
  assert (Hinv' : anc_inv db root ([] ++ dep_parents root db) ({[root]} ∪ ∅) ([] ++ [root])).
  { split_and!.
    - apply NoDup_singleton.
    - set_solver.
    - intros i [Hi|Hi]; cbn in Hi.
      + apply list_elem_of_singleton in Hi as ->. done.
      + apply rtc_once. by apply dep_parents_elem.
    - intros i p Hi Hp. assert (i = root) as -> by set_solver. right. by apply dep_parents_elem.
    - set_solver.
    - vm_compute. lia. }
  edestruct (ancestors_loop_spec (length (db_deps db)) db root) as (_ & _ & _ & _ & suf & Hsuf);
    [|exact Hinv'|].
  - pose proof (edges_left_add db ∅ root) as He. rewrite edges_left_empty in He.
    cbn [app]. rewrite <- He by set_solver. lia.
  - change (MAX_ANCESTOR_NODES <=? length [])%nat with false. cbv iota. by rewrite Hsuf.
Qed.

(** ** What the probe answers *)

(** The flag of [n] is set and has not expired. *)
Definition paused_at (t : Q) (r : Redis) (n : uuid) : Prop :=
  ∃ v, r_get t (pause_key_for n) r = Ok (Some v).

Lemma mget_zip_elem t r nodes n v :
  (n, v) ∈ zip nodes (r_mget t (pause_key_for <$> nodes) r) ∧ is_Some v →
  n ∈ nodes ∧ paused_at t r n.
Proof.
  intros [Hin [v' ->]]. induction nodes as [|x nodes IH]; cbn in Hin.
  - by apply not_elem_of_nil in Hin.
  - apply elem_of_cons in Hin as [Heq|Hin].
    + injection Heq as -> Hv. split; [left|].
      destruct (r_get t (pause_key_for x) r) as [[v|]|] eqn:E; simplify_eq. by exists v.
    + destruct (IH Hin). split; [by right|done].
Qed.

Lemma mget_zip_paused t r nodes n :
  n ∈ nodes → paused_at t r n →
  ∃ v, (n, Some v) ∈ zip nodes (r_mget t (pause_key_for <$> nodes) r).
Proof.
  intros Hn [v Hv]. exists v. induction nodes as [|x nodes IH]; [by apply not_elem_of_nil in Hn|].
  cbn. apply elem_of_cons in Hn as [->|Hn]; [rewrite Hv; left|right; by apply IH].
Qed.

Lemma find_blocking_pause_some t r db i n :
  find_blocking_pause t (Some r) db i = Some n →
  n ∈ collect_ancestors db i ∧ paused_at t r n.
Proof.
  unfold find_blocking_pause. cbv zeta. intros Hf. apply fmap_Some in Hf as ([n' v] & Hh & ->).
  apply (mget_zip_elem _ _ _ n' v). apply head_Some_elem_of in Hh.
  by apply list_elem_of_filter in Hh as [? ?].
Qed.

Lemma find_blocking_pause_none t r db i n :
  find_blocking_pause t (Some r) db i = None →
  n ∈ collect_ancestors db i → ¬ paused_at t r n.
Proof.
  unfold find_blocking_pause. cbv zeta. intros Hf Hn Hp.
  destruct (mget_zip_paused t r _ n Hn Hp) as [v Hv].
  apply fmap_None in Hf. apply head_None in Hf.
  assert (Hin : (n, Some v) ∈ filter (λ nv : uuid * option rval, is_Some nv.2)
            (zip (collect_ancestors db i) (r_mget t (pause_key_for <$> collect_ancestors db i) r))).
  { apply list_elem_of_filter. split; [by eexists|done]. }
  rewrite Hf in Hin. by apply not_elem_of_nil in Hin.
Qed.

End DagPause.
