(* ===== verification/JobService.v ===== *)
(** * JobService (services/job.py)

    Creating, reading, replaying and resolving a job.  The job row, its audit row
    and its outbox event are written in one transaction; a raise leaves the
    database as it was. *)
From stdpp Require Import base tactics numbers option list gmap strings sorting.
From Stdlib Require Import QArith.
From S2P Require Import Prelude PyData Models Database JobEvents JobRepo Redis DagPause.

(** What the request brings besides its arguments: the clocks, the Redis client
    ([None] when a lookup would raise), the trace context and the trace id. *)
Record Request := mkRequest {
  rq_now : Z;                    (** [datetime.now(UTC)], microseconds *)
  rq_time : Q;                   (** [time.time()], seconds *)
  rq_redis : option Redis;
  rq_otel : dict;                (** [inject_context()] *)
  rq_trace_id : string           (** [trace_id_var.get("")] *)
}.

(** Cache work a service asks for: after the commit, or at once. *)
Inductive cache_effect : Type :=
  | PostCommitInvalidate (job tenant : uuid)
  | DeleteNow (job tenant : uuid).

Section JobService.
Context `{SqlOrder, UuidSource} (cfg : Settings).

(** ** create_job *)

(** The arguments of [create_job]. *)
Record NewJob := mkNewJob {
  nj_user : uuid;
  nj_tenant : uuid;
  nj_type : string;
  nj_payload : option dict;
  nj_key : option string;
  nj_priority : Z;
  nj_max_attempts : option Z;
  nj_deps : list uuid;
  nj_saga : option uuid;
  nj_step : option Z
}.

(** [if idempotency_key]: the empty string is falsy. *)
Definition truthy_key (k : option string) : option string :=
  s ← k; if bool_decide (s = "") then None else Some s.

(** Every declared parent must exist. *)
Fixpoint load_parents (deps : list uuid) (db : DB) : result exn (list Job) :=
  match deps with
  | [] => Ok []
  | p :: ps =>
      match get_by_id p db with
      | None => Err (NotFoundError ("Dependency job " +:+ uuid_str p +:+ " not found"))
      | Some j => js ← load_parents ps db; Ok (j :: js)
      end
  end.

(** WAITING when a parent is unfinished, or when a chain above it is paused. *)
Definition initial_status (rq : Request) (dep_repo : bool) (deps : list uuid)
    (parents : list Job) (db : DB) : JobStatus :=
  if existsb (λ p, bool_decide (job_status p ≠ COMPLETED)) parents then WAITING
  else if bool_decide (deps ≠ []) && dep_repo &&
          existsb (λ p, bool_decide (is_Some (find_blocking_pause (rq_time rq) (rq_redis rq) db (job_id p))))
            parents
  then WAITING else PENDING.

Definition enriched_payload (rq : Request) (payload : option dict) : dict :=
  let p := default [] payload in
  match rq_otel rq with [] => p | ctx => dset p TRACE_CARRIER_KEY (JObj ctx) end.

(** The row [job_repo.create] inserts. *)
Definition new_row (rq : Request) (a : NewJob) (status : JobStatus) (i : uuid) : Job :=
  mkJob i (nj_tenant a) (nj_user a) (nj_type a) status (nj_key a)
    (Some (enriched_payload rq (nj_payload a))) None None 0
    (default (max_job_attempts cfg) (nj_max_attempts a)) None None None None (nj_priority a)
    (if bool_decide (rq_trace_id rq = "") then None else Some (rq_trace_id rq))
    None None None None (nj_saga a) (nj_step a) (rq_now rq) (rq_now rq).

Definition submit_event (now : Z) (job : Job) (db : DB) : DB :=
  outbox_add now (job_tenant_id job) (kafka_topic_job_submitted cfg)
    (partition_key (job_tenant_id job) (job_user_id job)) (job_submitted_payload job) db.

(** After the insert: the dependency rows, the audit row and, when the job is
    ready, its [job.submitted] event. *)
Definition finish_create (rq : Request) (dep_repo : bool) (a : NewJob) (status : JobStatus)
    (job : Job) (db : DB) : result exn (Job * DB) :=
  db ← (match nj_deps a with
        | [] => Ok db
        | deps => if dep_repo
                  then ds ← dep_add (job_id job) deps (db_deps db); Ok (with_deps ds db)
                  else Err (RuntimeError "JobService.create_job called with dependencies but no dep_repo")
        end);
  let db := audit_log (rq_now rq) "job.created" (nj_tenant a) (Some (nj_user a)) None None
              (Some (job_id job)) (Some "job") (Some (uuid_str (job_id job)))
              (Some [("type", JStr (nj_type a)); ("priority", JInt (nj_priority a));
                     ("dependencies", JList (juuid <$> nj_deps a));
                     ("initial_status", JStr (job_status_value status))]) db in
  Ok (job, if bool_decide (status = PENDING) then submit_event (rq_now rq) job db else db).

(** [create_job].  [others] is what other transactions commit between this
    request's reads and its INSERT. *)
Definition create_job (rq : Request) (dep_repo : bool) (a : NewJob) (others : DB → DB) (db : DB)
    : result exn (Job * DB) :=
  match (k ← truthy_key (nj_key a); get_by_idempotency_key k (nj_tenant a) db) with
  | Some existing => Ok (existing, db)
  | None =>
      parents ← load_parents (nj_deps a) db;
      let status := initial_status rq dep_repo (nj_deps a) parents db in
      let '(i, db) := draw_uuid (others db) in
      let job := new_row rq a status i in
      match insert_job job db with
      | Ok db => finish_create rq dep_repo a status job db
      | Err e =>
          match nj_key a with
          | None => Err e
          | Some k => match get_by_idempotency_key k (nj_tenant a) db with
                      | None => Err e
                      | Some winner => Ok (winner, db)
                      end
          end
      end
  end.

(** ** Reads *)

Definition privileged (role : UserRole) : bool :=
  match role with ADMIN | SUPPORT => true | USER => false end.

Definition get_job (job_id requesting_user : uuid) (role : UserRole) (tenant : uuid) (db : DB)
    : result exn Job :=
  match get_for_tenant job_id tenant db with
  | None => Err (NotFoundError ("Job " +:+ uuid_str job_id +:+ " not found"))
  | Some job =>
      if negb (privileged role) && bool_decide (job_user_id job ≠ requesting_user)
      then Err (AuthorizationError "Not allowed to view this job")
      else Ok job
  end.

(** ** replay_job *)

Definition replayable (s : JobStatus) : bool :=
  match s with FAILED | DEAD_LETTER => true | _ => false end.

(** A replay is a fresh lifecycle: the previous run's outcome is cleared. *)
Definition replay_reset : list job_set :=
  [SetRetryCount 0; SetErrorMessage None; SetResult None; SetDeadLetteredBy None;
   SetRemediationHint None; SetFencedAt None; SetFencedBy None].

(** Who asks for the replay: [requesting_user_id], [principal_type], [principal_id]. *)
Record Caller := mkCaller {
  by_user : option uuid;
  by_type : string;
  by_principal : option uuid
}.

Definition replay_job (rq : Request) (dep_repo : bool) (job_id tenant : uuid) (who : Caller)
    (db : DB) : result exn (Job * DB * list cache_effect) :=
  match get_for_tenant job_id tenant db with
  | None => Err (NotFoundError ("Job " +:+ uuid_str job_id +:+ " not found"))
  | Some job =>
      if negb (replayable (job_status job)) then
        Err (JobError ("Only failed/dead_letter jobs can be replayed, got: " +:+
                       job_status_value (job_status job)))
      else
      match (if dep_repo then find_blocking_pause (rq_time rq) (rq_redis rq) db job_id else None) with
      | Some paused_by =>
          Err (JobError ("Job " +:+ uuid_str job_id +:+ " is in a paused DAG (paused via " +:+
                         uuid_str paused_by +:+ "); replay refused while the pause holds"))
      | None =>
          let '(updated, db) :=
            update_status cfg (rq_now rq) job_id PENDING replay_reset None None db in
          let audit_user := if bool_decide (by_type who = "user") then by_user who else None in
          let audit_principal := match by_principal who with Some p => Some p | None => by_user who end in
          let db := audit_log (rq_now rq) "job.replayed" (job_tenant_id job) audit_user
                      (Some (by_type who)) audit_principal (Some job_id) (Some "job")
                      (Some (uuid_str job_id))
                      (Some [("previous_status", JStr (job_status_value (job_status job)));
                             ("previous_retry_count", JInt (job_retry_count job))]) db in
          let db := submit_event (rq_now rq) job db in
          match updated with
          | None => Err AssertionError
          | Some j => Ok (j, db, [PostCommitInvalidate job_id tenant])
          end
      end
  end.

(** ** resolve_incident *)

Definition resolve_incident (rq : Request) (job_id requesting_user tenant : uuid) (db : DB)
    : result exn (Job * DB * list cache_effect) :=
  match get_for_tenant job_id tenant db with
  | None => Err (NotFoundError ("Job " +:+ uuid_str job_id +:+ " not found"))
  | Some job =>
      let '(updated, db) := update_status cfg (rq_now rq) job_id COMPLETED [] None None db in
      let db := audit_log (rq_now rq) "incident.resolved" (job_tenant_id job)
                  (Some requesting_user) None None (Some job_id) (Some "job")
                  (Some (uuid_str job_id)) None db in
      match updated with
      | None => Err AssertionError
      | Some j => Ok (j, db, [DeleteNow job_id tenant])
      end
  end.

End JobService.
