(* ===== verification/World.v ===== *)
(** * The shared state

    The database, Redis and the Kafka log together: what one worker process or
    API request leaves for the others. *)
From stdpp Require Import base tactics numbers option list gmap strings sorting.
From Stdlib Require Import QArith.
From S2P Require Import Prelude PyData Models Database Redis.

(** A message on a Kafka topic. *)
Record Message := mkMessage { msg_topic : string; msg_key : string; msg_value : dict }.

Record World := mkWorld {
  w_db : DB;
  w_redis : Redis;
  w_log : list Message  (** everything published, oldest first *)
}.

Definition with_db (db : DB) (w : World) : World := mkWorld db (w_redis w) (w_log w).
Definition with_redis (r : Redis) (w : World) : World := mkWorld (w_db w) r (w_log w).
Definition with_log (l : list Message) (w : World) : World := mkWorld (w_db w) (w_redis w) l.

(** A Redis call that may not reach the server, or may be refused. *)
Definition redis_call {A} (ok : bool) (f : Redis → result exn (A * Redis)) (w : World)
    : result exn A * World :=
  if ok then
    match f (w_redis w) with
    | Ok (a, r) => (Ok a, with_redis r w)
    | Err e => (Err e, w)
    end
  else (Err ServiceError, w).

(** The client a lookup uses: absent when the call raises. *)
Definition redis_view (ok : bool) (w : World) : option Redis :=
  if ok then Some (w_redis w) else None.
