(* ===== verification/Dispatcher.v ===== *)
(** * Running one job (workers/dispatcher.py)

    [_run_job] from claim to settlement, the safety net around it and the
    dispatcher consumer's admission of messages.  The processors, the LLM retry
    policy and what other processes do while the job runs are inputs; progress
    messages, metrics, spans and log lines are left out. *)
From stdpp Require Import base tactics numbers option list gmap strings sorting.
From Stdlib Require Import QArith Qround.
From S2P Require Import Prelude PyData Models Database JobEvents JobRepo Redis Queue DagPause JobService World.

Definition PAUSE_RECHECK_SECONDS : Q := 10.
Definition MAX_CONCURRENT_JOBS : nat := 10.
Definition MAX_DISPATCH_BACKLOG : nat := MAX_CONCURRENT_JOBS * 10.

(** ** What the environment answers *)

(** How the processor coroutine ended; [expired] is [deadline.expired()]. *)
Inductive proc_event : Type :=
  | ProcReturns (r : dict)
  | ProcTimeoutError (expired : bool) (msg : string)
  | ProcRaises (msg : string).

Inductive run_outcome : Type :=
  | Returned (r : dict)
  | DeadlineExceeded (msg : string)  (** [JobExecutionTimeout] *)
  | Raised (msg : string).

(** [_execute_processor]: only an expired deadline is a [JobExecutionTimeout]; the
    processor's own [TimeoutError] passes through. *)
Definition execute_processor (timeout_seconds : string) (e : proc_event) : run_outcome :=
  match e with
  | ProcReturns r => Returned r
  | ProcTimeoutError true _ =>
      DeadlineExceeded ("job exceeded the " +:+ timeout_seconds +:+ "s execution deadline")
  | ProcTimeoutError false m => Raised m
  | ProcRaises m => Raised m
  end.

(** [RetryDecision] of services/retry_policy.py. *)
Inductive RetryAction : Type := retry_with_backoff | dead_letter_now.
Record RetryDecision := mkDecision {
  rd_action : RetryAction;
  rd_backoff_seconds : Z;
  rd_reasoning : string
}.

(** [f"{q:.0f}"]: round half to even. *)
Definition round_half_even (q : Q) : Z :=
  let f := Qfloor q in
  match Qcompare (q - inject_Z f) (1 # 2) with
  | Lt => f
  | Gt => (f + 1)%Z
  | Eq => if Z.even f then f else (f + 1)%Z
  end.

Section RunJob.
Context `{SqlOrder, UuidSource} (cfg : Settings).

(** ** Claim *)

(** The values read from the row before it is claimed. *)
Record Execution := mkExecution {
  ex_job : uuid;
  ex_job_id_str : string;   (** the id as the message spelled it *)
  ex_payload : dict;
  ex_type : string;
  ex_user : uuid;
  ex_tenant : uuid;
  ex_retry_count : Z;
  ex_max_attempts : Z;
  ex_prior_error : option string
}.

Inductive claim_outcome : Type :=
  | ClaimNotFound
  | ClaimNotPending
  | ClaimHeld (paused_by : uuid)
  | ClaimLost
  | Claimed (ex : Execution).

Definition execution_of (job_id_str : string) (job : Job) : Execution :=
  mkExecution (job_id job) job_id_str (default [] (job_payload job)) (job_type job) (job_user_id job)
    (job_tenant_id job) (job_retry_count job) (job_max_attempts job) (job_error_message job).

(** The first transaction of [_run_job]; [redis = None] is a pause lookup that
    fails (and so holds nothing back). *)
Definition run_job_claim (now : Z) (t : Q) (redis : option Redis) (job_id_str : string) (job : uuid)
    (db : DB) : claim_outcome * DB :=
  match get_by_id job db with
  | None => (ClaimNotFound, db)
  | Some j =>
      if bool_decide (job_status j ≠ PENDING) then (ClaimNotPending, db)
      else
      match find_blocking_pause t redis db job with
      | Some held_by => (ClaimHeld held_by, db)
      | None =>
          let '(claimed, db) := claim_for_running now job db in
          (if claimed then Claimed (execution_of job_id_str j) else ClaimLost, db)
      end
  end.

(** ** Settlement *)

Definition dead_letter_audit (now : Z) (tenant job : uuid) (extra : dict) (db : DB) : DB :=
  audit_log now "job.dead_letter" tenant None None None (Some job) None None (Some extra) db.

(** No processor is registered for the type. *)
Definition settle_unregistered (now : Z) (ex : Execution) (db : DB) : DB :=
  let error := "No processor for type: " +:+ ex_type ex in
  let '(_, db) := update_status cfg now (ex_job ex) DEAD_LETTER
                    [SetRetryCount (ex_retry_count ex); SetErrorMessage (Some error)] None None db in
  dead_letter_audit now (ex_tenant ex) (ex_job ex)
    [("error", JStr error); ("reason", JStr "unregistered_type")] db.

(** The deadline was exceeded: terminal on the first breach. *)
Definition settle_timeout (now : Z) (ex : Execution) (timeout_seconds : string) (exc : string)
    (db : DB) : DB :=
  let error := "Execution timed out: " +:+ exc in
  let '(_, db) := update_status cfg now (ex_job ex) DEAD_LETTER
                    [SetErrorMessage (Some error); SetDeadLetteredBy (Some "execution_timeout")]
                    (Some error) None db in
  dead_letter_audit now (ex_tenant ex) (ex_job ex)
    [("error", JStr exc); ("reason", JStr "execution_timeout");
     ("timeout_seconds", JFloat timeout_seconds); ("retry_count", JInt (ex_retry_count ex))] db.

Definition settle_completed (now : Z) (ex : Execution) (result : dict) (db : DB) : DB :=
  let '(_, db) := update_status cfg now (ex_job ex) COMPLETED [SetResult (Some result)] None None db in
  audit_log now "job.completed" (ex_tenant ex) None None None (Some (ex_job ex)) None None
    (Some [("type", JStr (ex_type ex)); ("retry_count", JInt (ex_retry_count ex))]) db.

(** What to do about a failed run: the backoff, and whether the LLM policy
    dead-letters it with which reasoning.  [policy] is what [decide_retry]
    returned, [None] when it raised. *)
Record RetryPlan := mkPlan { rp_delay : Q; rp_llm_dead_lettered : bool; rp_reasoning : option string }.

Definition consult_policy (new_retry_count max_attempts : Z) : bool :=
  (new_retry_count <? max_attempts)%Z && llm_retry_policy_enabled cfg &&
  (llm_retry_policy_min_retry_count cfg <=? new_retry_count)%Z.

Definition retry_plan (new_retry_count max_attempts : Z) (policy : option RetryDecision) : RetryPlan :=
  let deterministic := (job_retry_backoff_base cfg ^ new_retry_count)%Q in
  if consult_policy new_retry_count max_attempts then
    match policy with
    | None => mkPlan deterministic false None
    | Some d =>
        match rd_action d with
        | dead_letter_now => mkPlan deterministic true (Some (rd_reasoning d))
        | retry_with_backoff => mkPlan (inject_Z (rd_backoff_seconds d)) false (Some (rd_reasoning d))
        end
    end
  else mkPlan deterministic false None.

(** The ceiling counts runs, so the comparison is strict. *)
Definition will_retry (new_retry_count max_attempts : Z) (plan : RetryPlan) : bool :=
  (new_retry_count <? max_attempts)%Z && negb (rp_llm_dead_lettered plan).

Definition job_failed_payload (ex : Execution) (exc : string) (plan : RetryPlan)
    (new_retry_count : Z) : dict :=
  [("event", JStr "job.failed");
   ("tenant_id", juuid (ex_tenant ex));
   ("job_id", JStr (ex_job_id_str ex));
   ("user_id", juuid (ex_user ex));
   ("job_type", JStr (ex_type ex));
   ("error", JStr exc);
   ("message", JStr ("Retrying in " +:+ show_Z (round_half_even (rp_delay plan)) +:+ "s (attempt " +:+
                     show_Z new_retry_count +:+ " of " +:+ show_Z (ex_max_attempts ex) +:+ ")"));
   ("retry_count", JInt new_retry_count);
   ("dead_lettered", JBool false)].

(** The transaction that puts the job back to PENDING. *)
Definition settle_retry (now : Z) (ex : Execution) (exc : string) (plan : RetryPlan) (db : DB) : DB :=
  let new_retry_count := (ex_retry_count ex + 1)%Z in
  let '(_, db) := update_status cfg now (ex_job ex) PENDING
                    [SetRetryCount new_retry_count; SetErrorMessage (Some exc)] None None db in
  outbox_add now (ex_tenant ex) (kafka_topic_job_failed cfg)
    (partition_key (ex_tenant ex) (ex_user ex)) (job_failed_payload ex exc plan new_retry_count) db.

(** The transaction that dead-letters it. *)
Definition settle_exhausted (now : Z) (ex : Execution) (exc : string) (plan : RetryPlan) (db : DB) : DB :=
  let new_retry_count := (ex_retry_count ex + 1)%Z in
  let by_llm := rp_llm_dead_lettered plan in
  let reasoning := match rp_reasoning plan with Some s => s | None => "None" end in
  let message := if by_llm then "LLM dead-lettered: " +:+ reasoning
                 else "Job exhausted after " +:+ show_Z new_retry_count +:+ " attempts: " +:+ exc in
  let '(_, db) := update_status cfg now (ex_job ex) DEAD_LETTER
                    ([SetRetryCount new_retry_count; SetErrorMessage (Some exc)] ++
                     (if by_llm then [SetDeadLetteredBy (Some "llm_retry_policy")] else []))
                    (Some message) None db in
  dead_letter_audit now (ex_tenant ex) (ex_job ex)
    ([("error", JStr exc); ("retry_count", JInt new_retry_count)] ++
     (if by_llm then [("dead_lettered_by", JStr "llm_retry_policy");
                      ("reasoning", jstr_opt (rp_reasoning plan))] else [])) db.

(** ** [_run_job] *)

(** A transaction commits, rolls back with an exception, or commits and an exception
    follows (a lost acknowledgement, a failing call after it). *)
Inductive tx_outcome : Type := TxCommits | TxRollsBack | TxCommitsThenRaises.

(** Everything one run meets: the clocks, which calls reach their service, the
    processor, the policy, and what other processes do while it runs. *)
Record RunEnv := mkRunEnv {
  re_claim_now : Z;
  re_claim_time : Q;
  re_lookup_ok : bool;                  (** the pause lookup reaches Redis *)
  re_claim_commits : bool;              (** the claim transaction commits *)
  re_proc : JobType → dict → proc_event;  (** the processor, on the payload it is given *)
  re_timeout : string;                  (** [job_execution_timeout_seconds], printed *)
  re_meanwhile : World → World;
  re_settle_now : Z;
  re_settle_time : Q;
  re_policy : option RetryDecision;
  re_settle : tx_outcome;               (** how the settling transaction ends *)
  re_push_ok : bool                     (** [push_delayed] reaches Redis *)
}.

(** [queue.push_delayed] under its own [try]: a failure is logged. *)
Definition push_guarded (ok : bool) (t : Q) (job : string) (delay : Q) (w : World) : World :=
  (redis_call ok (λ r, r' ← push_delayed t job delay r; Ok (tt, r')) w).2.

(** One transaction and, when it commits, what follows it. *)
Definition commit_tx (tx : tx_outcome) (f : DB → DB) (after : World → World) (w : World)
    : result exn unit * World :=
  match tx with
  | TxCommits => (Ok tt, after (with_db (f (w_db w)) w))
  | TxRollsBack => (Err ServiceError, w)
  | TxCommitsThenRaises => (Err ServiceError, with_db (f (w_db w)) w)
  end.

(** The settling transaction and what follows it. *)
Definition settle (env : RunEnv) (ex : Execution) (w : World) : result exn unit * World :=
  let now := re_settle_now env in
  let commit f after := commit_tx (re_settle env) f after w in
  match job_type_of_string (ex_type ex) with
  | None => commit (settle_unregistered now ex) (λ w, w)
  | Some ty =>
      match execute_processor (re_timeout env)
              (re_proc env ty (dremove "__traceparent" (ex_payload ex))) with
      | Returned r => commit (settle_completed now ex r) (λ w, w)
      | DeadlineExceeded m => commit (settle_timeout now ex (re_timeout env) m) (λ w, w)
      | Raised m =>
          let n := (ex_retry_count ex + 1)%Z in
          let plan := retry_plan n (ex_max_attempts ex) (re_policy env) in
          if will_retry n (ex_max_attempts ex) plan
          then commit (settle_retry now ex m plan)
                 (push_guarded (re_push_ok env) (re_settle_time env) (ex_job_id_str ex) (rp_delay plan))
          else commit (settle_exhausted now ex m plan) (λ w, w)
      end
  end.

(** [_run_job]: returns, or raises what escapes it. *)
Definition run_job (env : RunEnv) (job_id_str : string) (w : World) : result exn unit * World :=
  match uuid_parse job_id_str with
  | None => (Err (ValueError "badly formed hexadecimal UUID string"), w)
  | Some job =>
      if negb (re_claim_commits env) then (Err ServiceError, w) else
      let '(out, db) := run_job_claim (re_claim_now env) (re_claim_time env)
                          (redis_view (re_lookup_ok env) w) job_id_str job (w_db w) in
      let w := with_db db w in
      match out with
      | ClaimNotFound | ClaimNotPending | ClaimLost => (Ok tt, w)
      | ClaimHeld _ =>
          (Ok tt, push_guarded (re_push_ok env) (re_claim_time env) job_id_str PAUSE_RECHECK_SECONDS w)
      | Claimed ex => settle env ex (re_meanwhile env w)
      end
  end.

(** ** The safety net *)

Definition exn_message (e : exn) : string :=
  match e with
  | NotFoundError m | AuthenticationError m | AuthorizationError m | ConflictError m | JobError m
  | RequestValidationError m | RateLimitError m | QuotaExceededError m | BackpressureError m
  | StreamCapacityError m | ToolError _ _ m | RuntimeError m | ValueError m => m
  | KeyError k => "'" +:+ k +:+ "'"
  | IntegrityError => "integrity error"
  | AssertionError => ""
  | ServiceError => "service unavailable"
  end.

(** [_force_dead_letter]. *)
Definition force_dead_letter (now : Z) (job_id_str error : string) (db : DB) : DB :=
  match uuid_parse job_id_str with
  | None => db
  | Some job =>
      match get_by_id job db with
      | None => db
      | Some j =>
          if is_terminal (job_status j) then db else
          let '(_, db) := update_status cfg now job DEAD_LETTER
                            [SetErrorMessage (Some ("Dispatcher escape: " +:+ error))] None None db in
          dead_letter_audit now (job_tenant_id j) job
            [("error", JStr error); ("reason", JStr "dispatcher_escape")] db
      end
  end.

(** [_run_and_release] after the slot is acquired; [net_commits] says whether the
    net's own transaction commits. *)
Definition run_and_release (env : RunEnv) (net_commits : bool) (job_id_str : string) (w : World) : World :=
  match run_job env job_id_str w with
  | (Ok _, w') => w'
  | (Err e, w') =>
      if net_commits
      then with_db (force_dead_letter (re_settle_now env) job_id_str (exn_message e) (w_db w')) w'
      else w'
  end.

(** ** Admission of messages *)

(** The dispatcher's in-memory state: the tasks it started and the ids they run. *)
Record Dispatcher := mkDispatcher {
  d_in_flight : list string;          (** one entry per unfinished task *)
  d_in_flight_job_ids : gset string
}.

Inductive dispatch_result : Type := Skipped | Spawned (job : string) | DispatchBacklogFull.

(** [JobDispatcherConsumer.handle_message]; the base consumer has validated the
    message against its schema, so a present job id is a string. *)
Definition dispatch_message (job_id : option string) (d : Dispatcher) : dispatch_result * Dispatcher :=
  match job_id with
  | None | Some "" => (Skipped, d)
  | Some job =>
      if (MAX_DISPATCH_BACKLOG <=? length (d_in_flight d))%nat then (DispatchBacklogFull, d)
      else (Spawned job, mkDispatcher (d_in_flight d ++ [job]) ({[job]} ∪ d_in_flight_job_ids d))
  end.

(** Remove the first occurrence: one task for the id has ended. *)
Fixpoint remove_one (x : string) (l : list string) : list string :=
  match l with
  | [] => []
  | y :: l => if bool_decide (x = y) then l else y :: remove_one x l
  end.

(** The [finally] of [_run_and_release] and the task's done callback. *)
Definition task_done (job : string) (d : Dispatcher) : Dispatcher :=
  mkDispatcher (remove_one job (d_in_flight d)) (d_in_flight_job_ids d ∖ {[job]}).

End RunJob.
