(* ===== verification/Sweeps.v ===== *)
(** * The dispatcher's background passes (workers/dispatcher.py)

    Each [_..._once] function: promotion of delayed retries, the resume sweep for
    WAITING jobs, the stale-PENDING backstop, crash recovery of RUNNING jobs, lease
    renewal and scheduled DLQ replays.  What Redis answers to each call, how each
    transaction ends and what other processes do in between are inputs. *)
From stdpp Require Import base tactics numbers option list gmap strings sorting.
From Stdlib Require Import QArith.
From S2P Require Import Prelude PyData Models Database JobEvents JobRepo Redis Queue DagPause JobService World Dispatcher.

Definition RESUME_SWEEP_LIMIT : nat := 200.
Definition PROMOTE_RETRY_DELAY_SECONDS : Q := 5.
Definition STALE_PENDING_AGE_SECONDS : Z := 300.
Definition STALE_PENDING_LIMIT : nat := 100.
Definition PAUSED_REPLAY_DEFER_SECONDS : Q := 30.
Definition STALE_RUNNING_SWEEP_LIMIT : nat := 100.
Definition RUNNING_LEASE_TTL_SECONDS : Z := 120.
Definition IN_FLIGHT_EXCLUSION_GRACE_SECONDS : Z := 300.

(** Seconds as microseconds. *)
Definition secs (n : Z) : Z := (n * 1000000)%Z.

Section Sweeps.
Context `{SqlOrder, UuidSource} (cfg : Settings).

(** ** Delayed retries: [_promote_delayed_once] *)

(** What one item meets. *)
Record ItemEnv := mkItemEnv {
  it_now : Z;
  it_time : Q;
  it_lookup_ok : bool;    (** the pause lookup reaches Redis *)
  it_tx : tx_outcome;     (** how the item's transaction ends *)
  it_push_ok : bool       (** the re-push reaches Redis *)
}.

Definition promote_item (e : ItemEnv) (job_id_str : string) (w : World) : World :=
  match uuid_parse job_id_str with
  | None => w
  | Some job =>
      let requeue delay := push_guarded (it_push_ok e) (it_time e) job_id_str delay in
      match it_tx e with
      | TxRollsBack => requeue PROMOTE_RETRY_DELAY_SECONDS w
      | tx =>
          match get_by_id job (w_db w) with
          | None => w
          | Some j =>
              match find_blocking_pause (it_time e) (redis_view (it_lookup_ok e) w) (w_db w) job with
              | Some _ => requeue PAUSE_RECHECK_SECONDS w
              | None =>
                  let w := with_db (submit_event cfg (it_now e) j (w_db w)) w in
                  match tx with
                  | TxCommitsThenRaises => requeue PROMOTE_RETRY_DELAY_SECONDS w
                  | _ => w
                  end
              end
          end
      end
  end.

(** The pass: the pop is destructive, then every popped id is an item. *)
Definition promote_delayed_once (t : Q) (pop_ok : bool) (env : string → ItemEnv) (w : World)
    : result exn unit * World :=
  match redis_call pop_ok (pop_ready_delayed t) w with
  | (Err e, w) => (Err e, w)
  | (Ok ready_ids, w) => (Ok tt, foldl (λ w i, promote_item (env i) i w) w ready_ids)
  end.

(** ** The resume sweep: [_resume_unblocked_waiting_once] *)

(** [ORDER BY created_at, id]. *)
Definition created_before (a b : Job) : Prop :=
  (job_created_at a < job_created_at b)%Z ∨
  (job_created_at a = job_created_at b ∧ (job_id a ≤ job_id b)%N).

#[export] Instance created_before_dec : RelDecision created_before.
Proof. intros a b. unfold created_before. apply _. Defined.

(** [tuple_(Job.created_at, Job.id) > cursor]. *)
Definition after_cursor (cursor : option (Z * uuid)) (j : Job) : bool :=
  match cursor with
  | None => true
  | Some (at_, i) =>
      bool_decide ((at_ < job_created_at j)%Z ∨ (job_created_at j = at_ ∧ (i < job_id j)%N))
  end.

(** [WHERE status = 'waiting' AND NOT EXISTS unmet parent]. *)
Definition promotable (db : DB) (j : Job) : bool :=
  bool_decide (job_status j = WAITING) && (dep_unmet_count (job_id j) db =? 0)%nat.

(** [_promotable_waiting_stmt]. *)
Definition promotable_waiting (cursor : option (Z * uuid)) (db : DB) : list Job :=
  take RESUME_SWEEP_LIMIT
    (merge_sort created_before
       (filter (λ j, promotable db j = true ∧ after_cursor cursor j = true) (all_jobs db))).

(** One row of the page; [lookup] is the client its pause lookup sees. *)
Definition resume_row (now : Z) (t : Q) (lookup : option Redis) (child : Job) (db : DB) : DB :=
  match find_blocking_pause t lookup db (job_id child) with
  | Some _ => db
  | None =>
      let '(promoted, db') := promote_waiting_to_pending now (job_id child) db in
      if promoted then submit_event cfg now child db' else db
  end.

Definition resume_unblocked_waiting_once (now : Z) (t : Q) (lookup : uuid → option Redis)
    (cursor : option (Z * uuid)) (db : DB) : option (Z * uuid) * DB :=
  let rows := promotable_waiting cursor db in
  let next_cursor := (λ j, (job_created_at j, job_id j)) <$> last rows in
  let db := foldl (λ db child, resume_row now t (lookup (job_id child)) child db) db rows in
  (if (length rows <? RESUME_SWEEP_LIMIT)%nat then None else next_cursor, db).

(** ** The stale-PENDING backstop: [_requeue_stale_pending_once] *)

Definition stale_pending (now : Z) (j : Job) : bool :=
  let cutoff := (now - secs STALE_PENDING_AGE_SECONDS)%Z in
  bool_decide (job_status j = PENDING) && (job_updated_at j <? cutoff)%Z &&
  match job_requeued_at j with None => true | Some r => (r <? cutoff)%Z end.

(** One row: skipped while the delayed set still holds it. *)
Definition requeue_row (now : Z) (t : Q) (redis : option Redis) (job : Job) (db : DB)
    : result exn DB :=
  score ← (match redis with
           | None => Err ServiceError
           | Some r => r_zscore t DELAYED_KEY (uuid_str (job_id job)) r
           end);
  match score with
  | Some _ => Ok db
  | None =>
      let db := submit_event cfg now job db in
      Ok (update_job now (job_id job) no_guard [SetRequeuedAt (Some now); KeepUpdatedAt] db).2
  end.

Fixpoint requeue_rows (now : Z) (t : Q) (redis : option Redis) (rows : list Job) (db : DB)
    : result exn DB :=
  match rows with
  | [] => Ok db
  | job :: rows => db ← requeue_row now t redis job db; requeue_rows now t redis rows db
  end.

(** The pass is one transaction: a raise leaves the database as it was. *)
Definition requeue_stale_pending_once (now : Z) (t : Q) (redis : option Redis) (db : DB)
    : result exn DB :=
  requeue_rows now t redis
    (take STALE_PENDING_LIMIT (filter (λ j, stale_pending now j = true) (all_jobs db))) db.

(** ** Crash recovery: [_sweep_stale_running_once] *)

Definition stale_running (now_scan threshold_seconds : Z) (j : Job) : bool :=
  bool_decide (job_status j = RUNNING) &&
  match job_started_at j with
  | None => false
  | Some s => (s <? now_scan - secs threshold_seconds)%Z
  end &&
  match job_heartbeat_at j with
  | None => true
  | Some h => (h <? now_scan - secs RUNNING_LEASE_TTL_SECONDS)%Z
  end.

(** The compare-and-set against what the scan saw. *)
Definition recovery_guard (row : Job) (j : Job) : bool :=
  bool_decide (job_status j = RUNNING ∧ job_started_at j = job_started_at row ∧
               job_heartbeat_at j = job_heartbeat_at row).

Definition recovery_error (in_flight : bool) : string :=
  if in_flight
  then "stuck job recovery: still RUNNING long past its execution deadline while held by this worker"
  else "worker crash recovery: job exceeded stale-RUNNING threshold".

(** Excluded: held by this worker and still within the grace. *)
Definition excluded_in_flight (now threshold_seconds : Z) (in_flight : bool) (started_at : Z) : bool :=
  in_flight &&
  (now - started_at <? secs (threshold_seconds + IN_FLIGHT_EXCLUSION_GRACE_SECONDS))%Z.

(** One survivor in its own transaction: whether it was dead-lettered. *)
Definition recover_row (now : Z) (in_flight : bool) (row : Job) (started_at : Z) (tx : tx_outcome)
    (db : DB) : bool * DB :=
  let error := recovery_error in_flight in
  let '(settled, db') := update_status cfg now (job_id row) DEAD_LETTER
                           [SetErrorMessage (Some error)] None (Some (recovery_guard row)) db in
  let db' := match settled with
             | None => db'
             | Some _ =>
                 dead_letter_audit now (job_tenant_id row) (job_id row)
                   [("error", JStr error);
                    ("reason", JStr (if in_flight then "stuck_local_job" else "worker_crash_recovery"));
                    ("stale_seconds", JFloat (show_seconds (now - started_at)));
                    ("started_at", JStr (isoformat started_at))] db'
             end in
  match tx with
  | TxRollsBack => (false, db)
  | TxCommitsThenRaises => (false, db')
  | TxCommits => (bool_decide (is_Some settled), db')
  end.

(** [env] gives, for each row, what others do before it and how its transaction ends. *)
Definition sweep_stale_running_once (now_scan now threshold_seconds : Z) (in_flight_ids : gset string)
    (env : uuid → (DB → DB) * tx_outcome) (db : DB) : nat * DB :=
  let rows := take STALE_RUNNING_SWEEP_LIMIT
                (filter (λ j, stale_running now_scan threshold_seconds j = true) (all_jobs db)) in
  foldl (λ '(recovered, db) row,
    match job_started_at row with
    | None => (recovered, db)
    | Some started_at =>
        let in_flight := bool_decide (uuid_str (job_id row) ∈ in_flight_ids) in
        if excluded_in_flight now threshold_seconds in_flight started_at then (recovered, db)
        else
        let '(others, tx) := env (job_id row) in
        let '(settled, db) := recover_row now in_flight row started_at tx (others db) in
        (if settled then S recovered else recovered, db)
    end) (0%nat, db) rows.

(** ** Leases: [_renew_running_leases_once] *)

Definition renew_running_leases_once (now threshold_seconds : Z) (in_flight_ids : gset string)
    (db : DB) : nat * DB :=
  renew_running_leases now (omap uuid_parse (elements in_flight_ids))
    (threshold_seconds + IN_FLIGHT_EXCLUSION_GRACE_SECONDS) db.

(** ** Scheduled replays: [_promote_dlq_replay_once] *)

Record ReplayEnv := mkReplayEnv {
  rv_request : Z * Q;      (** the clocks: [datetime.now], [time.time] *)
  rv_lookup_ok : bool;     (** the pause lookups reach Redis *)
  rv_tx : tx_outcome;
  rv_schedule_ok : bool;   (** re-arming a held entry reaches Redis *)
  rv_ack_ok : bool         (** the acknowledgement reaches Redis *)
}.

(** The body of the [try]: fire, or re-arm when the DAG is paused; failures are logged. *)
Definition fire_replay (e : ReplayEnv) (entry : uuid * uuid * uuid) (w : World) : World :=
  let '(tenant, principal, job) := entry in
  let '(now, t) := rv_request e in
  let redis := redis_view (rv_lookup_ok e) w in
  match rv_tx e with
  | TxRollsBack => w
  | tx =>
      match find_blocking_pause t redis (w_db w) job with
      | Some _ =>
          match tx with
          | TxCommitsThenRaises => w
          | _ => (redis_call (rv_schedule_ok e)
                    (schedule_replay t tenant principal job PAUSED_REPLAY_DEFER_SECONDS) w).2
          end
      | None =>
          match replay_job cfg (mkRequest now t redis [] "") true job tenant
                  (mkCaller None "service_account" (Some principal)) (w_db w) with
          | Ok (_, db, _) => with_db db w
          | Err _ => w
          end
      end
  end.

(** The pass; a failing acknowledgement ends it. *)
Fixpoint fire_replays (env : uuid → ReplayEnv) (entries : list (uuid * uuid * uuid)) (w : World)
    : result exn unit * World :=
  match entries with
  | [] => (Ok tt, w)
  | (tenant, principal, job) :: entries =>
      let e := env job in
      let w := fire_replay e (tenant, principal, job) w in
      match redis_call (rv_ack_ok e)
              (λ r, r' ← ack_replay (rv_request e).2 tenant principal job r; Ok (tt, r')) w with
      | (Ok _, w) => fire_replays env entries w
      | (Err err, w) => (Err err, w)
      end
  end.

Definition promote_dlq_replay_once (t : Q) (claim_ok : bool) (env : uuid → ReplayEnv) (w : World)
    : result exn unit * World :=
  match redis_call claim_ok (claim_ready t) w with
  | (Err e, w) => (Err e, w)
  | (Ok ready, w) => fire_replays env ready w
  end.

End Sweeps.
