(* ===== verification/OutboxRelay.v ===== *)
(** * The outbox relay (repositories/outbox.py, workers/dispatcher.py)

    A tick fetches the oldest unpublished rows, publishes each and records in a
    second transaction how each attempt ended.  What the producer does with a row
    is an input. *)
From stdpp Require Import base tactics numbers option list gmap strings sorting.
From S2P Require Import Prelude PyData Models Database Redis World.

Definition OUTBOX_RELAY_BATCH : nat := 100.
Definition ERROR_MESSAGE_MAX_CHARS : nat := 900.

(** How [publish_raw] ends for one row.  A broker error may come after the broker
    has the message: [reached] says whether it has. *)
Inductive publish_outcome : Type :=
  | PubSent
  | PubSchemaInvalid (msg : string)
  | PubFailed (msg : string) (reached : bool).

Section Outbox.
Context `{SqlOrder} (cfg : Settings).

(** ** OutboxRepository *)

(** [published_at IS NULL AND attempts < max]. *)
Definition in_window (e : OutboxEvent) : bool :=
  bool_decide (ob_published_at e = None) && (ob_attempts e <? outbox_max_attempts cfg)%Z.

Definition older (a b : OutboxEvent) : Prop := (ob_created_at a ≤ ob_created_at b)%Z.
#[export] Instance older_dec : RelDecision older.
Proof. intros a b. unfold older. apply _. Defined.

Definition fetch_unpublished (limit : nat) (db : DB) : list OutboxEvent :=
  take limit (merge_sort older (sql_scan (filter (λ e, in_window e = true) (db_outbox db)))).

(** [UPDATE outbox_events SET f WHERE id IN ids]. *)
Definition update_outbox (ids : list uuid) (f : OutboxEvent → OutboxEvent) (db : DB) : DB :=
  with_outbox ((λ e, if bool_decide (ob_id e ∈ ids) then f e else e) <$> db_outbox db) db.

Definition ob_publish (now : Z) (e : OutboxEvent) : OutboxEvent :=
  mkOutbox (ob_id e) (ob_tenant_id e) (ob_topic e) (ob_key e) (ob_payload e) (ob_attempts e)
    (ob_created_at e) (Some now) (ob_failed_at e) (ob_error_message e).

Definition ob_attempt (e : OutboxEvent) : OutboxEvent :=
  mkOutbox (ob_id e) (ob_tenant_id e) (ob_topic e) (ob_key e) (ob_payload e) (ob_attempts e + 1)
    (ob_created_at e) (ob_published_at e) (ob_failed_at e) (ob_error_message e).

Definition ob_fail (now : Z) (error : string) (e : OutboxEvent) : OutboxEvent :=
  mkOutbox (ob_id e) (ob_tenant_id e) (ob_topic e) (ob_key e) (ob_payload e) (ob_attempts e)
    (ob_created_at e) (Some now) (Some now) (Some (String.substring 0 ERROR_MESSAGE_MAX_CHARS error)).

Definition mark_published (now : Z) (ids : list uuid) (db : DB) : DB :=
  match ids with [] => db | _ => update_outbox ids (ob_publish now) db end.

Definition increment_attempts (ids : list uuid) (db : DB) : DB :=
  match ids with [] => db | _ => update_outbox ids ob_attempt db end.

Definition mark_failed (now : Z) (ids : list uuid) (error : string) (db : DB) : DB :=
  match ids with [] => db | _ => update_outbox ids (ob_fail now error) db end.

(** [min] and [max] over a column: NULL on no rows. *)
Definition opt_min (a : option Z) (b : Z) : option Z :=
  match a with None => Some b | Some x => Some (Z.min x b) end.
Definition opt_max (a : option Z) (b : Z) : option Z :=
  match a with None => Some b | Some x => Some (Z.max x b) end.

Definition awaiting (e : OutboxEvent) : bool := bool_decide (ob_published_at e = None).

(** [unpublished_stats]: the depth and the age of the oldest row in microseconds. *)
Definition unpublished_stats (now : Z) (db : DB) : nat * Z :=
  let rows := filter (λ e, awaiting e = true) (db_outbox db) in
  match foldl opt_min None (ob_created_at <$> rows) with
  | None => (0%nat, 0%Z)
  | Some oldest => (length rows, Z.max 0 (now - oldest))
  end.

Record OutboxDeliverySnapshot := mkSnapshot {
  sn_measured_at : Z;
  sn_unpublished_count : nat;
  sn_oldest_unpublished_at : option Z;
  sn_newest_unpublished_at : option Z;
  sn_past_attempt_limit : nat;
  sn_last_publish_at : option Z
}.

Definition delivery_snapshot (now : Z) (tenant : uuid) (db : DB) : OutboxDeliverySnapshot :=
  let rows := filter (λ e, ob_tenant_id e = tenant) (db_outbox db) in
  let waiting := filter (λ e, awaiting e = true) rows in
  mkSnapshot now (length waiting)
    (foldl opt_min None (ob_created_at <$> waiting))
    (foldl opt_max None (ob_created_at <$> waiting))
    (length (filter (λ e, (outbox_max_attempts cfg ≤ ob_attempts e)%Z) waiting))
    (foldl opt_max None
       (omap ob_published_at (filter (λ e, ob_failed_at e = None) rows))).

(** ** [_outbox_relay_tick] *)

(** The three lists the publish loop builds. *)
Record Tally := mkTally {
  ta_published : list uuid;
  ta_retry : list uuid;
  ta_dead : list (uuid * string)
}.

Definition record_attempt (e : OutboxEvent) (o : publish_outcome) (ta : Tally) : Tally :=
  match o with
  | PubSent => mkTally (ta_published ta ++ [ob_id e]) (ta_retry ta) (ta_dead ta)
  | PubSchemaInvalid m =>
      mkTally (ta_published ta) (ta_retry ta)
        (ta_dead ta ++ [(ob_id e, "schema validation failed: " +:+ m)])
  | PubFailed m _ =>
      let attempts := (ob_attempts e + 1)%Z in
      if (outbox_max_attempts cfg <=? attempts)%Z
      then mkTally (ta_published ta) (ta_retry ta)
             (ta_dead ta ++ [(ob_id e, "abandoned after " +:+ show_Z attempts +:+ " attempts: " +:+ m)])
      else mkTally (ta_published ta) (ta_retry ta ++ [ob_id e]) (ta_dead ta)
  end.

(** What the broker's log receives. *)
Definition reaches_log (o : publish_outcome) : bool :=
  match o with PubSent => true | PubSchemaInvalid _ => false | PubFailed _ r => r end.

Definition ob_message (e : OutboxEvent) : Message := mkMessage (ob_topic e) (ob_key e) (ob_payload e).

(** The publish loop. *)
Definition publish_events (producer : OutboxEvent → publish_outcome) (events : list OutboxEvent)
    : Tally * list Message :=
  foldl (λ '(ta, log) e,
    (record_attempt e (producer e) ta,
     if reaches_log (producer e) then log ++ [ob_message e] else log))
    (mkTally [] [] [], []) events.

(** The marking transaction. *)
Definition mark_results (now : Z) (ta : Tally) (db : DB) : DB :=
  let db := mark_published now (ta_published ta) db in
  let db := increment_attempts (ta_retry ta) db in
  foldl (λ db '(i, error), mark_failed now [i] error db) db (ta_dead ta).

(** The tick; [marked] says whether the marking transaction commits, [others] is
    what other processes commit while the rows are being published. *)
Definition outbox_relay_tick (now : Z) (producer : OutboxEvent → publish_outcome)
    (others : DB → DB) (marked : bool) (w : World) : World :=
  match fetch_unpublished OUTBOX_RELAY_BATCH (w_db w) with
  | [] => w
  | events =>
      let '(ta, log) := publish_events producer events in
      let db := others (w_db w) in
      mkWorld (if marked then mark_results now ta db else db) (w_redis w) (w_log w ++ log)
  end.


(** ** What a tick does to each row *)

(** The attempt that exhausts a row. *)
Definition last_attempt (e : OutboxEvent) : bool := (outbox_max_attempts cfg <=? ob_attempts e + 1)%Z.

Definition abandon_text (e : OutboxEvent) (m : string) : string :=
  "abandoned after " +:+ show_Z (ob_attempts e + 1) +:+ " attempts: " +:+ m.

(** Reference: the fate of one fetched row. *)
Definition settled_row (now : Z) (o : publish_outcome) (e : OutboxEvent) : OutboxEvent :=
  match o with
  | PubSent => ob_publish now e
  | PubSchemaInvalid m => ob_fail now ("schema validation failed: " +:+ m) e
  | PubFailed m _ => if last_attempt e then ob_fail now (abandon_text e m) e else ob_attempt e
  end.

Definition dead_entry (producer : OutboxEvent → publish_outcome) (e : OutboxEvent)
    : option (uuid * string) :=
  match producer e with
  | PubSent => None
  | PubSchemaInvalid m => Some (ob_id e, "schema validation failed: " +:+ m)
  | PubFailed m _ => if last_attempt e then Some (ob_id e, abandon_text e m) else None
  end.

Definition retried (o : publish_outcome) (e : OutboxEvent) : bool :=
  match o with PubFailed _ _ => negb (last_attempt e) | _ => false end.

Definition sent (o : publish_outcome) : bool := match o with PubSent => true | _ => false end.

Lemma publish_events_spec producer events :
  publish_events producer events =
  (mkTally (ob_id <$> filter (λ e, sent (producer e) = true) events)
     (ob_id <$> filter (λ e, retried (producer e) e = true) events)
     (omap (dead_entry producer) events),
   ob_message <$> filter (λ e, reaches_log (producer e) = true) events).
Proof.
  unfold publish_events.
  assert (Hgen : ∀ ta log,
    foldl (λ '(ta, log) e,
      (record_attempt e (producer e) ta,
       if reaches_log (producer e) then log ++ [ob_message e] else log)) (ta, log) events =
    (mkTally (ta_published ta ++ (ob_id <$> filter (λ e, sent (producer e) = true) events))
       (ta_retry ta ++ (ob_id <$> filter (λ e, retried (producer e) e = true) events))
       (ta_dead ta ++ omap (dead_entry producer) events),
     log ++ (ob_message <$> filter (λ e, reaches_log (producer e) = true) events))).
  { induction events as [|e events IH]; intros ta log; cbn [foldl].
    - cbn. rewrite !app_nil_r. by destruct ta.
    - rewrite IH, !filter_cons. cbn [omap list_omap]. unfold dead_entry at 2.
      destruct (producer e) as [|m|m r]; cbn [sent retried reaches_log record_attempt].
      + cbn. by rewrite <- !app_assoc.
      + cbn. by rewrite <- !app_assoc.
      + fold (last_attempt e). fold (abandon_text e m).
        destruct (last_attempt e), r; cbn; rewrite <- ?app_assoc; done. }
  rewrite Hgen. done.
Qed.

Lemma update_outbox_rows ids f db :
  db_outbox (update_outbox ids f db) =
  (λ e, if bool_decide (ob_id e ∈ ids) then f e else e) <$> db_outbox db.
Proof. done. Qed.

(** The one-row updates of the dead-letter loop, as one map. *)
Definition fail_all (now : Z) (l : list (uuid * string)) (e : OutboxEvent) : OutboxEvent :=
  foldl (λ e '(i, error), if bool_decide (ob_id e ∈ [i]) then ob_fail now error e else e) e l.

Lemma mark_failed_loop now l db :
  db_outbox (foldl (λ db '(i, error), mark_failed now [i] error db) db l) =
  fail_all now l <$> db_outbox db.
Proof.
  revert db. induction l as [|[i m] l IH]; intros db; cbn [foldl].
  - symmetry. apply list_fmap_id.
  - rewrite IH. unfold mark_failed. rewrite update_outbox_rows, <- list_fmap_compose. done.
Qed.

Lemma fail_all_other now l e : ob_id e ∉ l.*1 → fail_all now l e = e.
Proof.
  revert e. induction l as [|[i m] l IH]; intros e Hni; [done|]. cbn.
  rewrite bool_decide_false by set_solver. apply IH. set_solver.
Qed.

Lemma fail_all_hit now l e m :
  NoDup l.*1 → (ob_id e, m) ∈ l → fail_all now l e = ob_fail now m e.
Proof.
  revert e. induction l as [|[i m'] l IH]; intros e Hnd Hin; [by apply not_elem_of_nil in Hin|].
  cbn in Hnd. apply NoDup_cons in Hnd as [Hni Hnd]. cbn. apply elem_of_cons in Hin as [Heq|Hin].
  - simplify_eq. rewrite bool_decide_true by set_solver. by apply fail_all_other.
  - rewrite bool_decide_false; [by apply IH|]. intros Hi. apply Hni. apply list_elem_of_singleton in Hi as <-.
    apply list_elem_of_fmap. by exists (ob_id e, m).
Qed.

(** Rows of a batch are recognised by their identifier. *)
Lemma batch_id_inj (events : list OutboxEvent) e e' :
  NoDup (ob_id <$> events) → e ∈ events → e' ∈ events → ob_id e = ob_id e' → e = e'.
Proof.
  intros Hnd He He' Hid. apply list_elem_of_lookup in He as [n Hn]. apply list_elem_of_lookup in He' as [m Hm].
  assert (n = m) as ->; [|congruence].
  eapply (NoDup_lookup (ob_id <$> events)); [done| |]; rewrite list_lookup_fmap, ?Hn, ?Hm; cbn; by rewrite ?Hid.
Qed.

Lemma filtered_id (P : OutboxEvent → Prop) `{!∀ e, Decision (P e)} events e :
  NoDup (ob_id <$> events) → e ∈ events → (ob_id e ∈ ob_id <$> filter P events ↔ P e).
Proof.
  intros Hnd He. rewrite list_elem_of_fmap. split.
  - intros (e' & Hid & [HP Hin]%list_elem_of_filter). by rewrite (batch_id_inj events e e').
  - intros HP. exists e. split; [done|]. by apply list_elem_of_filter.
Qed.

Lemma dead_entry_ids producer events :
  NoDup (ob_id <$> events) → NoDup (omap (dead_entry producer) events).*1.
Proof.
  assert (Hsub : ∀ l, (omap (dead_entry producer) l).*1 `sublist_of` (ob_id <$> l)).
  { induction l as [|e l IH]; [done|]. cbn [omap list_omap fmap list_fmap].
    unfold dead_entry at 1. destruct (producer e) as [|m|m r]; [by constructor|by constructor|].
    destruct (last_attempt e); by constructor. }
  intros Hnd. by eapply sublist_NoDup.
Qed.

Lemma fmap_none (f : OutboxEvent → OutboxEvent) (rows : list OutboxEvent) :
  (λ e, if bool_decide (ob_id e ∈ []) then f e else e) <$> rows = rows.
Proof.
  induction rows as [|e rows IH]; [done|]. rewrite fmap_cons, IH. by rewrite bool_decide_false by set_solver.
Qed.

Lemma mark_published_rows now l db :
  db_outbox (mark_published now l db) =
    (λ e, if bool_decide (ob_id e ∈ l) then ob_publish now e else e) <$> db_outbox db.
Proof. destruct l as [|i l]; [|done]. symmetry. apply fmap_none. Qed.

Lemma increment_attempts_rows l db :
  db_outbox (increment_attempts l db) =
    (λ e, if bool_decide (ob_id e ∈ l) then ob_attempt e else e) <$> db_outbox db.
Proof. destruct l as [|i l]; [|done]. symmetry. apply fmap_none. Qed.

Lemma dead_entry_id producer e i m : dead_entry producer e = Some (i, m) → i = ob_id e.
Proof.
  unfold dead_entry. destruct (producer e) as [|?|? ?]; [done|by intros [= <- _]|].
  destruct (last_attempt e); [by intros [= <- _]|done].
Qed.

(** A row whose id is in no list is in none of the marks. *)
Lemma unfetched_unmarked producer events (P : OutboxEvent → Prop) `{!∀ e, Decision (P e)} i :
  i ∉ ob_id <$> events → (i ∉ ob_id <$> filter P events) ∧ (i ∉ (omap (dead_entry producer) events).*1).
Proof.
  intros Hout. split; intros Hx; apply Hout; apply list_elem_of_fmap.
  - apply list_elem_of_fmap in Hx as (x & -> & Hx). apply list_elem_of_filter in Hx as [_ Hx]. eauto.
  - apply list_elem_of_fmap in Hx as ([k m] & -> & Hx). apply list_elem_of_omap in Hx as (x & Hx & Hd).
    apply dead_entry_id in Hd. eauto.
Qed.

(** A fetched row is abandoned exactly when its own attempt says so. *)
Lemma dead_entry_batch producer events e :
  NoDup (ob_id <$> events) → e ∈ events →
  match dead_entry producer e with
  | Some im => im ∈ omap (dead_entry producer) events
  | None => ob_id e ∉ (omap (dead_entry producer) events).*1
  end.
Proof.
  intros Hnd Hin. destruct (dead_entry producer e) as [im|] eqn:Ed.
  - apply list_elem_of_omap. by exists e.
  - intros Hx. apply list_elem_of_fmap in Hx as ([i m] & Hi & Hx). cbn in Hi. subst i.
    apply list_elem_of_omap in Hx as (x & Hx & Hd). pose proof (dead_entry_id _ _ _ _ Hd) as Hxe.
    rewrite (batch_id_inj events x e) in Hd by done. congruence.
Qed.

(** The batched marks amount to settling each fetched row on its own. *)
Lemma mark_results_rows now producer events db :
  NoDup (ob_id <$> db_outbox db) → NoDup (ob_id <$> events) → (∀ e, e ∈ events → e ∈ db_outbox db) →
  db_outbox (mark_results now (publish_events producer events).1 db) =
  (λ e, if bool_decide (ob_id e ∈ ob_id <$> events) then settled_row now (producer e) e else e)
    <$> db_outbox db.
Proof.
  intros Hndo Hnd Hsub. rewrite publish_events_spec. unfold mark_results. cbv zeta. cbn [fst ta_published ta_retry ta_dead].
  rewrite mark_failed_loop, increment_attempts_rows, mark_published_rows, <- !list_fmap_compose.
  apply list_fmap_ext. intros k e Hk. apply list_elem_of_lookup_2 in Hk. unfold compose.
  destruct (decide (ob_id e ∈ ob_id <$> events)) as [Hin|Hout].
  2:{ rewrite (bool_decide_false (ob_id e ∈ ob_id <$> filter _ events)) by (by eapply (unfetched_unmarked producer)).
      rewrite !bool_decide_false; [|done|by eapply (unfetched_unmarked producer)].
      apply fail_all_other. by apply (unfetched_unmarked producer events (λ _, True)). }
  apply list_elem_of_fmap in Hin as (e' & Hid & Hin').
  assert (e = e') as <- by (apply (batch_id_inj (db_outbox db)); auto).
  rewrite (bool_decide_true (ob_id e ∈ ob_id <$> events)) by (apply list_elem_of_fmap; eauto).
  assert (Hs : bool_decide (ob_id e ∈ ob_id <$> filter (λ e, sent (producer e) = true) events) = sent (producer e)).
  { destruct (sent (producer e)) eqn:E; [apply bool_decide_true|apply bool_decide_false]; rewrite filtered_id; auto; congruence. }
  assert (Hr : bool_decide (ob_id e ∈ ob_id <$> filter (λ e, retried (producer e) e = true) events) = retried (producer e) e).
  { destruct (retried (producer e) e) eqn:E; [apply bool_decide_true|apply bool_decide_false]; rewrite filtered_id; auto; congruence. }
  pose proof (dead_entry_batch producer events e Hnd Hin') as Hdead.
  rewrite Hs. unfold settled_row. unfold dead_entry at 1 in Hdead.
  destruct (producer e) as [|m|m r] eqn:Ep; cbn [sent retried] in *.
  - cbn [ob_id ob_publish]. by rewrite Hr, fail_all_other.
  - rewrite Hr. apply fail_all_hit; [by apply dead_entry_ids|done].
  - destruct (last_attempt e); cbn [negb] in *; rewrite Hr.
    + apply fail_all_hit; [by apply dead_entry_ids|done].
    + by apply fail_all_other.
Qed.

Lemma fetch_unpublished_elem limit db e :
  e ∈ fetch_unpublished limit db → e ∈ db_outbox db ∧ in_window e = true.
Proof.
  unfold fetch_unpublished. intros He. apply elem_of_take in He as (k & Hk & _).
  apply list_elem_of_lookup_2 in Hk. rewrite merge_sort_Permutation, sql_scan_elem, list_elem_of_filter in Hk.
  tauto.
Qed.

Lemma fetch_unpublished_nodup limit db :
  NoDup (ob_id <$> db_outbox db) → NoDup (ob_id <$> fetch_unpublished limit db).
Proof.
  intros Hnd. unfold fetch_unpublished.
  assert (Hf : NoDup (ob_id <$> filter (λ e, in_window e = true) (db_outbox db))).
  { eapply sublist_NoDup; [exact Hnd|]. apply fmap_sublist, sublist_filter. }
  assert (Hm : NoDup (ob_id <$> merge_sort older (sql_scan (filter (λ e, in_window e = true) (db_outbox db))))).
  { by rewrite merge_sort_Permutation, sql_scan_perm. }
  eapply sublist_NoDup; [exact Hm|]. apply fmap_sublist, sublist_take.
Qed.

End Outbox.
