(* ===== verification/Resolver.v ===== *)
(** * The dependency resolver (workers/dependency_resolver.py)

    On [job.completed], every WAITING child whose parents are all COMPLETED and
    whose chain is not paused becomes PENDING and is announced. *)
From stdpp Require Import base tactics numbers option list gmap strings sorting.
From Stdlib Require Import QArith.
From S2P Require Import Prelude PyData Models Database JobEvents JobRepo Redis DagPause JobService.

Section Resolver.
Context `{SqlOrder, UuidSource} (cfg : Settings).

(** One child.  [others] is what other transactions commit between the reads and
    the compare-and-set. *)
Definition resolve_child (now : Z) (t : Q) (redis : option Redis) (others : DB → DB)
    (child_id : uuid) (db : DB) : DB :=
  match get_by_id child_id db with
  | None => db
  | Some child =>
      if bool_decide (job_status child ≠ WAITING) then db else
      if (0 <? dep_unmet_count child_id db)%nat then db else
      match find_blocking_pause t redis db child_id with
      | Some _ => db
      | None =>
          let '(promoted, db) := promote_waiting_to_pending now child_id (others db) in
          if promoted then submit_event cfg now child db else db
      end
  end.

(** [handle_message]: [job_id] is the event's; the base consumer has checked that it
    is a string when present. *)
Definition resolver_handle_message (now : Z) (t : Q) (redis : option Redis)
    (others : uuid → DB → DB) (job_id : option string) (db : DB) : DB :=
  match job_id ≫= uuid_parse with
  | None => db
  | Some parent =>
      foldl (λ db c, resolve_child now t redis (others c) c db) db (dep_children_of parent db)
  end.

End Resolver.
