(* ===== verification/SagaFlow.v ===== *)
(** * Sagas (repositories/saga.py, services/saga.py, workers/saga_coordinator.py)

    A saga is a chain of dependent jobs; the coordinator completes it, or rolls it
    back with one [.compensate] job per completed step, newest first. *)
From stdpp Require Import base tactics numbers option list gmap strings sorting.
From Stdlib Require Import QArith.
From S2P Require Import Prelude PyData Models Database JobEvents JobRepo Redis DagPause JobService.

Definition COMPENSATE_SUFFIX : string := ".compensate".

(** [s.endswith(suffix)]. *)
Definition ends_with (suffix s : string) : bool :=
  bool_decide (String.list_ascii_of_string suffix `suffix_of` String.list_ascii_of_string s).

Section Sagas.
Context `{SqlOrder, UuidSource} (cfg : Settings).

(** ** SagaRepository *)

(** [_STEP_ORDER]: the declared index with NULLs last, then [(created_at, id)]. *)
Definition step_tie (a b : Job) : Prop :=
  (job_created_at a < job_created_at b)%Z ∨
  (job_created_at a = job_created_at b ∧ (job_id a ≤ job_id b)%N).

Definition step_before (a b : Job) : Prop :=
  match job_saga_step_index a, job_saga_step_index b with
  | Some i, Some k => (i < k)%Z ∨ (i = k ∧ step_tie a b)
  | Some _, None => True
  | None, Some _ => False
  | None, None => step_tie a b
  end.

#[export] Instance step_before_dec : RelDecision step_before.
Proof. intros a b. unfold step_before, step_tie. repeat case_match; apply _. Defined.

Definition saga_jobs (saga : uuid) (db : DB) : list Job :=
  merge_sort step_before (filter (λ j, job_saga_id j = Some saga) (all_jobs db)).

Definition completed_steps (saga : uuid) (db : DB) : list Job :=
  merge_sort step_before
    (filter (λ j, job_saga_id j = Some saga ∧ job_status j = COMPLETED) (all_jobs db)).

Definition waiting_steps (saga : uuid) (db : DB) : list Job :=
  filter (λ j, job_saga_id j = Some saga ∧ (job_status j = WAITING ∨ job_status j = PENDING))
    (all_jobs db).

(** ** SagaService.create_saga *)

Record SagaStep := mkStep {
  step_type : string;
  step_payload : option dict;
  step_priority : Z
}.

(** The steps from [index] on, each depending on the one before. *)
Fixpoint create_steps (rq : Request) (user tenant saga : uuid) (index : Z) (prev : option uuid)
    (steps : list SagaStep) (db : DB) : result exn DB :=
  match steps with
  | [] => Ok db
  | step :: steps =>
      jd ← create_job cfg rq true
             (mkNewJob user tenant (step_type step) (step_payload step) None (step_priority step)
                None (option_list prev) (Some saga) (Some index)) (λ db, db) db;
      create_steps rq user tenant saga (index + 1) (Some (job_id jd.1)) steps jd.2
  end.

Definition create_saga (rq : Request) (user tenant : uuid) (name : string) (steps : list SagaStep)
    (db : DB) : result exn (Saga * DB) :=
  match steps with
  | [] => Err (RequestValidationError "Saga must have at least one step")
  | _ =>
      let '(i, db) := draw_uuid db in
      let saga := mkSaga i tenant name SAGA_RUNNING (rq_now rq) None in
      let db := with_sagas (<[i := saga]> (db_sagas db)) db in
      db ← create_steps rq user tenant i 0 None steps db;
      Ok (saga, audit_log (rq_now rq) "saga.created" tenant (Some user) None None None
                  (Some "saga") (Some (uuid_str i))
                  (Some [("name", JStr name); ("step_count", JInt (Z.of_nat (length steps)))]) db)
  end.

(** ** SagaCoordinator *)

Definition is_compensation (j : Job) : bool := ends_with COMPENSATE_SUFFIX (job_type j).

Definition set_saga (status : SagaStatus) (completed_at : option Z) (s : Saga) : Saga :=
  mkSaga (saga_id s) (saga_tenant_id s) (saga_name s) status (saga_created_at s) completed_at.

Definition write_saga (s : Saga) (db : DB) : DB := with_sagas (<[saga_id s := s]> (db_sagas db)) db.

Definition saga_audit (now : Z) (action : string) (s : Saga) (extra : dict) (db : DB) : DB :=
  audit_log now action (saga_tenant_id s) None None None None (Some "saga")
    (Some (uuid_str (saga_id s))) (Some extra) db.

(** [_handle_completion]. *)
Definition handle_completion (now : Z) (s : Saga) (db : DB) : DB :=
  match saga_jobs (saga_id s) db with
  | [] => db
  | js =>
      if forallb (λ j, bool_decide (job_status j = COMPLETED)) js
      then saga_audit now "saga.completed" s [("step_count", JInt (Z.of_nat (length js)))]
             (write_saga (set_saga SAGA_COMPLETED (Some now) s) db)
      else db
  end.

(** [_settle_if_drained]. *)
Definition settle_if_drained (now : Z) (s : Saga) (db : DB) : DB :=
  let comp_jobs := filter (λ j, is_compensation j = true) (saga_jobs (saga_id s) db) in
  let terminal j := match job_status j with COMPLETED | DEAD_LETTER | CANCELLED => true | _ => false end in
  if existsb (λ j, negb (terminal j)) comp_jobs then db
  else
    let unsuccessful := length (filter (λ j, job_status j ≠ COMPLETED) comp_jobs) in
    let ok := (unsuccessful =? 0)%nat in
    saga_audit now (if ok then "saga.compensated" else "saga.compensation_failed") s
      [("compensation_steps", JInt (Z.of_nat (length comp_jobs)));
       ("dead_lettered", JInt (Z.of_nat unsuccessful))]
      (write_saga (set_saga (if ok then SAGA_COMPENSATED else SAGA_FAILED) (Some now) s) db).

(** The cancellation of the steps still to come: how many there were. *)
Definition cancel_downstream (now : Z) (failed_job : uuid) (steps : list Job) (db : DB) : nat * DB :=
  foldl (λ '(n, db) w,
    if bool_decide (job_id w = failed_job) then (n, db)
    else (S n, (update_status cfg now (job_id w) CANCELLED
                  [SetErrorMessage (Some "saga rollback")] None None db).2)) (0%nat, db) steps.

Definition compensation_payload (saga : uuid) (done : Job) : dict :=
  [("compensates_job_id", juuid (job_id done)); ("saga_id", juuid saga)].

Definition compensation_row (now : Z) (s : Saga) (user : uuid) (done : Job) (i : uuid) : Job :=
  mkJob i (saga_tenant_id s) user (job_type done +:+ COMPENSATE_SUFFIX) PENDING None
    (Some (compensation_payload (saga_id s) done)) None None 0 (job_max_attempts done)
    None None None None (job_priority done) (job_trace_id done)
    None None None None (Some (saga_id s)) None now now.

(** One [.compensate] job and its [job.submitted] event. *)
Definition compensate (now : Z) (s : Saga) (user : uuid) (done : Job) (db : DB) : result exn DB :=
  let '(i, db) := draw_uuid db in
  let row := compensation_row now s user done i in
  db ← insert_job row db;
  Ok (submit_event cfg now row db).

Fixpoint compensate_all (now : Z) (s : Saga) (user : uuid) (steps : list Job) (db : DB)
    : result exn DB :=
  match steps with
  | [] => Ok db
  | done :: steps => db ← compensate now s user done db; compensate_all now s user steps db
  end.

(** [_handle_failure]. *)
Definition handle_failure (now : Z) (s : Saga) (failed_job user : uuid) (db : DB) : result exn DB :=
  let s' := set_saga SAGA_COMPENSATING (saga_completed_at s) s in
  let db := write_saga s' db in
  let '(cancelled, db) := cancel_downstream now failed_job (waiting_steps (saga_id s) db) db in
  let completed := completed_steps (saga_id s) db in
  db ← compensate_all now s' user (rev completed) db;
  let db := saga_audit now "saga.compensating" s
              [("failed_job_id", juuid failed_job);
               ("compensations_emitted", JInt (Z.of_nat (length completed)));
               ("cancelled_downstream", JInt (Z.of_nat cancelled))] db in
  Ok (match completed with [] => settle_if_drained now s' db | _ => db end).

(** [handle_message] on the event's [event], [job_id] and [dead_lettered] fields. *)
Definition saga_handle_message (now : Z) (event job_id : option string) (dead_lettered : bool)
    (db : DB) : result exn DB :=
  match event, job_id with
  | Some ev, Some job_id_str =>
      if bool_decide (ev = "" ∨ job_id_str = "") then Ok db else
      match uuid_parse job_id_str with
      | None => Ok db
      | Some i =>
          match get_by_id i db with
          | None => Ok db
          | Some job =>
              match job_saga_id job ≫= (λ s, db_sagas db !! s) with
              | None => Ok db
              | Some saga =>
                  let is_comp := is_compensation job in
                  let is_done := bool_decide (ev = "job.completed") in
                  let is_dlq := bool_decide (ev = "job.failed") && dead_lettered in
                  match saga_status saga with
                  | SAGA_RUNNING =>
                      if is_comp then Ok db
                      else if is_done then Ok (handle_completion now saga db)
                      else if is_dlq then handle_failure now saga i (job_user_id job) db
                      else Ok db
                  | SAGA_COMPENSATING =>
                      Ok (if is_comp && (is_done || is_dlq) then settle_if_drained now saga db else db)
                  | _ => Ok db
                  end
              end
          end
      end
  | _, _ => Ok db
  end.

End Sagas.
