(* ===== verification/DbInv.v ===== *)
(** * The invariant of the database

    What holds of the tables after every committed transaction, and that each
    statement the repositories issue keeps it.  [wf X] allows the jobs of [X] to be
    PENDING or RUNNING without a [job.submitted] event, the state of a transaction
    between writing the status and queueing the event; a committed state is [wf ∅]. *)
From stdpp Require Import base tactics numbers option list gmap strings sorting.
From S2P Require Import Prelude PyData Models Database JobEvents JobRepo Cascade.

Section Invariant.
Context `{SqlOrder, UuidSource} (cfg : Settings).

(** ** The invariant *)

(** The identifier has been drawn. *)
Definition drawn (db : DB) (i : uuid) : Prop := ∃ n, i = uuid4 n ∧ (n < db_draws db)%N.

(** [p] was drawn before [c]. *)
Definition born_before (p c : uuid) : Prop := ∃ n m, p = uuid4 n ∧ c = uuid4 m ∧ (n < m)%N.

(** Some outbox row on [topic] is about the job [i]. *)
Definition has_event (db : DB) (topic : string) (i : uuid) : Prop :=
  ∃ e, e ∈ db_outbox db ∧ ob_topic e = topic ∧ dget (ob_payload e) "job_id" = Some (juuid i).

(** A job in a state that is announced has its announcement. *)
Definition announced (db : DB) (j : Job) : Prop :=
  emits_terminal_event (job_status j) = true →
  has_event db (terminal_event_topic cfg (job_status j)) (job_id j).

(** PENDING and RUNNING jobs went through the submitted topic. *)
Definition dispatchable (s : JobStatus) : bool :=
  match s with PENDING | RUNNING => true | _ => false end.

Definition submitted (db : DB) (j : Job) : Prop :=
  dispatchable (job_status j) = true →
  has_event db (kafka_topic_job_submitted cfg) (job_id j).

(** A job with runs still to come. *)
Definition unfinished (s : JobStatus) : bool :=
  match s with WAITING | PENDING | RUNNING => true | _ => false end.

Definition attempts_ok (j : Job) : Prop :=
  (0 ≤ job_retry_count j ≤ job_max_attempts j)%Z ∧
  (unfinished (job_status j) = true → job_retry_count j < job_max_attempts j)%Z.

Record wf (X : gset uuid) (db : DB) : Prop := {
  wf_keys : keys_ok db;
  wf_drawn : ∀ i, is_Some (db_jobs db !! i) → drawn db i;
  wf_edges : ∀ d, d ∈ db_deps db → born_before (dep_parent d) (dep_job d) ∧
               is_Some (db_jobs db !! dep_parent d) ∧ is_Some (db_jobs db !! dep_job d);
  wf_deps_nodup : NoDup (db_deps db);
  wf_unique : ∀ i1 i2 j1 j2, db_jobs db !! i1 = Some j1 → db_jobs db !! i2 = Some j2 →
                same_idempotency_slot j1 j2 = true → i1 = i2;
  wf_outbox_drawn : ∀ e, e ∈ db_outbox db → drawn db (ob_id e);
  wf_outbox_nodup : NoDup (ob_id <$> db_outbox db);
  wf_sagas : ∀ i s, db_sagas db !! i = Some s → saga_id s = i ∧ drawn db i;
  wf_announced : ∀ i j, db_jobs db !! i = Some j → announced db j;
  wf_submitted : ∀ i j, i ∉ X → db_jobs db !! i = Some j → submitted db j;
  wf_attempts : ∀ i j, db_jobs db !! i = Some j → attempts_ok j;
  wf_positive : ∀ i j, db_jobs db !! i = Some j → (1 ≤ job_max_attempts j)%Z
}.

(** ** How the database changes *)

(** A saga whose status no event changes any more. *)
Definition saga_settled (s : Saga) : bool :=
  match saga_status s with SAGA_COMPLETED | SAGA_FAILED | SAGA_COMPENSATED => true | _ => false end.

(** Rows are never deleted: jobs keep their identity, outbox rows their content,
    settled sagas their state. *)
Record keeps (db db' : DB) : Prop := {
  ev_draws : (db_draws db ≤ db_draws db')%N;
  ev_jobs : ∀ i j, db_jobs db !! i = Some j → ∃ j', db_jobs db' !! i = Some j' ∧ same_identity j j';
  ev_deps : ∀ d, d ∈ db_deps db → d ∈ db_deps db';
  ev_outbox : ∀ e, e ∈ db_outbox db → ∃ e', e' ∈ db_outbox db' ∧ ob_id e' = ob_id e ∧ ob_content e' = ob_content e;
  ev_sagas : ∀ i s, db_sagas db !! i = Some s →
               ∃ s', db_sagas db' !! i = Some s' ∧ (saga_settled s = true → s' = s)
}.

(** Everyone but the relay only adds fresh rows to the outbox. *)
Definition only_queues (db db' : DB) : Prop :=
  ∀ e, e ∈ db_outbox db' → e ∈ db_outbox db ∨ ob_fresh e.

Record evolves (db db' : DB) : Prop := {
  ev_keeps :> keeps db db';
  ev_queues : only_queues db db'
}.

#[export] Instance keeps_preorder : PreOrder keeps.
Proof.
  split.
  - intros db. split; [done|by intros i j ?; exists j|done|by eauto|by eauto].
  - intros a b c [D1 J1 E1 O1 S1] [D2 J2 E2 O2 S2]. split.
    + lia.
    + intros i j Hj. destruct (J1 i j Hj) as (j' & Hj' & ?). destruct (J2 i j' Hj') as (j'' & ? & ?).
      exists j''. split; [done|]. by etrans.
    + auto.
    + intros e He. destruct (O1 e He) as (e' & He' & ? & ?). destruct (O2 e' He') as (e'' & ? & ? & ?).
      exists e''. split_and!; [done|congruence|congruence].
    + intros i s Hs. destruct (S1 i s Hs) as (s' & Hs' & H1). destruct (S2 i s' Hs') as (s'' & ? & H2).
      exists s''. split; [done|]. intros Hset. rewrite H2; auto. by rewrite H1.
Qed.

#[export] Instance evolves_preorder : PreOrder evolves.
Proof.
  split.
  - intros db. split; [done|]. intros e He. by left.
  - intros a b c [K1 Q1] [K2 Q2]. split; [by etrans|].
    intros e He. destruct (Q2 e He) as [Hb|Hf]; [by apply Q1|by right].
Qed.

Lemma same_outbox_queues db db' : db_outbox db' = db_outbox db → only_queues db db'.
Proof. intros E e He. left. by rewrite <- E. Qed.

(** One committed piece of work: it keeps the invariant and only moves forward. *)
Definition good (X Y : gset uuid) (db db' : DB) : Prop := wf X db → wf Y db' ∧ evolves db db'.

(** What the relay does: it may also mark rows. *)
Definition safe (X Y : gset uuid) (db db' : DB) : Prop := wf X db → wf Y db' ∧ keeps db db'.

Lemma good_safe X Y db db' : good X Y db db' → safe X Y db db'.
Proof. intros Hg Hwf. destruct (Hg Hwf) as [? [? _]]. by split. Qed.

Lemma safe_trans X Y Z a b c : safe X Y a b → safe Y Z b c → safe X Z a c.
Proof.
  intros Hab Hbc Ha. destruct (Hab Ha) as [Hb E1]. destruct (Hbc Hb) as [Hc E2].
  split; [done|]. by etrans.
Qed.

Lemma good_refl X db : good X X db db.
Proof. intros Hwf. by split. Qed.

Lemma good_trans X Y Z a b c : good X Y a b → good Y Z b c → good X Z a c.
Proof.
  intros Hab Hbc Ha. destruct (Hab Ha) as [Hb E1]. destruct (Hbc Hb) as [Hc E2].
  split; [done|]. by etrans.
Qed.

Lemma good_weaken X Y db : X ⊆ Y → good X Y db db.
Proof.
  intros HXY Hwf. split; [|done]. destruct Hwf. split; try done.
  intros k x Hk Hx. apply (wf_submitted0 k); [set_solver|done].
Qed.

Lemma good_foldl {A} X (f : DB → A → DB) (l : list A) db :
  (∀ db x, x ∈ l → good X X db (f db x)) → good X X db (foldl f db l).
Proof.
  revert db. induction l as [|x l IH]; intros db Hf; [apply good_refl|]. cbn.
  eapply good_trans; [apply Hf; left|]. apply IH. intros db' y Hy. apply Hf. by right.
Qed.

Lemma has_event_keeps db db' topic i : keeps db db' → has_event db topic i → has_event db' topic i.
Proof.
  intros Hev (e & He & Ht & Hp). destruct (ev_outbox _ _ Hev e He) as (e' & He' & _ & Hc).
  unfold ob_content in Hc. simplify_eq. exists e'. split_and!; congruence.
Qed.

Lemma has_event_evolves db db' topic i : evolves db db' → has_event db topic i → has_event db' topic i.
Proof. intros [Hk _]. by apply has_event_keeps. Qed.

(** ** The statements *)

Lemma drawn_mono db db' i : (db_draws db ≤ db_draws db')%N → drawn db i → drawn db' i.
Proof. intros Hle (n & -> & Hn). exists n. split; [done|lia]. Qed.

Lemma queued_only db db' c : queued db db' c → only_queues db db'.
Proof.
  intros (_ & evs & E & _ & F & _) e He. rewrite E in He. rewrite Forall_forall in F.
  apply elem_of_app in He as [He|He]; [by left|right; by apply F].
Qed.

Lemma queued_has_event db db' c topic key payload i :
  queued db db' c → (topic, key, payload) ∈ c → dget payload "job_id" = Some (juuid i) →
  has_event db' topic i.
Proof.
  intros (_ & evs & E & <- & _) Hin Hp. apply list_elem_of_fmap in Hin as (e & He & Hin).
  unfold ob_content in He. simplify_eq. exists e. split_and!; [|done|done].
  rewrite E. apply elem_of_app. by right.
Qed.

Lemma queued_outbox_drawn db db' c :
  queued db db' c → (∀ e, e ∈ db_outbox db → drawn db (ob_id e)) → NoDup (ob_id <$> db_outbox db) →
  (∀ e, e ∈ db_outbox db' → drawn db' (ob_id e)) ∧ NoDup (ob_id <$> db_outbox db').
Proof.
  intros (Hd & evs & E & _ & _ & ns & Hns & Hnd & Hall) Hdr Hndo. rewrite E. rewrite Forall_forall in Hall. split.
  - intros e [He|He]%elem_of_app; [eapply drawn_mono; eauto|].
    assert (Hin : ob_id e ∈ ob_id <$> evs) by (apply list_elem_of_fmap; eauto).
    rewrite Hns in Hin. apply list_elem_of_fmap in Hin as (n & -> & Hn).
    exists n. split; [done|]. apply Hall in Hn. lia.
  - rewrite fmap_app, Hns. apply NoDup_app. split_and!; [done| |by apply NoDup_fmap_2; [apply _|]].
    intros i Hi Hi'. apply list_elem_of_fmap in Hi as (e & -> & He).
    destruct (Hdr e He) as (n & En & Hn). rewrite En in Hi'.
    apply list_elem_of_fmap in Hi' as (m & Em & Hm). apply (inj uuid4) in Em as ->. apply Hall in Hm. lia.
Qed.

(** Rebuild the invariant after jobs changed in place and events were queued. *)
Lemma wf_in_place X Y db db' c :
  queued db db' c → db_deps db' = db_deps db → db_sagas db' = db_sagas db →
  (∀ i, is_Some (db_jobs db' !! i) ↔ is_Some (db_jobs db !! i)) →
  (∀ i j j', db_jobs db !! i = Some j → db_jobs db' !! i = Some j' → same_identity j j') →
  (evolves db db' → wf X db → ∀ i j j', db_jobs db !! i = Some j → db_jobs db' !! i = Some j' →
     announced db' j' ∧ attempts_ok j' ∧ (i ∉ Y → submitted db' j')) →
  good X Y db db'.
Proof.
  intros Hq Hd Hs Hdom Hid Hok Hwf.
  assert (Hold : ∀ i j', db_jobs db' !! i = Some j' →
                 ∃ j, db_jobs db !! i = Some j ∧ same_identity j j').
  { intros i j' Hj'. destruct (proj1 (Hdom i)) as [j Hj]; [by eexists|]. exists j. eauto. }
  assert (Hev : evolves db db').
  { split; [|by eapply queued_only]. pose proof Hq as (Hdr & evs & E & _). split; [done| | | |].
    - intros i j Hj. destruct (proj2 (Hdom i)) as [j' Hj']; [by eexists|]. exists j'. eauto.
    - by rewrite Hd.
    - intros e He. exists e. split_and!; [|done|done]. rewrite E. apply elem_of_app. by left.
    - intros i s Hi. exists s. by rewrite Hs. }
  pose proof (ev_draws _ _ Hev) as Hdr. split; [|done].
  destruct (queued_outbox_drawn db db' c Hq (wf_outbox_drawn _ _ Hwf) (wf_outbox_nodup _ _ Hwf))
    as [Hod Hon].
  split.
  - intros i j' Hj'. destruct (Hold i j' Hj') as (j & Hj & Hsame).
    destruct Hsame as [-> _]. by apply (wf_keys _ _ Hwf).
  - intros i Hi. apply (drawn_mono db); [done|]. by apply (wf_drawn _ _ Hwf), Hdom.
  - intros d Hin. rewrite Hd in Hin. destruct (wf_edges _ _ Hwf d Hin) as (? & ? & ?).
    split_and!; [done|by apply Hdom|by apply Hdom].
  - rewrite Hd. apply (wf_deps_nodup _ _ Hwf).
  - intros i1 i2 j1 j2 H1 H2 Hslot.
    destruct (Hold i1 j1 H1) as (o1 & Ho1 & S1). destruct (Hold i2 j2 H2) as (o2 & Ho2 & S2).
    apply (wf_unique _ _ Hwf i1 i2 o1 o2); [done|done|].
    unfold same_idempotency_slot in *. unfold same_identity in S1, S2.
    destruct S1 as (_ & T1 & _ & _ & K1 & _), S2 as (_ & T2 & _ & _ & K2 & _).
    by rewrite <- K1, <- K2, <- T1, <- T2.
  - done.
  - done.
  - intros i s Hi. rewrite Hs in Hi. destruct (wf_sagas _ _ Hwf i s Hi). split; [done|].
    by eapply drawn_mono.
  - intros i j' Hj'. destruct (Hold i j' Hj') as (j & Hj & _). by apply (Hok Hev Hwf i j j').
  - intros i j' Hi Hj'. destruct (Hold i j' Hj') as (j & Hj & _). by apply (Hok Hev Hwf i j j').
  - intros i j' Hj'. destruct (Hold i j' Hj') as (j & Hj & _). by apply (Hok Hev Hwf i j j').
  - intros i j' Hj'. destruct (Hold i j' Hj') as (j & Hj & S). unfold same_identity in S.
    destruct S as (_ & _ & _ & _ & _ & _ & _ & -> & _). by apply (wf_positive _ _ Hwf i).
Qed.

Lemma announced_evolves db db' j : evolves db db' → announced db j → announced db' j.
Proof. intros Hev Ha Hs. eapply has_event_evolves; [done|]. by apply Ha. Qed.

Lemma submitted_evolves db db' j : evolves db db' → submitted db j → submitted db' j.
Proof. intros Hev Ha Hs. eapply has_event_evolves; [done|]. by apply Ha. Qed.

(** Jobs untouched: any number of queued events. *)
Lemma good_queued X db db' c :
  queued db db' c → db_jobs db' = db_jobs db → db_deps db' = db_deps db → db_sagas db' = db_sagas db →
  good X X db db'.
Proof.
  intros Hq Hj Hd Hs. eapply wf_in_place; [done|done|done| | |].
  - intros i. by rewrite Hj.
  - intros i j j' E1 E2. rewrite Hj in E2. by simplify_eq.
  - intros Hev Hwf i j j' E1 E2. rewrite Hj in E2. simplify_eq. split_and!.
    + eapply announced_evolves, (wf_announced _ _ Hwf); done.
    + by eapply (wf_attempts _ _ Hwf).
    + intros Hi. eapply submitted_evolves, (wf_submitted _ _ Hwf); done.
Qed.

Lemma good_outbox_add X now tenant topic key payload db :
  good X X db (outbox_add now tenant topic key payload db).
Proof. eapply good_queued; [apply outbox_add_queued|done|done|done]. Qed.

Lemma good_audit X now a t u pt p j rt ri e db : good X X db (audit_log now a t u pt p j rt ri e db).
Proof. eapply good_queued; [by apply queued_nil|done|done|done]. Qed.

(** Queueing the [job.submitted] event of a job discharges its exemption. *)
Lemma good_submitted X now (i : uuid) tenant key payload db :
  dget payload "job_id" = Some (juuid i) →
  good ({[i]} ∪ X) X db (outbox_add now tenant (kafka_topic_job_submitted cfg) key payload db).
Proof.
  intros Hp. eapply wf_in_place; [apply outbox_add_queued|done|done|done| |].
  - intros k j j' E1 E2. cbn in E2. by simplify_eq.
  - intros Hev Hwf k j j' E1 E2. assert (j' = j) as -> by (cbn in E2; congruence). split_and!.
    + eapply announced_evolves, (wf_announced _ _ Hwf); done.
    + by eapply (wf_attempts _ _ Hwf).
    + intros Hk. destruct (decide (k = i)) as [->|Hne].
      * intros _. rewrite (wf_keys _ _ Hwf i j E1). by eapply queued_has_event;
          [apply outbox_add_queued|left|].
      * eapply submitted_evolves, (wf_submitted _ _ Hwf k); [done| |done]. set_solver.
Qed.

(** An UPDATE of one row, described by what it does to a row it matches. *)
Lemma good_update_job X Y now i guard sets db :
  X ⊆ Y →
  (∀ j, wf X db → db_jobs db !! i = Some j → guard j = true →
     let j' := apply_sets (touch now sets) j in
     (emits_terminal_event (job_status j') = true → job_status j' = job_status j) ∧ attempts_ok j' ∧
     (i ∉ Y → dispatchable (job_status j') = true → dispatchable (job_status j) = true)) →
  good X Y db (update_job now i guard sets db).2.
Proof.
  intros HXY Hrow. destruct (update_job_frame now i guard sets db) as (Hd & Ho & _ & Hs & Hdr).
  eapply wf_in_place; [apply queued_nil; [done|lia]|done|done| | |].
  - intros k. rewrite update_job_jobs. destruct (db_jobs db !! k); [|done].
    split; intros _; by eexists.
  - intros k j j' E1 E2. rewrite update_job_jobs, E1 in E2. injection E2 as <-.
    case_match; [apply apply_sets_identity|done].
  - intros Hev Hwf k j j' E1 E2. rewrite update_job_jobs, E1 in E2. injection E2 as <-.
    assert (Hunch : announced (update_job now i guard sets db).2 j ∧ attempts_ok j ∧
                    (k ∉ X → submitted (update_job now i guard sets db).2 j)).
    { split_and!.
      - eapply announced_evolves, (wf_announced _ _ Hwf); done.
      - by eapply (wf_attempts _ _ Hwf).
      - intros Hk. eapply submitted_evolves, (wf_submitted _ _ Hwf); done. }
    destruct Hunch as (Ua & Ut & Us).
    destruct (bool_decide (i = k) && guard j) eqn:Eg; [|split_and!; [done|done|intros ?; apply Us; set_solver]].
    apply andb_true_iff in Eg as [<-%bool_decide_eq_true Eg]. destruct (Hrow j Hwf E1 Eg) as (Ra & Rt & Rs). split_and!; [|done|].
    + intros He. pose proof (Ra He) as Hst. rewrite apply_sets_id, Hst in *. by apply Ua.
    + intros Hi Hdis. rewrite apply_sets_id. apply Us; [set_solver|]. by apply Rs.
Qed.

(** Assignments that leave the attempt counter alone. *)
Definition keeps_attempts (s : job_set) : Prop :=
  match s with SetRetryCount _ => False | _ => True end.

Lemma apply_sets_keeps_attempts sets j :
  Forall keeps_attempts sets → job_retry_count (apply_sets sets j) = job_retry_count j.
Proof.
  intros Hs. revert j. induction Hs as [|s sets Hs _ IH]; intros j; [done|].
  etrans; [apply (IH (apply_set j s))|]. by destruct s.
Qed.

Lemma apply_sets_max_attempts sets j : job_max_attempts (apply_sets sets j) = job_max_attempts j.
Proof. apply apply_sets_identity. Qed.

Lemma touch_forall (P : job_set → Prop) now sets :
  P (SetUpdatedAt now) → Forall P sets → Forall P (touch now sets).
Proof.
  intros Hu Hs. unfold touch. case_match; [done|]. apply Forall_app. split; [done|]. by repeat constructor.
Qed.

Lemma status_values_forall (P : job_set → Prop) now status extra :
  (∀ s, P (SetStatus s)) → (∀ v, P (SetStartedAt v)) → (∀ v, P (SetCompletedAt v)) →
  Forall P extra → Forall P (status_values now status extra).
Proof.
  intros H1 H2 H3 He. unfold status_values. cbv zeta.
  assert (Hc : Forall P (SetStatus status :: extra)) by (by constructor).
  case_match; case_match; rewrite ?Forall_app; repeat split; try done; by repeat constructor.
Qed.

(** A status write that does not touch the counter keeps the bound when the job had
    runs left, or when it has none to come. *)
Lemma written_row_attempts now status extra j :
  Forall keeps_status extra → Forall keeps_attempts extra → attempts_ok j →
  (unfinished status = true → unfinished (job_status j) = true) →
  attempts_ok (written_row now status extra j).
Proof.
  intros He Ha [Hb Hu] Himp. unfold attempts_ok. rewrite written_row_status by done.
  assert (Hr : job_retry_count (written_row now status extra j) = job_retry_count j).
  { apply apply_sets_keeps_attempts, touch_forall; [done|]. by apply status_values_forall. }
  rewrite Hr. unfold written_row. rewrite apply_sets_max_attempts. split; [done|]. auto.
Qed.

Lemma keeps_both_announced X now i guard sets db :
  Forall keeps_status sets → Forall keeps_attempts sets →
  good X X db (update_job now i guard sets db).2.
Proof.
  intros Hs Ha. apply good_update_job; [done|]. intros j Hwf Hj _. cbv zeta.
  rewrite (apply_sets_keeps_status (touch now sets)) by (by apply touch_forall). split_and!; [done| |done].
  destruct (wf_attempts _ _ Hwf i j Hj) as [? ?]. split.
  - rewrite apply_sets_keeps_attempts by (by apply touch_forall). by rewrite apply_sets_max_attempts.
  - rewrite apply_sets_keeps_status, apply_sets_keeps_attempts by (by apply touch_forall).
    by rewrite apply_sets_max_attempts.
Qed.

(** The same for an UPDATE of many rows. *)
Lemma good_update_jobs X now p sets db :
  Forall keeps_status sets → Forall keeps_attempts sets →
  good X X db (update_jobs now p sets db).2.
Proof.
  intros Hs Ha. set (db' := (update_jobs now p sets db).2).
  assert (Hl : ∀ i, db_jobs db' !! i =
                (λ j, if p j then apply_sets (touch now sets) j else j) <$> db_jobs db !! i).
  { intros i. unfold db'. cbn. by rewrite lookup_fmap. }
  eapply wf_in_place; [by apply queued_nil|done|done| | |].
  - intros i. by rewrite Hl, fmap_is_Some.
  - intros i j j' E1 E2. rewrite Hl, E1 in E2. cbn in E2. injection E2 as <-.
    case_match; [apply apply_sets_identity|done].
  - intros Hev Hwf i j j' E1 E2. rewrite Hl, E1 in E2. cbn in E2. injection E2 as <-.
    set (j' := if p j then _ else _).
    assert (Hsame : job_status j' = job_status j ∧ job_retry_count j' = job_retry_count j ∧
                    job_max_attempts j' = job_max_attempts j ∧ job_id j' = job_id j).
    { unfold j'. case_match; [|done]. split_and!.
      - apply apply_sets_keeps_status. by apply touch_forall.
      - apply apply_sets_keeps_attempts. by apply touch_forall.
      - apply apply_sets_max_attempts.
      - apply apply_sets_id. }
    destruct Hsame as (E & R & M & I). unfold announced, submitted, attempts_ok. rewrite E, R, M, I. split; [|split].
    + eapply announced_evolves, (wf_announced _ _ Hwf); done.
    + by apply (wf_attempts _ _ Hwf i).
    + intros Hi. eapply submitted_evolves, (wf_submitted _ _ Hwf); done.
Qed.

Lemma terminal_content_has_job status msg j :
  emits_terminal_event status = true →
  ∃ key payload, (terminal_event_topic cfg status, key, payload) ∈ terminal_content cfg status msg j ∧
                 dget payload "job_id" = Some (juuid (job_id j)).
Proof.
  intros He. unfold terminal_content. rewrite He. do 2 eexists. split; [left|]. by destruct status.
Qed.

Lemma cancel_row_attempts now reason j : attempts_ok j → attempts_ok (cancel_row now reason j).
Proof. intros [Hb Hu]. split; [exact Hb|]. done. Qed.

(** Where a row comes from after a status write. *)
Lemma write_effect_cases now i status msg j r gone db db' k x x' :
  write_effect cfg now i status msg r gone db db' → db_jobs db !! i = Some j →
  db_jobs db !! k = Some x → db_jobs db' !! k = Some x' →
  (k = i ∧ x = j ∧ x' = r) ∨ (k ∈ gone ∧ x' = cancel_row now (cascade_reason i status) x) ∨ (k ≠ i ∧ x' = x).
Proof.
  intros [_ _ _ Wself Wgone Wother _ _] Hj E1 E2.
  destruct (decide (k = i)) as [->|Hne]; [left; naive_solver congruence|right].
  destruct (decide (k ∈ gone)) as [Hin|Hout].
  - left. destruct (Wgone k Hin) as (_ & _ & E). rewrite E, E1 in E2. cbn in E2. by simplify_eq.
  - right. rewrite Wother in E2 by done. by simplify_eq.
Qed.

(** No job appears or disappears. *)
Lemma write_effect_keys now i status msg j r gone db db' k :
  write_effect cfg now i status msg r gone db db' → db_jobs db !! i = Some j →
  is_Some (db_jobs db' !! k) ↔ is_Some (db_jobs db !! k).
Proof.
  intros [_ _ _ Wself Wgone Wother _ _] Hj. destruct (decide (k = i)) as [->|Hne]; [by rewrite Wself, Hj|].
  destruct (decide (k ∈ gone)) as [Hin|Hout]; [|by rewrite Wother].
  destruct (Wgone k Hin) as (_ & _ & ->). by rewrite fmap_is_Some.
Qed.

(** Every job the cascade cancelled has its event. *)
Lemma write_effect_cancelled now i status msg r gone db db' k x' :
  write_effect cfg now i status msg r gone db db' → k ∈ gone → db_jobs db' !! k = Some x' →
  has_event db' (kafka_topic_job_cancelled cfg) (job_id x').
Proof.
  intros [_ _ _ _ _ _ _ (rows & _ & Hrows & Hrow & Hq)] Hin E2.
  apply Hrows, list_elem_of_fmap in Hin as (y & -> & Hyin).
  pose proof (Hrow y Hyin) as Ey. rewrite E2 in Ey. injection Ey as <-.
  eapply queued_has_event; [exact Hq| |].
  - apply elem_of_app. right. apply list_elem_of_fmap. eexists. split; [|exact Hyin]. reflexivity.
  - done.
Qed.

(** [update_status]: the row it writes must respect the attempt bound, and a write to
    PENDING or RUNNING must be covered by a submitted event or exempt. *)
Lemma good_update_status X Y now i status extra msg guard db :
  X ⊆ Y → Forall keeps_status extra →
  (∀ j, wf X db → db_jobs db !! i = Some j → default no_guard guard j = true →
     attempts_ok (written_row now status extra j) ∧
     (dispatchable status = true → i ∉ Y → has_event db (kafka_topic_job_submitted cfg) i)) →
  good X Y db (update_status cfg now i status extra msg guard db).2.
Proof.
  intros HXY He Hrow Hwf.
  destruct (match db_jobs db !! i with Some j => default no_guard guard j | None => false end) eqn:Ehit.
  2:{ rewrite update_status_miss.
      - by apply (good_weaken X Y).
      - intros j Hj. by rewrite Hj in Ehit. }
  destruct (db_jobs db !! i) as [j|] eqn:Hj; [|done]. rename Ehit into Hg. rewrite <- Hj in Hrow.
  destruct (Hrow j Hwf Hj Hg) as [Hatt Hdis].
  destruct (update_status_hit cfg now i status extra msg guard db j (wf_keys _ _ Hwf) He Hj Hg)
    as (_ & gone & Hwe & _).
  pose proof Hwe as [Wd _ Ws _ _ _ _ (rows & _ & _ & _ & Hq)].
  set (db' := (update_status cfg now i status extra msg guard db).2) in *.
  set (r := written_row now status extra j) in *.
  assert (Hid : job_id r = i).
  { etrans; [apply (written_row_identity now status extra j)|by apply (wf_keys _ _ Hwf)]. }
  eapply wf_in_place; [exact Hq|done|done| | | |done].
  - intros k. exact (write_effect_keys _ _ _ _ _ _ _ _ _ k Hwe Hj).
  - intros k x x' E1 E2. destruct (write_effect_cases _ _ _ _ _ _ _ _ _ _ _ _ Hwe Hj E1 E2)
      as [(-> & -> & ->)|[(_ & ->)|(_ & ->)]]; [apply written_row_identity|apply apply_sets_identity|done].
  - intros Hev _ k x x' E1 E2. destruct (write_effect_cases _ _ _ _ _ _ _ _ _ _ _ _ Hwe Hj E1 E2)
      as [(-> & -> & ->)|[(Hin & ->)|(Hne & ->)]].
    + split_and!; [|done|].
      * intros Hem. unfold r in Hem |- *. rewrite written_row_status in * by done. fold r. rewrite Hid.
        destruct (terminal_content_has_job status msg r Hem) as (key & payload & Hin & Hp).
        rewrite Hid in Hp. eapply queued_has_event; [exact Hq|apply elem_of_app; left; exact Hin|done].
      * intros Hi Hd. unfold r in Hd |- *. rewrite written_row_status in Hd by done. fold r. rewrite Hid.
        eapply has_event_evolves; [exact Hev|]. by apply Hdis.
    + split_and!; [|apply cancel_row_attempts; by apply (wf_attempts _ _ Hwf k)|done].
      intros _. exact (write_effect_cancelled _ _ _ _ _ _ _ _ _ _ Hwe Hin E2).
    + split_and!.
      * eapply announced_evolves, (wf_announced _ _ Hwf); done.
      * by eapply (wf_attempts _ _ Hwf).
      * intros Hk. eapply submitted_evolves, (wf_submitted _ _ Hwf k); [done|set_solver|done].
Qed.

(** ** Inserts *)

Lemma good_draw X db : good X X db (draw_uuid db).2.
Proof. eapply good_queued; [apply queued_nil; [done|cbn; lia]|done|done|done]. Qed.

Lemma same_slot_sym j j' : same_idempotency_slot j j' = same_idempotency_slot j' j.
Proof.
  unfold same_idempotency_slot. destruct (job_idempotency_key j), (job_idempotency_key j'); try done.
  apply bool_decide_ext. naive_solver.
Qed.

Lemma insert_job_ok row db db' :
  insert_job row db = Ok db' →
  db_jobs db !! job_id row = None ∧
  (∀ i j, db_jobs db !! i = Some j → same_idempotency_slot row j = false) ∧
  db' = with_jobs (<[job_id row := row]> (db_jobs db)) db.
Proof.
  unfold insert_job. case_bool_decide as Hd; [done|]. destruct (existsb _ _) eqn:Hx; [done|].
  intros [= <-]. split_and!; [by apply eq_None_not_Some| |done].
  intros i j Hj. destruct (same_idempotency_slot row j) eqn:E; [|done].
  assert (Ht : existsb (same_idempotency_slot row) (map_to_list (db_jobs db)).*2 = true); [|congruence].
  apply existsb_exists. exists j. split; [|done]. apply list_elem_of_In, list_elem_of_fmap.
  exists (i, j). split; [done|]. by apply elem_of_map_to_list.
Qed.

(** A new row under a drawn identifier. *)
Lemma good_insert X row db db' :
  drawn db (job_id row) → emits_terminal_event (job_status row) = false → attempts_ok row →
  (1 ≤ job_max_attempts row)%Z → insert_job row db = Ok db' → good X ({[job_id row]} ∪ X) db db'.
Proof.
  intros Hdr Het Hatt Hpos Hins Hwf. apply insert_job_ok in Hins as (Hnone & Hslot & ->).
  set (db' := with_jobs _ db).
  assert (Hl : ∀ k x, db_jobs db' !! k = Some x → (k = job_id row ∧ x = row) ∨ (k ≠ job_id row ∧ db_jobs db !! k = Some x)).
  { intros k x. cbn. rewrite lookup_insert. destruct (decide (job_id row = k)) as [<-|Hne].
    - intros [= ->]. by left.
    - by right. }
  assert (Hk : ∀ k x, db_jobs db !! k = Some x → db_jobs db' !! k = Some x).
  { intros k x Hx. cbn. rewrite lookup_insert_ne; [done|]. intros <-. congruence. }
  assert (Hev : evolves db db').
  { split; [|by apply same_outbox_queues]. split; [done| |done|by eauto|by eauto].
    intros i j Hj. exists j. split; [by apply Hk|done]. }
  split; [|done]. split.
  - intros k x [(-> & ->)|(_ & Hx)]%Hl; [done|]. by apply (wf_keys _ _ Hwf).
  - intros k [x [(-> & ->)|(_ & Hx)]%Hl]; [done|]. apply (wf_drawn _ _ Hwf). by eexists.
  - intros d Hd. destruct (wf_edges _ _ Hwf d Hd) as (? & [p Hp] & [c Hc]).
    split_and!; [done| |]; eexists; eauto.
  - apply (wf_deps_nodup _ _ Hwf).
  - intros i1 i2 j1 j2 [(-> & ->)|(_ & H1)]%Hl [(-> & ->)|(_ & H2)]%Hl Hs; try done.
    + rewrite (Hslot _ _ H2) in Hs. done.
    + rewrite same_slot_sym, (Hslot _ _ H1) in Hs. done.
    + by apply (wf_unique _ _ Hwf i1 i2 j1 j2).
  - apply (wf_outbox_drawn _ _ Hwf).
  - apply (wf_outbox_nodup _ _ Hwf).
  - apply (wf_sagas _ _ Hwf).
  - intros k x [(-> & ->)|(_ & Hx)]%Hl; [|by apply (wf_announced _ _ Hwf k)]. intros E. congruence.
  - intros k x Hi [(-> & ->)|(_ & Hx)]%Hl; [set_solver|]. apply (wf_submitted _ _ Hwf k); [set_solver|done].
  - intros k x [(-> & ->)|(_ & Hx)]%Hl; [done|]. by apply (wf_attempts _ _ Hwf k).
  - intros k x [(-> & ->)|(_ & Hx)]%Hl; [done|]. by apply (wf_positive _ _ Hwf k).
Qed.

(** A row that is not dispatchable needs no event. *)
Lemma good_insert_waiting X row db db' :
  drawn db (job_id row) → job_status row = WAITING → attempts_ok row →
  (1 ≤ job_max_attempts row)%Z → insert_job row db = Ok db' → good X X db db'.
Proof.
  intros Hdr Hst Hatt Hpos Hins Hwf.
  destruct (good_insert X row db db' Hdr) as [Hwf' Hev]; [by rewrite Hst|done|done|done|done|].
  split; [|done]. destruct Hwf' as [? ? ? ? ? ? ? ? ? Hsub ? ?]. split; try done.
  intros k x Hk Hx. destruct (decide (k = job_id row)) as [->|Hne]; [|apply (Hsub k); [set_solver|done]].
  apply insert_job_ok in Hins as (_ & _ & ->). cbn in Hx. rewrite lookup_insert_eq in Hx.
  injection Hx as <-. intros E. by rewrite Hst in E.
Qed.

(** The dependency rows of a new job: its parents exist and are older. *)
Lemma good_dep_add X child ps ds db :
  dep_add child ps (db_deps db) = Ok ds → is_Some (db_jobs db !! child) →
  (∀ p, p ∈ ps → born_before p child ∧ is_Some (db_jobs db !! p)) →
  good X X db (with_deps ds db).
Proof.
  intros Hadd Hc Hps Hwf. apply dep_add_ok in Hadd as (-> & Hnd & Hni).
  assert (Hev : evolves db (with_deps (db_deps db ++ (mkDep child <$> ps)) db)).
  { split; [|by apply same_outbox_queues]. split; [done| | |by eauto|by eauto].
    - intros i j Hj. by exists j.
    - intros d Hd. cbn. apply elem_of_app. by left. }
  split; [|done]. destruct Hwf as [? ? He Hn ? ? ? ? Ha Hs ? ?]. split; try done.
  - intros d [Hd|Hd]%elem_of_app; [by apply He|]. apply list_elem_of_fmap in Hd as (p & -> & Hp).
    destruct (Hps p Hp). by split_and!.
  - apply NoDup_app. split_and!; [done| |].
    + intros d Hd Hd'. apply list_elem_of_fmap in Hd' as (p & -> & Hp). by apply (Hni p).
    + apply NoDup_fmap_2; [|done]. by intros ? ? [= ->].
Qed.

(** Writing a saga row that is new or not settled. *)
Lemma good_saga_write X (s : Saga) db :
  drawn db (saga_id s) → (∀ s0, db_sagas db !! saga_id s = Some s0 → saga_settled s0 = false) →
  good X X db (with_sagas (<[saga_id s := s]> (db_sagas db)) db).
Proof.
  intros Hdr Hns Hwf.
  assert (Hev : evolves db (with_sagas (<[saga_id s := s]> (db_sagas db)) db)).
  { split; [|by apply same_outbox_queues]. split; [done| |done|by eauto|].
    - intros i j Hj. by exists j.
    - intros i s0 Hi. cbn. destruct (decide (saga_id s = i)) as [<-|Hne].
      + exists s. rewrite lookup_insert_eq. split; [done|]. by rewrite (Hns s0 Hi).
      + exists s0. by rewrite lookup_insert_ne. }
  split; [|done]. destruct Hwf as [? ? ? ? ? ? ? Hsg ? ? ? ?]. split; try done.
  intros i s' Hi. cbn in Hi. rewrite lookup_insert in Hi. case_decide as Heq; [|by apply Hsg].
  simplify_eq. done.
Qed.

(** Marking outbox rows: identifiers and contents stay. *)
Lemma safe_map_outbox X (f : OutboxEvent → OutboxEvent) db :
  (∀ e, ob_id (f e) = ob_id e ∧ ob_content (f e) = ob_content e) →
  safe X X db (with_outbox (f <$> db_outbox db) db).
Proof.
  intros Hf Hwf. set (db' := with_outbox _ db).
  assert (Hev : keeps db db').
  { split; [done| |done| |by eauto].
    - intros i j Hj. by exists j.
    - intros e He. exists (f e). destruct (Hf e). split_and!; [|done|done]. cbn. by apply list_elem_of_fmap_2. }
  split; [|done]. destruct Hwf as [? ? ? ? ? Hod Hon ? Ha Hs ? ?]. split; try done.
  - intros e He. cbn in He. apply list_elem_of_fmap in He as (e0 & -> & He0).
    destruct (Hf e0) as [-> _]. by apply Hod.
  - replace (ob_id <$> db_outbox db') with (ob_id <$> db_outbox db); [done|]. cbn.
    rewrite <- list_fmap_compose. apply list_fmap_ext. intros k e _. symmetry. by destruct (Hf e).
  - intros i j Hj Hst. eapply has_event_keeps; [done|]. by eapply Ha.
  - intros i j Hi Hj Hst. eapply has_event_keeps; [done|]. by eapply Hs.
Qed.

(** ** What the invariant gives *)

(** Dependencies point to older jobs, so no job depends on itself, however far. *)
Lemma wf_acyclic X db i : wf X db → ¬ tc (edge db) i i.
Proof.
  intros Hwf Hcyc.
  assert (Hlt : ∀ a b, tc (edge db) a b → born_before a b).
  { induction 1 as [a b He|a b c He _ IH].
    - by apply (wf_edges _ _ Hwf (mkDep b a)).
    - destruct (wf_edges _ _ Hwf (mkDep b a) He) as ((n & m & Ea & Eb & Hnm) & _).
      destruct IH as (n' & m' & Eb' & Ec & Hnm'). cbn in Ea, Eb. rewrite Eb in Eb'.
      apply (inj uuid4) in Eb' as ->. exists n, m'. split_and!; [done|done|lia]. }
  destruct (Hlt _ _ Hcyc) as (n & m & -> & E & Hnm). apply (inj uuid4) in E. lia.
Qed.

Lemma wf_empty : wf ∅ empty_db.
Proof.
  split; try done.
  - by intros i [? ?].
  - by intros d ?%not_elem_of_nil.
  - constructor.
  - by intros e ?%not_elem_of_nil.
  - constructor.
Qed.
End Invariant.

#[export] Hint Resolve good_refl good_audit good_outbox_add good_draw : platform.
