(* ===== verification/OpsInv.v ===== *)
(** * Every transaction keeps the invariant

    For each operation of the services, the workers and the consumers: from a
    well-formed database it commits a well-formed database, and nothing already
    recorded is lost. *)
From stdpp Require Import base tactics numbers option list gmap strings sorting.
From Stdlib Require Import QArith.
From S2P Require Import Prelude PyData Models Database JobEvents JobRepo Cascade Redis Queue DagPause JobService World Dispatcher Sweeps OutboxRelay Resolver SagaFlow DbInv.

Section Ops.
Context `{SqlOrder, UuidSource} (cfg : Settings).

#[local] Abbreviation good := (good cfg).
#[local] Abbreviation safe := (safe cfg).
#[local] Abbreviation wf := (wf cfg).

(** A write followed by more work in the same transaction. *)
Lemma good_then {A} X db (p : A * DB) (k : DB → DB) :
  good X X db p.2 → (∀ d, good X X d (k d)) → good X X db (let '(_, d) := p in k d).
Proof. intros Hp Hk. destruct p as [a d]. eapply good_trans; [exact Hp|apply Hk]. Qed.

(** ** Repository writes *)

Lemma good_submit_event X now j db : good ({[job_id j]} ∪ X) X db (submit_event cfg now j db).
Proof. by apply good_submitted. Qed.

Lemma good_claim X now i db : good X X db (claim_for_running now i db).2.
Proof.
  apply good_update_job; [done|]. intros j Hwf Hj Hg. apply bool_decide_eq_true in Hg. cbv zeta.
  destruct (wf_attempts _ _ _ Hwf i j Hj) as [Hb Hu]. rewrite Hg in Hu. split; [|split].
  - done.
  - split; [exact Hb|]. intros _. by apply Hu.
  - by rewrite Hg.
Qed.

(** Promotion out of WAITING, exempt until its event is queued. *)
Lemma good_promote X now i db : good X ({[i]} ∪ X) db (promote_waiting_to_pending now i db).2.
Proof.
  apply good_update_job; [set_solver|]. intros j Hwf Hj Hg. apply bool_decide_eq_true in Hg. cbv zeta.
  destruct (wf_attempts _ _ _ Hwf i j Hj) as [Hb Hu]. rewrite Hg in Hu. split; [|split].
  - done.
  - split; [exact Hb|]. intros _. by apply Hu.
  - set_solver.
Qed.

Lemma update_job_miss now i guard sets db :
  (update_job now i guard sets db).1 = false → (update_job now i guard sets db).2 = db.
Proof. unfold update_job. destruct (db_jobs db !! i) as [j|]; [destruct (guard j)|]; done. Qed.

(** Promote and announce: the pair the resolver and the resume sweep use. *)
Lemma good_promote_submit X now child db :
  good X X db
    (let '(ok, db') := promote_waiting_to_pending now (job_id child) db in
     if ok then submit_event cfg now child db' else db').
Proof.
  pose proof (update_job_miss now (job_id child) (λ j, bool_decide (job_status j = WAITING))
                [SetStatus PENDING; SetErrorMessage None] db) as Hmiss.
  pose proof (good_promote X now (job_id child) db) as Hp.
  unfold promote_waiting_to_pending in *. destruct (update_job _ _ _ _ _) as [[] db']; cbn in *.
  - eapply good_trans; [exact Hp|]. apply good_submit_event.
  - rewrite (Hmiss eq_refl). apply good_refl.
Qed.

(** ** Creating jobs *)

Lemma load_parents_ok deps db ps :
  load_parents deps db = Ok ps → ∀ p, p ∈ deps → is_Some (db_jobs db !! p).
Proof.
  revert ps. induction deps as [|d deps IH]; intros ps Hl p Hp; [by apply not_elem_of_nil in Hp|].
  cbn in Hl. unfold get_by_id in Hl. destruct (db_jobs db !! d) as [j|] eqn:E; [|done].
  apply bind_ok in Hl as (js & Hjs & _). apply elem_of_cons in Hp as [->|Hp]; [by eexists|by eapply IH].
Qed.

Lemma initial_status_cases rq b deps ps db :
  initial_status rq b deps ps db = WAITING ∨ initial_status rq b deps ps db = PENDING.
Proof. unfold initial_status. repeat case_match; auto. Qed.

Lemma finish_create_good X rq b a status job db j db' :
  (∀ p, p ∈ nj_deps a → born_before p (job_id job) ∧ is_Some (db_jobs db !! p)) →
  db_jobs db !! job_id job = Some job →
  finish_create cfg rq b a status job db = Ok (j, db') →
  j = job ∧ good (if bool_decide (status = PENDING) then {[job_id job]} ∪ X else X) X db db'.
Proof.
  intros Hps Hjob Hfin. unfold finish_create in Hfin. apply bind_ok in Hfin as (db1 & Hd & Hfin).
  injection Hfin as <- <-. split; [done|].
  assert (Hdep : ∀ Y, good Y Y db db1).
  { intros Y. destruct (nj_deps a) as [|p ps] eqn:Ea.
    - injection Hd as <-. apply good_refl.
    - destruct b; [|done]. apply bind_ok in Hd as (ds & Hds & Hok). injection Hok as <-.
      eapply good_dep_add; [exact Hds|by eexists|done]. }
  eapply good_trans; [apply Hdep|]. eapply good_trans; [apply good_audit|].
  case_bool_decide; [apply good_submit_event|apply good_refl].
Qed.

Lemma create_job_good rq b a others db j db' :
  wf ∅ db → wf ∅ (others db) → evolves db (others db) →
  (1 ≤ default (max_job_attempts cfg) (nj_max_attempts a))%Z →
  create_job cfg rq b a others db = Ok (j, db') →
  wf ∅ db' ∧ evolves db db'.
Proof.
  intros Hwf Hwfo Hevo Hmax Hc. unfold create_job in Hc.
  destruct (truthy_key _ ≫= _) as [existing|]; [by injection Hc as <- <-|].
  apply bind_ok in Hc as (ps & Hload & Hc).
  destruct (draw_uuid (others db)) as [i db1] eqn:Edraw.
  destruct (good_draw cfg ∅ (others db) Hwfo) as [Hwf1 Hev1]. rewrite Edraw in Hwf1, Hev1. cbn in Hwf1, Hev1.
  assert (Hi : i = uuid4 (db_draws (others db)) ∧ db_draws db1 = (db_draws (others db) + 1)%N ∧
               db_jobs db1 = db_jobs (others db)) by (by injection Edraw as <- <-).
  destruct Hi as (Hi & Hdr1 & Hj1).
  set (status := initial_status rq b (nj_deps a) ps db) in *.
  set (row := new_row cfg rq a status i) in *.
  assert (Hstart : wf ∅ db1 ∧ evolves db db1) by (split; [done|by etrans]).
  destruct (insert_job row db1) as [db2|e] eqn:Eins.
  2:{ destruct (nj_key a) as [k|]; [|done]. destruct (get_by_idempotency_key _ _ _); [|done].
      by injection Hc as <- <-. }
  assert (Hdrawn : drawn db1 (job_id row)).
  { exists (db_draws (others db)). rewrite Hdr1. split; [done|lia]. }
  assert (Hatt : attempts_ok row).
  { split; cbn; [lia|]. intros _. lia. }
  pose proof (insert_job_ok row db1 db2 Eins) as (Hnone & _ & Hdb2).
  assert (Hrow : db_jobs db2 !! job_id row = Some row) by (rewrite Hdb2; apply lookup_insert_eq).
  assert (Hparents : ∀ p, p ∈ nj_deps a → born_before p (job_id row) ∧ is_Some (db_jobs db2 !! p)).
  { intros p Hp. destruct (load_parents_ok _ _ _ Hload p Hp) as [jp Hjp].
    destruct (ev_jobs _ _ Hevo p jp Hjp) as (jp' & Hjp' & _). rewrite <- Hj1 in Hjp'. split.
    - destruct (wf_drawn _ _ _ Hwf1 p) as (n & -> & Hn); [by eexists|].
      exists n, (db_draws (others db)). split_and!; [done|exact Hi|].
      destruct (decide (n = db_draws (others db))) as [->|]; [|lia].
      cbn in Hnone. rewrite Hi in Hnone. congruence.
    - rewrite Hdb2. cbn [with_jobs db_jobs]. exists jp'. rewrite lookup_insert_ne; [done|].
      intros <-. congruence. }
  destruct (finish_create_good ∅ rq b a status row db2 j db' Hparents Hrow Hc) as [_ Hg].
  assert (Hins : good ∅ (if bool_decide (status = PENDING) then {[job_id row]} ∪ ∅ else ∅) db1 db2).
  { case_bool_decide as Hst.
    - apply good_insert; [done| |done|done|done]. cbn. fold status. by rewrite Hst.
    - eapply good_insert_waiting; [done| |done|done|done]. cbn. destruct (initial_status_cases rq b (nj_deps a) ps db); done. }
  destruct Hstart as [Hw1 He1]. destruct (good_trans cfg _ _ _ _ _ _ Hins Hg Hw1) as [Hw2 He2].
  split; [done|by etrans].
Qed.

(** ** Status writes by kind *)

(** A write to a terminal status that leaves the attempt counter alone. *)
Lemma good_terminal_write X now i status extra msg guard db :
  unfinished status = false → Forall keeps_status extra → Forall keeps_attempts extra →
  good X X db (update_status cfg now i status extra msg guard db).2.
Proof.
  intros Hs He Ha. apply good_update_status; [done|done|]. intros j Hwf Hj _. split.
  - apply written_row_attempts; [done|done|by apply (wf_attempts _ _ _ Hwf i)|]. by rewrite Hs.
  - by destruct status.
Qed.

(** The row a write leaves when it sets the counter first. *)
Lemma written_counter now status n extra j :
  Forall keeps_attempts extra →
  job_retry_count (written_row now status (SetRetryCount n :: extra) j) = n.
Proof.
  intros Ha. unfold written_row, touch.
  assert (Hsv : ∃ rest, status_values now status (SetRetryCount n :: extra) =
                  SetStatus status :: SetRetryCount n :: rest ∧ Forall keeps_attempts rest).
  { unfold status_values. cbv zeta. case_match; case_match; eexists; (split; [cbn; reflexivity|]);
      rewrite ?Forall_app; repeat split; try done; by repeat constructor. }
  destruct Hsv as (rest & -> & Hr).
  assert (Hrest : ∀ l, Forall keeps_attempts l →
            job_retry_count (apply_sets (SetStatus status :: SetRetryCount n :: l) j) = n).
  { intros l Hl. exact (apply_sets_keeps_attempts l _ Hl). }
  case_match; [by apply Hrest|]. apply (Hrest (rest ++ [SetUpdatedAt now])).
  apply Forall_app. split; [done|]. by repeat constructor.
Qed.

Lemma good_counter_write X now i status n extra msg guard db :
  Forall keeps_status extra → Forall keeps_attempts extra →
  (∀ j, wf X db → db_jobs db !! i = Some j →
     (0 ≤ n ≤ job_max_attempts j)%Z ∧ (unfinished status = true → n < job_max_attempts j)%Z ∧
     (dispatchable status = true → i ∉ X → has_event db (kafka_topic_job_submitted cfg) i)) →
  good X X db (update_status cfg now i status (SetRetryCount n :: extra) msg guard db).2.
Proof.
  intros He Ha Hn. apply good_update_status; [done|by constructor|]. intros j Hwf Hj _.
  destruct (Hn j Hwf Hj) as (Hb & Hu & Hev). split; [|done].
  unfold attempts_ok. rewrite written_counter, written_row_status by (done || by constructor).
  unfold written_row. rewrite apply_sets_max_attempts. by split.
Qed.

(** ** replay and resolve *)

Lemma get_for_tenant_some i tenant db j :
  get_for_tenant i tenant db = Some j → db_jobs db !! i = Some j ∧ job_tenant_id j = tenant.
Proof.
  unfold get_for_tenant. destruct (db_jobs db !! i) as [x|]; [|done].
  case_bool_decide; [|done]. by intros [= ->].
Qed.

Lemma replay_job_good rq b i tenant who db j db' fx :
  replay_job cfg rq b i tenant who db = Ok (j, db', fx) → good ∅ ∅ db db'.
Proof.
  intros Hr. unfold replay_job in Hr. destruct (get_for_tenant i tenant db) as [job|] eqn:Eg; [|done].
  apply get_for_tenant_some in Eg as [Ej _].
  case_match; [done|]. case_match; [done|].
  destruct (update_status cfg (rq_now rq) i PENDING replay_reset None None db) as [u db1] eqn:Eu.
  destruct u as [x|]; [|done]. injection Hr as _ <- _. intros Hwf.
  assert (Hi : job_id job = i) by (by apply (wf_keys _ _ _ Hwf)).
  assert (G1 : good ∅ ({[i]} ∪ ∅) db db1).
  { replace db1 with (update_status cfg (rq_now rq) i PENDING replay_reset None None db).2 by (by rewrite Eu).
    apply good_update_status; [set_solver|by repeat constructor|]. intros y Hwf' Hy _. split; [|set_solver].
    pose proof (wf_positive _ _ _ Hwf' i y Hy) as Hpos. unfold attempts_ok, replay_reset.
    rewrite written_counter, written_row_status by (by repeat constructor).
    unfold written_row. rewrite apply_sets_max_attempts.
    split; [lia|]. intros _. lia. }
  revert Hwf. eapply good_trans; [exact G1|]. eapply good_trans; [apply good_audit|].
  rewrite <- Hi. apply good_submit_event.
Qed.

Lemma resolve_incident_good rq i user tenant db j db' fx :
  resolve_incident cfg rq i user tenant db = Ok (j, db', fx) → good ∅ ∅ db db'.
Proof.
  intros Hr. unfold resolve_incident in Hr. destruct (get_for_tenant i tenant db) as [job|]; [|done].
  pose proof (good_terminal_write ∅ (rq_now rq) i COMPLETED [] None None db eq_refl) as G.
  destruct (update_status cfg (rq_now rq) i COMPLETED [] None None db) as [[x|] db1]; [|done].
  injection Hr as _ <- _. eapply good_trans; [by apply G|apply good_audit].
Qed.

(** ** Running a job *)

(** What a claimed execution still knows to be true of its job. *)
Definition ex_ok (db : DB) (ex : Execution) : Prop :=
  (0 ≤ ex_retry_count ex < ex_max_attempts ex)%Z ∧
  has_event db (kafka_topic_job_submitted cfg) (ex_job ex) ∧
  ∃ j, db_jobs db !! ex_job ex = Some j ∧ job_max_attempts j = ex_max_attempts ex.

Lemma ex_ok_keeps db db' ex : keeps db db' → ex_ok db ex → ex_ok db' ex.
Proof.
  intros Hev (Hr & He & j & Hj & Hm). split; [done|]. split; [by eapply has_event_keeps|].
  destruct (ev_jobs _ _ Hev _ _ Hj) as (j' & Hj' & S). exists j'. split; [done|].
  unfold same_identity in S. by destruct S as (_ & _ & _ & _ & _ & _ & _ & -> & _).
Qed.

Lemma run_job_claim_good now t redis s i db out db' :
  run_job_claim now t redis s i db = (out, db') → good ∅ ∅ db db'.
Proof.
  unfold run_job_claim. destruct (get_by_id i db) as [j|]; [|intros [= <- <-]; apply good_refl].
  case_match; [intros [= <- <-]; apply good_refl|].
  case_match; [intros [= <- <-]; apply good_refl|].
  pose proof (good_claim ∅ now i db) as G. destruct (claim_for_running now i db) as [c db1].
  by intros [= _ <-].
Qed.

Lemma run_job_claim_ex now t redis s i db ex db' :
  wf ∅ db → run_job_claim now t redis s i db = (Claimed ex, db') → ex_ok db' ex ∧ ex_job ex = i.
Proof.
  intros Hwf Hc. destruct (run_job_claim_good _ _ _ _ _ _ _ _ Hc Hwf) as [_ Hev].
  unfold run_job_claim, get_by_id in Hc. destruct (db_jobs db !! i) as [j|] eqn:Ej; [|done].
  case_bool_decide as Hst; [done|]. case_match; [done|].
  destruct (claim_for_running now i db) as [[] db1]; [|done]. injection Hc as <- <-.
  assert (Hid : job_id j = i) by (by apply (wf_keys _ _ _ Hwf)). split; [|done].
  apply (ex_ok_keeps db); [by apply ev_keeps|]. destruct (wf_attempts _ _ _ Hwf i j Ej) as [Hb Hu].
  rewrite Hst in Hu. specialize (Hu eq_refl). split; [cbn; lia|]. split.
  - cbn. apply (wf_submitted _ _ _ Hwf i j); [set_solver|done|by rewrite Hst].
  - exists j. cbn. by rewrite Hid.
Qed.

Lemma good_dead_letter_audit X now tenant job extra db :
  good X X db (dead_letter_audit now tenant job extra db).
Proof. apply good_audit. Qed.

Lemma settle_retry_good now ex m plan db :
  ex_ok db ex → (ex_retry_count ex + 1 < ex_max_attempts ex)%Z →
  good ∅ ∅ db (settle_retry cfg now ex m plan db).
Proof.
  intros (Hr & He & j0 & Hj0 & Hm0) Hlt. apply good_then; [|intros; apply good_outbox_add].
  apply good_counter_write; [by repeat constructor|by repeat constructor|].
  intros j _ Hj. simplify_eq. split_and!; try lia; done.
Qed.

Lemma settle_exhausted_good now ex m plan db :
  ex_ok db ex → good ∅ ∅ db (settle_exhausted cfg now ex m plan db).
Proof.
  intros (Hr & He & j0 & Hj0 & Hm0). apply good_then; [|intros; apply good_dead_letter_audit].
  apply good_counter_write; [destruct (rp_llm_dead_lettered plan); by repeat constructor..|].
  intros j _ Hj. simplify_eq. split_and!; try lia; done.
Qed.

Lemma settle_unregistered_good now ex db :
  ex_ok db ex → good ∅ ∅ db (settle_unregistered cfg now ex db).
Proof.
  intros (Hr & He & j0 & Hj0 & Hm0). apply good_then; [|intros; apply good_dead_letter_audit].
  apply good_counter_write; [by repeat constructor|by repeat constructor|].
  intros j _ Hj. simplify_eq. split_and!; try lia; done.
Qed.

Lemma settle_timeout_good now ex ts m db : good ∅ ∅ db (settle_timeout cfg now ex ts m db).
Proof.
  apply good_then; [|intros; apply good_dead_letter_audit].
  apply good_terminal_write; [done|by repeat constructor..].
Qed.

Lemma settle_completed_good now ex r db : good ∅ ∅ db (settle_completed cfg now ex r db).
Proof.
  apply good_then; [|intros; apply good_audit].
  apply good_terminal_write; [done|by repeat constructor..].
Qed.

(** Redis calls never touch the database. *)
Lemma redis_call_db {A} ok (f : Redis → result exn (A * Redis)) w : w_db (redis_call ok f w).2 = w_db w.
Proof. unfold redis_call. destruct ok; [|done]. by destruct (f (w_redis w)) as [[? ?]|]. Qed.

Lemma push_guarded_db ok t i d w : w_db (push_guarded ok t i d w) = w_db w.
Proof. apply redis_call_db. Qed.

Lemma commit_tx_good tx f after w :
  good ∅ ∅ (w_db w) (f (w_db w)) → (∀ w', w_db (after w') = w_db w') →
  good ∅ ∅ (w_db w) (w_db (commit_tx tx f after w).2).
Proof. intros Hf Ha. destruct tx; cbn; [by rewrite Ha|apply good_refl|done]. Qed.

Lemma settle_good env ex w :
  ex_ok (w_db w) ex → good ∅ ∅ (w_db w) (w_db (settle cfg env ex w).2).
Proof.
  intros Hex. unfold settle. cbv zeta. destruct (job_type_of_string (ex_type ex)) as [ty|].
  2:{ apply commit_tx_good; [by apply settle_unregistered_good|done]. }
  destruct (execute_processor _ _) as [r|m|m].
  - apply commit_tx_good; [apply settle_completed_good|done].
  - apply commit_tx_good; [apply settle_timeout_good|done].
  - destruct (will_retry _ _ _) eqn:Ew.
    + apply commit_tx_good; [|intros; apply push_guarded_db]. apply settle_retry_good; [done|].
      unfold will_retry in Ew. reflect_bools. lia.
    + apply commit_tx_good; [by apply settle_exhausted_good|done].
Qed.

Lemma force_dead_letter_good now s e db : good ∅ ∅ db (force_dead_letter cfg now s e db).
Proof.
  unfold force_dead_letter. destruct (uuid_parse s) as [i|]; [|apply good_refl].
  destruct (get_by_id i db) as [j|]; [|apply good_refl]. destruct (is_terminal _); [apply good_refl|].
  apply good_then; [|intros; apply good_dead_letter_audit].
  apply good_terminal_write; [done|by repeat constructor..].
Qed.

(** ** The background passes *)

(** Re-publishing a job that is known already only adds an event. *)
Lemma good_resubmit X now j db : good X X db (submit_event cfg now j db).
Proof. apply good_outbox_add. Qed.

Lemma promote_item_good e s w : good ∅ ∅ (w_db w) (w_db (promote_item cfg e s w)).
Proof.
  unfold promote_item. destruct (uuid_parse s) as [i|]; [|apply good_refl].
  destruct (it_tx e); [|rewrite push_guarded_db; apply good_refl|];
    (destruct (get_by_id i (w_db w)) as [j|]; [|apply good_refl]);
    (destruct (find_blocking_pause _ _ _ _); [rewrite push_guarded_db; apply good_refl|]);
    rewrite ?push_guarded_db; apply good_resubmit.
Qed.

Lemma resume_row_good now t r child db : good ∅ ∅ db (resume_row cfg now t r child db).
Proof.
  unfold resume_row. destruct (find_blocking_pause _ _ _ _); [apply good_refl|].
  pose proof (good_promote_submit ∅ now child db) as G.
  destruct (promote_waiting_to_pending now (job_id child) db) as [[] db1]; [done|apply good_refl].
Qed.

Lemma resume_pass_good now t lookup cursor db :
  good ∅ ∅ db (resume_unblocked_waiting_once cfg now t lookup cursor db).2.
Proof. apply good_foldl. intros. apply resume_row_good. Qed.

Lemma requeue_row_good now t r j db db' :
  requeue_row cfg now t r j db = Ok db' → good ∅ ∅ db db'.
Proof.
  intros Hr. apply bind_ok in Hr as ([q|] & _ & Hr); injection Hr as <-; [apply good_refl|].
  eapply good_trans; [apply good_resubmit|]. apply keeps_both_announced; by repeat constructor.
Qed.

Lemma requeue_pass_good now t r db db' :
  requeue_stale_pending_once cfg now t r db = Ok db' → good ∅ ∅ db db'.
Proof.
  unfold requeue_stale_pending_once. generalize (take STALE_PENDING_LIMIT
    (filter (λ j, stale_pending now j = true) (all_jobs db))) as rows.
  intros rows. revert db. induction rows as [|j rows IH]; intros db Hr.
  - injection Hr as <-. apply good_refl.
  - apply bind_ok in Hr as (db1 & H1 & H2). eapply good_trans; [by eapply requeue_row_good|by apply IH].
Qed.

Lemma recover_row_good now b row s tx db : good ∅ ∅ db (recover_row cfg now b row s tx db).2.
Proof.
  unfold recover_row.
  pose proof (good_terminal_write ∅ now (job_id row) DEAD_LETTER [SetErrorMessage (Some (recovery_error b))]
                None (Some (recovery_guard row)) db eq_refl) as G.
  destruct (update_status _ _ _ _ _ _ _ _) as [[x|] db1]; cbn [snd] in G;
    destruct tx; cbn [snd]; try apply good_refl;
    (eapply good_trans; [apply G; by repeat constructor|]); first [apply good_refl|apply good_audit].
Qed.

Lemma sweep_running_good now_scan now th ids env db :
  (∀ i d, good ∅ ∅ d ((env i).1 d)) →
  good ∅ ∅ db (sweep_stale_running_once cfg now_scan now th ids env db).2.
Proof.
  intros Henv. unfold sweep_stale_running_once. generalize 0%nat as n.
  generalize (take STALE_RUNNING_SWEEP_LIMIT
    (filter (λ j, stale_running now_scan th j = true) (all_jobs db))) as rows.
  intros rows. revert db. induction rows as [|row rows IH]; intros db n; [apply good_refl|].
  cbn [foldl]. destruct (job_started_at row) as [s|]; [|apply IH].
  destruct (excluded_in_flight _ _ _ _); [apply IH|].
  pose proof (Henv (job_id row) db) as Ho. destruct (env (job_id row)) as [others tx]. cbn in Ho.
  pose proof (recover_row_good now (bool_decide (uuid_str (job_id row) ∈ ids)) row s tx (others db)) as G.
  destruct (recover_row _ _ _ _ _ _ _) as [settled db1]. cbn in G.
  eapply good_trans; [exact Ho|]. eapply good_trans; [exact G|]. apply IH.
Qed.

Lemma renew_good now th ids db : good ∅ ∅ db (renew_running_leases_once now th ids db).2.
Proof.
  unfold renew_running_leases_once, renew_running_leases. case_match; [apply good_refl|].
  apply good_update_jobs; by repeat constructor.
Qed.

Lemma fire_replay_good e entry w : good ∅ ∅ (w_db w) (w_db (fire_replay cfg e entry w)).
Proof.
  destruct entry as [[tenant principal] job]. unfold fire_replay. destruct (rv_request e) as [now t].
  assert (Hrep : good ∅ ∅ (w_db w) (w_db
    match replay_job cfg (mkRequest now t (redis_view (rv_lookup_ok e) w) [] "") true job tenant
            (mkCaller None "service_account" (Some principal)) (w_db w) with
    | Ok (_, db, _) => with_db db w
    | Err _ => w
    end)).
  { destruct (replay_job _ _ _ _ _ _ _) as [[[j db] fx]|] eqn:Er; [|apply good_refl].
    by eapply replay_job_good. }
  destruct (rv_tx e); [|apply good_refl|];
    (destruct (find_blocking_pause _ _ _ _); [rewrite ?redis_call_db; apply good_refl|exact Hrep]).
Qed.

(** ** The relay *)

Lemma safe_update_outbox X ids f db :
  (∀ e, ob_id (f e) = ob_id e ∧ ob_content (f e) = ob_content e) → safe X X db (update_outbox ids f db).
Proof. intros Hf. apply safe_map_outbox. intros e. cbv beta. case_match; [apply Hf|done]. Qed.

Lemma safe_refl X db : safe X X db db.
Proof. apply good_safe, good_refl. Qed.

Lemma mark_results_safe now ta db : safe ∅ ∅ db (mark_results now ta db).
Proof.
  apply (safe_trans _ _ ∅ _ _ (mark_published now (ta_published ta) db)).
  2: apply (safe_trans _ _ ∅ _ _ (increment_attempts (ta_retry ta) (mark_published now (ta_published ta) db))).
  - unfold mark_published. case_match; [apply safe_refl|by apply safe_update_outbox].
  - unfold increment_attempts. case_match; [apply safe_refl|by apply safe_update_outbox].
  - unfold mark_results. cbv zeta. generalize (increment_attempts (ta_retry ta) (mark_published now (ta_published ta) db)) as d.
    induction (ta_dead ta) as [|[i m] l IH]; intros d; [apply safe_refl|].
    eapply safe_trans; [|apply IH]. by apply safe_update_outbox.
Qed.

Lemma relay_tick_safe now producer others marked w :
  good ∅ ∅ (w_db w) (others (w_db w)) →
  safe ∅ ∅ (w_db w) (w_db (outbox_relay_tick cfg now producer others marked w)).
Proof.
  intros Ho. unfold outbox_relay_tick. case_match; [apply safe_refl|].
  destruct (publish_events _ _ _) as [ta log]. cbn [w_db].
  eapply safe_trans; [by apply good_safe|]. destruct marked; [apply mark_results_safe|apply safe_refl].
Qed.

(** ** The resolver *)

Lemma resolve_child_good now t r others c db :
  (∀ d, good ∅ ∅ d (others d)) → good ∅ ∅ db (resolve_child cfg now t r others c db).
Proof.
  intros Ho Hwf. revert Hwf. unfold resolve_child, get_by_id.
  destruct (db_jobs db !! c) as [child|] eqn:Ec; [|apply good_refl].
  case_match; [apply good_refl|]. case_match; [apply good_refl|]. case_match; [apply good_refl|].
  intros Hwf. pose proof (wf_keys _ _ _ Hwf c child Ec) as <-. revert Hwf.
  eapply good_trans; [apply Ho|]. apply good_promote_submit.
Qed.

Lemma resolver_good now t r others m db :
  (∀ c d, good ∅ ∅ d (others c d)) → good ∅ ∅ db (resolver_handle_message cfg now t r others m db).
Proof.
  intros Ho. unfold resolver_handle_message. destruct (m ≫= uuid_parse); [|apply good_refl].
  apply good_foldl. intros. by apply resolve_child_good.
Qed.

(** ** Sagas *)

Lemma create_steps_good rq user tenant saga index prev steps db db' :
  (1 ≤ max_job_attempts cfg)%Z →
  create_steps cfg rq user tenant saga index prev steps db = Ok db' → good ∅ ∅ db db'.
Proof.
  intros Hmax. revert index prev db. induction steps as [|step steps IH]; intros index prev db Hs.
  - injection Hs as <-. apply good_refl.
  - apply bind_ok in Hs as ([j db1] & Hc & Hs). eapply good_trans; [|by eapply IH].
    intros Hwf. apply (create_job_good rq true _ (λ d, d) db _ db1 Hwf Hwf (reflexivity db)) in Hc; done.
Qed.

Lemma create_saga_good rq user tenant name steps db s db' :
  (1 ≤ max_job_attempts cfg)%Z →
  create_saga cfg rq user tenant name steps db = Ok (s, db') → good ∅ ∅ db db'.
Proof.
  intros Hmax Hc Hwf. unfold create_saga in Hc. destruct steps as [|st steps]; [done|].
  destruct (draw_uuid db) as [i db1] eqn:Ed. apply bind_ok in Hc as (db2 & Hsteps & Hc).
  injection Hc as <- <-.
  assert (G1 : good ∅ ∅ db db1).
  { replace db1 with (draw_uuid db).2 by (by rewrite Ed). apply good_draw. }
  injection Ed as Hi Hdb1.
  assert (Hnone : db_sagas db1 !! i = None).
  { apply eq_None_not_Some. intros [s0 Hs0]. rewrite <- Hdb1 in Hs0. cbn in Hs0.
    destruct (wf_sagas _ _ _ Hwf i s0 Hs0) as [_ (n & En & Hn)]. rewrite <- Hi in En.
    apply (inj uuid4) in En. lia. }
  revert Hwf. eapply good_trans; [exact G1|].
  eapply good_trans; [|eapply good_trans; [by eapply create_steps_good|apply good_audit]].
  apply (good_saga_write cfg ∅ (mkSaga i tenant name SAGA_RUNNING (rq_now rq) None)).
  - exists (db_draws db). rewrite <- Hdb1, <- Hi. split; [done|cbn; lia].
  - cbn. by rewrite Hnone.
Qed.

(** The coordinator rewrites only the row of the saga it read, unsettled. *)
Lemma good_write_saga s status at_ db s0 :
  db_sagas db !! saga_id s = Some s0 → saga_settled s0 = false →
  good ∅ ∅ db (write_saga (set_saga status at_ s) db).
Proof.
  intros Hs Hu Hwf. revert Hwf. intros Hwf. destruct (wf_sagas _ _ _ Hwf _ _ Hs) as [_ Hdr]. revert Hwf.
  apply (good_saga_write cfg ∅ (set_saga status at_ s)); [done|]. cbn. intros s1 Hs1. by simplify_eq.
Qed.

Lemma handle_completion_good now s db :
  db_sagas db !! saga_id s = Some s → saga_settled s = false → good ∅ ∅ db (handle_completion now s db).
Proof.
  intros Hs Hu. unfold handle_completion. case_match; [apply good_refl|]. case_match; [|apply good_refl].
  eapply good_trans; [by eapply good_write_saga|apply good_audit].
Qed.

Lemma settle_if_drained_good now s db s0 :
  db_sagas db !! saga_id s = Some s0 → saga_settled s0 = false → good ∅ ∅ db (settle_if_drained now s db).
Proof.
  intros Hs Hu. unfold settle_if_drained. cbv zeta. case_match; [apply good_refl|].
  eapply good_trans; [by eapply good_write_saga|apply good_audit].
Qed.

Lemma cancel_downstream_good now failed steps n db :
  good ∅ ∅ db (foldl (λ '(n, db) w,
    if bool_decide (job_id w = failed) then (n, db)
    else (S n, (update_status cfg now (job_id w) CANCELLED
                  [SetErrorMessage (Some "saga rollback")] None None db).2)) (n, db) steps).2.
Proof.
  revert n db. induction steps as [|w steps IH]; intros n db; [apply good_refl|].
  cbn [foldl]. case_bool_decide; [apply IH|]. eapply good_trans; [|apply IH].
  apply good_terminal_write; [done|by repeat constructor..].
Qed.

Lemma compensate_good now s user done_ db db' :
  (1 ≤ job_max_attempts done_)%Z → compensate cfg now s user done_ db = Ok db' → good ∅ ∅ db db'.
Proof.
  intros Hpos Hc. unfold compensate in Hc. destruct (draw_uuid db) as [i db1] eqn:Ed.
  apply bind_ok in Hc as (db2 & Hins & Hc). injection Hc as <-.
  assert (G1 : good ∅ ∅ db db1).
  { replace db1 with (draw_uuid db).2 by (by rewrite Ed). apply good_draw. }
  injection Ed as Hi Hdb1. eapply good_trans; [exact G1|].
  eapply good_trans; [eapply good_insert; [| | | |exact Hins]|apply good_submit_event].
  - exists (db_draws db). cbn. rewrite <- Hdb1, <- Hi. split; [done|cbn; lia].
  - done.
  - split; cbn; [lia|]. intros _. lia.
  - done.
Qed.

Lemma compensate_all_good now s user steps db db' :
  (∀ d, d ∈ steps → 1 ≤ job_max_attempts d)%Z →
  compensate_all cfg now s user steps db = Ok db' → good ∅ ∅ db db'.
Proof.
  revert db. induction steps as [|d steps IH]; intros db Hpos Hc.
  - injection Hc as <-. apply good_refl.
  - apply bind_ok in Hc as (db1 & H1 & H2).
    eapply good_trans; [eapply compensate_good; [|exact H1]; apply Hpos; left|].
    apply IH; [|done]. intros x Hx. apply Hpos. by right.
Qed.

Lemma completed_steps_elem saga db j :
  j ∈ completed_steps saga db ↔
  (∃ i, db_jobs db !! i = Some j) ∧ job_saga_id j = Some saga ∧ job_status j = COMPLETED.
Proof.
  unfold completed_steps. rewrite merge_sort_Permutation, list_elem_of_filter, all_jobs_elem. tauto.
Qed.

Lemma update_status_sagas X now i status extra msg guard db :
  wf X db → Forall keeps_status extra →
  db_sagas (update_status cfg now i status extra msg guard db).2 = db_sagas db.
Proof.
  intros Hwf He. destruct (db_jobs db !! i) as [j|] eqn:Ej.
  - destruct (default no_guard guard j) eqn:Eg.
    + destruct (update_status_hit cfg now i status extra msg guard db j (wf_keys _ _ _ Hwf) He Ej Eg)
        as (_ & gone & Hw & _). apply Hw.
    + rewrite update_status_miss; [done|]. intros j' Hj'. by simplify_eq.
  - rewrite update_status_miss; [done|]. congruence.
Qed.

Lemma cancel_downstream_sagas now failed steps n db :
  wf ∅ db →
  db_sagas (foldl (λ '(n, db) w,
    if bool_decide (job_id w = failed) then (n, db)
    else (S n, (update_status cfg now (job_id w) CANCELLED
                  [SetErrorMessage (Some "saga rollback")] None None db).2)) (n, db) steps).2 = db_sagas db.
Proof.
  revert n db. induction steps as [|w steps IH]; intros n db Hwf; [done|].
  cbn [foldl]. case_bool_decide; [by apply IH|]. rewrite IH.
  - eapply update_status_sagas; [done|by repeat constructor].
  - apply (good_terminal_write ∅ now (job_id w) CANCELLED); [done|by repeat constructor..|done].
Qed.

Lemma handle_failure_good now s failed user db db' :
  db_sagas db !! saga_id s = Some s → saga_settled s = false →
  handle_failure cfg now s failed user db = Ok db' → good ∅ ∅ db db'.
Proof.
  intros Hs Hu Hf Hwf. unfold handle_failure in Hf. cbv zeta in Hf.
  set (s' := set_saga SAGA_COMPENSATING (saga_completed_at s) s) in *.
  set (db1 := write_saga s' db) in *.
  destruct (good_write_saga s SAGA_COMPENSATING (saga_completed_at s) db s Hs Hu Hwf) as [Hw1 He1].
  fold s' db1 in Hw1, He1.
  pose proof (cancel_downstream_good now failed (waiting_steps (saga_id s) db1) 0 db1 Hw1) as [Hw2 He2].
  pose proof (cancel_downstream_sagas now failed (waiting_steps (saga_id s) db1) 0 db1 Hw1) as Hsag.
  unfold cancel_downstream in Hf. destruct (foldl _ _ _) as [n db2]. cbn [snd] in *.
  apply bind_ok in Hf as (db3 & Hcomp & Hf). injection Hf as <-.
  assert (G3 : good ∅ ∅ db2 db3).
  { eapply compensate_all_good; [|exact Hcomp]. intros d Hd. apply list_elem_of_In, in_rev, list_elem_of_In in Hd.
    apply completed_steps_elem in Hd as ((i & Hi) & _). by apply (wf_positive _ _ _ Hw2 i). }
  assert (G4 : good ∅ ∅ db2
    (saga_audit now "saga.compensating" s
       [("failed_job_id", juuid failed);
        ("compensations_emitted", JInt (Z.of_nat (length (completed_steps (saga_id s) db2))));
        ("cancelled_downstream", JInt (Z.of_nat n))] db3)).
  { eapply good_trans; [exact G3|apply good_audit]. }
  assert (Hall : evolves db db2) by (by etrans).
  destruct (completed_steps (saga_id s) db2) as [|d ds].
  - injection Hcomp as <-. destruct (G4 Hw2) as [Hw3 He3].
    match type of Hw3 with DbInv.wf _ _ ?d =>
      destruct (settle_if_drained_good now s' d s') as [Hw4 He4]; [|done|exact Hw3|] end.
    + cbn. rewrite Hsag. apply (lookup_insert_eq _ (saga_id s') s').
    + split; [exact Hw4|]. etrans; [exact Hall|]. etrans; [exact He3|exact He4].
  - destruct (G4 Hw2) as [Hw3 He3]. split; [done|]. by etrans.
Qed.

Lemma saga_handle_message_good now ev i dl db db' :
  saga_handle_message cfg now ev i dl db = Ok db' → good ∅ ∅ db db'.
Proof.
  intros Hm Hwf. unfold saga_handle_message in Hm.
  destruct ev as [ev|]; [|by injection Hm as <-]. destruct i as [i|]; [|by injection Hm as <-].
  case_bool_decide; [by injection Hm as <-|]. destruct (uuid_parse i) as [u|]; [|by injection Hm as <-].
  destruct (get_by_id u db) as [job|]; [|by injection Hm as <-].
  destruct (job_saga_id job ≫= _) as [s|] eqn:Es; [|by injection Hm as <-].
  apply bind_Some in Es as (si & _ & Hs). pose proof (wf_sagas _ _ _ Hwf si s Hs) as [Hid _]. subst si.
  destruct (saga_status s) eqn:Est; try (by injection Hm as <-).
  - assert (Hu : saga_settled s = false) by (unfold saga_settled; by rewrite Est).
    destruct (is_compensation job); [by injection Hm as <-|].
    case_match; [injection Hm as <-; by apply handle_completion_good|].
    case_match; [by eapply handle_failure_good|by injection Hm as <-].
  - assert (Hu : saga_settled s = false) by (unfold saga_settled; by rewrite Est).
    injection Hm as <-. case_match; [by eapply settle_if_drained_good|done].
Qed.
End Ops.
