(* ===== verification/Fixtures.v ===== *)
(** * Concrete data for the worked examples

    Small databases and requests the examples and witnesses of the other files
    evaluate: rows of one tenant and one user, a default configuration, a request
    at a fixed time. *)
From stdpp Require Import base tactics numbers option list gmap strings sorting.
From Stdlib Require Import QArith.
From S2P Require Import Prelude PyData Models Database Redis JobService World Dispatcher.

Module Fixtures.

Definition cfg : Settings := default_settings.
Definition tenant : uuid := 900%N.
Definition user : uuid := 901%N.
Definition at_time : Z := 1700000000000000.
Definition request : Request := mkRequest at_time 1700000000 (Some ∅) [] "".

(** A job of the fixture tenant, created at the epoch of the fixture. *)
Definition row (i : uuid) (s : JobStatus) : Job :=
  mkJob i tenant user "csv_upload" s None (Some []) None None 0 3 None None None None 0 None
    None None None None None None at_time at_time.

(** The database that holds exactly these jobs and dependencies. *)
Definition db_of (jobs : list Job) (deps : list (uuid * uuid)) : DB :=
  mkDB (list_to_map ((λ j, (job_id j, j)) <$> jobs)) ((λ '(c, p), mkDep c p) <$> deps) [] [] ∅ 1000.

Definition world_of (db : DB) : World := mkWorld db ∅ [].

(** A submission without key or parents. *)
Definition submission : NewJob := mkNewJob user tenant "csv_upload" None None 0 None [] None None.

(** A chain of [n] WAITING jobs below job 1: job [k + 1] depends on job [k]. *)
Fixpoint chain_rows (n : nat) : list Job :=
  match n with O => [] | S n => row (N.of_nat (S (S n))) WAITING :: chain_rows n end.
Fixpoint chain_deps (n : nat) : list (uuid * uuid) :=
  match n with O => [] | S n => (N.of_nat (S (S n)), N.of_nat (S n)) :: chain_deps n end.
Definition chain_db (root : JobStatus) (n : nat) : DB := db_of (row 1 root :: chain_rows n) (chain_deps n).

(** A run in which every call succeeds and the processor ends as told. *)
Definition run_env (e : proc_event) : RunEnv :=
  mkRunEnv at_time 1700000000 true true (λ _ _, e) "300.0" (λ w, w) at_time 1700000000 None TxCommits true.

End Fixtures.
