(* ===== verification/System.v ===== *)
(** * The platform as a transition system

    One step is one committed transaction or one call to Redis or Kafka, by any
    process: API requests, the dispatcher, its background passes, the relay, the
    resolver and the saga coordinator, interleaved at will.  Executions in progress
    are part of the state, so a worker may settle long after its claim, or never.
    Redis may change in any way between steps: nothing proved here relies on it. *)
From stdpp Require Import base tactics numbers option list gmap strings sorting relations.
From Stdlib Require Import QArith.
From S2P Require Import Prelude PyData Models Database JobEvents JobRepo Cascade Redis Queue DagPause JobService World Dispatcher Sweeps OutboxRelay Resolver SagaFlow DbInv OpsInv Fixtures.

Record System := mkSystem {
  sys_world : World;
  sys_running : list Execution   (** claimed, not settled *)
}.

Definition sys_db (s : System) : DB := w_db (sys_world s).

(** The state after a transaction left the database [db]. *)
Definition sys_commit (db : DB) (s : System) : System :=
  mkSystem (with_db db (sys_world s)) (sys_running s).

Section System.
Context `{SqlOrder, UuidSource} (cfg : Settings).

Inductive sys_step : System → System → Prop :=
  (** API *)
  | step_create rq dep_repo a j db' s :
      (1 ≤ default (max_job_attempts cfg) (nj_max_attempts a))%Z →
      create_job cfg rq dep_repo a (λ d, d) (sys_db s) = Ok (j, db') →
      sys_step s (sys_commit db' s)
  | step_create_saga rq user tenant name steps g db' s :
      (1 ≤ max_job_attempts cfg)%Z →
      create_saga cfg rq user tenant name steps (sys_db s) = Ok (g, db') →
      sys_step s (sys_commit db' s)
  | step_replay rq dep_repo i tenant who j db' fx s :
      replay_job cfg rq dep_repo i tenant who (sys_db s) = Ok (j, db', fx) →
      sys_step s (sys_commit db' s)
  | step_resolve rq i user tenant j db' fx s :
      resolve_incident cfg rq i user tenant (sys_db s) = Ok (j, db', fx) →
      sys_step s (sys_commit db' s)
  (** dispatcher *)
  | step_claim now t redis str i ex db' s :
      run_job_claim now t redis str i (sys_db s) = (Claimed ex, db') →
      sys_step s (mkSystem (with_db db' (sys_world s)) (ex :: sys_running s))
  | step_settle env ex l1 l2 s :
      sys_running s = l1 ++ ex :: l2 →
      sys_step s (mkSystem (settle cfg env ex (sys_world s)).2 (l1 ++ l2))
  | step_crash ex l1 l2 s :
      sys_running s = l1 ++ ex :: l2 → sys_step s (mkSystem (sys_world s) (l1 ++ l2))
  | step_force now str error s : sys_step s (sys_commit (force_dead_letter cfg now str error (sys_db s)) s)
  (** background passes *)
  | step_promote_delayed e str s :
      sys_step s (mkSystem (promote_item cfg e str (sys_world s)) (sys_running s))
  | step_resume now t lookup cursor s :
      sys_step s (sys_commit (resume_unblocked_waiting_once cfg now t lookup cursor (sys_db s)).2 s)
  | step_requeue now t redis db' s :
      requeue_stale_pending_once cfg now t redis (sys_db s) = Ok db' → sys_step s (sys_commit db' s)
  | step_recover now in_flight row started_at tx s :
      sys_step s (sys_commit (recover_row cfg now in_flight row started_at tx (sys_db s)).2 s)
  | step_renew now threshold ids s :
      sys_step s (sys_commit (renew_running_leases_once now threshold ids (sys_db s)).2 s)
  | step_fire_replay e entry s :
      sys_step s (mkSystem (fire_replay cfg e entry (sys_world s)) (sys_running s))
  | step_relay now producer marked s :
      sys_step s (mkSystem (outbox_relay_tick cfg now producer (λ d, d) marked (sys_world s)) (sys_running s))
  (** consumers *)
  | step_resolver now t redis msg s :
      sys_step s (sys_commit (resolver_handle_message cfg now t redis (λ _ d, d) msg (sys_db s)) s)
  | step_saga now ev i dl db' s :
      saga_handle_message cfg now ev i dl (sys_db s) = Ok db' → sys_step s (sys_commit db' s)
  | step_hint now i tenant hint s :
      sys_step s (sys_commit (set_remediation_hint_if_unset now i tenant hint (sys_db s)).2 s)
  (** the environment *)
  | step_redis r s : sys_step s (mkSystem (with_redis r (sys_world s)) (sys_running s)).

Definition initial (s : System) : Prop :=
  sys_db s = empty_db ∧ w_log (sys_world s) = [] ∧ sys_running s = [].

Definition reachable (s : System) : Prop := ∃ s0, initial s0 ∧ rtc sys_step s0 s.

(** ** The invariant *)

(** A row counted as delivered reached the log. *)
Definition delivered (e : OutboxEvent) : bool :=
  bool_decide (ob_published_at e ≠ None ∧ ob_failed_at e = None).

Definition log_ok (w : World) : Prop :=
  ∀ e, e ∈ db_outbox (w_db w) → delivered e = true → ob_message e ∈ w_log w.

(** Rows still in the queue carry no failure mark. *)
Definition unfailed (w : World) : Prop :=
  ∀ e, e ∈ db_outbox (w_db w) → ob_published_at e = None → ob_failed_at e = None.

Record sys_inv (s : System) : Prop := {
  inv_db : wf cfg ∅ (sys_db s);
  inv_running : Forall (ex_ok cfg (sys_db s)) (sys_running s);
  inv_log : log_ok (sys_world s);
  inv_unfailed : unfailed (sys_world s)
}.

(** A step of anyone but the relay. *)
Lemma sys_inv_good s w' running' :
  good cfg ∅ ∅ (sys_db s) (w_db w') → w_log w' = w_log (sys_world s) →
  (wf cfg ∅ (sys_db s) → Forall (ex_ok cfg (sys_db s)) (sys_running s) →
   keeps (sys_db s) (w_db w') → Forall (ex_ok cfg (w_db w')) running') →
  sys_inv s → sys_inv (mkSystem w' running') ∧ keeps (sys_db s) (w_db w').
Proof.
  intros Hg Hlog Hrun [Hwf Hex Hl Hu]. destruct (Hg Hwf) as [Hwf' [Hk Hq]]. split; [|done]. split.
  - exact Hwf'.
  - by apply Hrun.
  - intros e He Hd. cbn in *. rewrite Hlog. destruct (Hq e He) as [Hold|[Hp _]]; [by apply Hl|].
    unfold delivered in Hd. rewrite Hp in Hd. by apply bool_decide_eq_true in Hd as [? _].
  - intros e He Hp. destruct (Hq e He) as [Hold|(_ & Hf & _)]; [by apply Hu|done].
Qed.

Lemma forall_ex_keeps db db' l :
  keeps db db' → Forall (ex_ok cfg db) l → Forall (ex_ok cfg db') l.
Proof. intros Hk Hf. eapply Forall_impl; [done|]. intros ex. by apply ex_ok_keeps. Qed.

Lemma sys_inv_commit s db' :
  good cfg ∅ ∅ (sys_db s) db' → sys_inv s → sys_inv (sys_commit db' s) ∧ keeps (sys_db s) db'.
Proof.
  intros Hg. apply (sys_inv_good s (with_db db' (sys_world s))); [done|done|].
  intros _ Hex Hk. by eapply forall_ex_keeps.
Qed.

Lemma sys_inv_world s w' :
  good cfg ∅ ∅ (sys_db s) (w_db w') → w_log w' = w_log (sys_world s) →
  sys_inv s → sys_inv (mkSystem w' (sys_running s)) ∧ keeps (sys_db s) (w_db w').
Proof.
  intros Hg Hl. apply sys_inv_good; [done|done|]. intros _ Hex Hk. by eapply forall_ex_keeps.
Qed.

(** Calls that leave the log alone. *)
Lemma redis_call_log {A} ok (f : Redis → result exn (A * Redis)) w : w_log (redis_call ok f w).2 = w_log w.
Proof. unfold redis_call. destruct ok; [|done]. by destruct (f (w_redis w)) as [[? ?]|]. Qed.

Lemma push_guarded_log ok t i d w : w_log (push_guarded ok t i d w) = w_log w.
Proof. apply redis_call_log. Qed.

Lemma commit_tx_log tx f after w :
  (∀ w', w_log (after w') = w_log w') → w_log (commit_tx tx f after w).2 = w_log w.
Proof. intros Ha. destruct tx; cbn; [by rewrite Ha|done|done]. Qed.

Lemma settle_log env ex w : w_log (settle cfg env ex w).2 = w_log w.
Proof.
  unfold settle. cbv zeta. repeat case_match; apply commit_tx_log; try done.
  intros w'. apply push_guarded_log.
Qed.

Lemma promote_item_log e str w : w_log (promote_item cfg e str w) = w_log w.
Proof. unfold promote_item. repeat case_match; rewrite ?push_guarded_log; done. Qed.

Lemma fire_replay_log e entry w : w_log (fire_replay cfg e entry w) = w_log w.
Proof. unfold fire_replay. repeat case_match; rewrite ?redis_call_log; done. Qed.

(** The rows after a tick, and what it sent. *)
Lemma relay_tick_rows now producer w :
  NoDup (ob_id <$> db_outbox (w_db w)) →
  let events := fetch_unpublished cfg OUTBOX_RELAY_BATCH (w_db w) in
  db_outbox (w_db (outbox_relay_tick cfg now producer (λ d, d) true w)) =
    ((λ e, if bool_decide (ob_id e ∈ ob_id <$> events) then settled_row cfg now (producer e) e else e)
       <$> db_outbox (w_db w)) ∧
  ∀ marked, w_log (outbox_relay_tick cfg now producer (λ d, d) marked w) =
    w_log w ++ (ob_message <$> filter (λ e, reaches_log (producer e) = true) events).
Proof.
  intros Hnd events.
  assert (Htick : ∀ marked, events ≠ [] →
            outbox_relay_tick cfg now producer (λ d, d) marked w =
            mkWorld (if marked then mark_results now (publish_events cfg producer events).1 (w_db w) else w_db w)
              (w_redis w) (w_log w ++ (publish_events cfg producer events).2)).
  { intros marked Hne. unfold outbox_relay_tick. fold events. destruct events as [|e0 rest]; [done|].
    by destruct (publish_events cfg producer (e0 :: rest)). }
  destruct (decide (events = [])) as [Hnil|Hne].
  - unfold outbox_relay_tick. fold events. rewrite Hnil. split; [|intros; by rewrite app_nil_r].
    symmetry. apply fmap_none.
  - split.
    + rewrite Htick by done. cbn [w_db]. apply mark_results_rows; [done|by apply fetch_unpublished_nodup|].
      intros e He. by apply fetch_unpublished_elem in He as [? _].
    + intros marked. rewrite Htick by done. by rewrite publish_events_spec.
Qed.

Lemma relay_step_inv now producer marked s :
  sys_inv s →
  let s' := mkSystem (outbox_relay_tick cfg now producer (λ d, d) marked (sys_world s)) (sys_running s) in
  sys_inv s' ∧ keeps (sys_db s) (sys_db s').
Proof.
  intros [Hwf Hex Hl Hu] s'.
  destruct (relay_tick_safe cfg now producer (λ d, d) marked (sys_world s) (good_refl _ _ _) Hwf) as [Hwf' Hk].
  destruct (relay_tick_rows now producer (sys_world s) (wf_outbox_nodup _ _ _ Hwf)) as [Hrows Hlog].
  set (events := fetch_unpublished cfg OUTBOX_RELAY_BATCH (w_db (sys_world s))) in *.
  split; [|exact Hk]. destruct marked.
  2:{ assert (Hdb : db_outbox (sys_db s') = db_outbox (sys_db s)).
      { unfold s', sys_db, outbox_relay_tick. cbn [sys_world]. case_match; [done|]. by destruct (publish_events cfg _ _). }
      split; [done|by eapply forall_ex_keeps| |].
      - intros e He Hd. unfold s'. cbn. rewrite Hlog. apply elem_of_app. left. apply Hl; [|done].
        fold (sys_db s') in He. by rewrite Hdb in He.
      - intros e He. fold (sys_db s') in He. rewrite Hdb in He. by apply Hu. }
  assert (Hrow : ∀ e, e ∈ db_outbox (w_db (sys_world s')) → ∃ e0, e0 ∈ db_outbox (sys_db s) ∧
            (((ob_id e0 ∉ (ob_id <$> events)) ∧ e = e0) ∨
             (e0 ∈ events ∧ ob_published_at e0 = None ∧ e = settled_row cfg now (producer e0) e0))).
  { intros e He. unfold s' in He. cbn in He. rewrite Hrows in He.
    apply list_elem_of_fmap in He as (e0 & -> & He0). exists e0. split; [done|].
    case_bool_decide as Hin; [right|by left]. apply list_elem_of_fmap in Hin as (e1 & Hid & Hin).
    pose proof (fetch_unpublished_elem cfg _ _ _ Hin) as [Hin1 Hwin].
    assert (e0 = e1) as -> by (apply (batch_id_inj (db_outbox (sys_db s))); [apply Hwf|done..]).
    split_and!; [done| |done]. unfold in_window in Hwin. by reflect_bools. }
  split; [done|by eapply forall_ex_keeps| |].
  - intros e He Hd. unfold s'. cbn. rewrite Hlog. apply elem_of_app.
    destruct (Hrow e He) as (e0 & He0 & [[_ ->]|(Hin & Hp & ->)]); [left; by apply Hl|].
    unfold settled_row in *. destruct (producer e0) as [|m|m r] eqn:Ep.
    + right. change (ob_message (ob_publish now e0)) with (ob_message e0).
      apply list_elem_of_fmap_2, list_elem_of_filter. by rewrite Ep.
    + by apply bool_decide_eq_true in Hd as [_ ?].
    + destruct (last_attempt cfg e0); apply bool_decide_eq_true in Hd as [Hpub ?]; [done|].
      cbn in Hpub. congruence.
  - intros e He Hp'. destruct (Hrow e He) as (e0 & He0 & [[_ ->]|(Hin & Hp & ->)]); [by apply Hu|].
    unfold settled_row in *. destruct (producer e0); [done|done|].
    destruct (last_attempt cfg e0); [done|]. cbn. by apply Hu.
Qed.

(** Every step keeps the invariant and everything recorded. *)
Lemma sys_step_inv s s' : sys_step s s' → sys_inv s → sys_inv s' ∧ keeps (sys_db s) (sys_db s').
Proof.
  intros Hstep Hinv. destruct Hstep.
  - apply sys_inv_commit; [|done]. intros Hwf.
    by apply (create_job_good cfg rq dep_repo a (λ d, d) (sys_db s) j db' Hwf Hwf (reflexivity _)).
  - apply sys_inv_commit; [|done]. by eapply create_saga_good.
  - apply sys_inv_commit; [|done]. by eapply replay_job_good.
  - apply sys_inv_commit; [|done]. by eapply resolve_incident_good.
  - apply sys_inv_good; [by eapply run_job_claim_good|done| |done]. intros Hwf Hex Hk. constructor.
    + by eapply run_job_claim_ex.
    + by eapply forall_ex_keeps.
  - assert (Hex : ex_ok cfg (sys_db s) ex).
    { destruct Hinv as [_ Hall _ _]. rewrite H1 in Hall. rewrite Forall_app, Forall_cons in Hall. tauto. }
    apply sys_inv_good; [by apply settle_good|apply settle_log| |done]. intros _ Hall Hk.
    rewrite H1, Forall_app, Forall_cons in Hall. apply Forall_app.
    split; eapply forall_ex_keeps; try done; tauto.
  - apply sys_inv_good; [apply good_refl|done| |done]. intros _ Hall _.
    rewrite H1, Forall_app, Forall_cons in Hall. apply Forall_app. tauto.
  - apply sys_inv_commit; [|done]. apply force_dead_letter_good.
  - apply sys_inv_world; [apply promote_item_good|apply promote_item_log|done].
  - apply sys_inv_commit; [|done]. apply resume_pass_good.
  - apply sys_inv_commit; [|done]. by eapply requeue_pass_good.
  - apply sys_inv_commit; [|done]. apply recover_row_good.
  - apply sys_inv_commit; [|done]. apply renew_good.
  - apply sys_inv_world; [apply fire_replay_good|apply fire_replay_log|done].
  - by apply relay_step_inv.
  - apply sys_inv_commit; [|done]. apply resolver_good. intros. apply good_refl.
  - apply sys_inv_commit; [|done]. by eapply saga_handle_message_good.
  - apply sys_inv_commit; [|done]. apply keeps_both_announced; by repeat constructor.
  - apply sys_inv_world; [apply good_refl|done|done].
Qed.

Lemma initial_inv s : initial s → sys_inv s.
Proof.
  intros (Hdb & Hlog & Hrun). split.
  - rewrite Hdb. apply wf_empty.
  - by rewrite Hrun.
  - intros e He. change (w_db (sys_world s)) with (sys_db s) in He. rewrite Hdb in He. by apply not_elem_of_nil in He.
  - intros e He. change (w_db (sys_world s)) with (sys_db s) in He. rewrite Hdb in He. by apply not_elem_of_nil in He.
Qed.

Lemma steps_inv s s' : rtc sys_step s s' → sys_inv s → sys_inv s' ∧ keeps (sys_db s) (sys_db s').
Proof.
  induction 1 as [s|s1 s2 s3 H12 _ IH]; intros Hinv; [done|].
  destruct (sys_step_inv _ _ H12 Hinv) as [Hinv2 Hk]. destruct (IH Hinv2) as [Hinv3 Hk']. split; [done|by etrans].
Qed.

Lemma reachable_inv s : reachable s → sys_inv s.
Proof. intros (s0 & Hi & Hr). by apply (steps_inv s0 s Hr), initial_inv. Qed.
End System.

(** ** Properties *)

Module SystemProps.
Section Props.
Context `{SqlOrder, UuidSource} (cfg : Settings).


(** C2: In every reachable state each PENDING or RUNNING job has a [job.submitted]
    outbox row: no job waits for a worker that was never told. *)
Theorem dispatchable_jobs_submitted s i j :
  reachable cfg s → db_jobs (sys_db s) !! i = Some j →
  job_status j = PENDING ∨ job_status j = RUNNING →
  ∃ e, e ∈ db_outbox (sys_db s) ∧ ob_topic e = kafka_topic_job_submitted cfg ∧
       dget (ob_payload e) "job_id" = Some (juuid i).
Proof.
  intros Hr Hj He. pose proof (inv_db _ _ (reachable_inv cfg s Hr)) as Hwf.
  rewrite <- (wf_keys _ _ _ Hwf i j Hj). apply (wf_submitted _ _ _ Hwf i j); [set_solver|done|].
  by destruct He as [->| ->].
Qed.

(** C11: In every reachable state the attempt counter of each job is within
    [0 .. max_attempts], and a job that still has a run to come (WAITING, PENDING,
    RUNNING) has used strictly fewer than [max_attempts], late settlements of
    crashed or swept runs included. *)
Theorem attempts_bounded s i j :
  reachable cfg s → db_jobs (sys_db s) !! i = Some j →
  (0 ≤ job_retry_count j ≤ job_max_attempts j)%Z ∧
  (job_status j = WAITING ∨ job_status j = PENDING ∨ job_status j = RUNNING →
   job_retry_count j < job_max_attempts j)%Z.
Proof.
  intros Hr Hj. pose proof (inv_db _ _ (reachable_inv cfg s Hr)) as Hwf.
  destruct (wf_attempts _ _ _ Hwf i j Hj) as [Hb Hu]. split; [done|].
  intros Hs. apply Hu. by destruct Hs as [->|[->| ->]].
Qed.

(** C16: The dependency graph of every reachable state is acyclic, and both ends of
    every edge are jobs that exist. *)
Theorem dependencies_acyclic s :
  reachable cfg s →
  (∀ i, ¬ tc (edge (sys_db s)) i i) ∧
  (∀ p c, edge (sys_db s) p c → is_Some (db_jobs (sys_db s) !! p) ∧ is_Some (db_jobs (sys_db s) !! c)).
Proof.
  intros Hr. pose proof (inv_db _ _ (reachable_inv cfg s Hr)) as Hwf. split.
  - intros i. by eapply wf_acyclic.
  - intros p c He. by apply (wf_edges _ _ _ Hwf (mkDep c p)).
Qed.

(** C7: In every reachable state an outbox row marked published and not failed has
    its message, topic, key and payload, in the Kafka log: the relay never counts a
    row as delivered that was not sent. *)
Theorem published_rows_in_log s e :
  reachable cfg s → e ∈ db_outbox (sys_db s) →
  ob_published_at e ≠ None → ob_failed_at e = None →
  mkMessage (ob_topic e) (ob_key e) (ob_payload e) ∈ w_log (sys_world s).
Proof.
  intros Hr He Hp Hf. apply (inv_log _ _ (reachable_inv cfg s Hr) e He). unfold delivered.
  by rewrite bool_decide_true.
Qed.

(** Nothing recorded is lost: along any run from a reachable state jobs stay,
    with id, tenant, user, type, payload, key and limits unchanged; dependency edges
    stay; outbox rows keep topic, key and payload; and a COMPLETED, COMPENSATED or
    FAILED saga never changes again. *)
Theorem history_is_kept s s' :
  reachable cfg s → rtc (sys_step cfg) s s' →
  (∀ i j, db_jobs (sys_db s) !! i = Some j →
     ∃ j', db_jobs (sys_db s') !! i = Some j' ∧ same_identity j j') ∧
  (∀ d, d ∈ db_deps (sys_db s) → d ∈ db_deps (sys_db s')) ∧
  (∀ e, e ∈ db_outbox (sys_db s) →
     ∃ e', e' ∈ db_outbox (sys_db s') ∧ ob_id e' = ob_id e ∧ ob_content e' = ob_content e) ∧
  (∀ i g, db_sagas (sys_db s) !! i = Some g → saga_settled g = true → db_sagas (sys_db s') !! i = Some g).
Proof.
  intros Hr Hs. destruct (steps_inv cfg s s' Hs (reachable_inv cfg s Hr)) as [_ [_ Hj Hd Ho Hg]].
  split_and!; [done|done|done|]. intros i g Hi Hset. destruct (Hg i g Hi) as (g' & Hg' & Heq).
  by rewrite <- (Heq Hset).
Qed.

(** In every reachable state two jobs of one tenant never share an idempotency
    key. *)
Theorem idempotency_keys_unique s i1 i2 j1 j2 k :
  reachable cfg s → db_jobs (sys_db s) !! i1 = Some j1 → db_jobs (sys_db s) !! i2 = Some j2 →
  job_tenant_id j1 = job_tenant_id j2 →
  job_idempotency_key j1 = Some k → job_idempotency_key j2 = Some k → i1 = i2.
Proof.
  intros Hr H1 H2 Ht K1 K2. pose proof (inv_db _ _ (reachable_inv cfg s Hr)) as Hwf.
  apply (wf_unique _ _ _ Hwf i1 i2 j1 j2); [done|done|]. unfold same_idempotency_slot.
  rewrite K1, K2. by apply bool_decide_true.
Qed.
End Props.

(** *** A run: a job is created, claimed, completed and its events relayed *)

Definition start : System := mkSystem (Fixtures.world_of empty_db) [].

Definition created : System :=
  match create_job Fixtures.cfg Fixtures.request true Fixtures.submission (λ d, d) empty_db with
  | Ok (_, db) => sys_commit db start
  | Err _ => start
  end.

Definition claim_of (s : System) : claim_outcome * DB :=
  run_job_claim Fixtures.at_time 1700000000 None (uuid_str 1) 1 (sys_db s).

Definition claimed : System :=
  match claim_of created with
  | (Claimed ex, db) => mkSystem (with_db db (sys_world created)) [ex]
  | _ => created
  end.

Definition finished : System :=
  match sys_running claimed with
  | ex :: _ => mkSystem (settle Fixtures.cfg (Fixtures.run_env (ProcReturns [])) ex (sys_world claimed)).2 []
  | [] => claimed
  end.

Definition relayed : System :=
  mkSystem (outbox_relay_tick Fixtures.cfg Fixtures.at_time (λ _, PubSent) (λ d, d) true (sys_world finished)) [].

Lemma created_reachable : reachable Fixtures.cfg created.
Proof.
  exists start. split; [done|]. eapply rtc_l; [|apply rtc_refl].
  eapply (step_create Fixtures.cfg Fixtures.request true Fixtures.submission); [vm_compute; done|].
  vm_compute. reflexivity.
Qed.

Lemma finished_after_created : rtc (sys_step Fixtures.cfg) created finished.
Proof.
  eapply (rtc_l _ created claimed).
  { eapply (step_claim Fixtures.cfg Fixtures.at_time 1700000000 None (uuid_str 1) 1). vm_compute. reflexivity. }
  eapply rtc_l; [|apply rtc_refl].
  eapply (step_settle Fixtures.cfg (Fixtures.run_env (ProcReturns [])) _ [] []). vm_compute. reflexivity.
Qed.

Lemma relayed_reachable : reachable Fixtures.cfg relayed.
Proof.
  destruct created_reachable as (s0 & Hi & Hr). exists s0. split; [done|].
  etrans; [exact Hr|]. etrans; [exact finished_after_created|]. eapply rtc_l; [|apply rtc_refl].
  exact (step_relay Fixtures.cfg Fixtures.at_time (λ _, PubSent) true finished).
Qed.

(** The job of the run in a state of it. *)
Definition job_of (s : System) : Job := default (Fixtures.row 1 FAILED) (db_jobs (sys_db s) !! 1%N).


Lemma dispatchable_jobs_submitted_witness :
  ∃ e, e ∈ db_outbox (sys_db created) ∧ ob_topic e = "job.submitted" ∧
       dget (ob_payload e) "job_id" = Some (juuid 1).
Proof.
  apply (dispatchable_jobs_submitted Fixtures.cfg created 1 (job_of created) created_reachable);
    [vm_compute; reflexivity|left; vm_compute; reflexivity].
Defined.

Lemma attempts_bounded_witness :
  (0 ≤ job_retry_count (job_of created) ≤ job_max_attempts (job_of created))%Z ∧
  (job_retry_count (job_of created) < job_max_attempts (job_of created))%Z.
Proof.
  destruct (attempts_bounded Fixtures.cfg created 1 (job_of created) created_reachable) as [Hb Hu];
    [vm_compute; reflexivity|].
  split; [exact Hb|]. apply Hu. right. left. vm_compute. reflexivity.
Defined.

(** A second job that waits for the first. *)
Definition dependent : NewJob := mkNewJob Fixtures.user Fixtures.tenant "report_gen" None None 0 None [1%N] None None.

Definition chained : System :=
  match create_job Fixtures.cfg Fixtures.request true dependent (λ d, d) (sys_db created) with
  | Ok (_, db) => sys_commit db created
  | Err _ => created
  end.

Lemma chained_reachable : reachable Fixtures.cfg chained.
Proof.
  destruct created_reachable as (s0 & Hi & Hr). exists s0. split; [done|].
  etrans; [exact Hr|]. eapply rtc_l; [|apply rtc_refl].
  eapply (step_create Fixtures.cfg Fixtures.request true dependent); [vm_compute; done|].
  vm_compute. reflexivity.
Qed.

Lemma dependencies_acyclic_witness :
  db_deps (sys_db chained) = [mkDep 3 1] ∧ ¬ tc (edge (sys_db chained)) 1%N 1%N ∧
  is_Some (db_jobs (sys_db chained) !! 1%N).
Proof.
  destruct (dependencies_acyclic Fixtures.cfg chained chained_reachable) as [Hac Hends].
  split; [vm_compute; reflexivity|]. split; [apply Hac|]. apply (Hends 1%N 3%N).
  vm_compute. by apply list_elem_of_singleton.
Defined.

Lemma published_rows_in_log_witness :
  ∃ e, db_outbox (sys_db relayed) !! 0%nat = Some e ∧
       mkMessage (ob_topic e) (ob_key e) (ob_payload e) ∈ w_log (sys_world relayed).
Proof.
  exists (default (mkOutbox 0 0 "" "" [] 0 0 None None None) (db_outbox (sys_db relayed) !! 0%nat)).
  split; [vm_compute; reflexivity|].
  apply (published_rows_in_log Fixtures.cfg relayed _ relayed_reachable).
  - apply (list_elem_of_lookup_2 _ 0). vm_compute. reflexivity.
  - vm_compute. discriminate.
  - vm_compute. reflexivity.
Defined.

Lemma history_is_kept_witness :
  ∃ j', db_jobs (sys_db finished) !! 1%N = Some j' ∧ same_identity (job_of created) j'.
Proof.
  apply (proj1 (history_is_kept Fixtures.cfg created finished created_reachable finished_after_created)).
  vm_compute. reflexivity.
Defined.

(** Two submissions under one key: the second finds the first. *)
Definition keyed : NewJob := mkNewJob Fixtures.user Fixtures.tenant "csv_upload" None (Some "k") 0 None [] None None.

Definition keyed_once : System :=
  match create_job Fixtures.cfg Fixtures.request true keyed (λ d, d) empty_db with
  | Ok (_, db) => sys_commit db start
  | Err _ => start
  end.

Lemma keyed_reachable : reachable Fixtures.cfg keyed_once.
Proof.
  exists start. split; [done|]. eapply rtc_l; [|apply rtc_refl].
  eapply (step_create Fixtures.cfg Fixtures.request true keyed); [vm_compute; done|].
  vm_compute. reflexivity.
Qed.

Lemma idempotency_keys_unique_witness :
  job_idempotency_key (job_of keyed_once) = Some "k" ∧ (1 = 1)%N.
Proof.
  split; [vm_compute; reflexivity|].
  apply (idempotency_keys_unique Fixtures.cfg keyed_once 1 1 (job_of keyed_once) (job_of keyed_once) "k"
           keyed_reachable); vm_compute; reflexivity.
Defined.
End SystemProps.
