(* ===== verification/RepoProps.v ===== *)
(** * Properties of the job repository

    [update_status], its guard and the dependency cascade, and the compare-and-set
    writes the workers race on. *)
From stdpp Require Import base tactics numbers option list gmap strings sorting.
From Stdlib Require Import QArith.
From S2P Require Import Prelude PyData Models Database JobEvents JobRepo Cascade Fixtures.

Section Props.
Context `{SqlOrder, UuidSource} (cfg : Settings).

(** A write of COMPLETED, DEAD_LETTER or CANCELLED that finds its row queues, in
    the same transaction, exactly the row's own event followed by one
    [job.cancelled] event per job the cascade cancelled; every other job, every
    dependency, saga and audit row is untouched. *)
Theorem terminal_write_announces now i status extra msg guard db j :
  keys_ok db → Forall keeps_status extra → emits_terminal_event status = true →
  db_jobs db !! i = Some j → default no_guard guard j = true →
  let '(out, db') := update_status cfg now i status extra msg guard db in
  ∃ j' rows,
    out = Some j' ∧ db_jobs db' !! i = Some j' ∧ job_status j' = status ∧ same_identity j j' ∧
    NoDup (job_id <$> rows) ∧
    (∀ r, r ∈ rows → job_id r ≠ i ∧ db_jobs db' !! job_id r = Some r ∧ job_status r = CANCELLED) ∧
    (∀ k, k ≠ i → k ∉ job_id <$> rows → db_jobs db' !! k = db_jobs db !! k) ∧
    queued db db' ((terminal_event_topic cfg status, partition_key (job_tenant_id j) (job_user_id j),
                    terminal_event_payload j' status msg) :: (cancelled_content cfg <$> rows)) ∧
    db_deps db' = db_deps db ∧ db_sagas db' = db_sagas db ∧ db_audit db' = db_audit db.
Proof.
  intros Hk He Hem Hj Hg.
  destruct (update_status_hit cfg now i status extra msg guard db j Hk He Hj Hg)
    as (Hout & gone & [Wd Wa Ws Wself Wgone Wother _ (rows & Hnd & Hrows & Hrow & Hq)] & _).
  destruct (update_status cfg now i status extra msg guard db) as [out db']. cbn [fst snd] in *.
  pose proof (written_row_identity now status extra j) as Hid.
  set (j' := written_row now status extra j) in *. exists j', rows.
  split_and!; try done.
  - by apply written_row_status.
  - intros r Hr. assert (Hin : job_id r ∈ gone) by (apply Hrows, list_elem_of_fmap; eauto).
    destruct (Wgone _ Hin) as (Hne & _ & Hc). rewrite (Hrow r Hr) in Hc. symmetry in Hc.
    apply fmap_Some in Hc as (x & _ & Hx). split_and!; [done|by apply Hrow|]. by rewrite Hx.
  - intros k Hne Hkn. apply Wother; [done|]. by rewrite Hrows.
  - unfold terminal_content in Hq. rewrite Hem in Hq. unfold same_identity in Hid.
    destruct Hid as (_ & Et & Eu & _). by rewrite Et, Eu in Hq.
Qed.

(** C10: The cascade of a dead-lettered or cancelled job cancels exactly the WAITING
    jobs outside sagas that it reaches through WAITING jobs in at most 50
    dependency steps, and stamps each with the reason and its end time. *)
Theorem cascade_exact now parent status db :
  keys_ok db → cascade_source status = true → ¬ blocked db parent →
  let '(n, db') := cascade_cancel_blocked_children cfg now parent status db in
  ∃ gone : gset uuid,
    n = size gone ∧
    (∀ k, k ∈ gone ↔ ∃ d, (1 ≤ d ≤ CASCADE_MAX_DEPTH)%nat ∧ chain db parent d k) ∧
    (∀ k, db_jobs db' !! k =
       if bool_decide (k ∈ gone)
       then apply_sets (touch now (cancel_sets now (cascade_reason parent status))) <$> db_jobs db !! k
       else db_jobs db !! k).
Proof.
  intros Hk Hs Hb. destruct (cascade_spec cfg now parent status db Hk Hb) as (gone & Hst & Hn & Hsound & Hcompl).
  destruct (cascade_cancel_blocked_children cfg now parent status db) as [n db']. cbn in *.
  exists gone. split_and!; [done| |].
  - intros k. split; [apply Hsound|]. intros (d & Hd & Hc). eapply Hcompl; [exact Hc|lia].
  - destruct Hst as (_ & _ & _ & Hjobs & _). exact Hjobs.
Qed.

(** A guarded write whose guard does not hold on the current row, or whose row is
    missing, changes nothing and reports the refusal: no status, no event, no
    cascade. *)
Theorem guarded_write_refused now i status extra msg guard db :
  (∀ j, db_jobs db !! i = Some j → guard j = false) →
  update_status cfg now i status extra msg (Some guard) db = (None, db).
Proof. intros Hg. by apply update_status_miss. Qed.

(** Of two deliveries of one job only one is claimed: whatever happens in between
    that leaves the job's status alone, the second claim fails and writes
    nothing. *)
Theorem claim_exclusive now1 now2 i db (between : DB → DB) :
  (∀ d k, job_status <$> db_jobs (between d) !! k = job_status <$> db_jobs d !! k) →
  let '(first, db1) := claim_for_running now1 i db in
  first = true → claim_for_running now2 i (between db1) = (false, between db1).
Proof.
  intros Hb. unfold claim_for_running, update_job.
  destruct (db_jobs db !! i) as [j|] eqn:Ej; [|done]. case_bool_decide as Hs; [|done]. intros _.
  pose proof (Hb (with_jobs (<[i := apply_sets (touch now1 [SetStatus RUNNING; SetStartedAt (Some now1)]) j]>
                   (db_jobs db)) db) i) as E.
  cbn [with_jobs db_jobs] in E. rewrite lookup_insert_eq in E.
  set (d := between _) in *. destruct (db_jobs d !! i) as [x|]; [|done].
  cbn in E. injection E as E. by rewrite bool_decide_false by (rewrite E; done).
Qed.
End Props.

(** *** Worked examples *)

(** Job 1 fails; jobs 2 and 3 wait below it. *)
Definition ex_db : DB := Fixtures.chain_db RUNNING 2.

Lemma db_of_keys jobs deps : keys_ok (Fixtures.db_of jobs deps).
Proof.
  intros i j Hj. cbn in Hj. apply elem_of_list_to_map_2 in Hj.
  apply list_elem_of_fmap in Hj as (x & E & _). by simplify_eq.
Qed.

Lemma terminal_write_announces_witness :
  let '(out, db') := update_status Fixtures.cfg 5 1 DEAD_LETTER [SetErrorMessage (Some "boom")] None None ex_db in
  ∃ j' rows, out = Some j' ∧ job_status j' = DEAD_LETTER ∧
    (∀ r, r ∈ rows → job_status r = CANCELLED) ∧
    queued ex_db db' ((terminal_event_topic Fixtures.cfg DEAD_LETTER,
                       partition_key Fixtures.tenant Fixtures.user,
                       terminal_event_payload j' DEAD_LETTER None) :: (cancelled_content Fixtures.cfg <$> rows)).
Proof.
  pose proof (terminal_write_announces Fixtures.cfg 5 1 DEAD_LETTER [SetErrorMessage (Some "boom")] None None
                ex_db (Fixtures.row 1 RUNNING) (db_of_keys _ _)) as Hw.
  destruct (update_status Fixtures.cfg 5 1 DEAD_LETTER _ None None ex_db) as [out db'].
  destruct Hw as (j' & rows & ? & _ & ? & _ & _ & Hc & _ & Hq & _);
    [by repeat constructor|done|vm_compute; reflexivity|done|].
  exists j', rows. split_and!; [done|done|by intros r Hr; apply Hc|exact Hq].
Defined.

Lemma cascade_exact_witness :
  ∃ gone : gset uuid,
    (cascade_cancel_blocked_children Fixtures.cfg 5 1 DEAD_LETTER (Fixtures.chain_db DEAD_LETTER 2)).1 = size gone ∧
    (∀ k, k ∈ gone ↔ ∃ d, (1 ≤ d ≤ CASCADE_MAX_DEPTH)%nat ∧ chain (Fixtures.chain_db DEAD_LETTER 2) 1 d k).
Proof.
  pose proof (cascade_exact Fixtures.cfg 5 1 DEAD_LETTER (Fixtures.chain_db DEAD_LETTER 2)
                (db_of_keys _ _) eq_refl) as Hc.
  destruct (cascade_cancel_blocked_children _ _ _ _ _) as [n db'].
  destruct Hc as (gone & ? & ? & _).
  { intros (j & Hj & Hb). vm_compute in Hj. injection Hj as <-. by vm_compute in Hb. }
  by exists gone.
Defined.

Lemma guarded_write_refused_witness :
  update_status Fixtures.cfg 5 1 DEAD_LETTER [] None
    (Some (λ j, bool_decide (job_status j = RUNNING))) (Fixtures.chain_db COMPLETED 2) =
  (None, Fixtures.chain_db COMPLETED 2).
Proof.
  apply guarded_write_refused. intros j Hj.
  vm_compute in Hj. injection Hj as <-. vm_compute. reflexivity.
Defined.

Lemma claim_exclusive_witness :
  let db1 := (claim_for_running 5 1 (Fixtures.chain_db PENDING 0)).2 in
  claim_for_running 6 1 db1 = (false, db1).
Proof.
  pose proof (claim_exclusive 5 6 1 (Fixtures.chain_db PENDING 0) (λ d, d)) as Hc.
  cbv zeta. destruct (claim_for_running 5 1 (Fixtures.chain_db PENDING 0)) as [ok db1] eqn:E.
  apply Hc; [done|]. apply (f_equal fst) in E. vm_compute in E. by symmetry.
Defined.

(** The depth limit of the cascade is reachable by a legal graph: in a chain of 52
    jobs that wait for a dead-lettered one, the cascade cancels the first 50 and
    leaves the last two WAITING. *)
Theorem cascade_depth_limit_reached :
  let db' := (cascade_cancel_blocked_children Fixtures.cfg 5 1 DEAD_LETTER (Fixtures.chain_db DEAD_LETTER 52)).2 in
  (job_status <$> db_jobs db' !! 51%N = Some CANCELLED) ∧
  (job_status <$> db_jobs db' !! 52%N = Some WAITING) ∧
  (job_status <$> db_jobs db' !! 53%N = Some WAITING).
Proof. vm_compute. done. Qed.
