(* ===== verification/RunProps.v ===== *)
(** * Properties of running a job

    Retries, timeouts, pauses and the safety net of workers/dispatcher.py. *)
From stdpp Require Import base tactics numbers option list gmap strings sorting.
From Stdlib Require Import QArith.
From S2P Require Import Prelude PyData Models Database JobEvents JobRepo Cascade Redis Queue DagPause JobService World Dispatcher DbInv OpsInv Fixtures RepoProps.

Section Run.
Context `{SqlOrder, UuidSource} (cfg : Settings).

(** ** The pause probe only reads the pause flags *)

Lemma pause_key_not_delayed n : pause_key_for n ≠ DELAYED_KEY.
Proof. done. Qed.

Lemma collect_ancestors_deps db db' i :
  db_deps db' = db_deps db → collect_ancestors db' i = collect_ancestors db i.
Proof.
  intros E.
  assert (Hp : ∀ x, dep_parents x db' = dep_parents x db) by (intros x; unfold dep_parents; by rewrite E).
  assert (Hl : ∀ f fr seen acc, ancestors_loop f db' fr seen acc = ancestors_loop f db fr seen acc).
  { induction f as [|f IH]; intros fr seen acc; [done|]. cbn [ancestors_loop]. destruct fr as [|n fr]; [done|].
    rewrite Hp. case_match; [done|]. case_bool_decide; apply IH. }
  unfold collect_ancestors. by rewrite E, Hl.
Qed.

Lemma find_blocking_pause_ext t r r' db db' i :
  db_deps db' = db_deps db →
  (∀ k, k ≠ DELAYED_KEY → live t r' k = live t r k) →
  find_blocking_pause t (Some r') db' i = find_blocking_pause t (Some r) db i.
Proof.
  intros Hd Hl. unfold find_blocking_pause. cbv zeta. rewrite (collect_ancestors_deps db db' i Hd).
  assert (Hm : r_mget t (pause_key_for <$> collect_ancestors db i) r' =
               r_mget t (pause_key_for <$> collect_ancestors db i) r); [|by rewrite Hm].
  unfold r_mget. apply list_fmap_ext. intros k key Hk. apply list_elem_of_lookup_2, list_elem_of_fmap in Hk as (n & -> & _).
  unfold r_get. by rewrite Hl.
Qed.

(** What a guarded push leaves alone in Redis. *)
Lemma push_guarded_other ok t i d w t' k :
  k ≠ DELAYED_KEY → live t' (w_redis (push_guarded ok t i d w)) k = live t' (w_redis w) k.
Proof.
  intros Hk. unfold push_guarded, redis_call. destruct ok; [|done].
  destruct (r_zset t DELAYED_KEY (w_redis w)) as [m|e] eqn:Em.
  - destruct (push_delayed_spec t i d (w_redis w) m Em) as (r' & Hr & _ & Hlive). rewrite Hr. cbn. by apply Hlive.
  - unfold push_delayed, r_zadd. by rewrite Em.
Qed.

Lemma with_db_same w : with_db (w_db w) w = w.
Proof. by destruct w. Qed.

(** ** One failing run *)

(** The environment of a run in which every call succeeds, nothing else happens and
    the processor raises [m]. *)
Definition failing (env : RunEnv) (m : string) : Prop :=
  re_claim_commits env = true ∧ re_settle env = TxCommits ∧ (∀ w, re_meanwhile env w = w) ∧
  (∀ ty p, re_proc env ty p = ProcRaises m).

(** A job that is ready to run, with [n] failed runs behind it. *)
Definition ready (env : RunEnv) (i : uuid) (j : Job) (n : Z) (w : World) : Prop :=
  keys_ok (w_db w) ∧
  find_blocking_pause (re_claim_time env) (redis_view (re_lookup_ok env) w) (w_db w) i = None ∧
  ∃ jn, db_jobs (w_db w) !! i = Some jn ∧ same_identity j jn ∧ job_status jn = PENDING ∧ job_retry_count jn = n.

Lemma claim_ready_job env str i j n w :
  ready env i j n w →
  ∃ jn db, run_job_claim (re_claim_now env) (re_claim_time env) (redis_view (re_lookup_ok env) w) str i (w_db w)
             = (Claimed (execution_of str jn), db) ∧
    same_identity j jn ∧ job_retry_count jn = n ∧ job_id jn = i ∧ keys_ok db ∧ db_deps db = db_deps (w_db w) ∧
    ∃ jr, db_jobs db !! i = Some jr ∧ same_identity jn jr.
Proof.
  intros (Hk & Hp & jn & Hj & Hid & Hs & Hr). unfold run_job_claim, get_by_id. rewrite Hj, Hp.
  rewrite bool_decide_false by (rewrite Hs; tauto).
  unfold claim_for_running, update_job. rewrite Hj, bool_decide_true by done.
  do 2 eexists. split; [done|]. split_and!; [done|done|by apply Hk| |done|].
  - intros k x Hx. cbn [with_jobs db_jobs] in Hx. destruct (decide (k = i)) as [->|Hne].
    + rewrite lookup_insert_eq in Hx. injection Hx as <-. exact (Hk i jn Hj).
    + rewrite lookup_insert_ne in Hx by done. by apply Hk.
  - eexists. cbn [with_jobs db_jobs]. split; [apply lookup_insert_eq|]. apply apply_sets_identity.
Qed.

Lemma failing_run_retries env m str i j n w :
  failing env m → llm_retry_policy_enabled cfg = false → uuid_parse str = Some i →
  is_Some (job_type_of_string (job_type j)) → ready env i j n w → (n + 1 < job_max_attempts j)%Z →
  ready env i j (n + 1) (run_job cfg env str w).2.
Proof.
  intros (Hcc & Hst & Hmw & Hproc) Hllm Hstr [ty Hty] Hready Hlt.
  destruct (claim_ready_job env str i j n w Hready) as (jn & db & Hclaim & Hid & Hr & Hji & Hk & Hd & jr & Hjr & Hidr).
  unfold run_job. rewrite Hstr, Hcc. cbn [negb]. rewrite Hclaim, Hmw. unfold settle.
  assert (Hfacts : job_type jn = job_type j ∧ job_max_attempts jn = job_max_attempts j).
  { unfold same_identity in Hid. tauto. }
  destruct Hfacts as [Ety Emax]. cbn [ex_type execution_of ex_retry_count ex_max_attempts]. rewrite Ety, Hty, Hproc.
  cbn [execute_processor]. rewrite Hr, Emax.
  unfold will_retry, retry_plan, consult_policy. rewrite Hllm, andb_false_r. cbn [andb rp_llm_dead_lettered negb].
  replace (n + 1 <? job_max_attempts j)%Z with true by lia. cbn [andb]. rewrite Hst. cbn [commit_tx snd].
  set (plan := mkPlan _ _ _). unfold settle_retry.
  pose proof (update_status_row cfg (re_settle_now env) i PENDING
    [SetRetryCount (ex_retry_count (execution_of str jn) + 1); SetErrorMessage (Some m)] None None db jr Hk
    ltac:(by repeat constructor) Hjr eq_refl) as (Hrow & Hk' & Hd' & _).
  cbn [ex_job execution_of]. rewrite Hji. cbn [w_db with_db].
  destruct (update_status _ _ _ _ _ _ _ _) as [u db2]. cbn [snd] in *.
  destruct Hready as (_ & Hpause & _).
  set (w' := push_guarded _ _ _ _ _).
  assert (Hw' : w_db w' = outbox_add (re_settle_now env) (ex_tenant (execution_of str jn))
    (kafka_topic_job_failed cfg) (partition_key (ex_tenant (execution_of str jn)) (ex_user (execution_of str jn)))
    (job_failed_payload (execution_of str jn) m plan (ex_retry_count (execution_of str jn) + 1)) db2).
  { unfold w'. by rewrite push_guarded_db. }
  unfold ready. rewrite Hw'. split_and!; [exact Hk'| |].
  - unfold redis_view in *. destruct (re_lookup_ok env).
    + rewrite <- Hpause. apply find_blocking_pause_ext; [cbn; by rewrite Hd', Hd|].
      intros k Hne. unfold w'. by rewrite push_guarded_other.
    + unfold find_blocking_pause in *. done.
  - eexists. split; [exact Hrow|]. split_and!.
    + etrans; [exact Hid|]. etrans; [exact Hidr|]. apply written_row_identity.
    + apply written_row_status. by repeat constructor.
    + rewrite written_counter by (by repeat constructor). cbn. lia.
Qed.

(** A job that is over: every further run leaves the world alone. *)
Definition dead (i : uuid) (j : Job) (n : Z) (w : World) : Prop :=
  ∃ jn, db_jobs (w_db w) !! i = Some jn ∧ same_identity j jn ∧ job_status jn = DEAD_LETTER ∧ job_retry_count jn = n.

Lemma failing_run_exhausts env m str i j n w :
  failing env m → llm_retry_policy_enabled cfg = false → uuid_parse str = Some i →
  is_Some (job_type_of_string (job_type j)) → ready env i j n w → (job_max_attempts j ≤ n + 1)%Z →
  dead i j (n + 1) (run_job cfg env str w).2.
Proof.
  intros (Hcc & Hst & Hmw & Hproc) Hllm Hstr [ty Hty] Hready Hge.
  destruct (claim_ready_job env str i j n w Hready) as (jn & db & Hclaim & Hid & Hr & Hji & Hk & Hd & jr & Hjr & Hidr).
  unfold run_job. rewrite Hstr, Hcc. cbn [negb]. rewrite Hclaim, Hmw. unfold settle.
  assert (Hfacts : job_type jn = job_type j ∧ job_max_attempts jn = job_max_attempts j).
  { unfold same_identity in Hid. tauto. }
  destruct Hfacts as [Ety Emax]. cbn [ex_type execution_of ex_retry_count ex_max_attempts]. rewrite Ety, Hty, Hproc.
  cbn [execute_processor]. rewrite Hr, Emax. unfold will_retry.
  replace (n + 1 <? job_max_attempts j)%Z with false by lia. cbn [andb]. rewrite Hst. cbn [commit_tx snd].
  set (plan := retry_plan _ _ _ _). unfold settle_exhausted. cbn [ex_job execution_of]. rewrite Hji.
  match goal with |- context [update_status ?c ?nw ?k ?st ?e ?msg ?g ?d] =>
    pose proof (update_status_row c nw k st e msg g db jr Hk) as Hrow end.
  destruct Hrow as (Hrow & _); [destruct (rp_llm_dead_lettered plan); by repeat constructor|done|done|].
  cbn [w_db with_db]. destruct (update_status _ _ _ _ _ _ _ _) as [u db2]. cbn [snd] in Hrow.
  eexists. split; [exact Hrow|]. split_and!.
  - etrans; [exact Hid|]. etrans; [exact Hidr|]. apply written_row_identity.
  - apply written_row_status. destruct (rp_llm_dead_lettered plan); by repeat constructor.
  - cbn [app]. rewrite written_counter; [cbn; lia|].
    destruct (rp_llm_dead_lettered plan); by repeat constructor.
Qed.

Lemma run_job_not_pending env str i j w :
  uuid_parse str = Some i → re_claim_commits env = true →
  db_jobs (w_db w) !! i = Some j → job_status j ≠ PENDING →
  run_job cfg env str w = (Ok tt, w).
Proof.
  intros Hstr Hcc Hj Hs. unfold run_job, run_job_claim, get_by_id. rewrite Hstr, Hcc, Hj.
  cbn [negb]. rewrite bool_decide_true by done. by rewrite with_db_same.
Qed.

Lemma retry_budget_runs env m str i j w :
  failing env m → llm_retry_policy_enabled cfg = false → uuid_parse str = Some i →
  is_Some (job_type_of_string (job_type j)) → ready env i j 0 w →
  let after k := Nat.iter k (λ w, (run_job cfg env str w).2) w in
  (∀ k, Z.of_nat k < job_max_attempts j → ready env i j (Z.of_nat k) (after k))%Z ∧
  (1 ≤ job_max_attempts j → ∀ k, job_max_attempts j ≤ Z.of_nat k → dead i j (job_max_attempts j) (after k))%Z.
Proof.
  intros Hf Hllm Hstr Hty Hready after.
  assert (Hpend : ∀ k, (Z.of_nat k < job_max_attempts j)%Z → ready env i j (Z.of_nat k) (after k)).
  { induction k as [|k IH]; intros Hk; [exact Hready|]. rewrite Nat2Z.inj_succ. cbn [after Nat.iter].
    replace (Z.succ (Z.of_nat k)) with (Z.of_nat k + 1)%Z by lia.
    apply (failing_run_retries env m); try done; [|lia]. apply IH. lia. }
  split; [done|]. intros Hpos k Hk.
  remember (Z.to_nat (job_max_attempts j)) as M eqn:EM.
  assert (Hsplit : ∃ x, k = (x + M)%nat) by (exists (k - M)%nat; lia).
  destruct Hsplit as [x ->]. clear Hk. induction x as [|x IH].
  - destruct M as [|M]; [lia|]. cbn [Nat.add]. unfold after. cbn [Nat.iter]. fold (after M).
    replace (job_max_attempts j) with (Z.of_nat M + 1)%Z by lia.
    apply (failing_run_exhausts env m); try done; [|lia]. apply Hpend. lia.
  - change (dead i j (job_max_attempts j) (run_job cfg env str (after (x + M)%nat)).2).
    assert (Hdead := IH). destruct IH as (jn & Hj & Hid & Hs & Hr).
    rewrite (run_job_not_pending env str i jn); [done|done|by destruct Hf|done|by rewrite Hs].
Qed.

(** ** The row a settlement leaves *)

(** A transaction that wrote the status [st] of job [i] once. *)
Definition settles_to (i : uuid) (st : JobStatus) (db db' : DB) : Prop :=
  keys_ok db' ∧ ∃ j j', db_jobs db !! i = Some j ∧ db_jobs db' !! i = Some j' ∧ same_identity j j' ∧ job_status j' = st.

Lemma write_settles now i st extra msg guard db j (k : DB → DB) :
  keys_ok db → Forall keeps_status extra → db_jobs db !! i = Some j → default no_guard guard j = true →
  (∀ d, db_jobs (k d) = db_jobs d) →
  settles_to i st db (let '(_, d) := update_status cfg now i st extra msg guard db in k d).
Proof.
  intros Hk He Hj Hg Hkd.
  destruct (update_status_row cfg now i st extra msg guard db j Hk He Hj Hg) as (Hrow & Hk' & _).
  destruct (update_status cfg now i st extra msg guard db) as [u d]. cbn [snd] in *. split.
  - intros x y. rewrite Hkd. apply Hk'.
  - exists j. eexists. rewrite Hkd. split_and!; [done|exact Hrow|apply written_row_identity|by apply written_row_status].
Qed.

(** The statuses a settlement can write. *)
Lemma settle_settles env ex w j :
  keys_ok (w_db w) → db_jobs (w_db w) !! ex_job ex = Some j →
  ∃ f after, settle cfg env ex w = commit_tx (re_settle env) f after w ∧
    (∀ w', w_db (after w') = w_db w') ∧
    ∃ st, st ≠ RUNNING ∧ settles_to (ex_job ex) st (w_db w) (f (w_db w)).
Proof.
  intros Hk Hj. unfold settle. cbv zeta. destruct (job_type_of_string (ex_type ex)) as [ty|].
  2:{ do 2 eexists. split; [reflexivity|]. split; [done|]. exists DEAD_LETTER. split; [done|].
      eapply write_settles; [done|by repeat constructor|done|done|done]. }
  destruct (execute_processor _ _) as [r|m|m].
  - do 2 eexists. split; [reflexivity|]. split; [done|]. exists COMPLETED. split; [done|].
    eapply write_settles; [done|by repeat constructor|done|done|done].
  - do 2 eexists. split; [reflexivity|]. split; [done|]. exists DEAD_LETTER. split; [done|].
    eapply write_settles; [done|by repeat constructor|done|done|done].
  - destruct (will_retry _ _ _).
    + do 2 eexists. split; [reflexivity|]. split; [intros; apply push_guarded_db|]. exists PENDING. split; [done|].
      eapply write_settles; [done|by repeat constructor|done|done|done].
    + do 2 eexists. split; [reflexivity|]. split; [done|]. exists DEAD_LETTER. split; [done|].
      eapply write_settles; [done| |done|done|done].
      destruct (rp_llm_dead_lettered _); by repeat constructor.
Qed.

(** The net on a database that holds the job. *)
Lemma force_dead_letter_status now str i e db j :
  keys_ok db → uuid_parse str = Some i → db_jobs db !! i = Some j →
  ∃ j', db_jobs (force_dead_letter cfg now str e db) !! i = Some j' ∧
        job_status j' = if is_terminal (job_status j) then job_status j else DEAD_LETTER.
Proof.
  intros Hk Hstr Hj. unfold force_dead_letter, get_by_id. rewrite Hstr, Hj.
  destruct (is_terminal (job_status j)); [by exists j|].
  destruct (write_settles now i DEAD_LETTER [SetErrorMessage (Some ("Dispatcher escape: " +:+ e))] None None db j
    (dead_letter_audit now (job_tenant_id j) i [("error", JStr e); ("reason", JStr "dispatcher_escape")]))
    as [_ (_ & j' & _ & Hj' & _ & Hs)]; [done|by repeat constructor|done|done|done|]. by exists j'.
Qed.

Lemma claim_outcomes now t redis str i db out db' j :
  keys_ok db → db_jobs db !! i = Some j → run_job_claim now t redis str i db = (out, db') →
  (db' = db ∧ match out with Claimed _ => False | ClaimHeld _ => job_status j = PENDING
              | ClaimNotPending => job_status j ≠ PENDING | ClaimNotFound | ClaimLost => False end) ∨
  (∃ j', out = Claimed (execution_of str j) ∧ job_id j = i ∧ keys_ok db' ∧ db_jobs db' !! i = Some j' ∧
         same_identity j j').
Proof.
  intros Hk Hj Hc. unfold run_job_claim, get_by_id in Hc. rewrite Hj in Hc.
  case_bool_decide as Hs; [left; by injection Hc as <- <-|].
  destruct (find_blocking_pause _ _ _ _); [left; by injection Hc as <- <-|].
  unfold claim_for_running, update_job in Hc. rewrite Hj, bool_decide_true in Hc by done.
  injection Hc as <- <-. right. eexists. split; [done|]. split; [by apply Hk|].
  cbn [with_jobs db_jobs]. split; [|split]; [|apply lookup_insert_eq|by repeat split].
  intros x y Hx. cbn [with_jobs db_jobs] in Hx. destruct (decide (x = i)) as [->|Hne].
  - rewrite lookup_insert_eq in Hx. injection Hx as <-. exact (Hk i j Hj).
  - rewrite lookup_insert_ne in Hx by done. by apply Hk.
Qed.

Lemma run_and_release_status env str i w j :
  uuid_parse str = Some i → (∀ w, re_meanwhile env w = w) → keys_ok (w_db w) →
  db_jobs (w_db w) !! i = Some j → job_status j = PENDING →
  ∃ j', db_jobs (w_db (run_and_release cfg env true str w)) !! i = Some j' ∧ job_status j' ≠ RUNNING.
Proof.
  intros Hstr Hmw Hk Hj Hs.
  assert (Hnet : ∀ w' x e, keys_ok (w_db w') → db_jobs (w_db w') !! i = Some x →
    ∃ j', db_jobs (w_db (with_db (force_dead_letter cfg (re_settle_now env) str e (w_db w')) w')) !! i = Some j' ∧
          job_status j' ≠ RUNNING).
  { intros w' x e Hk' Hx. destruct (force_dead_letter_status (re_settle_now env) str i e (w_db w') x Hk' Hstr Hx)
      as (j' & Hj' & Hs'). exists j'. split; [done|]. rewrite Hs'. by destruct (job_status x). }
  unfold run_and_release, run_job. rewrite Hstr. destruct (re_claim_commits env); [cbn [negb]|by eapply Hnet].
  destruct (run_job_claim _ _ _ _ _ _) as [out db1] eqn:Ec.
  destruct (claim_outcomes _ _ _ _ _ _ _ _ _ Hk Hj Ec) as [[-> Hout]|(j1 & -> & Hid & Hk1 & Hj1 & Hsame)].
  - destruct out; try done. rewrite with_db_same.
    exists j. rewrite push_guarded_db. split; [done|]. by rewrite Hs.
  - rewrite Hmw. destruct (settle_settles env (execution_of str j) (with_db db1 w) j1) as (f & after & -> & Haft & st & Hst & Hset).
    { exact Hk1. } { cbn. by rewrite Hid. }
    cbn [ex_job execution_of w_db with_db] in Hset. rewrite Hid in Hset.
    destruct Hset as [Hkf (_ & j2 & _ & Hj2 & _ & Hs2)].
    destruct (re_settle env); cbn [commit_tx].
    + exists j2. rewrite Haft. split; [exact Hj2|]. by rewrite Hs2.
    + by eapply Hnet.
    + by eapply Hnet.
Qed.

(** ** Properties *)


(** A retry survives a Redis outage: when the processor raises with attempts left,
    the job ends PENDING with the attempt counted whether or not the delayed push
    reached Redis, and the safety net leaves it alone. *)
Theorem retry_survives_push_failure env net m str i j n w :
  failing env m → llm_retry_policy_enabled cfg = false → uuid_parse str = Some i →
  is_Some (job_type_of_string (job_type j)) → ready env i j n w → (n + 1 < job_max_attempts j)%Z →
  ∃ j', db_jobs (w_db (run_and_release cfg env net str w)) !! i = Some j' ∧
        job_status j' = PENDING ∧ job_retry_count j' = (n + 1)%Z.
Proof.
  intros Hf Hllm Hstr Hty Hready Hlt.
  pose proof (failing_run_retries env m str i j n w Hf Hllm Hstr Hty Hready Hlt) as (_ & _ & jn & Hj & _ & Hs & Hn).
  destruct Hf as (Hcc & Hst & Hmw & Hproc).
  assert (Hok : (run_job cfg env str w).1 = Ok tt).
  { destruct (claim_ready_job env str i j n w Hready) as (j1 & db & Hc & _).
    unfold run_job. rewrite Hstr, Hcc. cbn [negb]. rewrite Hc, Hmw. unfold settle. rewrite Hst.
    cbn [commit_tx]. by repeat case_match. }
  unfold run_and_release. destruct (run_job cfg env str w) as [[[]|e] w']; [|done]. by exists jn.
Qed.

(** C5: No job is left RUNNING by a worker that stays up: whatever fails in the claim,
    the processor, the settling transaction or after it, once [_run_and_release] is
    through (its net's own write succeeding) the job is in another state. *)
Theorem job_never_left_running env str i w j :
  uuid_parse str = Some i → (∀ w, re_meanwhile env w = w) → keys_ok (w_db w) →
  db_jobs (w_db w) !! i = Some j → job_status j = PENDING →
  ∃ j', db_jobs (w_db (run_and_release cfg env true str w)) !! i = Some j' ∧ job_status j' ≠ RUNNING.
Proof. apply run_and_release_status. Qed.

(** The net never overwrites a settled job: on a job in a terminal status
    [_force_dead_letter] changes nothing, otherwise it dead-letters it. *)
Theorem net_respects_terminal now str i e db j :
  keys_ok db → uuid_parse str = Some i → db_jobs db !! i = Some j →
  (is_terminal (job_status j) = true → force_dead_letter cfg now str e db = db) ∧
  (is_terminal (job_status j) = false →
   ∃ j', db_jobs (force_dead_letter cfg now str e db) !! i = Some j' ∧ job_status j' = DEAD_LETTER).
Proof.
  intros Hk Hstr Hj. split.
  - intros Ht. unfold force_dead_letter, get_by_id. by rewrite Hstr, Hj, Ht.
  - intros Ht. destruct (force_dead_letter_status now str i e db j Hk Hstr Hj) as (j' & Hj' & Hs).
    rewrite Ht in Hs. by exists j'.
Qed.

(** A paused DAG holds a dispatch without losing it: a PENDING job whose chain is
    paused is not claimed, the database is unchanged, and the id is back on the
    delayed set, due in ten seconds. *)
Theorem paused_job_is_requeued env str i w j p m :
  uuid_parse str = Some i → re_claim_commits env = true → re_push_ok env = true →
  db_jobs (w_db w) !! i = Some j → job_status j = PENDING →
  find_blocking_pause (re_claim_time env) (redis_view (re_lookup_ok env) w) (w_db w) i = Some p →
  r_zset (re_claim_time env) DELAYED_KEY (w_redis w) = Ok m →
  let '(out, w') := run_job cfg env str w in
  out = Ok tt ∧ w_db w' = w_db w ∧ w_log w' = w_log w ∧
  r_zset (re_claim_time env) DELAYED_KEY (w_redis w') = Ok (<[str := (re_claim_time env + PAUSE_RECHECK_SECONDS)%Q]> m).
Proof.
  intros Hstr Hcc Hpo Hj Hs Hp Hm. unfold run_job, run_job_claim, get_by_id.
  rewrite Hstr, Hcc, Hj, Hp. cbn [negb]. rewrite bool_decide_false by (rewrite Hs; tauto).
  rewrite with_db_same. unfold push_guarded, redis_call. rewrite Hpo.
  destruct (push_delayed_spec (re_claim_time env) str PAUSE_RECHECK_SECONDS (w_redis w) m Hm) as (r' & Hr & Hz & _).
  rewrite Hr. cbn. by split_and!.
Qed.

(** Only an expired deadline is a timeout, and it is terminal at once: the job is
    dead-lettered with [retry_count] as it was and attributed to
    [execution_timeout]; a [TimeoutError] of the processor itself is an ordinary
    failure. *)
Theorem deadline_breach_is_terminal now ex ts m db j :
  keys_ok db → db_jobs db !! ex_job ex = Some j →
  (∃ j', db_jobs (settle_timeout cfg now ex ts m db) !! ex_job ex = Some j' ∧
     job_status j' = DEAD_LETTER ∧ job_retry_count j' = job_retry_count j ∧
     job_dead_lettered_by j' = Some "execution_timeout") ∧
  (∀ s, execute_processor ts (ProcTimeoutError false s) = Raised s) ∧
  (∀ s, ∃ text, execute_processor ts (ProcTimeoutError true s) = DeadlineExceeded text).
Proof.
  intros Hk Hj. split; [|split; [done|by eexists]]. unfold settle_timeout.
  match goal with |- context [update_status ?c ?nw ?k ?st ?e ?msg ?g ?d] =>
    destruct (update_status_row c nw k st e msg g db j Hk ltac:(by repeat constructor) Hj eq_refl) as (Hrow & _);
    destruct (update_status c nw k st e msg g d) as [u d'] end.
  eexists. split; [exact Hrow|]. done.
Qed.
End Run.

(** *** Worked examples *)

Definition fail_env : RunEnv := Fixtures.run_env (ProcRaises "boom").
Definition one_pending : World := Fixtures.world_of (Fixtures.chain_db PENDING 0).

Lemma failing_example : failing fail_env "boom".
Proof. by repeat split. Qed.

Lemma ready_example : ready fail_env 1 (Fixtures.row 1 PENDING) 0 one_pending.
Proof.
  split; [apply db_of_keys|]. split; [vm_compute; reflexivity|].
  exists (Fixtures.row 1 PENDING). by repeat split.
Qed.


Lemma retry_survives_push_failure_witness :
  ∃ j', db_jobs (w_db (run_and_release Fixtures.cfg fail_env true (uuid_str 1) one_pending)) !! 1%N = Some j' ∧
    job_status j' = PENDING ∧ job_retry_count j' = 1%Z.
Proof.
  apply (retry_survives_push_failure Fixtures.cfg fail_env true "boom" (uuid_str 1) 1 (Fixtures.row 1 PENDING) 0
    one_pending failing_example eq_refl ltac:(vm_compute; reflexivity) ltac:(eexists; vm_compute; reflexivity)
    ready_example). vm_compute. done.
Defined.

Lemma job_never_left_running_witness :
  ∃ j', db_jobs (w_db (run_and_release Fixtures.cfg fail_env true (uuid_str 1) one_pending)) !! 1%N = Some j' ∧
    job_status j' ≠ RUNNING.
Proof.
  apply (job_never_left_running Fixtures.cfg fail_env (uuid_str 1) 1 one_pending (Fixtures.row 1 PENDING)
    ltac:(vm_compute; reflexivity) (λ _, eq_refl) (db_of_keys _ _)); vm_compute; reflexivity.
Defined.

Lemma net_respects_terminal_witness :
  force_dead_letter Fixtures.cfg 5 (uuid_str 1) "x" (Fixtures.chain_db COMPLETED 0) = Fixtures.chain_db COMPLETED 0.
Proof.
  apply (net_respects_terminal Fixtures.cfg 5 (uuid_str 1) 1 "x" (Fixtures.chain_db COMPLETED 0) (Fixtures.row 1 COMPLETED)
    (db_of_keys _ _) ltac:(vm_compute; reflexivity) ltac:(vm_compute; reflexivity)). reflexivity.
Defined.

(** The same job with its pause flag set. *)
Definition paused_world : World :=
  mkWorld (Fixtures.chain_db PENDING 0) (<[pause_key_for 1 := mkEntry (RStr "1") None]> ∅) [].

Lemma paused_job_is_requeued_witness :
  let '(out, w') := run_job Fixtures.cfg fail_env (uuid_str 1) paused_world in
  out = Ok tt ∧ w_db w' = w_db paused_world ∧ w_log w' = [] ∧
  r_zset 1700000000 DELAYED_KEY (w_redis w') =
    Ok (<[uuid_str 1 := (1700000000 + PAUSE_RECHECK_SECONDS)%Q]> ∅).
Proof.
  apply (paused_job_is_requeued Fixtures.cfg fail_env (uuid_str 1) 1 paused_world (Fixtures.row 1 PENDING) 1 ∅);
    vm_compute; reflexivity.
Defined.

Definition held_execution : Execution := execution_of (uuid_str 1) (Fixtures.row 1 RUNNING).

Lemma deadline_breach_is_terminal_witness :
  ∃ j', db_jobs (settle_timeout Fixtures.cfg 5 held_execution "300.0" "late" (Fixtures.chain_db RUNNING 0)) !! 1%N = Some j' ∧
    job_status j' = DEAD_LETTER ∧ job_retry_count j' = 0%Z ∧ job_dead_lettered_by j' = Some "execution_timeout".
Proof.
  apply (deadline_breach_is_terminal Fixtures.cfg 5 held_execution "300.0" "late" (Fixtures.chain_db RUNNING 0)
    (Fixtures.row 1 RUNNING) (db_of_keys _ _)). vm_compute. reflexivity.
Defined.
