(* ===== verification/ServiceProps.v ===== *)
(** * Properties of the job service

    Creation, idempotency, tenant scoping and replay (services/job.py). *)
From stdpp Require Import base tactics numbers option list gmap strings sorting.
From Stdlib Require Import QArith.
From S2P Require Import Prelude PyData Models Database JobEvents JobRepo Cascade Redis DagPause JobService World Dispatcher DbInv OpsInv Fixtures System RepoProps.

Section Service.
Context `{SqlOrder, UuidSource} (cfg : Settings).

(** ** The idempotency lookup *)

Lemma get_by_key_some key tenant db j :
  get_by_idempotency_key key tenant db = Some j →
  (∃ i, db_jobs db !! i = Some j) ∧ job_idempotency_key j = Some key ∧ job_tenant_id j = tenant.
Proof.
  unfold get_by_idempotency_key. intros Hh. apply head_Some_elem_of in Hh.
  apply list_elem_of_filter in Hh as [[? ?] Hin]. by apply all_jobs_elem in Hin.
Qed.

Lemma get_by_key_none key tenant db i j :
  get_by_idempotency_key key tenant db = None → db_jobs db !! i = Some j →
  job_idempotency_key j = Some key → job_tenant_id j ≠ tenant.
Proof.
  unfold get_by_idempotency_key. intros Hh Hj Hk Ht. apply head_None in Hh.
  assert (Hin : j ∈ filter (λ j, job_idempotency_key j = Some key ∧ job_tenant_id j = tenant) (all_jobs db)).
  { apply list_elem_of_filter. split; [done|]. apply all_jobs_elem. by exists i. }
  rewrite Hh in Hin. by apply not_elem_of_nil in Hin.
Qed.

(** The one holder of a key, in a well-formed database. *)
Lemma get_by_key_unique X key tenant db i j :
  wf cfg X db → db_jobs db !! i = Some j → job_idempotency_key j = Some key → job_tenant_id j = tenant →
  get_by_idempotency_key key tenant db = Some j.
Proof.
  intros Hwf Hj Hk Ht. destruct (get_by_idempotency_key key tenant db) as [x|] eqn:E.
  - apply get_by_key_some in E as ((k & Hx) & Hkx & Htx).
    assert (k = i) as -> by (apply (wf_unique _ _ _ Hwf k i x j); [done|done|];
      unfold same_idempotency_slot; rewrite Hkx, Hk; apply bool_decide_true; by split; congruence).
    congruence.
  - by destruct (get_by_key_none _ _ _ _ _ E Hj Hk).
Qed.

(** What a successful creation returns is a row of the database it leaves. *)
Lemma create_job_stored rq b a others db j db' :
  create_job cfg rq b a others db = Ok (j, db') →
  (∃ i, db_jobs db' !! i = Some j) ∧
  (∀ k, truthy_key (nj_key a) = Some k → job_idempotency_key j = Some k ∧ job_tenant_id j = nj_tenant a).
Proof.
  intros Hc. unfold create_job in Hc.
  assert (Htk : ∀ k, truthy_key (nj_key a) = Some k → nj_key a = Some k).
  { intros k. unfold truthy_key. destruct (nj_key a) as [s|]; [|done]. cbn. case_bool_decide; [done|]. done. }
  destruct (truthy_key (nj_key a) ≫= _) as [existing|] eqn:Ex.
  - injection Hc as <- <-. apply bind_Some in Ex as (k & Hk & Hg). apply get_by_key_some in Hg as (Hin & Hkey & Ht).
    split; [done|]. intros k' Hk'. rewrite Hk in Hk'. by injection Hk' as <-.
  - apply bind_ok in Hc as (ps & _ & Hc). destruct (draw_uuid (others db)) as [i db1].
    set (row := new_row cfg rq a _ i) in *. destruct (insert_job row db1) as [db2|e] eqn:Ei.
    + apply insert_job_ok in Ei as (_ & _ & ->).
      assert (Hfin : j = row ∧ db_jobs db' !! job_id row = Some row).
      { unfold finish_create in Hc. apply bind_ok in Hc as (db3 & Hd & Hc). injection Hc as <- <-. split; [done|].
        assert (Hj3 : db_jobs db3 !! job_id row = Some row).
        { destruct (nj_deps a); [injection Hd as <-; apply lookup_insert_eq|]. destruct b; [|done].
          apply bind_ok in Hd as (ds & _ & Hd). injection Hd as <-. apply lookup_insert_eq. }
        case_bool_decide; exact Hj3. }
      destruct Hfin as [-> Hj]. split; [by eexists|]. intros k Hk. split; [|done]. cbn. by apply Htk.
    + destruct (nj_key a) as [k|] eqn:Ekey; [|done].
      destruct (get_by_idempotency_key k (nj_tenant a) db1) as [winner|] eqn:Ew; [|done].
      injection Hc as <- <-. apply get_by_key_some in Ew as (Hin & Hkey & Ht). split; [done|].
      intros k' Hk'. apply Htk in Hk'. by injection Hk' as <-.
Qed.

(** ** The initial status *)

Lemma load_parents_elem deps db ps :
  load_parents deps db = Ok ps → ∀ jp, jp ∈ ps ↔ ∃ p, p ∈ deps ∧ db_jobs db !! p = Some jp.
Proof.
  revert ps. induction deps as [|d deps IH]; intros ps Hl jp; cbn in Hl.
  - injection Hl as <-. set_solver.
  - unfold get_by_id in Hl. destruct (db_jobs db !! d) as [j|] eqn:E; [|done].
    apply bind_ok in Hl as (js & Hjs & Hl). injection Hl as <-.
    rewrite elem_of_cons, (IH js Hjs). split.
    + intros [->|(p & Hp & Hj)]; [exists d; split; [left|done]|exists p; split; [by right|done]].
    + intros (p & [->|Hp]%elem_of_cons & Hj); [left; congruence|right; eauto].
Qed.

Lemma initial_status_waiting rq b deps ps db :
  load_parents deps db = Ok ps →
  (initial_status rq b deps ps db = WAITING ↔
   (∃ p jp, p ∈ deps ∧ db_jobs db !! p = Some jp ∧ job_status jp ≠ COMPLETED) ∨
   (b = true ∧ ∃ p jp q, p ∈ deps ∧ db_jobs db !! p = Some jp ∧
      find_blocking_pause (rq_time rq) (rq_redis rq) db (job_id jp) = Some q)).
Proof.
  intros Hload. pose proof (load_parents_elem deps db ps Hload) as Hps. unfold initial_status.
  destruct (existsb (λ p, bool_decide (job_status p ≠ COMPLETED)) ps) eqn:E1.
  { split; [|done]. intros _. left. apply existsb_exists in E1 as (jp & Hin & Hs).
    apply bool_decide_eq_true in Hs. apply list_elem_of_In, Hps in Hin as (p & Hp & Hj). eauto. }
  assert (Hall : ∀ p jp, p ∈ deps → db_jobs db !! p = Some jp → job_status jp = COMPLETED).
  { intros p jp Hp Hj. destruct (decide (job_status jp = COMPLETED)) as [|Hne]; [done|].
    assert (Ht : existsb (λ p, bool_decide (job_status p ≠ COMPLETED)) ps = true); [|congruence].
    apply existsb_exists. exists jp. split; [apply list_elem_of_In, Hps; eauto|]. by apply bool_decide_true. }
  set (paused := existsb _ ps).
  assert (Hpaused : paused = true ↔ ∃ p jp q, p ∈ deps ∧ db_jobs db !! p = Some jp ∧
            find_blocking_pause (rq_time rq) (rq_redis rq) db (job_id jp) = Some q).
  { unfold paused. rewrite existsb_exists. split.
    - intros (jp & Hin & Hs). apply bool_decide_eq_true in Hs as [q Hq].
      apply list_elem_of_In, Hps in Hin as (p & Hp & Hj). eauto 6.
    - intros (p & jp & q & Hp & Hj & Hq). exists jp. split; [apply list_elem_of_In, Hps; eauto|].
      apply bool_decide_true. by exists q. }
  destruct (bool_decide (deps ≠ []) && b && paused) eqn:E2.
  - split; [|done]. intros _. right. reflect_bools. split; [done|]. by apply Hpaused.
  - split; [done|]. intros [(p & jp & Hp & Hj & Hs)|(-> & Hex)]; [by destruct (Hs (Hall p jp Hp Hj))|].
    assert (Hpt : paused = true) by (by apply Hpaused). destruct Hex as (p & jp & q & Hp & _).
    rewrite Hpt, bool_decide_true in E2; [done|]. intros ->. by apply not_elem_of_nil in Hp.
Qed.

(** The writes of a creation without a key. *)
Lemma create_job_writes rq b a db j db' :
  nj_key a = None → create_job cfg rq b a (λ d, d) db = Ok (j, db') →
  db_jobs db !! job_id j = None ∧ db_jobs db' = <[job_id j := j]> (db_jobs db) ∧
  db_deps db' = db_deps db ++ (mkDep (job_id j) <$> nj_deps a) ∧
  (job_status j = WAITING ∨ job_status j = PENDING) ∧
  queued (draw_uuid db).2 db'
    (if bool_decide (job_status j = PENDING)
     then [(kafka_topic_job_submitted cfg, partition_key (nj_tenant a) (nj_user a), job_submitted_payload j)]
     else []) ∧
  (job_status j = WAITING ↔
   (∃ p jp, p ∈ nj_deps a ∧ db_jobs db !! p = Some jp ∧ job_status jp ≠ COMPLETED) ∨
   (b = true ∧ ∃ p jp q, p ∈ nj_deps a ∧ db_jobs db !! p = Some jp ∧
      find_blocking_pause (rq_time rq) (rq_redis rq) db (job_id jp) = Some q)).
Proof.
  intros Hkey Hc. unfold create_job in Hc. rewrite Hkey in Hc. cbn [truthy_key mbind option_bind] in Hc.
  apply bind_ok in Hc as (ps & Hload & Hc). destruct (draw_uuid db) as [i db1] eqn:Ed.
  set (status := initial_status rq b (nj_deps a) ps db) in *.
  set (row := new_row cfg rq a status i) in *.
  destruct (insert_job row db1) as [db2|e] eqn:Ei; [|done].
  apply insert_job_ok in Ei as (Hfresh & _ & ->).
  unfold finish_create in Hc. apply bind_ok in Hc as (db3 & Hdep & Hc). injection Hc as <- <-.
  assert (H1 : db_jobs db1 = db_jobs db ∧ db_deps db1 = db_deps db ∧ db_outbox db1 = db_outbox db) by (by injection Ed as <- <-).
  destruct H1 as (Hj1 & Hd1 & Ho1).
  assert (H3 : db_jobs db3 = <[job_id row := row]> (db_jobs db) ∧
               db_deps db3 = db_deps db ++ (mkDep (job_id row) <$> nj_deps a) ∧ db_outbox db3 = db_outbox db1 ∧
               db_draws db3 = db_draws db1).
  { destruct (nj_deps a) as [|p deps].
    - injection Hdep as <-. cbn. by rewrite Hj1, app_nil_r, Hd1.
    - destruct b; [|done]. apply bind_ok in Hdep as (ds & Hds & Hok). injection Hok as <-.
      apply dep_add_ok in Hds as (-> & _). cbn. by rewrite Hj1, Hd1. }
  destruct H3 as (Hj3 & Hd3 & Ho3 & Hdr3).
  split_and!.
  - by rewrite <- Hj1.
  - case_bool_decide; exact Hj3.
  - case_bool_decide; exact Hd3.
  - apply initial_status_cases.
  - cbn [job_status row new_row]. cbn [snd]. case_bool_decide.
    + eapply queued_frame; [..|apply (outbox_add_queued (rq_now rq) (nj_tenant a))]; [| |done|done].
      * cbn. by rewrite Ho3.
      * cbn. by rewrite Hdr3.
    + apply queued_nil; [cbn; by rewrite Ho3|cbn; by rewrite Hdr3].
  - cbn [job_status row new_row]. by apply initial_status_waiting.
Qed.

(** ** Properties *)

(** C15: Creation is idempotent: once a key has been used in a tenant, every later
    call with that key and tenant, whatever its other arguments and however much has
    happened since, returns the same job and writes nothing. *)
Theorem create_job_idempotent rq b a others db j db1 db2 rq' b' a' others' k :
  wf cfg ∅ db → wf cfg ∅ (others db) → evolves db (others db) →
  (1 ≤ default (max_job_attempts cfg) (nj_max_attempts a))%Z →
  create_job cfg rq b a others db = Ok (j, db1) →
  wf cfg ∅ db2 → keeps db1 db2 →
  truthy_key (nj_key a) = Some k → nj_key a' = nj_key a → nj_tenant a' = nj_tenant a →
  ∃ j', create_job cfg rq' b' a' others' db2 = Ok (j', db2) ∧ job_id j' = job_id j.
Proof.
  intros Hwf Hwfo Hev Hmax Hc Hwf2 Hk12 Hkey Hka Hta.
  destruct (create_job_stored _ _ _ _ _ _ _ Hc) as ((i & Hj) & Hstored).
  destruct (Hstored k Hkey) as [Hjk Hjt].
  destruct (ev_jobs _ _ Hk12 i j Hj) as (j2 & Hj2 & Hsame). unfold same_identity in Hsame.
  destruct Hsame as (Hid & Ht2 & _ & _ & Hk2 & _). exists j2. split; [|done].
  unfold create_job. rewrite Hka, Hta, Hkey. cbn [mbind option_bind].
  rewrite (get_by_key_unique ∅ k (nj_tenant a) db2 i j2); [done|done|done|congruence|congruence].
Qed.

(** The check-then-insert race resolves to the winner: when another request
    commits a job under the same key and tenant between this request's lookup and
    its INSERT, this request returns that job and adds no job, dependency, event or
    audit row. *)
Theorem create_job_race_returns_winner rq b a others db k winner i ps :
  truthy_key (nj_key a) = Some k →
  get_by_idempotency_key k (nj_tenant a) db = None →
  load_parents (nj_deps a) db = Ok ps →
  wf cfg ∅ (others db) → db_jobs (others db) !! i = Some winner →
  job_idempotency_key winner = Some k → job_tenant_id winner = nj_tenant a →
  ∃ db', create_job cfg rq b a others db = Ok (winner, db') ∧
    db_jobs db' = db_jobs (others db) ∧ db_deps db' = db_deps (others db) ∧
    db_outbox db' = db_outbox (others db) ∧ db_audit db' = db_audit (others db).
Proof.
  intros Hkey Hnone Hload Hwf Hw Hwk Hwt. unfold create_job. rewrite Hkey. cbn [mbind option_bind].
  rewrite Hnone, Hload. cbn [mbind result_mbind].
  assert (Hka : nj_key a = Some k).
  { unfold truthy_key in Hkey. destruct (nj_key a) as [s|]; [|done]. cbn in Hkey. case_bool_decide; [done|]. done. }
  destruct (draw_uuid (others db)) as [u db1] eqn:Ed. injection Ed as _ <-.
  set (row := new_row cfg rq a _ u). set (db1 := mkDB _ _ _ _ _ _).
  assert (Herr : insert_job row db1 = Err IntegrityError).
  { unfold insert_job. case_bool_decide; [done|].
    assert (Hx : existsb (same_idempotency_slot row) (map_to_list (db_jobs db1)).*2 = true); [|by rewrite Hx].
    apply existsb_exists. exists winner. split.
    - apply list_elem_of_In, list_elem_of_fmap. exists (i, winner). split; [done|]. by apply elem_of_map_to_list.
    - unfold same_idempotency_slot. cbn [row new_row job_idempotency_key job_tenant_id]. rewrite Hka, Hwk.
      by apply bool_decide_true. }
  rewrite Herr, Hka. exists db1.
  destruct (good_draw cfg ∅ (others db) Hwf) as [Hwf1 _].
  rewrite (get_by_key_unique ∅ k (nj_tenant a) db1 i winner); [|exact Hwf1|done|done|done].
  done.
Qed.

(** What a creation without a key writes: one job with a fresh id, one edge per
    declared parent, and a [job.submitted] event exactly when the job starts
    PENDING.  It starts WAITING exactly when a declared parent is not COMPLETED, or
    when all are and some parent's chain is paused. *)
Theorem create_job_effect rq b a db j db' :
  nj_key a = None → create_job cfg rq b a (λ d, d) db = Ok (j, db') →
  db_jobs db !! job_id j = None ∧ db_jobs db' = <[job_id j := j]> (db_jobs db) ∧
  db_deps db' = db_deps db ++ (mkDep (job_id j) <$> nj_deps a) ∧
  (job_status j = WAITING ∨ job_status j = PENDING) ∧
  queued (draw_uuid db).2 db'
    (if bool_decide (job_status j = PENDING)
     then [(kafka_topic_job_submitted cfg, partition_key (nj_tenant a) (nj_user a), job_submitted_payload j)]
     else []) ∧
  (job_status j = WAITING ↔
   (∃ p jp, p ∈ nj_deps a ∧ db_jobs db !! p = Some jp ∧ job_status jp ≠ COMPLETED) ∨
   (b = true ∧ ∃ p jp q, p ∈ nj_deps a ∧ db_jobs db !! p = Some jp ∧
      find_blocking_pause (rq_time rq) (rq_redis rq) db (job_id jp) = Some q)).
Proof. apply create_job_writes. Qed.

(** Reads stay in the tenant: [get_job] returns a job only of the asking tenant,
    only to its owner or to support and admin, and answers a job of another tenant
    exactly as it answers one that does not exist. *)
Theorem get_job_tenant_isolation i user role tenant db :
  (∀ j, get_job i user role tenant db = Ok j →
     db_jobs db !! i = Some j ∧ job_tenant_id j = tenant ∧ (role = USER → job_user_id j = user)) ∧
  (∀ j, db_jobs db !! i = Some j → job_tenant_id j ≠ tenant →
     get_job i user role tenant db = get_job i user role tenant (with_jobs (delete i (db_jobs db)) db)).
Proof.
  unfold get_job. split.
  - intros j Hg. destruct (get_for_tenant i tenant db) as [x|] eqn:Ex; [|done].
    apply get_for_tenant_some in Ex as [Hx Ht]. destruct (negb _ && _) eqn:Ep; [done|]. injection Hg as <-.
    split_and!; [done|done|]. intros ->. cbn in Ep. by apply bool_decide_eq_false, dec_stable in Ep.
  - intros j Hj Ht. unfold get_for_tenant. cbn [with_jobs db_jobs]. by rewrite Hj, lookup_delete_eq, bool_decide_false.
Qed.

(** Replaying a dead job starts it afresh and says so: the row returns to PENDING
    with the retry count at zero and error, result, attribution, hint and fence
    cleared; exactly one [job.submitted] event and one audit row are added. *)
Theorem replay_starts_afresh rq b i tenant who db j :
  keys_ok db → db_jobs db !! i = Some j → job_tenant_id j = tenant →
  job_status j = FAILED ∨ job_status j = DEAD_LETTER →
  find_blocking_pause (rq_time rq) (rq_redis rq) db i = None →
  ∃ j' db', replay_job cfg rq b i tenant who db = Ok (j', db', [PostCommitInvalidate i tenant]) ∧
    db_jobs db' = <[i := j']> (db_jobs db) ∧ same_identity j j' ∧ job_status j' = PENDING ∧
    job_retry_count j' = 0%Z ∧ job_error_message j' = None ∧ job_result j' = None ∧
    job_dead_lettered_by j' = None ∧ job_remediation_hint j' = None ∧
    job_fenced_at j' = None ∧ job_fenced_by j' = None ∧
    queued db db' [(kafka_topic_job_submitted cfg, partition_key tenant (job_user_id j), job_submitted_payload j)] ∧
    length (db_audit db') = S (length (db_audit db)).
Proof.
  intros Hk Hj Ht Hs Hp. unfold replay_job, get_for_tenant. rewrite Hj, bool_decide_true by done.
  replace (replayable (job_status j)) with true by (by destruct Hs as [->| ->]). cbn [negb].
  rewrite Hp. replace (if b then None else None : option uuid) with (None : option uuid) by (by destruct b).
  unfold update_status, update_job. rewrite Hj. cbn [no_guard default bool_decide negb andb].
  unfold get_by_id. cbn [with_jobs db_jobs]. rewrite lookup_insert_eq.
  cbn [emits_terminal_event cascade_source]. do 2 eexists. split; [reflexivity|].
  do 10 (split; [done|]). split.
  - rewrite <- Ht. eapply queued_frame; [..|apply (outbox_add_queued (rq_now rq) (job_tenant_id j))]; done.
  - cbn. rewrite length_app. cbn. lia.
Qed.

(** A replay is refused, with nothing written, for a job of another tenant, for a
    job that is not FAILED or DEAD_LETTER, and for a job whose DAG is paused. *)
Theorem replay_refused rq i tenant who db :
  (get_for_tenant i tenant db = None ∨
   (∃ j, get_for_tenant i tenant db = Some j ∧
      (job_status j ≠ FAILED ∧ job_status j ≠ DEAD_LETTER ∨
       is_Some (find_blocking_pause (rq_time rq) (rq_redis rq) db i)))) →
  ∃ e, replay_job cfg rq true i tenant who db = Err e.
Proof.
  unfold replay_job. intros [->|(j & -> & Hcase)]; [by eexists|].
  destruct (replayable (job_status j)) eqn:Er; cbn [negb]; [|by eexists].
  destruct Hcase as [[H1 H2]|[p Hp]]; [by destruct (job_status j)|]. rewrite Hp. by eexists.
Qed.
End Service.

(** *** Worked examples *)

Lemma keyed_wf : wf Fixtures.cfg ∅ (sys_db SystemProps.keyed_once).
Proof. exact (inv_db _ _ (reachable_inv Fixtures.cfg _ SystemProps.keyed_reachable)). Qed.

(** The first use of the key, and what it returned. *)
Definition first_use : Job := SystemProps.job_of SystemProps.keyed_once.

Lemma create_job_idempotent_witness :
  ∃ j', create_job Fixtures.cfg Fixtures.request true SystemProps.keyed (λ d, d) (sys_db SystemProps.keyed_once)
          = Ok (j', sys_db SystemProps.keyed_once) ∧ job_id j' = job_id first_use.
Proof.
  apply (create_job_idempotent Fixtures.cfg Fixtures.request true SystemProps.keyed (λ d, d) empty_db first_use
    (sys_db SystemProps.keyed_once) (sys_db SystemProps.keyed_once) Fixtures.request true SystemProps.keyed (λ d, d) "k"
    (wf_empty _) (wf_empty _) (reflexivity _)).
  - vm_compute. done.
  - vm_compute. reflexivity.
  - exact keyed_wf.
  - done.
  - vm_compute. reflexivity.
  - done.
  - done.
Defined.

Lemma create_job_race_returns_winner_witness :
  ∃ db', create_job Fixtures.cfg Fixtures.request true SystemProps.keyed
           (λ _, sys_db SystemProps.keyed_once) empty_db = Ok (first_use, db') ∧
    db_jobs db' = db_jobs (sys_db SystemProps.keyed_once) ∧
    db_deps db' = db_deps (sys_db SystemProps.keyed_once) ∧
    db_outbox db' = db_outbox (sys_db SystemProps.keyed_once) ∧
    db_audit db' = db_audit (sys_db SystemProps.keyed_once).
Proof.
  apply (create_job_race_returns_winner Fixtures.cfg Fixtures.request true SystemProps.keyed
    (λ _, sys_db SystemProps.keyed_once) empty_db "k" first_use 1 []);
    first [exact keyed_wf|vm_compute; reflexivity].
Defined.

(** A job submitted below an unfinished one. *)
Definition below_one : NewJob :=
  mkNewJob Fixtures.user Fixtures.tenant "csv_upload" None None 0 None [1%N] None None.

Definition below_result : Job * DB :=
  match create_job Fixtures.cfg Fixtures.request true below_one (λ d, d) (Fixtures.chain_db RUNNING 0) with
  | Ok r => r
  | Err _ => (Fixtures.row 1 FAILED, empty_db)
  end.

Lemma create_job_effect_witness :
  job_status below_result.1 = WAITING ∧
  db_deps below_result.2 = [mkDep (job_id below_result.1) 1].
Proof.
  assert (Hc : create_job Fixtures.cfg Fixtures.request true below_one (λ d, d) (Fixtures.chain_db RUNNING 0)
               = Ok (below_result.1, below_result.2)) by (vm_compute; reflexivity).
  destruct (create_job_effect Fixtures.cfg Fixtures.request true below_one (Fixtures.chain_db RUNNING 0)
    below_result.1 below_result.2 eq_refl Hc) as (_ & _ & Hd & _ & _ & Hw).
  split; [|exact Hd]. apply Hw. left. exists 1%N, (Fixtures.row 1 RUNNING).
  split; [apply list_elem_of_singleton; reflexivity|]. split; [vm_compute; reflexivity|discriminate].
Defined.

Lemma replay_starts_afresh_witness :
  ∃ j' db', replay_job Fixtures.cfg Fixtures.request true 1 Fixtures.tenant (mkCaller (Some Fixtures.user) "user" None)
              (Fixtures.chain_db DEAD_LETTER 0) = Ok (j', db', [PostCommitInvalidate 1 Fixtures.tenant]) ∧
    job_status j' = PENDING ∧ job_retry_count j' = 0%Z.
Proof.
  destruct (replay_starts_afresh Fixtures.cfg Fixtures.request true 1 Fixtures.tenant
    (mkCaller (Some Fixtures.user) "user" None) (Fixtures.chain_db DEAD_LETTER 0) (Fixtures.row 1 DEAD_LETTER)
    (db_of_keys _ _)) as (j' & db' & Hr & _ & _ & Hs & Hn & _);
    [vm_compute; reflexivity|reflexivity|by right|vm_compute; reflexivity|].
  exists j', db'. split; [exact Hr|]. split; assumption.
Defined.

Lemma replay_refused_witness :
  ∃ e, replay_job Fixtures.cfg Fixtures.request true 1 Fixtures.tenant (mkCaller None "user" None)
         (Fixtures.chain_db COMPLETED 0) = Err e.
Proof.
  apply replay_refused. right. exists (Fixtures.row 1 COMPLETED). split; [vm_compute; reflexivity|].
  left. split; discriminate.
Defined.

(** A submission that names one parent twice is not deduplicated: the second
    dependency row violates the primary key and the request fails with an integrity
    error although every named parent exists. *)
Theorem duplicate_dependency_rejected :
  create_job Fixtures.cfg Fixtures.request true
    (mkNewJob Fixtures.user Fixtures.tenant "csv_upload" None None 0 None [1%N; 1%N] None None)
    (λ d, d) (Fixtures.chain_db RUNNING 0) = Err IntegrityError.
Proof. vm_compute. reflexivity. Qed.
