(* ===== verification/SweepProps.v ===== *)
(** * Properties of the background passes

    Delayed retries are not lost, the resume sweep promotes only what is ready and
    reaches everything, the backstop does not repeat itself, and crash recovery leaves
    live work alone. *)
From stdpp Require Import base tactics numbers option list gmap strings sorting.
From Stdlib Require Import QArith.
From S2P Require Import Prelude PyData Models Database JobEvents JobRepo Cascade Redis Queue DagPause JobService World Dispatcher Sweeps DbInv OpsInv Fixtures RepoProps RunProps.

Section Sweep.
Context `{SqlOrder, UuidSource} (cfg : Settings).

(** ** Delayed retries *)

(** The delayed set is the sorted set [m], with no expiry. *)
Definition delayed_is (r : Redis) (m : gmap string Q) : Prop :=
  match r !! DELAYED_KEY with
  | None => m = ∅
  | Some e => e = mkEntry (RZset m) None
  end.

Lemma delayed_is_zset r m t : delayed_is r m → r_zset t DELAYED_KEY r = Ok m.
Proof.
  unfold delayed_is, r_zset, live. destruct (r !! DELAYED_KEY) as [e|]; [intros ->|intros ->]; done.
Qed.

Lemma delayed_is_put r m t m' : delayed_is r m → delayed_is (put_zset t DELAYED_KEY m' r) m'.
Proof.
  unfold delayed_is, put_zset. intros Hd. case_bool_decide as Hm.
  - by rewrite lookup_delete_eq.
  - rewrite lookup_insert_eq. f_equal. unfold live. destruct (r !! DELAYED_KEY) as [e|]; [by subst e|done].
Qed.

Lemma push_guarded_delayed t i d w m :
  delayed_is (w_redis w) m → delayed_is (w_redis (push_guarded true t i d w)) (<[i := (t + d)%Q]> m).
Proof.
  intros Hd. unfold push_guarded, redis_call, push_delayed, r_zadd. rewrite (delayed_is_zset _ m t Hd). cbn.
  by eapply delayed_is_put.
Qed.

(** An entry is safe when it is back in the set or its job was announced. *)
Definition entry_safe (w w' : World) (s : string) : Prop :=
  (∃ m, delayed_is (w_redis w') m ∧ is_Some (m !! s)) ∨
  (∃ evs e i, db_outbox (w_db w') = db_outbox (w_db w) ++ evs ∧ e ∈ evs ∧
     ob_topic e = kafka_topic_job_submitted cfg ∧ uuid_parse s = Some i ∧
     dget (ob_payload e) "job_id" = Some (juuid i)).

(** What one item leaves: the jobs as they were, the outbox extended, the set
    extended, and its own entry safe. *)
Lemma promote_item_step env s w m :
  delayed_is (w_redis w) m → it_push_ok env = true → keys_ok (w_db w) →
  let w' := promote_item cfg env s w in
  db_jobs (w_db w') = db_jobs (w_db w) ∧
  (∃ evs, db_outbox (w_db w') = db_outbox (w_db w) ++ evs) ∧
  (∃ m', delayed_is (w_redis w') m' ∧ ∀ x, is_Some (m !! x) → is_Some (m' !! x)) ∧
  (∀ i, uuid_parse s = Some i → is_Some (db_jobs (w_db w) !! i) → entry_safe w w' s).
Proof.
  intros Hd Hpush Hk w'. unfold w', promote_item. destruct (uuid_parse s) as [i|] eqn:Es.
  2:{ split_and!; [done|by exists []; rewrite app_nil_r|by exists m|done]. }
  assert (Hre : ∀ d w0, w_redis w0 = w_redis w → db_jobs (w_db w0) = db_jobs (w_db w) →
    (∃ evs, db_outbox (w_db w0) = db_outbox (w_db w) ++ evs) →
    let w'' := push_guarded (it_push_ok env) (it_time env) s d w0 in
    db_jobs (w_db w'') = db_jobs (w_db w) ∧ (∃ evs, db_outbox (w_db w'') = db_outbox (w_db w) ++ evs) ∧
    (∃ m', delayed_is (w_redis w'') m' ∧ ∀ x, is_Some (m !! x) → is_Some (m' !! x)) ∧
    (∀ i0, Some i = Some i0 → is_Some (db_jobs (w_db w) !! i0) → entry_safe w w'' s)).
  { intros d w0 Hr Hj Ho w''. unfold w''. rewrite Hpush.
    pose proof (push_guarded_delayed (it_time env) s d w0 m ltac:(by rewrite Hr)) as Hd'.
    rewrite !push_guarded_db. split_and!; [done|done|eexists; split; [exact Hd'|]; intros x Hx; rewrite lookup_insert_is_Some'; by right|].
    intros _ _ _. left. eexists. split; [exact Hd'|]. rewrite lookup_insert_eq. by eexists. }
  assert (Hsub : ∀ j, db_jobs (w_db w) !! i = Some j →
    let w0 := with_db (submit_event cfg (it_now env) j (w_db w)) w in
    db_jobs (w_db w0) = db_jobs (w_db w) ∧ (∃ evs, db_outbox (w_db w0) = db_outbox (w_db w) ++ evs) ∧
    entry_safe w w0 s).
  { intros j Hj w0. split_and!; [done|by eexists|]. right. do 3 eexists. split; [reflexivity|].
    split; [left|]. cbn. rewrite <- (Hk i j Hj). by rewrite Es, (Hk i j Hj). }
  destruct (it_tx env).
  2:{ apply Hre; [done|done|by exists []; rewrite app_nil_r]. }
  - unfold get_by_id. destruct (db_jobs (w_db w) !! i) as [j|] eqn:Ej.
    2:{ split_and!; [done|by exists []; rewrite app_nil_r|by exists m|].
        intros i0 [= <-]. rewrite Ej. by intros [? ?]. }
    destruct (find_blocking_pause _ _ _ _); [apply Hre; [done|done|by exists []; rewrite app_nil_r]|].
    destruct (Hsub j eq_refl) as (H1 & H2 & H3). split_and!; [done|done|by exists m|done].
  - unfold get_by_id. destruct (db_jobs (w_db w) !! i) as [j|] eqn:Ej.
    2:{ split_and!; [done|by exists []; rewrite app_nil_r|by exists m|].
        intros i0 [= <-]. rewrite Ej. by intros [? ?]. }
    destruct (find_blocking_pause _ _ _ _); [apply Hre; [done|done|by exists []; rewrite app_nil_r]|].
    destruct (Hsub j eq_refl) as (H1 & H2 & _). by apply Hre.
Qed.

Lemma entry_safe_later w w1 w2 s m1 m2 evs :
  entry_safe w w1 s → delayed_is (w_redis w1) m1 → delayed_is (w_redis w2) m2 →
  (∀ x, is_Some (m1 !! x) → is_Some (m2 !! x)) → db_outbox (w_db w2) = db_outbox (w_db w1) ++ evs →
  entry_safe w w2 s.
Proof.
  intros [(m & Hm & Hs)|(evs1 & e & i & Ho & He & Ht & Hp & Hj)] H1 H2 Hsub Ho2.
  - left. exists m2. split; [done|]. apply Hsub. replace m1 with m; [done|].
    apply (delayed_is_zset _ _ 0) in Hm, H1. congruence.
  - right. exists (evs1 ++ evs), e, i. rewrite Ho2, Ho, <- app_assoc. split_and!; try done.
    apply elem_of_app. by left.
Qed.

(** The loop over the popped entries. *)
Lemma promote_items_safe env l w0 w m :
  delayed_is (w_redis w) m → (∀ s, it_push_ok (env s) = true) → keys_ok (w_db w) →
  db_jobs (w_db w) = db_jobs (w_db w0) → (∃ evs, db_outbox (w_db w) = db_outbox (w_db w0) ++ evs) →
  let w' := foldl (λ w i, promote_item cfg (env i) i w) w l in
  db_jobs (w_db w') = db_jobs (w_db w0) ∧
  (∃ m' evs, delayed_is (w_redis w') m' ∧ (∀ x, is_Some (m !! x) → is_Some (m' !! x)) ∧
     db_outbox (w_db w') = db_outbox (w_db w) ++ evs) ∧
  (∀ s i, s ∈ l → uuid_parse s = Some i → is_Some (db_jobs (w_db w0) !! i) → entry_safe w0 w' s).
Proof.
  intros Hd Hpush. revert w m Hd. induction l as [|s l IH]; intros w m Hd Hk Hj Ho; cbn [foldl].
  { split_and!; [done|exists m, []; by rewrite app_nil_r|]. by intros s i ?%not_elem_of_nil. }
  destruct (promote_item_step (env s) s w m Hd (Hpush s) Hk) as (Hj1 & (evs1 & Ho1) & (m1 & Hd1 & Hsub1) & Hsafe).
  destruct Ho as (evs0 & Ho).
  destruct (IH (promote_item cfg (env s) s w) m1) as (Hj' & (m' & evs & Hd' & Hsub' & Ho') & Hall); [done| | | |].
  - intros i j. rewrite Hj1. apply Hk.
  - by rewrite Hj1.
  - exists (evs0 ++ evs1). by rewrite Ho1, Ho, <- app_assoc.
  - split_and!; [done|exists m', (evs1 ++ evs); split_and!; [done|auto|by rewrite Ho', Ho1, <- app_assoc]|].
    intros x i [->|Hx]%elem_of_cons Hp Hi; [|by eapply Hall].
    assert (Hs1 : entry_safe w0 (promote_item cfg (env s) s w) s).
    { rewrite <- Hj in Hi. destruct (Hsafe i Hp Hi) as [Hl|(ev & e & u & Hou & He & Ht & Hu & Hg)]; [by left|].
      right. exists (evs0 ++ ev), e, u. rewrite Hou, Ho, <- app_assoc. split_and!; try done.
      apply elem_of_app. by right. }
    by eapply (entry_safe_later w0 (promote_item cfg (env s) s w)).
Qed.

(** C18: Promotion loses no retry: after a pass in which the re-pushes reach Redis,
    whichever transactions failed and whichever DAGs are paused, every entry that was
    in the delayed set and names an existing job is still in the set or has a new
    [job.submitted] event; no job row is changed. *)
Theorem delayed_retries_conserved t env w m s i j :
  delayed_is (w_redis w) m → (∀ x, it_push_ok (env x) = true) → keys_ok (w_db w) →
  is_Some (m !! s) → uuid_parse s = Some i → db_jobs (w_db w) !! i = Some j →
  let w' := (promote_delayed_once cfg t true env w).2 in
  db_jobs (w_db w') = db_jobs (w_db w) ∧ entry_safe w w' s.
Proof.
  intros Hd Hpush Hk Hs Hp Hj w'. unfold w', promote_delayed_once, redis_call.
  unfold pop_ready_delayed, atomic_pop_ready. rewrite (delayed_is_zset _ m t Hd). cbn [mbind result_mbind].
  set (due := zrange_due m t LUA_LIMIT).
  set (w1 := with_redis _ w).
  assert (Hd1 : delayed_is (w_redis w1) (zrem_all due m)).
  { unfold w1. cbn [w_redis with_redis]. destruct due as [|d ds] eqn:Ed; [exact Hd|]. by eapply delayed_is_put. }
  destruct (promote_items_safe env due w w1 (zrem_all due m) Hd1 Hpush Hk eq_refl) as (Hjobs & (m' & evs & Hd' & Hsub & Ho) & Hall);
    [by exists []; rewrite app_nil_r|].
  split; [exact Hjobs|]. destruct (decide (s ∈ due)) as [Hin|Hout]; [eapply Hall; [done|done|by eexists]|].
  left. exists m'. split; [exact Hd'|]. apply Hsub. rewrite lookup_zrem_all. by rewrite bool_decide_false.
Qed.

(** ** The resume sweep *)

#[local] Instance created_before_trans : Transitive created_before.
Proof. intros a b c. unfold created_before. lia. Qed.
#[local] Instance created_before_total : Total created_before.
Proof. intros a b. unfold created_before. lia. Qed.

Lemma all_jobs_nodup db : keys_ok db → NoDup (job_id <$> all_jobs db).
Proof.
  intros Hk. unfold all_jobs. rewrite sql_scan_perm.
  replace (job_id <$> (map_to_list (db_jobs db)).*2) with (map_to_list (db_jobs db)).*1;
    [apply NoDup_fst_map_to_list|].
  assert (Hl : ∀ i j, (i, j) ∈ map_to_list (db_jobs db) → job_id j = i).
  { intros i j Hij. apply Hk. by apply elem_of_map_to_list. }
  induction (map_to_list (db_jobs db)) as [|[i j] l IH]; [done|]. cbn. f_equal.
  - symmetry. apply Hl. left.
  - apply IH. intros i' j' Hij. apply Hl. by right.
Qed.

(** Stored rows are determined by their identifier. *)
Lemma stored_id_inj db x y :
  keys_ok db → x ∈ all_jobs db → y ∈ all_jobs db → job_id x = job_id y → x = y.
Proof.
  intros Hk [i Hi]%all_jobs_elem [k Hk']%all_jobs_elem E.
  rewrite (Hk i x Hi), (Hk k y Hk') in E. subst. congruence.
Qed.

(** Every promotable job, oldest first: what an unlimited page would hold. *)
Definition promotable_all (db : DB) : list Job :=
  merge_sort created_before (filter (λ j, promotable db j = true) (all_jobs db)).

Lemma promotable_all_elem db j :
  j ∈ promotable_all db ↔ promotable db j = true ∧ ∃ i, db_jobs db !! i = Some j.
Proof. unfold promotable_all. by rewrite merge_sort_Permutation, list_elem_of_filter, all_jobs_elem. Qed.

Lemma promotable_all_nodup db : keys_ok db → NoDup (job_id <$> promotable_all db).
Proof.
  intros Hk. unfold promotable_all. rewrite merge_sort_Permutation.
  eapply sublist_NoDup; [by apply (all_jobs_nodup db)|]. apply fmap_sublist, sublist_filter.
Qed.

(** A cursor after the first [n] rows selects the rest, whatever order the scan
    delivers rows in. *)
Lemma page_after db n c :
  keys_ok db → last (take n (promotable_all db)) = Some c →
  promotable_waiting (Some (job_created_at c, job_id c)) db =
  take RESUME_SWEEP_LIMIT (drop n (promotable_all db)).
Proof.
  intros Hk Hlast. unfold promotable_waiting. f_equal. set (L := promotable_all db) in *.
  assert (HL : StronglySorted created_before L) by (apply StronglySorted_merge_sort; apply _).
  assert (Hin : ∀ x, x ∈ L → x ∈ all_jobs db).
  { intros x Hx. apply promotable_all_elem in Hx as [_ Hx]. by apply all_jobs_elem. }
  assert (Hc : c ∈ take n L) by (by apply last_Some_elem_of).
  assert (Hnd : NoDup (job_id <$> L)) by (by apply promotable_all_nodup).
  assert (Hfilter : filter (λ j, after_cursor (Some (job_created_at c, job_id c)) j = true) L = drop n L).
  { rewrite <- (take_drop n L) at 1. rewrite filter_app, filter_none, filter_all; [done| |].
    - intros x Hx. rewrite <- (take_drop n L) in HL. cbn. apply bool_decide_true.
      pose proof (StronglySorted_app_1_elem_of _ _ _ c x HL Hc Hx) as Hle. unfold created_before in Hle.
      destruct (decide (job_id x = job_id c)) as [E|Hne]; [|lia]. exfalso.
      rewrite <- (take_drop n L), fmap_app in Hnd. apply NoDup_app in Hnd as (_ & Hdis & _).
      apply (Hdis (job_id c)); [by apply list_elem_of_fmap_2|]. rewrite <- E. by apply list_elem_of_fmap_2.
    - intros x Hx Hafter. cbn in Hafter. apply bool_decide_eq_true in Hafter.
      apply last_Some in Hlast as [l' Hl']. rewrite <- (take_drop n L), Hl' in HL.
      apply StronglySorted_app_1_l in HL. rewrite Hl' in Hx. apply elem_of_app in Hx as [Hx|Hx].
      + pose proof (StronglySorted_app_1_elem_of _ _ _ x c HL Hx ltac:(left)) as Hle. unfold created_before in Hle. lia.
      + apply list_elem_of_singleton in Hx as ->. lia. }
  apply (StronglySorted_unique_strong created_before).
  - intros x y Hx Hy H1 H2. assert (job_id x = job_id y) by (unfold created_before in *; lia).
    rewrite merge_sort_Permutation, list_elem_of_filter in Hx. destruct Hx as [_ Hx].
    apply (stored_id_inj db); [done|done| |done]. apply Hin.
    rewrite <- (take_drop n L). apply elem_of_app. by right.
  - apply StronglySorted_merge_sort; apply _.
  - rewrite <- (take_drop n L) in HL. by apply StronglySorted_app_1_r in HL.
  - rewrite <- Hfilter. unfold L, promotable_all. rewrite !merge_sort_Permutation. rewrite list_filter_filter.
    apply reflexive_eq, list_filter_iff. intros x. tauto.
Qed.

(** The cursor after [k] passes over an unchanged table. *)
Fixpoint pass_cursor (db : DB) (k : nat) : option (Z * uuid) :=
  match k with
  | O => None
  | S k =>
      let rows := promotable_waiting (pass_cursor db k) db in
      if (length rows <? RESUME_SWEEP_LIMIT)%nat then None
      else (λ j, (job_created_at j, job_id j)) <$> last rows
  end.

Lemma pages_in_order db k :
  keys_ok db → (k * RESUME_SWEEP_LIMIT ≤ length (promotable_all db))%nat →
  promotable_waiting (pass_cursor db k) db =
  take RESUME_SWEEP_LIMIT (drop (k * RESUME_SWEEP_LIMIT) (promotable_all db)).
Proof.
  intros Hk. induction k as [|k IH]; intros Hlen.
  - cbn [pass_cursor]. rewrite Nat.mul_0_l, drop_0. unfold promotable_waiting, promotable_all. do 2 f_equal.
    apply list_filter_iff. intros x. cbn. tauto.
  - cbn [pass_cursor]. rewrite IH by lia. set (L := promotable_all db) in *.
    assert (Hfull : length (take RESUME_SWEEP_LIMIT (drop (k * RESUME_SWEEP_LIMIT) L)) = RESUME_SWEEP_LIMIT).
    { rewrite length_take, length_drop. lia. }
    rewrite Hfull, Nat.ltb_irrefl.
    assert (Hlast : last (take RESUME_SWEEP_LIMIT (drop (k * RESUME_SWEEP_LIMIT) L)) =
                    last (take (S k * RESUME_SWEEP_LIMIT) L)).
    { rewrite !last_lookup, Hfull, length_take, Nat.min_l by lia.
      rewrite !lookup_take_lt, lookup_drop by (unfold RESUME_SWEEP_LIMIT; lia). f_equal. unfold RESUME_SWEEP_LIMIT. lia. }
    rewrite Hlast. destruct (last (take (S k * RESUME_SWEEP_LIMIT) L)) as [c|] eqn:Ec.
    + cbn [fmap option_fmap option_map]. by apply page_after.
    + apply last_None in Ec. apply (f_equal length) in Ec. rewrite length_take in Ec.
      cbn [length] in Ec. unfold RESUME_SWEEP_LIMIT in *. lia.
Qed.

(** The resume sweep starves nobody: over an unchanged table, the pages of
    successive passes are consecutive slices of the promotable jobs in creation
    order, independent of the order the database scans rows in, so every promotable
    job is examined by some pass however many older ones a pause holds back. *)
Theorem resume_sweep_reaches_all db j :
  keys_ok db → promotable db j = true → (∃ i, db_jobs db !! i = Some j) →
  ∃ k, j ∈ promotable_waiting (pass_cursor db k) db.
Proof.
  intros Hk Hp Hj. assert (Hin : j ∈ promotable_all db) by (by apply promotable_all_elem).
  apply list_elem_of_lookup in Hin as [n Hn]. pose proof (lookup_lt_Some _ _ _ Hn) as Hlt.
  exists (n / RESUME_SWEEP_LIMIT)%nat.
  pose proof (Nat.div_mod n RESUME_SWEEP_LIMIT ltac:(done)) as Hdm.
  pose proof (Nat.mod_upper_bound n RESUME_SWEEP_LIMIT ltac:(done)) as Hmod.
  rewrite pages_in_order; [|done|lia].
  apply (list_elem_of_lookup_2 _ (n mod RESUME_SWEEP_LIMIT)%nat).
  rewrite lookup_take_lt, lookup_drop by done. rewrite <- Hn. f_equal. lia.
Qed.

(** One row of the page, on a database where it is still WAITING. *)
Definition promoted_row (now : Z) (j : Job) : Job :=
  apply_sets (touch now [SetStatus PENDING; SetErrorMessage None]) j.

Definition submitted_content (j : Job) : string * string * dict :=
  (kafka_topic_job_submitted cfg, partition_key (job_tenant_id j) (job_user_id j), job_submitted_payload j).

(** The page as processed against the database it was read from. *)
Lemma resume_rows_spec now t lookup db0 rows db :
  NoDup (job_id <$> rows) → db_deps db = db_deps db0 →
  (∀ j, j ∈ rows → db_jobs db !! job_id j = Some j ∧ job_status j = WAITING) →
  let free j := bool_decide (find_blocking_pause t (lookup (job_id j)) db0 (job_id j) = None) in
  let db' := foldl (λ db child, resume_row cfg now t (lookup (job_id child)) child db) db rows in
  db_deps db' = db_deps db0 ∧
  queued db db' (submitted_content <$> filter (λ j, free j = true) rows) ∧
  (∀ i, db_jobs db' !! i =
     if bool_decide (i ∈ job_id <$> filter (λ j, free j = true) rows)
     then promoted_row now <$> db_jobs db !! i else db_jobs db !! i).
Proof.
  intros Hnd. revert db. induction rows as [|j rows IH]; intros db Hd Hrows free db'.
  { split_and!; [done|by apply queued_nil|]. intros i. by rewrite bool_decide_false by set_solver. }
  rewrite fmap_cons in Hnd. apply NoDup_cons in Hnd as [Hni Hnd].
  destruct (Hrows j ltac:(left)) as [Hj Hw].
  assert (Hpause : find_blocking_pause t (lookup (job_id j)) db (job_id j) =
                   find_blocking_pause t (lookup (job_id j)) db0 (job_id j)).
  { destruct (lookup (job_id j)) as [r|]; [by apply find_blocking_pause_ext|done]. }
  set (db1 := with_jobs (<[job_id j := promoted_row now j]> (db_jobs db)) db).
  set (db2 := submit_event cfg now j db1).
  assert (Hstep : resume_row cfg now t (lookup (job_id j)) j db = if free j then db2 else db).
  { unfold resume_row, free. rewrite Hpause. unfold promote_waiting_to_pending, update_job.
    rewrite Hj, (bool_decide_true (job_status j = WAITING)) by done.
    by destruct (find_blocking_pause t (lookup (job_id j)) db0 (job_id j)). }
  unfold db'. cbn [foldl]. rewrite Hstep. destruct (free j) eqn:Ef.
  2:{ rewrite !filter_cons_False by (by rewrite Ef). apply IH; [done|done|]. intros x Hx. apply Hrows. by right. }
  rewrite !filter_cons_True by done.
  {
    destruct (IH Hnd db2) as (Hd' & Hq' & Hl'); [done| |].
    { intros x Hx. split; [|by apply Hrows; right]. cbn. rewrite lookup_insert_ne.
      - apply Hrows. by right.
      - intros E. apply Hni. rewrite E. by apply list_elem_of_fmap_2. }
    split_and!; [done| |].
    + rewrite fmap_cons. eapply (queued_trans db db2 _ [_]); [|exact Hq'].
      exact (outbox_add_queued now _ _ _ _ db1).
    + intros i. rewrite Hl'. rewrite fmap_cons. cbn [db2 submit_event outbox_add draw_uuid db_jobs with_outbox db1 with_jobs].
      destruct (decide (i = job_id j)) as [->|Hne].
      * rewrite bool_decide_false.
        2:{ intros Hin. apply Hni. apply list_elem_of_fmap in Hin as (x & -> & Hx).
            apply list_elem_of_filter in Hx as [_ Hx]. by apply list_elem_of_fmap_2. }
        rewrite bool_decide_true by (left). by rewrite lookup_insert_eq, Hj.
      * rewrite lookup_insert_ne by done.
        rewrite (bool_decide_ext _ (i ∈ job_id j :: (job_id <$> filter (λ j, free j = true) rows)));
          [done|set_solver]. }
Qed.

Lemma promotable_waiting_rows cursor db :
  keys_ok db →
  NoDup (job_id <$> promotable_waiting cursor db) ∧
  ∀ j, j ∈ promotable_waiting cursor db → db_jobs db !! job_id j = Some j ∧ promotable db j = true.
Proof.
  intros Hk. unfold promotable_waiting. split.
  - assert (Hm : NoDup (job_id <$> merge_sort created_before
        (filter (λ j, promotable db j = true ∧ after_cursor cursor j = true) (all_jobs db)))).
    { rewrite merge_sort_Permutation. eapply sublist_NoDup; [by apply (all_jobs_nodup db)|].
      apply fmap_sublist, sublist_filter. }
    eapply sublist_NoDup; [exact Hm|]. apply fmap_sublist, sublist_take.
  - intros j Hj. apply elem_of_take in Hj as (n & Hn & _). apply list_elem_of_lookup_2 in Hn.
    rewrite merge_sort_Permutation, list_elem_of_filter, all_jobs_elem in Hn.
    destruct Hn as [[Hp _] [i Hi]]. split; [|done]. by rewrite (Hk i j Hi).
Qed.

(** A resume pass promotes exactly the jobs of its page whose chain is not paused:
    each was WAITING with every parent COMPLETED, becomes PENDING, and gets one
    [job.submitted] event, in page order; every other job is unchanged. *)
Theorem resume_pass_exact now t lookup cursor db :
  keys_ok db →
  let rows := promotable_waiting cursor db in
  let free j := bool_decide (find_blocking_pause t (lookup (job_id j)) db (job_id j) = None) in
  let db' := (resume_unblocked_waiting_once cfg now t lookup cursor db).2 in
  (∀ j, j ∈ rows → job_status j = WAITING ∧
     ∀ p jp, edge db p (job_id j) → db_jobs db !! p = Some jp → job_status jp = COMPLETED) ∧
  queued db db' (submitted_content <$> filter (λ j, free j = true) rows) ∧
  (∀ i, db_jobs db' !! i =
     if bool_decide (i ∈ job_id <$> filter (λ j, free j = true) rows)
     then promoted_row now <$> db_jobs db !! i else db_jobs db !! i).
Proof.
  intros Hk rows free db'. destruct (promotable_waiting_rows cursor db Hk) as [Hnd Hrows].
  assert (Hready : ∀ j, j ∈ rows → job_status j = WAITING ∧
     ∀ p jp, edge db p (job_id j) → db_jobs db !! p = Some jp → job_status jp = COMPLETED).
  { intros j Hj. destruct (Hrows j Hj) as [_ Hp]. unfold promotable in Hp. apply andb_true_iff in Hp as [Hw Hu].
    apply bool_decide_eq_true in Hw. apply Nat.eqb_eq in Hu. split; [done|]. intros p jp He Hjp.
    exact (proj1 (unmet_count_zero (job_id j) db) Hu (mkDep (job_id j) p) jp He eq_refl Hjp). }
  destruct (resume_rows_spec now t lookup db rows db Hnd eq_refl) as (_ & Hq & Hl).
  { intros j Hj. split; [by apply Hrows|by apply Hready]. }
  by split_and!.
Qed.

(** ** The stale-PENDING backstop *)

(** The row a re-publication leaves. *)
Definition requeued_row (now : Z) (j : Job) : Job :=
  apply_sets (touch now [SetRequeuedAt (Some now); KeepUpdatedAt]) j.

Lemma requeued_row_facts now j :
  job_status (requeued_row now j) = job_status j ∧ job_updated_at (requeued_row now j) = job_updated_at j ∧
  job_requeued_at (requeued_row now j) = Some now ∧ same_identity j (requeued_row now j).
Proof. split_and!; [done|done|done|apply apply_sets_identity]. Qed.

Definition in_delayed (t : Q) (r : Redis) (j : Job) : Prop :=
  ∃ m q, r_zset t DELAYED_KEY r = Ok m ∧ m !! uuid_str (job_id j) = Some q.

Lemma requeue_rows_spec now t r rows db db' :
  NoDup (job_id <$> rows) → (∀ j, j ∈ rows → db_jobs db !! job_id j = Some j) →
  requeue_rows cfg now t (Some r) rows db = Ok db' →
  ∃ fired, fired `sublist_of` rows ∧
    (∀ j, j ∈ rows → (j ∈ fired ↔ ¬ in_delayed t r j)) ∧
    queued db db' (submitted_content <$> fired) ∧
    (∀ i, db_jobs db' !! i = if bool_decide (i ∈ job_id <$> fired)
                             then requeued_row now <$> db_jobs db !! i else db_jobs db !! i).
Proof.
  intros Hnd. revert db. induction rows as [|j rows IH]; intros db Hrows Hr.
  { injection Hr as <-. exists []. split_and!; [done|set_solver|by apply queued_nil|].
    intros i. by rewrite bool_decide_false by set_solver. }
  rewrite fmap_cons in Hnd. apply NoDup_cons in Hnd as [Hni Hnd].
  apply bind_ok in Hr as (db1 & H1 & H2). apply bind_ok in H1 as (score & Hs & H1).
  unfold r_zscore in Hs. apply bind_ok in Hs as (m & Hm & Hs). injection Hs as <-.
  assert (Hrest : ∀ x, x ∈ rows → db_jobs db !! job_id x = Some x ∧ job_id x ≠ job_id j).
  { intros x Hx. split; [by apply Hrows; right|]. intros E. apply Hni. rewrite <- E. by apply list_elem_of_fmap_2. }
  destruct (m !! uuid_str (job_id j)) as [q|] eqn:Eq.
  - injection H1 as <-. destruct (IH Hnd db) as (fired & Hsub & Hiff & Hq & Hl); [by intros; apply Hrest|done|].
    exists fired. split_and!; [by constructor| |done|done].
    intros x [->|Hx]%elem_of_cons; [|by apply Hiff]. split; [|intros Hnot; destruct Hnot; by exists m, q].
    intros Hin. exfalso. apply Hni. apply list_elem_of_fmap_2. by eapply elem_of_sublist.
  - injection H1 as <-. set (db2 := submit_event cfg now j db) in *.
    assert (Hj2 : db_jobs db2 !! job_id j = Some j) by (by apply Hrows; left).
    unfold update_job in H2. rewrite Hj2 in H2. cbn [no_guard snd] in H2. fold (requeued_row now j) in H2.
    set (db3 := with_jobs _ db2) in *.
    destruct (IH Hnd db3) as (fired & Hsub & Hiff & Hq & Hl); [|done|].
    { intros x Hx. destruct (Hrest x Hx). unfold db3. cbn [with_jobs db_jobs]. by rewrite lookup_insert_ne. }
    exists (j :: fired). split_and!; [by constructor| | |].
    + intros x [->|Hx]%elem_of_cons.
      * split; [|intros _; left]. intros _ (m' & q & Hm' & Hq'). rewrite Hm in Hm'. injection Hm' as <-. congruence.
      * rewrite <- (Hiff x Hx), elem_of_cons. split; [|by right]. intros [->|?]; [|done].
        by destruct (proj2 (Hrest j Hx)).
    + rewrite fmap_cons. eapply (queued_trans db db3 _ [_]); [|exact Hq].
      eapply queued_frame; [..|apply (outbox_add_queued now (job_tenant_id j))]; done.
    + intros i. rewrite Hl. unfold db3. cbn [with_jobs db_jobs]. rewrite fmap_cons.
      assert (Hnif : job_id j ∉ job_id <$> fired).
      { intros Hin. apply Hni. apply list_elem_of_fmap in Hin as (x & -> & Hx). apply list_elem_of_fmap_2.
        by eapply elem_of_sublist. }
      destruct (decide (i = job_id j)) as [->|Hne].
      * rewrite bool_decide_false, bool_decide_true by (done || left). rewrite lookup_insert_eq. by rewrite Hrows by left.
      * rewrite lookup_insert_ne by done.
        rewrite (bool_decide_ext _ (i ∈ job_id j :: (job_id <$> fired))); [done|set_solver].
Qed.

Lemma scan_rows (P : Job → Prop) `{!∀ j, Decision (P j)} n db :
  keys_ok db →
  NoDup (job_id <$> take n (filter P (all_jobs db))) ∧
  ∀ j, j ∈ take n (filter P (all_jobs db)) → db_jobs db !! job_id j = Some j ∧ P j.
Proof.
  intros Hk. split.
  - eapply sublist_NoDup; [by apply (all_jobs_nodup db)|]. apply fmap_sublist.
    etrans; [apply sublist_take|apply sublist_filter].
  - intros j Hj. apply elem_of_take in Hj as (k & Hk' & _). apply list_elem_of_lookup_2 in Hk'.
    rewrite list_elem_of_filter, all_jobs_elem in Hk'. destruct Hk' as [HP [i Hi]]. by rewrite (Hk i j Hi).
Qed.

(** The stale-PENDING backstop re-publishes only jobs nothing else will run, and
    never twice in one window: a job it changes was PENDING, untouched and not
    re-published for five minutes and absent from the delayed set; it keeps its status
    and [updated_at], gets one [job.submitted] event, and is not stale again for the
    next five minutes. *)
Theorem backstop_deduplicates now t r db db' :
  keys_ok db → requeue_stale_pending_once cfg now t (Some r) db = Ok db' →
  ∃ fired : list Job,
    queued db db' (submitted_content <$> fired) ∧ NoDup (job_id <$> fired) ∧
    (∀ j, j ∈ fired → db_jobs db !! job_id j = Some j ∧ stale_pending now j = true ∧ ¬ in_delayed t r j) ∧
    (∀ i, i ∉ job_id <$> fired → db_jobs db' !! i = db_jobs db !! i) ∧
    (∀ j, j ∈ fired → ∃ j', db_jobs db' !! job_id j = Some j' ∧
       job_status j' = PENDING ∧ job_updated_at j' = job_updated_at j ∧
       ∀ later, (later ≤ now + secs STALE_PENDING_AGE_SECONDS)%Z → stale_pending later j' = false).
Proof.
  intros Hk Hr. unfold requeue_stale_pending_once in Hr.
  destruct (scan_rows (λ j, stale_pending now j = true) STALE_PENDING_LIMIT db Hk) as [Hnd Hrows].
  destruct (requeue_rows_spec now t r _ db db' Hnd ltac:(intros j Hj; by apply Hrows) Hr)
    as (fired & Hsub & Hiff & Hq & Hl).
  assert (Hin : ∀ j, j ∈ fired → db_jobs db !! job_id j = Some j ∧ stale_pending now j = true ∧ ¬ in_delayed t r j).
  { intros j Hj. assert (Hj' := elem_of_sublist _ _ j Hj Hsub). destruct (Hrows j Hj') as [? ?].
    split_and!; [done|done|]. by apply Hiff. }
  exists fired. split_and!; [exact Hq|by eapply sublist_NoDup; [exact Hnd|apply fmap_sublist]|done| |].
  - intros i Hi. by rewrite Hl, bool_decide_false.
  - intros j Hj. destruct (Hin j Hj) as (Hst & Hstale & _). exists (requeued_row now j).
    rewrite Hl, bool_decide_true, Hst by (by apply list_elem_of_fmap_2).
    destruct (requeued_row_facts now j) as (Es & Eu & Er & _).
    unfold stale_pending in Hstale. reflect_bools. split_and!; [done|by rewrite Es|done|].
    intros later Hlater. unfold stale_pending. rewrite Er.
    replace (now <? later - secs STALE_PENDING_AGE_SECONDS)%Z with false by lia. by rewrite andb_false_r.
Qed.

(** ** Crash recovery *)

Lemma recover_row_running now b row s tx db i j :
  keys_ok db → db_jobs db !! i = Some j → job_status j = RUNNING → i ≠ job_id row →
  let db' := (recover_row cfg now b row s tx db).2 in
  keys_ok db' ∧ db_jobs db' !! i = Some j.
Proof.
  intros Hk Hj Hs Hne. unfold recover_row.
  assert (Hupd : ∀ extra, Forall keeps_status extra →
    let d := (update_status cfg now (job_id row) DEAD_LETTER extra None (Some (recovery_guard row)) db).2 in
    keys_ok d ∧ db_jobs d !! i = Some j).
  { intros extra He. destruct (db_jobs db !! job_id row) as [x|] eqn:Ex.
    2:{ rewrite update_status_miss; [done|]. congruence. }
    destruct (recovery_guard row x) eqn:Eg.
    2:{ rewrite update_status_miss; [done|]. intros y Hy. rewrite Ex in Hy. by injection Hy as <-. }
    destruct (update_status_row cfg now (job_id row) DEAD_LETTER extra None (Some (recovery_guard row)) db x Hk He Ex Eg)
      as (_ & Hk' & _).
    destruct (update_status_hit cfg now (job_id row) DEAD_LETTER extra None (Some (recovery_guard row)) db x Hk He Ex Eg)
      as (_ & gone & [_ _ _ _ Wgone Wother _ _] & _).
    split; [exact Hk'|]. rewrite Wother; [done|done|]. intros Hin.
    destruct (Wgone i Hin) as (_ & (y & Hy & Hc) & _). rewrite Hj in Hy. injection Hy as <-.
    unfold cancellable in Hc. apply bool_decide_eq_true in Hc as [Hc _]. congruence. }
  specialize (Hupd [SetErrorMessage (Some (recovery_error b))] ltac:(by repeat constructor)).
  destruct (update_status _ _ _ _ _ _ _ _) as [[x|] d]; destruct tx; cbn [snd] in *; try done; exact Hupd.
Qed.

(** C32: Crash recovery leaves live work alone: a RUNNING job whose lease was renewed
    within its time to live is not touched by the sweep, on any replica, however old
    its run and whatever the other recoveries do. *)
Theorem live_lease_survives_sweep now_scan now threshold ids tx db i j h :
  keys_ok db → db_jobs db !! i = Some j → job_status j = RUNNING →
  job_heartbeat_at j = Some h → (now_scan - secs RUNNING_LEASE_TTL_SECONDS ≤ h)%Z →
  db_jobs (sweep_stale_running_once cfg now_scan now threshold ids (λ k, (λ d, d, tx k)) db).2 !! i = Some j.
Proof.
  intros Hk Hj Hs Hh Hlive. unfold sweep_stale_running_once.
  destruct (scan_rows (λ j, stale_running now_scan threshold j = true) STALE_RUNNING_SWEEP_LIMIT db Hk) as [_ Hrows].
  assert (Hni : ∀ row, row ∈ take STALE_RUNNING_SWEEP_LIMIT
                  (filter (λ j, stale_running now_scan threshold j = true) (all_jobs db)) → i ≠ job_id row).
  { intros row Hrow ->. destruct (Hrows row Hrow) as [Hst Hstale]. rewrite Hj in Hst. injection Hst as <-.
    unfold stale_running in Hstale. rewrite Hh in Hstale. reflect_bools. lia. }
  clear Hrows. revert Hni. generalize (take STALE_RUNNING_SWEEP_LIMIT
    (filter (λ j, stale_running now_scan threshold j = true) (all_jobs db))) as rows. intros rows Hni.
  generalize 0%nat as n. revert db Hk Hj. induction rows as [|row rows IH]; intros db Hk Hj n; [done|].
  assert (Hni' : ∀ row, row ∈ rows → i ≠ job_id row) by (intros x Hx; apply Hni; by right).
  cbn [foldl]. destruct (job_started_at row) as [s|]; [|by apply IH].
  destruct (excluded_in_flight _ _ _ _); [by apply IH|].
  destruct (recover_row_running now (bool_decide (uuid_str (job_id row) ∈ ids)) row s (tx (job_id row)) db i j Hk Hj Hs)
    as [Hk' Hj']; [apply Hni; left|].
  destruct (recover_row _ _ _ _ _ _ _) as [settled d]. cbn [snd] in *. by apply IH.
Qed.

(** A recovery never clobbers a row that moved since the scan: if by the time of
    the write the job is no longer RUNNING, was started again, or had its lease
    renewed, nothing is written and nothing is counted. *)
Theorem recovery_is_compare_and_set now b row s tx db :
  (∀ j, db_jobs db !! job_id row = Some j →
     job_status j ≠ RUNNING ∨ job_started_at j ≠ job_started_at row ∨ job_heartbeat_at j ≠ job_heartbeat_at row) →
  recover_row cfg now b row s tx db = (false, db).
Proof.
  intros Hmoved. unfold recover_row. rewrite update_status_miss.
  - by destruct tx.
  - intros j Hj. cbn. unfold recovery_guard. apply bool_decide_false. intros (? & ? & ?). naive_solver.
Qed.

(** Renewing vouches for a run but not forever: a renewal stamps exactly the held
    RUNNING jobs started at most threshold plus grace ago, changes neither status nor
    [updated_at], and a stamped job is safe from every sweep scan of the next two
    minutes; a job past that age is not stamped. *)
Theorem renewal_protects_bounded now threshold ids db i j :
  keys_ok db → db_jobs db !! i = Some j →
  ∃ j', db_jobs (renew_running_leases_once now threshold ids db).2 !! i = Some j' ∧
    job_status j' = job_status j ∧ job_updated_at j' = job_updated_at j ∧
    (i ∈ omap uuid_parse (elements ids) → job_status j = RUNNING →
     (∃ s, job_started_at j = Some s ∧ (now - secs (threshold + IN_FLIGHT_EXCLUSION_GRACE_SECONDS) ≤ s)%Z) →
     job_heartbeat_at j' = Some now ∧
     ∀ scan th, (scan ≤ now + secs RUNNING_LEASE_TTL_SECONDS)%Z → stale_running scan th j' = false) ∧
    ((∀ s, job_started_at j = Some s → (s < now - secs (threshold + IN_FLIGHT_EXCLUSION_GRACE_SECONDS))%Z) → j' = j).
Proof.
  intros Hk Hj. unfold renew_running_leases_once, renew_running_leases.
  destruct (omap uuid_parse (elements ids)) as [|u us] eqn:Eids.
  { exists j. split_and!; [done|done|done| |done]. by intros ?%not_elem_of_nil. }
  rewrite <- Eids. set (held := omap uuid_parse (elements ids)).
  set (p := λ j, bool_decide (job_id j ∈ held) &&
                 lease_renewable now (threshold + IN_FLIGHT_EXCLUSION_GRACE_SECONDS) j).
  exists (if p j then apply_sets (touch now [SetHeartbeatAt (Some now); KeepUpdatedAt]) j else j).
  cbn [update_jobs snd with_jobs db_jobs]. rewrite lookup_fmap, Hj.
  split; [done|]. split; [by destruct (p j)|]. split; [by destruct (p j)|]. split.
  - intros Hi Hs (s & Hst & Hle).
    assert (Hp : p j = true).
    { unfold p, lease_renewable. rewrite (Hk i j Hj), Hs, Hst, !bool_decide_true by done. cbn. unfold secs in Hle. lia. }
    rewrite Hp. split; [done|]. intros scan th Hscan. unfold stale_running.
    change (job_heartbeat_at (apply_sets (touch now [SetHeartbeatAt (Some now); KeepUpdatedAt]) j)) with (Some now).
    cbv iota. replace (now <? scan - secs RUNNING_LEASE_TTL_SECONDS)%Z with false by lia. by rewrite andb_false_r.
  - intros Hold. assert (Hp : p j = false).
    { unfold p, lease_renewable. destruct (job_started_at j) as [s|]; [|by rewrite !andb_false_r].
      specialize (Hold s eq_refl). unfold secs in Hold.
      replace (now - (threshold + IN_FLIGHT_EXCLUSION_GRACE_SECONDS) * 1000000 <=? s)%Z with false by lia.
      by rewrite !andb_false_r. }
    by rewrite Hp.
Qed.
End Sweep.

(** *** Worked examples *)

(** Job 1 is PENDING and its retry is due. *)
Definition due_world : World :=
  mkWorld (Fixtures.chain_db PENDING 0)
    (<[DELAYED_KEY := mkEntry (RZset {[uuid_str 1 := 5%Q]}) None]> ∅) [].

(** Every item's transaction fails; the re-push succeeds. *)
Definition failing_items : string → ItemEnv :=
  λ _, mkItemEnv Fixtures.at_time 10 true TxRollsBack true.

Lemma delayed_retries_conserved_witness :
  db_jobs (w_db (promote_delayed_once Fixtures.cfg 10 true failing_items due_world).2) = db_jobs (w_db due_world) ∧
  entry_safe Fixtures.cfg due_world (promote_delayed_once Fixtures.cfg 10 true failing_items due_world).2 (uuid_str 1).
Proof.
  apply (delayed_retries_conserved Fixtures.cfg 10 failing_items due_world {[uuid_str 1 := 5%Q]} (uuid_str 1) 1
    (Fixtures.row 1 PENDING)).
  - vm_compute. reflexivity.
  - done.
  - apply db_of_keys.
  - eexists. vm_compute. reflexivity.
  - vm_compute. reflexivity.
  - vm_compute. reflexivity.
Defined.

(** Job 1 is COMPLETED, job 2 waits for it. *)
Definition unblocked_db : DB := Fixtures.chain_db COMPLETED 1.

Lemma resume_sweep_reaches_all_witness :
  ∃ k, Fixtures.row 2 WAITING ∈ promotable_waiting (pass_cursor unblocked_db k) unblocked_db.
Proof.
  apply (resume_sweep_reaches_all unblocked_db (Fixtures.row 2 WAITING)).
  - apply db_of_keys.
  - vm_compute. reflexivity.
  - exists 2%N. vm_compute. reflexivity.
Defined.

Lemma resume_pass_exact_witness :
  job_status <$> db_jobs (resume_unblocked_waiting_once Fixtures.cfg 5 0 (λ _, None) None unblocked_db).2 !! 2%N
    = Some PENDING ∧
  queued unblocked_db (resume_unblocked_waiting_once Fixtures.cfg 5 0 (λ _, None) None unblocked_db).2
    [submitted_content Fixtures.cfg (Fixtures.row 2 WAITING)].
Proof.
  destruct (resume_pass_exact Fixtures.cfg 5 0 (λ _, None) None unblocked_db (db_of_keys _ _)) as (_ & Hq & Hl).
  split.
  - rewrite Hl. vm_compute. reflexivity.
  - replace [submitted_content Fixtures.cfg (Fixtures.row 2 WAITING)] with
      (submitted_content Fixtures.cfg <$> filter (λ j, bool_decide (find_blocking_pause 0 None unblocked_db (job_id j) = None) = true)
         (promotable_waiting None unblocked_db)) by (vm_compute; reflexivity).
    exact Hq.
Defined.

(** Ten minutes after the fixture time, job 1 has been PENDING all along. *)
Definition ten_minutes_later : Z := (Fixtures.at_time + secs 600)%Z.

Definition backstop_result : DB :=
  match requeue_stale_pending_once Fixtures.cfg ten_minutes_later 0 (Some ∅) (Fixtures.chain_db PENDING 0) with
  | Ok db => db
  | Err _ => empty_db
  end.

Lemma backstop_deduplicates_witness :
  ∃ fired : list Job,
    queued (Fixtures.chain_db PENDING 0) backstop_result (submitted_content Fixtures.cfg <$> fired) ∧
    (∀ j, j ∈ fired → stale_pending ten_minutes_later j = true).
Proof.
  destruct (backstop_deduplicates Fixtures.cfg ten_minutes_later 0 ∅ (Fixtures.chain_db PENDING 0) backstop_result
    (db_of_keys _ _)) as (fired & Hq & _ & Hin & _); [vm_compute; reflexivity|].
  exists fired. split; [exact Hq|]. intros j Hj. by apply Hin.
Defined.

(** A RUNNING job that checked in at the fixture time. *)
Definition beating : Job :=
  apply_sets [SetStartedAt (Some 0%Z); SetHeartbeatAt (Some Fixtures.at_time)] (Fixtures.row 1 RUNNING).

Lemma live_lease_survives_sweep_witness :
  db_jobs (sweep_stale_running_once Fixtures.cfg Fixtures.at_time Fixtures.at_time 900 ∅
             (λ k, (λ d, d, TxCommits)) (Fixtures.db_of [beating] [])).2 !! 1%N = Some beating.
Proof.
  apply (live_lease_survives_sweep Fixtures.cfg Fixtures.at_time Fixtures.at_time 900 ∅ (λ _, TxCommits)
    (Fixtures.db_of [beating] []) 1 beating Fixtures.at_time (db_of_keys _ _));
    [vm_compute; reflexivity|reflexivity|reflexivity|vm_compute; discriminate].
Defined.

Lemma recovery_is_compare_and_set_witness :
  recover_row Fixtures.cfg 5 false (Fixtures.row 1 RUNNING) 0 TxCommits (Fixtures.db_of [beating] []) =
  (false, Fixtures.db_of [beating] []).
Proof.
  apply recovery_is_compare_and_set. intros j Hj. vm_compute in Hj. injection Hj as <-.
  right. left. discriminate.
Defined.

(** The same job started now and held by this worker. *)
Definition held_job : Job := apply_sets [SetStartedAt (Some Fixtures.at_time)] (Fixtures.row 1 RUNNING).

Lemma renewal_protects_bounded_witness :
  ∃ j', db_jobs (renew_running_leases_once Fixtures.at_time 900 {[uuid_str 1]} (Fixtures.db_of [held_job] [])).2 !! 1%N
          = Some j' ∧ job_heartbeat_at j' = Some Fixtures.at_time.
Proof.
  destruct (renewal_protects_bounded Fixtures.at_time 900 {[uuid_str 1]} (Fixtures.db_of [held_job] []) 1 held_job
    (db_of_keys _ _)) as (j' & Hj' & _ & _ & Hhold & _); [vm_compute; reflexivity|].
  exists j'. split; [exact Hj'|]. apply Hhold.
  - replace (omap uuid_parse (elements {[uuid_str 1]})) with [1%N] by (vm_compute; reflexivity).
    apply list_elem_of_singleton. reflexivity.
  - reflexivity.
  - exists Fixtures.at_time. split; [reflexivity|]. vm_compute. discriminate.
Defined.
