(* ===== verification/ReleaseOrder.v ===== *)
(** * A job is released only when its parents are done

    The transition system of [System] seen through the dependency graph: which steps
    make a job ready to run, and what is then true of its parents.  Two shapes of
    transaction compose: one that may release jobs and keeps completed ones completed
    ([calm]), and one that releases none ([hushed]). *)
From stdpp Require Import base tactics numbers option list gmap strings sorting relations.
From Stdlib Require Import QArith.
From S2P Require Import Prelude PyData Models Database JobEvents JobRepo Cascade Redis Queue DagPause JobService World Dispatcher Sweeps OutboxRelay Resolver SagaFlow DbInv OpsInv SweepProps System Fixtures.

Definition status_at (db : DB) (i : uuid) : option JobStatus := job_status <$> db_jobs db !! i.

(** Not there yet, or held back; and ready to run, or running. *)
Definition unreleased (o : option JobStatus) : bool := match o with None | Some WAITING => true | _ => false end.
Definition released (o : option JobStatus) : bool := match o with Some PENDING | Some RUNNING => true | _ => false end.

Definition parents_done (db : DB) (i : uuid) : Prop := ∀ p, edge db p i → status_at db p = Some COMPLETED.

(** ** How a transaction may treat the graph *)

Record paced (db db' : DB) : Prop := {
  pc_edges : ∀ p c, edge db' p c → is_Some (status_at db c) → edge db p c;
  pc_release : ∀ i, unreleased (status_at db i) = true → released (status_at db' i) = true → parents_done db' i;
  pc_waiting : ∀ i, status_at db' i = Some WAITING → unreleased (status_at db i) = true
}.

Record calm (db db' : DB) : Prop := {
  ca_paced :> paced db db';
  ca_completed : ∀ p, status_at db p = Some COMPLETED → status_at db' p = Some COMPLETED;
  ca_source : ∀ i, released (status_at db' i) = true → released (status_at db i) = true ∨ unreleased (status_at db i) = true;
  ca_rows : ∀ i, is_Some (status_at db i) → is_Some (status_at db' i)
}.

Record hushed (db db' : DB) : Prop := {
  hu_deps : db_deps db' = db_deps db;
  hu_source : ∀ i, released (status_at db' i) = true →
    released (status_at db i) = true ∨ (status_at db i = None ∧ ∀ p, ¬ edge db p i);
  hu_waiting : ∀ i, status_at db' i = Some WAITING → unreleased (status_at db i) = true;
  hu_rows : ∀ i, is_Some (status_at db i) → is_Some (status_at db' i)
}.

Lemma released_not_un o : released o = true → unreleased o = true → False.
Proof. by destruct o as [[]|]. Qed.

Lemma hushed_paced db db' : hushed db db' → paced db db'.
Proof.
  intros [Hd Hs Hw _]. split.
  - intros p c. unfold edge. by rewrite Hd.
  - intros i Hu Hr p He. exfalso. destruct (Hs i Hr) as [Hr'|[_ Hno]]; [by eapply released_not_un|].
    apply (Hno p). unfold edge in *. by rewrite <- Hd.
  - done.
Qed.

Lemma none_before db db' i :
  (∀ i, is_Some (status_at db i) → is_Some (status_at db' i)) → status_at db' i = None → status_at db i = None.
Proof. intros Hr Hn. apply eq_None_not_Some. intros Hs. apply Hr in Hs. rewrite Hn in Hs. by destruct Hs. Qed.

#[export] Instance calm_preorder : PreOrder calm.
Proof.
  split.
  - intros db. split; [|done|by left|done]. split; [done| |intros i ->; done].
    intros i Hu Hr. destruct (released_not_un _ Hr Hu).
  - intros a b c [[E1 R1 W1] C1 S1 K1] [[E2 R2 W2] C2 S2 K2].
    assert (Hback : ∀ i, unreleased (status_at b i) = true → unreleased (status_at a i) = true).
    { intros i Hu. destruct (status_at b i) as [[]|] eqn:Eb; try done; [by apply W1|].
      by rewrite (none_before a b i K1 Eb). }
    split; [split| | |].
    + intros p x He Hx. apply E1; [|done]. apply E2; [done|auto].
    + intros i Hu Hr. destruct (S2 i Hr) as [Hb|Hb]; [|by apply R2].
      intros p He. apply C2. apply (R1 i Hu Hb). apply E2; [done|]. by destruct (status_at b i).
    + intros i Hw. apply Hback. by apply W2.
    + auto.
    + intros i Hr. destruct (S2 i Hr) as [Hb|Hb]; [by apply S1|right; by apply Hback].
    + auto.
Qed.

#[export] Instance hushed_preorder : PreOrder hushed.
Proof.
  split.
  - intros db. split; [done|by left|intros i ->; done|done].
  - intros a b c [D1 S1 W1 K1] [D2 S2 W2 K2]. split.
    + congruence.
    + intros i Hr. destruct (S2 i Hr) as [Hb|[Hn Hno]]; [by apply S1|].
      right. split; [by eapply none_before|]. intros p He. apply (Hno p). unfold edge in *. by rewrite D1.
    + intros i Hw. specialize (W2 i Hw). destruct (status_at b i) as [[]|] eqn:Eb; try done; [by apply W1|].
      by rewrite (none_before a b i K1 Eb).
    + auto.
Qed.

(** Neither looks at anything but the rows' statuses and the edges. *)
Definition same_graph (db db' : DB) : Prop := db_jobs db' = db_jobs db ∧ db_deps db' = db_deps db.

Lemma same_status db db' i : same_graph db db' → status_at db' i = status_at db i.
Proof. unfold status_at. by intros [-> _]. Qed.

Lemma same_calm db db' : same_graph db db' → calm db db'.
Proof.
  intros Hg. split; [split| | |]; intros i; rewrite ?(same_status _ _ _ Hg); try done.
  - unfold edge. by destruct Hg as [_ ->].
  - intros Hu Hr. destruct (released_not_un _ Hr Hu).
  - by intros ->.
  - by left.
Qed.

Lemma same_hushed db db' : same_graph db db' → hushed db db'.
Proof.
  intros Hg. split; [by destruct Hg| | |]; intros i; rewrite ?(same_status _ _ _ Hg); try done; [by left|by intros ->].
Qed.

Lemma paced_then db db1 db2 : paced db db1 → same_graph db1 db2 → paced db db2.
Proof.
  intros [E R W] Hg. split.
  - intros p c He. apply E. unfold edge in *. by destruct Hg as [_ <-].
  - intros i Hu. rewrite (same_status _ _ _ Hg). intros Hr p He. rewrite (same_status _ _ _ Hg).
    apply (R i Hu Hr). unfold edge in *. by destruct Hg as [_ <-].
  - intros i. rewrite (same_status _ _ _ Hg). apply W.
Qed.

Section Release.
Context `{SqlOrder, UuidSource} (cfg : Settings).

(** ** Writes to single rows *)

(** A row that keeps or leaves its place in the order. *)
Definition row_calm (old new : JobStatus) : Prop :=
  (old = COMPLETED → new = COMPLETED) ∧ (released (Some new) = true → released (Some old) = true) ∧
  (new = WAITING → old = WAITING).

Lemma rows_calm db db' :
  db_deps db' = db_deps db →
  (∀ i, match db_jobs db !! i, db_jobs db' !! i with
        | Some j, Some j' => row_calm (job_status j) (job_status j')
        | None, None => True
        | _, _ => False
        end) → calm db db'.
Proof.
  intros Hd Hrow. split; [split| | |].
  - intros p c. unfold edge. by rewrite Hd.
  - intros i Hu Hr. exfalso. specialize (Hrow i). unfold status_at in *.
    destruct (db_jobs db !! i), (db_jobs db' !! i); cbn in *; try done.
    destruct Hrow as (_ & Hs & _). by eapply released_not_un; [apply Hs|].
  - intros i Hw. specialize (Hrow i). unfold status_at in *.
    destruct (db_jobs db !! i), (db_jobs db' !! i); cbn in *; try done. destruct Hrow as (_ & _ & Hx).
    injection Hw as Hw. by rewrite Hx.
  - intros i Hc. specialize (Hrow i). unfold status_at in *.
    destruct (db_jobs db !! i), (db_jobs db' !! i); cbn in *; try done. destruct Hrow as (Hx & _ & _).
    injection Hc as Hc. by rewrite Hx.
  - intros i Hr. left. specialize (Hrow i). unfold status_at in *.
    destruct (db_jobs db !! i), (db_jobs db' !! i); cbn in *; try done. by apply Hrow.
  - intros i Hs. specialize (Hrow i). unfold status_at in *.
    by destruct (db_jobs db !! i), (db_jobs db' !! i).
Qed.

Lemma row_calm_refl s : row_calm s s.
Proof. by repeat split. Qed.

Lemma update_job_calm now i guard sets db :
  (∀ j, guard j = true → row_calm (job_status j) (job_status (apply_sets (touch now sets) j))) →
  calm db (update_job now i guard sets db).2.
Proof.
  intros Hrow. apply rows_calm; [apply update_job_frame|]. intros k. rewrite update_job_jobs.
  destruct (db_jobs db !! k) as [j|]; [|done]. destruct (bool_decide (i = k)) eqn:Ei; cbn; [|apply row_calm_refl].
  destruct (guard j) eqn:Eg; [by apply Hrow|apply row_calm_refl].
Qed.

Lemma keeps_calm now sets j : Forall keeps_status sets → row_calm (job_status j) (job_status (apply_sets (touch now sets) j)).
Proof. intros Hs. rewrite apply_sets_keeps_status by (by apply touch_keeps_status). apply row_calm_refl. Qed.

Lemma claim_calm now i db : calm db (claim_for_running now i db).2.
Proof. apply update_job_calm. intros j Hg. apply bool_decide_eq_true in Hg. by rewrite Hg. Qed.

Lemma renew_calm now th ids db : calm db (renew_running_leases_once now th ids db).2.
Proof.
  unfold renew_running_leases_once, renew_running_leases. case_match; [reflexivity|].
  apply rows_calm; [done|]. intros i. cbn. rewrite lookup_fmap. destruct (db_jobs db !! i) as [j|]; [|done].
  cbn. case_match; apply row_calm_refl.
Qed.

(** *** Promotion *)

Lemma promote_calm now i db : parents_done db i → calm db (promote_waiting_to_pending now i db).2.
Proof.
  intros Hp. destruct (match db_jobs db !! i with Some j => bool_decide (job_status j = WAITING) | None => false end) eqn:Ew.
  2:{ unfold promote_waiting_to_pending. rewrite update_job_miss; [done|]. unfold update_job.
      destruct (db_jobs db !! i); [by rewrite Ew|done]. }
  destruct (db_jobs db !! i) as [j|] eqn:Hj; [|done]. apply bool_decide_eq_true in Ew. rename Ew into Hw.
  assert (Hst : ∀ k, status_at (promote_waiting_to_pending now i db).2 k = if bool_decide (i = k) then Some PENDING else status_at db k).
  { intros k. unfold status_at, promote_waiting_to_pending. rewrite update_job_jobs. case_bool_decide as Hk.
    - subst k. rewrite Hj, Hw, (bool_decide_true (WAITING = WAITING)) by done. done.
    - by destruct (db_jobs db !! k). }
  assert (Hd : db_deps (promote_waiting_to_pending now i db).2 = db_deps db) by apply update_job_frame.
  assert (Hi : status_at db i = Some WAITING) by (unfold status_at; by rewrite Hj, <- Hw).
  split; [split| | |].
  - intros p c. unfold edge. by rewrite Hd.
  - intros k Hu. rewrite Hst. case_bool_decide as Hk.
    + intros _ p He. subst k. rewrite Hst. unfold edge in He. rewrite Hd in He. specialize (Hp p He).
      case_bool_decide; [subst p; congruence|done].
    + intros Hr. destruct (released_not_un _ Hr Hu).
  - intros k. rewrite Hst. case_bool_decide; [done|]. by intros ->.
  - intros p Hc. rewrite Hst. case_bool_decide; [congruence|done].
  - intros k. rewrite Hst. case_bool_decide as Hk; [|by left]. subst k. rewrite Hi. by right.
  - intros k Hs. rewrite Hst. by case_bool_decide.
Qed.

(** *** [update_status] *)

Lemma update_status_graph now i status extra msg guard db :
  keys_ok db → Forall keeps_status extra →
  let db' := (update_status cfg now i status extra msg guard db).2 in
  db_deps db' = db_deps db ∧
  ∀ k, status_at db' k = status_at db k ∨ (status_at db k = Some WAITING ∧ status_at db' k = Some CANCELLED) ∨
       (k = i ∧ is_Some (status_at db i) ∧ status_at db' k = Some status).
Proof.
  intros Hk He db'.
  destruct (match db_jobs db !! i with Some j => default no_guard guard j | None => false end) eqn:Ehit.
  2:{ unfold db'. rewrite update_status_miss; [by split; [|left]|]. intros j Hj. by rewrite Hj in Ehit. }
  destruct (db_jobs db !! i) as [j|] eqn:Hj; [|done].
  destruct (update_status_hit cfg now i status extra msg guard db j Hk He Hj Ehit) as (_ & gone & [Wd _ _ Wself Wgone Wother _ _] & _).
  fold db' in Wd, Wself, Wgone, Wother. split; [done|]. intros k. unfold status_at.
  destruct (decide (k = i)) as [->|Hne].
  - right. right. rewrite Wself, Hj. split_and!; [done|by eexists|]. cbn. f_equal. by apply written_row_status.
  - destruct (decide (k ∈ gone)) as [Hin|Hout]; [|left; by rewrite Wother].
    right. left. destruct (Wgone k Hin) as (_ & (x & Hx & Hc) & E). rewrite E, Hx. cbn.
    apply bool_decide_eq_true in Hc as [-> _]. done.
Qed.

(** A write that releases nothing. *)
Lemma terminal_hushed now i status extra msg guard db :
  keys_ok db → Forall keeps_status extra → unfinished status = false →
  hushed db (update_status cfg now i status extra msg guard db).2.
Proof.
  intros Hk He Hs. destruct (update_status_graph now i status extra msg guard db Hk He) as [Hd Hst].
  split; [done| | |]; intros k; destruct (Hst k) as [->|[[-> ->]|(-> & Hx & ->)]]; try done; try (by left); try (by intros ->).
  all: by destruct status.
Qed.

(** A write to PENDING of a job that had been released before. *)
Lemma again_paced now i extra msg guard db :
  keys_ok db → Forall keeps_status extra → status_at db i ≠ Some WAITING →
  paced db (update_status cfg now i PENDING extra msg guard db).2.
Proof.
  intros Hk He Hw. destruct (update_status_graph now i PENDING extra msg guard db Hk He) as [Hd Hst]. split.
  - intros p c. unfold edge. by rewrite Hd.
  - intros k Hu Hr. exfalso. destruct (Hst k) as [E|[[_ E]|(-> & [s Hx] & _)]].
    + rewrite E in Hr. by eapply released_not_un.
    + by rewrite E in Hr.
    + rewrite Hx in *. by destruct s.
  - intros k Hkw. destruct (Hst k) as [E|[[_ E]|(-> & _ & E)]]; rewrite E in Hkw; [by rewrite Hkw|done|done].
Qed.

(** ** Creating jobs *)

Lemma insert_calm row (ps : list uuid) db db' :
  (∀ p, ¬ edge db p (job_id row)) → status_at db (job_id row) = None → job_status row = WAITING ∨ job_status row = PENDING →
  (job_status row = PENDING → ∀ p, p ∈ ps → status_at db p = Some COMPLETED) →
  db_jobs db' = <[job_id row := row]> (db_jobs db) → (∀ p c, edge db' p c ↔ edge db p c ∨ (c = job_id row ∧ p ∈ ps)) →
  calm db db'.
Proof.
  intros Hno Hnone Hst Hps Hj He.
  assert (Hs : ∀ k, status_at db' k = if bool_decide (k = job_id row) then Some (job_status row) else status_at db k).
  { intros k. unfold status_at. rewrite Hj. case_bool_decide as Hk; [subst k; by rewrite lookup_insert_eq|by rewrite lookup_insert_ne]. }
  assert (Hold : ∀ p, status_at db p = Some COMPLETED → status_at db' p = Some COMPLETED).
  { intros p Hp. rewrite Hs. case_bool_decide; [subst p; congruence|done]. }
  split; [split|done| |].
  - intros p c [Hc|[-> _]]%He Hx; [done|]. rewrite Hnone in Hx. by destruct Hx.
  - intros i Hu. rewrite Hs. case_bool_decide as Hi.
    + subst i. intros Hr p [Hp|[_ Hp]]%He; [by destruct (Hno p)|]. apply Hold, Hps; [|done].
      destruct Hst as [E|E]; [by rewrite E in Hr|done].
    + intros Hr. destruct (released_not_un _ Hr Hu).
  - intros i. rewrite Hs. case_bool_decide as Hi; [subst i; by rewrite Hnone|]. by intros ->.
  - intros i. rewrite Hs. case_bool_decide as Hi; [subst i; rewrite Hnone; by right|by left].
  - intros i Hx. rewrite Hs. by case_bool_decide.
Qed.

Lemma load_parents_done deps db ps :
  load_parents deps db = Ok ps → existsb (λ p, bool_decide (job_status p ≠ COMPLETED)) ps = false →
  ∀ p, p ∈ deps → status_at db p = Some COMPLETED.
Proof.
  revert ps. induction deps as [|d deps IH]; intros ps Hl Hx p Hp; [by apply not_elem_of_nil in Hp|].
  cbn in Hl. unfold get_by_id in Hl. destruct (db_jobs db !! d) as [j|] eqn:E; [|done].
  apply bind_ok in Hl as (js & Hjs & Hl). injection Hl as <-. cbn in Hx. apply orb_false_iff in Hx as [Hj Hx].
  apply elem_of_cons in Hp as [->|Hp]; [|by eapply IH]. unfold status_at. rewrite E. cbn. f_equal.
  apply bool_decide_eq_false in Hj. by destruct (decide (job_status j = COMPLETED)).
Qed.

Lemma create_job_calm rq b a db j db' :
  wf cfg ∅ db → create_job cfg rq b a (λ d, d) db = Ok (j, db') → calm db db'.
Proof.
  intros Hwf Hc. unfold create_job in Hc.
  destruct (truthy_key _ ≫= _) as [existing|]; [by injection Hc as _ <-|].
  apply bind_ok in Hc as (ps & Hload & Hc). destruct (draw_uuid db) as [i db1] eqn:Edraw.
  assert (Hd1 : same_graph db db1) by (by injection Edraw as _ <-).
  set (status := initial_status rq b (nj_deps a) ps db) in *. set (row := new_row cfg rq a status i) in *.
  destruct (insert_job row db1) as [db2|e] eqn:Eins.
  2:{ destruct (nj_key a) as [k|]; [|done]. destruct (get_by_idempotency_key _ _ _); [|done].
      injection Hc as _ <-. by apply same_calm. }
  apply insert_job_ok in Eins as (Hnone & _ & Hdb2).
  unfold finish_create in Hc. apply bind_ok in Hc as (db3 & Hd & Hc). injection Hc as _ <-.
  assert (Hg3 : db_jobs db3 = <[i := row]> (db_jobs db) ∧ ∀ p c, edge db3 p c ↔ edge db p c ∨ (c = i ∧ p ∈ nj_deps a)).
  { destruct Hd1 as [Hj1 Hdd1]. destruct (nj_deps a) as [|p0 ps0] eqn:Ea.
    - injection Hd as <-. rewrite Hdb2. unfold edge. cbn. rewrite Hj1, Hdd1. split; [done|].
      intros p c. split; [by left|]. intros [?|[_ Hx]]; [done|by apply not_elem_of_nil in Hx].
    - destruct b; [|done]. apply bind_ok in Hd as (ds & Hds & Hok). injection Hok as <-.
      apply dep_add_ok in Hds as (-> & _ & _). rewrite Hdb2. unfold edge. cbn [with_deps with_jobs db_jobs db_deps].
      rewrite Hj1, Hdd1. split; [done|]. intros p c. rewrite elem_of_app, list_elem_of_fmap. cbn. split.
      + intros [Hx|(x & [= -> ->] & Hx)]; [by left|by right].
      + intros [Hx|[-> Hx]]; [by left|right; by exists p]. }
  assert (Hcalm : calm db db3).
  { destruct Hg3 as [Hj3 He3]. destruct Hd1 as [Hj1 _]. rewrite Hj1 in Hnone.
    apply (insert_calm row (nj_deps a)); try done.
    - intros p He. destruct (wf_edges _ _ _ Hwf _ He) as (_ & _ & Hx). cbn in Hx, Hnone. rewrite Hnone in Hx. by destruct Hx.
    - unfold status_at. cbn in *. by rewrite Hnone.
    - destruct (initial_status_cases rq b (nj_deps a) ps db); [by left|by right].
    - intros Hpend p Hp. change (status = PENDING) in Hpend. unfold status, initial_status in Hpend.
      destruct (existsb (λ p, bool_decide (job_status p ≠ COMPLETED)) ps) eqn:Ex; [done|]. by eapply load_parents_done. }
  etrans; [exact Hcalm|]. apply same_calm. by case_bool_decide.
Qed.

Lemma create_steps_calm rq user tenant saga index prev steps db db' :
  (1 ≤ max_job_attempts cfg)%Z → wf cfg ∅ db →
  create_steps cfg rq user tenant saga index prev steps db = Ok db' → calm db db'.
Proof.
  intros Hmax. revert index prev db. induction steps as [|step steps IH]; intros index prev db Hwf Hs.
  - injection Hs as <-. reflexivity.
  - apply bind_ok in Hs as ([j db1] & Hc & Hs). etrans; [by eapply create_job_calm|].
    eapply IH; [|exact Hs]. apply (create_job_good cfg rq true _ (λ d, d) db _ db1 Hwf Hwf (reflexivity db)) in Hc as [? _]; done.
Qed.

Lemma create_saga_calm rq user tenant name steps db g db' :
  (1 ≤ max_job_attempts cfg)%Z → wf cfg ∅ db → create_saga cfg rq user tenant name steps db = Ok (g, db') → calm db db'.
Proof.
  intros Hmax Hwf Hc. pose proof Hc as Hgood. unfold create_saga in Hc. destruct steps as [|st steps]; [done|].
  destruct (draw_uuid db) as [i db1] eqn:Ed. apply bind_ok in Hc as (db2 & Hsteps & Hc). injection Hc as _ <-.
  set (db0 := with_sagas (<[i := mkSaga i tenant name SAGA_RUNNING (rq_now rq) None]> (db_sagas db1)) db1) in *.
  assert (Hw0 : wf cfg ∅ db0).
  { destruct (good_draw cfg ∅ db Hwf) as [Hw1 _]. rewrite Ed in Hw1. injection Ed as Hi Hdb1.
    apply (good_saga_write cfg ∅ (mkSaga i tenant name SAGA_RUNNING (rq_now rq) None) db1); [| |done].
    - exists (db_draws db). rewrite <- Hdb1, <- Hi. split; [done|cbn; lia].
    - cbn. intros s0 Hs0. destruct (wf_sagas _ _ _ Hwf i s0) as [_ (n & En & Hn)]; [by rewrite <- Hdb1 in Hs0|].
      rewrite <- Hi in En. apply (inj uuid4) in En. lia. }
  etrans; [apply (same_calm db db0); by injection Ed as _ <-|].
  etrans; [by eapply create_steps_calm|]. by apply same_calm.
Qed.

(** ** Replaying, resolving and running *)

Lemma replay_paced rq b i tenant who db j db' fx :
  wf cfg ∅ db → replay_job cfg rq b i tenant who db = Ok (j, db', fx) → paced db db'.
Proof.
  intros Hwf Hr. unfold replay_job in Hr. destruct (get_for_tenant i tenant db) as [job|] eqn:Eg; [|done].
  apply get_for_tenant_some in Eg as [Ej _]. destruct (replayable (job_status job)) eqn:Ere; cbn in Hr; [|done].
  case_match; [done|].
  pose proof (again_paced (rq_now rq) i replay_reset None None db (wf_keys _ _ _ Hwf)) as Hp.
  destruct (update_status cfg (rq_now rq) i PENDING replay_reset None None db) as [[x|] db1]; [|done].
  injection Hr as _ <- _. eapply paced_then; [apply Hp|]; [by repeat constructor| |by split].
  unfold status_at. rewrite Ej. cbn. intros [= E]. by rewrite E in Ere.
Qed.

Lemma resolve_paced rq i user tenant db j db' fx :
  wf cfg ∅ db → resolve_incident cfg rq i user tenant db = Ok (j, db', fx) → paced db db'.
Proof.
  intros Hwf Hr. unfold resolve_incident in Hr. destruct (get_for_tenant i tenant db) as [job|]; [|done].
  pose proof (terminal_hushed (rq_now rq) i COMPLETED [] None None db (wf_keys _ _ _ Hwf)) as Hp.
  destruct (update_status cfg (rq_now rq) i COMPLETED [] None None db) as [[x|] db1]; [|done].
  injection Hr as _ <- _. eapply paced_then; [apply hushed_paced, Hp; done|by split].
Qed.

Lemma run_job_claim_calm now t redis s i db out db' : run_job_claim now t redis s i db = (out, db') → calm db db'.
Proof.
  unfold run_job_claim. destruct (get_by_id i db) as [j|]; [|by intros [= <- <-]].
  case_match; [by intros [= <- <-]|]. case_match; [by intros [= <- <-]|].
  pose proof (claim_calm now i db) as G. destruct (claim_for_running now i db) as [c db1]. by intros [= _ <-].
Qed.

Lemma claimed_is_running now t redis s i db ex db' :
  run_job_claim now t redis s i db = (Claimed ex, db') → wf cfg ∅ db → status_at db' (ex_job ex) = Some RUNNING.
Proof.
  intros Hc Hwf. unfold run_job_claim, get_by_id in Hc. destruct (db_jobs db !! i) as [j|] eqn:Ej; [|done].
  case_bool_decide as Hst; [done|]. case_match; [done|]. unfold claim_for_running, update_job in Hc.
  rewrite Ej, Hst, (bool_decide_true (PENDING = PENDING)) in Hc by done. injection Hc as <- <-.
  cbn. rewrite (wf_keys _ _ _ Hwf i j Ej). unfold status_at. cbn. by rewrite lookup_insert_eq.
Qed.

Lemma status_then now i status extra msg db (k : DB → DB) :
  wf cfg ∅ db → Forall keeps_status extra → unfinished status = false → (∀ d, same_graph d (k d)) →
  paced db (let '(_, d) := update_status cfg now i status extra msg None db in k d).
Proof.
  intros Hwf He Hs Hk. pose proof (terminal_hushed now i status extra msg None db (wf_keys _ _ _ Hwf) He Hs) as Hp.
  destruct (update_status cfg now i status extra msg None db) as [x d]. eapply paced_then; [by apply hushed_paced|apply Hk].
Qed.

Lemma commit_paced tx f after w :
  paced (w_db w) (f (w_db w)) → (∀ w', w_db (after w') = w_db w') → paced (w_db w) (w_db (commit_tx tx f after w).2).
Proof. intros Hf Ha. destruct tx; cbn; [by rewrite Ha|by apply same_calm|done]. Qed.

Lemma settle_paced env ex w :
  wf cfg ∅ (w_db w) → status_at (w_db w) (ex_job ex) ≠ Some WAITING → paced (w_db w) (w_db (settle cfg env ex w).2).
Proof.
  intros Hwf Hw. unfold settle. cbv zeta. destruct (job_type_of_string (ex_type ex)) as [ty|].
  2:{ apply commit_paced; [|done]. apply status_then; [done|by repeat constructor|done|done]. }
  destruct (execute_processor _ _) as [r|m|m].
  - apply commit_paced; [|done]. apply status_then; [done|by repeat constructor|done|done].
  - apply commit_paced; [|done]. apply status_then; [done|by repeat constructor|done|done].
  - destruct (will_retry _ _ _).
    + apply commit_paced; [|intros; apply push_guarded_db]. unfold settle_retry.
      match goal with |- context [update_status cfg ?n ?i PENDING ?e ?m None ?d] =>
        pose proof (again_paced n i e m None d (wf_keys _ _ _ Hwf)) as Hp; destruct (update_status cfg n i PENDING e m None d) as [x d1] end.
      eapply paced_then; [apply Hp; [by repeat constructor|done]|by split].
    + apply commit_paced; [|done]. apply status_then; [done| |done|done].
      destruct (rp_llm_dead_lettered _); by repeat constructor.
Qed.

Lemma force_paced now s e db : wf cfg ∅ db → paced db (force_dead_letter cfg now s e db).
Proof.
  intros Hwf. unfold force_dead_letter. destruct (uuid_parse s) as [i|]; [|by apply same_calm].
  destruct (get_by_id i db) as [j|]; [|by apply same_calm]. destruct (is_terminal _); [by apply same_calm|].
  apply status_then; [done|by repeat constructor|done|done].
Qed.

Lemma recover_paced now b row s tx db : wf cfg ∅ db → paced db (recover_row cfg now b row s tx db).2.
Proof.
  intros Hwf. unfold recover_row.
  pose proof (terminal_hushed now (job_id row) DEAD_LETTER [SetErrorMessage (Some (recovery_error b))] None
                (Some (recovery_guard row)) db (wf_keys _ _ _ Hwf)) as Hp.
  destruct (update_status _ _ _ _ _ _ _ _) as [[x|] db1]; cbn [snd] in Hp;
    destruct tx; cbn [snd]; try (by apply same_calm);
    (eapply paced_then; [apply hushed_paced, Hp; by repeat constructor|by split]).
Qed.

(** ** The background passes and the consumers *)

Lemma promote_item_same e s w : same_graph (w_db w) (w_db (promote_item cfg e s w)).
Proof.
  unfold promote_item. destruct (uuid_parse s) as [i|]; [|by split].
  destruct (it_tx e); [|rewrite push_guarded_db; by split|];
    (destruct (get_by_id i (w_db w)) as [j|]; [|by split]);
    (destruct (find_blocking_pause _ _ _ _); [rewrite push_guarded_db; by split|]); rewrite ?push_guarded_db; by split.
Qed.

(** Promote and announce, as the resolver and the resume sweep do; an announcement
    changes no row. *)
Lemma promote_announce now i db (k : bool → DB → DB) :
  parents_done db i → (∀ ok d, same_graph d (k ok d)) →
  let db' := let '(ok, d) := promote_waiting_to_pending now i db in k ok d in
  calm db db' ∧ db_deps db' = db_deps db.
Proof.
  intros Hp Hk. pose proof (promote_calm now i db Hp) as Hc.
  pose proof (update_job_frame now i (λ j, bool_decide (job_status j = WAITING)) [SetStatus PENDING; SetErrorMessage None] db) as (Hf & _).
  unfold promote_waiting_to_pending in *. destruct (update_job _ _ _ _ _) as [ok d]. cbn in *. split.
  - etrans; [exact Hc|]. by apply same_calm.
  - destruct (Hk ok d) as [_ ->]. done.
Qed.

Lemma resume_row_calm now t r child db :
  parents_done db (job_id child) →
  calm db (resume_row cfg now t r child db) ∧ db_deps (resume_row cfg now t r child db) = db_deps db.
Proof.
  intros Hp. unfold resume_row. case_match; [by split|].
  pose proof (promote_announce now (job_id child) db (λ ok d, if ok then submit_event cfg now child d else d) Hp) as Hc.
  unfold promote_waiting_to_pending in *. destruct (update_job _ _ _ _ _) as [[] d]; [|by split].
  apply Hc. by intros [].
Qed.

Lemma unmet_parents_done X db i : wf cfg X db → dep_unmet_count i db = 0%nat → parents_done db i.
Proof.
  intros Hwf Hu p He. destruct (wf_edges _ _ _ Hwf _ He) as (_ & [jp Hjp] & _). cbn in Hjp.
  unfold status_at. rewrite Hjp. cbn. f_equal. exact (proj1 (unmet_count_zero i db) Hu _ jp He eq_refl Hjp).
Qed.

Lemma resume_calm now t lookup cursor db :
  wf cfg ∅ db → calm db (resume_unblocked_waiting_once cfg now t lookup cursor db).2.
Proof.
  intros Hwf. destruct (promotable_waiting_rows cursor db (wf_keys _ _ _ Hwf)) as [_ Hrows].
  unfold resume_unblocked_waiting_once. cbn [snd].
  assert (Hall : ∀ j, j ∈ promotable_waiting cursor db → parents_done db (job_id j)).
  { intros j Hj. destruct (Hrows j Hj) as [_ Hp]. unfold promotable in Hp. apply andb_true_iff in Hp as [_ Hu].
    apply Nat.eqb_eq in Hu. by eapply unmet_parents_done. }
  clear Hrows. revert Hall. generalize (promotable_waiting cursor db) as rows. intros rows Hall.
  assert (Hgen : ∀ d, calm db d → db_deps d = db_deps db →
            calm db (foldl (λ db child, resume_row cfg now t (lookup (job_id child)) child db) d rows)); [|by apply Hgen].
  induction rows as [|j rows IH]; intros d Hd Hdd; [done|]. cbn [foldl].
  destruct (resume_row_calm now t (lookup (job_id j)) j d) as [Hc Hd'].
  { intros p He. apply (ca_completed _ _ Hd). apply (Hall j); [left|]. unfold edge in *. by rewrite <- Hdd. }
  apply IH; [intros x Hx; apply Hall; by right|by etrans|congruence].
Qed.

Lemma requeue_calm now t r db db' : requeue_stale_pending_once cfg now t r db = Ok db' → calm db db'.
Proof.
  unfold requeue_stale_pending_once. generalize (take STALE_PENDING_LIMIT (filter (λ j, stale_pending now j = true) (all_jobs db))) as rows.
  intros rows. revert db. induction rows as [|j rows IH]; intros db Hr; [by injection Hr as <-|].
  apply bind_ok in Hr as (db1 & H1 & H2). etrans; [|by apply IH].
  apply bind_ok in H1 as ([q|] & _ & H1); injection H1 as <-; [done|].
  etrans; [apply (same_calm _ (submit_event cfg now j db)); by split|].
  apply update_job_calm. intros x _. apply keeps_calm. by repeat constructor.
Qed.

Lemma fire_replay_paced e entry w : wf cfg ∅ (w_db w) → paced (w_db w) (w_db (fire_replay cfg e entry w)).
Proof.
  intros Hwf. destruct entry as [[tenant principal] job]. unfold fire_replay. destruct (rv_request e) as [now t].
  assert (Hrep : paced (w_db w) (w_db
    match replay_job cfg (mkRequest now t (redis_view (rv_lookup_ok e) w) [] "") true job tenant
            (mkCaller None "service_account" (Some principal)) (w_db w) with
    | Ok (_, db, _) => with_db db w
    | Err _ => w
    end)).
  { destruct (replay_job _ _ _ _ _ _ _) as [[[j db] fx]|] eqn:Er; [|by apply same_calm]. by eapply replay_paced. }
  destruct (rv_tx e); [|by apply same_calm|];
    (destruct (find_blocking_pause _ _ _ _); [rewrite ?redis_call_db; by apply same_calm|exact Hrep]).
Qed.

Lemma update_outbox_same ids f db : same_graph db (update_outbox ids f db).
Proof. by split. Qed.

Lemma relay_same now producer marked w : same_graph (w_db w) (w_db (outbox_relay_tick cfg now producer (λ d, d) marked w)).
Proof.
  unfold outbox_relay_tick. case_match; [by split|]. destruct (publish_events _ _ _) as [ta log]. cbn [w_db].
  destruct marked; [|by split]. unfold mark_results. cbv zeta.
  assert (Hg : same_graph (w_db w) (increment_attempts (ta_retry ta) (mark_published now (ta_published ta) (w_db w)))).
  { unfold increment_attempts, mark_published. repeat case_match; by split. }
  revert Hg. generalize (increment_attempts (ta_retry ta) (mark_published now (ta_published ta) (w_db w))) as d.
  induction (ta_dead ta) as [|[i m] dead IH]; intros d Hg; [done|]. cbn [foldl]. apply IH. destruct Hg as [Hj Hd]. by split.
Qed.

Lemma resolve_child_calm now t r c db : wf cfg ∅ db → calm db (resolve_child cfg now t r (λ d, d) c db).
Proof.
  intros Hwf. unfold resolve_child, get_by_id. destruct (db_jobs db !! c) as [child|] eqn:Ec; [|done].
  case_bool_decide; [done|]. destruct (0 <? dep_unmet_count c db)%nat eqn:Eu; [done|]. case_match; [done|].
  apply Nat.ltb_ge in Eu.
  apply (promote_announce now c db (λ ok d, if ok then submit_event cfg now child d else d)); [|by intros []].
  eapply unmet_parents_done; [exact Hwf|lia].
Qed.

Lemma resolver_calm now t r m db : wf cfg ∅ db → calm db (resolver_handle_message cfg now t r (λ _ d, d) m db).
Proof.
  intros Hwf. unfold resolver_handle_message. destruct (m ≫= uuid_parse) as [parent|]; [|done].
  generalize (dep_children_of parent db) as cs. intros cs. revert db Hwf.
  induction cs as [|c cs IH]; intros db Hwf; [done|]. cbn [foldl]. etrans; [by apply resolve_child_calm|].
  apply IH. apply (resolve_child_good cfg now t r (λ d, d) c db); [|done]. intros. apply good_refl.
Qed.

(** *** Sagas *)

Lemma cancel_downstream_hushed now failed steps db : wf cfg ∅ db → hushed db (cancel_downstream cfg now failed steps db).2.
Proof.
  unfold cancel_downstream. generalize 0%nat as n. intros n. revert n db.
  induction steps as [|w steps IH]; intros n db Hwf; [done|]. cbn [foldl]. case_bool_decide; [by apply IH|].
  pose proof (terminal_hushed now (job_id w) CANCELLED [SetErrorMessage (Some "saga rollback")] None None db
                (wf_keys _ _ _ Hwf) ltac:(by repeat constructor) eq_refl) as Hh.
  etrans; [exact Hh|]. apply IH.
  apply (good_terminal_write cfg ∅ now (job_id w) CANCELLED); [done|by repeat constructor..|done].
Qed.

Lemma compensate_hushed now s user done_ db db' :
  wf cfg ∅ db → compensate cfg now s user done_ db = Ok db' → hushed db db'.
Proof.
  intros Hwf Hc. unfold compensate in Hc. destruct (draw_uuid db) as [i db1] eqn:Ed.
  apply bind_ok in Hc as (db2 & Hins & Hc). injection Hc as <-. apply insert_job_ok in Hins as (Hnone & _ & ->).
  injection Ed as _ <-. cbn in Hnone. set (row := compensation_row now s user done_ i).
  assert (Hst : ∀ k, status_at (submit_event cfg now row (with_jobs (<[job_id row := row]> (db_jobs db)) db)) k =
                     if bool_decide (k = i) then Some PENDING else status_at db k).
  { intros k. unfold status_at. cbn. case_bool_decide as Hk; [subst k; by rewrite lookup_insert_eq|by rewrite lookup_insert_ne]. }
  assert (Hi : status_at db i = None) by (unfold status_at; by rewrite Hnone).
  split; [done| | |]; intros k; (change (db_jobs _) with (db_jobs db) || idtac).
  - intros Hr. destruct (decide (k = i)) as [->|Hne].
    + right. split; [done|]. intros p He. destruct (wf_edges _ _ _ Hwf _ He) as (_ & _ & [x Hx]). cbn in Hx. congruence.
    + left. unfold status_at in *. cbn in Hr. by rewrite lookup_insert_ne in Hr.
  - intros Hw. unfold status_at in *. cbn in Hw. destruct (decide (k = i)) as [->|Hne]; [by rewrite lookup_insert_eq in Hw|].
    rewrite lookup_insert_ne in Hw by done. by rewrite Hw.
  - intros [x Hx]. unfold status_at in *. cbn. destruct (decide (k = i)) as [->|Hne]; [by rewrite lookup_insert_eq|].
    rewrite lookup_insert_ne by done. by rewrite Hx.
Qed.

Lemma compensate_all_hushed now s user steps db db' :
  (∀ d, d ∈ steps → 1 ≤ job_max_attempts d)%Z → wf cfg ∅ db →
  compensate_all cfg now s user steps db = Ok db' → hushed db db'.
Proof.
  revert db. induction steps as [|d steps IH]; intros db Hpos Hwf Hc; [by injection Hc as <-|].
  apply bind_ok in Hc as (db1 & H1 & H2). etrans; [by eapply compensate_hushed|].
  apply IH; [intros x Hx; apply Hpos; by right| |done].
  eapply compensate_good; [|exact H1|done]. apply Hpos. left.
Qed.

Lemma settle_if_drained_same now s db : same_graph db (settle_if_drained now s db).
Proof. unfold settle_if_drained. cbv zeta. case_match; by split. Qed.

Lemma saga_paced now ev i dl db db' : wf cfg ∅ db → saga_handle_message cfg now ev i dl db = Ok db' → paced db db'.
Proof.
  intros Hwf Hm. apply hushed_paced. unfold saga_handle_message in Hm.
  destruct ev as [ev|]; [|by injection Hm as <-]. destruct i as [i|]; [|by injection Hm as <-].
  case_bool_decide; [by injection Hm as <-|]. destruct (uuid_parse i) as [u|]; [|by injection Hm as <-].
  destruct (get_by_id u db) as [job|]; [|by injection Hm as <-].
  destruct (job_saga_id job ≫= _) as [s|] eqn:Es; [|by injection Hm as <-].
  apply bind_Some in Es as (si & _ & Hs). pose proof (wf_sagas _ _ _ Hwf si s Hs) as [Hid _]. subst si.
  destruct (saga_status s) eqn:Est; try (by injection Hm as <-).
  - assert (Hu : saga_settled s = false) by (unfold saga_settled; by rewrite Est).
    destruct (is_compensation job); [by injection Hm as <-|].
    case_match; [injection Hm as <-; apply same_hushed; unfold handle_completion; repeat case_match; by split|].
    case_match; [|by injection Hm as <-]. unfold handle_failure in Hm. cbv zeta in Hm.
    set (db1 := write_saga (set_saga SAGA_COMPENSATING (saga_completed_at s) s) db) in *.
    destruct (good_write_saga cfg s SAGA_COMPENSATING (saga_completed_at s) db s Hs Hu Hwf) as [Hw1 _]. fold db1 in Hw1.
    pose proof (cancel_downstream_hushed now u (waiting_steps (saga_id s) db1) db1 Hw1) as Hcd.
    destruct (cancel_downstream_good cfg now u (waiting_steps (saga_id s) db1) 0 db1 Hw1) as [Hw2 _].
    unfold cancel_downstream in *. destruct (foldl _ _ _) as [n db2]. cbn [snd] in *.
    apply bind_ok in Hm as (db3 & Hcomp & Hm). injection Hm as <-.
    etrans; [apply (same_hushed db db1); by split|]. etrans; [exact Hcd|]. etrans.
    + eapply compensate_all_hushed; [|exact Hw2|exact Hcomp]. intros d Hd.
      apply list_elem_of_In, in_rev, list_elem_of_In in Hd.
      apply completed_steps_elem in Hd as ((x & Hx) & _). by apply (wf_positive _ _ _ Hw2 x).
    + apply same_hushed. case_match; [|by split]. destruct (settle_if_drained_same now (set_saga SAGA_COMPENSATING (saga_completed_at s) s)
        (saga_audit now "saga.compensating" s [("failed_job_id", juuid u); ("compensations_emitted", JInt 0); ("cancelled_downstream", JInt (Z.of_nat n))] db3)) as [Ej Ed].
      split; [exact Ej|exact Ed].
  - injection Hm as <-. apply same_hushed. case_match; [apply settle_if_drained_same|by split].
Qed.

(** ** The transition system *)

(** An execution under way belongs to a job that was released. *)
Definition was_released (db : DB) (ex : Execution) : Prop := unreleased (status_at db (ex_job ex)) = false.

Lemma was_released_step db db' ex : keeps db db' → paced db db' → was_released db ex → was_released db' ex.
Proof.
  intros Hk Hp Hr. unfold was_released in *. destruct (status_at db' (ex_job ex)) as [s|] eqn:Es.
  - destruct s; try done. by rewrite (pc_waiting _ _ Hp _ Es) in Hr.
  - unfold status_at in *. destruct (db_jobs db !! ex_job ex) as [j|] eqn:Ej; [|done].
    destruct (ev_jobs _ _ Hk _ _ Ej) as (j' & Ej' & _). by rewrite Ej' in Es.
Qed.

Definition release_inv (s : System) : Prop := Forall (was_released (sys_db s)) (sys_running s).

Lemma step_paced s s' : sys_step cfg s s' → sys_inv cfg s → release_inv s → paced (sys_db s) (sys_db s').
Proof.
  intros Hstep [Hwf _ _ _] Hrel. unfold release_inv in Hrel. destruct Hstep; unfold sys_db in *; cbn [sys_world sys_commit with_db w_db] in *.
  - by eapply create_job_calm.
  - by eapply create_saga_calm.
  - by eapply replay_paced.
  - by eapply resolve_paced.
  - by eapply run_job_claim_calm.
  - apply settle_paced; [done|]. rewrite H1, Forall_app, Forall_cons in Hrel. destruct Hrel as (_ & Hex & _).
    intros E. unfold was_released in Hex. cbn in Hex. by rewrite E in Hex.
  - by apply same_calm.
  - by apply force_paced.
  - apply same_calm. apply promote_item_same.
  - by apply resume_calm.
  - by eapply requeue_calm.
  - by apply recover_paced.
  - apply renew_calm.
  - by apply fire_replay_paced.
  - apply same_calm. apply relay_same.
  - by apply resolver_calm.
  - by eapply saga_paced.
  - apply update_job_calm. intros j _. apply keeps_calm. by repeat constructor.
  - by apply same_calm.
Qed.

Lemma step_release_inv s s' : sys_step cfg s s' → sys_inv cfg s → release_inv s → release_inv s'.
Proof.
  intros Hstep Hinv Hrel. pose proof (step_paced s s' Hstep Hinv Hrel) as Hp.
  destruct (sys_step_inv cfg s s' Hstep Hinv) as [_ Hk].
  assert (Hall : Forall (was_released (sys_db s')) (sys_running s)).
  { eapply Forall_impl; [exact Hrel|]. intros ex. by apply was_released_step. }
  unfold release_inv. destruct Hstep; cbn [sys_running sys_commit] in *; try exact Hall.
  - constructor; [|exact Hall]. unfold was_released, sys_db. cbn.
    by rewrite (claimed_is_running _ _ _ _ _ _ _ _ H1 (inv_db _ _ Hinv)).
  - rewrite H1, Forall_app, Forall_cons in Hall. apply Forall_app. tauto.
  - rewrite H1, Forall_app, Forall_cons in Hall. apply Forall_app. tauto.
Qed.

Lemma reachable_release_inv s : reachable cfg s → sys_inv cfg s ∧ release_inv s.
Proof.
  intros (s0 & Hi & Hr). assert (H0' : sys_inv cfg s0 ∧ release_inv s0).
  { split; [by apply initial_inv|]. destruct Hi as (_ & _ & Hrun). unfold release_inv. by rewrite Hrun. }
  clear Hi. induction Hr as [|a b c Hab _ IH]; [done|]. apply IH. destruct H0' as [Hs Hrel].
  split; [by apply (sys_step_inv cfg a b)|by eapply step_release_inv].
Qed.

(** C3: No job runs before its parents: in every reachable state, whatever transaction
    commits next, a job that becomes PENDING or RUNNING and was WAITING or did not exist
    before has every one of its parents COMPLETED.  A job never returns to WAITING and
    never gains a parent after its creation, so no parent escapes this. *)
Theorem children_wait_for_parents s s' i :
  reachable cfg s → sys_step cfg s s' →
  (unreleased (status_at (sys_db s) i) = true → released (status_at (sys_db s') i) = true →
   ∀ p, edge (sys_db s') p i → status_at (sys_db s') p = Some COMPLETED) ∧
  (status_at (sys_db s') i = Some WAITING → unreleased (status_at (sys_db s) i) = true) ∧
  (is_Some (status_at (sys_db s) i) → ∀ p, edge (sys_db s') p i → edge (sys_db s) p i).
Proof.
  intros Hr Hstep. destruct (reachable_release_inv s Hr) as [Hinv Hrel].
  destruct (step_paced s s' Hstep Hinv Hrel) as [He Hrl Hw]. split_and!; [apply Hrl|apply Hw|].
  intros Hs p Hp. by apply He.
Qed.
End Release.

(** ** A run: the second job of a chain is released by the first one's end *)

Module ReleaseExample.
Import System.SystemProps.

Definition first_claimed : System :=
  match claim_of chained with
  | (Claimed ex, db) => mkSystem (with_db db (sys_world chained)) [ex]
  | _ => chained
  end.

Definition first_done : System :=
  match sys_running first_claimed with
  | ex :: _ => mkSystem (settle Fixtures.cfg (Fixtures.run_env (ProcReturns [])) ex (sys_world first_claimed)).2 []
  | [] => first_claimed
  end.

Definition second_released : System :=
  sys_commit (resolver_handle_message Fixtures.cfg Fixtures.at_time 1700000000 None (λ _ d, d) (Some (uuid_str 1)) (sys_db first_done)) first_done.

Lemma first_done_reachable : reachable Fixtures.cfg first_done.
Proof.
  destruct chained_reachable as (s0 & Hi & Hr). exists s0. split; [done|]. etrans; [exact Hr|].
  eapply (rtc_l _ chained first_claimed).
  { eapply (step_claim Fixtures.cfg Fixtures.at_time 1700000000 None (uuid_str 1) 1). vm_compute. reflexivity. }
  eapply rtc_l; [|apply rtc_refl].
  eapply (step_settle Fixtures.cfg (Fixtures.run_env (ProcReturns [])) _ [] []). vm_compute. reflexivity.
Qed.

Lemma children_wait_for_parents_witness :
  status_at (sys_db first_done) 3 = Some WAITING ∧ status_at (sys_db second_released) 3 = Some PENDING ∧
  status_at (sys_db second_released) 1 = Some COMPLETED.
Proof.
  split; [vm_compute; reflexivity|]. split; [vm_compute; reflexivity|].
  apply (proj1 (children_wait_for_parents Fixtures.cfg first_done second_released 3 first_done_reachable
                  (step_resolver Fixtures.cfg Fixtures.at_time 1700000000 None (Some (uuid_str 1)) first_done))).
  - vm_compute. reflexivity.
  - vm_compute. reflexivity.
  - vm_compute. by apply list_elem_of_singleton.
Defined.
End ReleaseExample.
