(* ===== verification/SagaProps.v ===== *)
(** * Properties of sagas and of the outbox relay *)
From stdpp Require Import base tactics numbers option list gmap strings sorting.
From Stdlib Require Import QArith.
From S2P Require Import Prelude PyData Models Database JobEvents JobRepo Cascade Redis DagPause JobService World Dispatcher SagaFlow OutboxRelay DbInv OpsInv Fixtures System RepoProps ServiceProps.

Section Sagas.
Context `{SqlOrder, UuidSource} (cfg : Settings).

(** ** Compensation *)

Definition submitted_event (j : Job) : string * string * dict :=
  (kafka_topic_job_submitted cfg, partition_key (job_tenant_id j) (job_user_id j), job_submitted_payload j).

(** A fresh identifier never collides. *)
Lemma compensate_total X now s user done_ db :
  wf cfg X db →
  ∃ i db', compensate cfg now s user done_ db = Ok db' ∧
    queued db db' [submitted_event (compensation_row now s user done_ i)] ∧
    db_jobs db' = <[i := compensation_row now s user done_ i]> (db_jobs db) ∧ db_jobs db !! i = None ∧
    db_sagas db' = db_sagas db.
Proof.
  intros Hwf. unfold compensate. cbn [draw_uuid]. set (i := uuid4 (db_draws db)). set (db1 := mkDB _ _ _ _ _ _).
  set (row := compensation_row now s user done_ i).
  assert (Hnone : db_jobs db !! i = None).
  { apply eq_None_not_Some. intros Hs. destruct (wf_drawn _ _ _ Hwf i Hs) as (n & En & Hn).
    apply (inj uuid4) in En. lia. }
  assert (Hins : insert_job row db1 = Ok (with_jobs (<[i := row]> (db_jobs db1)) db1)).
  { unfold insert_job. cbn [job_id row compensation_row]. rewrite bool_decide_false.
    2:{ cbn. rewrite Hnone. by intros [? ?]. }
    replace (existsb (same_idempotency_slot row) _) with false; [done|].
    symmetry. apply not_true_iff_false. intros Hx. apply existsb_exists in Hx as (x & _ & Hx). done. }
  rewrite Hins. cbn [mbind result_mbind]. exists i. eexists. split; [reflexivity|]. split; [|done].
  apply (queued_trans db db1 _ [] [_]); [apply queued_nil; [done|cbn; lia]|].
  eapply queued_frame; [..|apply (outbox_add_queued now (job_tenant_id row))]; done.
Qed.

Lemma compensate_all_total now s user steps db :
  wf cfg ∅ db → (∀ d, d ∈ steps → 1 ≤ job_max_attempts d)%Z →
  ∃ ids db', compensate_all cfg now s user steps db = Ok db' ∧ length ids = length steps ∧
    queued db db' (submitted_event <$> zip_with (compensation_row now s user) steps ids) ∧
    (∀ r, r ∈ zip_with (compensation_row now s user) steps ids → db_jobs db' !! job_id r = Some r) ∧
    (∀ i j, db_jobs db !! i = Some j → db_jobs db' !! i = Some j) ∧ db_sagas db' = db_sagas db.
Proof.
  revert db. induction steps as [|d steps IH]; intros db Hwf Hpos.
  { exists [], db. split_and!; [done|done|by apply queued_nil|set_solver|done|done]. }
  destruct (compensate_total ∅ now s user d db Hwf) as (i & db1 & Hc & Hq & Hj & Hn & Hs).
  destruct (compensate_good cfg now s user d db db1) as [Hwf1 _]; [apply Hpos; left|done|done|].
  destruct (IH db1 Hwf1) as (ids & db' & Hc' & Hlen & Hq' & Hr' & Hkeep & Hs'); [intros; apply Hpos; by right|].
  exists (i :: ids), db'. cbn [compensate_all]. rewrite Hc. cbn [mbind result_mbind].
  split_and!; [done|cbn; lia| | | |congruence].
  - cbn [zip_with fmap list_fmap]. eapply (queued_trans db db1 _ [_]); [exact Hq|exact Hq'].
  - intros r [->|Hr]%elem_of_cons; [|by apply Hr']. apply Hkeep. rewrite Hj. apply lookup_insert_eq.
  - intros k x Hx. apply Hkeep. rewrite Hj, lookup_insert_ne; [done|]. intros ->. congruence.
Qed.

#[local] Instance step_before_trans : Transitive step_before.
Proof. intros a b c. unfold step_before, step_tie. repeat case_match; try done; lia. Qed.
#[local] Instance step_before_total : Total step_before.
Proof. intros a b. unfold step_before, step_tie. repeat case_match; try (by left); try (by right); lia. Qed.

Lemma completed_steps_sorted saga db : StronglySorted step_before (completed_steps saga db).
Proof. apply StronglySorted_merge_sort; apply _. Qed.

(** ** Properties *)

(** C13: The rollback of a failed saga cannot get stuck and undoes the newest success
    first: on a running saga it always commits, and it queues exactly one
    [.compensate] job per step that had COMPLETED, in the reverse of the declared
    order, each stored PENDING before its event is queued. *)
Theorem rollback_compensates_in_reverse now s failed user db :
  wf cfg ∅ db → db_sagas db !! saga_id s = Some s → saga_settled s = false →
  let marked := write_saga (set_saga SAGA_COMPENSATING (saga_completed_at s) s) db in
  let db2 := (cancel_downstream cfg now failed (waiting_steps (saga_id s) marked) marked).2 in
  let done_steps := completed_steps (saga_id s) db2 in
  StronglySorted step_before done_steps ∧
  (∀ j, j ∈ done_steps ↔ (∃ i, db_jobs db2 !! i = Some j) ∧ job_saga_id j = Some (saga_id s) ∧ job_status j = COMPLETED) ∧
  ∃ db' rows, handle_failure cfg now s failed user db = Ok db' ∧
    job_type <$> rows = (λ d, job_type d +:+ COMPENSATE_SUFFIX) <$> rev done_steps ∧
    queued db2 db' (submitted_event <$> rows) ∧
    (∀ r, r ∈ rows → db_jobs db' !! job_id r = Some r ∧ job_status r = PENDING ∧ job_saga_id r = Some (saga_id s)).
Proof.
  intros Hwf Hs Hu marked db2 done_steps. split; [apply completed_steps_sorted|].
  split; [intros j; apply completed_steps_elem|].
  set (s' := set_saga SAGA_COMPENSATING (saga_completed_at s) s).
  destruct (good_write_saga cfg s SAGA_COMPENSATING (saga_completed_at s) db s Hs Hu Hwf) as [Hw1 _].
  destruct (cancel_downstream_good cfg now failed (waiting_steps (saga_id s) marked) 0 marked Hw1) as [Hw2 _].
  fold (cancel_downstream cfg now failed (waiting_steps (saga_id s) marked) marked) in Hw2. fold db2 in Hw2.
  assert (Hpos : ∀ d, d ∈ rev done_steps → (1 ≤ job_max_attempts d)%Z).
  { intros d Hd. apply list_elem_of_In, in_rev, list_elem_of_In in Hd.
    apply completed_steps_elem in Hd as ((i & Hi) & _). by apply (wf_positive _ _ _ Hw2 i). }
  destruct (compensate_all_total now s' user (rev done_steps) db2 Hw2 Hpos)
    as (ids & db3 & Hc & Hlen & Hq & Hr & _ & _).
  unfold handle_failure. cbv zeta. fold marked s'.
  assert (Hcd : cancel_downstream cfg now failed (waiting_steps (saga_id s) marked) marked =
    ((cancel_downstream cfg now failed (waiting_steps (saga_id s) marked) marked).1, db2)) by apply surjective_pairing.
  rewrite Hcd. fold done_steps. rewrite Hc. cbn [mbind result_mbind].
  set (rows := zip_with (compensation_row now s' user) (rev done_steps) ids).
  eexists. exists rows. split; [reflexivity|]. split_and!.
  - unfold rows. clear -Hlen. revert ids Hlen. induction (rev done_steps) as [|d l IH]; intros [|i ids] Hlen; try done.
    cbn. f_equal. apply IH. cbn in Hlen. lia.
  - assert (Ha : queued db3 (saga_audit now "saga.compensating" s
        [("failed_job_id", juuid failed); ("compensations_emitted", JInt (Z.of_nat (length done_steps)));
         ("cancelled_downstream", JInt (Z.of_nat (cancel_downstream cfg now failed (waiting_steps (saga_id s) marked) marked).1))] db3) [])
      by (by apply queued_nil).
    rewrite <- (app_nil_r (submitted_event <$> rows)). destruct done_steps as [|d ds]; [|by eapply queued_trans].
    eapply queued_trans; [exact Hq|]. apply queued_nil; unfold settle_if_drained; cbv zeta; by case_match.
  - intros r Hrow. assert (Hst : job_status r = PENDING ∧ job_saga_id r = Some (saga_id s)).
    { apply elem_of_lookup_zip_with in Hrow as (k & d & i & -> & _). done. }
    split; [|done]. specialize (Hr r Hrow). destruct done_steps as [|d ds]; [|exact Hr].
    unfold settle_if_drained. cbv zeta. by case_match.
Qed.

(** ** Settling and redelivery *)

Lemma compensate_all_sagas now s user steps db db' :
  compensate_all cfg now s user steps db = Ok db' → db_sagas db' = db_sagas db.
Proof.
  revert db. induction steps as [|d steps IH]; intros db Hc; [by injection Hc as <-|].
  apply bind_ok in Hc as (db1 & H1 & H2). rewrite (IH db1 H2). unfold compensate in H1.
  destruct (draw_uuid db) as [i db0] eqn:Ed. injection Ed as _ <-. apply bind_ok in H1 as (db2 & Hi & H1).
  injection H1 as <-. by apply insert_job_ok in Hi as (_ & _ & ->).
Qed.

(** After a failure was handled the saga is no longer running. *)
Lemma handle_failure_status now s failed user db db' :
  wf cfg ∅ db → db_sagas db !! saga_id s = Some s → saga_settled s = false →
  handle_failure cfg now s failed user db = Ok db' →
  ∃ s', db_sagas db' !! saga_id s = Some s' ∧ saga_status s' ≠ SAGA_RUNNING.
Proof.
  intros Hwf Hs Hu Hf. unfold handle_failure in Hf. cbv zeta in Hf.
  set (s' := set_saga SAGA_COMPENSATING (saga_completed_at s) s) in *.
  destruct (good_write_saga cfg s SAGA_COMPENSATING (saga_completed_at s) db s Hs Hu Hwf) as [Hw1 _].
  fold s' in Hw1.
  pose proof (cancel_downstream_sagas cfg now failed (waiting_steps (saga_id s) (write_saga s' db)) 0 (write_saga s' db) Hw1) as Hsag.
  unfold cancel_downstream in Hf. destruct (foldl _ _ _) as [n db2]. cbn [snd] in Hsag.
  apply bind_ok in Hf as (db3 & Hc & Hf). injection Hf as <-. pose proof (compensate_all_sagas _ _ _ _ _ _ Hc) as Hs3.
  assert (H3 : db_sagas db3 !! saga_id s = Some s').
  { rewrite Hs3, Hsag. apply (lookup_insert_eq _ (saga_id s') s'). }
  destruct (completed_steps (saga_id s) db2) as [|d ds].
  - unfold settle_if_drained. cbv zeta. case_match.
    + exists s'. by split.
    + eexists. split; [apply (lookup_insert_eq _ (saga_id s'))|]. cbn. by case_match.
  - exists s'. by split.
Qed.

(** Redelivery of a step's dead-letter event is harmless: once the saga coordinator
    has handled it, delivering it again, at any time, changes nothing, so no step is
    compensated twice. *)
Theorem saga_failure_redelivery now later i db db' job :
  wf cfg ∅ db → uuid_parse i = Some (job_id job) → db_jobs db !! job_id job = Some job →
  is_compensation job = false →
  saga_handle_message cfg now (Some "job.failed") (Some i) true db = Ok db' →
  saga_handle_message cfg later (Some "job.failed") (Some i) true db' = Ok db'.
Proof.
  intros Hwf Hp Hj Hcomp Hm. pose proof (saga_handle_message_good cfg _ _ _ _ _ _ Hm Hwf) as [Hwf' [Hk _]].
  destruct (ev_jobs _ _ Hk _ _ Hj) as (job' & Hj' & Hsame). unfold same_identity in Hsame.
  destruct Hsame as (_ & _ & _ & Hty & _ & _ & Hsg & _).
  assert (Hcomp' : is_compensation job' = false) by (unfold is_compensation; by rewrite Hty).
  assert (Hne : i ≠ "") by (intros ->; by vm_compute in Hp).
  unfold saga_handle_message in *. rewrite bool_decide_false in * by naive_solver.
  rewrite Hp in *. unfold get_by_id in *. rewrite Hj in Hm. rewrite Hj', Hsg.
  destruct (job_saga_id job ≫= (λ s, db_sagas db !! s)) as [s|] eqn:Es.
  - apply bind_Some in Es as (si & Hsi & Hs). rewrite Hsi. cbn [mbind option_bind].
    destruct (wf_sagas _ _ _ Hwf si s Hs) as [Hid _]. subst si. rewrite Hcomp in Hm. rewrite Hcomp'.
    rewrite (bool_decide_false ("job.failed" = "job.completed")) in * by done.
    rewrite (bool_decide_true ("job.failed" = "job.failed")) in * by done. cbn [andb orb] in *.
    destruct (db_sagas db' !! saga_id s) as [s1|] eqn:Es1; [|done].
    assert (Hstat : saga_status s1 ≠ SAGA_RUNNING).
    { destruct (saga_status s) eqn:Est;
        try (injection Hm as <-; rewrite Hs in Es1; injection Es1 as <-; by rewrite Est).
      destruct (handle_failure_status now s (job_id job) (job_user_id job) db db' Hwf Hs) as (s2 & Hs2 & ?);
        [unfold saga_settled; by rewrite Est|done|]. congruence. }
    by destruct (saga_status s1).
  - destruct (job_saga_id job) as [si|] eqn:Esi; [|done]. cbn [mbind option_bind] in *.
    injection Hm as <-. by rewrite Es.
Qed.

(** A rollback is settled on what actually happened: with a compensation still
    unfinished the saga is left as it is; otherwise it becomes COMPENSATED exactly
    when every compensation COMPLETED, and FAILED when one did not. *)
Theorem rollback_settlement now s db :
  let comps := filter (λ j, is_compensation j = true) (saga_jobs (saga_id s) db) in
  let over j := job_status j = COMPLETED ∨ job_status j = DEAD_LETTER ∨ job_status j = CANCELLED in
  let db' := settle_if_drained now s db in
  ((∃ j, j ∈ comps ∧ ¬ over j) → db' = db) ∧
  ((∀ j, j ∈ comps → over j) →
   saga_status <$> db_sagas db' !! saga_id s =
     Some (if bool_decide (Forall (λ j, job_status j = COMPLETED) comps) then SAGA_COMPENSATED else SAGA_FAILED) ∧
   db_jobs db' = db_jobs db ∧ db_outbox db' = db_outbox db).
Proof.
  intros comps over db'. unfold db', settle_if_drained. cbv zeta. fold comps.
  set (terminal := λ j, match job_status j with COMPLETED | DEAD_LETTER | CANCELLED => true | _ => false end).
  assert (Hover : ∀ j, over j ↔ terminal j = true).
  { intros j. unfold over, terminal. destruct (job_status j); naive_solver. }
  change (existsb _ comps) with (existsb (λ j, negb (terminal j)) comps).
  destruct (existsb (λ j, negb (terminal j)) comps) eqn:Ex; (split; [intros (j & Hj & Hn)|intros Hall]).
  - done.
  - exfalso. apply existsb_exists in Ex as (j & Hj & Hn). apply list_elem_of_In, Hall, Hover in Hj. by rewrite Hj in Hn.
  - exfalso. assert (Ht : existsb (λ j, negb (terminal j)) comps = true); [|congruence].
    apply existsb_exists. exists j. split; [by apply list_elem_of_In|]. rewrite Hover in Hn. by destruct (terminal j).
  - split; [|done]. cbn [saga_audit audit_log with_audit db_sagas write_saga with_sagas].
    rewrite (lookup_insert_eq (db_sagas db) (saga_id s)). cbn. f_equal.
    destruct (decide (Forall (λ j, job_status j = COMPLETED) comps)) as [HF|HF].
    + rewrite bool_decide_true by done. rewrite filter_none; [done|]. intros j Hj Hn. apply Hn.
      rewrite Forall_forall in HF. by apply HF.
    + rewrite bool_decide_false by done.
      destruct (filter (λ j, job_status j ≠ COMPLETED) comps) as [|x l] eqn:El; [|done].
      exfalso. apply HF, Forall_forall. intros j Hj. destruct (decide (job_status j = COMPLETED)) as [|Hne]; [done|].
      assert (Hin : j ∈ filter (λ j, job_status j ≠ COMPLETED) comps) by (by apply list_elem_of_filter).
      rewrite El in Hin. by apply not_elem_of_nil in Hin.
Qed.

(** ** Creation *)

Lemma create_job_row rq b a others db j db' :
  nj_key a = None → create_job cfg rq b a others db = Ok (j, db') → ∃ st i, j = new_row cfg rq a st i.
Proof.
  intros Hk Hc. unfold create_job in Hc. rewrite Hk in Hc. cbn [truthy_key mbind option_bind] in Hc.
  apply bind_ok in Hc as (ps & _ & Hc). destruct (draw_uuid (others db)) as [i db1].
  destruct (insert_job _ db1); [|done]. unfold finish_create in Hc. apply bind_ok in Hc as (d & _ & Hc).
  injection Hc as <- _. by do 2 eexists.
Qed.

(** What one step of the chain looks like in the table. *)
Definition step_placed (db : DB) (saga : uuid) (index : Z) (prev : option uuid) (st : SagaStep) (i : uuid) : Prop :=
  ∃ j, db_jobs db !! i = Some j ∧ job_type j = step_type st ∧ job_saga_id j = Some saga ∧
    job_saga_step_index j = Some index ∧
    match prev with
    | Some p => edge db p i ∧ job_status j = WAITING
    | None => job_status j = PENDING
    end.

(** The steps from [index] on, each below the one before. *)
Fixpoint chain_placed (db : DB) (saga : uuid) (index : Z) (prev : option uuid) (steps : list SagaStep)
    (ids : list uuid) : Prop :=
  match steps, ids with
  | [], [] => True
  | st :: steps, i :: ids =>
      step_placed db saga index prev st i ∧ chain_placed db saga (index + 1) (Some i) steps ids
  | _, _ => False
  end.

Definition extends (db db' : DB) : Prop :=
  (∀ i j, db_jobs db !! i = Some j → db_jobs db' !! i = Some j) ∧ (∀ d, d ∈ db_deps db → d ∈ db_deps db').

Lemma step_placed_extends db db' saga index prev st i :
  extends db db' → step_placed db saga index prev st i → step_placed db' saga index prev st i.
Proof.
  intros [Hj Hd] (j & Hi & ? & ? & ? & Hp). exists j. split_and!; try done; [by apply Hj|].
  destruct prev; [|done]. destruct Hp. split; [by apply Hd|done].
Qed.

Lemma chain_placed_extends db db' saga index prev steps ids :
  extends db db' → chain_placed db saga index prev steps ids → chain_placed db' saga index prev steps ids.
Proof.
  intros He. revert index prev ids. induction steps as [|st steps IH]; intros index prev [|i ids]; try done.
  intros [Hp Hc]. split; [by eapply step_placed_extends|by apply IH].
Qed.

Lemma create_steps_chain rq user tenant saga index prev steps db db' :
  create_steps cfg rq user tenant saga index prev steps db = Ok db' →
  (∀ p, prev = Some p → ∃ jp, db_jobs db !! p = Some jp ∧ job_status jp ≠ COMPLETED) →
  extends db db' ∧ ∃ ids, chain_placed db' saga index prev steps ids.
Proof.
  revert index prev db. induction steps as [|st steps IH]; intros index prev db Hc Hprev.
  { injection Hc as <-. split; [by split|]. by exists []. }
  apply bind_ok in Hc as ([j db1] & Hcj & Hc). cbn [fst snd] in Hc.
  set (a := mkNewJob _ _ _ _ _ _ _ _ _ _) in Hcj.
  destruct (create_job_row rq true a (λ d, d) db j db1 eq_refl Hcj) as (st0 & i0 & Hrow).
  destruct (create_job_writes cfg rq true a db j db1 eq_refl Hcj) as (Hfresh & Hjobs & Hdeps & Hor & _ & Hwait).
  assert (Hext1 : extends db db1).
  { split.
    - intros i x Hx. rewrite Hjobs, lookup_insert_ne; [done|]. intros <-. congruence.
    - intros d Hd. rewrite Hdeps. apply elem_of_app. by left. }
  assert (Hself : db_jobs db1 !! job_id j = Some j) by (rewrite Hjobs; apply lookup_insert_eq).
  assert (Hplaced : step_placed db1 saga index prev st (job_id j)).
  { assert (Hf : job_type j = step_type st ∧ job_saga_id j = Some saga ∧ job_saga_step_index j = Some index)
      by (by rewrite Hrow).
    destruct Hf as (? & ? & ?). exists j. split_and!; [done|done|done|done|]. destruct prev as [p|].
    - destruct (Hprev p eq_refl) as (jp & Hjp & Hs). split.
      + unfold edge. rewrite Hdeps. apply elem_of_app. right. apply list_elem_of_fmap_2. left.
      + apply Hwait. left. exists p, jp. split_and!; [left|done|done].
    - destruct Hor as [Hw|Hp]; [|done]. apply Hwait in Hw.
      destruct Hw as [(p & jp & Hp & _)|(_ & p & jp & q & Hp & _)]; by apply not_elem_of_nil in Hp. }
  destruct (IH (index + 1)%Z (Some (job_id j)) db1 Hc) as (Hext2 & ids & Hids).
  { intros p [= <-]. exists j. split; [done|]. by destruct Hor as [->| ->]. }
  split.
  - destruct Hext1, Hext2. split; eauto.
  - exists (job_id j :: ids). split; [by eapply step_placed_extends|done].
Qed.

(** A created saga is a chain: one job per declared step, with the declared type,
    the saga's id and the position as its index; the first starts PENDING, every other
    one WAITING on the step before it. *)
Theorem saga_is_a_chain rq user tenant name steps db s db' :
  create_saga cfg rq user tenant name steps db = Ok (s, db') →
  db_sagas db' !! saga_id s = Some s ∧ saga_status s = SAGA_RUNNING ∧
  ∃ ids, chain_placed db' (saga_id s) 0 None steps ids.
Proof.
  intros Hc. unfold create_saga in Hc. destruct steps as [|st steps]; [done|].
  destruct (draw_uuid db) as [i db1]. apply bind_ok in Hc as (db2 & Hs & Hc). injection Hc as <- <-.
  destruct (create_steps_chain _ _ _ _ _ _ _ _ _ Hs) as (_ & ids & Hids); [done|].
  split_and!; [|done|exists ids; by eapply chain_placed_extends; [|exact Hids]].
  cbn [saga_id audit_log with_audit db_sagas].
  assert (Hsag : ∀ idx prev sts d d', create_steps cfg rq user tenant i idx prev sts d = Ok d' → db_sagas d' = db_sagas d).
  { clear. intros idx prev sts. revert idx prev. induction sts as [|x sts IH]; intros idx prev d d' H1;
      [by injection H1 as <-|].
    apply bind_ok in H1 as ([j d1] & Hj & H1). rewrite (IH _ _ _ _ H1). cbn [snd]. unfold create_job in Hj.
    cbn [nj_key truthy_key mbind option_bind] in Hj. apply bind_ok in Hj as (ps & _ & Hj).
    destruct (draw_uuid d) as [u d0] eqn:Ed. injection Ed as _ <-.
    destruct (insert_job _ _) as [d2|] eqn:Ei; [|done]. apply insert_job_ok in Ei as (_ & _ & ->).
    unfold finish_create in Hj. apply bind_ok in Hj as (d3 & Hd & Hj). injection Hj as _ <-.
    assert (H3 : db_sagas d3 = db_sagas d).
    { cbn [nj_deps] in Hd. destruct (option_list prev); [by injection Hd as <-|].
      apply bind_ok in Hd as (ds & _ & Hd). by injection Hd as <-. }
    by case_bool_decide. }
  rewrite (Hsag _ _ _ _ _ Hs). apply lookup_insert_eq.
Qed.

(** ** The relay *)

(** A relay tick settles each row it fetched by how its own publish ended, and no
    other row: sent rows are marked published, schema-invalid ones and those out of
    attempts are marked failed with the reason, the rest have one attempt more; the
    messages that reach Kafka are exactly those the broker took, in fetch order. *)
Theorem relay_tick_exact now producer w :
  NoDup (ob_id <$> db_outbox (w_db w)) →
  let events := fetch_unpublished cfg OUTBOX_RELAY_BATCH (w_db w) in
  let w' := outbox_relay_tick cfg now producer (λ d, d) true w in
  db_outbox (w_db w') =
    ((λ e, if bool_decide (ob_id e ∈ ob_id <$> events) then settled_row cfg now (producer e) e else e)
       <$> db_outbox (w_db w)) ∧
  w_log w' = w_log w ++ (ob_message <$> filter (λ e, reaches_log (producer e) = true) events).
Proof.
  intros Hnd events w'. destruct (relay_tick_rows cfg now producer w Hnd) as [Hrows Hlog].
  split; [exact Hrows|exact (Hlog true)].
Qed.

(** The row after [k] fetches with these outcomes. *)
Fixpoint after_fetches (now : Z) (outcomes : nat → publish_outcome) (k : nat) (e : OutboxEvent) : OutboxEvent :=
  match k with
  | O => e
  | S k =>
      let e' := after_fetches now outcomes k e in
      if in_window cfg e' then settled_row cfg now (outcomes k) e' else e'
  end.

(** No row holds its place in the relay's window forever: whatever each publish
    does, after as many fetches as it has attempts left the row is out of the window,
    published or failed, and its payload is still there. *)
Theorem relay_window_drains now outcomes e k :
  (outbox_max_attempts cfg - ob_attempts e ≤ Z.of_nat k)%Z →
  let e' := after_fetches now outcomes k e in
  in_window cfg e' = false ∧ ob_content e' = ob_content e.
Proof.
  intros Hk e'.
  assert (Hgen : ∀ n, ob_content (after_fetches now outcomes n e) = ob_content e ∧
            (in_window cfg (after_fetches now outcomes n e) = true →
             (ob_attempts e + Z.of_nat n ≤ ob_attempts (after_fetches now outcomes n e))%Z)).
  { induction n as [|n [IHc IHa]]; [split; [done|]; cbn; lia|]. cbn [after_fetches].
    destruct (in_window cfg (after_fetches now outcomes n e)) eqn:Ew; [|by rewrite Ew].
    set (x := after_fetches now outcomes n e) in *. specialize (IHa eq_refl).
    unfold settled_row. destruct (outcomes n) as [|m|m r]; [by split|by split|].
    destruct (last_attempt cfg x); [by split|]. split; [done|]. intros _. cbn. lia. }
  destruct (Hgen k) as [Hc Ha]. split; [|exact Hc]. destruct (in_window cfg e') eqn:Ew; [|done].
  specialize (Ha Ew). unfold in_window in Ew. apply andb_true_iff in Ew as [_ Hlt]. fold e' in Ha. lia.
Qed.
End Sagas.

(** *** Worked examples: a saga of two steps whose second dies *)

Definition two_steps : list SagaStep := [mkStep "csv_upload" None 0; mkStep "report_gen" None 0].

Definition saga_start : Saga * DB :=
  match create_saga Fixtures.cfg Fixtures.request Fixtures.user Fixtures.tenant "s" two_steps empty_db with
  | Ok r => r
  | Err _ => (mkSaga 0 0 "" SAGA_FAILED 0 None, empty_db)
  end.

Definition the_saga : Saga := saga_start.1.

Lemma saga_start_created :
  create_saga Fixtures.cfg Fixtures.request Fixtures.user Fixtures.tenant "s" two_steps empty_db
    = Ok (the_saga, saga_start.2).
Proof. vm_compute. reflexivity. Qed.

(** The first step is done. *)
Definition mid_saga : DB := (update_status Fixtures.cfg 7 2 COMPLETED [] None None saga_start.2).2.

Lemma saga_start_wf : wf Fixtures.cfg ∅ saga_start.2.
Proof.
  exact (proj1 (create_saga_good Fixtures.cfg Fixtures.request Fixtures.user Fixtures.tenant "s" two_steps
    empty_db the_saga saga_start.2 ltac:(done) saga_start_created (wf_empty Fixtures.cfg))).
Qed.

Lemma mid_saga_wf : wf Fixtures.cfg ∅ mid_saga.
Proof.
  exact (proj1 (good_terminal_write Fixtures.cfg ∅ 7 2 COMPLETED [] None None saga_start.2
    eq_refl (Forall_nil_2 _) (Forall_nil_2 _) saga_start_wf)).
Qed.

(** The job of the second step. *)
Definition second_step : Job := default (Fixtures.row 4 FAILED) (db_jobs mid_saga !! 4%N).

Lemma saga_is_a_chain_witness : ∃ ids, chain_placed saga_start.2 (saga_id the_saga) 0 None two_steps ids.
Proof.
  exact (proj2 (proj2 (saga_is_a_chain Fixtures.cfg Fixtures.request Fixtures.user Fixtures.tenant "s" two_steps
    empty_db the_saga saga_start.2 saga_start_created))).
Defined.

Lemma rollback_compensates_in_reverse_witness :
  ∃ db' rows, handle_failure Fixtures.cfg 9 the_saga 4 Fixtures.user mid_saga = Ok db' ∧
    job_type <$> rows = ["csv_upload.compensate"].
Proof.
  destruct (rollback_compensates_in_reverse Fixtures.cfg 9 the_saga 4 Fixtures.user mid_saga mid_saga_wf)
    as (_ & _ & db' & rows & Hf & Hty & _); [vm_compute; reflexivity|vm_compute; reflexivity|].
  exists db', rows. split; [exact Hf|]. rewrite Hty. vm_compute. reflexivity.
Defined.

Definition after_failure : DB :=
  match saga_handle_message Fixtures.cfg 9 (Some "job.failed") (Some (uuid_str 4)) true mid_saga with
  | Ok db => db
  | Err _ => empty_db
  end.

Lemma saga_failure_redelivery_witness :
  saga_handle_message Fixtures.cfg 11 (Some "job.failed") (Some (uuid_str 4)) true after_failure = Ok after_failure.
Proof.
  apply (saga_failure_redelivery Fixtures.cfg 9 11 (uuid_str 4) mid_saga after_failure second_step mid_saga_wf);
    vm_compute; reflexivity.
Defined.

Lemma relay_tick_exact_witness :
  w_log (outbox_relay_tick Fixtures.cfg 5 (λ _, PubSent) (λ d, d) true (Fixtures.world_of saga_start.2)) =
  [] ++ (ob_message <$> filter (λ e, reaches_log PubSent = true)
           (fetch_unpublished Fixtures.cfg OUTBOX_RELAY_BATCH saga_start.2)).
Proof.
  apply (relay_tick_exact Fixtures.cfg 5 (λ _, PubSent) (Fixtures.world_of saga_start.2)).
  refine (bool_decide_eq_true_1 _ _). vm_compute. reflexivity.
Defined.

Definition stuck_row : OutboxEvent := mkOutbox 1 1 "t" "k" [] 898 0 None None None.

Lemma relay_window_drains_witness :
  in_window Fixtures.cfg (after_fetches Fixtures.cfg 5 (λ _, PubFailed "down" false) 2 stuck_row) = false.
Proof.
  apply (relay_window_drains Fixtures.cfg 5 (λ _, PubFailed "down" false) stuck_row 2). vm_compute. discriminate.
Defined.
