(* ===== verification/QueueProps.v ===== *)
(** * Properties of the Redis queues, the pause flags and the encodings they rely on *)
From stdpp Require Import base tactics numbers option list gmap strings sorting.
From Stdlib Require Import QArith.
From S2P Require Import Prelude PyData Models Database JobEvents Redis Queue DagPause Fixtures.

(** A scheduled replay survives its encoding: the member written to the sorted set
    parses back to the same tenant, principal and job. *)
Theorem replay_member_round_trip tenant principal job :
  (tenant < uuid_bound)%N → (principal < uuid_bound)%N → (job < uuid_bound)%N →
  parse_member (replay_member tenant principal job) = Some (tenant, principal, job).
Proof. apply parse_replay_member. Qed.

(** Claiming due replays loses nothing: a member is scheduled or in flight after
    the script exactly when it was before; a claimed one is in flight with the new
    deadline, and every other member keeps its place and score. *)
Theorem replay_claim_conserves sch inf now dl s :
  let '(claimed, sch', inf') := claim_script sch inf now dl in
  (is_Some (sch !! s) ∨ is_Some (inf !! s) ↔ is_Some (sch' !! s) ∨ is_Some (inf' !! s)) ∧
  (s ∈ claimed → inf' !! s = Some dl) ∧
  (s ∉ claimed → inf' !! s = inf !! s ∧ sch' !! s = sch !! s).
Proof. apply claim_script_conserves. Qed.

Section Pause.
Context `{SqlOrder}.

(** The pause probe is exact up to its cap: a job it reports held has itself or an
    ancestor paused now; when it reports none and the job has fewer than 64 nodes above
    it (itself included), neither it nor any ancestor is paused; and when Redis cannot
    be asked nothing is held. *)
Theorem pause_probe_exact t r db i :
  (∀ n, find_blocking_pause t (Some r) db i = Some n → rtc (parent_of db) i n ∧ paused_at t r n) ∧
  (find_blocking_pause t (Some r) db i = None →
   (length (collect_ancestors db i) < MAX_ANCESTOR_NODES)%nat →
   ∀ n, rtc (parent_of db) i n → ¬ paused_at t r n) ∧
  find_blocking_pause t None db i = None.
Proof.
  destruct (collect_ancestors_spec db i) as (_ & _ & Hsound & Hcompl & _). split_and!.
  - intros n Hn. apply find_blocking_pause_some in Hn as [Hin Hp]. split; [by apply Hsound|done].
  - intros Hnone Hlen n Hn. eapply find_blocking_pause_none; [exact Hnone|]. by apply Hcompl.
  - done.
Qed.

(** C17: The ancestor walk always ends by its own test: any larger iteration budget than
    the number of dependency edges plus one gives the same nodes, without repetition,
    at most 64, the job itself first. *)
Theorem ancestor_walk_terminates db i extra :
  ancestors_loop (extra + S (length (db_deps db))) db [i] ∅ [] = collect_ancestors db i ∧
  NoDup (collect_ancestors db i) ∧ (length (collect_ancestors db i) ≤ MAX_ANCESTOR_NODES)%nat ∧
  head (collect_ancestors db i) = Some i.
Proof.
  destruct (collect_ancestors_spec db i) as (Hnd & Hlen & _ & _ & Hhead). split_and!; [|done|done|done].
  apply ancestors_fuel; rewrite edges_left_empty; cbn; lia.
Qed.
End Pause.

(** The dead-letter event has exactly its declared keys, and its copy of the payload
    never carries the trace carrier, whatever the job's payload held. *)
Theorem dlq_event_shape job msg :
  (dlq_event_payload job msg).*1 = DLQ_EVENT_KEYS ∧
  ∃ q, dget (dlq_event_payload job msg) "payload" = Some (JObj q) ∧ dget q TRACE_CARRIER_KEY = None.
Proof. split; [apply dlq_event_keys|apply dlq_event_no_trace_carrier]. Qed.

(** *** Worked examples *)

Lemma replay_member_round_trip_witness : parse_member (replay_member 1 2 3) = Some (1, 2, 3)%N.
Proof. apply replay_member_round_trip; vm_compute; reflexivity. Defined.
