(* ===== verification/KafkaConsumer.v ===== *)
(** * The base Kafka consumer (workers/kafka_consumer.py)

    [_process_one], [_process_batch] and the offsets they move, for the members of
    one consumer group over one log.  The broker is modelled by what the code
    relies on: [getmany] returns the records of assigned partitions from the
    member's position on and advances it, a commit sets the group's offset of one
    partition or raises, [seek] moves the position and raises on a partition that
    is not assigned, and a new assignment starts at the committed offset or at the
    earliest.  Schema validation (jsonschema) and the subclass's handler are inputs. *)
From stdpp Require Import base tactics numbers option list gmap strings.
From S2P Require Import Prelude PyData Models Dispatcher.

Abbreviation TopicPartition := (string * Z)%type.

(** [aiokafka.ConsumerRecord], the fields the code reads. *)
Record ConsumerRecord := mkRecord {
  rec_topic : string;
  rec_partition : Z;
  rec_offset : N;
  rec_key : option string;
  rec_value : dict
}.

Definition rec_tp (r : ConsumerRecord) : TopicPartition := (rec_topic r, rec_partition r).

(** One process of the group: its positions (a partition without one is not
    assigned) and what is left of the batch it is working through. *)
Record Member := mkMember {
  km_position : gmap TopicPartition N;
  km_batch : list (TopicPartition * list ConsumerRecord)
}.

Definition idle_member : Member := mkMember ∅ [].

(** The log, the group's committed offsets, the records whose handler returned, in
    the order it did, and the members. *)
Record Group := mkGroup {
  kg_log : list ConsumerRecord;
  kg_committed : gmap TopicPartition N;
  kg_handled : list ConsumerRecord;
  kg_members : gmap N Member
}.

Definition member_of (m : N) (g : Group) : Member := default idle_member (kg_members g !! m).

Definition set_member (m : N) (mem : Member) (g : Group) : Group :=
  mkGroup (kg_log g) (kg_committed g) (kg_handled g) (<[m := mem]> (kg_members g)).

Definition set_batch (m : N) (b : list (TopicPartition * list ConsumerRecord)) (g : Group) : Group :=
  set_member m (mkMember (km_position (member_of m g)) b) g.

(** ** What the client library does *)

(** [consumer.commit({tp: offset})]: whether it returned. *)
Definition commit_offset (tx : tx_outcome) (tp : TopicPartition) (offset : N) (g : Group) : bool * Group :=
  let g' := mkGroup (kg_log g) (<[tp := offset]> (kg_committed g)) (kg_handled g) (kg_members g) in
  match tx with
  | TxCommits => (true, g')
  | TxRollsBack => (false, g)
  | TxCommitsThenRaises => (false, g')
  end.

(** [consumer.seek(tp, offset)], its refusal caught. *)
Definition seek (m : N) (tp : TopicPartition) (offset : N) (g : Group) : Group :=
  let mem := member_of m g in
  match km_position mem !! tp with
  | Some _ => set_member m (mkMember (<[tp := offset]> (km_position mem)) (km_batch mem)) g
  | None => g
  end.

(** A rebalance gives a partition to a member or takes it away. *)
Definition assign (m : N) (tp : TopicPartition) (g : Group) : Group :=
  let mem := member_of m g in
  set_member m (mkMember (<[tp := default 0%N (kg_committed g !! tp)]> (km_position mem)) (km_batch mem)) g.

Definition revoke (m : N) (tp : TopicPartition) (g : Group) : Group :=
  let mem := member_of m g in
  set_member m (mkMember (delete tp (km_position mem)) (km_batch mem)) g.

(** The records of [tp] with offset in [lo, hi). *)
Definition slice (log : list ConsumerRecord) (tp : TopicPartition) (lo hi : N) : list ConsumerRecord :=
  filter (λ r, rec_tp r = tp ∧ (lo ≤ rec_offset r < hi)%N) log.

(** The position after a fetch: past the last record returned. *)
Definition next_position (pos : N) (msgs : list ConsumerRecord) : N :=
  match last msgs with Some r => rec_offset r + 1 | None => pos end.

(** [getmany(max_records=10)]: of each wanted partition that is assigned, the records
    up to a bound the broker chooses. *)
Fixpoint getmany (wanted : list (TopicPartition * N)) (log : list ConsumerRecord)
    (position : gmap TopicPartition N)
    : list (TopicPartition * list ConsumerRecord) * gmap TopicPartition N :=
  match wanted with
  | [] => ([], position)
  | (tp, hi) :: wanted =>
      match position !! tp with
      | None => getmany wanted log position
      | Some pos =>
          let msgs := slice log tp pos hi in
          let '(batch, position) := getmany wanted log (<[tp := next_position pos msgs]> position) in
          ((tp, msgs) :: batch, position)
      end
  end.

Definition MAX_RECORDS : nat := 10.

(** ** The consumer *)

Section Consumer.
(** [validate_schema(topic, value)] does not raise. *)
Context (validate : string → dict → bool).

(** How the handler and the commit of one delivery end. *)
Record MsgEnv := mkMsgEnv {
  me_handler_returns : bool;
  me_commit : tx_outcome
}.

Inductive one_outcome : Type := OneTrue | OneFalse | OneRaises.

(** [_process_one]: a schema-invalid message is committed past, outside the [try]
    of the handler; a raising handler or commit is reported as [False]. *)
Definition process_one (env : MsgEnv) (r : ConsumerRecord) (g : Group) : one_outcome * Group :=
  if negb (validate (rec_topic r) (rec_value r)) then
    let '(ok, g) := commit_offset (me_commit env) (rec_tp r) (rec_offset r + 1) g in
    (if ok then OneTrue else OneRaises, g)
  else if me_handler_returns env then
    let g := mkGroup (kg_log g) (kg_committed g) (kg_handled g ++ [r]) (kg_members g) in
    let '(ok, g) := commit_offset (me_commit env) (rec_tp r) (rec_offset r + 1) g in
    (if ok then OneTrue else OneFalse, g)
  else (OneFalse, g).

(** One partition's messages: in order, the first failure seeks back and abandons
    the rest.  [Ok true] when there was one, [Err] when an exception escapes. *)
Fixpoint process_messages (env : ConsumerRecord → MsgEnv) (m : N) (tp : TopicPartition)
    (msgs : list ConsumerRecord) (g : Group) : result unit bool * Group :=
  match msgs with
  | [] => (Ok false, g)
  | r :: msgs =>
      let '(out, g) := process_one (env r) r g in
      match out with
      | OneTrue => process_messages env m tp msgs g
      | OneFalse => (Ok true, seek m tp (rec_offset r) g)
      | OneRaises => (Err tt, g)
      end
  end.

(** [_process_batch]. *)
Fixpoint process_batch (env : ConsumerRecord → MsgEnv) (m : N)
    (records : list (TopicPartition * list ConsumerRecord)) (g : Group) : result unit bool * Group :=
  match records with
  | [] => (Ok false, g)
  | (tp, msgs) :: records =>
      let '(res, g) := process_messages env m tp msgs g in
      match res with
      | Err e => (Err e, g)
      | Ok failed =>
          let '(res, g) := process_batch env m records g in
          (had_failure ← res; Ok (failed || had_failure), g)
      end
  end.

(** ** Interleavings *)

(** One iteration of the loops of [_process_batch] on the member's batch; an escaping
    exception ends the batch, and [run] polls again. *)
Definition batch_step (env : MsgEnv) (m : N) (g : Group) : one_outcome * Group :=
  match km_batch (member_of m g) with
  | [] => (OneTrue, g)
  | (tp, []) :: rest => (OneTrue, set_batch m rest g)
  | (tp, r :: msgs) :: rest =>
      let '(out, g) := process_one env r g in
      (out, match out with
            | OneTrue => set_batch m ((tp, msgs) :: rest) g
            | OneFalse => set_batch m rest (seek m tp (rec_offset r) g)
            | OneRaises => set_batch m [] g
            end)
  end.

(** One past the greatest offset of a partition. *)
Definition log_end (log : list ConsumerRecord) (tp : TopicPartition) : N :=
  foldr (λ r n, if bool_decide (rec_tp r = tp) then N.max (rec_offset r + 1) n else n) 0%N log.

(** The steps of the group.  [escapes] says whether the commit of a schema-invalid
    message may raise. *)
Inductive group_step (escapes : bool) (g : Group) : Group → Prop :=
  | step_produce r :
      (log_end (kg_log g) (rec_tp r) ≤ rec_offset r)%N →
      group_step escapes g (mkGroup (kg_log g ++ [r]) (kg_committed g) (kg_handled g) (kg_members g))
  | step_assign m tp : group_step escapes g (assign m tp g)
  | step_revoke m tp : group_step escapes g (revoke m tp g)
  | step_fetch m wanted batch position :
      km_batch (member_of m g) = [] → NoDup wanted.*1 →
      getmany wanted (kg_log g) (km_position (member_of m g)) = (batch, position) →
      (length (concat batch.*2) ≤ MAX_RECORDS)%nat →
      group_step escapes g (set_member m (mkMember position batch) g)
  | step_message m env out g' :
      batch_step env m g = (out, g') → (escapes = true ∨ out ≠ OneRaises) →
      group_step escapes g g'
  | step_restart m : group_step escapes g (set_member m idle_member g).

Definition no_group : Group := mkGroup [] ∅ [] ∅.

Definition group_reachable (escapes : bool) (g : Group) : Prop := rtc (group_step escapes) no_group g.

End Consumer.

(** ** Lag *)

(** [_sum_partition_lag]: log end minus committed; a partition never committed counts
    in full. *)
Definition sum_partition_lag (end_offsets : gmap TopicPartition Z) (committed : TopicPartition → option Z)
    (assignment : list TopicPartition) : Z :=
  foldl (λ lag tp,
    let fin := default 0%Z (end_offsets !! tp) in
    match committed tp with
    | None => (lag + fin)%Z
    | Some c => (lag + Z.max 0 (fin - c))%Z
    end) 0%Z assignment.

(** [consumer_lag]: [started] and [restarting] are the consumer's, [query] is the sum
    when the offset queries answer in time. *)
Definition consumer_lag (started restarting : bool) (assignment : option (list TopicPartition))
    (query : list TopicPartition → option Z) : option Z :=
  if negb started || restarting then None else
  match assignment with
  | None | Some [] => None
  | Some tps => query tps
  end.
