(* ===== verification/KafkaProps.v ===== *)
(** * Delivery guarantees of the Kafka consumer

    At-least-once delivery over every interleaving of producers, members and
    rebalances, the isolation of a failing partition inside a batch, and the one
    path that breaks the guarantee. *)
From stdpp Require Import base tactics numbers option list gmap strings sorting.
From S2P Require Import Prelude PyData Models Dispatcher KafkaConsumer.

Section Delivery.
Context (validate : string → dict → bool).

(** A record that needs no further delivery. *)
Definition settled (g : Group) (r : ConsumerRecord) : Prop :=
  validate (rec_topic r) (rec_value r) = false ∨ r ∈ kg_handled g.

Definition offset_lt (a b : ConsumerRecord) : Prop := (rec_offset a < rec_offset b)%N.

(** Offsets grow along each partition of the log. *)
Definition log_ordered (log : list ConsumerRecord) : Prop :=
  StronglySorted (λ a b, rec_tp a = rec_tp b → offset_lt a b) log.

(** Everything of [tp] below [hi] satisfies [P]. *)
Definition below (log : list ConsumerRecord) (P : ConsumerRecord → Prop) (tp : TopicPartition) (hi : N) : Prop :=
  (hi ≤ log_end log tp)%N ∧ ∀ r, r ∈ log → rec_tp r = tp → (rec_offset r < hi)%N → P r.

(** What is left of one partition's batch is, in order, everything unsettled below
    some bound. *)
Definition entry_ok (g : Group) (tp : TopicPartition) (msgs : list ConsumerRecord) : Prop :=
  StronglySorted offset_lt msgs ∧
  ∃ hi, below (kg_log g) (λ r, settled g r ∨ r ∈ msgs) tp hi ∧
        ∀ r, r ∈ msgs → r ∈ kg_log g ∧ rec_tp r = tp ∧ (rec_offset r < hi)%N.

Definition pending (batch : list (TopicPartition * list ConsumerRecord)) (tp : TopicPartition)
    (r : ConsumerRecord) : Prop :=
  ∃ msgs, (tp, msgs) ∈ batch ∧ r ∈ msgs.

Definition member_ok (g : Group) (mem : Member) : Prop :=
  (∀ tp p, km_position mem !! tp = Some p →
     below (kg_log g) (λ r, settled g r ∨ pending (km_batch mem) tp r) tp p) ∧
  (∀ tp msgs, (tp, msgs) ∈ km_batch mem → entry_ok g tp msgs).

Record group_inv (g : Group) : Prop := {
  gi_ordered : log_ordered (kg_log g);
  gi_committed : ∀ tp c, kg_committed g !! tp = Some c → below (kg_log g) (settled g) tp c;
  gi_members : ∀ m, member_ok g (member_of m g)
}.

(** ** Lists and logs *)

Lemma below_mono log (P Q : ConsumerRecord → Prop) tp hi :
  (∀ r, r ∈ log → rec_tp r = tp → P r → Q r) → below log P tp hi → below log Q tp hi.
Proof. intros HPQ [Hle HP]. split; [done|]. intros r Hr Htp Ho. apply HPQ; [done|done|]. by apply HP. Qed.

Lemma log_end_cons r log tp :
  log_end (r :: log) tp =
    if bool_decide (rec_tp r = tp) then N.max (rec_offset r + 1) (log_end log tp) else log_end log tp.
Proof. done. Qed.

Lemma log_end_app log r tp :
  log_end (log ++ [r]) tp = N.max (log_end log tp) (if bool_decide (rec_tp r = tp) then rec_offset r + 1 else 0)%N.
Proof.
  induction log as [|x log IH].
  - cbn. case_bool_decide; lia.
  - rewrite <- app_comm_cons, !log_end_cons, IH. repeat case_bool_decide; lia.
Qed.

Lemma log_end_above log r : r ∈ log → (rec_offset r < log_end log (rec_tp r))%N.
Proof.
  induction log as [|x log IH]; intros Hr; [by apply not_elem_of_nil in Hr|]. rewrite log_end_cons.
  apply elem_of_cons in Hr as [->|Hr].
  - rewrite bool_decide_true by done. lia.
  - specialize (IH Hr). case_bool_decide; lia.
Qed.

Lemma below_append log P tp hi r :
  (log_end log (rec_tp r) ≤ rec_offset r)%N → below log P tp hi → below (log ++ [r]) P tp hi.
Proof.
  intros Hend [Hle HP]. split; [rewrite log_end_app; lia|].
  intros x Hx Htp Ho. apply elem_of_app in Hx as [Hx|Hx%list_elem_of_singleton]; [by apply HP|]. subst. lia.
Qed.

Lemma slice_elem log tp lo hi r :
  r ∈ slice log tp lo hi ↔ r ∈ log ∧ rec_tp r = tp ∧ (lo ≤ rec_offset r < hi)%N.
Proof. unfold slice. rewrite list_elem_of_filter. naive_solver. Qed.

Lemma slice_sorted log tp lo hi : log_ordered log → StronglySorted offset_lt (slice log tp lo hi).
Proof.
  intros Ho. apply (sorted_weaken (λ a b, rec_tp a = rec_tp b → offset_lt a b)).
  - intros x y (_ & Hx & _)%slice_elem (_ & Hy & _)%slice_elem HR. apply HR. congruence.
  - by apply sorted_filter.
Qed.

(** The last record of an ordered list has the greatest offset. *)
Lemma sorted_last l r x : StronglySorted offset_lt l → last l = Some r → x ∈ l → (rec_offset x ≤ rec_offset r)%N.
Proof.
  induction 1 as [|y l Hs IH Hy]; intros Hl Hx; [done|].
  destruct l as [|z l]; [injection Hl as ->; apply list_elem_of_singleton in Hx as ->; lia|].
  rewrite last_cons_cons in Hl. apply elem_of_cons in Hx as [->|Hx]; [|by apply IH].
  assert (Hr : r ∈ z :: l) by (by apply last_Some_elem_of).
  pose proof (proj1 (Forall_forall _ _) Hy r Hr) as Hlt. unfold offset_lt in Hlt. lia.
Qed.

(** ** Preservation *)

Lemma process_one_spec env r g out g' :
  process_one validate env r g = (out, g') →
  kg_log g' = kg_log g ∧ kg_members g' = kg_members g ∧ (∀ x, settled g x → settled g' x) ∧
  (kg_committed g' = kg_committed g ∨
   kg_committed g' = <[rec_tp r := (rec_offset r + 1)%N]> (kg_committed g) ∧ settled g' r) ∧
  (out = OneTrue → settled g' r).
Proof.
  unfold process_one, commit_offset, settled. intros Hp.
  destruct (validate (rec_topic r) (rec_value r)) eqn:Ev; cbn in Hp;
    [destruct (me_handler_returns env); cbn in Hp|];
    [destruct (me_commit env)| |destruct (me_commit env)]; injection Hp as <- <-; cbn; set_solver.
Qed.

Lemma member_ok_mono g g' mem :
  kg_log g' = kg_log g → (∀ x, settled g x → settled g' x) → member_ok g mem → member_ok g' mem.
Proof.
  intros Hlog Hset [Hpos Hbatch]. split.
  - intros tp p Hp. rewrite Hlog. apply (below_mono _ _ _ _ _) with (2 := Hpos tp p Hp). naive_solver.
  - intros tp msgs Hin. destruct (Hbatch tp msgs Hin) as (Hs & hi & Hb & Hm). split; [done|]. exists hi.
    rewrite Hlog. split; [|done]. apply (below_mono _ _ _ _ _) with (2 := Hb). naive_solver.
Qed.

Lemma member_of_set m m' mem g :
  member_of m' (set_member m mem g) = if decide (m = m') then mem else member_of m' g.
Proof.
  unfold member_of, set_member. cbn. destruct (decide (m = m')) as [->|Hne].
  - by rewrite lookup_insert_eq.
  - by rewrite lookup_insert_ne.
Qed.

Lemma inv_set_member m mem g : group_inv g → member_ok g mem → group_inv (set_member m mem g).
Proof.
  intros [Ho Hc Hm] Hok. split; [exact Ho|exact Hc|]. intros m'. rewrite member_of_set.
  destruct (decide (m = m')); [exact Hok|exact (Hm m')].
Qed.

Lemma inv_produce g r :
  group_inv g → (log_end (kg_log g) (rec_tp r) ≤ rec_offset r)%N →
  group_inv (mkGroup (kg_log g ++ [r]) (kg_committed g) (kg_handled g) (kg_members g)).
Proof.
  intros [Ho Hc Hm] Hend. split; cbn.
  - apply sorted_app_one; [done|]. intros y Hy Htp. pose proof (log_end_above _ _ Hy) as Hlt.
    rewrite Htp in Hlt. unfold offset_lt. lia.
  - intros tp c Hl. apply below_append; [done|]. exact (Hc tp c Hl).
  - intros m. destruct (Hm m) as [Hpos Hbatch]. split; cbn.
    + intros tp p Hp. apply below_append; [done|]. exact (Hpos tp p Hp).
    + intros tp msgs Hin. destruct (Hbatch tp msgs Hin) as (Hs & hi & Hb & Hel). split; [done|].
      exists hi. split; [by apply below_append|]. cbn. set_solver.
Qed.

(** A slice fetched from a position below which all is settled. *)
Lemma slice_entry g tp pos hi :
  log_ordered (kg_log g) → below (kg_log g) (settled g) tp pos →
  let msgs := slice (kg_log g) tp pos hi in
  entry_ok g tp msgs ∧
  below (kg_log g) (λ r, settled g r ∨ r ∈ msgs) tp (next_position pos msgs).
Proof.
  intros Ho [Hle Hset] msgs.
  assert (Hs : StronglySorted offset_lt msgs) by (by apply slice_sorted).
  assert (Hnext : below (kg_log g) (λ r, settled g r ∨ r ∈ msgs) tp (next_position pos msgs)).
  { unfold next_position. destruct (last msgs) as [z|] eqn:El.
    - assert (Hz : z ∈ msgs) by (by apply last_Some_elem_of).
      apply slice_elem in Hz as (Hzl & <- & Hzo). split; [pose proof (log_end_above _ _ Hzl); lia|].
      intros r Hr Htp Hlt. destruct (decide (rec_offset r < pos)%N); [left; by apply Hset|].
      right. apply slice_elem. split; [done|]. split; [done|lia].
    - split; [done|]. intros r Hr Htp Hlt. left. by apply Hset. }
  split; [|done]. split; [done|]. exists (next_position pos msgs). split; [done|].
  intros r Hr. pose proof Hr as (Hrl & Htp & Hro)%slice_elem. split; [done|]. split; [done|].
  unfold next_position. destruct (last msgs) as [z|] eqn:El.
  - pose proof (sorted_last _ _ _ Hs El Hr). lia.
  - apply last_None in El. rewrite El in Hr. by apply not_elem_of_nil in Hr.
Qed.

Lemma getmany_ok g wanted position batch position' :
  log_ordered (kg_log g) → NoDup wanted.*1 →
  (∀ tp p, position !! tp = Some p → tp ∈ wanted.*1 → below (kg_log g) (settled g) tp p) →
  getmany wanted (kg_log g) position = (batch, position') →
  (∀ tp, tp ∉ wanted.*1 → position' !! tp = position !! tp) ∧
  (∀ tp p, position' !! tp = Some p → tp ∈ wanted.*1 →
     below (kg_log g) (λ r, settled g r ∨ pending batch tp r) tp p) ∧
  (∀ tp msgs, (tp, msgs) ∈ batch → entry_ok g tp msgs).
Proof.
  intros Ho. revert position batch position'.
  induction wanted as [|[tp hi] wanted IH]; intros position batch position' Hnd Hpos Hg; cbn in Hg.
  - injection Hg as <- <-. set_solver.
  - apply NoDup_cons in Hnd as [Hnin Hnd]. cbn in Hnin. destruct (position !! tp) as [p|] eqn:Ep.
    + destruct (slice_entry g tp p hi Ho) as [He Hb]; [apply Hpos; [done|cbn; left]|].
      set (msgs := slice (kg_log g) tp p hi) in *.
      destruct (getmany wanted (kg_log g) (<[tp := next_position p msgs]> position)) as [b q] eqn:Eg.
      injection Hg as <- <-. apply IH in Eg as (Hout & Hin & Hent); [|done|].
      * split; [|split].
        { intros t Ht. cbn in Ht. rewrite Hout by set_solver. apply lookup_insert_ne. set_solver. }
        { intros t q' Hq Ht. destruct (decide (t ∈ wanted.*1)) as [Hw|Hw].
          - apply (below_mono _ _ _ _ _) with (2 := Hin t q' Hq Hw). unfold pending. set_solver.
          - assert (t = tp) as -> by (cbn in Ht; set_solver). rewrite Hout, lookup_insert_eq in Hq by done.
            injection Hq as <-. apply (below_mono _ _ _ _ _) with (2 := Hb). unfold pending. set_solver. }
        { intros t ms [[= -> ->]|Hin']%elem_of_cons; [done|]. by apply Hent. }
      * intros t q' Hq Ht. rewrite lookup_insert_ne in Hq by (intros ->; done).
        apply Hpos; [done|]. cbn. by right.
    + apply IH in Hg as (Hout & Hin & Hent); [|done|intros t q Hq Ht; apply Hpos; [done|cbn; by right]].
      split; [intros t Ht; apply Hout; cbn in Ht; set_solver|]. split; [|done].
      intros t q Hq Ht. destruct (decide (t ∈ wanted.*1)) as [Hw|Hw]; [by apply Hin|].
      assert (t = tp) as -> by (cbn in Ht; set_solver). rewrite Hout in Hq by done. congruence.
Qed.

Lemma entry_head g tp r msgs :
  entry_ok g tp (r :: msgs) →
  r ∈ kg_log g ∧ rec_tp r = tp ∧ (rec_offset r + 1 ≤ log_end (kg_log g) tp)%N ∧
  ∀ x, x ∈ kg_log g → rec_tp x = tp → (rec_offset x < rec_offset r + 1)%N → settled g x ∨ x = r.
Proof.
  intros (Hs & hi & [Hle Hb] & Hel). destruct (Hel r) as (Hr & Htp & Hro); [left|].
  apply StronglySorted_inv in Hs as [_ Hall].
  split; [done|]. split; [done|]. split; [lia|]. intros x Hx Hxtp Hlt.
  destruct (Hb x Hx Hxtp) as [?|[->|Hin]%elem_of_cons]; [lia|by left|by right|].
  pose proof (proj1 (Forall_forall _ _) Hall x Hin) as Hgt. unfold offset_lt in Hgt. lia.
Qed.

(** The batch after its head [r] is settled. *)
Lemma member_advance g pos tp r msgs rest :
  settled g r → member_ok g (mkMember pos ((tp, r :: msgs) :: rest)) →
  member_ok g (mkMember pos ((tp, msgs) :: rest)).
Proof.
  intros Hr [Hpos Hbatch]. cbn in *. split; cbn.
  - intros t p Hp. apply (below_mono _ _ _ _ _) with (2 := Hpos t p Hp).
    intros x _ _ [?|[ms [[[= -> ->]|Hin]%elem_of_cons Hx]]]; [by left| |].
    + apply elem_of_cons in Hx as [->|Hx]; [by left|]. right. exists msgs. split; [left|done].
    + right. exists ms. split; [by right|done].
  - intros t ms [[= -> ->]|Hin]%elem_of_cons; [|apply Hbatch; by right].
    destruct (Hbatch tp (r :: msgs)) as (Hs & hi & Hb & Hel); [left|].
    apply StronglySorted_inv in Hs as [Hs _]. split; [done|]. exists hi. split.
    + apply (below_mono _ _ _ _ _) with (2 := Hb). intros x _ _ [?|[->|?]%elem_of_cons]; auto.
    + intros x Hx. apply Hel. by right.
Qed.

(** The batch after the rest of a partition is abandoned and its position moved
    back to the failing record. *)
Lemma member_seek_back g pos tp r msgs rest :
  member_ok g (mkMember pos ((tp, r :: msgs) :: rest)) →
  member_ok g (mkMember (match pos !! tp with Some _ => <[tp := rec_offset r]> pos | None => pos end) rest).
Proof.
  intros [Hpos Hbatch]. cbn in *. destruct (entry_head g tp r msgs) as (Hr & Htp & Hle & Hbelow).
  { apply Hbatch. left. }
  split; cbn; [|intros t ms Hin; apply Hbatch; by right].
  intros t p Hp. destruct (decide (t = tp)) as [->|Hne].
  - destruct (pos !! tp) eqn:Ep; [|congruence]. rewrite lookup_insert_eq in Hp. injection Hp as <-.
    split; [lia|]. intros x Hx Hxtp Hlt. left. destruct (Hbelow x Hx Hxtp) as [? | ->]; [lia|done|lia].
  - assert (Hp' : pos !! t = Some p) by (destruct (pos !! tp); [by rewrite lookup_insert_ne in Hp|done]).
    apply (below_mono _ _ _ _ _) with (2 := Hpos t p Hp'). unfold pending.
    intros x _ _ [?|[ms [[[= -> ->]|Hin]%elem_of_cons Hx]]]; [by left|done|right; eauto].
Qed.

Lemma inv_process_one env m tp r msgs rest g out g' :
  group_inv g → km_batch (member_of m g) = (tp, r :: msgs) :: rest →
  process_one validate env r g = (out, g') →
  group_inv g' ∧ member_of m g' = member_of m g ∧ (out = OneTrue → settled g' r).
Proof.
  intros [Ho Hc Hm] Hb Hp. apply process_one_spec in Hp as (Hlog & Hmem & Hset & Hcom & Hdone).
  assert (Hmo : ∀ m, member_of m g' = member_of m g) by (intros k; unfold member_of; by rewrite Hmem).
  split; [|by split]. split.
  - by rewrite Hlog.
  - intros t c Ht. rewrite Hlog. destruct Hcom as [Hcom|[Hcom Hr]]; rewrite Hcom in Ht.
    + apply (below_mono _ _ _ _ _) with (2 := Hc t c Ht). naive_solver.
    + destruct (Hm m) as [_ Hbatch]. destruct (entry_head g tp r msgs) as (Hrl & Htp & Hle & Hbelow).
      { apply Hbatch. rewrite Hb. left. }
      rewrite Htp in Ht. destruct (decide (t = tp)) as [->|Hne].
      * rewrite lookup_insert_eq in Ht. injection Ht as <-. split; [done|]. intros x Hx Hxtp Hlt.
        destruct (Hbelow x Hx Hxtp Hlt) as [? | ->]; [by apply Hset|done].
      * rewrite lookup_insert_ne in Ht by done.
        apply (below_mono _ _ _ _ _) with (2 := Hc t c Ht). naive_solver.
  - intros k. rewrite Hmo. by apply (member_ok_mono g).
Qed.

Lemma inv_message env m g out g' :
  group_inv g → batch_step validate env m g = (out, g') → out ≠ OneRaises → group_inv g'.
Proof.
  intros Hinv Hstep Hout. unfold batch_step in Hstep. pose proof (gi_members _ Hinv m) as Hmem.
  destruct (km_batch (member_of m g)) as [|[tp [|r msgs]] rest] eqn:Eb.
  - by injection Hstep as <- <-.
  - injection Hstep as <- <-. apply inv_set_member; [done|]. destruct Hmem as [Hpos Hbatch].
    rewrite Eb in Hpos, Hbatch. split; cbn; [|intros t ms Hin; apply Hbatch; by right].
    intros t p Hp. apply (below_mono _ _ _ _ _) with (2 := Hpos t p Hp). unfold pending.
    intros x _ _ [?|[ms [[[= -> ->]|Hin]%elem_of_cons Hx]]]; [by left|by apply not_elem_of_nil in Hx|right; eauto].
  - destruct (process_one validate env r g) as [o g1] eqn:Ep. injection Hstep as <- <-.
    destruct (inv_process_one _ _ _ _ _ _ _ _ _ Hinv Eb Ep) as (Hinv1 & Hmo & Hdone).
    assert (Hm1 : member_ok g1 (mkMember (km_position (member_of m g1)) ((tp, r :: msgs) :: rest))).
    { pose proof (gi_members _ Hinv1 m) as H1. rewrite Hmo in *. rewrite <- Eb. by destruct (member_of m g). }
    destruct o; [| |done].
    + apply inv_set_member; [done|]. by apply (member_advance _ _ _ r); [apply Hdone|].
    + pose proof (member_seek_back _ _ _ _ _ _ Hm1) as Hback. unfold set_batch, seek.
      destruct (km_position (member_of m g1) !! tp) eqn:Epos.
      * rewrite member_of_set, decide_True by done. cbn.
        apply (inv_set_member m _ (set_member m _ g1)); [|exact Hback].
        apply inv_set_member; [done|]. rewrite Hmo, Eb. cbn.
        destruct Hback as [Hpos _], Hm1 as [Hpos1 Hbatch1]. split; [|exact Hbatch1].
        intros t p Hp. rewrite Hmo in *. apply (below_mono _ _ _ _ _) with (2 := Hpos t p Hp). unfold pending. cbn.
        intros x _ _ [?|(ms & Hin & Hx)]; [by left|]. right. exists ms. split; [by right|done].
      * by apply inv_set_member.
Qed.

Lemma inv_step g g' : group_inv g → group_step validate false g g' → group_inv g'.
Proof.
  intros Hinv Hs. destruct Hs as [r Hend|m tp|m tp|m wanted batch position Hb Hnd Hg _|m env out g' Hs Hout|m].
  - by apply inv_produce.
  - apply inv_set_member; [done|]. destruct (gi_members _ Hinv m) as [Hpos Hbatch]. split; [|exact Hbatch].
    intros t p Hp. cbn in Hp. destruct (decide (t = tp)) as [->|Hne].
    + rewrite lookup_insert_eq in Hp. injection Hp as <-. destruct (kg_committed g !! tp) as [c|] eqn:Ec; cbn.
      * apply (below_mono _ _ _ _ _) with (2 := gi_committed _ Hinv tp c Ec). auto.
      * split; [lia|]. intros r _ _ Hlt. lia.
    + rewrite lookup_insert_ne in Hp by done. exact (Hpos t p Hp).
  - apply inv_set_member; [done|]. destruct (gi_members _ Hinv m) as [Hpos Hbatch]. split; [|exact Hbatch].
    intros t p Hp. cbn in Hp. apply lookup_delete_Some in Hp as [_ Hp]. exact (Hpos t p Hp).
  - apply inv_set_member; [done|]. destruct (gi_members _ Hinv m) as [Hpos _].
    assert (Hset : ∀ tp p, km_position (member_of m g) !! tp = Some p → below (kg_log g) (settled g) tp p).
    { intros tp p Hp. apply (below_mono _ _ _ _ _) with (2 := Hpos tp p Hp). rewrite Hb.
      intros x _ _ [?|(ms & Hin & _)]; [done|by apply not_elem_of_nil in Hin]. }
    apply (getmany_ok g) in Hg as (Hout & Hin & Hent); [|exact (gi_ordered _ Hinv)|done|auto].
    split; cbn; [|done]. intros tp p Hp. destruct (decide (tp ∈ wanted.*1)) as [Hw|Hw]; [by apply Hin|].
    rewrite Hout in Hp by done. apply (below_mono _ _ _ _ _) with (2 := Hset tp p Hp). auto.
  - apply (inv_message env m g out); [done|done|]. by destruct Hout.
  - apply inv_set_member; [done|]. split; cbn; [done|]. intros tp ms Hin. by apply not_elem_of_nil in Hin.
Qed.

Lemma inv_reachable g : group_reachable validate false g → group_inv g.
Proof.
  intros Hr. unfold group_reachable in Hr. remember no_group as g0 eqn:E0.
  assert (H0 : group_inv g0).
  { subst g0. split; [constructor|done|]. intros m. split; [done|].
    intros tp ms Hin. by apply not_elem_of_nil in Hin. }
  clear E0. induction Hr as [|x y z Hs _ IH]; [done|]. apply IH. by apply (inv_step x).
Qed.

(** Every valid record below the committed offset was handled. *)
Lemma committed_handled g r c :
  group_reachable validate false g → r ∈ kg_log g → validate (rec_topic r) (rec_value r) = true →
  kg_committed g !! rec_tp r = Some c → (rec_offset r < c)%N → r ∈ kg_handled g.
Proof.
  intros Hr Hin Hv Hcom Hlt. apply inv_reachable in Hr as [_ Hc _].
  destruct (proj2 (Hc (rec_tp r) c Hcom) r Hin eq_refl Hlt); [congruence|done].
Qed.

(** A record is determined by its coordinates. *)
Lemma log_coordinates_unique g r r' :
  group_reachable validate false g → r ∈ kg_log g → r' ∈ kg_log g → rec_tp r = rec_tp r' → rec_offset r = rec_offset r' → r = r'.
Proof.
  intros Hr Hin Hin' Htp Ho. apply inv_reachable in Hr as [Hord _ _]. unfold log_ordered in Hord.
  induction Hord as [|x log Hs IH Hx]; [by apply not_elem_of_nil in Hin|].
  rewrite Forall_forall in Hx. apply elem_of_cons in Hin as [->|Hin]; apply elem_of_cons in Hin' as [->|Hin'].
  - done.
  - specialize (Hx _ Hin' Htp). unfold offset_lt in Hx. lia.
  - specialize (Hx _ Hin (eq_sym Htp)). unfold offset_lt in Hx. lia.
  - by apply IH.
Qed.

(** C6: At-least-once delivery: as long as no commit of a schema-invalid message raises,
    in every interleaving of producers, polls, handler and commit failures,
    rebalances and restarts, every valid record below the group's committed offset
    has been handled, and every one a member has moved past has been handled or is
    still in the batch it works through. *)
Theorem at_least_once g r :
  group_reachable validate false g → r ∈ kg_log g → validate (rec_topic r) (rec_value r) = true →
  (∀ c, kg_committed g !! rec_tp r = Some c → (rec_offset r < c)%N → r ∈ kg_handled g) ∧
  (∀ m p, km_position (member_of m g) !! rec_tp r = Some p → (rec_offset r < p)%N →
     r ∈ kg_handled g ∨ pending (km_batch (member_of m g)) (rec_tp r) r).
Proof.
  intros Hr Hin Hv. apply inv_reachable in Hr as [_ Hc Hm].
  assert (Hset : settled g r → r ∈ kg_handled g) by (intros [?|?]; [congruence|done]). split.
  - intros c Hcom Hlt. apply Hset. by apply (Hc (rec_tp r) c Hcom).
  - intros m p Hp Hlt. destruct (Hm m) as [Hpos _].
    destruct (proj2 (Hpos (rec_tp r) p Hp) r Hin eq_refl Hlt); auto.
Qed.

(** ** One batch *)

(** The messages of a partition up to the first that fails, and that one. *)
Definition passes (env : MsgEnv) (r : ConsumerRecord) : bool :=
  match me_commit env with
  | TxCommits => negb (validate (rec_topic r) (rec_value r)) || me_handler_returns env
  | _ => false
  end.

Fixpoint split_at_failure (env : ConsumerRecord → MsgEnv) (msgs : list ConsumerRecord)
    : list ConsumerRecord * option ConsumerRecord :=
  match msgs with
  | [] => ([], None)
  | r :: msgs =>
      if passes (env r) r
      then let '(done, failed) := split_at_failure env msgs in (r :: done, failed)
      else ([], Some r)
  end.

(** The records whose handler returns: the valid ones before the failure, and the
    failing one when it was its commit that failed. *)
Definition delivered (env : ConsumerRecord → MsgEnv) (msgs : list ConsumerRecord) : list ConsumerRecord :=
  let '(done, failed) := split_at_failure env msgs in
  filter (λ r, validate (rec_topic r) (rec_value r) = true) done ++
  match failed with Some r => if me_handler_returns (env r) then [r] else [] | None => [] end.

(** The partition's committed offset afterwards. *)
Definition committed_after (env : ConsumerRecord → MsgEnv) (msgs : list ConsumerRecord) (old : option N)
    : option N :=
  let '(done, failed) := split_at_failure env msgs in
  let upto := match last done with Some r => Some (rec_offset r + 1)%N | None => old end in
  match failed with
  | Some r => match me_handler_returns (env r), me_commit (env r) with
              | true, TxCommitsThenRaises => Some (rec_offset r + 1)%N
              | _, _ => upto
              end
  | None => upto
  end.

(** And the member's position in it. *)
Definition position_after (env : ConsumerRecord → MsgEnv) (msgs : list ConsumerRecord) (old : option N)
    : option N :=
  match (split_at_failure env msgs).2 with Some r => (λ _, rec_offset r) <$> old | None => old end.

(** What one partition's loop leaves: the handler calls, and the offsets of [tp] only. *)
Record partition_effect (env : ConsumerRecord → MsgEnv) (m : N) (tp : TopicPartition)
    (msgs : list ConsumerRecord) (g g' : Group) : Prop := {
  pe_handled : kg_handled g' = kg_handled g ++ delivered env msgs;
  pe_committed : kg_committed g' !! tp = committed_after env msgs (kg_committed g !! tp);
  pe_position : km_position (member_of m g') !! tp = position_after env msgs (km_position (member_of m g) !! tp);
  pe_others : ∀ t, t ≠ tp → kg_committed g' !! t = kg_committed g !! t ∧
                km_position (member_of m g') !! t = km_position (member_of m g) !! t
}.

(** The commit of a schema-invalid record does not raise. *)
Definition no_escape (env : ConsumerRecord → MsgEnv) (r : ConsumerRecord) : Prop :=
  validate (rec_topic r) (rec_value r) = false → me_commit (env r) = TxCommits.

Lemma process_one_passes env r g :
  passes (env r) r = true →
  process_one validate (env r) r g =
    (OneTrue, mkGroup (kg_log g) (<[rec_tp r := (rec_offset r + 1)%N]> (kg_committed g))
                (kg_handled g ++ (if validate (rec_topic r) (rec_value r) then [r] else [])) (kg_members g)).
Proof.
  unfold passes, process_one, commit_offset. destruct (me_commit (env r)); [|done|done].
  destruct (validate _ _), (me_handler_returns (env r)); cbn; intros [=]; by rewrite ?app_nil_r.
Qed.

Lemma process_one_fails env r g :
  passes (env r) r = false → no_escape env r →
  process_one validate (env r) r g =
    (OneFalse, mkGroup (kg_log g)
                 (match me_handler_returns (env r), me_commit (env r) with
                  | true, TxCommitsThenRaises => <[rec_tp r := (rec_offset r + 1)%N]> (kg_committed g)
                  | _, _ => kg_committed g
                  end)
                 (kg_handled g ++ (if me_handler_returns (env r) then [r] else [])) (kg_members g)).
Proof.
  unfold passes, no_escape, process_one, commit_offset. intros Hp Hesc.
  destruct (validate _ _); cbn in *.
  - destruct (me_handler_returns (env r)); cbn in *.
    + by destruct (me_commit (env r)).
    + rewrite app_nil_r. by destruct g.
  - rewrite (Hesc eq_refl) in Hp. done.
Qed.

Lemma process_messages_effect env m tp msgs g :
  (∀ r, r ∈ msgs → rec_tp r = tp ∧ no_escape env r) →
  (process_messages validate env m tp msgs g).1 =
    Ok (bool_decide (is_Some (split_at_failure env msgs).2)) ∧
  partition_effect env m tp msgs g (process_messages validate env m tp msgs g).2.
Proof.
  revert g. induction msgs as [|r msgs IH]; intros g Hmsgs.
  - split; [done|]. split; cbn; [by rewrite app_nil_r|done|done|done].
  - destruct (Hmsgs r) as [Htp Hesc]; [left|]. cbn [process_messages split_at_failure].
    destruct (passes (env r) r) eqn:Ep.
    + rewrite (process_one_passes env r g Ep). set (g1 := mkGroup _ _ _ _).
      destruct (IH g1) as [Hres [Hh Hc Hp Ho]]; [intros x Hx; apply Hmsgs; by right|]. rewrite Hres.
      unfold delivered, committed_after, position_after in Hh, Hc, Hp.
      destruct (split_at_failure env msgs) as [done failed] eqn:Es. split; [done|].
      split; unfold delivered, committed_after, position_after; cbn [split_at_failure]; rewrite ?Ep, ?Es.
      * rewrite Hh. cbv beta iota. rewrite filter_cons. unfold g1. cbn [kg_handled]. destruct (validate (rec_topic r) (rec_value r));
          [rewrite decide_True by done|rewrite decide_False by done]; cbn; by rewrite <- ?app_assoc, ?app_nil_r.
      * rewrite Hc. cbn. rewrite Htp, lookup_insert_eq.
        destruct done as [|x done]; [done|]. rewrite last_cons_cons.
        destruct (last (x :: done)) eqn:El; [done|]. by apply last_None in El.
      * exact Hp.
      * intros t Ht. destruct (Ho t Ht) as [-> ->]. cbn. by rewrite lookup_insert_ne by congruence.
    + rewrite (process_one_fails env r g Ep Hesc). split; [done|].
      set (g1 := mkGroup _ _ _ _). cbn.
      assert (Hseek : kg_handled (seek m tp (rec_offset r) g1) = kg_handled g1 ∧
                      kg_committed (seek m tp (rec_offset r) g1) = kg_committed g1 ∧
                      ∀ t, km_position (member_of m (seek m tp (rec_offset r) g1)) !! t =
                        if decide (t = tp) then (λ _, rec_offset r) <$> km_position (member_of m g) !! t
                        else km_position (member_of m g) !! t).
      { unfold seek. change (member_of m g1) with (member_of m g).
        destruct (km_position (member_of m g) !! tp) eqn:Epos; (split; [done|split; [done|]]); intros t.
        - rewrite member_of_set, decide_True by done. cbn. destruct (decide (t = tp)) as [->|Hne].
          + by rewrite lookup_insert_eq, Epos.
          + by rewrite lookup_insert_ne.
        - destruct (decide (t = tp)) as [->|Hne]; [|done]. change (member_of m g1) with (member_of m g).
          by rewrite Epos. }
      destruct Hseek as (Hh & Hc & Hp).
      split; unfold delivered, committed_after, position_after; cbn [split_at_failure]; rewrite ?Ep.
      * rewrite Hh. done.
      * rewrite Hc. cbn. rewrite Htp. destruct (me_handler_returns (env r)), (me_commit (env r));
          by rewrite ?lookup_insert_eq.
      * rewrite Hp. by rewrite decide_True.
      * intros t Ht. rewrite Hc, Hp, decide_False by done. split; [|done]. cbn. rewrite Htp.
        destruct (me_handler_returns (env r)), (me_commit (env r)); by rewrite ?lookup_insert_ne.
Qed.


(** ** A batch is a sequence of the group's steps *)

Lemma set_batch_twice m b b' g : set_batch m b' (set_batch m b g) = set_batch m b' g.
Proof.
  unfold set_batch, set_member, member_of. cbn. rewrite lookup_insert_eq. cbn. by rewrite insert_insert_eq.
Qed.

Lemma batch_of_set m b g : km_batch (member_of m (set_batch m b g)) = b.
Proof. unfold set_batch. by rewrite member_of_set, decide_True. Qed.

Lemma process_one_set_batch env r m b g :
  process_one validate env r (set_batch m b g) =
    ((process_one validate env r g).1, set_batch m b (process_one validate env r g).2).
Proof.
  unfold process_one, commit_offset. destruct (validate _ _), (me_handler_returns env), (me_commit env); done.
Qed.

Lemma seek_set_batch m tp o b rest g :
  set_batch m rest (seek m tp o (set_batch m b g)) = set_batch m rest (seek m tp o g).
Proof.
  unfold seek. unfold set_batch at 2. rewrite member_of_set, decide_True by done. cbn.
  destruct (km_position (member_of m g) !! tp) eqn:Ep.
  - unfold set_batch, set_member, member_of. cbn. rewrite !lookup_insert_eq. cbn. by rewrite !insert_insert_eq.
  - apply set_batch_twice.
Qed.

Lemma process_messages_steps esc env m tp msgs rest g res g' :
  process_messages validate env m tp msgs g = (res, g') → (esc = true ∨ res ≠ Err tt) →
  rtc (group_step validate esc) (set_batch m ((tp, msgs) :: rest) g)
    (set_batch m (match res with Ok _ => rest | Err _ => [] end) g').
Proof.
  revert g. induction msgs as [|r msgs IH]; intros g Hp Hesc; cbn [process_messages] in Hp.
  - injection Hp as <- <-. apply rtc_once. apply (step_message validate esc _ m (mkMsgEnv true TxCommits) OneTrue).
    + unfold batch_step. rewrite batch_of_set. by rewrite set_batch_twice.
    + by right.
  - assert (Hstep : ∀ o g1, process_one validate (env r) r g = (o, g1) →
      batch_step validate (env r) m (set_batch m ((tp, r :: msgs) :: rest) g) =
        (o, match o with
            | OneTrue => set_batch m ((tp, msgs) :: rest) g1
            | OneFalse => set_batch m rest (seek m tp (rec_offset r) g1)
            | OneRaises => set_batch m [] g1
            end)).
    { intros o g1 E. unfold batch_step. rewrite batch_of_set, process_one_set_batch, E. cbn.
      destruct o; by rewrite ?set_batch_twice, ?seek_set_batch. }
    destruct (process_one validate (env r) r g) as [o g1]. specialize (Hstep o g1 eq_refl). destruct o.
    + eapply rtc_l; [eapply step_message; [exact Hstep|by right]|]. by apply IH.
    + injection Hp as <- <-. eapply rtc_once, step_message; [exact Hstep|by right].
    + injection Hp as <- <-. eapply rtc_once, step_message; [exact Hstep|]. destruct Hesc as [?|[]]; [by left|done].
Qed.

(** [_process_batch] run without interruption is one of the interleavings above. *)
Lemma process_batch_steps esc env m records g res g' :
  process_batch validate env m records g = (res, g') → (esc = true ∨ res ≠ Err tt) →
  rtc (group_step validate esc) (set_batch m records g) (set_batch m [] g').
Proof.
  revert g res. induction records as [|[tp msgs] records IH]; intros g res Hp Hesc; cbn [process_batch] in Hp.
  - injection Hp as <- <-. apply rtc_refl.
  - destruct (process_messages validate env m tp msgs g) as [r1 g1] eqn:E1. destruct r1 as [failed|e].
    + destruct (process_batch validate env m records g1) as [r2 g2] eqn:E2. injection Hp as <- <-.
      etrans; [apply (process_messages_steps esc _ _ _ _ records _ _ _ E1); by right|].
      apply (IH g1 r2 E2). destruct Hesc as [?|Hne]; [by left|]. right. intros ->. by apply Hne.
    + injection Hp as <- <-. by apply (process_messages_steps esc _ _ _ _ records _ _ _ E1).
Qed.
End Delivery.

(** ** Lag *)

(** The lag is zero exactly when every assigned partition is committed to its end. *)
Lemma sum_partition_lag_zero ends committed assignment :
  (∀ tp, tp ∈ assignment → (0 ≤ default 0 (ends !! tp))%Z) →
  sum_partition_lag ends committed assignment = 0%Z ↔
  ∀ tp, tp ∈ assignment → (default 0 (ends !! tp) ≤ default 0 (committed tp))%Z.
Proof.
  intros Hends. unfold sum_partition_lag.
  assert (Hgen : ∀ acc, (0 ≤ acc)%Z →
    foldl (λ lag tp, let fin := default 0%Z (ends !! tp) in
             match committed tp with None => (lag + fin)%Z | Some c => (lag + Z.max 0 (fin - c))%Z end)
      acc assignment = 0%Z ↔
    acc = 0%Z ∧ ∀ tp, tp ∈ assignment → (default 0 (ends !! tp) ≤ default 0 (committed tp))%Z).
  { induction assignment as [|tp ts IH]; intros acc Hacc; cbn; [set_solver|].
    assert (H0 : (0 ≤ default 0 (ends !! tp))%Z) by (apply Hends; left).
    rewrite IH; [|intros t Ht; apply Hends; by right|destruct (committed tp); lia].
    split.
    - intros [Hz Hts]. split; [destruct (committed tp); lia|].
      intros t [->|Ht]%elem_of_cons; [destruct (committed tp); cbn; lia|by apply Hts].
    - intros [-> Hts]. split; [|intros t Ht; apply Hts; by right].
      assert (H1 : (default 0 (ends !! tp) ≤ default 0 (committed tp))%Z) by (apply Hts; left).
      destruct (committed tp); cbn in H1; lia. }
  rewrite Hgen by lia. naive_solver.
Qed.

(** ** Worked examples *)

Module KafkaExample.
(** Records of topic [job.completed] are valid, others are not. *)
Definition only_completed (topic : string) (v : dict) : bool := bool_decide (topic = "job.completed").

Definition poison : ConsumerRecord := mkRecord "job.dlq" 0 0 None [].
Definition first : ConsumerRecord := mkRecord "job.completed" 0 0 None [].
Definition second : ConsumerRecord := mkRecord "job.completed" 0 1 None [].

Definition calm : MsgEnv := mkMsgEnv true TxCommits.
Definition handler_raises : MsgEnv := mkMsgEnv false TxCommits.
Definition commit_raises : MsgEnv := mkMsgEnv true TxRollsBack.

(** One poll of member 0: the records of both partitions up to offset [hi]. *)
Definition poll (hi : N) (g : Group) : Group :=
  let '(batch, position) := getmany [(rec_tp poison, hi); (rec_tp first, hi)] (kg_log g)
                              (km_position (member_of 0 g)) in
  set_member 0 (mkMember position batch) g.

Definition produce (r : ConsumerRecord) (g : Group) : Group :=
  mkGroup (kg_log g ++ [r]) (kg_committed g) (kg_handled g) (kg_members g).

Definition step (env : MsgEnv) (g : Group) : Group := (batch_step only_completed env 0 g).2.

(** Two partitions assigned to one member, one record in each, fetched together. *)
Definition fetched : Group :=
  poll 1 (produce first (produce poison (assign 0 (rec_tp first) (assign 0 (rec_tp poison) no_group)))).

(** The first record's handler raises once and it is redelivered. *)
Definition redelivered : Group :=
  Nat.iter 3 (step calm) (poll 1 (step handler_raises (Nat.iter 2 (step calm) fetched))).

(** The commit of the invalid record raises; the next poll reads on. *)
Definition skipped : Group :=
  Nat.iter 4 (step calm) (poll 2 (produce second (step commit_raises fetched))).

Lemma reach_step esc g g' :
  group_reachable only_completed esc g → group_step only_completed esc g g' → group_reachable only_completed esc g'.
Proof. intros Hr Hs. by eapply rtc_r. Qed.

Lemma reach_poll esc hi g :
  group_reachable only_completed esc g → km_batch (member_of 0 g) = [] →
  (length (concat (km_batch (member_of 0 (poll hi g))).*2) ≤ MAX_RECORDS)%nat →
  group_reachable only_completed esc (poll hi g).
Proof.
  intros Hr Hb Hlen. unfold poll in *.
  destruct (getmany _ (kg_log g) (km_position (member_of 0 g))) as [batch position] eqn:Eg.
  rewrite member_of_set, decide_True in Hlen by done.
  eapply reach_step; [exact Hr|]. eapply step_fetch; [exact Hb| |exact Eg|exact Hlen].
  refine (bool_decide_eq_true_1 _ _). vm_compute. reflexivity.
Qed.

Lemma reach_produce esc r g :
  group_reachable only_completed esc g → (log_end (kg_log g) (rec_tp r) ≤ rec_offset r)%N →
  group_reachable only_completed esc (produce r g).
Proof. intros Hr Hle. eapply reach_step; [exact Hr|]. by apply step_produce. Qed.

Lemma reach_message esc env g :
  group_reachable only_completed esc g →
  (esc = true ∨ (batch_step only_completed env 0 g).1 ≠ OneRaises) →
  group_reachable only_completed esc (step env g).
Proof. intros Hr Ho. eapply reach_step; [exact Hr|]. eapply step_message; [apply surjective_pairing|exact Ho]. Qed.

Lemma fetched_reachable esc : group_reachable only_completed esc fetched.
Proof.
  unfold fetched. apply reach_poll; [|reflexivity|vm_compute; lia].
  apply reach_produce; [|vm_compute; discriminate]. apply reach_produce; [|vm_compute; discriminate].
  eapply reach_step; [eapply reach_step; [apply rtc_refl|apply step_assign]|apply step_assign].
Qed.

Lemma redelivered_reachable : group_reachable only_completed false redelivered.
Proof.
  unfold redelivered. cbn [Nat.iter nat_rect].
  do 3 (apply reach_message; [|right; vm_compute; discriminate]).
  apply reach_poll; [|reflexivity|vm_compute; lia].
  do 3 (apply reach_message; [|right; vm_compute; discriminate]).
  apply fetched_reachable.
Qed.

(** A record can be lost: when the commit of a schema-invalid message raises, the
    exception leaves [_process_batch] without seeking any partition back, so the
    records fetched with it are never handled although the next commit of their
    partition passes them. *)
Theorem poison_commit_failure_loses_records :
  group_reachable only_completed true skipped ∧
  first ∈ kg_log skipped ∧ only_completed (rec_topic first) (rec_value first) = true ∧
  kg_committed skipped !! rec_tp first = Some 2%N ∧
  km_position (member_of 0 skipped) !! rec_tp first = Some 2%N ∧
  km_batch (member_of 0 skipped) = [] ∧ kg_handled skipped = [second].
Proof.
  split; [|vm_compute; repeat split; right; left].
  unfold skipped. cbn [Nat.iter nat_rect]. do 4 (apply reach_message; [|by left]).
  apply reach_poll; [|reflexivity|vm_compute; lia]. apply reach_produce; [|vm_compute; discriminate].
  apply reach_message; [|by left]. apply fetched_reachable.
Qed.

Lemma at_least_once_witness : kg_committed redelivered !! rec_tp first = Some 1%N ∧ first ∈ kg_handled redelivered.
Proof.
  split; [vm_compute; reflexivity|].
  apply (proj1 (at_least_once only_completed redelivered first redelivered_reachable
    ltac:(vm_compute; right; left) eq_refl) 1%N); vm_compute; reflexivity.
Defined.

(** Two partitions in one batch; the handler of the second record of the first one
    raises. *)
Definition other : ConsumerRecord := mkRecord "job.completed" 1 0 None [].
Definition failing_second (r : ConsumerRecord) : MsgEnv :=
  if bool_decide (rec_tp r = rec_tp second ∧ rec_offset r = 1%N) then handler_raises else calm.

End KafkaExample.
