(* ===== verification/CircuitBreaker.v ===== *)
(** * The circuit breaker (core/circuit_breaker.py)

    The three-state breaker, the reset signal it honours, what it records outside the
    process, one call from admission to outcome, and the interleavings of concurrent
    calls: each block under the lock is one step.  Times are [time.monotonic()] in
    seconds and the wall clock in microseconds. *)
From stdpp Require Import base tactics numbers option list strings.
From Stdlib Require Import QArith.
From S2P Require Import Prelude PyData.

Inductive CircuitState : Type := CLOSED | OPEN | HALF_OPEN.

#[export] Instance CircuitState_eq_dec : EqDecision CircuitState.
Proof. solve_decision. Defined.

Definition circuit_state_value (s : CircuitState) : string :=
  match s with CLOSED => "closed" | OPEN => "open" | HALF_OPEN => "half_open" end.

(** [BREAKER_REFRESH_INTERVAL_SECONDS]. *)
Definition BREAKER_REFRESH_INTERVAL_SECONDS : Q := 60.

(** The constructor's arguments. *)
Record BreakerConfig := mkBreakerConfig {
  bc_name : string;
  bc_failure_threshold : Z;
  bc_recovery_timeout : Q
}.

Record Breaker := mkBreaker {
  cb_state : CircuitState;
  cb_failure_count : Z;
  cb_opened_at : option Q;
  cb_probe_in_flight : bool;
  cb_last_state_change_at : option Z;
  cb_last_failure_at : option Z;
  cb_last_failure_reason_class : option string;
  cb_recorded_at_monotonic : option Q;
  cb_observed_reset_at : option Z
}.

Definition new_breaker : Breaker := mkBreaker CLOSED 0 None false None None None None None.

(** One published state (the arguments of [publish_breaker_state]). *)
Record BreakerRecord := mkBreakerRecord {
  br_name : string;
  br_state : string;
  br_failure_count : Z;
  br_failure_threshold : Z;
  br_recovery_timeout_s : Q;
  br_last_state_change_at : option Z;
  br_last_failure_at : option Z;
  br_last_failure_reason_class : option string
}.

Section Breaker.
Context (cfg : BreakerConfig).

(** ** The blocks under the lock *)

(** [_set_state]: the wall clock is stamped only on a real change. *)
Definition set_state (wall : Z) (s : CircuitState) (b : Breaker) : Breaker :=
  if bool_decide (s = cb_state b) then b
  else mkBreaker s (cb_failure_count b) (cb_opened_at b) (cb_probe_in_flight b) (Some wall)
         (cb_last_failure_at b) (cb_last_failure_reason_class b) (cb_recorded_at_monotonic b)
         (cb_observed_reset_at b).

Definition set_probe (p : bool) (b : Breaker) : Breaker :=
  mkBreaker (cb_state b) (cb_failure_count b) (cb_opened_at b) p (cb_last_state_change_at b)
    (cb_last_failure_at b) (cb_last_failure_reason_class b) (cb_recorded_at_monotonic b)
    (cb_observed_reset_at b).

(** [_honour_reset] after the signal is read: whether anything was cleared. *)
Definition honour_reset (signal : option Z) (b : Breaker) : bool * Breaker :=
  match signal with
  | None => (false, b)
  | Some at' =>
      if bool_decide (cb_observed_reset_at b = Some at') then (false, b)
      else if (match cb_last_failure_at b with Some f => (at' <? f)%Z | None => false end)
      then (false, mkBreaker (cb_state b) (cb_failure_count b) (cb_opened_at b) (cb_probe_in_flight b)
                     (cb_last_state_change_at b) (cb_last_failure_at b)
                     (cb_last_failure_reason_class b) (cb_recorded_at_monotonic b) (Some at'))
      else
        let already_clean :=
          bool_decide (cb_state b = CLOSED) && (cb_failure_count b =? 0)%Z &&
          bool_decide (cb_last_state_change_at b = None) && bool_decide (cb_last_failure_at b = None) in
        (negb already_clean,
         mkBreaker CLOSED 0 None false None None None (cb_recorded_at_monotonic b) (Some at'))
  end.

(** The admission block of [call]: [None] is a [CircuitOpenError], [Some is_probe]
    admits the call. *)
Definition admit_call (mono : Q) (wall : Z) (b : Breaker) : option bool * Breaker :=
  match cb_state b with
  | CLOSED => (Some false, b)
  | OPEN =>
      if Qle_bool (bc_recovery_timeout cfg) (mono - default 0 (cb_opened_at b))
      then (Some true, set_probe true (set_state wall HALF_OPEN b))
      else (None, b)
  | HALF_OPEN => (None, b)
  end.

(** The undo of a probe whose upstream was never reached: a nested breaker rejected. *)
Definition undo_probe (wall : Z) (b : Breaker) : Breaker := set_state wall OPEN (set_probe false b).

(** The block of [_on_success]: whether the state changed. *)
Definition on_success (wall : Z) (b : Breaker) : bool * Breaker :=
  let b' := set_state wall CLOSED b in
  (bool_decide (cb_state b ≠ CLOSED),
   mkBreaker (cb_state b') 0 None false (cb_last_state_change_at b') (cb_last_failure_at b')
     (cb_last_failure_reason_class b') (cb_recorded_at_monotonic b') (cb_observed_reset_at b')).

(** The block of [_on_failure]. *)
Definition on_failure (mono : Q) (wall : Z) (reason : string) (b : Breaker) : bool * Breaker :=
  let count := (cb_failure_count b + 1)%Z in
  let b1 := mkBreaker (cb_state b) count (cb_opened_at b) false (cb_last_state_change_at b)
              (Some wall) (Some reason) (cb_recorded_at_monotonic b) (cb_observed_reset_at b) in
  let tripped := (bc_failure_threshold cfg <=? count)%Z in
  if bool_decide (cb_state b = HALF_OPEN) || tripped then
    let b2 := set_state wall OPEN b1 in
    (bool_decide (cb_state b ≠ OPEN),
     mkBreaker (cb_state b2) (cb_failure_count b2) (Some mono) (cb_probe_in_flight b2)
       (cb_last_state_change_at b2) (cb_last_failure_at b2) (cb_last_failure_reason_class b2)
       (cb_recorded_at_monotonic b2) (cb_observed_reset_at b2))
  else (false, b1).

(** ** Recording and one whole call *)

Definition breaker_record (b : Breaker) : BreakerRecord :=
  mkBreakerRecord (bc_name cfg) (circuit_state_value (cb_state b)) (cb_failure_count b)
    (bc_failure_threshold cfg) (bc_recovery_timeout cfg) (cb_last_state_change_at b)
    (cb_last_failure_at b) (cb_last_failure_reason_class b).

(** [_record]: throttled unless the state changed; the reset is honoured before
    anything is published.  Its two reads of the monotonic clock, before and after
    the lookup of the signal, are taken as one. *)
Definition record_state (changed : bool) (mono : Q) (signal : option Z) (b : Breaker)
    : option BreakerRecord * Breaker :=
  let throttled := negb changed &&
    match cb_recorded_at_monotonic b with
    | Some t => negb (Qle_bool BREAKER_REFRESH_INTERVAL_SECONDS (mono - t))
    | None => false
    end in
  if throttled then (None, b)
  else
    let b := (honour_reset signal b).2 in
    let b := mkBreaker (cb_state b) (cb_failure_count b) (cb_opened_at b) (cb_probe_in_flight b)
               (cb_last_state_change_at b) (cb_last_failure_at b) (cb_last_failure_reason_class b)
               (Some mono) (cb_observed_reset_at b) in
    (Some (breaker_record b), b).

(** How the guarded coroutine ends. *)
Inductive fn_outcome : Type :=
  | FnReturns
  | FnRejected            (** a nested [CircuitOpenError] *)
  | FnRaises (reason : string)
  | FnCancelled.          (** [CancelledError], a [BaseException] *)

Inductive call_outcome : Type := CallRejected | CallReturned | CallRaised.

(** One call with no other in between: [signal] is the reset signal it reads. *)
Definition call (mono_in : Q) (wall_in : Z) (signal : option Z) (fn : fn_outcome) (mono_out : Q)
    (wall_out : Z) (b : Breaker) : call_outcome * list BreakerRecord * Breaker :=
  let b := if bool_decide (cb_state b ≠ CLOSED) then (honour_reset signal b).2 else b in
  match admit_call mono_in wall_in b with
  | (None, b) => (CallRejected, [], b)
  | (Some is_probe, b) =>
      let '(r0, b) := if is_probe then record_state true mono_in signal b else (None, b) in
      match fn with
      | FnReturns =>
          let '(changed, b) := on_success wall_out b in
          let '(r1, b) := record_state changed mono_out signal b in
          (CallReturned, option_list r0 ++ option_list r1, b)
      | FnRejected =>
          if is_probe then
            let '(r1, b) := record_state true mono_out signal (undo_probe wall_out b) in
            (CallRaised, option_list r0 ++ option_list r1, b)
          else (CallRaised, option_list r0, b)
      | FnRaises reason =>
          let '(changed, b) := on_failure mono_out wall_out reason b in
          let '(r1, b) := record_state changed mono_out signal b in
          (CallRaised, option_list r0 ++ option_list r1, b)
      | FnCancelled => (CallRaised, option_list r0, b)
      end
  end.

(** ** Concurrent calls *)

(** The breaker and the calls in flight, each with its [is_probe]. *)
Record BreakerRun := mkRun { run_breaker : Breaker; run_calls : list bool }.

(** The end of one call: the block its outcome runs. *)
Definition end_call (mono : Q) (wall : Z) (is_probe : bool) (fn : fn_outcome) (b : Breaker) : Breaker :=
  match fn with
  | FnReturns => (on_success wall b).2
  | FnRejected => if is_probe then undo_probe wall b else b
  | FnRaises reason => (on_failure mono wall reason b).2
  | FnCancelled => b
  end.

(** [resets] allows reset signals, [cancels] allows cancelled calls. *)
Inductive breaker_step (resets cancels : bool) : BreakerRun → BreakerRun → Prop :=
  | bs_admit b calls mono wall is_probe b' :
      admit_call mono wall b = (Some is_probe, b') →
      breaker_step resets cancels (mkRun b calls) (mkRun b' (calls ++ [is_probe]))
  | bs_reject b calls mono wall b' :
      admit_call mono wall b = (None, b') →
      breaker_step resets cancels (mkRun b calls) (mkRun b' calls)
  | bs_end b before is_probe after mono wall fn :
      (fn = FnCancelled → cancels = true) →
      breaker_step resets cancels (mkRun b (before ++ is_probe :: after))
        (mkRun (end_call mono wall is_probe fn b) (before ++ after))
  | bs_reset b calls signal :
      resets = true →
      breaker_step resets cancels (mkRun b calls) (mkRun (honour_reset signal b).2 calls).

End Breaker.

(** ** Lemmas *)

Section BreakerLemmas.
Context (cfg : BreakerConfig).

Lemma set_state_state wall s b : cb_state (set_state wall s b) = s.
Proof. unfold set_state. by case_bool_decide. Qed.

Lemma on_success_closed wall b :
  let b' := (on_success wall b).2 in
  cb_state b' = CLOSED ∧ cb_failure_count b' = 0%Z ∧ cb_opened_at b' = None ∧ cb_probe_in_flight b' = false.
Proof. unfold on_success. cbn. by rewrite set_state_state. Qed.

Lemma on_failure_spec mono wall reason b :
  let b' := (on_failure cfg mono wall reason b).2 in
  cb_failure_count b' = (cb_failure_count b + 1)%Z ∧ cb_probe_in_flight b' = false ∧
  cb_last_failure_at b' = Some wall ∧
  if bool_decide (cb_state b = HALF_OPEN) || (bc_failure_threshold cfg <=? cb_failure_count b + 1)%Z
  then cb_state b' = OPEN ∧ cb_opened_at b' = Some mono
  else cb_state b' = cb_state b ∧ cb_opened_at b' = cb_opened_at b.
Proof.
  unfold on_failure, set_state. cbn.
  destruct (bool_decide (cb_state b = HALF_OPEN) || _); cbn; [|done]. by case_bool_decide.
Qed.

Lemma admit_some mono wall b p b' :
  admit_call cfg mono wall b = (Some p, b') →
  (cb_state b = CLOSED ∧ p = false ∧ b' = b) ∨
  (cb_state b = OPEN ∧ p = true ∧ cb_state b' = HALF_OPEN ∧ cb_probe_in_flight b' = true ∧
   cb_failure_count b' = cb_failure_count b).
Proof.
  unfold admit_call. destruct (cb_state b) eqn:Es; [naive_solver| |done].
  destruct (Qle_bool _ _); [|done]. intros [= <- <-]. right. unfold set_state. rewrite Es. by cbn.
Qed.

Lemma admit_none mono wall b b' : admit_call cfg mono wall b = (None, b') → b' = b ∧ cb_state b ≠ CLOSED.
Proof. unfold admit_call. destruct (cb_state b) eqn:Es; [done| |]; [destruct (Qle_bool _ _)|]; naive_solver. Qed.
End BreakerLemmas.
