(* ===== verification/BreakerProps.v ===== *)
(** * Properties of the circuit breaker

    When it opens, how it probes, what a reset clears, and the two ways concurrent
    calls defeat it. *)
From stdpp Require Import base tactics numbers option list strings relations.
From Stdlib Require Import QArith.
From S2P Require Import Prelude PyData CircuitBreaker.

Section Props.
Context (cfg : BreakerConfig).

(** Everything but when it was last recorded and which reset it last saw. *)
Definition same_circuit (b b' : Breaker) : Prop :=
  cb_state b' = cb_state b ∧ cb_failure_count b' = cb_failure_count b ∧ cb_opened_at b' = cb_opened_at b ∧
  cb_probe_in_flight b' = cb_probe_in_flight b ∧ cb_last_failure_at b' = cb_last_failure_at b.

(** Without a signal, recording does not change the circuit. *)
Lemma record_state_same changed mono b : same_circuit b (record_state cfg changed mono None b).2.
Proof. unfold record_state, same_circuit. by destruct (_ && _). Qed.

(** A call that fails on a closed circuit. *)
Lemma failing_call_closed t w reason b :
  cb_state b = CLOSED →
  let b' := (call cfg t w None (FnRaises reason) t w b).2 in
  cb_failure_count b' = (cb_failure_count b + 1)%Z ∧
  if (bc_failure_threshold cfg <=? cb_failure_count b + 1)%Z
  then cb_state b' = OPEN ∧ cb_opened_at b' = Some t
  else cb_state b' = CLOSED ∧ cb_opened_at b' = cb_opened_at b.
Proof.
  intros Hs. unfold call. rewrite bool_decide_false by (by intros H; apply H). unfold admit_call. rewrite Hs. cbn.
  pose proof (on_failure_spec cfg t w reason b) as (Hc & _ & _ & Hst).
  destruct (on_failure cfg t w reason b) as [changed b1]. cbn in Hc, Hst.
  destruct (record_state_same changed t b1) as (E1 & E2 & E3 & _ & _).
  destruct (record_state cfg changed t None b1) as [r b2]. cbn in *. rewrite E2, E1, E3, Hc.
  rewrite Hs in Hst. split; [done|]. by destruct (_ <=? _)%Z.
Qed.

(** A call on an open circuit before its recovery time is refused. *)
Lemma open_call_rejected t w fn t' w' b t0 :
  cb_state b = OPEN → cb_opened_at b = Some t0 → (t - t0 < bc_recovery_timeout cfg)%Q →
  call cfg t w None fn t' w' b = (CallRejected, [], b).
Proof.
  intros Hs Ho Hlt. unfold call. rewrite bool_decide_true by (by rewrite Hs). cbn. unfold admit_call.
  rewrite Hs, Ho. cbn. destruct (Qle_bool _ _) eqn:Eq; [|done]. apply Qle_bool_iff in Eq. by apply Qlt_not_le in Hlt.
Qed.

(** The breaker trips exactly at its threshold and then refuses: of a run of calls
    that all fail, the first [failure_threshold] reach the upstream, the circuit is
    closed and counts them before that and open after, and until [recovery_timeout]
    has passed every further call is refused without touching the state. *)
Theorem breaker_trips_exactly t w reason b k :
  (1 ≤ bc_failure_threshold cfg)%Z → (0 < bc_recovery_timeout cfg)%Q →
  cb_state b = CLOSED → cb_failure_count b = 0%Z →
  let b' := Nat.iter k (λ b, (call cfg t w None (FnRaises reason) t w b).2) b in
  if (Z.of_nat k <? bc_failure_threshold cfg)%Z
  then cb_state b' = CLOSED ∧ cb_failure_count b' = Z.of_nat k
  else cb_state b' = OPEN ∧ cb_failure_count b' = bc_failure_threshold cfg ∧
       ∀ t1 w1 fn t2 w2, (t1 - t < bc_recovery_timeout cfg)%Q →
         call cfg t1 w1 None fn t2 w2 b' = (CallRejected, [], b').
Proof.
  intros Hth Hrec Hs H0 b'.
  assert (Hgen : if (Z.of_nat k <? bc_failure_threshold cfg)%Z
    then cb_state b' = CLOSED ∧ cb_failure_count b' = Z.of_nat k
    else cb_state b' = OPEN ∧ cb_failure_count b' = bc_failure_threshold cfg ∧ cb_opened_at b' = Some t).
  { subst b'. induction k as [|k IH].
    { rewrite (proj2 (Z.ltb_lt _ _)) by lia. by split. }
    cbn [Nat.iter nat_rect]. set (x := Nat.iter k _ b) in *.
    change (nat_rect _ b _ k) with x in *.
    destruct (Z.ltb_spec (Z.of_nat k) (bc_failure_threshold cfg)) as [Hlt|Hge].
    - destruct IH as [Hx Hc]. destruct (failing_call_closed t w reason x Hx) as [Hc' Hst].
      rewrite Hc in Hst, Hc'. destruct (Z.leb_spec (bc_failure_threshold cfg) (Z.of_nat k + 1)) as [Ht|Ht].
      + rewrite (proj2 (Z.ltb_ge _ _)) by lia. destruct Hst as [Hst Hop]. split; [done|]. split; [|done].
        rewrite Hc'. lia.
      + rewrite (proj2 (Z.ltb_lt _ _)) by lia. destruct Hst as [Hst _]. split; [done|]. rewrite Hc'. lia.
    - destruct IH as (Hx & Hc & Ho). rewrite (proj2 (Z.ltb_ge _ _)) by lia.
      rewrite (open_call_rejected t w (FnRaises reason) t w x t Hx Ho); [done|].
      eapply Qle_lt_trans; [|exact Hrec]. apply Qle_lteq. right. apply Qplus_opp_r. }
  destruct (Z.of_nat k <? bc_failure_threshold cfg)%Z; [done|]. destruct Hgen as (Hx & Hc & Ho).
  split; [done|]. split; [done|]. intros. by apply (open_call_rejected t1 w1 fn t2 w2 b' t).
Qed.


(** A reset clears the past and only the past: a signal is weighed once; a failure
    after the signal keeps state, count and failure; otherwise the breaker is as at
    boot. *)
Theorem reset_clears_only_the_past s b :
  let b' := (honour_reset (Some s) b).2 in
  honour_reset (Some s) b' = (false, b') ∧
  ((∃ f, cb_last_failure_at b = Some f ∧ (s < f)%Z) → same_circuit b b') ∧
  (cb_observed_reset_at b ≠ Some s → (∀ f, cb_last_failure_at b = Some f → (f ≤ s)%Z) →
   same_circuit new_breaker b' ∧ cb_last_state_change_at b' = None ∧ cb_last_failure_reason_class b' = None).
Proof.
  intros b'. subst b'. unfold honour_reset. destruct (bool_decide (cb_observed_reset_at b = Some s)) eqn:Eo.
  - cbn. rewrite Eo. apply bool_decide_eq_true_1 in Eo. by repeat split.
  - destruct (match cb_last_failure_at b with Some f => _ | None => _ end) eqn:Ef; cbn; rewrite bool_decide_true by done.
    + split; [done|]. split; [done|]. intros _ Hold. destruct (cb_last_failure_at b) as [f|]; [|done].
      specialize (Hold f eq_refl). apply Z.ltb_lt in Ef. lia.
    + split; [done|]. split; [|done]. intros (f & Hf & Hlt). rewrite Hf in Ef. apply Z.ltb_ge in Ef. lia.
Qed.
End Props.

(** ** Worked examples *)

Module BreakerExample.
Definition cfg : BreakerConfig := mkBreakerConfig "bulk_api" 1 30.

(** Tripped at time 0 by one failure. *)
Definition tripped : Breaker := (on_failure cfg 0 1 "other" new_breaker).2.

(** Half-open at time 30. *)
Definition probing : Breaker := (admit_call cfg 30 2 tripped).2.

(** A probe that is cancelled wedges the breaker: [CancelledError] is not an
    [Exception], so no branch of [call] gives the probe back; the circuit stays
    half-open with nothing in flight and, until a reset signal, refuses every call
    for ever. *)
Theorem cancelled_probe_wedges_breaker :
  ∃ r, rtc (breaker_step cfg false true) (mkRun new_breaker []) r ∧
    cb_state (run_breaker r) = HALF_OPEN ∧ run_calls r = [] ∧
    ∀ r', rtc (breaker_step cfg false true) r r' → r' = r.
Proof.
  exists (mkRun probing []). split_and!; [|reflexivity|reflexivity|].
  - eapply rtc_l; [apply (bs_admit _ _ _ _ [] 0 1 false new_breaker); reflexivity|].
    eapply rtc_l; [exact (bs_end cfg false true new_breaker [] false [] 0 1 (FnRaises "other") ltac:(done))|].
    eapply rtc_l; [apply (bs_admit _ _ _ _ [] 30 2 true probing); vm_compute; reflexivity|].
    apply rtc_once. exact (bs_end cfg false true probing [] true [] 31 3 FnCancelled ltac:(done)).
  - intros r' Hr. remember (mkRun probing []) as r eqn:Er. induction Hr as [|x y z Hs _ IH]; [done|].
    subst x. enough (y = mkRun probing []) as -> by (by apply IH). clear IH. inversion Hs; subst.
    + match goal with H : admit_call _ _ _ _ = _ |- _ => by vm_compute in H end.
    + match goal with H : admit_call _ _ _ _ = _ |- _ => apply admit_none in H as [-> _] end. done.
    + match goal with H : _ ++ _ :: _ = [] |- _ => by apply app_nil in H as [_ ?] end.
    + done.
Qed.

(** Calls admitted before the circuit opened defeat it: one that fails late reopens a
    half-open circuit while its probe still runs, so that two probes are in flight at
    once; one that succeeds late closes an open circuit at once, without probe or
    recovery time. *)
Theorem stragglers_defeat_breaker :
  (∃ b, rtc (breaker_step cfg false false) (mkRun new_breaker []) (mkRun b [true; true])) ∧
  (∃ b, rtc (breaker_step cfg false false) (mkRun new_breaker []) (mkRun b [false]) ∧
        cb_state b = OPEN ∧
        breaker_step cfg false false (mkRun b [false]) (mkRun (on_success 1 b).2 []) ∧
        cb_state (on_success 1 b).2 = CLOSED).
Proof.
  assert (Hopen : rtc (breaker_step cfg false false) (mkRun new_breaker [])
                    (mkRun (on_failure cfg 0 1 "other" new_breaker).2 [false])).
  { eapply rtc_l; [apply (bs_admit _ _ _ _ [] 0 1 false new_breaker); reflexivity|].
    eapply rtc_l; [apply (bs_admit _ _ _ _ [false] 0 1 false new_breaker); reflexivity|].
    apply rtc_once. exact (bs_end cfg false false new_breaker [] false [false] 0 1 (FnRaises "other") ltac:(done)). }
  split.
  - eexists. etrans; [exact Hopen|].
    eapply rtc_l; [apply (bs_admit _ _ _ _ [false] 30 2 true); vm_compute; reflexivity|].
    eapply rtc_l; [apply (bs_end cfg false false _ [] false [true] 31 3 (FnRaises "other")); done|].
    apply rtc_once. apply (bs_admit _ _ _ _ [true] 61 4 true); vm_compute; reflexivity.
  - eexists. split; [exact Hopen|]. split; [reflexivity|]. split; [|reflexivity].
    exact (bs_end cfg false false _ [] false [] 0 1 FnReturns ltac:(done)).
Qed.

Lemma breaker_trips_exactly_witness :
  cb_state (Nat.iter 3 (λ b, (call cfg 0 1 None (FnRaises "other") 0 1 b).2) new_breaker) = OPEN.
Proof.
  exact (proj1 (breaker_trips_exactly cfg 0 1 "other" new_breaker 3 ltac:(done) ltac:(reflexivity) eq_refl eq_refl)).
Defined.

End BreakerExample.
