(* ===== verification/Idempotency.v ===== *)
(** * Request idempotency (services/idempotency.py, repositories/idempotency.py, mcp/handlers.py)

    The claims that let a repeated Tier-1 call return the first call's answer: the
    table with its unique scope, [acquire], [lookup], [complete] and [release], and the
    part of the tool-call handler that uses them.  The statements of [acquire] are
    separate database statements; [others] is what other transactions commit before
    each of them. *)
From stdpp Require Import base tactics numbers option list gmap strings sorting.
From S2P Require Import Prelude PyData Models Database.

(** [uq_idempotency_scope]: tenant, principal and key. *)
Abbreviation IdemScope := (uuid * uuid * string)%type.

(** One row of [idempotency_records]; the scope is its key in the table. *)
Record IdempotencyRecord := mkIdem {
  ir_id : uuid;
  ir_tool_name : string;
  ir_arguments_hash : string;
  ir_response_json : option dict;   (** NULL: claimed, not yet answered *)
  ir_created_at : Z;
  ir_expires_at : option Z
}.

Record IdemStore := mkIdemStore { is_rows : gmap IdemScope IdempotencyRecord; is_draws : N }.

Record CacheHit := mkHit { hit_response : dict; hit_stored_at : Z }.

Inductive acquired : Type := Claim (record_id : uuid) | Replay (hit : CacheHit).

Inductive idem_error : Type := IdempotencyKeyReused | IdempotencyKeyInFlight.

(** [_is_expired]. *)
Definition is_expired (now : Z) (r : IdempotencyRecord) : bool :=
  match ir_expires_at r with None => false | Some e => (e <? now)%Z end.

Definition set_rows (m : gmap IdemScope IdempotencyRecord) (s : IdemStore) : IdemStore := mkIdemStore m (is_draws s).

(** ** The repository *)

Section Repository.
Context `{UuidSource}.

Definition get_by_key (k : IdemScope) (s : IdemStore) : option IdempotencyRecord := is_rows s !! k.

(** [INSERT ... ON CONFLICT DO NOTHING RETURNING id]. *)
Definition insert_claim (now : Z) (k : IdemScope) (tool hash : string) (expires_at : option Z) (s : IdemStore)
    : option uuid * IdemStore :=
  let i := uuid4 (is_draws s) in
  let s := mkIdemStore (is_rows s) (is_draws s + 1) in
  match is_rows s !! k with
  | Some _ => (None, s)
  | None => (Some i, set_rows (<[k := mkIdem i tool hash None now expires_at]> (is_rows s)) s)
  end.

(** [UPDATE ... WHERE id = i]. *)
Definition complete_claim (i : uuid) (response : dict) (expires_at : option Z) (s : IdemStore) : IdemStore :=
  set_rows ((λ r, if bool_decide (ir_id r = i)
                  then mkIdem (ir_id r) (ir_tool_name r) (ir_arguments_hash r) (Some response)
                         (ir_created_at r) expires_at
                  else r) <$> is_rows s) s.

(** [DELETE ... WHERE id = i]. *)
Definition delete_by_id (i : uuid) (s : IdemStore) : IdemStore :=
  set_rows (filter (λ kr, ir_id kr.2 ≠ i) (is_rows s)) s.

(** [DELETE ... WHERE expires_at < now]: how many. *)
Definition delete_expired (now : Z) (s : IdemStore) : nat * IdemStore :=
  (size (filter (λ kr, is_expired now kr.2 = true) (is_rows s)),
   set_rows (filter (λ kr, is_expired now kr.2 = false) (is_rows s)) s).
End Repository.

(** ** The service *)

Section Service.
Context `{UuidSource}.
(** [hashlib.sha256(body).hexdigest()]. *)
Context (sha256_hex : string → string).

(** [_hash_arguments]: canonical JSON, keys sorted, no blanks. *)
Definition hash_arguments (arguments : dict) : string :=
  sha256_hex (json_dumps_with "," ":" true (JObj arguments)).

(** [_assert_same_call]. *)
Definition same_call (tool hash : string) (r : IdempotencyRecord) : bool :=
  bool_decide (ir_arguments_hash r = hash) && bool_decide (ir_tool_name r = tool).

(** [lookup]: a read that evicts an expired record. *)
Definition lookup_key (now : Z) (k : IdemScope) (tool : string) (arguments : dict) (s : IdemStore)
    : result idem_error (option CacheHit) * IdemStore :=
  match get_by_key k s with
  | None => (Ok None, s)
  | Some r =>
      if is_expired now r then (Ok None, delete_by_id (ir_id r) s)
      else if negb (same_call tool (hash_arguments arguments) r) then (Err IdempotencyKeyReused, s)
      else match ir_response_json r with
           | None => (Err IdempotencyKeyInFlight, s)
           | Some resp => (Ok (Some (mkHit resp (ir_created_at r))), s)
           end
  end.

(** The clock at each statement, and what commits before it. *)
Record AcquireEnv := mkAcquireEnv {
  ae_now : nat → Z;
  ae_others : nat → IdemStore → IdemStore
}.

(** One attempt of [acquire]; [None] is [continue].  Its statements are numbered from
    [n]. *)
Definition acquire_attempt (env : AcquireEnv) (n : nat) (first : bool) (k : IdemScope) (tool hash : string)
    (expires_at : option Z) (s : IdemStore) : option (result idem_error acquired) * IdemStore :=
  let '(claimed, s) := insert_claim (ae_now env n) k tool hash expires_at (ae_others env n s) in
  match claimed with
  | Some i => (Some (Ok (Claim i)), s)
  | None =>
      let s := ae_others env (n + 1) s in
      match get_by_key k s with
      | None => (None, s)
      | Some holder =>
          if first && is_expired (ae_now env (n + 1)) holder
          then (None, delete_by_id (ir_id holder) (ae_others env (n + 2) s))
          else if negb (same_call tool hash holder) then (Some (Err IdempotencyKeyReused), s)
          else match ir_response_json holder with
               | None => (Some (Err IdempotencyKeyInFlight), s)
               | Some resp => (Some (Ok (Replay (mkHit resp (ir_created_at holder)))), s)
               end
      end
  end.

(** [acquire]: at most two attempts, then the caller defers. *)
Definition acquire (env : AcquireEnv) (ttl : option Z) (k : IdemScope) (tool : string) (arguments : dict)
    (s : IdemStore) : result idem_error acquired * IdemStore :=
  let expires_at := Z.add (ae_now env 0) <$> ttl in
  let hash := hash_arguments arguments in
  match acquire_attempt env 0 true k tool hash expires_at s with
  | (Some res, s) => (res, s)
  | (None, s) =>
      match acquire_attempt env 3 false k tool hash expires_at s with
      | (Some res, s) => (res, s)
      | (None, s) => (Err IdempotencyKeyInFlight, s)
      end
  end.

Definition complete (now : Z) (claim : uuid) (response : dict) (ttl : option Z) (s : IdemStore) : IdemStore :=
  complete_claim claim response (Z.add now <$> ttl) s.

Definition release (claim : uuid) (s : IdemStore) : IdemStore := delete_by_id claim s.

(** ** The tool call *)

Definition IDEMPOTENCY_TTL : Z := 24 * 3600 * 1000000.

(** [_extract_idempotency_key]. *)
Definition extract_idempotency_key (arguments : dict) : option string :=
  match dget arguments "idempotency_key" with
  | Some (JStr s) => if bool_decide (s = "") then None else Some s
  | _ => None
  end.

(** How the rest of a call goes: what the tool returns ([None] when it raises),
    when, and whether the savepoint of the completion or of the release succeeds. *)
Record ToolEnv := mkToolEnv {
  te_acquire : AcquireEnv;
  te_tool : option dict;
  te_done_at : Z;
  te_claim_write_ok : bool
}.

Inductive tool_reply : Type :=
  | KeyRequired
  | Refused (e : idem_error)
  | Replayed (response : dict)
  | Executed (response : dict)
  | ToolFailed.

(** The idempotent path of [tools/call], from the arguments that passed validation to
    the reply. *)
Definition tools_call (env : ToolEnv) (tenant principal : uuid) (tool : string) (arguments : dict)
    (s : IdemStore) : tool_reply * IdemStore :=
  match extract_idempotency_key arguments with
  | None => (KeyRequired, s)
  | Some key =>
      match acquire (te_acquire env) (Some IDEMPOTENCY_TTL) (tenant, principal, key) tool arguments s with
      | (Err e, s) => (Refused e, s)
      | (Ok (Replay hit), s) => (Replayed (hit_response hit), s)
      | (Ok (Claim claim), s) =>
          match te_tool env with
          | None => (ToolFailed, if te_claim_write_ok env then release claim s else s)
          | Some response =>
              (Executed response,
               if te_claim_write_ok env
               then complete (te_done_at env) claim response (Some IDEMPOTENCY_TTL) s else s)
          end
      end
  end.
End Service.
