(* ===== verification/IdempotencyProps.v ===== *)
(** * Properties of request idempotency

    A claimed key is exclusive, an answered one is replayed, a failed call can be
    retried, and a completion that fails wedges its key. *)
From stdpp Require Import base tactics numbers option list gmap strings sorting.
From Stdlib Require Import OrdersEx.
From S2P Require Import Prelude PyData Models Database Idempotency.

(** ** The hash does not depend on the order of the arguments *)

Lemma leb_trans s1 s2 s3 : String.leb s1 s2 = true → String.leb s2 s3 = true → String.leb s1 s3 = true.
Proof.
  assert (Hle : ∀ a b, String.leb a b = true ↔ a = b ∨ String_as_OT.lt a b).
  { intros a b. unfold String.leb. pose proof (String_as_OT.compare_spec a b) as Hc.
    change (String_as_OT.compare a b) with (String.compare a b) in Hc.
    inversion Hc as [E H|E H|E H]; split; intros Hx; auto; try done.
    exfalso. destruct Hx as [->|Hx].
    - by apply (StrictOrder_Irreflexive b).
    - apply (StrictOrder_Irreflexive a). by transitivity b. }
  rewrite !Hle. intros [->|H1] [->|H2]; auto. right. by transitivity s2.
Qed.

#[local] Instance member_le_trans : Transitive member_le.
Proof. intros a b c. unfold member_le. apply leb_trans. Qed.

#[local] Instance member_le_total : Total member_le.
Proof. intros a b. unfold member_le. apply String.leb_total. Qed.

(** Objects that differ in the order of their members print alike with sorted keys. *)
Lemma json_dumps_sorted_perm isep ksep d d' :
  NoDup d.*1 → d ≡ₚ d' → json_dumps_with isep ksep true (JObj d) = json_dumps_with isep ksep true (JObj d').
Proof.
  intros Hnd Hp. cbn. do 2 f_equal. f_equal.
  set (f := λ kv : string * json, (kv.1, json_dumps_with isep ksep true kv.2)).
  assert (Hkeys : ∀ x y, x ∈ f <$> d → y ∈ f <$> d → x.1 = y.1 → x = y).
  { intros x y (a & -> & Ha)%list_elem_of_fmap (b & -> & Hb)%list_elem_of_fmap Hk. cbn in Hk.
    f_equal. destruct a as [k v], b as [k' v']. cbn in Hk. subst k'. f_equal.
    apply list_elem_of_lookup in Ha as [i Hi]. apply list_elem_of_lookup in Hb as [n Hn].
    assert (i = n) as ->; [|congruence].
    eapply (NoDup_lookup d.*1 i n k); [done| |]; rewrite list_lookup_fmap; by rewrite ?Hi, ?Hn. }
  f_equal. apply (StronglySorted_unique_strong member_le).
  - intros x y Hx Hy Hxy Hyx. apply Hkeys.
    + by rewrite merge_sort_Permutation in Hx.
    + rewrite merge_sort_Permutation in Hy. change (y ∈ f <$> d') in Hy. by rewrite Hp.
    + by apply String.leb_antisym.
  - apply StronglySorted_merge_sort; apply _.
  - apply StronglySorted_merge_sort; apply _.
  - rewrite !merge_sort_Permutation. change (f <$> d ≡ₚ f <$> d'). by rewrite Hp.
Qed.

Lemma dget_elem d k v : NoDup d.*1 → dget d k = Some v ↔ (k, v) ∈ d.
Proof.
  induction d as [|[k' v'] d IH]; intros Hnd; cbn; [set_solver|].
  apply NoDup_cons in Hnd as [Hnin Hnd]. cbn in Hnin. rewrite elem_of_cons. case_bool_decide as Hk; subst.
  - split; [intros [= ->]; by left|]. intros [[= ->]|Hin]; [done|]. exfalso. apply Hnin.
    apply list_elem_of_fmap. by exists (k', v).
  - rewrite IH by done. naive_solver.
Qed.

Lemma dget_perm d d' k : NoDup d.*1 → d ≡ₚ d' → dget d k = dget d' k.
Proof.
  intros Hnd Hp. assert (Hnd' : NoDup d'.*1) by (by rewrite <- Hp). apply option_eq. intros v.
  by rewrite !dget_elem, Hp.
Qed.

Section Props.
Context `{UuidSource} (sha256_hex : string → string).

Lemma hash_arguments_perm d d' :
  NoDup d.*1 → d ≡ₚ d' → hash_arguments sha256_hex d = hash_arguments sha256_hex d'.
Proof. intros Hnd Hp. unfold hash_arguments. f_equal. by apply json_dumps_sorted_perm. Qed.

(** ** A claimed key *)

(** Identifiers were drawn, and no two rows share one. *)
Definition store_ok (s : IdemStore) : Prop :=
  (∀ k r, is_rows s !! k = Some r → ∃ n, (n < is_draws s)%N ∧ ir_id r = uuid4 n) ∧
  (∀ k1 k2 r1 r2, is_rows s !! k1 = Some r1 → is_rows s !! k2 = Some r2 → ir_id r1 = ir_id r2 → k1 = k2).

(** The row [c] holds the key [k]. *)
Definition held (k : IdemScope) (c : IdempotencyRecord) (s : IdemStore) : Prop :=
  store_ok s ∧ is_rows s !! k = Some c.

Lemma insert_claim_held k c now k' tool hash e s :
  held k c s →
  let '(o, s') := insert_claim now k' tool hash e s in held k c s' ∧ (k' = k → o = None).
Proof.
  intros [[Hd Hu] Hk]. unfold insert_claim. cbn. destruct (is_rows s !! k') as [r|] eqn:Ek'.
  - split; [|done]. split; [|done]. split; [|exact Hu]. cbn. intros k1 r1 H1.
    destruct (Hd k1 r1 H1) as (n & ? & ?). exists n. split; [lia|done].
  - assert (Hne : k' ≠ k) by congruence. split; [|done]. split; [split|]; cbn.
    + intros k1 r1. destruct (decide (k1 = k')) as [->|Hk1].
      * rewrite lookup_insert_eq. intros [= <-]. exists (is_draws s). cbn. split; [lia|done].
      * rewrite lookup_insert_ne by done. intros H1. destruct (Hd k1 r1 H1) as (n & ? & ?). exists n. split; [lia|done].
    + intros k1 k2 r1 r2 H1 H2 Hid.
      assert (Hnew : ∀ k0 r0, is_rows s !! k0 = Some r0 → ir_id r0 ≠ uuid4 (is_draws s)).
      { intros k0 r0 H0 E. destruct (Hd k0 r0 H0) as (n & Hn & En). rewrite En in E. apply (inj uuid4) in E. lia. }
      destruct (decide (k1 = k')) as [->|Hk1], (decide (k2 = k')) as [->|Hk2]; [done| | |].
      * rewrite lookup_insert_eq in H1. rewrite lookup_insert_ne in H2 by done. injection H1 as <-. cbn in Hid.
        by apply Hnew in H2.
      * rewrite lookup_insert_eq in H2. rewrite lookup_insert_ne in H1 by done. injection H2 as <-. cbn in Hid.
        by apply Hnew in H1.
      * rewrite lookup_insert_ne in H1, H2 by done. by apply (Hu k1 k2 r1 r2).
    + by rewrite lookup_insert_ne.
Qed.

Lemma delete_by_id_held k c i s : held k c s → i ≠ ir_id c → held k c (delete_by_id i s).
Proof.
  intros [[Hd Hu] Hk] Hi. split; [split|]; cbn.
  - intros k1 r1 [H1 _]%map_lookup_filter_Some. exact (Hd k1 r1 H1).
  - intros k1 k2 r1 r2 [H1 _]%map_lookup_filter_Some [H2 _]%map_lookup_filter_Some. by apply (Hu k1 k2 r1 r2).
  - apply map_lookup_filter_Some. split; [done|]. cbn. congruence.
Qed.

(** Interference that leaves the claim alone. *)
Definition spares (env : AcquireEnv) (k : IdemScope) (c : IdempotencyRecord) : Prop :=
  ∀ n s, held k c s → held k c (ae_others env n s).

Lemma acquire_attempt_held env n first k' tool hash e k c s :
  held k c s → ir_response_json c = None → (∀ n, is_expired (ae_now env n) c = false) → spares env k c →
  let '(res, s') := acquire_attempt env n first k' tool hash e s in
  held k c s' ∧ (k' = k → res = Some (Err IdempotencyKeyInFlight) ∨ res = Some (Err IdempotencyKeyReused)).
Proof.
  intros Hh Hnone Hexp Hsp. unfold acquire_attempt.
  pose proof (insert_claim_held k c (ae_now env n) k' tool hash e (ae_others env n s) (Hsp n s Hh)) as Hins.
  destruct (insert_claim _ k' tool hash e _) as [[i|] s1]; destruct Hins as [Hh1 Hk1].
  { split; [done|]. intros ->. by specialize (Hk1 eq_refl). }
  pose proof (Hsp (n + 1)%nat s1 Hh1) as Hh2. set (s2 := ae_others env (n + 1) s1) in *.
  unfold get_by_key. destruct (is_rows s2 !! k') as [holder|] eqn:Eh.
  2:{ split; [done|]. intros ->. destruct Hh2 as [_ Hk]. congruence. }
  destruct (decide (k' = k)) as [->|Hne].
  - assert (holder = c) as -> by (destruct Hh2 as [_ Hk]; congruence).
    rewrite Hexp, andb_false_r, Hnone. destruct (negb _); split; auto.
  - assert (Hid : ir_id holder ≠ ir_id c).
    { intros E. apply Hne. destruct Hh2 as [[_ Hu] Hk]. by apply (Hu k' k holder c). }
    destruct (first && _); [split; [|done]; apply delete_by_id_held; [by apply Hsp|done]|].
    destruct (negb _); [done|]. by destruct (ir_response_json holder).
Qed.

(** A claimed key is exclusive: while a claim is unanswered and not expired, whatever
    statements of other calls interleave, no call for the same key is let through: it
    is told the key is in flight or was used for another call; and no call for any key
    disturbs the claim. *)
Theorem held_key_is_exclusive env ttl k' tool arguments k c s :
  held k c s → ir_response_json c = None → (∀ n, is_expired (ae_now env n) c = false) → spares env k c →
  let '(res, s') := acquire sha256_hex env ttl k' tool arguments s in
  held k c s' ∧ (k' = k → res = Err IdempotencyKeyInFlight ∨ res = Err IdempotencyKeyReused).
Proof.
  intros Hh Hnone Hexp Hsp. unfold acquire. set (hash := hash_arguments sha256_hex arguments).
  set (e := Z.add _ <$> ttl).
  pose proof (acquire_attempt_held env 0 true k' tool hash e k c s Hh Hnone Hexp Hsp) as H1.
  destruct (acquire_attempt env 0 true k' tool hash e s) as [[res|] s1]; destruct H1 as [Hh1 Hk1].
  { split; [done|]. intros E. destruct (Hk1 E) as [[= ->]|[= ->]]; auto. }
  pose proof (acquire_attempt_held env 3 false k' tool hash e k c s1 Hh1 Hnone Hexp Hsp) as H2.
  destruct (acquire_attempt env 3 false k' tool hash e s1) as [[res|] s2]; destruct H2 as [Hh2 Hk2].
  - split; [done|]. intros E. destruct (Hk2 E) as [[= ->]|[= ->]]; auto.
  - split; [done|]. auto.
Qed.

(** ** The life of a key *)

Lemma acquire_attempt_claim env n first k tool hash e s i s' :
  acquire_attempt env n first k tool hash e s = (Some (Ok (Claim i)), s') →
  ∃ at', is_rows s' !! k = Some (mkIdem i tool hash None at' e).
Proof.
  unfold acquire_attempt. destruct (insert_claim _ k tool hash e _) as [o s1] eqn:Ei. destruct o as [i'|].
  - intros [= -> <-]. unfold insert_claim in Ei. cbn in Ei. destruct (is_rows (ae_others env n s) !! k); [done|].
    injection Ei as <- <-. cbn. rewrite lookup_insert_eq. eauto.
  - destruct (get_by_key k _) as [h|]; [|done]. destruct (first && _); [done|]. destruct (negb _); [done|].
    by destruct (ir_response_json h).
Qed.

Lemma acquire_claim env ttl k tool arguments s i s' :
  acquire sha256_hex env ttl k tool arguments s = (Ok (Claim i), s') →
  ∃ at', is_rows s' !! k =
    Some (mkIdem i tool (hash_arguments sha256_hex arguments) None at' (Z.add (ae_now env 0) <$> ttl)).
Proof.
  unfold acquire. destruct (acquire_attempt env 0 true _ _ _ _ s) as [[res|] s1] eqn:E1.
  - intros [= -> <-]. by apply acquire_attempt_claim in E1.
  - destruct (acquire_attempt env 3 false _ _ _ _ s1) as [[res|] s2] eqn:E2; [|done].
    intros [= -> <-]. by apply acquire_attempt_claim in E2.
Qed.

(** Interference that leaves the row of [k] as it is. *)
Definition keeps_row (env : AcquireEnv) (k : IdemScope) (r : IdempotencyRecord) : Prop :=
  ∀ n s, is_rows s !! k = Some r → is_rows (ae_others env n s) !! k = Some r.

(** A repetition of the call that wrote the row. *)
Lemma acquire_same_call env ttl k tool arguments r s :
  is_rows s !! k = Some r → keeps_row env k r → (∀ n, is_expired (ae_now env n) r = false) →
  ir_tool_name r = tool → ir_arguments_hash r = hash_arguments sha256_hex arguments →
  ∃ s', is_rows s' !! k = Some r ∧
    acquire sha256_hex env ttl k tool arguments s =
      (match ir_response_json r with
       | None => Err IdempotencyKeyInFlight
       | Some resp => Ok (Replay (mkHit resp (ir_created_at r)))
       end, s').
Proof.
  intros Hk Hkeep Hexp Ht Hh. unfold acquire, acquire_attempt, insert_claim. cbn.
  rewrite (Hkeep 0%nat s Hk). set (s1 := mkIdemStore _ _).
  assert (Hk1 : is_rows (ae_others env 1 s1) !! k = Some r) by (apply Hkeep; by apply Hkeep).
  unfold get_by_key. rewrite Hk1, Hexp. unfold same_call.
  rewrite !bool_decide_true by done. cbn. exists (ae_others env 1 s1). split; [done|].
  by destruct (ir_response_json r).
Qed.

(** The second call: the same call again, the arguments in any order, before the
    record expires and while others leave it. *)
Lemma repeated_call env tenant principal tool arguments arguments' key r s :
  extract_idempotency_key arguments = Some key → NoDup arguments.*1 → arguments ≡ₚ arguments' →
  is_rows s !! (tenant, principal, key) = Some r → ir_tool_name r = tool →
  ir_arguments_hash r = hash_arguments sha256_hex arguments →
  keeps_row (te_acquire env) (tenant, principal, key) r →
  (∀ n, is_expired (ae_now (te_acquire env) n) r = false) →
  ∃ s', is_rows s' !! (tenant, principal, key) = Some r ∧
    tools_call sha256_hex env tenant principal tool arguments' s =
      (match ir_response_json r with None => Refused IdempotencyKeyInFlight | Some resp => Replayed resp end, s').
Proof.
  intros Hkey Hnd Hp Hk Ht Hh Hkeep Hexp.
  assert (Hkey' : extract_idempotency_key arguments' = Some key).
  { unfold extract_idempotency_key in *. by rewrite <- (dget_perm arguments arguments'). }
  unfold tools_call. rewrite Hkey'.
  destruct (acquire_same_call (te_acquire env) (Some IDEMPOTENCY_TTL) (tenant, principal, key) tool arguments' r s)
    as (s' & Hk' & Hacq); [done|done|done|done|by rewrite Hh; apply hash_arguments_perm|].
  exists s'. split; [done|]. rewrite Hacq. by destruct (ir_response_json r).
Qed.

(** What an executed call leaves behind. *)
Lemma executed_row env tenant principal tool arguments s resp s' :
  tools_call sha256_hex env tenant principal tool arguments s = (Executed resp, s') →
  ∃ key i at', extract_idempotency_key arguments = Some key ∧
    is_rows s' !! (tenant, principal, key) =
      Some (mkIdem i tool (hash_arguments sha256_hex arguments)
              (if te_claim_write_ok env then Some resp else None) at'
              (Some (if te_claim_write_ok env then te_done_at env + IDEMPOTENCY_TTL
                     else ae_now (te_acquire env) 0 + IDEMPOTENCY_TTL)%Z)).
Proof.
  unfold tools_call. destruct (extract_idempotency_key arguments) as [key|]; [|done].
  destruct (acquire _ _ _ _ _ _ s) as [[[i|hit]|e] s1] eqn:Ea; [|done|done].
  apply acquire_claim in Ea as [at' Hrow]. destruct (te_tool env) as [r|]; [|done]. intros [= <- <-].
  exists key, i, at'. split; [done|]. destruct (te_claim_write_ok env); [|done].
  unfold complete, complete_claim. cbn. rewrite lookup_fmap, Hrow. cbn. by rewrite bool_decide_true.
Qed.

(** An answered call is not run again: once a call has executed and its answer was
    recorded, the same call under the same key, its arguments in any order, returns
    that answer without running the tool, for 24 hours and as long as nothing else
    deletes the record. *)
Theorem repeat_call_replays env env' tenant principal tool arguments arguments' s resp s1 :
  tools_call sha256_hex env tenant principal tool arguments s = (Executed resp, s1) →
  te_claim_write_ok env = true → NoDup arguments.*1 → arguments ≡ₚ arguments' →
  (∀ n, (ae_now (te_acquire env') n ≤ te_done_at env + IDEMPOTENCY_TTL)%Z) →
  (∀ key r, is_rows s1 !! (tenant, principal, key) = Some r → keeps_row (te_acquire env') (tenant, principal, key) r) →
  ∃ s2, tools_call sha256_hex env' tenant principal tool arguments' s1 = (Replayed resp, s2).
Proof.
  intros Hcall Hok Hnd Hp Hnow Hkeep. apply executed_row in Hcall as (key & i & at' & Hkey & Hrow).
  rewrite Hok in Hrow. destruct (repeated_call env' tenant principal tool arguments arguments' key _ s1
    Hkey Hnd Hp Hrow) as (s2 & _ & Hc); [done|done|by apply Hkeep| |by exists s2].
  intros n. unfold is_expired. cbn. apply Z.ltb_ge. apply Hnow.
Qed.

(** A completion that fails wedges the key: the tool ran, its answer was not
    recorded, and the claim was not released, so for 24 hours the same call is refused
    as in flight although nothing is executing it. *)
Theorem failed_completion_wedges_key env env' tenant principal tool arguments s resp s1 :
  tools_call sha256_hex env tenant principal tool arguments s = (Executed resp, s1) →
  te_claim_write_ok env = false → NoDup arguments.*1 →
  (∀ n, (ae_now (te_acquire env') n ≤ ae_now (te_acquire env) 0 + IDEMPOTENCY_TTL)%Z) →
  (∀ key r, is_rows s1 !! (tenant, principal, key) = Some r → keeps_row (te_acquire env') (tenant, principal, key) r) →
  ∃ s2, tools_call sha256_hex env' tenant principal tool arguments s1 = (Refused IdempotencyKeyInFlight, s2).
Proof.
  intros Hcall Hok Hnd Hnow Hkeep. apply executed_row in Hcall as (key & i & at' & Hkey & Hrow).
  rewrite Hok in Hrow. destruct (repeated_call env' tenant principal tool arguments arguments key _ s1
    Hkey Hnd (reflexivity _) Hrow) as (s2 & _ & Hc); [done|done|by apply Hkeep| |by exists s2].
  intros n. unfold is_expired. cbn. apply Z.ltb_ge. apply Hnow.
Qed.

(** A call whose tool raised can be retried: the released key is free. *)
Lemma failed_call_releases env tenant principal tool arguments s s1 key :
  tools_call sha256_hex env tenant principal tool arguments s = (ToolFailed, s1) →
  te_claim_write_ok env = true → extract_idempotency_key arguments = Some key →
  is_rows s1 !! (tenant, principal, key) = None.
Proof.
  unfold tools_call. intros Hc Hok Hkey. rewrite Hkey in Hc.
  destruct (acquire _ _ _ _ _ _ s) as [[[i|hit]|e] s2] eqn:Ea; [|done|done].
  apply acquire_claim in Ea as [at' Hrow]. rewrite Hok in Hc. destruct (te_tool env); [done|].
  injection Hc as <-. unfold release, delete_by_id. cbn. apply map_lookup_filter_None. right.
  intros r Hr. rewrite Hrow in Hr. injection Hr as <-. cbn. by intros [].
Qed.
End Props.

(** ** Worked examples *)

Module IdempotencyExample.
(** A fingerprint that is the text itself. *)
Definition text (s : string) : string := s.

Definition quiet (now : Z) : AcquireEnv := mkAcquireEnv (λ _, now) (λ _ s, s).
Definition call_at (now : Z) (write_ok : bool) : ToolEnv :=
  mkToolEnv (quiet now) (Some [("ok", JBool true)]) now write_ok.

Definition arguments : dict := [("job_id", JStr "j"); ("idempotency_key", JStr "key-0001")].
Definition reordered : dict := [("idempotency_key", JStr "key-0001"); ("job_id", JStr "j")].
Definition empty_store : IdemStore := mkIdemStore ∅ 0.

Definition after_call (write_ok : bool) : IdemStore :=
  (tools_call text (call_at 5 write_ok) 1 2 "replay_dlq_by_ids" arguments empty_store).2.

Lemma arguments_nodup : NoDup arguments.*1.
Proof. refine (bool_decide_eq_true_1 _ _). vm_compute. reflexivity. Qed.

Lemma repeat_call_replays_witness :
  ∃ s2, tools_call text (call_at 9 true) 1 2 "replay_dlq_by_ids" reordered (after_call true) =
    (Replayed [("ok", JBool true)], s2).
Proof.
  apply (repeat_call_replays text (call_at 5 true) (call_at 9 true) 1 2 "replay_dlq_by_ids" arguments reordered
    empty_store [("ok", JBool true)] (after_call true)).
  - vm_compute. reflexivity.
  - reflexivity.
  - apply arguments_nodup.
  - apply Permutation_swap.
  - intros n. vm_compute. discriminate.
  - intros key r _ n s Hr. exact Hr.
Defined.

Lemma failed_completion_wedges_key_witness :
  ∃ s2, tools_call text (call_at 9 true) 1 2 "replay_dlq_by_ids" arguments (after_call false) =
    (Refused IdempotencyKeyInFlight, s2).
Proof.
  apply (failed_completion_wedges_key text (call_at 5 false) (call_at 9 true) 1 2 "replay_dlq_by_ids" arguments
    empty_store [("ok", JBool true)] (after_call false)).
  - vm_compute. reflexivity.
  - reflexivity.
  - apply arguments_nodup.
  - intros n. vm_compute. discriminate.
  - intros key r _ n s Hr. exact Hr.
Defined.

(** The claim of a call that has not finished. *)
Definition open_claim : IdempotencyRecord := mkIdem 1 "replay_dlq_by_ids" "h" None 5 (Some 100%Z).
Definition claimed_store : IdemStore := mkIdemStore {[(1%N, 2%N, "key-0001") := open_claim]} 1.

Lemma held_key_is_exclusive_witness :
  (acquire text (quiet 9) None (1%N, 2%N, "key-0001") "replay_dlq_by_ids" arguments claimed_store).1
    = Err IdempotencyKeyReused.
Proof.
  pose proof (held_key_is_exclusive text (quiet 9) None (1%N, 2%N, "key-0001") "replay_dlq_by_ids" arguments
    (1%N, 2%N, "key-0001") open_claim claimed_store) as Hex.
  destruct (acquire text (quiet 9) None (1%N, 2%N, "key-0001") "replay_dlq_by_ids" arguments claimed_store)
    as [res s'] eqn:Ea. destruct Hex as [_ Hex].
  - split; [split|reflexivity].
    + intros k r Hr. cbn in Hr. apply lookup_singleton_Some in Hr as [_ <-]. exists 0%N. by split.
    + intros k1 k2 r1 r2 H1 H2 _. cbn in H1, H2. apply lookup_singleton_Some in H1 as [<- _].
      apply lookup_singleton_Some in H2 as [<- _]. reflexivity.
  - reflexivity.
  - intros n. reflexivity.
  - intros n s Hs. exact Hs.
  - destruct (Hex eq_refl) as [->| ->]; [|reflexivity]. exfalso. vm_compute in Ea. discriminate.
Defined.
End IdempotencyExample.
