(* ===== verification/Admission.v ===== *)
(** * Admission control (utils/admission.py, rate_limit.py, quota.py, backpressure.py)

    What every request that creates jobs passes first: the per-address and per-tenant
    rate limits, the backpressure check and the monthly quota, and the two endpoints
    that run them (api/jobs.py, api/sagas.py).  The Redis commands of a check are
    numbered, and each says for itself how it ended. *)
From stdpp Require Import base tactics numbers option list gmap strings sorting.
From Stdlib Require Import QArith Ascii.
From S2P Require Import Prelude PyData Models Database JobRepo Redis JobService SagaFlow.

(** ** Python and Redis *)

(** [int(t)] of a float: towards zero. *)
Definition int_of_time (t : Q) : Z := Z.quot (Qnum t) (Zpos (Qden t)).

(** ** rate_limit.py *)

(** [_client_key] on the [X-Forwarded-For] header and the peer's address. *)
Definition client_key (forwarded_for peer : option string) : string :=
  let hops := match forwarded_for with
              | Some ff => filter (λ p, p ≠ []) (strip is_space <$> split_char "," (String.list_ascii_of_string ff))
              | None => []
              end in
  match last hops with
  | Some hop => String.string_of_list_ascii hop
  | None => default "unknown" peer
  end.

Definition rate_key (key : string) (window_start : Z) : string :=
  "rate:" +:+ key +:+ ":" +:+ show_Z window_start.

(** [INCR], and [EXPIRE] after the first one: the count. *)
Definition incr_window (t : Q) (o : nat → reach) (key : string) (ttl : Z) (r : Redis) : result exn Z * Redis :=
  match redis_cmd (o 0%nat) (r_incrby t key 1) r with
  | (Err e, r) => (Err e, r)
  | (Ok count, r) =>
      if (count =? 1)%Z then
        match redis_cmd (o 1%nat) (λ r, Ok (tt, r_expire t key (inject_Z ttl) r)) r with
        | (Err e, r) => (Err e, r)
        | (Ok _, r) => (Ok count, r)
        end
      else (Ok count, r)
  end.

(** [_check]; a window of zero is a [ZeroDivisionError]. *)
Definition rate_check (t : Q) (o : nat → reach) (key : string) (limit window : Z) (r : Redis)
    : result exn unit * Redis :=
  if (window =? 0)%Z then (Err (ValueError "integer division or modulo by zero"), r)
  else
    match incr_window t o (rate_key key (int_of_time t / window)) (window * 2) r with
    | (Err e, r) => (Err e, r)
    | (Ok count, r) =>
        if (limit <? count)%Z
        then (Err (RateLimitError ("Rate limit exceeded: " +:+ show_Z limit +:+ " requests per " +:+
                                   show_Z window +:+ "s.")), r)
        else (Ok tt, r)
    end.

(** Refusals pass, anything else is logged and the request goes on. *)
Definition fail_open (res : result exn unit) : result exn unit :=
  match res with Err (RateLimitError m) => Err (RateLimitError m) | _ => Ok tt end.

Definition prefixed (prefix key : string) : string :=
  if bool_decide (prefix = "") then key else prefix +:+ ":" +:+ key.

Definition check_client_rate_limit (t : Q) (o : nat → reach) (forwarded_for peer : option string)
    (limit window : Z) (key_prefix : string) (r : Redis) : result exn unit * Redis :=
  let '(res, r) := rate_check t o (prefixed key_prefix (client_key forwarded_for peer)) limit window r in
  (fail_open res, r).

Definition check_identity_rate_limit (t : Q) (o : nat → reach) (identity : string) (limit window : Z)
    (bucket : string) (r : Redis) : result exn unit * Redis :=
  let '(res, r) := rate_check t o (bucket +:+ ":" +:+ identity) limit window r in
  (fail_open res, r).

(** ** quota.py *)

(** A row of [tenants]: the columns admission control reads. *)
Record Tenant := mkTenant {
  tn_id : uuid;
  tn_slug : string;
  tn_rate_limit_per_minute : Z;
  tn_quota_jobs_per_month : Z
}.

Abbreviation Tenants := (gmap uuid Tenant).

Definition DAY_MICROSECONDS : Z := 86400 * 1000000.

(** [_month_start]. *)
Definition month_start (now : Z) : Z :=
  let days := (now / DAY_MICROSECONDS)%Z in
  let '(_, _, d) := civil_from_days days in
  ((days - (d - 1)) * DAY_MICROSECONDS)%Z.

Definition tenant_rate_key (tenant : uuid) (window_start : Z) : string :=
  "rate:tenant:" +:+ uuid_str tenant +:+ ":" +:+ show_Z window_start.

(** [_check_tenant_rate]. *)
Definition check_tenant_rate (t : Q) (o : nat → reach) (tn : Tenant) (r : Redis) : result exn unit * Redis :=
  if (tn_rate_limit_per_minute tn <=? 0)%Z then (Ok tt, r)
  else
    match incr_window t o (tenant_rate_key (tn_id tn) (int_of_time t / 60)) 120 r with
    | (Err _, r) => (Ok tt, r)
    | (Ok count, r) =>
        if (tn_rate_limit_per_minute tn <? count)%Z
        then (Err (RateLimitError ("Tenant rate limit exceeded: " +:+ show_Z (tn_rate_limit_per_minute tn) +:+
                                   " requests/min.")), r)
        else (Ok tt, r)
    end.

(** The jobs of a tenant created since an instant. *)
Definition used_since (tenant : uuid) (since : Z) (db : DB) : Z :=
  Z.of_nat (size (filter (λ kj, job_tenant_id kj.2 = tenant ∧ (since ≤ job_created_at kj.2)%Z) (db_jobs db))).

(** [_check_monthly_quota]. *)
Definition check_monthly_quota (now : Z) (tn : Tenant) (job_count : Z) (db : DB) : result exn unit :=
  if (tn_quota_jobs_per_month tn <=? 0)%Z then Ok tt
  else
    let used := used_since (tn_id tn) (month_start now) db in
    if (tn_quota_jobs_per_month tn <? used + job_count)%Z
    then Err (QuotaExceededError
           ("Monthly job quota reached for tenant " +:+ tn_slug tn +:+ " (" +:+ show_Z used +:+ " / " +:+
            show_Z (tn_quota_jobs_per_month tn) +:+ ")." +:+
            (if bool_decide (job_count = 1%Z) then ""
             else " This request would create " +:+ show_Z job_count +:+ " jobs.") +:+
            " Quota resets at the start of next month."))
    else Ok tt.

(** [check_tenant_limits]; a raise of the quota check leaves the counter advanced. *)
Definition check_tenant_limits (now : Z) (t : Q) (o : nat → reach) (tenants : Tenants) (tenant : uuid)
    (job_count : Z) (db : DB) (r : Redis) : result exn unit * Redis :=
  match tenants !! tenant with
  | None => (Err (QuotaExceededError ("Tenant " +:+ uuid_str tenant +:+ " not found")), r)
  | Some tn =>
      match check_tenant_rate t o tn r with
      | (Err e, r) => (Err e, r)
      | (Ok _, r) => (check_monthly_quota now tn job_count db, r)
      end
  end.

(** ** backpressure.py *)

Definition BACKPRESSURE_LAG_KEY : string := "kafka:consumer_lag:worker-dispatcher".

Definition check_backpressure (cfg : Settings) (t : Q) (o : reach) (r : Redis) : result exn unit :=
  let threshold := backpressure_lag_threshold cfg in
  if (threshold <=? 0)%Z then Ok tt
  else
    match (redis_cmd o (λ r, v ← r_get t BACKPRESSURE_LAG_KEY r; Ok (v, r)) r).1 with
    | Err _ | Ok None => Ok tt
    | Ok (Some raw) =>
        match int_of_reply raw with
        | None => Ok tt
        | Some lag =>
            if (threshold <? lag)%Z
            then Err (BackpressureError ("Worker is " +:+ show_Z lag +:+ " messages behind (threshold " +:+
                                         show_Z threshold +:+ "); retry shortly."))
            else Ok tt
        end
    end.

(** ** admission.py *)

Definition JOB_CREATE_RATE_BUCKET : string := "jobs:create".

(** The clocks of a request and how its Redis commands end: 0 and 1 the per-address
    counter, 2 the lag, 3 and 4 the tenant's counter, 5 the pause lookups. *)
Record AdmissionEnv := mkAdmissionEnv {
  ad_now : Z;
  ad_time : nat → Q;
  ad_reach : nat → reach;
  ad_forwarded_for : option string;
  ad_peer : option string
}.

Definition job_create_rate_limiter (cfg : Settings) (env : AdmissionEnv) (r : Redis) : result exn unit * Redis :=
  check_client_rate_limit (ad_time env 0) (ad_reach env) (ad_forwarded_for env) (ad_peer env)
    (job_create_rate_limit cfg) (job_create_rate_window_seconds cfg) JOB_CREATE_RATE_BUCKET r.

Definition check_job_admission (cfg : Settings) (env : AdmissionEnv) (tenants : Tenants) (tenant : uuid)
    (job_count : Z) (db : DB) (r : Redis) : result exn unit * Redis :=
  match check_backpressure cfg (ad_time env 2) (ad_reach env 2) r with
  | Err e => (Err e, r)
  | Ok _ => check_tenant_limits (ad_now env) (ad_time env 3) (λ n, ad_reach env (3 + n)) tenants tenant
              job_count db r
  end.

(** ** The endpoints (api/jobs.py, api/sagas.py) *)

Section Endpoints.
Context `{SqlOrder, UuidSource} (cfg : Settings) (tenants : Tenants).

(** The per-address limit is a dependency and runs before the body of the endpoint;
    [work] is what the body does after admission. *)
Definition admitted {A} (env : AdmissionEnv) (tenant : uuid) (job_count : Z)
    (work : Redis → result exn (A * DB)) (db : DB) (r : Redis) : result exn (A * DB) * Redis :=
  match job_create_rate_limiter cfg env r with
  | (Err e, r) => (Err e, r)
  | (Ok _, r) =>
      match check_job_admission cfg env tenants tenant job_count db r with
      | (Err e, r) => (Err e, r)
      | (Ok _, r) => (work r, r)
      end
  end.

(** What the services see of the request. *)
Definition request_of (env : AdmissionEnv) (rq : Request) (r : Redis) : Request :=
  mkRequest (rq_now rq) (rq_time rq) (match ad_reach env 5%nat with Answered => Some r | _ => None end)
    (rq_otel rq) (rq_trace_id rq).

(** [POST /jobs].  [others] is what other transactions commit before the INSERT. *)
Definition post_job (env : AdmissionEnv) (rq : Request) (user tenant : uuid) (type : string)
    (payload : option dict) (key : option string) (priority : Z) (deps : list uuid) (others : DB → DB)
    (db : DB) (r : Redis) : result exn (Job * DB) * Redis :=
  admitted env tenant 1
    (λ r, create_job cfg (request_of env rq r) true
            (mkNewJob user tenant type payload key priority None deps None None) others db) db r.

(** [POST /sagas]. *)
Definition post_saga (env : AdmissionEnv) (rq : Request) (user tenant : uuid) (name : string)
    (steps : list SagaStep) (db : DB) (r : Redis) : result exn (Saga * DB) * Redis :=
  admitted env tenant (Z.of_nat (length steps))
    (λ r, create_saga cfg (request_of env rq r) user tenant name steps db) db r.
End Endpoints.
