(* ===== verification/AdmissionProps.v ===== *)
(** * Properties of admission control

    A fixed window admits exactly its limit and any span of its length at most twice
    that; the quota holds after every admitted request; a Redis outage refuses nobody;
    forged proxy hops do not change a client's identity. *)
From stdpp Require Import base tactics numbers option list gmap strings sorting pretty.
From Stdlib Require Import QArith Ascii Lia Lqa.
From S2P Require Import Prelude PyData Models Database JobRepo Redis JobService SagaFlow DbInv Fixtures Admission.
Local Open Scope Z_scope.

(** ** The calendar *)

Definition year_of_era (doe : Z) : Z := (doe - doe / 1460 + doe / 36524 - doe / 146096) / 365.
Definition year_start (yoe : Z) : Z := 365 * yoe + yoe / 4 - yoe / 100.

Lemma day_of_year_nonneg doe : 0 ≤ doe < 146097 → 0 ≤ doe - year_start (year_of_era doe).
Proof. unfold year_start, year_of_era. intros H. Z.to_euclidean_division_equations; lia. Qed.

Lemma year_start_nonneg doe : 0 ≤ doe < 146097 → 0 ≤ year_start (year_of_era doe).
Proof. unfold year_start, year_of_era. intros H. Z.to_euclidean_division_equations; lia. Qed.

Lemma year_of_era_same doe doe' :
  0 ≤ doe < 146097 → year_start (year_of_era doe) ≤ doe' ≤ doe → year_of_era doe' = year_of_era doe.
Proof. unfold year_start, year_of_era. intros H1 H2. Z.to_euclidean_division_equations; lia. Qed.

(** Earlier days of the same month: same year and month, earlier day. *)
Lemma civil_same_month days y m d k :
  civil_from_days days = (y, m, d) → 0 ≤ k < d → civil_from_days (days - k) = (y, m, d - k).
Proof.
  unfold civil_from_days. intros E Hk.
  set (z := days + 719468) in *. replace (days - k + 719468) with (z - k) by (unfold z; lia).
  pose proof (Z.div_mod z 146097 ltac:(done)) as Hdm. pose proof (Z.mod_pos_bound z 146097 ltac:(done)) as Hmod.
  set (era := z / 146097) in *. set (doe := z - era * 146097) in *.
  assert (Hdoe : 0 ≤ doe < 146097) by (unfold doe; lia).
  pose proof (day_of_year_nonneg doe Hdoe) as Hnn. pose proof (year_start_nonneg doe Hdoe) as Hys.
  pose proof (year_of_era_same doe (doe - k) Hdoe) as Hsame.
  change ((doe - doe / 1460 + doe / 36524 - doe / 146096) / 365) with (year_of_era doe) in E.
  set (yoe := year_of_era doe) in *.
  change (365 * yoe + yoe / 4 - yoe / 100) with (year_start yoe) in E.
  set (doy := doe - year_start yoe) in *. set (mp := (5 * doy + 2) / 153) in *.
  injection E as <- <- <-.
  assert (Hk' : k ≤ doy ∧ (153 * mp + 2) / 5 ≤ doy - k).
  { unfold mp in *. clear Hsame. Z.to_euclidean_division_equations; lia. }
  assert (Hera : (z - k) / 146097 = era).
  { symmetry. apply (Z.div_unique_pos _ _ _ (doe - k)); unfold doe, doy in *; lia. }
  rewrite Hera. replace (z - k - era * 146097) with (doe - k) by (unfold doe; lia).
  change ((doe - k - (doe - k) / 1460 + (doe - k) / 36524 - (doe - k) / 146096) / 365) with (year_of_era (doe - k)).
  rewrite Hsame by (unfold doy in *; lia).
  change (365 * yoe + yoe / 4 - yoe / 100) with (year_start yoe).
  replace (doe - k - year_start yoe) with (doy - k) by (unfold doy; lia).
  replace ((5 * (doy - k) + 2) / 153) with mp by (unfold mp in *; clear Hsame Hera; Z.to_euclidean_division_equations; lia).
  f_equal. lia.
Qed.

Lemma civil_day_positive days y m d : civil_from_days days = (y, m, d) → 1 ≤ d.
Proof.
  unfold civil_from_days. intros [= _ _ <-].
  set (z := days + 719468). pose proof (Z.mod_pos_bound z 146097 ltac:(done)) as Hmod. rewrite Z.mod_eq in Hmod by done.
  set (doe := z - z / 146097 * 146097). pose proof (day_of_year_nonneg doe ltac:(unfold doe; lia)) as Hnn.
  unfold year_start, year_of_era in Hnn. set (doy := doe - _) in *. clearbody doy.
  Z.to_euclidean_division_equations; lia.
Qed.

(** The instant [month_start] returns is the first of the month of [now], at midnight. *)
Lemma month_start_first now y m d :
  civil_from_days (now / DAY_MICROSECONDS) = (y, m, d) →
  civil_from_days (month_start now / DAY_MICROSECONDS) = (y, m, 1) ∧
  month_start now mod DAY_MICROSECONDS = 0 ∧ month_start now ≤ now.
Proof.
  intros Hc. pose proof (civil_day_positive _ _ _ _ Hc) as Hd. unfold month_start. rewrite Hc.
  rewrite Z.div_mul by done. split_and!.
  - rewrite (civil_same_month _ y m d (d - 1) Hc) by lia. f_equal. lia.
  - by apply Z.mod_mul.
  - pose proof (Z.mul_div_le now DAY_MICROSECONDS ltac:(done)). unfold DAY_MICROSECONDS in *. nia.
Qed.

(** ** The fixed window *)

Lemma int_of_time_near t : (inject_Z (int_of_time t) - 1 < t)%Q ∧ (t < inject_Z (int_of_time t) + 1)%Q.
Proof.
  destruct t as [n d]. unfold int_of_time, Qlt. cbn.
  pose proof (Z.quot_rem n (Zpos d) ltac:(done)) as E. pose proof (Z.rem_bound_abs n (Zpos d) ltac:(done)) as B.
  set (q := (n ÷ Zpos d)) in *. set (r := Z.rem n (Zpos d)) in *. lia.
Qed.

Lemma int_of_time_floor t : (0 <= t)%Q → (inject_Z (int_of_time t) <= t)%Q.
Proof.
  destruct t as [n d]. unfold int_of_time, Qle. cbn. intros Hn.
  pose proof (Z.quot_rem n (Zpos d) ltac:(done)) as E. pose proof (Z.rem_bound_pos n (Zpos d)) as B.
  set (q := (n ÷ Zpos d)) in *. set (r := Z.rem n (Zpos d)) in *. lia.
Qed.

Lemma int_of_time_lt_le a t (w : Z) :
  (0 <= a)%Q → (a <= t)%Q → (t < a + inject_Z w)%Q → int_of_time a ≤ int_of_time t ≤ int_of_time a + w.
Proof.
  intros Ha Hat Ht. assert (Hnn : (0 <= t)%Q) by (by eapply Qle_trans).
  pose proof (int_of_time_floor a Ha) as Fa. pose proof (int_of_time_floor t Hnn) as Ft.
  pose proof (int_of_time_near a) as [_ Na]. pose proof (int_of_time_near t) as [_ Nt].
  set (ia := int_of_time a) in *. set (it := int_of_time t) in *. split.
  - assert (H : (inject_Z ia < inject_Z (it + 1))%Q).
    { rewrite inject_Z_plus. change (inject_Z 1) with 1%Q. lra. }
    rewrite <- Zlt_Qlt in H. lia.
  - assert (H : (inject_Z it < inject_Z (ia + w + 1))%Q).
    { rewrite !inject_Z_plus. change (inject_Z 1) with 1%Q. lra. }
    rewrite <- Zlt_Qlt in H. lia.
Qed.

Lemma rate_key_inj key w w' : rate_key key w = rate_key key w' → w = w'.
Proof. unfold rate_key. intros H. do 3 apply (inj _) in H. by apply show_Z_inj. Qed.

(** One request against the counter, and what others do to Redis before it. *)
Record RateCall := mkRateCall { rc_time : Q; rc_others : Redis → Redis }.

Section Window.
Context (key : string) (limit window : Z) (Hwin : 0 < window) (Hlim : 0 ≤ limit).

Definition window_of (c : RateCall) : Z := int_of_time (rc_time c) / window.

(** Others do not touch this client's counters. *)
Definition foreign (c : RateCall) : Prop :=
  ∀ w r, rc_others c r !! rate_key key w = r !! rate_key key w.

(** Who is admitted, in order. *)
Fixpoint rate_run (calls : list RateCall) (r : Redis) : list bool :=
  match calls with
  | [] => []
  | c :: calls =>
      let '(res, r) := rate_check (rc_time c) (λ _, Answered) key limit window (rc_others c r) in
      is_ok res :: rate_run calls r
  end.

(** The answers given in window [w]. *)
Definition answers_in (w : Z) (calls : list RateCall) (answers : list bool) : list bool :=
  (filter (λ co, window_of co.1 = w) (zip calls answers)).*2.

(** The counter of window [w] stands at [n]. *)
Definition counter (r : Redis) (w n : Z) : Prop :=
  (n = 0 ∧ r !! rate_key key w = None) ∨
  (0 < n ∧ ∃ t0, int_of_time t0 / window = w ∧
     r !! rate_key key w = Some (mkEntry (RInt n) (Some (t0 + inject_Z (window * 2))%Q))).

Lemma same_window_live t t0 : int_of_time t / window = int_of_time t0 / window →
  Qle_bool (t0 + inject_Z (window * 2)) t = false.
Proof.
  intros Hw. apply not_true_iff_false. rewrite Qle_bool_iff. intros Hle.
  pose proof (int_of_time_near t) as [_ N]. pose proof (int_of_time_near t0) as [N0 _].
  assert (Hi : int_of_time t - int_of_time t0 < window).
  { pose proof (Z.div_mod (int_of_time t) window). pose proof (Z.div_mod (int_of_time t0) window).
    pose proof (Z.mod_pos_bound (int_of_time t) window). pose proof (Z.mod_pos_bound (int_of_time t0) window).
    rewrite Hw in *. lia. }
  assert (H : (inject_Z (int_of_time t0 + window * 2) < inject_Z (int_of_time t + 2))%Q).
  { rewrite !inject_Z_plus. change (inject_Z 2) with (2%Q). lra. }
  rewrite <- Zlt_Qlt in H. lia.
Qed.

(** A request touches the counter of its own window only. *)
Lemma rate_check_frame t o r k :
  k ≠ rate_key key (int_of_time t / window) → (rate_check t o key limit window r).2 !! k = r !! k.
Proof.
  intros Hk. unfold rate_check, incr_window, redis_cmd, r_incrby, r_expire.
  repeat (case_match; simplify_eq/=); by rewrite ?lookup_insert_ne.
Qed.

(** One request advances that counter, and is admitted while it is within the limit. *)
Lemma rate_check_step t n r :
  let w := int_of_time t / window in
  counter r w n →
  let '(res, r') := rate_check t (λ _, Answered) key limit window r in
  counter r' w (n + 1) ∧ is_ok res = (n + 1 <=? limit).
Proof.
  intros w Hc. unfold rate_check. rewrite (proj2 (Z.eqb_neq window 0)) by lia. fold w.
  unfold incr_window, redis_cmd, r_incrby, live.
  assert (Hres : ∀ c r', counter r' w c →
    let '(res, r'') := if limit <? c then (Err (RateLimitError ("Rate limit exceeded: " +:+ show_Z limit +:+
      " requests per " +:+ show_Z window +:+ "s.")), r') else (Ok tt, r') in
    counter r'' w c ∧ is_ok res = (c <=? limit)).
  { intros c r' Hr'. destruct (Z.ltb_spec limit c); (split; [done|]); cbn; symmetry;
      [apply Z.leb_gt|apply Z.leb_le]; lia. }
  destruct Hc as [[-> Hk]|(Hn & t0 & Ht0 & Hk)]; rewrite Hk.
  - cbn [Z.eqb Pos.eqb]. unfold r_expire, live. rewrite lookup_insert_eq. cbn [expired e_exp e_val].
    rewrite insert_insert_eq. apply (Hres 1). right. split; [done|]. exists t. by rewrite lookup_insert_eq.
  - unfold expired. cbn [e_exp e_val]. rewrite same_window_live by (by rewrite Ht0).
    cbv beta iota zeta. cbn [e_exp e_val]. rewrite (proj2 (Z.eqb_neq (n + 1) 1)) by lia.
    apply (Hres (n + 1)). right. split; [lia|]. exists t0. by rewrite lookup_insert_eq.
Qed.

(** The answers of a window follow its counter. *)
Lemma rate_run_answers calls r w n :
  Forall foreign calls → counter r w n →
  answers_in w calls (rate_run calls r) =
  (λ i, n + Z.of_nat i + 1 <=? limit) <$> seq 0 (length (filter (λ c, window_of c = w) calls)).
Proof.
  revert r n. induction calls as [|c calls IH]; intros r n Hf Hc; [done|].
  apply Forall_cons in Hf as [Hfc Hf]. unfold answers_in. cbn [rate_run].
  assert (Hc' : counter (rc_others c r) w n) by (unfold counter; by rewrite (Hfc w)).
  destruct (rate_check (rc_time c) (λ _, Answered) key limit window (rc_others c r)) as [res r'] eqn:E.
  cbn [zip zip_with]. rewrite !filter_cons. cbn [fst]. destruct (decide (window_of c = w)) as [Hw|Hw].
  - pose proof (rate_check_step (rc_time c) n (rc_others c r)) as Hstep. cbv zeta in Hstep.
    fold (window_of c) in Hstep. rewrite Hw, E in Hstep. destruct (Hstep Hc') as [Hcnt Hok].
    cbn [fmap list_fmap snd length]. rewrite <- cons_seq, <- fmap_S_seq. fold (answers_in w calls (rate_run calls r')).
    cbn [fmap list_fmap]. f_equal; [rewrite Hok; f_equal; lia|].
    change (answers_in w calls (rate_run calls r') = (λ i, n + Z.of_nat i + 1 <=? limit) <$>
      (S <$> seq 0 (length (filter (λ c, window_of c = w) calls)))).
    rewrite (IH r' (n + 1) Hf Hcnt). rewrite <- list_fmap_compose. apply list_fmap_ext.
    intros i x _. cbn. f_equal. lia.
  - apply (IH r' n Hf). unfold counter.
    pose proof (rate_check_frame (rc_time c) (λ _, Answered) (rc_others c r) (rate_key key w)) as Hfr.
    rewrite E in Hfr. cbn in Hfr. rewrite Hfr; [done|]. intros Ek. by apply rate_key_inj in Ek.
Qed.

Lemma threshold_seq m :
  (λ i, 0 + Z.of_nat i + 1 <=? limit) <$> seq 0 m =
  replicate (m `min` Z.to_nat limit) true ++ replicate (m - Z.to_nat limit) false.
Proof.
  induction m as [|m IH]; [done|]. rewrite seq_S, fmap_app, IH. cbn [fmap list_fmap Nat.add].
  destruct (Z.leb_spec (0 + Z.of_nat m + 1) limit).
  - replace (S m `min` Z.to_nat limit)%nat with (S m) by lia. replace (m `min` Z.to_nat limit)%nat with m by lia.
    replace (m - Z.to_nat limit)%nat with O by lia. replace (S m - Z.to_nat limit)%nat with O by lia.
    change (replicate 0 false) with (@nil bool). rewrite !app_nil_r. by rewrite (replicate_S_end m).
  - replace (S m `min` Z.to_nat limit)%nat with (m `min` Z.to_nat limit)%nat by lia.
    replace (S m - Z.to_nat limit)%nat with (S (m - Z.to_nat limit)) by lia.
    by rewrite <- app_assoc, (replicate_S_end (m - _)).
Qed.

(** The limiter is exact: whatever the order of the requests and whatever happens to
    other keys between them, of the requests that fall in one window the first [limit]
    are admitted and every later one is refused. *)
Theorem rate_window_exact calls r w :
  Forall foreign calls → r !! rate_key key w = None →
  answers_in w calls (rate_run calls r) =
  let m := length (filter (λ c, window_of c = w) calls) in
  replicate (m `min` Z.to_nat limit) true ++ replicate (m - Z.to_nat limit) false.
Proof.
  intros Hf Hk. rewrite (rate_run_answers calls r w 0 Hf) by (by left). apply threshold_seq.
Qed.

Lemma rate_run_length calls r : length (rate_run calls r) = length calls.
Proof.
  revert r. induction calls as [|c calls IH]; intros r; [done|]. cbn.
  destruct (rate_check _ _ _ _ _ _). cbn. by rewrite IH.
Qed.

(** How many were admitted. *)
Definition admissions (answers : list bool) : nat := length (filter (λ b, b = true) answers).

Lemma admissions_split w calls answers :
  length answers = length calls → Forall (λ c, w ≤ window_of c ≤ w + 1) calls →
  admissions answers = (admissions (answers_in w calls answers) + admissions (answers_in (w + 1) calls answers))%nat.
Proof.
  revert answers. induction calls as [|c calls IH]; intros [|b answers] Hl Hw; try done.
  apply Forall_cons in Hw as [Hc Hw]. injection Hl as Hl. specialize (IH answers Hl Hw).
  unfold answers_in in *. cbn [zip zip_with]. rewrite !filter_cons. cbn [fst].
  destruct (decide (window_of c = w)), (decide (window_of c = w + 1)); try lia;
    cbn [fmap list_fmap snd]; unfold admissions in *; rewrite !filter_cons; case_decide; cbn [length]; lia.
Qed.

Lemma admissions_window calls r w :
  Forall foreign calls → r !! rate_key key w = None →
  (admissions (answers_in w calls (rate_run calls r)) ≤ Z.to_nat limit)%nat.
Proof.
  intros Hf Hk. rewrite (rate_run_answers calls r w 0 Hf) by (by left). rewrite threshold_seq.
  generalize (length (filter (λ c, window_of c = w) calls)) as m. intros m. unfold admissions. rewrite filter_app, length_app, filter_all, filter_none, length_replicate.
  - change (length (@nil bool)) with 0%nat. lia.
  - intros x Hx. apply elem_of_replicate in Hx as [-> _]. done.
  - intros x Hx. by apply elem_of_replicate in Hx as [-> _].
Qed.

(** Any span of one window's length admits at most twice the limit, the bound the
    module promises. *)
Theorem rate_span_bound calls r a :
  (0 <= a)%Q → Forall (λ c, (a <= rc_time c)%Q ∧ (rc_time c < a + inject_Z window)%Q) calls →
  Forall foreign calls → (∀ w, r !! rate_key key w = None) →
  Z.of_nat (admissions (rate_run calls r)) ≤ 2 * limit.
Proof.
  intros Ha Hs Hf Hk. set (w := int_of_time a / window).
  rewrite (admissions_split w calls).
  - pose proof (admissions_window calls r w Hf (Hk w)). pose proof (admissions_window calls r (w + 1) Hf (Hk (w + 1))). lia.
  - apply rate_run_length.
  - eapply Forall_impl; [exact Hs|]. intros c [Hle Hlt]. unfold window_of, w.
    pose proof (int_of_time_lt_le a (rc_time c) window Ha Hle Hlt) as [H1 H2]. split.
    + apply Z.div_le_mono; lia.
    + rewrite <- (Z.div_add (int_of_time a) 1 window) by lia. apply Z.div_le_mono; lia.
Qed.
End Window.

(** ** The client's identity *)

Lemma split_char_nonempty c s : split_char c s ≠ [].
Proof. destruct s as [|x s]; cbn; [done|]. case_bool_decide; [done|]. by destruct (split_char c s). Qed.

Lemma split_char_app c a b : split_char c (a ++ c :: b) = split_char c a ++ split_char c b.
Proof.
  induction a as [|x a IH]; cbn; [by rewrite bool_decide_true|].
  rewrite IH. case_bool_decide; [done|]. by destruct (split_char c a) eqn:E; [apply split_char_nonempty in E|].
Qed.

Lemma split_char_none c s : c ∉ s → split_char c s = [s].
Proof.
  induction s as [|x s IH]; cbn; [done|]. intros [Hx Hs]%not_elem_of_cons.
  rewrite bool_decide_false by congruence. by rewrite IH.
Qed.

(** The hop the load balancer appends decides: whatever a client writes to the left of
    it, its identity for the limiter is that last hop, without surrounding blanks. *)
Theorem forged_hops_ignored forged hop peer :
  ","%char ∉ String.list_ascii_of_string hop → strip is_space (String.list_ascii_of_string hop) ≠ [] →
  client_key (Some (forged +:+ "," +:+ hop)) peer =
  String.string_of_list_ascii (strip is_space (String.list_ascii_of_string hop)).
Proof.
  intros Hc Hne. unfold client_key. rewrite !list_ascii_app. cbn [String.list_ascii_of_string app].
  rewrite split_char_app, (split_char_none _ _ Hc), fmap_app, filter_app. cbn [fmap list_fmap].
  rewrite (filter_cons_True (λ p, p ≠ []) _ _ Hne), filter_nil, last_snoc. done.
Qed.

(** ** Outages *)

Lemma redis_cmd_fails {A} o (f : Redis → result exn (A * Redis)) r : o ≠ Answered → is_ok (redis_cmd o f r).1 = false.
Proof. intros Ho. unfold redis_cmd. by destruct o, (f r) as [[??]|]. Qed.

Lemma incr_window_fails t o key ttl r : o 0%nat ≠ Answered → is_ok (incr_window t o key ttl r).1 = false.
Proof.
  intros Ho. unfold incr_window. pose proof (redis_cmd_fails (o 0%nat) (r_incrby t key 1) r Ho) as Hf.
  by destruct (redis_cmd _ _ r) as [[?|?] ?].
Qed.

(** A limiter never refuses because Redis did not answer. *)
Lemma incr_window_error t o key ttl r e : (incr_window t o key ttl r).1 = Err e → e = ServiceError.
Proof.
  unfold incr_window, redis_cmd, r_incrby.
  repeat (case_match; simplify_eq/=); intros [= <-]; try done; by match goal with H : Err _ = Err _ |- _ => injection H as <- end.
Qed.

Lemma limiter_fails_open cfg env r : ad_reach env 0%nat ≠ Answered → (job_create_rate_limiter cfg env r).1 = Ok tt.
Proof.
  intros Ho. unfold job_create_rate_limiter, check_client_rate_limit, rate_check.
  destruct (_ =? 0)%Z; [done|].
  pose proof (incr_window_fails (ad_time env 0) (ad_reach env)
    (rate_key (prefixed JOB_CREATE_RATE_BUCKET (client_key (ad_forwarded_for env) (ad_peer env)))
       (int_of_time (ad_time env 0) / job_create_rate_window_seconds cfg))
    (job_create_rate_window_seconds cfg * 2) r Ho) as Hf.
  pose proof (incr_window_error (ad_time env 0) (ad_reach env)
    (rate_key (prefixed JOB_CREATE_RATE_BUCKET (client_key (ad_forwarded_for env) (ad_peer env)))
       (int_of_time (ad_time env 0) / job_create_rate_window_seconds cfg))
    (job_create_rate_window_seconds cfg * 2) r) as He.
  destruct (incr_window _ _ _ _ r) as [[c|e] r']; [done|]. by rewrite (He e eq_refl).
Qed.

Lemma backpressure_fails_open cfg t o r : o ≠ Answered → check_backpressure cfg t o r = Ok tt.
Proof.
  intros Ho. unfold check_backpressure. destruct (_ <=? 0)%Z; [done|].
  pose proof (redis_cmd_fails o (λ r, v ← r_get t BACKPRESSURE_LAG_KEY r; Ok (v, r)) r Ho) as Hf.
  by destruct (redis_cmd o _ r) as [[v|e] r'].
Qed.

Lemma tenant_rate_fails_open t o tn r : o 0%nat ≠ Answered → (check_tenant_rate t o tn r).1 = Ok tt.
Proof.
  intros Ho. unfold check_tenant_rate. destruct (_ <=? 0)%Z; [done|].
  pose proof (incr_window_fails t o (tenant_rate_key (tn_id tn) (int_of_time t / 60)) 120 r Ho) as Hf.
  by destruct (incr_window _ _ _ _ r) as [[c|e] r'].
Qed.

(** ** The quota *)

Lemma used_since_insert tenant since i j db db' :
  db_jobs db' = <[i := j]> (db_jobs db) → db_jobs db !! i = None →
  used_since tenant since db' ≤ used_since tenant since db + 1.
Proof.
  intros Hins Hi. unfold used_since. rewrite Hins.
  set (P := λ kj : uuid * Job, job_tenant_id kj.2 = tenant ∧ since ≤ job_created_at kj.2).
  rewrite map_filter_insert. case_decide as Hp.
  - rewrite map_size_insert_None by (apply map_lookup_filter_None; by left). lia.
  - rewrite delete_id by done. lia.
Qed.

Section Quota.
Context `{SqlOrder, UuidSource} (cfg : Settings) (tenants : Tenants).

(** A creation adds at most one row. *)
Lemma create_job_grows rq b a db j db' tenant since :
  create_job cfg rq b a (λ d, d) db = Ok (j, db') →
  used_since tenant since db' ≤ used_since tenant since db + 1.
Proof.
  intros Hc. unfold create_job in Hc. destruct (truthy_key (nj_key a) ≫= _) as [existing|]; [injection Hc as _ <-; lia|].
  apply bind_ok in Hc as (ps & _ & Hc). destruct (draw_uuid db) as [i db1] eqn:Ed.
  assert (Hj1 : db_jobs db1 = db_jobs db) by (by injection Ed as <- <-).
  set (st := initial_status _ _ _ _ _) in *. set (row := new_row _ _ _ st i) in *.
  destruct (insert_job row db1) as [db2|e] eqn:Ei.
  - apply insert_job_ok in Ei as (Hfresh & _ & ->). unfold finish_create in Hc.
    apply bind_ok in Hc as (db3 & Hdep & Hc). injection Hc as _ <-.
    rewrite Hj1 in Hfresh. apply (used_since_insert _ _ (job_id row) row); [|exact Hfresh]. rewrite <- Hj1.
    destruct (nj_deps a) as [|p deps]; [injection Hdep as <-; by destruct (bool_decide _)|]. destruct b; [|done].
    apply bind_ok in Hdep as (ds & _ & Hok). injection Hok as <-. by destruct (bool_decide _).
  - destruct (nj_key a); [|done]. destruct (get_by_idempotency_key _ _ db1); [|done]. injection Hc as _ <-.
    unfold used_since. rewrite Hj1. lia.
Qed.

Lemma create_steps_grows rq user tn saga index prev steps db db' tenant since :
  create_steps cfg rq user tn saga index prev steps db = Ok db' →
  used_since tenant since db' ≤ used_since tenant since db + Z.of_nat (length steps).
Proof.
  revert index prev db. induction steps as [|st steps IH]; intros index prev db Hc; cbn [create_steps] in Hc.
  - injection Hc as <-. cbn. lia.
  - apply bind_ok in Hc as ([j db1] & Hj & Hc). apply (create_job_grows _ _ _ _ _ _ tenant since) in Hj.
    apply IH in Hc. cbn [snd length] in *. lia.
Qed.

Lemma create_saga_grows rq user tn name steps db s db' tenant since :
  create_saga cfg rq user tn name steps db = Ok (s, db') →
  used_since tenant since db' ≤ used_since tenant since db + Z.of_nat (length steps).
Proof.
  unfold create_saga. destruct steps as [|st steps]; [done|]. set (sts := st :: steps). intros Hc.
  destruct (draw_uuid db) as [i db1] eqn:Ed. apply bind_ok in Hc as (db2 & Hs & Hc). injection Hc as _ <-.
  apply (create_steps_grows _ _ _ _ _ _ _ _ _ tenant since) in Hs. injection Ed as <- <-. exact Hs.
Qed.

(** An admitted request fits the quota as a whole. *)
Lemma admitted_fits {A} env tenant n (work : Redis → result exn (A * DB)) db r a db' tn :
  (admitted cfg tenants env tenant n work db r).1 = Ok (a, db') →
  tenants !! tenant = Some tn → tn_id tn = tenant → 0 < tn_quota_jobs_per_month tn →
  used_since tenant (month_start (ad_now env)) db + n ≤ tn_quota_jobs_per_month tn ∧ ∃ r', work r' = Ok (a, db').
Proof.
  unfold admitted, check_job_admission, check_tenant_limits. intros Ha Htn Hid Hq. rewrite Htn in Ha.
  destruct (job_create_rate_limiter cfg env r) as [[?|?] r1]; [|done].
  destruct (check_backpressure _ _ _ r1); [|done]. destruct (check_tenant_rate _ _ tn r1) as [[?|?] r2]; [|done].
  unfold check_monthly_quota in Ha. rewrite (proj2 (Z.leb_gt _ _)), Hid in Ha by done.
  destruct (Z.ltb_spec (tn_quota_jobs_per_month tn)
    (used_since tenant (month_start (ad_now env)) db + n)); [done|]. eauto.
Qed.


(** A Redis outage refuses nobody: when no command is answered, [POST /jobs] does what
    the quota and [create_job] decide from the database alone. *)
Theorem redis_outage_fails_open env rq user tenant tn type payload key priority deps others db r :
  (∀ n, ad_reach env n ≠ Answered) → tenants !! tenant = Some tn →
  (post_job cfg tenants env rq user tenant type payload key priority deps others db r).1 =
  (check_monthly_quota (ad_now env) tn 1 db ≫= λ _,
   create_job cfg (mkRequest (rq_now rq) (rq_time rq) None (rq_otel rq) (rq_trace_id rq)) true
     (mkNewJob user tenant type payload key priority None deps None None) others db).
Proof.
  intros Ho Htn. unfold post_job, admitted, check_job_admission, check_tenant_limits. rewrite Htn.
  pose proof (limiter_fails_open cfg env r (Ho 0%nat)) as Hl.
  destruct (job_create_rate_limiter cfg env r) as [res r1]. cbn in Hl. subst res.
  rewrite backpressure_fails_open by apply Ho.
  pose proof (tenant_rate_fails_open (ad_time env 3) (λ n, ad_reach env (3 + n)) tn r1 (Ho 3%nat)) as Ht.
  destruct (check_tenant_rate _ _ tn r1) as [res r2]. cbn in Ht. subst res.
  destruct (check_monthly_quota _ _ _ _) as [[]|e]; [|done]. cbn. unfold request_of.
  by specialize (Ho 5%nat); destruct (ad_reach env 5%nat).
Qed.

(** The backpressure gate follows the lag the workers last stored while it has not
    expired: it refuses exactly above the threshold. *)
Lemma backpressure_exact t t' lag ttl r :
  0 < backpressure_lag_threshold cfg → (t' < t + ttl)%Q →
  is_ok (check_backpressure cfg t' Answered (r_set t BACKPRESSURE_LAG_KEY (RInt lag) (Some ttl) r)) =
  (lag <=? backpressure_lag_threshold cfg).
Proof.
  intros Hth Ht. unfold check_backpressure. rewrite (proj2 (Z.leb_gt _ _)) by done.
  unfold redis_cmd, r_get, r_set, live. rewrite lookup_insert_eq. unfold expired. cbn [e_exp e_val fmap option_fmap option_map].
  assert (Hne : Qle_bool (t + ttl) t' = false).
  { apply not_true_iff_false. rewrite Qle_bool_iff. by apply Qlt_not_le. }
  rewrite Hne. cbn. rewrite Z.leb_antisym. by destruct (backpressure_lag_threshold cfg <? lag).
Qed.
End Quota.

(** ** Worked examples *)

Module AdmissionExample.
Import Fixtures.

(** Three requests in one minute, with a limit of two. *)
Definition three_calls : list RateCall :=
  [mkRateCall 1 (λ r, r); mkRateCall 2 (λ r, r); mkRateCall (119 # 2) (λ r, r)].

Lemma three_calls_foreign : Forall (foreign "1.2.3.4") three_calls.
Proof. repeat constructor. Qed.

Lemma rate_window_exact_witness :
  answers_in 60 0 three_calls (rate_run "1.2.3.4" 2 60 three_calls ∅) = [true; true; false].
Proof. exact (rate_window_exact "1.2.3.4" 2 60 ltac:(lia) ltac:(lia) three_calls ∅ 0 three_calls_foreign eq_refl). Defined.

(** Four requests around the turn of a minute: two and two are admitted. *)
Definition boundary_calls : list RateCall :=
  [mkRateCall 58 (λ r, r); mkRateCall 59 (λ r, r); mkRateCall 60 (λ r, r); mkRateCall 61 (λ r, r); mkRateCall 62 (λ r, r)].

Lemma rate_span_bound_witness :
  Z.of_nat (admissions (rate_run "1.2.3.4" 2 60 boundary_calls ∅)) ≤ 2 * 2 ∧
  rate_run "1.2.3.4" 2 60 boundary_calls ∅ = [true; true; true; true; false].
Proof.
  split; [|vm_compute; reflexivity].
  apply (rate_span_bound "1.2.3.4" 2 60 ltac:(lia) ltac:(lia) boundary_calls ∅ 58).
  - discriminate.
  - repeat constructor; discriminate.
  - repeat constructor.
  - reflexivity.
Defined.

Lemma forged_hops_ignored_witness :
  client_key (Some ("6.6.6.6, 7.7.7.7" +:+ "," +:+ " 10.0.0.1")) (Some "172.16.0.1") = "10.0.0.1".
Proof.
  apply (forged_hops_ignored "6.6.6.6, 7.7.7.7" " 10.0.0.1" (Some "172.16.0.1")).
  - refine (bool_decide_eq_true_1 _ _). vm_compute. reflexivity.
  - discriminate.
Defined.

(** A tenant that may create one job a month. *)
Definition one_job : Tenant := mkTenant tenant "one" 120 1.
Definition tenants : Tenants := {[tenant := one_job]}.
Definition env (o : reach) : AdmissionEnv := mkAdmissionEnv at_time (λ _, 1700000000%Q) (λ _, o) None (Some "10.0.0.1").

Definition submit (o : reach) (others : DB → DB) (db : DB) : result exn (Job * DB) :=
  (post_job cfg tenants (env o) request user tenant "csv_upload" None None 0 [] others db ∅).1.

Definition first_job : Job := match submit Answered (λ d, d) empty_db with Ok (j, _) => j | Err _ => row 1 PENDING end.
Definition after_submit : DB := match submit Answered (λ d, d) empty_db with Ok (_, db) => db | Err _ => empty_db end.


Lemma redis_outage_fails_open_witness :
  submit NotReached (λ d, d) after_submit =
  Err (QuotaExceededError "Monthly job quota reached for tenant one (1 / 1). Quota resets at the start of next month.").
Proof.
  unfold submit. rewrite (redis_outage_fails_open cfg tenants (env NotReached) request user tenant one_job
    "csv_upload" None None 0 [] (λ d, d) after_submit ∅ ltac:(done) eq_refl). vm_compute. reflexivity.
Defined.

(** The quota is a check before an insert, without a lock: two concurrent requests of a
    tenant with one job left both pass the check, and both jobs are stored. *)
Theorem concurrent_requests_exceed_quota :
  ∃ j1 db1 j2 db2,
    submit Answered (λ d, d) empty_db = Ok (j1, db1) ∧
    submit Answered (λ _, db1) empty_db = Ok (j2, db2) ∧
    tn_quota_jobs_per_month one_job = 1 ∧ used_since tenant (month_start at_time) db2 = 2.
Proof. do 4 eexists. split_and!; vm_compute; reflexivity. Qed.
End AdmissionExample.
