(* ===== verification/ReadModel.v ===== *)
(** * The read model (workers/read_model.py)

    Per tenant and per user, one sorted set of job ids for each tracked status, kept in
    step with the lifecycle events, bounded by a window whose overflow is counted beside
    it, and rebuilt from the jobs table.  The events were validated against their
    schemas before a handler sees them, so their identifiers are strings.  All commands
    of one call see one clock. *)
From stdpp Require Import base tactics numbers option list gmap strings sorting.
From Stdlib Require Import QArith.
From S2P Require Import Prelude PyData Models Database Redis.

Definition TRACKED_STATUSES : list string := ["running"; "completed"; "failed"; "dead_letter"; "cancelled"].
Definition TERMINAL_STATUSES : list string := ["completed"; "dead_letter"; "cancelled"].

(** [_EVENT_TO_STATUS]. *)
Definition event_to_status (event : string) : option string :=
  if bool_decide (event = "job.progress") then Some "running"
  else if bool_decide (event = "job.completed") then Some "completed"
  else if bool_decide (event = "job.cancelled") then Some "cancelled"
  else None.

Definition READ_MODEL_WINDOW : nat := N.to_nat 10000.
Definition READ_MODEL_TTL_SECONDS : Q := 604800.

Definition tenant_key (tenant_id status : string) : string :=
  "jobs:tenant:" +:+ tenant_id +:+ ":status:" +:+ status.
Definition user_key (user_id status : string) : string :=
  "jobs:user:" +:+ user_id +:+ ":status:" +:+ status.
Definition evicted_key (status_key : string) : string := status_key +:+ ":evicted".

(** [_zcall]: a key of a legacy type is dropped and the command repeated. *)
Definition zcall {A} (key : string) (op : Redis → result exn A) (r : Redis) : result exn A :=
  match op r with Ok a => Ok a | Err _ => op (r_del key r) end.

(** The window is a parameter so that the trim can be exercised on small sets; the code
    runs with [READ_MODEL_WINDOW]. *)
Section Projector.
Context (window : nat).

(** [_project]. *)
Definition project (t : Q) (key job_id : string) (score : Q) (r : Redis) : result exn Redis :=
  r ← zcall key (r_zadd t key job_id score) r;
  nr ← zcall key (λ r, n ← r_zcard t key r; Ok (n, r)) r;
  let '(n, r) := nr in
  r ← (if (window <? n)%nat then
         kr ← zcall key (r_zrem_lowest t key (n - window)) r;
         let '(removed, r) := kr in
         if (0 <? removed)%nat then
           zr ← r_incrby t (evicted_key key) (Z.of_nat removed) r;
           Ok (r_expire t (evicted_key key) READ_MODEL_TTL_SECONDS zr.2)
         else Ok r
       else Ok r);
  Ok (r_expire t key READ_MODEL_TTL_SECONDS r).

(** The ZREMs of [_move], status by status. *)
Fixpoint clear_others (t : Q) (tenant_id user_id job_id new_status : string) (sts : list string) (r : Redis)
    : result exn Redis :=
  match sts with
  | [] => Ok r
  | st :: sts =>
      r ← (if bool_decide (st = new_status) then Ok r
           else r ← zcall (tenant_key tenant_id st) (r_zrem t (tenant_key tenant_id st) job_id) r;
                zcall (user_key user_id st) (r_zrem t (user_key user_id st) job_id) r);
      clear_others t tenant_id user_id job_id new_status sts r
  end.

(** [_move]. *)
Definition move (t : Q) (tenant_id user_id job_id new_status : string) (score : option Q) (r : Redis)
    : result exn Redis :=
  let at_ := default t score in
  r ← clear_others t tenant_id user_id job_id new_status TRACKED_STATUSES r;
  r ← project t (tenant_key tenant_id new_status) job_id at_ r;
  project t (user_key user_id new_status) job_id at_ r.

(** A field the handler uses: a non-empty string. *)
Definition field (value : dict) (k : string) : option string :=
  match dget value k with
  | Some (JStr s) => if bool_decide (s = "") then None else Some s
  | _ => None
  end.

(** The status an event implies. *)
Definition implied_status (event : string) (value : dict) : option string :=
  if bool_decide (event = "job.failed")
  then Some (match dget value "dead_lettered" with Some (JBool true) => "dead_letter" | _ => "failed" end)
  else event_to_status event.

(** The terminal-state guard: whether one of the terminal views holds the job, and the
    keyspace with the legacy keys met on the way dropped. *)
Fixpoint in_terminal (t : Q) (tenant_id job_id : string) (sts : list string) (r : Redis)
    : result exn (bool * Redis) :=
  match sts with
  | [] => Ok (false, r)
  | st :: sts =>
      sr ← zcall (tenant_key tenant_id st) (λ r, s ← r_zscore t (tenant_key tenant_id st) job_id r; Ok (s, r)) r;
      let '(score, r) := sr in
      match score with
      | Some _ => Ok (true, r)
      | None => in_terminal t tenant_id job_id sts r
      end
  end.

(** [ReadModelProjector.handle_message]. *)
Definition projector_handle_message (t : Q) (value : dict) (r : Redis) : result exn Redis :=
  match field value "job_id", field value "user_id", field value "tenant_id", field value "event" with
  | Some job_id, Some user_id, Some tenant_id, Some event =>
      match implied_status event value with
      | None => Ok r
      | Some new_status =>
          gr ← (if bool_decide (new_status ∈ TERMINAL_STATUSES) then Ok (false, r)
                else in_terminal t tenant_id job_id TERMINAL_STATUSES r : result exn (bool * Redis));
          if gr.1 : bool then Ok gr.2 else move t tenant_id user_id job_id new_status None gr.2
      end
  | _, _, _, _ => Ok r
  end.

(** ** Counts *)

(** [_member_count]. *)
Definition member_count (t : Q) (key : string) (r : Redis) : result exn Z :=
  match r_zcard t key r with
  | Ok live =>
      ev ← r_get t (evicted_key key) r;
      match ev with
      | None | Some (RStr EmptyString) => Ok (Z.of_nat live)
      | Some v => match int_of_reply v with
                  | Some z => Ok (Z.of_nat live + z)%Z
                  | None => Err (ValueError "invalid literal for int() with base 10")
                  end
      end
  | Err _ => n ← r_scard t key r; Ok (Z.of_nat n)
  end.

(** [read_global_stats] and [read_user_stats]: one count per tracked status. *)
Fixpoint read_stats (t : Q) (key_for : string → string) (sts : list string) (r : Redis)
    : result exn (list (string * Z)) :=
  match sts with
  | [] => Ok []
  | st :: sts =>
      n ← member_count t (key_for st) r;
      rest ← read_stats t key_for sts r;
      Ok ((st, n) :: rest)
  end.
Definition read_global_stats (t : Q) (tenant_id : string) (r : Redis) : result exn (list (string * Z)) :=
  read_stats t (tenant_key tenant_id) TRACKED_STATUSES r.
Definition read_user_stats (t : Q) (user_id : string) (r : Redis) : result exn (list (string * Z)) :=
  read_stats t (user_key user_id) TRACKED_STATUSES r.

(** ** Rebuild from the jobs table *)

(** [_score_for]: seconds of the row's [updated_at], which is never NULL. *)
Definition score_for (moment : Z) : Q := Qmake moment 1000000.

Definition tracked (j : Job) : Prop := job_status_value (job_status j) ∈ TRACKED_STATUSES.

#[export] Instance tracked_dec j : Decision (tracked j).
Proof. unfold tracked. apply _. Defined.

(** The rows of [Job.status.in_(_TRACKED_STATUSES)], of one tenant or of all. *)
Definition tracked_rows (tenant_id : option uuid) (db : DB) : list Job :=
  filter (λ j, tracked j ∧ (tenant_id = None ∨ tenant_id = Some (job_tenant_id j)))
    (map_to_list (db_jobs db)).*2.

(** [GROUP BY (scope, status)]: the groups. *)
Definition group_of (scope : Job → uuid) (j : Job) : string * string :=
  (uuid_str (scope j), job_status_value (job_status j)).
Definition groups (scope : Job → uuid) (rows : list Job) : list (string * string) :=
  remove_dups (group_of scope <$> rows).
Definition group_rows (scope : Job → uuid) (g : string * string) (rows : list Job) : list Job :=
  filter (λ j, group_of scope j = g) rows.

(** [_status_counts]. *)
Definition status_counts (scope : Job → uuid) (tenant_id : option uuid) (db : DB) : list ((string * string) * nat) :=
  let rows := tracked_rows tenant_id db in
  (λ g, (g, length (group_rows scope g rows))) <$> groups scope rows.

(** [ORDER BY updated_at DESC, id DESC]. *)
Definition newer (a b : Job) : Prop :=
  (job_updated_at b < job_updated_at a)%Z ∨ (job_updated_at a = job_updated_at b ∧ (job_id b ≤ job_id a)%N).

#[export] Instance newer_dec : RelDecision newer.
Proof. intros a b. unfold newer. apply _. Defined.

(** [_windowed_members] of one group. *)
Definition windowed_members (scope : Job → uuid) (tenant_id : option uuid) (g : string * string) (db : DB)
    : list (string * Q) :=
  (λ j, (uuid_str (job_id j), score_for (job_updated_at j))) <$>
    take window (merge_sort newer (group_rows scope g (tracked_rows tenant_id db))).

(** What one group writes: the retained members, and the rest as the evicted count. *)
Definition rebuild_key (t : Q) (key : string) (total : nat) (retained : list (string * Q)) (r : Redis)
    : result exn Redis :=
  r ← (match retained with
       | [] => Ok r
       | _ => r ← r_zadd_all t key retained r; Ok (r_expire t key READ_MODEL_TTL_SECONDS r)
       end);
  let evicted := (total - length retained)%nat in
  Ok (if (0 <? evicted)%nat
      then r_set t (evicted_key key) (RInt (Z.of_nat evicted)) (Some READ_MODEL_TTL_SECONDS) r else r).

Fixpoint rebuild_keys (t : Q) (key_for : string → string → string) (scope : Job → uuid) (tenant_id : option uuid)
    (db : DB) (counts : list ((string * string) * nat)) (r : Redis) : result exn Redis :=
  match counts with
  | [] => Ok r
  | ((s, status), total) :: counts =>
      r ← rebuild_key t (key_for s status) total (windowed_members scope tenant_id (s, status) db) r;
      rebuild_keys t key_for scope tenant_id db counts r
  end.

Definition scan_delete_users (t : Q) (counts : list ((string * string) * nat)) (r : Redis) : Redis :=
  foldl (λ r c, (r_scan_delete t ("jobs:user:" +:+ c.1.1 +:+ ":status:") r).2) r counts.

(** [rebuild_read_model], on one snapshot of the table. *)
Definition rebuild_read_model (t : Q) (tenant_id : option uuid) (db : DB) (r : Redis) : result exn Redis :=
  let tenant_counts := status_counts job_tenant_id tenant_id db in
  let user_counts := status_counts job_user_id tenant_id db in
  let r := match tenant_id with
           | None => (r_scan_delete t "jobs:user:" (r_scan_delete t "jobs:tenant:" r).2).2
           | Some tn => scan_delete_users t user_counts
                          (r_scan_delete t ("jobs:tenant:" +:+ uuid_str tn +:+ ":status:") r).2
           end in
  r ← rebuild_keys t tenant_key job_tenant_id tenant_id db tenant_counts r;
  rebuild_keys t user_key job_user_id tenant_id db user_counts r.
End Projector.
