(* ===== verification/ReadModelProps.v ===== *)
(** * Properties of the read model

    The projector implements a map from jobs to statuses; the views stay within their
    window without losing counts; a rebuild shows exactly what the table holds. *)
From stdpp Require Import base tactics numbers option list gmap strings sorting.
From Stdlib Require Import QArith Lqa.
From S2P Require Import Prelude PyData Models Database Redis ReadModel Fixtures.

(** ** Keys *)

Lemma string_rev_inj a b : rev (String.list_ascii_of_string a) = rev (String.list_ascii_of_string b) → a = b.
Proof.
  intros E. apply (f_equal (@rev _)) in E. rewrite !rev_involutive in E.
  apply (f_equal String.string_of_list_ascii) in E. by rewrite !String.string_of_list_ascii_of_string in E.
Qed.

(** The characters of a key from its end. *)
Ltac key_chars H :=
  apply (f_equal (λ s, rev (String.list_ascii_of_string s))) in H;
  repeat rewrite list_ascii_app in H; repeat rewrite rev_app_distr in H; cbn in H.

Ltac each_status :=
  unfold TRACKED_STATUSES in *;
  repeat match goal with
  | H : ?s ∈ ?l |- _ => first [apply elem_of_cons in H as [->|H] | by apply not_elem_of_nil in H]
  end.

Lemma tenant_key_inj a b s s' :
  s ∈ TRACKED_STATUSES → s' ∈ TRACKED_STATUSES → tenant_key a s = tenant_key b s' → a = b ∧ s = s'.
Proof.
  intros Hs Hs' E. unfold tenant_key in E. apply (inj (String.append "jobs:tenant:")) in E.
  each_status; key_chars E; simplify_eq E; intros E'; split; try done; by apply string_rev_inj.
Qed.

Lemma user_key_inj a b s s' :
  s ∈ TRACKED_STATUSES → s' ∈ TRACKED_STATUSES → user_key a s = user_key b s' → a = b ∧ s = s'.
Proof.
  intros Hs Hs' E. unfold user_key in E. apply (inj (String.append "jobs:user:")) in E.
  each_status; key_chars E; simplify_eq E; intros E'; split; try done; by apply string_rev_inj.
Qed.

Lemma tenant_user_key a b s s' : tenant_key a s ≠ user_key b s'.
Proof. done. Qed.

Lemma evicted_tenant_key k a s : s ∈ TRACKED_STATUSES → evicted_key k ≠ tenant_key a s.
Proof. intros Hs E. unfold evicted_key, tenant_key in E. each_status; key_chars E; discriminate. Qed.

Lemma evicted_user_key k a s : s ∈ TRACKED_STATUSES → evicted_key k ≠ user_key a s.
Proof. intros Hs E. unfold evicted_key, user_key in E. each_status; key_chars E; discriminate. Qed.

Lemma evicted_key_inj k k' : evicted_key k = evicted_key k' → k = k'.
Proof.
  intros E. unfold evicted_key in E. key_chars E. simplify_eq E. by apply string_rev_inj.
Qed.

(** ** Views and commands *)

(** What a key shows: its sorted set, nothing for a key of a legacy type. *)
Definition view (t : Q) (r : Redis) (k : string) : gmap string Q :=
  match r_zset t k r with Ok m => m | Err _ => ∅ end.

Definition drop_legacy (t : Q) (k : string) (r : Redis) : Redis :=
  match r_zset t k r with Ok _ => r | Err _ => r_del k r end.

Lemma zset_dropped t k r : r_zset t k (drop_legacy t k r) = Ok (view t r k).
Proof.
  unfold drop_legacy, view. destruct (r_zset t k r) eqn:E; [done|].
  unfold r_zset, live, r_del. by rewrite lookup_delete_eq.
Qed.

Lemma lookup_drop_legacy t k k' r : k' ≠ k → drop_legacy t k r !! k' = r !! k'.
Proof.
  intros Hk. unfold drop_legacy, r_del. destruct (r_zset t k r); [done|]. by rewrite lookup_delete_ne.
Qed.

(** Every command on a sorted set succeeds through [_zcall]. *)
Lemma zcall_zset {A} t k (f : gmap string Q → Redis → A) r :
  zcall k (λ r, m ← r_zset t k r; Ok (f m r)) r = Ok (f (view t r k) (drop_legacy t k r)).
Proof.
  unfold zcall, view, drop_legacy. destruct (r_zset t k r) as [m|e] eqn:E; [done|]. cbn.
  unfold r_zset, live, r_del. by rewrite lookup_delete_eq.
Qed.

Lemma zcall_zadd t k j s r :
  zcall k (r_zadd t k j s) r = Ok (put_zset t k (<[j := s]> (view t r k)) (drop_legacy t k r)).
Proof. exact (zcall_zset t k (λ m r, put_zset t k (<[j := s]> m) r) r). Qed.

Lemma zcall_zrem t k j r :
  zcall k (r_zrem t k j) r = Ok (put_zset t k (delete j (view t r k)) (drop_legacy t k r)).
Proof. exact (zcall_zset t k (λ m r, put_zset t k (delete j m) r) r). Qed.

Lemma zcall_zcard t k r :
  zcall k (λ r, n ← r_zcard t k r; Ok (n, r)) r = Ok (size (view t r k), drop_legacy t k r).
Proof.
  rewrite <- (zcall_zset t k (λ m r, (size m, r))). unfold zcall, r_zcard.
  by destruct (r_zset t k r), (r_zset t k (r_del k r)).
Qed.

Lemma zcall_zscore t k j r :
  zcall k (λ r, s ← r_zscore t k j r; Ok (s, r)) r = Ok (view t r k !! j, drop_legacy t k r).
Proof.
  rewrite <- (zcall_zset t k (λ m r, (m !! j, r))). unfold zcall, r_zscore.
  by destruct (r_zset t k r), (r_zset t k (r_del k r)).
Qed.

Lemma zcall_zrem_lowest t k n r :
  let low := take n (zsorted (view t r k)).*1 in
  zcall k (r_zrem_lowest t k n) r = Ok (length low, put_zset t k (zrem_all low (view t r k)) (drop_legacy t k r)).
Proof.
  exact (zcall_zset t k (λ m r, (length (take n (zsorted m).*1), put_zset t k (zrem_all (take n (zsorted m).*1) m) r)) r).
Qed.

Lemma lookup_put_zset_ne t k k' m r : k' ≠ k → put_zset t k m r !! k' = r !! k'.
Proof.
  intros Hk. unfold put_zset. case_bool_decide; [by rewrite lookup_delete_ne|by rewrite lookup_insert_ne].
Qed.

Lemma view_put t k m r : view t (put_zset t k m r) k = m.
Proof. unfold view. by rewrite zset_put. Qed.

Lemma drop_put t k m r : drop_legacy t k (put_zset t k m r) = put_zset t k m r.
Proof. unfold drop_legacy. by rewrite zset_put. Qed.

Lemma zset_view t k r m : r_zset t k r = Ok m → view t r k = m.
Proof. intros E. unfold view. by rewrite E. Qed.

Lemma zset_ext t r r' k : r !! k = r' !! k → r_zset t k r = r_zset t k r'.
Proof. intros E. unfold r_zset, live. by rewrite E. Qed.

(** A view depends on its own key only. *)
Lemma view_ext t r r' k : r !! k = r' !! k → view t r k = view t r' k.
Proof. intros E. unfold view, r_zset, live. by rewrite E. Qed.

Lemma expires_later t d : (0 < d)%Q → Qle_bool (t + d) t = false.
Proof. intros Hd. apply not_true_iff_false. rewrite Qle_bool_iff. lra. Qed.

Lemma zset_expire t k d r : (0 < d)%Q → r_zset t k (r_expire t k d r) = r_zset t k r.
Proof.
  intros Hd. unfold r_expire, r_zset. destruct (live t r k) as [e|] eqn:E; [|by rewrite E].
  unfold live at 1. rewrite lookup_insert_eq. unfold expired. cbn. by rewrite expires_later.
Qed.

Lemma lookup_expire_ne t k k' d r : k' ≠ k → r_expire t k d r !! k' = r !! k'.
Proof. intros Hk. unfold r_expire. destruct (live t r k); [by rewrite lookup_insert_ne|done]. Qed.

(** ** Trimming *)

Lemma size_zrem_all ms (m : gmap string Q) :
  NoDup ms → (∀ x, x ∈ ms → is_Some (m !! x)) → size (zrem_all ms m) = (size m - length ms)%nat.
Proof.
  induction ms as [|x ms IH]; intros Hnd Hin; cbn; [lia|].
  apply NoDup_cons in Hnd as [Hx Hnd].
  assert (Hs : is_Some (zrem_all ms m !! x)).
  { rewrite lookup_zrem_all, bool_decide_false by done. apply Hin. left. }
  change (foldr delete m ms) with (zrem_all ms m). destruct Hs as [q Hs].
  rewrite map_size_delete_Some by (by rewrite Hs). rewrite IH; [lia|done|]. intros y Hy. apply Hin. by right.
Qed.

Section Trim.
Context (window : nat).

(** What [_project] leaves of a set. *)
Definition trim (m : gmap string Q) : gmap string Q :=
  zrem_all (take (size m - window) (zsorted m).*1) m.

Lemma lowest_in m n x : x ∈ take n (zsorted m).*1 → is_Some (m !! x).
Proof.
  intros Hx. apply elem_of_take in Hx as (i & Hx & _). apply list_elem_of_lookup_2 in Hx.
  apply list_elem_of_fmap in Hx as ([y q] & -> & Hy). apply zsorted_elem in Hy. cbn in Hy. by eexists.
Qed.

Lemma lowest_length m n : length (take n (zsorted m).*1) = (n `min` size m)%nat.
Proof. rewrite length_take, length_fmap. unfold zsorted. by rewrite merge_sort_Permutation, length_map_to_list. Qed.

Lemma trim_size m : size (trim m) = (size m `min` window)%nat.
Proof.
  unfold trim. rewrite size_zrem_all.
  - rewrite lowest_length. lia.
  - eapply sublist_NoDup; [apply zsorted_nodup|apply sublist_take].
  - apply lowest_in.
Qed.

Lemma trim_small m : (size m ≤ window)%nat → trim m = m.
Proof. intros Hm. unfold trim. by replace (size m - window)%nat with 0%nat by lia. Qed.

(** The counter beside a view: absent or an integer. *)
Definition evicted (t : Q) (r : Redis) (k : string) : Z :=
  match live t r (evicted_key k) with Some (mkEntry (RInt z) _) => z | _ => 0 end.
Definition evicted_ok (t : Q) (r : Redis) (k : string) : Prop :=
  match live t r (evicted_key k) with None => True | Some e => ∃ z, e_val e = RInt z end.

Lemma evicted_ext t r r' k : r !! evicted_key k = r' !! evicted_key k →
  evicted t r k = evicted t r' k ∧ (evicted_ok t r k ↔ evicted_ok t r' k).
Proof. intros E. unfold evicted, evicted_ok, live. by rewrite E. Qed.

Lemma incrby_evicted t r k n :
  evicted_ok t r k →
  ∃ r', r_incrby t (evicted_key k) n r = Ok ((evicted t r k + n)%Z, r') ∧
    evicted t r' k = (evicted t r k + n)%Z ∧ evicted_ok t r' k ∧ ∀ k', k' ≠ evicted_key k → r' !! k' = r !! k'.
Proof.
  unfold evicted_ok, evicted, r_incrby. destruct (live t r (evicted_key k)) as [[v ex]|] eqn:E.
  - intros [z Hz]. cbn in Hz. subst v. cbn. eexists. split; [done|].
    assert (Hl : live t (<[evicted_key k:=mkEntry (RInt (z + n)) ex]> r) (evicted_key k) = Some (mkEntry (RInt (z + n)) ex)).
    { unfold live in *. rewrite lookup_insert_eq. destruct (r !! evicted_key k) as [e0|]; [|done].
      destruct (expired t e0) eqn:Ex; [done|]. injection E as ->. unfold expired in *. cbn in *. by rewrite Ex. }
    rewrite Hl. split_and!; [done|by eexists|]. intros k' Hk'. by rewrite lookup_insert_ne.
  - intros _. eexists. split; [done|]. unfold live. rewrite lookup_insert_eq. cbn.
    split_and!; [done|by eexists|]. intros k' Hk'. by rewrite lookup_insert_ne.
Qed.

Lemma expire_evicted t r k d : (0 < d)%Q →
  evicted t (r_expire t (evicted_key k) d r) k = evicted t r k ∧
  (evicted_ok t (r_expire t (evicted_key k) d r) k ↔ evicted_ok t r k).
Proof.
  intros Hd. unfold r_expire. destruct (live t r (evicted_key k)) as [[v ex]|] eqn:E; [|done].
  unfold evicted, evicted_ok. rewrite E. unfold live. rewrite lookup_insert_eq. unfold expired. cbn.
  by rewrite expires_later.
Qed.

(** Adding one job to one view: the set is trimmed to the window, what is trimmed is
    counted, and no other key is touched. *)
Lemma project_spec t k j s r :
  evicted_ok t r k → k ≠ evicted_key k →
  ∃ r', project window t k j s r = Ok r' ∧
    r_zset t k r' = Ok (trim (<[j := s]> (view t r k))) ∧
    evicted t r' k = (evicted t r k + Z.of_nat (size (<[j := s]> (view t r k)) - window))%Z ∧
    evicted_ok t r' k ∧
    ∀ k', k' ≠ k → k' ≠ evicted_key k → r' !! k' = r !! k'.
Proof.
  intros Hev Hk. set (m1 := <[j := s]> (view t r k)). assert (Hd : (0 < READ_MODEL_TTL_SECONDS)%Q) by done.
  unfold project. rewrite zcall_zadd. cbn [mbind result_mbind].
  fold m1. set (r1 := put_zset t k m1 (drop_legacy t k r)).
  assert (Hr1 : ∀ k', k' ≠ k → r1 !! k' = r !! k').
  { intros k' Hk'. unfold r1. by rewrite lookup_put_zset_ne, lookup_drop_legacy. }
  assert (Hv1 : view t r1 k = m1) by apply view_put.
  assert (Hd1 : drop_legacy t k r1 = r1) by apply drop_put.
  rewrite zcall_zcard, Hv1, Hd1. cbn [mbind result_mbind].
  destruct (evicted_ext t r r1 k ltac:(symmetry; apply Hr1; done)) as [He1 Ho1].
  destruct (Nat.ltb_spec window (size m1)) as [Hover|Hroom].
  - rewrite zcall_zrem_lowest. cbn [mbind result_mbind].
    rewrite Hv1, Hd1, lowest_length. fold (trim m1). set (r2 := put_zset t k (trim m1) r1).
    replace ((size m1 - window) `min` size m1)%nat with (size m1 - window)%nat by lia.
    destruct (Nat.ltb_spec 0 (size m1 - window)); [|lia].
    assert (Hr2 : ∀ k', k' ≠ k → r2 !! k' = r !! k').
    { intros k' Hk'. unfold r2. rewrite lookup_put_zset_ne by done. by apply Hr1. }
    destruct (evicted_ext t r r2 k ltac:(symmetry; apply Hr2; done)) as [He2 Ho2].
    destruct (incrby_evicted t r2 k (Z.of_nat (size m1 - window)) (proj1 Ho2 Hev)) as (r3 & Hinc & He3 & Ho3 & Hr3).
    rewrite Hinc. cbn [mbind result_mbind snd].
    destruct (expire_evicted t r3 k READ_MODEL_TTL_SECONDS Hd) as [He4 Ho4].
    set (r4 := r_expire t (evicted_key k) READ_MODEL_TTL_SECONDS r3) in *.
    assert (Hr4 : ∀ k', k' ≠ evicted_key k → r4 !! k' = r2 !! k').
    { intros k' Hk'. unfold r4. rewrite lookup_expire_ne by done. by apply Hr3. }
    eexists. split; [done|].
    destruct (evicted_ext t r4 (r_expire t k READ_MODEL_TTL_SECONDS r4) k) as [He5 Ho5].
    { symmetry. by apply lookup_expire_ne. }
    split_and!.
    + rewrite zset_expire, (zset_ext t r4 r2) by (done || by apply Hr4). apply zset_put.
    + rewrite <- He5, He4, He3, <- He2. done.
    + apply Ho5, Ho4, Ho3.
    + intros k' H1 H2. rewrite lookup_expire_ne, Hr4 by done. by apply Hr2.
  - cbn [mbind result_mbind]. eexists. split; [done|].
    destruct (evicted_ext t r1 (r_expire t k READ_MODEL_TTL_SECONDS r1) k) as [He5 Ho5].
    { symmetry. by apply lookup_expire_ne. }
    split_and!.
    + rewrite zset_expire, trim_small by done. apply zset_put.
    + rewrite <- He5, <- He1. replace (size m1 - window)%nat with 0%nat by lia. lia.
    + by apply Ho5, Ho1.
    + intros k' H1 H2. rewrite lookup_expire_ne by done. by apply Hr1.
Qed.
End Trim.

(** ** The handler, step by step *)

Lemma view_drop t k k' r : view t (drop_legacy t k r) k' = view t r k'.
Proof.
  destruct (decide (k' = k)) as [->|Hk]; [|apply view_ext; by apply lookup_drop_legacy].
  unfold view at 1. by rewrite zset_dropped.
Qed.

Lemma zrem_step t k j r :
  ∃ r', zcall k (r_zrem t k j) r = Ok r' ∧ r_zset t k r' = Ok (delete j (view t r k)) ∧ ∀ k', k' ≠ k → r' !! k' = r !! k'.
Proof.
  eexists. rewrite zcall_zrem. split; [done|]. split; [apply zset_put|].
  intros k' Hk'. by rewrite lookup_put_zset_ne, lookup_drop_legacy.
Qed.

(** The job leaves every other status of its tenant and of its user. *)
Lemma clear_others_spec t T U j new sts r :
  NoDup sts → (∀ s, s ∈ sts → s ∈ TRACKED_STATUSES) →
  ∃ r', clear_others t T U j new sts r = Ok r' ∧
    (∀ st, st ∈ sts → st ≠ new →
       r_zset t (tenant_key T st) r' = Ok (delete j (view t r (tenant_key T st))) ∧
       r_zset t (user_key U st) r' = Ok (delete j (view t r (user_key U st)))) ∧
    (∀ k, (∀ st, st ∈ sts → st ≠ new → k ≠ tenant_key T st ∧ k ≠ user_key U st) → r' !! k = r !! k).
Proof.
  revert r. induction sts as [|s sts IH]; intros r Hnd Hin.
  { exists r. split_and!; [done| |done]. intros st Hst. by apply not_elem_of_nil in Hst. }
  apply NoDup_cons in Hnd as [Hs Hnd].
  assert (Hin' : ∀ s, s ∈ sts → s ∈ TRACKED_STATUSES) by (intros; apply Hin; by right).
  assert (Hsin : s ∈ TRACKED_STATUSES) by (apply Hin; left).
  cbn [clear_others]. case_bool_decide as Hnew.
  { cbn [mbind result_mbind]. destruct (IH r Hnd Hin') as (r' & -> & Hv & Hf). exists r'. split_and!; [done| |].
    - intros st [->|Hst]%elem_of_cons Hne; [done|by apply Hv].
    - intros k Hk. apply Hf. intros st Hst. apply Hk. by right. }
  destruct (zrem_step t (tenant_key T s) j r) as (r1 & -> & Hv1 & Hf1). cbn [mbind result_mbind].
  destruct (zrem_step t (user_key U s) j r1) as (r2 & -> & Hv2 & Hf2). cbn [mbind result_mbind].
  destruct (IH r2 Hnd Hin') as (r' & -> & Hv & Hf). exists r'.
  assert (Hother : ∀ k, k ≠ tenant_key T s → k ≠ user_key U s → r2 !! k = r !! k).
  { intros k H1 H2. by rewrite Hf2, Hf1. }
  assert (Htk : ∀ st, st ∈ sts → tenant_key T st ≠ tenant_key T s).
  { intros st Hst E. apply tenant_key_inj in E as [_ ->]; [done|by apply Hin'|done]. }
  assert (Huk : ∀ st, st ∈ sts → user_key U st ≠ user_key U s).
  { intros st Hst E. apply user_key_inj in E as [_ ->]; [done|by apply Hin'|done]. }
  split_and!; [done| |].
  - intros st [->|Hst]%elem_of_cons Hne.
    + rewrite !(zset_ext t r' r2).
      * rewrite Hv2, (zset_ext t r2 r1 (tenant_key T s)) by (apply Hf2; done).
        rewrite Hv1, (view_ext t r1 r (user_key U s)) by (apply Hf1; done). done.
      * apply Hf. intros st Hst _. split; [done|]. by apply not_eq_sym, Huk.
      * apply Hf. intros st Hst _. split; [|done]. by apply not_eq_sym, Htk.
    + destruct (Hv st Hst Hne) as [-> ->].
      rewrite !(view_ext t r2 r); [done|apply Hother; [done|by apply Huk]|apply Hother; [by apply Htk|done]].
  - intros k Hk. rewrite Hf; [|intros st Hst; apply Hk; by right].
    destruct (Hk s ltac:(left) Hnew). by apply Hother.
Qed.

Definition shown (t : Q) (r : Redis) (k j : string) : bool := bool_decide (is_Some (view t r k !! j)).

(** The guard looks, and drops at most legacy keys of the tenant on the way. *)
Lemma in_terminal_spec t T j sts r :
  ∃ r', in_terminal t T j sts r = Ok (existsb (λ st, shown t r (tenant_key T st) j) sts, r') ∧
    (∀ k, view t r' k = view t r k) ∧
    (∀ k, (∀ st, st ∈ sts → k ≠ tenant_key T st) → r' !! k = r !! k).
Proof.
  revert r. induction sts as [|s sts IH]; intros r; [by exists r|]. cbn [in_terminal existsb].
  rewrite zcall_zscore. cbn [mbind result_mbind]. unfold shown at 1.
  destruct (view t r (tenant_key T s) !! j) as [q|] eqn:E.
  - rewrite bool_decide_true by (by eexists). cbn. eexists. split; [done|]. split; [intros k; apply view_drop|].
    intros k Hk. apply lookup_drop_legacy. apply Hk. left.
  - rewrite bool_decide_false by (by intros [? ?]). cbn [orb].
    destruct (IH (drop_legacy t (tenant_key T s) r)) as (r' & -> & Hv & Hf). exists r'. split_and!.
    + do 2 f_equal. apply existsb_same. intros st. unfold shown. by rewrite view_drop.
    + intros k. by rewrite Hv, view_drop.
    + intros k Hk. rewrite Hf by (intros st Hst; apply Hk; by right). apply lookup_drop_legacy, Hk. left.
Qed.

(** ** What one accepted event does *)

Lemma implied_tracked event value new : implied_status event value = Some new → new ∈ TRACKED_STATUSES.
Proof.
  assert (Hall : ∀ s, s = "running" ∨ s = "completed" ∨ s = "failed" ∨ s = "dead_letter" ∨ s = "cancelled" →
    s ∈ TRACKED_STATUSES) by (unfold TRACKED_STATUSES; set_solver).
  unfold implied_status, event_to_status. repeat case_bool_decide; intros [= <-]; apply Hall; auto.
  destruct (dget value "dead_lettered") as [[| [] | | | | |]|]; auto.
Qed.

Section Effects.
Context (window : nat).

Definition status_keys (T U : string) (k : string) : Prop :=
  ∃ st, st ∈ TRACKED_STATUSES ∧ (k = tenant_key T st ∨ k = user_key U st).

Record moved (t : Q) (T U j new : string) (r r' : Redis) : Prop := {
  moved_sets k st : st ∈ TRACKED_STATUSES → k = tenant_key T st ∨ k = user_key U st →
    r_zset t k r' = Ok (if bool_decide (st = new) then trim window (<[j := t]> (view t r k)) else delete j (view t r k));
  moved_evicted k st : st ∈ TRACKED_STATUSES → k = tenant_key T st ∨ k = user_key U st →
    evicted t r' k = (evicted t r k + if bool_decide (st = new)
                                      then Z.of_nat (size (<[j := t]> (view t r k)) - window) else 0)%Z;
  moved_frame k : ¬ status_keys T U k →
    k ≠ evicted_key (tenant_key T new) → k ≠ evicted_key (user_key U new) → r' !! k = r !! k;
  moved_ok k : evicted_ok t r k → evicted_ok t r' k
}.

Lemma evicted_not_status T U k : ¬ status_keys T U (evicted_key k).
Proof. intros (st & Hst & [E|E]); [by apply evicted_tenant_key in E|by apply evicted_user_key in E]. Qed.

Lemma move_spec t T U j new r :
  new ∈ TRACKED_STATUSES → evicted_ok t r (tenant_key T new) → evicted_ok t r (user_key U new) →
  ∃ r', move window t T U j new None r = Ok r' ∧ moved t T U j new r r'.
Proof.
  intros Hnew Hok1 Hok2. unfold move. cbn [default from_option id].
  destruct (clear_others_spec t T U j new TRACKED_STATUSES r) as (r0 & -> & Hv0 & Hf0).
  { refine (bool_decide_eq_true_1 _ _). vm_compute. reflexivity. }
  { done. }
  cbn [mbind result_mbind]. set (kt := tenant_key T new). set (ku := user_key U new).
  assert (Hnt : ∀ st, st ∈ TRACKED_STATUSES → st ≠ new → kt ≠ tenant_key T st ∧ kt ≠ user_key U st).
  { intros st Hst Hne. split; [|done]. intros E. by apply tenant_key_inj in E as [_ <-]. }
  assert (Hnu : ∀ st, st ∈ TRACKED_STATUSES → st ≠ new → ku ≠ tenant_key T st ∧ ku ≠ user_key U st).
  { intros st Hst Hne. split; [done|]. intros E. by apply user_key_inj in E as [_ <-]. }
  assert (Hev0 : ∀ k, r0 !! evicted_key k = r !! evicted_key k).
  { intros k. apply Hf0. intros st Hst _. by split; [apply evicted_tenant_key|apply evicted_user_key]. }
  assert (Hke : ∀ k, kt ≠ evicted_key k ∧ ku ≠ evicted_key k).
  { intros k. split; apply not_eq_sym; [by apply evicted_tenant_key|by apply evicted_user_key]. }
  destruct (project_spec window t kt j t r0) as (r1 & -> & Hv1 & He1 & Ho1 & Hf1).
  { by apply (evicted_ext t r0 r kt (Hev0 kt)). }
  { apply Hke. }
  cbn [mbind result_mbind].
  assert (Hev1 : ∀ k, k ≠ kt → r1 !! evicted_key k = r0 !! evicted_key k).
  { intros k Hk. apply Hf1; [apply not_eq_sym, Hke|]. intros E. by apply evicted_key_inj in E. }
  destruct (project_spec window t ku j t r1) as (r2 & -> & Hv2 & He2 & Ho2 & Hf2).
  { apply (evicted_ext t r1 r0 ku (Hev1 ku ltac:(done))). by apply (evicted_ext t r0 r ku (Hev0 ku)). }
  { apply Hke. }
  assert (Hev2 : ∀ k, k ≠ ku → r2 !! evicted_key k = r1 !! evicted_key k).
  { intros k Hk. apply Hf2; [apply not_eq_sym, Hke|]. intros E. by apply evicted_key_inj in E. }
  assert (Hkt2 : r2 !! kt = r1 !! kt) by (apply Hf2; [done|apply Hke]).
  assert (Hku1 : r1 !! ku = r0 !! ku) by (apply Hf1; [done|apply Hke]).
  assert (Hkt0 : r0 !! kt = r !! kt) by (by apply Hf0).
  assert (Hku0 : r0 !! ku = r !! ku) by (by apply Hf0).
  exists r2. split; [done|]. split.
  - intros k st Hst Hk. case_bool_decide as Hne.
    + subst st. destruct Hk as [->| ->].
      * fold kt. by rewrite (zset_ext t r2 r1 kt Hkt2), Hv1, (view_ext t r0 r kt Hkt0).
      * fold ku. by rewrite Hv2, (view_ext t r1 r0 ku Hku1), (view_ext t r0 r ku Hku0).
    + destruct (Hnt st Hst Hne) as [H1 H2], (Hnu st Hst Hne) as [H3 H4], (Hv0 st Hst Hne) as [Hvt Hvu].
      assert (Hr2 : r2 !! k = r0 !! k).
      { assert (Hkne : k ≠ kt ∧ k ≠ ku ∧ ∀ k', k ≠ evicted_key k').
        { destruct Hk as [->| ->]; split_and!; try (by apply not_eq_sym); intros k'; apply not_eq_sym;
            [by apply evicted_tenant_key|by apply evicted_user_key]. }
        destruct Hkne as (? & ? & ?). by rewrite Hf2, Hf1. }
      rewrite (zset_ext t r2 r0 k Hr2). by destruct Hk as [->| ->].
  - intros k st Hst Hk.
    assert (Hcases : k = kt ∨ k = ku ∨ (k ≠ kt ∧ k ≠ ku)) by (destruct (decide (k = kt)), (decide (k = ku)); auto).
    destruct Hcases as [->|[->|[H1 H2]]].
    + rewrite (proj1 (evicted_ext t r2 r1 kt (Hev2 kt ltac:(done)))), He1.
      assert (st = new) as ->.
      { destruct Hk as [E|E]; [by apply tenant_key_inj in E as [_ ->]|done]. }
      rewrite bool_decide_true by done.
      by rewrite (proj1 (evicted_ext t r0 r kt (Hev0 kt))), (view_ext t r0 r kt Hkt0).
    + rewrite He2, (proj1 (evicted_ext t r1 r0 ku (Hev1 ku ltac:(done)))).
      assert (st = new) as ->.
      { destruct Hk as [E|E]; [done|by apply user_key_inj in E as [_ ->]]. }
      rewrite bool_decide_true by done.
      by rewrite (proj1 (evicted_ext t r0 r ku (Hev0 ku))), (view_ext t r1 r0 ku Hku1), (view_ext t r0 r ku Hku0).
    + rewrite bool_decide_false by (intros ->; destruct Hk as [->| ->]; done).
      rewrite (proj1 (evicted_ext t r2 r1 k (Hev2 k H2))), (proj1 (evicted_ext t r1 r0 k (Hev1 k H1))),
        (proj1 (evicted_ext t r0 r k (Hev0 k))). lia.
  - intros k Hk He Hu. rewrite Hf2, Hf1; [apply Hf0|..]; try done.
    + intros st Hst _. split; intros ->; apply Hk; exists st; eauto.
    + intros ->. apply Hk. exists new. eauto.
    + intros ->. apply Hk. exists new. eauto.
  - intros k Hk. destruct (decide (k = ku)) as [->|H2]; [done|].
    apply (evicted_ext t r2 r1 k (Hev2 k H2)). destruct (decide (k = kt)) as [->|H1]; [done|].
    apply (evicted_ext t r1 r0 k (Hev1 k H1)). by apply (evicted_ext t r0 r k (Hev0 k)).
Qed.

(** Dropping legacy keys first changes nothing. *)
Lemma moved_before t T U j new r r0 r' :
  (∀ k, view t r0 k = view t r k) → (∀ k, ¬ status_keys T U k → r0 !! k = r !! k) →
  moved t T U j new r0 r' → moved t T U j new r r'.
Proof.
  intros Hv Hf [Hs He Hfr Hok].
  assert (Hev : ∀ k, evicted t r0 k = evicted t r k ∧ (evicted_ok t r0 k ↔ evicted_ok t r k)).
  { intros k. apply evicted_ext, Hf, evicted_not_status. }
  split.
  - intros k st Hst Hk. by rewrite (Hs k st Hst Hk), Hv.
  - intros k st Hst Hk. by rewrite (He k st Hst Hk), Hv, (proj1 (Hev k)).
  - intros k Hk H1 H2. rewrite Hfr, Hf by done. done.
  - intros k Hk. by apply Hok, Hev.
Qed.

(** The handler on an event that implies a status: ignored, or the job is moved. *)
Lemma handle_cases t value r j U T event new :
  field value "job_id" = Some j → field value "user_id" = Some U → field value "tenant_id" = Some T →
  field value "event" = Some event → implied_status event value = Some new → (∀ k, evicted_ok t r k) →
  ∃ r', projector_handle_message window t value r = Ok r' ∧
    if bool_decide (new ∉ TERMINAL_STATUSES) && existsb (λ st, shown t r (tenant_key T st) j) TERMINAL_STATUSES
    then (∀ k, view t r' k = view t r k) ∧ (∀ k, evicted_ok t r' k)
    else moved t T U j new r r'.
Proof.
  intros Hj HU HT He Hnew Hok. unfold projector_handle_message. rewrite Hj, HU, HT, He, Hnew.
  apply implied_tracked in Hnew. destruct (decide (new ∈ TERMINAL_STATUSES)) as [Hterm|Hterm].
  - rewrite (bool_decide_true (new ∈ _)) by done. rewrite (bool_decide_false (new ∉ _)) by (by intros []).
    cbn [mbind result_mbind fst snd andb]. by apply move_spec.
  - rewrite (bool_decide_false (new ∈ _)), (bool_decide_true (new ∉ _)) by done. cbn [andb].
    destruct (in_terminal_spec t T j TERMINAL_STATUSES r) as (r0 & -> & Hv0 & Hf0). cbn [mbind result_mbind fst snd].
    assert (Hf : ∀ k, ¬ status_keys T U k → r0 !! k = r !! k).
    { intros k Hk. apply Hf0. intros st Hst ->. apply Hk. exists st. split; [|by left].
      revert Hst. unfold TERMINAL_STATUSES, TRACKED_STATUSES. set_solver. }
    assert (Hok0 : ∀ k, evicted_ok t r0 k).
    { intros k. apply (evicted_ext t r0 r k); [|done]. apply Hf, evicted_not_status. }
    destruct (existsb _ TERMINAL_STATUSES); [by exists r0|].
    destruct (move_spec t T U j new r0 Hnew (Hok0 _) (Hok0 _)) as (r' & -> & Hm).
    exists r'. split; [done|]. by apply (moved_before _ _ _ _ _ r r0).
Qed.
End Effects.

(** ** The specification: a map from jobs to statuses *)

(** What the views mean: the status of each job, by tenant and by user. *)
Record Statuses := mkStatuses {
  by_tenant : gmap (string * string) string;
  by_user : gmap (string * string) string
}.

(** A finished job is moved only by a terminal event; any other event sets the status
    of its job. *)
Definition status_step (value : dict) (S : Statuses) : Statuses :=
  match field value "job_id", field value "user_id", field value "tenant_id", field value "event" with
  | Some j, Some U, Some T, Some event =>
      match implied_status event value with
      | None => S
      | Some new =>
          let finished := match by_tenant S !! (T, j) with
                          | Some st => bool_decide (st ∈ TERMINAL_STATUSES)
                          | None => false
                          end in
          if bool_decide (new ∉ TERMINAL_STATUSES) && finished then S
          else mkStatuses (<[(T, j) := new]> (by_tenant S)) (<[(U, j) := new]> (by_user S))
      end
  | _, _, _, _ => S
  end.

(** The views show a status map. *)
Definition shows (t : Q) (r : Redis) (S : Statuses) : Prop :=
  ∀ a st j, st ∈ TRACKED_STATUSES →
    (is_Some (view t r (tenant_key a st) !! j) ↔ by_tenant S !! (a, j) = Some st) ∧
    (is_Some (view t r (user_key a st) !! j) ↔ by_user S !! (a, j) = Some st).

Section Refinement.
Context (window : nat).

(** The members of one key after a move. *)
Lemma moved_member t T U j new r r' k st x :
  moved window t T U j new r r' → (∀ k, (size (view t r k) < window)%nat) →
  st ∈ TRACKED_STATUSES → k = tenant_key T st ∨ k = user_key U st →
  (is_Some (view t r' k !! x) ↔
   if decide (x = j) then st = new else is_Some (view t r k !! x)).
Proof.
  intros Hm Hroom Hst Hk. rewrite (zset_view _ _ _ _ (moved_sets _ _ _ _ _ _ _ _ Hm k st Hst Hk)).
  assert (Htrim : trim window (<[j:=t]> (view t r k)) = <[j:=t]> (view t r k)).
  { apply trim_small. specialize (Hroom k). rewrite map_size_insert. destruct (view t r k !! j); cbn; lia. }
  rewrite Htrim. case_bool_decide as Hn; destruct (decide (x = j)) as [->|Hx].
  - rewrite lookup_insert_eq. split; [done|]. intros _. by eexists.
  - by rewrite lookup_insert_ne.
  - rewrite lookup_delete_eq. split; [intros [? ?]; done|done].
  - by rewrite lookup_delete_ne.
Qed.

(** The keys of another tenant or user are not touched. *)
Lemma moved_other_tenant t T U j new r r' a st :
  moved window t T U j new r r' → st ∈ TRACKED_STATUSES → a ≠ T →
  view t r' (tenant_key a st) = view t r (tenant_key a st).
Proof.
  intros Hm Hst Ha. apply view_ext, (moved_frame _ _ _ _ _ _ _ _ Hm).
  - intros (st' & Hst' & [E|E]); [|done]. by apply tenant_key_inj in E as [? _].
  - by apply not_eq_sym, evicted_tenant_key.
  - by apply not_eq_sym, evicted_tenant_key.
Qed.

Lemma moved_other_user t T U j new r r' a st :
  moved window t T U j new r r' → st ∈ TRACKED_STATUSES → a ≠ U →
  view t r' (user_key a st) = view t r (user_key a st).
Proof.
  intros Hm Hst Ha. apply view_ext, (moved_frame _ _ _ _ _ _ _ _ Hm).
  - intros (st' & Hst' & [E|E]); [done|]. by apply user_key_inj in E as [? _].
  - by apply not_eq_sym, evicted_user_key.
  - by apply not_eq_sym, evicted_user_key.
Qed.

Lemma moved_shows t T U j new r r' S :
  moved window t T U j new r r' → (∀ k, (size (view t r k) < window)%nat) → shows t r S →
  shows t r' (mkStatuses (<[(T, j) := new]> (by_tenant S)) (<[(U, j) := new]> (by_user S))).
Proof.
  intros Hm Hroom Hs a st x Hst. destruct (Hs a st x Hst) as [Ht Hu]. cbn. split.
  - destruct (decide (a = T)) as [->|Ha].
    + rewrite (moved_member t T U j new r r' _ st x Hm Hroom Hst) by (by left).
      destruct (decide (x = j)) as [->|Hx].
      * rewrite lookup_insert_eq. split; [by intros ->|by intros [= ->]].
      * rewrite lookup_insert_ne by congruence. done.
    + rewrite (moved_other_tenant _ _ _ _ _ _ _ _ _ Hm Hst Ha), lookup_insert_ne by congruence. done.
  - destruct (decide (a = U)) as [->|Ha].
    + rewrite (moved_member t T U j new r r' _ st x Hm Hroom Hst) by (by right).
      destruct (decide (x = j)) as [->|Hx].
      * rewrite lookup_insert_eq. split; [by intros ->|by intros [= ->]].
      * rewrite lookup_insert_ne by congruence. done.
    + rewrite (moved_other_user _ _ _ _ _ _ _ _ _ Hm Hst Ha), lookup_insert_ne by congruence. done.
Qed.

(** The guard decides what the specification asks. *)
Lemma guard_decides t T j r S :
  shows t r S →
  existsb (λ st, shown t r (tenant_key T st) j) TERMINAL_STATUSES =
  match by_tenant S !! (T, j) with Some st => bool_decide (st ∈ TERMINAL_STATUSES) | None => false end.
Proof.
  intros Hs. assert (Hsub : ∀ st, st ∈ TERMINAL_STATUSES → st ∈ TRACKED_STATUSES)
    by (unfold TERMINAL_STATUSES, TRACKED_STATUSES; set_solver).
  apply eq_bool_prop_intro. rewrite Is_true_true, existsb_exists. split.
  - intros (st & Hin%list_elem_of_In & Hsh). apply bool_decide_eq_true in Hsh.
    apply (Hs T st j (Hsub st Hin)) in Hsh. rewrite Hsh. by apply bool_decide_pack.
  - destruct (by_tenant S !! (T, j)) as [st|] eqn:E; [|done]. intros Hin%bool_decide_unpack.
    exists st. split; [by apply list_elem_of_In|]. apply bool_decide_true. by apply (Hs T st j (Hsub st Hin)).
Qed.

(** C8: The projector implements the status map: while no view is full, handling any
    event succeeds and takes views that show a map to views that show the map after the
    event, for every tenant and user at once. *)
Theorem projector_refines_statuses t value r S :
  shows t r S → (∀ k, evicted_ok t r k) → (∀ k, (size (view t r k) < window)%nat) →
  ∃ r', projector_handle_message window t value r = Ok r' ∧ shows t r' (status_step value S) ∧
    ∀ k, evicted_ok t r' k.
Proof.
  intros Hs Hok Hroom. unfold projector_handle_message, status_step.
  destruct (field value "job_id") as [j|] eqn:EJ; [|by exists r]. destruct (field value "user_id") as [U|] eqn:EU; [|by exists r].
  destruct (field value "tenant_id") as [T|] eqn:ET; [|by exists r]. destruct (field value "event") as [event|] eqn:EE; [|by exists r].
  destruct (implied_status event value) as [new|] eqn:Enew; [|by exists r].
  pose proof (handle_cases window t value r j U T event new) as Hcase. unfold projector_handle_message in Hcase.
  rewrite EJ, EU, ET, EE, Enew in Hcase. destruct (Hcase eq_refl eq_refl eq_refl eq_refl eq_refl Hok) as (r' & -> & Hr').
  exists r'. split; [done|]. rewrite <- (guard_decides t T j r S Hs).
  destruct (bool_decide _ && existsb _ _).
  - destruct Hr' as [Hv Hok']. split; [|done]. intros a st x Hst. rewrite !Hv. by apply Hs.
  - split; [by apply (moved_shows t T U j new r)|]. intros k. by apply (moved_ok _ _ _ _ _ _ _ _ Hr').
Qed.

(** ** Counts *)

(** What [_member_count] answers for a key that is not of a legacy type. *)
Lemma member_count_counts t r k m :
  r_zset t k r = Ok m → evicted_ok t r k → member_count t k r = Ok (Z.of_nat (size m) + evicted t r k)%Z.
Proof.
  intros Hz Hok. unfold member_count, r_zcard. rewrite Hz. cbn [mbind result_mbind]. unfold r_get.
  unfold evicted_ok, evicted in *. destruct (live t r (evicted_key k)) as [[v ex]|]; cbn; [|f_equal; lia].
  by destruct Hok as [z [= ->]].
Qed.

Definition membership (t : Q) (r : Redis) (k j : string) : Z := if shown t r k j then 1 else 0.

(** The views stay within their window and the counts stay exact: an event that is
    not ignored adds one to the count of its status unless the job was shown there, and
    takes one from each other status that showed the job, for its tenant and its user;
    trimming moves members into the evicted count and never changes a count. *)
Theorem projection_counts_exact t value r j U T event new :
  field value "job_id" = Some j → field value "user_id" = Some U → field value "tenant_id" = Some T →
  field value "event" = Some event → implied_status event value = Some new → (∀ k, evicted_ok t r k) →
  new ∈ TERMINAL_STATUSES ∨ (∀ st, st ∈ TERMINAL_STATUSES → shown t r (tenant_key T st) j = false) →
  ∃ r', projector_handle_message window t value r = Ok r' ∧
    ∀ k st m, st ∈ TRACKED_STATUSES → k = tenant_key T st ∨ k = user_key U st → r_zset t k r = Ok m →
      member_count t k r' =
        (n ← member_count t k r;
         Ok (n + if bool_decide (st = new) then 1 - membership t r k j else - membership t r k j))%Z ∧
      (st = new → (size (view t r' k) ≤ window)%nat).
Proof.
  intros HJ HU HT HE Hnew Hok Hfree. destruct (handle_cases window t value r j U T event new HJ HU HT HE Hnew Hok)
    as (r' & Hr' & Hm). exists r'. split; [done|].
  assert (Hng : bool_decide (new ∉ TERMINAL_STATUSES) && existsb (λ st, shown t r (tenant_key T st) j) TERMINAL_STATUSES = false).
  { destruct Hfree as [Hin|Hnone]; [by rewrite bool_decide_false by (by intros [])|].
    apply andb_false_iff. right. apply not_true_iff_false. rewrite existsb_exists.
    intros (st & Hin%list_elem_of_In & Hsh). by rewrite Hnone in Hsh. }
  rewrite Hng in Hm. intros k st m Hst Hk Hz.
  pose proof (moved_sets _ _ _ _ _ _ _ _ Hm k st Hst Hk) as Hset. pose proof (zset_view _ _ _ _ Hz) as Hv.
  rewrite (member_count_counts t r' k _ Hset) by (by apply (moved_ok _ _ _ _ _ _ _ _ Hm)).
  rewrite (member_count_counts t r k m Hz) by done. cbn [mbind result_mbind].
  rewrite (moved_evicted _ _ _ _ _ _ _ _ Hm k st Hst Hk). unfold membership, shown. rewrite Hv.
  case_bool_decide as Hn.
  - split.
    + f_equal. rewrite trim_size, map_size_insert. destruct (m !! j) as [q|] eqn:Ej.
      * rewrite bool_decide_true by (by eexists). cbn. lia.
      * rewrite bool_decide_false by (by intros [? ?]). lia.
    + intros _. rewrite (zset_view _ _ _ _ Hset), Hv, trim_size. lia.
  - split; [|done]. f_equal. destruct (m !! j) as [q|] eqn:Ej.
    + rewrite bool_decide_true by (by eexists). rewrite map_size_delete_Some by (by rewrite Ej).
      destruct (decide (size m = 0%nat)) as [E0|]; [|lia].
      apply map_size_empty_inv in E0. by rewrite E0, lookup_empty in Ej.
    + rewrite bool_decide_false by (by intros [? ?]). rewrite delete_id by done. lia.
Qed.
End Refinement.

(** ** Rebuilding *)

Lemma foldl_insert_map (l : list (string * Q)) :
  foldl (λ m ms, <[ms.1 := ms.2]> m) (∅ : gmap string Q) l = list_to_map (rev l).
Proof.
  induction l as [|[k q] l IH] using rev_ind; [done|].
  rewrite foldl_app, rev_app_distr, IH. done.
Qed.

Lemma size_insert_all (l : list (string * Q)) :
  NoDup l.*1 → size (foldl (λ m ms, <[ms.1 := ms.2]> m) (∅ : gmap string Q) l) = length l.
Proof.
  intros Hnd. assert (Hnd' : NoDup (rev l).*1) by (by rewrite <- (Permutation_rev l)).
  rewrite foldl_insert_map, <- length_map_to_list, map_to_list_to_map by done. apply length_rev.
Qed.

Lemma fresh_zset t k r : r !! k = None → r_zset t k r = Ok ∅.
Proof. intros E. unfold r_zset, live. by rewrite E. Qed.

Lemma not_expired t t' (d : Q) : (t' < t + d)%Q → Qle_bool (t + d) t' = false.
Proof. intros Hlt. apply not_true_iff_false. rewrite Qle_bool_iff. lra. Qed.

(** One group, written into a clean keyspace, is counted in full until it expires. *)
Lemma rebuild_key_spec t t' key total retained r :
  r !! key = None → r !! evicted_key key = None → key ≠ evicted_key key →
  NoDup retained.*1 → (length retained ≤ total)%nat → (t' < t + READ_MODEL_TTL_SECONDS)%Q →
  ∃ r', rebuild_key t key total retained r = Ok r' ∧ member_count t' key r' = Ok (Z.of_nat total) ∧
    ∀ k, k ≠ key → k ≠ evicted_key key → r' !! k = r !! k.
Proof.
  intros Hk He Hne Hnd Hlen Ht'. unfold rebuild_key.
  set (m := foldl (λ m ms, <[ms.1 := ms.2]> m) (∅ : gmap string Q) retained).
  assert (Hm : size m = length retained) by (by apply size_insert_all).
  assert (Hset : ∃ r1, (match retained with
       | [] => Ok r
       | _ => r ← r_zadd_all t key retained r; Ok (r_expire t key READ_MODEL_TTL_SECONDS r) end) = Ok r1 ∧
     r_zset t' key r1 = Ok m ∧ ∀ k, k ≠ key → r1 !! k = r !! k).
  { destruct retained as [|x xs]; [exists r; split_and!; [done|by apply fresh_zset|done]|].
    unfold r_zadd_all. rewrite fresh_zset by done. cbn [mbind result_mbind]. fold m.
    assert (Hmne : m ≠ ∅) by (intros E; by rewrite E, map_size_empty in Hm).
    eexists. split; [done|]. unfold put_zset. rewrite bool_decide_false by done. split.
    - unfold r_expire, live. rewrite lookup_insert_eq, Hk. cbn. unfold r_zset, live. rewrite lookup_insert_eq.
      unfold expired. cbn [e_exp e_val]. by rewrite not_expired.
    - intros k Hkk. by rewrite lookup_expire_ne, lookup_insert_ne. }
  destruct Hset as (r1 & -> & Hz1 & Hf1). cbn [mbind result_mbind]. eexists. split; [done|].
  assert (He1 : r1 !! evicted_key key = None) by (rewrite Hf1; [done|by apply not_eq_sym]).
  destruct (Nat.ltb_spec 0 (total - length retained)) as [Hev|Hev].
  - split.
    + rewrite (member_count_counts t' _ key m).
      * rewrite Hm. unfold evicted, live, r_set. rewrite lookup_insert_eq. unfold expired. cbn [e_exp fmap option_fmap option_map].
        rewrite not_expired by done. f_equal. lia.
      * rewrite <- Hz1. apply zset_ext. unfold r_set. by rewrite lookup_insert_ne.
      * unfold evicted_ok, live, r_set. rewrite lookup_insert_eq. unfold expired. cbn [e_exp fmap option_fmap option_map].
        rewrite not_expired by done. by eexists.
    + intros k H1 H2. unfold r_set. rewrite lookup_insert_ne by done. by apply Hf1.
  - split.
    + rewrite (member_count_counts t' _ key m) by (done || unfold evicted_ok, live; by rewrite He1).
      unfold evicted, live. rewrite He1, Hm. f_equal. lia.
    + intros k H1 _. by apply Hf1.
Qed.

(** The identifiers of the table are 128 bits wide and its rows are filed under theirs. *)
Definition table_ok (db : DB) : Prop :=
  ∀ i j, db_jobs db !! i = Some j →
    job_id j = i ∧ (i < uuid_bound)%N ∧ (job_tenant_id j < uuid_bound)%N ∧ (job_user_id j < uuid_bound)%N.

Lemma table_row db j : j ∈ (map_to_list (db_jobs db)).*2 ↔ ∃ i, db_jobs db !! i = Some j.
Proof.
  rewrite list_elem_of_fmap. split.
  - intros ([i x] & -> & Hx). exists i. by apply elem_of_map_to_list in Hx.
  - intros [i Hi]. exists (i, j). split; [done|]. by apply elem_of_map_to_list.
Qed.

Lemma table_ids_nodup db : table_ok db → NoDup (uuid_str ∘ job_id <$> (map_to_list (db_jobs db)).*2).
Proof.
  intros Hok. rewrite <- list_fmap_compose. apply NoDup_fmap_2_strong; [|apply NoDup_map_to_list].
  intros [i x] [i' x'] Hx Hx' E. apply elem_of_map_to_list in Hx, Hx'. cbn in E.
  destruct (Hok _ _ Hx) as (E1 & ? & _), (Hok _ _ Hx') as (E2 & ? & _).
  apply uuid_str_inj in E; [|by rewrite E1|by rewrite E2]. congruence.
Qed.

Section Rebuild.
Context (window : nat).

Section Scope.
Context (key_for : string → string → string) (scope : Job → uuid).
Context (key_inj : ∀ a b s s', s ∈ TRACKED_STATUSES → s' ∈ TRACKED_STATUSES → key_for a s = key_for b s' → a = b ∧ s = s').
Context (key_ev : ∀ k a s, s ∈ TRACKED_STATUSES → evicted_key k ≠ key_for a s).

Lemma members_ok tenant_id g db :
  table_ok db →
  NoDup (windowed_members window scope tenant_id g db).*1 ∧
  (length (windowed_members window scope tenant_id g db) ≤ length (group_rows scope g (tracked_rows tenant_id db)))%nat.
Proof.
  intros Hok. unfold windowed_members. split.
  - rewrite <- list_fmap_compose.
    eapply sublist_NoDup; [|apply fmap_sublist, sublist_take].
    rewrite merge_sort_Permutation.
    eapply sublist_NoDup; [apply (table_ids_nodup db Hok)|]. apply fmap_sublist. unfold group_rows, tracked_rows.
    etrans; apply sublist_filter.
  - rewrite length_fmap, length_take, merge_sort_Permutation. lia.
Qed.

Lemma rebuild_keys_spec t t' tenant_id db counts r :
  table_ok db → (t' < t + READ_MODEL_TTL_SECONDS)%Q →
  NoDup counts.*1 → (∀ g, g ∈ counts.*1 → g.2 ∈ TRACKED_STATUSES) →
  (∀ g n, (g, n) ∈ counts → n = length (group_rows scope g (tracked_rows tenant_id db))) →
  (∀ g, g ∈ counts.*1 → r !! key_for g.1 g.2 = None ∧ r !! evicted_key (key_for g.1 g.2) = None) →
  ∃ r', rebuild_keys window t key_for scope tenant_id db counts r = Ok r' ∧
    (∀ g n, (g, n) ∈ counts → member_count t' (key_for g.1 g.2) r' = Ok (Z.of_nat n)) ∧
    (∀ k, (∀ g, g ∈ counts.*1 → k ≠ key_for g.1 g.2 ∧ k ≠ evicted_key (key_for g.1 g.2)) → r' !! k = r !! k).
Proof.
  intros Hok Ht'. revert r. induction counts as [|[[s st] n] counts IH]; intros r Hnd Htr Hn Hfree.
  { exists r. split_and!; [done| |done]. intros g n Hg. by apply not_elem_of_nil in Hg. }
  cbn in Hnd. apply NoDup_cons in Hnd as [Hnin Hnd]. cbn [rebuild_keys].
  assert (Hst : st ∈ TRACKED_STATUSES) by (apply (Htr (s, st)); left).
  destruct (Hfree (s, st) ltac:(left)) as [Hk He]. cbn in Hk, He.
  destruct (members_ok tenant_id (s, st) db Hok) as [Hmnd Hmlen].
  rewrite <- (Hn (s, st) n ltac:(left)) in Hmlen.
  destruct (rebuild_key_spec t t' (key_for s st) n _ r Hk He ltac:(by apply not_eq_sym, key_ev) Hmnd Hmlen Ht')
    as (r1 & -> & Hc1 & Hf1). cbn [mbind result_mbind].
  assert (Hdiff : ∀ g, g ∈ counts.*1 → key_for g.1 g.2 ≠ key_for s st).
  { intros [s' st'] Hg E. cbn in E. apply key_inj in E as [-> ->]; [done| |done]. apply (Htr (s', st')). by right. }
  assert (Hsep : ∀ g, g ∈ counts.*1 → key_for g.1 g.2 ≠ evicted_key (key_for s st)).
  { intros g Hg. apply not_eq_sym, key_ev, Htr. by right. }
  destruct (IH r1 Hnd) as (r' & -> & Hc & Hf).
  - intros g Hg. apply Htr. by right.
  - intros g m Hg. apply Hn. by right.
  - intros g Hg. destruct (Hfree g ltac:(by right)) as [H1 H2].
    rewrite (Hf1 _ (Hdiff g Hg) (Hsep g Hg)).
    rewrite (Hf1 (evicted_key (key_for g.1 g.2))); [done|by apply key_ev|]. intros E%evicted_key_inj. by apply (Hdiff g Hg).
  - exists r'. split_and!; [done| |].
    + intros g m [[= -> ->]|Hg]%elem_of_cons; [|by apply Hc]. cbn.
      rewrite <- Hc1. unfold member_count, r_zcard, r_get, r_scard, live, r_zset, live.
      assert (E1 : r' !! key_for s st = r1 !! key_for s st).
      { apply Hf. intros g Hg. split; [by apply not_eq_sym, Hdiff|]. by apply not_eq_sym, key_ev. }
      assert (E2 : r' !! evicted_key (key_for s st) = r1 !! evicted_key (key_for s st)).
      { apply Hf. intros g Hg. split; [by apply not_eq_sym, Hsep|]. intros E%evicted_key_inj. by apply (Hdiff g Hg). }
      by rewrite E1, E2.
    + intros k Hkk. rewrite Hf; [|intros g Hg; apply Hkk; by right].
      destruct (Hkk (s, st) ltac:(left)). by apply Hf1.
Qed.

Lemma status_counts_facts tenant_id db :
  NoDup (status_counts scope tenant_id db).*1 ∧
  (∀ g, g ∈ (status_counts scope tenant_id db).*1 → g.2 ∈ TRACKED_STATUSES) ∧
  (∀ g n, (g, n) ∈ status_counts scope tenant_id db → n = length (group_rows scope g (tracked_rows tenant_id db))) ∧
  (∀ g, g ∉ (status_counts scope tenant_id db).*1 → group_rows scope g (tracked_rows tenant_id db) = []).
Proof.
  unfold status_counts. rewrite <- list_fmap_compose. set (rows := tracked_rows tenant_id db).
  replace ((fst ∘ λ g, (g, length (group_rows scope g rows))) <$> groups scope rows) with (groups scope rows)
    by (symmetry; apply list_fmap_id). unfold groups. split_and!.
  - apply NoDup_remove_dups.
  - intros g Hg. apply elem_of_remove_dups, list_elem_of_fmap in Hg as (j & -> & Hj).
    apply list_elem_of_filter in Hj as [[Ht _] _]. exact Ht.
  - intros g n Hg. apply list_elem_of_fmap in Hg as (g' & [= -> ->] & _). done.
  - intros g Hg. apply filter_none. intros j Hj E. apply Hg, elem_of_remove_dups, list_elem_of_fmap. by exists j.
Qed.
End Scope.

(** How many jobs of the table a view stands for. *)
Definition table_count (scope : Job → uuid) (a : uuid) (st : string) (db : DB) : nat :=
  length (filter (λ j, scope j = a ∧ job_status_value (job_status j) = st) (map_to_list (db_jobs db)).*2).

Lemma group_count scope a st db :
  (∀ j, j ∈ (map_to_list (db_jobs db)).*2 → (scope j < uuid_bound)%N) → (a < uuid_bound)%N → st ∈ TRACKED_STATUSES →
  length (group_rows scope (uuid_str a, st) (tracked_rows None db)) = table_count scope a st db.
Proof.
  intros Hb Ha Hst. unfold group_rows, tracked_rows, table_count. f_equal. apply filter_filter_iff.
  intros j Hj. unfold group_of, tracked. split.
  - intros [[E ->]%pair_equal_spec _]. split; [|done]. apply uuid_str_inj in E; auto.
  - intros [-> <-]. split; [done|]. split; [done|by left].
Qed.

Lemma tenant_key_prefix a s :
  String.prefix "jobs:tenant:" (tenant_key a s) = true ∧ String.prefix "jobs:tenant:" (evicted_key (tenant_key a s)) = true.
Proof.
  split; [apply (prefix_app "jobs:tenant:" (a +:+ ":status:" +:+ s))|].
  exact (prefix_app "jobs:tenant:" ((a +:+ ":status:" +:+ s) +:+ ":evicted")).
Qed.

Lemma user_key_prefix a s :
  String.prefix "jobs:user:" (user_key a s) = true ∧ String.prefix "jobs:user:" (evicted_key (user_key a s)) = true.
Proof.
  split; [apply (prefix_app "jobs:user:" (a +:+ ":status:" +:+ s))|].
  exact (prefix_app "jobs:user:" ((a +:+ ":status:" +:+ s) +:+ ":evicted")).
Qed.

Lemma scan_deleted t prefix k r : String.prefix prefix k = true → (r_scan_delete t prefix r).2 !! k = None.
Proof. intros Hp. cbn. apply map_lookup_filter_None. right. intros e _. cbn. congruence. Qed.

Lemma scan_kept_none t prefix k r : r !! k = None → (r_scan_delete t prefix r).2 !! k = None.
Proof. intros Hp. cbn. apply map_lookup_filter_None. by left. Qed.

#[local] Opaque tenant_key user_key evicted_key uuid_str.

(** The rebuilt counts of one scope, also for the groups that have no row. *)
Lemma rebuilt_counts t' key_for scope db (r r' : Redis) a st :
  (∀ a b s s', s ∈ TRACKED_STATUSES → s' ∈ TRACKED_STATUSES → key_for a s = key_for b s' → a = b ∧ s = s') →
  (∀ k a s, s ∈ TRACKED_STATUSES → evicted_key k ≠ key_for a s) →
  (∀ j, j ∈ (map_to_list (db_jobs db)).*2 → (scope j < uuid_bound)%N) → (a < uuid_bound)%N → st ∈ TRACKED_STATUSES →
  (∀ g n, (g, n) ∈ status_counts scope None db → member_count t' (key_for g.1 g.2) r' = Ok (Z.of_nat n)) →
  (∀ k, (∀ g, g ∈ (status_counts scope None db).*1 → k ≠ key_for g.1 g.2 ∧ k ≠ evicted_key (key_for g.1 g.2)) →
     r' !! k = r !! k) →
  r !! key_for (uuid_str a) st = None → r !! evicted_key (key_for (uuid_str a) st) = None →
  member_count t' (key_for (uuid_str a) st) r' = Ok (Z.of_nat (table_count scope a st db)).
Proof.
  intros Hinj Hev Hb Ha Hst Hc Hf Hk He. destruct (status_counts_facts scope None db) as (_ & Htr & Hn & Hnone).
  destruct (decide ((uuid_str a, st) ∈ (status_counts scope None db).*1)) as [Hin|Hin].
  - apply list_elem_of_fmap in Hin as ([g n] & Hg & Hin). cbn [fst] in Hg. subst g.
    rewrite (Hc _ n Hin : member_count t' (key_for (uuid_str a) st) r' = _).
    by rewrite (Hn _ n Hin), group_count.
  - rewrite <- group_count, (Hnone _ Hin) by done. cbn [length].
    assert (Hdiff : ∀ g, g ∈ (status_counts scope None db).*1 → key_for (uuid_str a) st ≠ key_for g.1 g.2).
    { intros g Hg E. apply Hinj in E as [E1 E2]; [|done|by apply Htr]. apply Hin. by rewrite E1, E2, <- surjective_pairing. }
    rewrite (member_count_counts t' r' _ ∅).
    + unfold evicted, live. rewrite Hf, He; [done|]. intros g Hg. split; [by apply Hev, Htr|].
      intros E%evicted_key_inj. by apply (Hdiff g Hg).
    + apply fresh_zset. rewrite Hf; [done|]. intros g Hg. split; [by apply Hdiff|]. by apply not_eq_sym, Hev.
    + unfold evicted_ok, live. rewrite Hf, He; [done|]. intros g Hg. split; [by apply Hev, Htr|].
      intros E%evicted_key_inj. by apply (Hdiff g Hg).
Qed.

(** C9: A rebuild repairs the read model whatever it held: from any keyspace it
    succeeds, and until the keys expire the count of every tenant and of every user in
    every tracked status is the number of such jobs in the table, zero included. *)
Theorem rebuild_equals_table t t' db r :
  table_ok db → (t' < t + READ_MODEL_TTL_SECONDS)%Q →
  ∃ r', rebuild_read_model window t None db r = Ok r' ∧
    ∀ a st, (a < uuid_bound)%N → st ∈ TRACKED_STATUSES →
      member_count t' (tenant_key (uuid_str a) st) r' = Ok (Z.of_nat (table_count job_tenant_id a st db)) ∧
      member_count t' (user_key (uuid_str a) st) r' = Ok (Z.of_nat (table_count job_user_id a st db)).
Proof.
  intros Hok Ht'. unfold rebuild_read_model.
  set (r0 := (r_scan_delete t "jobs:user:" (r_scan_delete t "jobs:tenant:" r).2).2).
  assert (Ht0 : ∀ a s, r0 !! tenant_key a s = None ∧ r0 !! evicted_key (tenant_key a s) = None).
  { intros a s. split; apply scan_kept_none, scan_deleted, tenant_key_prefix. }
  assert (Hu0 : ∀ a s, r0 !! user_key a s = None ∧ r0 !! evicted_key (user_key a s) = None).
  { intros a s. split; apply scan_deleted, user_key_prefix. }
  clearbody r0. destruct (status_counts_facts job_tenant_id None db) as (Hnd1 & Htr1 & Hn1 & _).
  destruct (status_counts_facts job_user_id None db) as (Hnd2 & Htr2 & Hn2 & _).
  destruct (rebuild_keys_spec tenant_key job_tenant_id tenant_key_inj evicted_tenant_key t t' None db _ r0 Hok Ht'
    Hnd1 Htr1 Hn1 ltac:(intros; apply Ht0)) as (r1 & -> & Hc1 & Hf1). cbn [mbind result_mbind].
  assert (Hu1 : ∀ a s, s ∈ TRACKED_STATUSES → r1 !! user_key a s = None ∧ r1 !! evicted_key (user_key a s) = None).
  { intros a s Hs. split; [rewrite (Hf1 (user_key a s)); [apply (proj1 (Hu0 a s))|]
      | rewrite (Hf1 (evicted_key (user_key a s))); [apply (proj2 (Hu0 a s))|]]; intros g Hg; split.
    - apply not_eq_sym, tenant_user_key.
    - by apply not_eq_sym, evicted_user_key.
    - by apply evicted_tenant_key, Htr1.
    - intros E%evicted_key_inj. symmetry in E. by apply tenant_user_key in E. }
  destruct (rebuild_keys_spec user_key job_user_id user_key_inj evicted_user_key t t' None db _ r1 Hok Ht'
    Hnd2 Htr2 Hn2 ltac:(intros g Hg; apply Hu1; by apply Htr2)) as (r2 & -> & Hc2 & Hf2).
  assert (Hbt : ∀ j, j ∈ (map_to_list (db_jobs db)).*2 → (job_tenant_id j < uuid_bound)%N).
  { intros j [i Hj]%table_row. apply (Hok i j Hj). }
  assert (Hbu : ∀ j, j ∈ (map_to_list (db_jobs db)).*2 → (job_user_id j < uuid_bound)%N).
  { intros j [i Hj]%table_row. apply (Hok i j Hj). }
  exists r2. split; [done|]. intros a st Ha Hst. split.
  - assert (Hkeep : member_count t' (tenant_key (uuid_str a) st) r2 = member_count t' (tenant_key (uuid_str a) st) r1).
    { unfold member_count, r_zcard, r_get, r_scard, r_zset, live.
      rewrite (Hf2 (tenant_key (uuid_str a) st)), (Hf2 (evicted_key (tenant_key (uuid_str a) st))); [done|..].
      - intros g Hg. split; [by apply evicted_user_key, Htr2|]. intros E%evicted_key_inj. by apply tenant_user_key in E.
      - intros g Hg. split; [apply tenant_user_key|]. by apply not_eq_sym, evicted_tenant_key. }
    rewrite Hkeep. apply (rebuilt_counts t' tenant_key job_tenant_id db r0 r1 a st tenant_key_inj evicted_tenant_key
      Hbt Ha Hst Hc1 Hf1 (proj1 (Ht0 _ st)) (proj2 (Ht0 _ st))).
  - apply (rebuilt_counts t' user_key job_user_id db r1 r2 a st user_key_inj evicted_user_key
      Hbu Ha Hst Hc2 Hf2 (proj1 (Hu1 _ st Hst)) (proj2 (Hu1 _ st Hst))).
Qed.
End Rebuild.

(** ** Worked examples *)

Module ReadModelExample.
Import Fixtures.

Definition event (name job : string) : dict :=
  [("event", JStr name); ("job_id", JStr job); ("user_id", JStr "u"); ("tenant_id", JStr "t")].

Lemma running_tracked : "running" ∈ TRACKED_STATUSES.
Proof. left. Qed.
Lemma completed_tracked : "completed" ∈ TRACKED_STATUSES.
Proof. right. left. Qed.

Lemma empty_shows t : shows t ∅ (mkStatuses ∅ ∅).
Proof. intros a st j _. cbn. unfold view, r_zset, live. rewrite !lookup_empty. split; split; by intros [? ?] || done. Qed.

Lemma empty_evicted_ok t k : evicted_ok t ∅ k.
Proof. unfold evicted_ok, live. by rewrite lookup_empty. Qed.

Lemma projector_refines_statuses_witness :
  ∃ r', projector_handle_message 5 100 (event "job.progress" "j") ∅ = Ok r' ∧
    shows 100 r' (mkStatuses {[("t", "j") := "running"]} {[("u", "j") := "running"]}).
Proof.
  destruct (projector_refines_statuses 5 100 (event "job.progress" "j") ∅ (mkStatuses ∅ ∅)) as (r' & Hr' & Hs & _).
  - apply empty_shows.
  - apply empty_evicted_ok.
  - intros k. unfold view, r_zset, live. rewrite lookup_empty. vm_compute. lia.
  - exists r'. split; [exact Hr'|exact Hs].
Defined.

(** One job is shown as running, the window holds one. *)
Definition one_running : Redis :=
  match projector_handle_message 1 100 (event "job.progress" "j") ∅ with Ok r => r | Err _ => ∅ end.

Lemma projection_counts_exact_witness :
  ∃ r', projector_handle_message 1 101 (event "job.progress" "k") one_running = Ok r' ∧
    member_count 101 (tenant_key "t" "running") r' = Ok 2%Z.
Proof.
  destruct (projection_counts_exact 1 101 (event "job.progress" "k") one_running "k" "u" "t" "job.progress" "running"
    eq_refl eq_refl eq_refl eq_refl eq_refl) as (r' & Hr' & Hc).
  - intros k. unfold evicted_ok, live.
    destruct (one_running !! evicted_key k) as [e|] eqn:E; [|done].
    assert (Hkeys : one_running = {[tenant_key "t" "running" := mkEntry (RZset {["j" := 100%Q]}) (Some 604900%Q);
                                    user_key "u" "running" := mkEntry (RZset {["j" := 100%Q]}) (Some 604900%Q)]})
      by (vm_compute; reflexivity).
    rewrite Hkeys in E. exfalso. apply lookup_insert_Some in E as [[E _]|[_ E]].
    + symmetry in E. revert E. apply evicted_tenant_key, running_tracked.
    + apply lookup_singleton_Some in E as [E _]. symmetry in E. revert E. apply evicted_user_key, running_tracked.
  - right. intros st Hst. unfold TERMINAL_STATUSES in Hst.
    repeat (apply elem_of_cons in Hst as [->|Hst]; [vm_compute; reflexivity|]). by apply not_elem_of_nil in Hst.
  - exists r'. split; [exact Hr'|].
    destruct (Hc (tenant_key "t" "running") "running" {["j" := 100%Q]}) as [Hm _].
    + apply running_tracked.
    + by left.
    + vm_compute. reflexivity.
    + rewrite Hm. vm_compute. reflexivity.
Defined.

Definition three_jobs : DB := db_of [row 1 COMPLETED; row 2 COMPLETED; row 3 FAILED] [].

Lemma three_jobs_ok : table_ok three_jobs.
Proof.
  intros i j Hj. assert (Hin : (i, j) ∈ map_to_list (db_jobs three_jobs)) by (by apply elem_of_map_to_list).
  assert (Hrows : map_to_list (db_jobs three_jobs) ≡ₚ [(1%N, row 1 COMPLETED); (2%N, row 2 COMPLETED); (3%N, row 3 FAILED)]).
  { apply map_to_list_to_map. refine (bool_decide_eq_true_1 _ _). vm_compute. reflexivity. }
  rewrite Hrows in Hin. repeat (apply elem_of_cons in Hin as [[= -> ->]|Hin]; [vm_compute; done|]).
  by apply not_elem_of_nil in Hin.
Qed.

(** With a window of one, the two completed jobs are still counted as two. *)
Lemma rebuild_equals_table_witness :
  ∃ r', rebuild_read_model 1 0 None three_jobs {["jobs:tenant:x:status:failed" := mkEntry (RInt 7) None]} = Ok r' ∧
    member_count 50 (tenant_key (uuid_str tenant) "completed") r' = Ok 2%Z.
Proof.
  destruct (rebuild_equals_table 1 0 50 three_jobs {["jobs:tenant:x:status:failed" := mkEntry (RInt 7) None]})
    as (r' & Hr' & Hc).
  - apply three_jobs_ok.
  - reflexivity.
  - exists r'. split; [exact Hr'|].
    destruct (Hc tenant "completed") as [Hm _]; [reflexivity|apply completed_tracked|].
    rewrite Hm. vm_compute. reflexivity.
Defined.
End ReadModelExample.
