(* ===== verification/EventLog.v ===== *)
(** * The event log and the audit writer (workers/event_log_consumer.py, audit_consumer.py)

    Two consumer groups turn every lifecycle event into a row, of [job_events] and of
    [audit_logs].  Both tables refuse a second row with the same Kafka coordinates, and
    both handlers take the refusal as a redelivery.  Values are schema-validated
    objects. *)
From stdpp Require Import base tactics numbers option list gmap strings sorting.
From Stdlib Require Import Ascii.
From S2P Require Import Prelude PyData Models Database KafkaConsumer.

(** (kafka_topic, kafka_partition, kafka_offset). *)
Abbreviation Coord := (string * Z * N)%type.
Definition rec_coord (r : ConsumerRecord) : Coord := (rec_topic r, rec_partition r, rec_offset r).

(** The rows the foreign keys of the two tables refer to. *)
Record References := mkReferences {
  ref_tenants : gset uuid;
  ref_users : gset uuid;
  ref_jobs : gset uuid
}.

(** ** job_events *)

Record JobEvent := mkJobEvent {
  ev_id : uuid;
  ev_tenant_id : uuid;
  ev_job_id : option uuid;
  ev_event_name : string;
  ev_payload : dict;
  ev_topic : string;
  ev_partition : Z;
  ev_offset : N;
  ev_recorded_at : Z
}.
Definition ev_coord (e : JobEvent) : Coord := (ev_topic e, ev_partition e, ev_offset e).

Record EventTable := mkEventTable { et_rows : list JobEvent; et_draws : N }.

(** A JSON string that parses as a UUID. *)
Definition parsed_uuid (v : option json) : option uuid :=
  match v with Some (JStr s) => uuid_parse s | _ => None end.

(** [value.get("event")] when it is truthy. *)
Definition event_name (value : dict) : option string :=
  match dget value "event" with
  | Some (JStr s) => if bool_decide (s = "") then None else Some s
  | _ => None
  end.

(** The row of a message; [None] when the handler skips it. *)
Definition event_row (i : uuid) (now : Z) (r : ConsumerRecord) : option JobEvent :=
  match event_name (rec_value r), parsed_uuid (dget (rec_value r) "tenant_id") with
  | Some name, Some tenant =>
      Some (mkJobEvent i tenant (parsed_uuid (dget (rec_value r) "job_id")) name (rec_value r)
              (rec_topic r) (rec_partition r) (rec_offset r) now)
  | _, _ => None
  end.

(** [INSERT]: the unique constraint and the foreign key. *)
Definition insert_event (refs : References) (e : JobEvent) (rows : list JobEvent) : result exn (list JobEvent) :=
  if bool_decide (ev_coord e ∈ (ev_coord <$> rows)) then Err IntegrityError
  else if bool_decide (ev_tenant_id e ∉ ref_tenants refs) then Err IntegrityError
  else Ok (rows ++ [e]).

Section EventLog.
Context `{UuidSource}.

(** [EventLogConsumer.handle_message]; an [IntegrityError] is swallowed. *)
Definition event_log_handle (refs : References) (now : Z) (r : ConsumerRecord) (tbl : EventTable) : EventTable :=
  match event_row (uuid4 (et_draws tbl)) now r with
  | None => tbl
  | Some e => match insert_event refs e (et_rows tbl) with
              | Ok rows => mkEventTable rows (et_draws tbl + 1)
              | Err _ => mkEventTable (et_rows tbl) (et_draws tbl + 1)
              end
  end.
End EventLog.

(** [ORDER BY recorded_at, kafka_offset]. *)
Definition event_before (a b : JobEvent) : Prop :=
  (ev_recorded_at a < ev_recorded_at b)%Z ∨ (ev_recorded_at a = ev_recorded_at b ∧ (ev_offset a ≤ ev_offset b)%N).

#[export] Instance event_before_dec : RelDecision event_before.
Proof. intros a b. unfold event_before. apply _. Defined.

(** [EventLogRepository.timeline]. *)
Definition timeline (job : uuid) (limit : nat) (rows : list JobEvent) : list JobEvent :=
  take limit (merge_sort event_before (filter (λ e, ev_job_id e = Some job) rows)).

(** ** audit_logs *)

(** A row of [audit_logs] with the coordinates only this consumer fills. *)
Record AuditRow := mkAuditRow { ar_row : AuditLog; ar_coord : option Coord }.

(** [_EVENT_TO_ACTION]. *)
Definition event_to_action (event : string) : option string :=
  if bool_decide (event = "job.submitted") then Some "event.job.submitted"
  else if bool_decide (event = "job.completed") then Some "event.job.completed"
  else if bool_decide (event = "job.failed") then Some "event.job.failed"
  else if bool_decide (event = "job.cancelled") then Some "event.job.cancelled"
  else None.

(** Dead letters arrive as [job.failed] with [dead_lettered] true. *)
Definition audit_action_of (value : dict) : option string :=
  event ← event_name value;
  if bool_decide (event = "job.failed") && match dget value "dead_lettered" with Some (JBool b) => b | _ => false end
  then Some "event.job.dead_letter" else event_to_action event.

(** [_parse_uuid]. *)
Definition parse_uuid_value (v : option json) : option uuid :=
  match v with
  | Some (JStr s) => if bool_decide (s = "") then None else uuid_parse s
  | _ => None
  end.

Definition audit_extra (value : dict) : dict :=
  filter (λ kv, kv.1 ∉ ["event"; "tenant_id"; "job_id"; "user_id"]) value.

Definition audit_row_of (now : Z) (r : ConsumerRecord) : option AuditRow :=
  let value := rec_value r in
  match audit_action_of value, parse_uuid_value (dget value "tenant_id") with
  | Some action, Some tenant =>
      let user := parse_uuid_value (dget value "user_id") in
      let job := parse_uuid_value (dget value "job_id") in
      Some (mkAuditRow (mkAudit action tenant user "user" user job (Some "job") (uuid_str <$> job)
                          (Some (audit_extra value)) now) (Some (rec_coord r)))
  | _, _ => None
  end.

Definition refers (o : option uuid) (s : gset uuid) : Prop := from_option (λ u, u ∈ s) True o.

#[export] Instance refers_dec o s : Decision (refers o s).
Proof. destruct o; cbn; apply _. Defined.

(** [INSERT]: NULL coordinates never collide. *)
Definition insert_audit (refs : References) (a : AuditRow) (rows : list AuditRow) : result exn (list AuditRow) :=
  if bool_decide (is_Some (ar_coord a) ∧ ar_coord a ∈ (ar_coord <$> rows)) then Err IntegrityError
  else if bool_decide (audit_tenant_id (ar_row a) ∈ ref_tenants refs ∧
                       refers (audit_user_id (ar_row a)) (ref_users refs) ∧
                       refers (audit_job_id (ar_row a)) (ref_jobs refs))
  then Ok (rows ++ [a]) else Err IntegrityError.

(** [AuditConsumer.handle_message]. *)
Definition audit_handle (refs : References) (now : Z) (r : ConsumerRecord) (rows : list AuditRow) : list AuditRow :=
  match audit_row_of now r with
  | None => rows
  | Some a => match insert_audit refs a rows with Ok rows' => rows' | Err _ => rows end
  end.

(** ** Reading the audit log *)

(** A stored row: its key, its correlation id, and the columns the writers set. *)
Record StoredAudit := mkStoredAudit { sa_id : uuid; sa_request_id : option string; sa_row : AuditLog }.

(** The filters of [AuditRepository.list_logs]. *)
Record AuditFilter := mkAuditFilter {
  af_user_id : option uuid;
  af_job_id : option uuid;
  af_action : option string;
  af_action_prefix : option string;
  af_action_prefixes : list string;
  af_exclude_action_prefixes : list string;
  af_principal_type : option string;
  af_tenant_id : option uuid;
  af_request_id : option string
}.

(** [LIKE]: [_] matches one character, [%] any number of them, and a backslash takes
    the next character as it is. *)
Fixpoint like (pattern s : list Ascii.ascii) : bool :=
  match pattern with
  | [] => bool_decide (s = [])
  | p :: pattern' =>
      if bool_decide (p = "%"%char) then
        (fix any (s : list Ascii.ascii) : bool :=
           like pattern' s || match s with [] => false | _ :: s' => any s' end) s
      else if bool_decide (p = Ascii.ascii_of_nat 92) then
        match pattern', s with
        | q :: pattern'', c :: s' => bool_decide (q = c) && like pattern'' s'
        | _, _ => false
        end
      else match s with
           | [] => false
           | c :: s' => (bool_decide (p = "_"%char) || bool_decide (p = c)) && like pattern' s'
           end
  end.

Definition like_prefix (prefix action : string) : bool :=
  like (String.list_ascii_of_string (prefix +:+ "%")) (String.list_ascii_of_string action).

Definition opt_is {A} `{EqDecision A} (want : option A) (got : option A) : bool :=
  match want with None => true | Some w => bool_decide (got = Some w) end.

Definition audit_matches (f : AuditFilter) (x : StoredAudit) : bool :=
  let a := sa_row x in
  let wanted := option_list (af_action_prefix f) ++ af_action_prefixes f in
  opt_is (af_user_id f) (audit_user_id a) && opt_is (af_job_id f) (audit_job_id a) &&
  opt_is (af_action f) (Some (audit_action a)) &&
  (bool_decide (wanted = []) || existsb (λ p, like_prefix p (audit_action a)) wanted) &&
  forallb (λ p, negb (like_prefix p (audit_action a))) (af_exclude_action_prefixes f) &&
  opt_is (af_principal_type f) (Some (audit_principal_type a)) && opt_is (af_tenant_id f) (Some (audit_tenant_id a)) &&
  opt_is (af_request_id f) (sa_request_id x).

(** Newest first, rows of one instant by their keys. *)
Definition audit_newer (a b : StoredAudit) : Prop :=
  (audit_created_at (sa_row b) < audit_created_at (sa_row a))%Z ∨
  (audit_created_at (sa_row a) = audit_created_at (sa_row b) ∧ (sa_id b ≤ sa_id a)%N).

#[export] Instance audit_newer_dec : RelDecision audit_newer.
Proof. intros a b. unfold audit_newer. apply _. Defined.

Definition list_logs (offset limit : nat) (f : AuditFilter) (rows : list StoredAudit) : list StoredAudit * nat :=
  let hits := filter (λ a, audit_matches f a = true) rows in
  (take limit (drop offset (merge_sort audit_newer hits)), length hits).
