(* ===== verification/EventLogProps.v ===== *)
(** * Properties of the event log and the audit writer

    However often and in whatever order the broker delivers, each event is recorded once. *)
From stdpp Require Import base tactics numbers option list gmap strings sorting.
From S2P Require Import Prelude PyData Models Database KafkaConsumer KafkaProps EventLog.

(** ** Tables that record a message once *)

(** What the two consumers promise: a message that can be recorded adds one row with its
    coordinates and its content unless they are there already; nothing else changes. *)
Class OnceTable (Tbl A : Type) := {
  table_rows : Tbl → list A;
  coord_of : A → option Coord;
  recordable : ConsumerRecord → Prop;
  content : ConsumerRecord → A → Prop;
  record_message : Z → ConsumerRecord → Tbl → Tbl;
  content_coord r a : content r a → coord_of a = Some (rec_coord r);
  record_new now r s :
    recordable r → Some (rec_coord r) ∉ (coord_of <$> table_rows s) →
    ∃ a, table_rows (record_message now r s) = table_rows s ++ [a] ∧ content r a;
  record_known now r s :
    Some (rec_coord r) ∈ (coord_of <$> table_rows s) → table_rows (record_message now r s) = table_rows s;
  record_skipped now r s : ¬ recordable r → table_rows (record_message now r s) = table_rows s;
  recordable_dec r : Decision (recordable r)
}.
#[export] Existing Instance recordable_dec.

Section Once.
Context {Tbl A : Type} `{!OnceTable Tbl A}.

(** Deliveries in order: the instant and the message. *)
Definition deliver (ds : list (Z * ConsumerRecord)) (s : Tbl) : Tbl :=
  foldl (λ s d, record_message d.1 d.2 s) s ds.

(** The rows with coordinates: one for each recordable message seen, with its content. *)
Record recorded (seen : list ConsumerRecord) (s : Tbl) : Prop := {
  rd_complete r : r ∈ seen → recordable r → Some (rec_coord r) ∈ (coord_of <$> table_rows s);
  rd_sound a c : a ∈ table_rows s → coord_of a = Some c → ∃ r, r ∈ seen ∧ recordable r ∧ content r a;
  rd_once c : (length (filter (λ a, coord_of a = Some c) (table_rows s)) ≤ 1)%nat
}.

Lemma recorded_step seen s now r : recorded seen s → recorded (seen ++ [r]) (record_message now r s).
Proof.
  intros [Hc Hs Ho].
  assert (Hsame : table_rows (record_message now r s) = table_rows s →
    (recordable r → Some (rec_coord r) ∈ (coord_of <$> table_rows s)) → recorded (seen ++ [r]) (record_message now r s)).
  { intros E Hin. split; rewrite E; [|intros a c Ha Hac|apply Ho].
    - intros x [Hx|Hx%list_elem_of_singleton]%elem_of_app Hrec; [by apply Hc|]. subst. by apply Hin.
    - destruct (Hs a c Ha Hac) as (x & ? & ?). exists x. split; [|done]. apply elem_of_app. by left. }
  destruct (decide (Some (rec_coord r) ∈ (coord_of <$> table_rows s))) as [Hin|Hin].
  { apply Hsame; [by apply record_known|done]. }
  destruct (decide (recordable r)) as [Hrec|Hrec]; [|apply Hsame; [by apply record_skipped|done]].
  destruct (record_new now r s Hrec Hin) as (a & E & Ha). pose proof (content_coord _ _ Ha) as Hca.
  split; rewrite E.
  - intros x Hx Hxr. rewrite fmap_app. apply elem_of_app.
    apply elem_of_app in Hx as [Hx|Hx%list_elem_of_singleton]; [left; by apply Hc|]. subst x. right. cbn. rewrite Hca. left.
  - intros b c Hb Hbc. apply elem_of_app in Hb as [Hb|Hb%list_elem_of_singleton].
    + destruct (Hs b c Hb Hbc) as (x & ? & ?). exists x. split; [|done]. apply elem_of_app. by left.
    + subst b. exists r. split; [|done]. apply elem_of_app. right. left.
  - intros c. rewrite filter_app, length_app. specialize (Ho c).
    destruct (decide (Some c = Some (rec_coord r))) as [[= ->]|Hne].
    + rewrite (filter_none _ (table_rows s)); [rewrite filter_cons; case_decide; cbn; lia|].
      intros b Hb Hbc. apply Hin. rewrite <- Hbc. by apply list_elem_of_fmap_2.
    + rewrite (filter_none _ [a]); [cbn; lia|]. intros b ->%list_elem_of_singleton Hb. congruence.
Qed.

Lemma recorded_deliver ds seen s : recorded seen s → recorded (seen ++ ds.*2) (deliver ds s).
Proof.
  revert seen s. induction ds as [|[now r] ds IH]; intros seen s Hr; cbn; [by rewrite app_nil_r|].
  replace (seen ++ r :: ds.*2) with ((seen ++ [r]) ++ ds.*2) by (by rewrite <- app_assoc). apply IH. by apply recorded_step.
Qed.

(** One row, with the message's content, for each message of a log without ambiguous
    coordinates. *)
Lemma recorded_one seen s r :
  recorded seen s → r ∈ seen → recordable r → (∀ r', r' ∈ seen → rec_coord r' = rec_coord r → r' = r) →
  ∃ a, filter (λ a, coord_of a = Some (rec_coord r)) (table_rows s) = [a] ∧ content r a.
Proof.
  intros [Hc Hs Ho] Hin Hrec Huniq. pose proof (Hc r Hin Hrec) as Hmem.
  apply list_elem_of_fmap in Hmem as (a & Hca & Ha).
  assert (Haf : a ∈ filter (λ a, coord_of a = Some (rec_coord r)) (table_rows s)) by (by apply list_elem_of_filter).
  specialize (Ho (rec_coord r)). destruct (filter _ (table_rows s)) as [|x [|y l]] eqn:E; [by apply not_elem_of_nil in Haf| |cbn in Ho; lia].
  apply list_elem_of_singleton in Haf as ->. exists x. split; [done|].
  destruct (Hs x (rec_coord r) Ha ltac:(done)) as (r' & Hr' & _ & Hcon).
  pose proof (content_coord _ _ Hcon) as E'. rewrite <- Hca in E'. injection E' as E1 E2 E3.
  rewrite <- (Huniq r'); [done|done|]. unfold rec_coord. congruence.
Qed.
End Once.

(** ** The two consumers *)

Section Consumers.
Context `{UuidSource} (refs : References).

Definition event_recordable (r : ConsumerRecord) : Prop :=
  is_Some (event_name (rec_value r)) ∧
  match parsed_uuid (dget (rec_value r) "tenant_id") with Some t => t ∈ ref_tenants refs | None => False end.

#[export] Instance event_recordable_dec r : Decision (event_recordable r).
Proof. unfold event_recordable. destruct (parsed_uuid _); apply _. Defined.

Definition event_content (r : ConsumerRecord) (e : JobEvent) : Prop := event_row (ev_id e) (ev_recorded_at e) r = Some e.

#[export] Program Instance event_log_once : OnceTable EventTable JobEvent := {
  table_rows := et_rows;
  coord_of := λ e, Some (ev_coord e);
  recordable := event_recordable;
  content := event_content;
  record_message := event_log_handle refs
}.
Next Obligation.
  intros r e Hc. unfold event_content, event_row in Hc.
  destruct (event_name (rec_value r)); [|done]. destruct (parsed_uuid (dget (rec_value r) "tenant_id")); [|done].
  by injection Hc as <-.
Qed.
Next Obligation.
  intros now r s [[name Hn] Ht] Hnin. unfold event_log_handle, event_row. rewrite Hn.
  destruct (parsed_uuid (dget (rec_value r) "tenant_id")) as [t|] eqn:Et; [|done].
  unfold insert_event. cbn [ev_tenant_id]. rewrite bool_decide_false.
  - rewrite bool_decide_false by (by intros []). eexists. split; [done|]. unfold event_content, event_row. by rewrite Hn, Et.
  - intros Hin. apply Hnin. apply list_elem_of_fmap in Hin as (e & E & He). apply list_elem_of_fmap. exists e. by rewrite <- E.
Qed.
Next Obligation.
  intros now r s Hin. unfold event_log_handle. destruct (event_row _ now r) as [e|] eqn:E; [|done].
  unfold insert_event. rewrite bool_decide_true; [done|]. apply list_elem_of_fmap in Hin as (x & [= E1 E2 E3] & Hx).
  unfold event_row in E. destruct (event_name (rec_value r)); [|done]. destruct (parsed_uuid (dget (rec_value r) "tenant_id")); [|done].
  injection E as <-. apply list_elem_of_fmap. exists x. split; [|done]. unfold ev_coord. cbn. congruence.
Qed.
Next Obligation.
  intros now r s Hn. unfold event_log_handle, event_row, event_recordable in *.
  destruct (event_name (rec_value r)) eqn:En; [|done].
  destruct (parsed_uuid (dget (rec_value r) "tenant_id")) as [t|] eqn:Et; [|done]. unfold insert_event.
  case_bool_decide; [done|]. rewrite bool_decide_true; [done|]. cbn. intros Hin. apply Hn. split; [by eexists|done].
Qed.

Definition audit_recordable (r : ConsumerRecord) : Prop :=
  is_Some (audit_action_of (rec_value r)) ∧
  match parse_uuid_value (dget (rec_value r) "tenant_id") with Some t => t ∈ ref_tenants refs | None => False end ∧
  refers (parse_uuid_value (dget (rec_value r) "user_id")) (ref_users refs) ∧
  refers (parse_uuid_value (dget (rec_value r) "job_id")) (ref_jobs refs).

#[export] Instance audit_recordable_dec r : Decision (audit_recordable r).
Proof. unfold audit_recordable. destruct (parse_uuid_value (dget (rec_value r) "tenant_id")); apply _. Defined.

Definition audit_content (r : ConsumerRecord) (a : AuditRow) : Prop :=
  audit_row_of (audit_created_at (ar_row a)) r = Some a.

#[export] Program Instance audit_log_once : OnceTable (list AuditRow) AuditRow := {
  table_rows := λ rows, rows;
  coord_of := ar_coord;
  recordable := audit_recordable;
  content := audit_content;
  record_message := audit_handle refs
}.
Next Obligation.
  intros r a Hc. unfold audit_content, audit_row_of in Hc.
  destruct (audit_action_of (rec_value r)); [|done]. destruct (parse_uuid_value (dget (rec_value r) "tenant_id")); [|done].
  by injection Hc as <-.
Qed.
Next Obligation.
  intros now r s ([act Ha] & Ht & Hu & Hj) Hnin. unfold audit_handle, audit_row_of. rewrite Ha.
  destruct (parse_uuid_value (dget (rec_value r) "tenant_id")) as [t|] eqn:Et; [|done].
  unfold insert_audit. cbn [ar_coord ar_row audit_tenant_id audit_user_id audit_job_id].
  rewrite bool_decide_false by (by intros [_ Hin]). rewrite bool_decide_true by done.
  eexists. split; [done|]. unfold audit_content, audit_row_of. by rewrite Ha, Et.
Qed.
Next Obligation.
  intros now r s Hin. unfold audit_handle. destruct (audit_row_of now r) as [a|] eqn:E; [|done].
  unfold insert_audit. rewrite bool_decide_true; [done|]. unfold audit_row_of in E.
  destruct (audit_action_of (rec_value r)); [|done]. destruct (parse_uuid_value (dget (rec_value r) "tenant_id")); [|done].
  injection E as <-. cbn. split; [by eexists|done].
Qed.
Next Obligation.
  intros now r s Hn. unfold audit_handle, audit_row_of, audit_recordable in *.
  destruct (audit_action_of (rec_value r)) eqn:Ea; [|done].
  destruct (parse_uuid_value (dget (rec_value r) "tenant_id")) as [t|] eqn:Et; [|done]. unfold insert_audit.
  case_bool_decide; [done|]. rewrite bool_decide_false; [done|]. cbn. intros (Hin & Hu & Hj). apply Hn.
  split_and!; [by eexists|done..].
Qed.
End Consumers.

(** ** Behind the broker *)

Section Delivery.
Context `{UuidSource} (validate : string → dict → bool) (refs : References).

(** One consumer behind a group: whatever was delivered, in whatever order and however
    often, every committed message it can record has one row with its content. *)
Lemma committed_recorded {Tbl A} `{!OnceTable Tbl A} g (ds : list (Z * ConsumerRecord)) (s : Tbl) r c :
  group_reachable validate false g →
  (∀ x, x ∈ kg_handled g → x ∈ ds.*2) → (∀ x, x ∈ ds.*2 → x ∈ kg_log g) →
  recorded [] s →
  r ∈ kg_log g → validate (rec_topic r) (rec_value r) = true →
  kg_committed g !! rec_tp r = Some c → (rec_offset r < c)%N → recordable r →
  ∃ a, filter (λ a, coord_of a = Some (rec_coord r)) (table_rows (deliver ds s)) = [a] ∧ content r a.
Proof.
  intros Hg Hall Hlog Hs Hin Hv Hc Hlt Hrec.
  apply (recorded_one (ds.*2)); [by apply (recorded_deliver ds [])| |done|].
  - apply Hall. by apply (committed_handled validate g r c).
  - intros r' Hr' E. apply (log_coordinates_unique validate g r' r Hg); [by apply Hlog|done| |].
    + unfold rec_coord in E. unfold rec_tp. congruence.
    + unfold rec_coord in E. congruence.
Qed.

(** Each event is recorded exactly once: in every interleaving of producers, polls,
    failures, rebalances and restarts in which no commit of a schema-invalid message
    raises, every valid committed event with a known tenant has exactly one row of
    [job_events], which carries its payload, and every one that maps to an action
    and refers to stored rows has exactly one row of [audit_logs] among those with
    its coordinates, beside the rows written inline. *)
Theorem committed_events_recorded_once g ds inline r c :
  group_reachable validate false g →
  (∀ x, x ∈ kg_handled g → x ∈ ds.*2) → (∀ x, x ∈ ds.*2 → x ∈ kg_log g) →
  Forall (λ a, ar_coord a = None) inline →
  r ∈ kg_log g → validate (rec_topic r) (rec_value r) = true →
  kg_committed g !! rec_tp r = Some c → (rec_offset r < c)%N →
  (event_recordable refs r →
   ∃ e, filter (λ e, ev_coord e = rec_coord r)
          (et_rows (foldl (λ t d, event_log_handle refs d.1 d.2 t) (mkEventTable [] 0) ds)) = [e] ∧
     event_row (ev_id e) (ev_recorded_at e) r = Some e) ∧
  (audit_recordable refs r →
   ∃ a, filter (λ a, ar_coord a = Some (rec_coord r))
          (foldl (λ rows d, audit_handle refs d.1 d.2 rows) inline ds) = [a] ∧
     audit_row_of (audit_created_at (ar_row a)) r = Some a).
Proof.
  intros Hg Hall Hlog Hnull Hin Hv Hc Hlt. split; intros Hrec.
  - destruct (committed_recorded (OnceTable0 := event_log_once refs) g ds (mkEventTable [] 0) r c Hg Hall Hlog) as (e & He & Hcon); try done.
    { split; [intros x Hx; by apply not_elem_of_nil in Hx|intros a c' Ha; by apply not_elem_of_nil in Ha|]. intros c'. cbn. lia. }
    exists e. split; [|done]. rewrite <- He. cbn. unfold deliver. apply list_filter_iff. intros x. cbn. split; congruence.
  - apply (committed_recorded (OnceTable0 := audit_log_once refs) g ds inline r c Hg Hall Hlog); try done.
    rewrite Forall_forall in Hnull. split.
    + intros x Hx. by apply not_elem_of_nil in Hx.
    + intros a c' Ha Hca. change (ar_coord a = Some c') in Hca. by rewrite (Hnull a Ha) in Hca.
    + intros c'. cbn. rewrite filter_none; [cbn; lia|]. intros a Ha. by rewrite (Hnull a Ha).
Qed.
End Delivery.

(** ** Paging *)

(** Pages of the audit log: consecutive pages tile one listing, newest first, of exactly
    the rows that match, and the reported total is their number. *)
Lemma audit_pages_tile f rows n size :
  let page i := (list_logs (i * size) size f rows).1 in
  concat (page <$> seq 0 n) = take (n * size) (merge_sort audit_newer (filter (λ a, audit_matches f a = true) rows)).
Proof.
  cbn. set (l := merge_sort audit_newer _). induction n as [|n IH]; [done|].
  rewrite seq_S, fmap_app, concat_app, IH. cbn. rewrite app_nil_r.
  by rewrite (Nat.add_comm size (n * size)), take_take_drop.
Qed.

(** ** A worked example *)

Module EventLogExample.
Import KafkaProps.KafkaExample.

(** A completed job of tenant 1, delivered twice. *)
Definition done_event : ConsumerRecord :=
  mkRecord "job.completed" 0 0 None
    [("event", JStr "job.completed"); ("tenant_id", juuid 1); ("job_id", juuid 7); ("user_id", juuid 2)].

Definition consumed : Group :=
  Nat.iter 2 (step calm) (poll 1 (produce done_event (assign 0 (rec_tp first) no_group))).

Definition refs : References := mkReferences {[1%N]} {[2%N]} {[7%N]}.
Definition twice : list (Z * ConsumerRecord) := [(5, done_event); (6, done_event)]%Z.

Lemma consumed_reachable : group_reachable only_completed false consumed.
Proof.
  unfold consumed. cbn [Nat.iter nat_rect]. do 2 (apply reach_message; [|right; vm_compute; discriminate]).
  apply reach_poll; [|reflexivity|vm_compute; lia]. apply reach_produce; [|vm_compute; discriminate].
  eapply reach_step; [apply rtc_refl|apply step_assign].
Qed.

Lemma committed_events_recorded_once_witness :
  (∃ e, filter (λ e, ev_coord e = rec_coord done_event)
          (et_rows (foldl (λ t d, event_log_handle refs d.1 d.2 t) (mkEventTable [] 0) twice)) = [e] ∧
     event_row (ev_id e) (ev_recorded_at e) done_event = Some e) ∧
  (∃ a, filter (λ a, ar_coord a = Some (rec_coord done_event))
          (foldl (λ rows d, audit_handle refs d.1 d.2 rows) [] twice) = [a] ∧
     audit_row_of (audit_created_at (ar_row a)) done_event = Some a).
Proof.
  destruct (committed_events_recorded_once only_completed refs consumed twice [] done_event 1) as [He Ha].
  - apply consumed_reachable.
  - intros x Hx. vm_compute in Hx. apply list_elem_of_singleton in Hx as ->. left.
  - intros x Hx. apply elem_of_cons in Hx as [->|Hx%list_elem_of_singleton]; [|rewrite Hx]; vm_compute; left.
  - constructor.
  - vm_compute. left.
  - reflexivity.
  - vm_compute. reflexivity.
  - vm_compute. reflexivity.
  - split.
    + apply He. refine (bool_decide_eq_true_1 _ _). vm_compute. reflexivity.
    + apply Ha. refine (bool_decide_eq_true_1 _ _). vm_compute. reflexivity.
Defined.
End EventLogExample.
