(* ===== verification/Cache.v ===== *)
(** * The job cache and post-commit hooks (utils/cache.py, utils/post_commit.py)

    One Redis slot per job and tenant: readers fill it if it is empty, a committed
    mutation parks a tombstone in it.  [GET /jobs/{id}] reads through it (api/jobs.py).
    Side effects that must wait for the commit are queued on the session. *)
From stdpp Require Import base tactics numbers option list gmap strings.
From Stdlib Require Import QArith.
From S2P Require Import Prelude PyData Codec Models Database JobRepo Redis JobService.

(** ** utils/cache.py *)

Definition JOB_TTL : Q := 10.
Definition NO_CACHE_TTL : Q := 30.
Definition INVALIDATED : string := "__invalidated__".

Definition cache_key (job tenant : uuid) : string := "cache:job:" +:+ uuid_str tenant +:+ ":" +:+ uuid_str job.

Section Cache.
Context `{PyCodec}.

(** [JobCache.get]: a miss, an error, the tombstone and anything but an object are
    [None]. *)
Definition cache_get (t : Q) (o : reach) (job tenant : uuid) (r : Redis) : option dict :=
  match (redis_cmd o (λ r, v ← r_get t (cache_key job tenant) r; Ok (v, r)) r).1 with
  | Ok (Some (RStr raw)) =>
      if bool_decide (raw = INVALIDATED) then None
      else match json_loads raw with Some (JObj d) => Some d | _ => None end
  | Ok (Some (RInt z)) => match json_loads (show_Z z) with Some (JObj d) => Some d | _ => None end
  | _ => None
  end.

(** [JobCache.set]: only into an empty slot. *)
Definition cache_set (t : Q) (o : reach) (job tenant : uuid) (data : dict) (r : Redis) : Redis :=
  (redis_cmd o (λ r, Ok (tt, r_set_nx t (cache_key job tenant) (RStr (json_dumps (JObj data))) (Some JOB_TTL) r)) r).2.

(** [JobCache.delete]. *)
Definition cache_delete (o : reach) (job tenant : uuid) (r : Redis) : Redis :=
  (redis_cmd o (λ r, Ok (tt, r_del (cache_key job tenant) r)) r).2.

(** [JobCache.invalidate]. *)
Definition cache_invalidate (t : Q) (o : reach) (job tenant : uuid) (r : Redis) : Redis :=
  (redis_cmd o (λ r, Ok (tt, r_set t (cache_key job tenant) (RStr INVALIDATED) (Some NO_CACHE_TTL) r)) r).2.

(** What a service asked for, done. *)
Definition apply_effect (t : Q) (o : reach) (e : cache_effect) (r : Redis) : Redis :=
  match e with
  | PostCommitInvalidate job tenant => cache_invalidate t o job tenant r
  | DeleteNow job tenant => cache_delete o job tenant r
  end.

(** ** [GET /jobs/{id}] (api/jobs.py) *)

(** [JobResponse.model_validate(job).model_dump(mode="json")]. *)
Context (render : Job → dict).

(** [JobResponse.model_validate(cached)] of what [render] printed keeps the owner. *)
Definition response_owner (d : dict) : option string :=
  match dget d "user_id" with Some (JStr s) => Some s | _ => None end.

(** The read: the cached answer if the caller may see it, else the row, which is then
    cached.  [reaches] are the two cache commands. *)
Definition get_job_endpoint (t : Q) (reaches : nat → reach) (job user : uuid) (role : UserRole) (tenant : uuid)
    (db : DB) (r : Redis) : result exn dict * Redis :=
  let from_db :=
    match get_job job user role tenant db with
    | Err e => (Err e, r)
    | Ok j => (Ok (render j), cache_set t (reaches 1%nat) job tenant (render j) r)
    end in
  match cache_get t (reaches 0%nat) job tenant r with
  | Some cached =>
      if privileged role || bool_decide (response_owner cached = Some (uuid_str user))
      then (Ok cached, r) else from_db
  | None => from_db
  end.
End Cache.

(** ** utils/post_commit.py *)

Section PostCommit.
Context {W : Type}.

(** A hook runs against the world and may raise. *)
Definition hook : Type := W → result exn W.

(** [session.info]: the queued hooks, and whether the rollback listener is installed. *)
Record SessionInfo := mkSessionInfo { si_hooks : list hook; si_guard : bool }.
Definition fresh_session : SessionInfo := mkSessionInfo [] false.

Definition register_post_commit (h : hook) (s : SessionInfo) : SessionInfo :=
  mkSessionInfo (si_hooks s ++ [h]) true.

(** The [after_soft_rollback] listener, once installed. *)
Definition on_rollback (s : SessionInfo) : SessionInfo :=
  if si_guard s then mkSessionInfo [] true else s.

(** The queue is emptied first; a raising hook is logged and the next one runs. *)
Definition run_hooks (hooks : list hook) (w : W) : W :=
  foldl (λ w h, match h w with Ok w' => w' | Err _ => w end) w hooks.
Definition run_post_commit (s : SessionInfo) (w : W) : SessionInfo * W :=
  (mkSessionInfo [] (si_guard s), run_hooks (si_hooks s) w).

(** One transaction on a session: what it registers, and how it ends. *)
Record Transaction := mkTransaction { tx_hooks : list hook; tx_commits : bool }.

(** [async with session.begin()] followed by [run_post_commit]; a raise skips it. *)
Definition run_transaction (tx : Transaction) (sw : SessionInfo * W) : SessionInfo * W :=
  let s := foldl (λ s h, register_post_commit h s) sw.1 (tx_hooks tx) in
  if tx_commits tx then run_post_commit s sw.2 else (on_rollback s, sw.2).
End PostCommit.
Arguments hook : clear implicits.
Arguments SessionInfo : clear implicits.
Arguments Transaction : clear implicits.
