(* ===== verification/CacheProps.v ===== *)
(** * Properties of the job cache

    The slot protocol over interleavings of readers, commits and invalidations; the
    post-commit queue; and the race of an eviction inside the transaction. *)
From stdpp Require Import base tactics numbers option list gmap strings relations.
From Stdlib Require Import QArith Lqa.
From S2P Require Import Prelude PyData Codec Models Database JobRepo Redis JobService Cache Fixtures.

(** ** The slot of one job *)

Section Slot.
Context `{PyCodec} (job tenant : uuid).
(** What each committed version of the row is served as, and how long a reader may take
    from reading the row to writing it back. *)
Context (row : nat → dict) (max_read : Q).
Context (row_plain : ∀ v, json_plain (JObj (row v)) = true).
Context (read_bounded : (max_read < NO_CACHE_TTL)%Q).

Let key : string := cache_key job tenant.

(** The clock, the committed version, Redis, the readers between their read and their
    write-back (what they read and when), the commits whose hook has not run, the newest
    commit whose invalidation has run and when the last one ran. *)
Record SlotWorld := mkSlot {
  sw_now : Q;
  sw_version : nat;
  sw_redis : Redis;
  sw_readers : list (nat * Q);
  sw_pending : list nat;
  sw_invalidated : nat;
  sw_last : option Q
}.

Inductive slot_step (s : SlotWorld) : SlotWorld → Prop :=
  | slot_pass t : (sw_now s <= t)%Q →
      slot_step s (mkSlot t (sw_version s) (sw_redis s) (sw_readers s) (sw_pending s) (sw_invalidated s) (sw_last s))
  | slot_miss o : cache_get (sw_now s) o job tenant (sw_redis s) = None →
      slot_step s (mkSlot (sw_now s) (sw_version s) (sw_redis s) ((sw_version s, sw_now s) :: sw_readers s)
                     (sw_pending s) (sw_invalidated s) (sw_last s))
  | slot_fill o v t0 before after :
      sw_readers s = before ++ (v, t0) :: after → (sw_now s <= t0 + max_read)%Q →
      slot_step s (mkSlot (sw_now s) (sw_version s) (cache_set (sw_now s) o job tenant (row v) (sw_redis s))
                     (before ++ after) (sw_pending s) (sw_invalidated s) (sw_last s))
  | slot_commit :
      slot_step s (mkSlot (sw_now s) (S (sw_version s)) (sw_redis s) (sw_readers s) (S (sw_version s) :: sw_pending s)
                     (sw_invalidated s) (sw_last s))
  | slot_invalidate k before after :
      sw_pending s = before ++ k :: after →
      slot_step s (mkSlot (sw_now s) (sw_version s) (cache_invalidate (sw_now s) Answered job tenant (sw_redis s))
                     (sw_readers s) (before ++ after) (Nat.max k (sw_invalidated s)) (Some (sw_now s)))
  | slot_other r :
      r !! key = sw_redis s !! key →
      slot_step s (mkSlot (sw_now s) (sw_version s) r (sw_readers s) (sw_pending s) (sw_invalidated s) (sw_last s)).

Definition slot_start (t : Q) : SlotWorld := mkSlot t 0 ∅ [] [] 0 None.
Definition slot_reachable (s : SlotWorld) : Prop := ∃ t, rtc slot_step (slot_start t) s.

(** The tombstone stands for its whole life; what the slot holds is no older than the
    newest invalidation; a reader that holds an older row started before it. *)
Record slot_inv (s : SlotWorld) : Prop := {
  si_last t : sw_last s = Some t → (t <= sw_now s)%Q;
  si_tombstone t : sw_last s = Some t → (sw_now s < t + NO_CACHE_TTL)%Q →
    sw_redis s !! key = Some (mkEntry (RStr INVALIDATED) (Some (t + NO_CACHE_TTL)%Q));
  si_slot e : sw_redis s !! key = Some e →
    e_val e = RStr INVALIDATED ∨
    ∃ v, e_val e = RStr (json_dumps (JObj (row v))) ∧ (sw_invalidated s ≤ v ≤ sw_version s)%nat;
  si_readers v t0 : (v, t0) ∈ sw_readers s → (v ≤ sw_version s)%nat ∧ (t0 <= sw_now s)%Q ∧
    ((v < sw_invalidated s)%nat → ∃ t, sw_last s = Some t ∧ (t0 <= t)%Q);
  si_pending k : k ∈ sw_pending s → (k ≤ sw_version s)%nat;
  si_below : (sw_invalidated s ≤ sw_version s)%nat
}.

Lemma slot_empty_dead s : slot_inv s → live (sw_now s) (sw_redis s) key = None →
  ∀ t, sw_last s = Some t → (t + NO_CACHE_TTL <= sw_now s)%Q.
Proof.
  intros Hinv Hd t Ht. destruct (Qlt_le_dec (sw_now s) (t + NO_CACHE_TTL)) as [Hlt|Hle]; [|done].
  unfold live in Hd. rewrite (si_tombstone s Hinv t Ht Hlt) in Hd. unfold expired in Hd. cbn [e_exp] in Hd.
  destruct (Qle_bool _ _) eqn:E; [|done]. apply Qle_bool_iff in E. exfalso. apply (Qlt_not_le _ _ Hlt E).
Qed.

(** Writing back changes the slot only when it is dead, and then with a row that is
    recent enough. *)
Lemma fill_inv s o v t0 before after :
  slot_inv s → sw_readers s = before ++ (v, t0) :: after → (sw_now s <= t0 + max_read)%Q →
  slot_inv (mkSlot (sw_now s) (sw_version s) (cache_set (sw_now s) o job tenant (row v) (sw_redis s))
              (before ++ after) (sw_pending s) (sw_invalidated s) (sw_last s)).
Proof.
  intros Hinv Hread Ht. set (r' := cache_set _ _ _ _ _ _).
  destruct (si_readers s Hinv v t0) as (Hv & Ht0 & Hold); [rewrite Hread; set_solver|].
  assert (Hr' : r' !! key = sw_redis s !! key ∨
    (live (sw_now s) (sw_redis s) key = None ∧
     r' !! key = Some (mkEntry (RStr (json_dumps (JObj (row v)))) (Some (sw_now s + JOB_TTL)%Q)))).
  { unfold r', cache_set, redis_cmd, r_set_nx. fold key. destruct o; cbn [snd]; [|by left|];
      (destruct (live (sw_now s) (sw_redis s) key) eqn:E; [by left|]; right; split; [done|];
       unfold r_set; by rewrite lookup_insert_eq). }
  split; cbn.
  - apply (si_last s Hinv).
  - intros t Hl Hlt. destruct Hr' as [->|[Hd _]]; [by apply (si_tombstone s Hinv)|].
    pose proof (slot_empty_dead s Hinv Hd t Hl) as Hle. exfalso. apply (Qlt_not_le _ _ Hlt Hle).
  - intros e He. destruct Hr' as [E|[Hd E]]; rewrite E in He; [by apply (si_slot s Hinv)|].
    injection He as <-. right. exists v. split; [done|]. split; [|done].
    destruct (decide (v < sw_invalidated s)%nat) as [Hlt|]; [|lia]. destruct (Hold Hlt) as (t & Hl & Hle).
    pose proof (slot_empty_dead s Hinv Hd t Hl). exfalso. revert Ht read_bounded. unfold NO_CACHE_TTL in *. lra.
  - intros v' t' Hin. apply (si_readers s Hinv). rewrite Hread. apply elem_of_app in Hin as [Hin|Hin]; set_solver.
  - apply (si_pending s Hinv).
  - apply (si_below s Hinv).
Qed.

Lemma slot_step_inv s s' : slot_inv s → slot_step s s' → slot_inv s'.
Proof.
  intros Hinv Hstep. destruct Hstep as [t Ht|o Hmiss|o v t0 before after Hread Ht| |k before after Hp|r Hr].
  - destruct Hinv as [H1 H2 H3 H4 H5 H6]. split; cbn; try done.
    + intros u Hu. apply Qle_trans with (sw_now s); auto.
    + intros u Hu Hlt. apply H2; [done|]. by apply Qle_lt_trans with t.
    + intros v t0 Hin. destruct (H4 v t0 Hin) as (? & ? & ?). split_and!; [done|by apply Qle_trans with (sw_now s)|done].
  - destruct Hinv as [H1 H2 H3 H4 H5 H6]. split; cbn; try done.
    intros v t0 [[= -> ->]|Hin]%elem_of_cons; [|by apply H4]. split_and!; [done|apply Qle_refl|lia].
  - by apply (fill_inv s o v t0).
  - destruct Hinv as [H1 H2 H3 H4 H5 H6]. split; cbn; try done.
    + intros e He. destruct (H3 e He) as [|(v & ? & ?)]; [by left|]. right. exists v. split; [done|lia].
    + intros v t0 Hin. destruct (H4 v t0 Hin) as (? & ? & ?). split_and!; [lia|done|done].
    + intros k [->|Hk]%elem_of_cons; [done|]. specialize (H5 k Hk). lia.
    + lia.
  - destruct Hinv as [H1 H2 H3 H4 H5 H6].
    assert (Hk : (k ≤ sw_version s)%nat) by (apply H5; rewrite Hp; set_solver).
    split; cbn.
    + intros t [= <-]. apply Qle_refl.
    + intros t [= <-] _. unfold r_set. fold key. by rewrite lookup_insert_eq.
    + intros e. unfold r_set. fold key. rewrite lookup_insert_eq. intros [= <-]. by left.
    + intros v t0 Hin. destruct (H4 v t0 Hin) as (? & Ht0 & _). split_and!; [done|done|]. intros _. by eexists.
    + intros k' Hin. apply H5. rewrite Hp. apply elem_of_app in Hin as [|]; set_solver.
    + lia.
  - destruct Hinv as [H1 H2 H3 H4 H5 H6]. split; cbn; try done.
    + intros t Hl Hlt. rewrite Hr. by apply H2.
    + intros e He. rewrite Hr in He. by apply H3.
Qed.

Lemma slot_reachable_inv s : slot_reachable s → slot_inv s.
Proof.
  intros [t Hr]. assert (H0 : slot_inv (slot_start t)).
  { split; try done.
    - intros v t0 Hin. by apply not_elem_of_nil in Hin.
    - intros k Hin. by apply not_elem_of_nil in Hin. }
  remember (slot_start t) as s0. clear Heqs0. induction Hr as [|x y z Hs _ IH]; [done|]. apply IH. by apply (slot_step_inv x).
Qed.

(** Invalidation sticks: in every interleaving of reads, write-backs, commits and
    post-commit invalidations, as long as no reader takes the tombstone's lifetime
    between reading a row and writing it back, a cache hit is a committed version of the
    row no older than the newest commit whose invalidation has run. *)
Theorem cache_hit_not_stale s o d :
  slot_reachable s → cache_get (sw_now s) o job tenant (sw_redis s) = Some d →
  ∃ v, d = row v ∧ (sw_invalidated s ≤ v ≤ sw_version s)%nat.
Proof.
  intros Hr Hget%symmetry. apply slot_reachable_inv in Hr. unfold cache_get, redis_cmd, r_get, live in Hget. fold key in Hget.
  destruct (sw_redis s !! key) as [e|] eqn:E; [|by destruct o].
  destruct (si_slot s Hr e E) as [Ht|(v & Hv & Hle)].
  - destruct (expired (sw_now s) e); [by destruct o|]. rewrite Ht in Hget. destruct o; cbn in Hget; try done.
  - destruct (expired (sw_now s) e); [by destruct o|]. rewrite Hv in Hget. destruct o; cbn [fst mbind result_mbind] in Hget; [|done..].
    case_bool_decide as Hi; [done|]. rewrite loads_dumps in Hget by apply row_plain. injection Hget as ->. by exists v.
Qed.
End Slot.

(** ** The post-commit queue *)

Section Hooks.
Context {W : Type}.
Implicit Types (txs : list (Transaction W)) (w : W).

Lemma registered_hooks (hs : list (hook W)) s :
  foldl (λ s h, register_post_commit h s) s hs = mkSessionInfo (si_hooks s ++ hs) (bool_decide (hs ≠ []) || si_guard s).
Proof.
  revert s. induction hs as [|h hs IH]; intros [hooks g]; cbn; [by rewrite app_nil_r|].
  rewrite IH. cbn. rewrite <- app_assoc. by destruct (bool_decide (hs ≠ [])).
Qed.

(** Hooks follow commits: on a session reused for any sequence of transactions,
    what runs is exactly the hooks of those that committed, each once, in the order of
    registration, whether or not earlier ones raise; nothing stays queued. *)
Theorem hooks_follow_commits txs w :
  let '(s, w') := foldl (λ sw tx, run_transaction tx sw) (fresh_session, w) txs in
  w' = run_hooks (concat (tx_hooks <$> filter (λ tx, tx_commits tx = true) txs)) w ∧ si_hooks s = [].
Proof.
  assert (Hgen : ∀ s, si_hooks s = [] →
    let '(s', w') := foldl (λ sw tx, run_transaction tx sw) (s, w) txs in
    w' = run_hooks (concat (tx_hooks <$> filter (λ tx, tx_commits tx = true) txs)) w ∧ si_hooks s' = []);
    [|by apply Hgen].
  revert w. induction txs as [|tx txs IH]; intros w s Hs; [done|]. cbn [foldl].
  unfold run_transaction at 2. cbn [fst snd]. rewrite registered_hooks, Hs. cbn [app].
  rewrite filter_cons. destruct (tx_commits tx) eqn:Ec.
  - rewrite decide_True by done. unfold run_post_commit. cbn [si_hooks si_guard fmap list_fmap concat].
    specialize (IH (run_hooks (tx_hooks tx) w) (mkSessionInfo [] (bool_decide (tx_hooks tx ≠ []) || si_guard s)) eq_refl).
    destruct (foldl _ _ txs) as [s' w']. destruct IH as [-> ->]. split; [|done]. unfold run_hooks. by rewrite foldl_app.
  - rewrite decide_False by done. apply IH. unfold on_rollback. cbn [si_guard si_hooks].
    destruct (tx_hooks tx) as [|h hs]; cbn; [|done]. by destruct (si_guard s).
Qed.
End Hooks.

(** ** Worked examples *)

Module CacheExample.
Import Fixtures.

Definition render (j : Job) : dict :=
  [("user_id", juuid (job_user_id j)); ("status", JStr (job_status_value (job_status j)))].

Definition dead_letter_db : DB := db_of [row 1 DEAD_LETTER] [].
Definition read (t : Q) (db : DB) (r : Redis) : result exn dict * Redis :=
  get_job_endpoint render t (λ _, Answered) 1 user USER tenant db r.

Definition operator : Caller := mkCaller (Some user) "user" None.

(** Resolving an incident evicts the cache inside the transaction: a read between the
    eviction and the commit caches the old row again, and after the commit the resolved
    job is served as dead-lettered.  A replay, which invalidates after its commit, is
    served as it is in the same interleaving. *)
Theorem resolve_race_serves_stale :
  (∃ j db', resolve_incident cfg request 1 user tenant dead_letter_db = Ok (j, db', [DeleteNow 1 tenant]) ∧
     job_status <$> (db_jobs db' !! 1%N) = Some COMPLETED ∧
     (read 105 db' (read 101 dead_letter_db (apply_effect 100 Answered (DeleteNow 1 tenant) ∅)).2).1 =
       Ok (render (row 1 DEAD_LETTER))) ∧
  (∃ j db', replay_job cfg request true 1 tenant operator dead_letter_db = Ok (j, db', [PostCommitInvalidate 1 tenant]) ∧
     job_status <$> (db_jobs db' !! 1%N) = Some PENDING ∧
     (read 105 db' (apply_effect 102 Answered (PostCommitInvalidate 1 tenant) (read 101 dead_letter_db ∅).2)).1 =
       Ok (render (row 1 PENDING))).
Proof. split; do 2 eexists; (split; [vm_compute; reflexivity|split; vm_compute; reflexivity]). Qed.

(** The row was dead-lettered and is pending after the first commit. *)
Definition version (v : nat) : dict := render (row 1 (match v with O => DEAD_LETTER | _ => PENDING end)).

Lemma version_plain v : json_plain (JObj (version v)) = true.
Proof. destruct v; vm_compute; reflexivity. Qed.

(** A reader misses, the replay commits and invalidates, the reader's late write-back is
    refused, and a reader after the tombstone caches the new row. *)
Definition closed_redis : Redis := cache_invalidate 0 Answered 1 tenant ∅.
Definition refilled : SlotWorld :=
  mkSlot 31 1 (cache_set 31 Answered 1 tenant (version 1) (cache_set 5 Answered 1 tenant (version 0) closed_redis))
    [] [] 1 (Some 0%Q).

Lemma refilled_reachable : slot_reachable 1 tenant version 20 refilled.
Proof.
  exists 0%Q.
  eapply rtc_l; [apply (slot_miss _ _ _ _ _ Answered); vm_compute; reflexivity|].
  eapply rtc_l; [apply slot_commit|].
  eapply rtc_l; [apply (slot_invalidate _ _ _ _ _ 1%nat [] []); reflexivity|].
  eapply rtc_l; [apply (slot_pass _ _ _ _ _ 5%Q); vm_compute; discriminate|].
  eapply rtc_l; [apply (slot_fill _ _ _ _ _ Answered 0%nat 0%Q [] []); [reflexivity|vm_compute; discriminate]|].
  eapply rtc_l; [apply (slot_pass _ _ _ _ _ 31%Q); vm_compute; discriminate|].
  eapply rtc_l; [apply (slot_miss _ _ _ _ _ Answered); vm_compute; reflexivity|].
  eapply rtc_l; [apply (slot_fill _ _ _ _ _ Answered 1%nat 31%Q [] []); [reflexivity|vm_compute; discriminate]|].
  apply rtc_refl.
Qed.

Lemma cache_hit_not_stale_witness :
  cache_get 31 Answered 1 tenant (sw_redis refilled) = Some (version 1) ∧
  ∃ v, version 1 = version v ∧ (1 ≤ v ≤ 1)%nat.
Proof.
  split; [vm_compute; reflexivity|].
  apply (cache_hit_not_stale 1 tenant version 20 version_plain ltac:(reflexivity) refilled Answered (version 1)
    refilled_reachable). vm_compute. reflexivity.
Defined.
End CacheExample.
