(* ===== verification/Supervision.v ===== *)
(** * Supervision: the worker task and its consumers

    The supervisor of the worker loop and its liveness verdict (workers/supervisor.py),
    the supervisor of each Kafka consumer ([_restart_consumer], [_supervise_consumer] of
    workers/dispatcher.py), and the kill switch it obeys (workers/kafka_consumer.py).
    Monotonic times are seconds. *)
From stdpp Require Import base tactics numbers option list gmap strings.
From Stdlib Require Import QArith Qminmax.
From S2P Require Import Prelude PyData Models Redis.

Module Worker.

Definition RESTART_BACKOFF_BASE_SECONDS : Q := 1.
Definition RESTART_BACKOFF_MAX_SECONDS : Q := 30.
Definition STABLE_RUN_SECONDS : Q := 60.

Inductive worker_state : Type := NOT_STARTED | RUNNING | RESTARTING | STOPPED.

(** How a task ends. *)
Inductive task_end : Type :=
  | TaskCancelled
  | TaskRaised (what : string)  (** the type and the message *)
  | TaskReturned.

Inductive task : Type := Alive | Ended (e : task_end).

(** [_WorkerHealth]. *)
Record WorkerHealth := mkHealth {
  wh_state : worker_state;
  wh_last_alive : option Q;
  wh_last_tick : option Q;
  wh_restarts : Z;
  wh_last_error : option string
}.

(** Where [_supervise] is: waiting for the child it started watching at some instant,
    sleeping before a restart, ended by a raise, or ended by a cancellation. *)
Inductive supervision : Type :=
  | Absent
  | Watching (attempt : Z) (started : Q)
  | BackingOff (attempt : Z) (wake : Q)
  | Crashed
  | Cancelled.

(** The module's globals. *)
Record Supervisor := mkSupervisor {
  sv_health : WorkerHealth;
  sv_task : option task;
  sv_loop : supervision;
  sv_tick_seen : bool
}.

Definition unstarted : Supervisor := mkSupervisor (mkHealth NOT_STARTED None None 0 None) None Absent false.

Definition with_health (f : WorkerHealth → WorkerHealth) (s : Supervisor) : Supervisor :=
  mkSupervisor (f (sv_health s)) (sv_task s) (sv_loop s) (sv_tick_seen s).
Definition with_loop (l : supervision) (s : Supervisor) : Supervisor :=
  mkSupervisor (sv_health s) (sv_task s) l (sv_tick_seen s).
Definition with_task (t : option task) (s : Supervisor) : Supervisor :=
  mkSupervisor (sv_health s) t (sv_loop s) (sv_tick_seen s).

Definition health_state (st : worker_state) (h : WorkerHealth) : WorkerHealth :=
  mkHealth st (wh_last_alive h) (wh_last_tick h) (wh_restarts h) (wh_last_error h).
Definition health_tick (t : option Q) (h : WorkerHealth) : WorkerHealth :=
  mkHealth (wh_state h) (wh_last_alive h) t (wh_restarts h) (wh_last_error h).
Definition health_error (e : option string) (h : WorkerHealth) : WorkerHealth :=
  mkHealth (wh_state h) (wh_last_alive h) (wh_last_tick h) (wh_restarts h) e.

(** [heartbeat]. *)
Definition heartbeat (now : Q) : Supervisor → Supervisor :=
  with_health (λ h, mkHealth (wh_state h) (Some now) (wh_last_tick h) (wh_restarts h) (wh_last_error h)).

(** [worker_tick]: arms the tick bound for good. *)
Definition worker_tick (now : Q) (s : Supervisor) : Supervisor :=
  mkSupervisor (health_tick (Some now) (sv_health s)) (sv_task s) (sv_loop s) true.

(** ** The verdict *)

Inductive unhealthy : Type := BadState | TaskNotRunning | NoHeartbeat | NoTick.

Definition task_alive (s : Supervisor) : bool := match sv_task s with Some Alive => true | _ => false end.

Definition older_than (now stale_after : Q) (t : Q) : bool := negb (Qle_bool (now - t) stale_after).

(** [worker_status]; [None] is healthy. *)
Definition worker_status (stale_after now : Q) (s : Supervisor) : option unhealthy :=
  match wh_state (sv_health s) with
  | NOT_STARTED | STOPPED => Some BadState
  | _ =>
      if negb (task_alive s) then Some TaskNotRunning
      else if match wh_last_alive (sv_health s) with
              | None => true | Some t => older_than now stale_after t end
      then Some NoHeartbeat
      else if match wh_last_tick (sv_health s) with
              | None => false | Some t => older_than now stale_after t end
      then Some NoTick
      else None
  end.

(** ** Starting, stopping, watching *)

(** [_spawn]. *)
Definition spawn (now : Q) (s : Supervisor) : Supervisor :=
  let s := heartbeat now (with_task (Some Alive) s) in
  with_health (health_tick (if sv_tick_seen s then Some now else None)) s.

(** [start]. *)
Definition start_supervisor (now : Q) (s : Supervisor) : Supervisor :=
  let s := with_health (λ h, mkHealth RUNNING (wh_last_alive h) (wh_last_tick h) 0 None) s in
  with_loop (Watching 0 now) (spawn now (heartbeat now s)).

(** [_on_worker_done]. *)
Definition on_worker_done (e : task_end) : Supervisor → Supervisor :=
  with_health (health_error (Some (match e with
                                | TaskCancelled => "cancelled"
                                | TaskRaised what => what
                                | TaskReturned => "returned"
                                end))).

(** The worker task ends, and its callback runs. *)
Definition worker_ends (e : task_end) (s : Supervisor) : Supervisor :=
  match sv_task s with
  | Some Alive => on_worker_done e (with_task (Some (Ended e)) s)
  | _ => s
  end.

(** [_heartbeat_loop], one turn; the task lives as long as [_supervise] does. *)
Definition heartbeat_turn (now : Q) (s : Supervisor) : Supervisor :=
  match sv_loop s with
  | Watching _ _ | BackingOff _ _ => if task_alive s then heartbeat now s else s
  | _ => s
  end.

(** [_backoff_for]: [None] when [float(2 ** n)] overflows, which raises. *)
Definition backoff_for (attempt : Z) : option Q :=
  if (attempt <=? 1)%Z then Some 0%Q
  else if (attempt - 2 <? 1024)%Z
  then Some (Qmin (RESTART_BACKOFF_BASE_SECONDS * inject_Z (2 ^ (attempt - 2))) RESTART_BACKOFF_MAX_SECONDS)
  else None.

(** [_supervise] between its wait and its sleep. *)
Definition supervise_wake (now : Q) (s : Supervisor) : Supervisor :=
  match sv_loop s, sv_task s with
  | Watching attempt started, Some (Ended _) =>
      let attempt := if Qle_bool STABLE_RUN_SECONDS (now - started) then 0%Z else (attempt + 1)%Z in
      match backoff_for attempt with
      | None => with_loop Crashed s
      | Some delay =>
          with_loop (BackingOff attempt (now + delay)%Q)
            (with_health (λ h, mkHealth RESTARTING (wh_last_alive h) (wh_last_tick h)
                                 (wh_restarts h + 1) (wh_last_error h)) s)
      end
  | _, _ => s
  end.

(** [_supervise] after its sleep. *)
Definition supervise_respawn (now : Q) (s : Supervisor) : Supervisor :=
  match sv_loop s with
  | BackingOff attempt wake =>
      if Qle_bool wake now
      then with_loop (Watching attempt now) (with_health (health_state RUNNING) (spawn now s))
      else s
  | _ => s
  end.

(** [_cancel_worker]: the task unwinds as [e]. *)
Definition cancel_worker (e : task_end) (s : Supervisor) : Supervisor := worker_ends e s.

(** The [except CancelledError] of [_supervise]. *)
Definition supervise_cancelled (e : task_end) (s : Supervisor) : Supervisor :=
  match sv_loop s with
  | Watching _ _ | BackingOff _ _ =>
      with_loop Cancelled (with_health (health_state STOPPED) (cancel_worker e s))
  | _ => s
  end.

(** [stop]. *)
Definition stop_supervisor (e : task_end) (s : Supervisor) : Supervisor :=
  let s := cancel_worker e (supervise_cancelled e s) in
  with_loop Absent (with_task None (with_health (health_state STOPPED) s)).

(** ** What can happen to a started supervisor *)

Inductive sup_event : Type :=
  | Tick | WatchdogTurn | WorkerEnds (e : task_end) | Wake | Respawn | Stop (e : task_end).

Definition sup_step (s : Supervisor) (te : Q * sup_event) : Supervisor :=
  match te with
  | (now, Tick) => if task_alive s then worker_tick now s else s
  | (now, WatchdogTurn) => heartbeat_turn now s
  | (_, WorkerEnds e) => worker_ends e s
  | (now, Wake) => supervise_wake now s
  | (now, Respawn) => supervise_respawn now s
  | (_, Stop e) => stop_supervisor e s
  end.

Definition sup_run : list (Q * sup_event) → Supervisor → Supervisor := λ es s, foldl sup_step s es.
End Worker.

(** ** The kill switch (workers/kafka_consumer.py) *)

Module Kill.

Definition KILL_FLAG_VALUE : string := "killed".
Definition kill_key_for (group : string) : string := "chaos:kill:" +:+ group.
Definition sticky_kill_key_for (group : string) : string := "chaos:kill_sticky:" +:+ group.
Definition latency_key_for (group : string) : string := "chaos:latency:" +:+ group.

(** [_sticky_deadline]. *)
Definition sticky_deadline (raw : option rval) : option Q :=
  match raw with
  | Some (RStr s) => py_float s
  | Some (RInt z) => Some (inject_Z z)
  | _ => None
  end.

(** [SET k v PXAT ms]. *)
Definition r_set_pxat (k : string) (v : rval) (ms : Z) (r : Redis) : Redis :=
  <[k := mkEntry v (Some (Qmake ms 1000))]> r.

(** [_rearm_sticky_kill]. *)
Definition rearm_sticky_kill (t : Q) (chaos_enabled : bool) (group : string) (marker : option rval) (r : Redis)
    : bool * Redis :=
  match sticky_deadline marker with
  | None => (false, r)
  | Some deadline =>
      if Qle_bool (deadline - t) 0 then (false, r)
      else if negb chaos_enabled then (false, r)
      else (true, r_set_pxat (kill_key_for group) (RStr KILL_FLAG_VALUE) (py_round (deadline * 1000)) r)
  end.

(** [_read_kill_state]: the flag, or a sticky window that re-arms it. *)
Definition read_kill_state (t : Q) (chaos_enabled : bool) (group : string) (r : Redis) : bool * Redis :=
  match r_mget t [kill_key_for group; sticky_kill_key_for group] r with
  | [Some _; _] => (true, r)
  | [None; marker] => rearm_sticky_kill t chaos_enabled group marker r
  | _ => (false, r)
  end.

(** [_check_chaos_kill_strict]: a lookup that fails raises. *)
Definition check_chaos_kill_strict (t : Q) (o : reach) (chaos_enabled : bool) (group : string) (r : Redis)
    : result exn bool * Redis :=
  redis_cmd o (λ r, Ok (read_kill_state t chaos_enabled group r)) r.

(** [_check_chaos_kill]: a lookup that fails is a no. *)
Definition check_chaos_kill (t : Q) (o : reach) (chaos_enabled : bool) (group : string) (r : Redis)
    : bool * Redis :=
  match check_chaos_kill_strict t o chaos_enabled group r with
  | (Ok killed, r') => (killed, r')
  | (Err _, r') => (false, r')
  end.

(** [_check_chaos_latency], in milliseconds. *)
Definition check_chaos_latency (t : Q) (o : reach) (group : string) (r : Redis) : Z :=
  match (redis_cmd o (λ r, v ← r_get t (latency_key_for group) r; Ok (v, r)) r).1 with
  | Ok (Some v) => default 0%Z (int_of_reply v)
  | _ => 0%Z
  end.
End Kill.

(** ** Supervising one consumer (workers/dispatcher.py) *)

Module ConsumerSupervision.
Import Kill.

Definition SUPERVISOR_POLL_SECONDS : Q := 2.
Definition SUPERVISOR_MAX_BACKOFF_SECONDS : Q := 30.

(** The lifecycle fields of [BaseKafkaConsumer]. *)
Record Consumer := mkConsumer {
  co_client : bool;  (** [_consumer is not None] *)
  co_running : bool;
  co_chaos_killed : bool;
  co_restarting : bool
}.

Definition new_consumer : Consumer := mkConsumer false false false false.

(** [BaseKafkaConsumer.start]: the client object is kept even when its start raises. *)
Definition consumer_start (ok : bool) (c : Consumer) : result exn unit * Consumer :=
  if ok then (Ok tt, mkConsumer true true false (co_restarting c))
  else (Err ServiceError, mkConsumer true (co_running c) (co_chaos_killed c) (co_restarting c)).

(** [BaseKafkaConsumer.stop]: a client whose stop raises is kept. *)
Definition consumer_stop (ok : bool) (c : Consumer) : result exn unit * Consumer :=
  if co_client c && negb ok
  then (Err ServiceError, mkConsumer true false (co_chaos_killed c) (co_restarting c))
  else (Ok tt, mkConsumer false false (co_chaos_killed c) (co_restarting c)).

Definition set_restarting (b : bool) (c : Consumer) : Consumer :=
  mkConsumer (co_client c) (co_running c) (co_chaos_killed c) b.

(** Where [_supervise_consumer] is. *)
Inductive phase : Type :=
  | Restarting (backoff : Q)  (** in [_restart_consumer], about to try with this backoff *)
  | Backoff (sleep : Q) (backoff : Q)  (** asleep after a failed try *)
  | Polling  (** inside [run()] *)
  | CrashPause  (** asleep after [run()] raised *)
  | Held  (** waiting for the kill key to be observed absent *)
  | Finished.

Record Supervised := mkSupervised {
  su_consumer : Consumer;
  su_phase : phase;
  su_redis : Redis
}.

(** Entering [_restart_consumer]. *)
Definition begin_restart (s : Supervised) : Supervised :=
  mkSupervised (set_restarting true (su_consumer s)) (Restarting 1) (su_redis s).

(** One try: [stop()] and [start()].  The backoff doubles, as a float that saturates;
    the cap makes the saturation invisible. *)
Definition try_restart (stop_ok start_ok : bool) (backoff : Q) (s : Supervised) : Supervised :=
  let failed c := mkSupervised c (Backoff (Qmin backoff SUPERVISOR_MAX_BACKOFF_SECONDS) (backoff * 2)) (su_redis s) in
  match consumer_stop stop_ok (su_consumer s) with
  | (Err _, c) => failed c
  | (Ok _, c) =>
      match consumer_start start_ok c with
      | (Err _, c) => failed c
      | (Ok _, c) => mkSupervised (set_restarting false c) Polling (su_redis s)
      end
  end.

(** Supervision begins: a consumer that is not running goes through the restart path. *)
Definition begin_supervision (c : Consumer) (r : Redis) : Supervised :=
  let s := mkSupervised c Polling r in
  if co_running c then s else begin_restart s.

(** What can happen next. *)
Inductive consumer_event : Type :=
  | TryRestart (stop_ok start_ok : bool)
  | SleepOver
  | PollTurn (t : Q) (o : reach)  (** [run()] comes to the top of its loop *)
  | RunRaises
  | ExternalStop (ok : bool)  (** the worker loop's own [stop()] *)
  | LoopCancelled  (** the fetch inside [run()] is cancelled, and [run()] breaks *)
  | KillLookup (t : Q) (o : reach)
  | RedisChanges (r : Redis).  (** other clients *)

(** [run()] returned: killed, or stopped and supervision ends. *)
Definition run_returned (s : Supervised) : Supervised :=
  mkSupervised (su_consumer s) (if co_chaos_killed (su_consumer s) then Held else Finished) (su_redis s).

Definition supervise_step (chaos_enabled : bool) (group : string) (s : Supervised) (ev : consumer_event) : Supervised :=
  match su_phase s, ev with
  | Restarting b, TryRestart stop_ok start_ok => try_restart stop_ok start_ok b s
  | Backoff _ b, SleepOver => mkSupervised (su_consumer s) (Restarting b) (su_redis s)
  | Polling, PollTurn t o =>
      let c := su_consumer s in
      if negb (co_running c) then run_returned s
      else if chaos_enabled then
        match check_chaos_kill t o chaos_enabled group (su_redis s) with
        | (true, r) => run_returned (mkSupervised (mkConsumer (co_client c) (co_running c) true (co_restarting c)) Polling r)
        | (false, r) => mkSupervised c Polling r
        end
      else s
  | Polling, RunRaises => mkSupervised (su_consumer s) CrashPause (su_redis s)
  | Polling, LoopCancelled => run_returned s
  | CrashPause, SleepOver => begin_restart s
  | Held, KillLookup t o =>
      match check_chaos_kill_strict t o chaos_enabled group (su_redis s) with
      | (Ok false, r) => begin_restart (mkSupervised (su_consumer s) Held r)
      | (_, r) => mkSupervised (su_consumer s) Held r
      end
  | ph, ExternalStop ok => mkSupervised (consumer_stop ok (su_consumer s)).2 ph (su_redis s)
  | ph, RedisChanges r => mkSupervised (su_consumer s) ph r
  | _, _ => s
  end.

Definition supervise (chaos_enabled : bool) (group : string) : list consumer_event → Supervised → Supervised :=
  λ evs s, foldl (supervise_step chaos_enabled group) s evs.
End ConsumerSupervision.
