(* ===== verification/SupervisionProps.v ===== *)
(** * Properties of supervision

    The liveness verdict catches a worker whose loops are all wedged, the restart ladder
    is exact until it overflows and takes the supervisor with it, a killed consumer
    stays down until its kill key is observed absent, and a sticky kill cannot outlive
    its window. *)
From stdpp Require Import base tactics numbers option list gmap strings.
From Stdlib Require Import QArith Qminmax Lqa Lia.
From S2P Require Import Prelude PyData Models Redis Supervision.

(** ** The worker task *)

Module WorkerProps.
Import Worker.

Lemma sup_run_app es1 es2 s : sup_run (es1 ++ es2) s = sup_run es2 (sup_run es1 s).
Proof. apply foldl_app. Qed.

Lemma older_true now stale t : older_than now stale t = true ↔ (stale < now - t)%Q.
Proof.
  unfold older_than. rewrite negb_true_iff, <- not_true_iff_false, Qle_bool_iff. split.
  - apply Qnot_le_lt.
  - apply Qlt_not_le.
Qed.

(** Events that say nothing about the worker's own loops. *)
Definition idle_event (te : Q * sup_event) : Prop :=
  match te.2 with Tick | Respawn => False | _ => True end.

Lemma idle_keeps_tick te s : idle_event te → wh_last_tick (sv_health (sup_step s te)) = wh_last_tick (sv_health s).
Proof.
  destruct te as [now []]; intros Hi; try done; destruct s as [h [[|]|] [] seen]; cbn;
    repeat case_match; done.
Qed.

Lemma idle_run_keeps_tick es s :
  Forall idle_event es → wh_last_tick (sv_health (sup_run es s)) = wh_last_tick (sv_health s).
Proof.
  intros H. revert s. induction H as [|te es Hte _ IH]; intros s; [done|].
  change (sup_run (te :: es) s) with (sup_run es (sup_step s te)). rewrite IH. by apply idle_keeps_tick.
Qed.

(** A worker whose loops all wedge after a tick at [t0] is reported once the bound has
    passed, however often the watchdog vouches for its task and whatever else happens,
    short of a restart. *)
Theorem wedged_worker_reported stale_after t0 now es s :
  wh_last_tick (sv_health s) = Some t0 → Forall idle_event es → (t0 + stale_after < now)%Q →
  is_Some (worker_status stale_after now (sup_run es s)).
Proof.
  intros Ht Hes Hnow. pose proof (idle_run_keeps_tick es s Hes) as Hk. rewrite Ht in Hk.
  unfold worker_status. rewrite Hk.
  assert (Ho : older_than now stale_after t0 = true) by (apply older_true; lra). rewrite Ho.
  repeat case_match; eauto.
Qed.

(** ** The restart ladder *)

Lemma backoff_ladder k :
  backoff_for k =
    if (k <=? 1)%Z then Some 0%Q
    else if (k <=? 6)%Z then Some (inject_Z (2 ^ (k - 2)))
    else if (k <=? 1025)%Z then Some 30%Q else None.
Proof.
  unfold backoff_for. destruct (k <=? 1)%Z eqn:H1; [done|]. apply Z.leb_gt in H1.
  destruct (k <=? 6)%Z eqn:H6.
  - apply Z.leb_le in H6. rewrite (proj2 (Z.ltb_lt _ _)) by lia.
    assert (Hk : (k = 2 ∨ k = 3 ∨ k = 4 ∨ k = 5 ∨ k = 6)%Z) by lia.
    destruct Hk as [->|[->|[->|[->| ->]]]]; reflexivity.
  - apply Z.leb_gt in H6. destruct (k <=? 1025)%Z eqn:Hb.
    + apply Z.leb_le in Hb. rewrite (proj2 (Z.ltb_lt _ _)) by lia. f_equal.
      unfold Qmin, GenericMinMax.gmin.
      assert (H32 : (32 ≤ 2 ^ (k - 2))%Z).
      { change 32%Z with (2 ^ 5)%Z. apply Z.pow_le_mono_r; lia. }
      destruct (_ ?= _)%Q eqn:Hc; [| |done].
      * apply Qeq_alt in Hc. unfold RESTART_BACKOFF_BASE_SECONDS, RESTART_BACKOFF_MAX_SECONDS, Qeq in Hc. cbn in Hc. lia.
      * apply Qlt_alt in Hc. unfold RESTART_BACKOFF_BASE_SECONDS, RESTART_BACKOFF_MAX_SECONDS, Qlt in Hc. cbn in Hc. lia.
    + apply Z.leb_gt in Hb. by rewrite (proj2 (Z.ltb_ge _ _)) by lia.
Qed.

(** One short run of the worker: it ends [ran] seconds after it was started, the
    supervisor notices, sleeps out its backoff and starts the next one. *)
Definition short_run (s : Supervisor) (r : Q * task_end) : Supervisor :=
  match sv_loop s with
  | Watching _ started =>
      let s := sup_run [((started + r.1)%Q, WorkerEnds r.2); ((started + r.1)%Q, Wake)] s in
      match sv_loop s with
      | BackingOff _ wake => sup_step s (wake, Respawn)
      | _ => s
      end
  | _ => s
  end.

Definition crash_loop : list (Q * task_end) → Supervisor → Supervisor := λ rs s, foldl short_run s rs.

(** What [k] consecutive short runs leave: the next run under way, or a dead supervisor. *)
Definition after_crashes (k : nat) (restarts : Z) (s : Supervisor) : Prop :=
  if (k <=? 1025)%nat
  then (∃ started, sv_loop s = Watching (Z.of_nat k) started) ∧ sv_task s = Some Alive ∧
       wh_state (sv_health s) = RUNNING ∧ wh_restarts (sv_health s) = (restarts + Z.of_nat k)%Z
  else sv_loop s = Crashed ∧ task_alive s = false.

Lemma short_run_step k n s r :
  (r.1 < STABLE_RUN_SECONDS)%Q → after_crashes k n s → after_crashes (S k) n (short_run s r).
Proof.
  intros Hr. unfold after_crashes. destruct (k <=? 1025)%nat eqn:Hk.
  - intros ((started & Hl) & Ht & Hst & Hre). apply Nat.leb_le in Hk.
    destruct (S k <=? 1025)%nat eqn:Hk';
    destruct s as [h t l seen]; cbn in Hl, Ht; subst; unfold short_run; cbn;
    unfold supervise_wake, sup_step, on_worker_done; cbn;
    (assert (Hq : Qle_bool STABLE_RUN_SECONDS (started + r.1 - started) = false)
       by (apply not_true_iff_false; rewrite Qle_bool_iff; lra));
    rewrite Hq; replace (Z.of_nat k + 1)%Z with (Z.of_nat (S k)) by lia; rewrite backoff_ladder.
    + apply Nat.leb_le in Hk'.
      assert (Hb : ∃ d, (if (Z.of_nat (S k) <=? 1)%Z then Some 0%Q
                 else if (Z.of_nat (S k) <=? 6)%Z then Some (inject_Z (2 ^ (Z.of_nat (S k) - 2)))
                 else if (Z.of_nat (S k) <=? 1025)%Z then Some 30%Q else None) = Some d).
      { rewrite (proj2 (Z.leb_le _ 1025)) by lia. repeat case_match; eauto. }
      destruct Hb as [d ->]. cbn. unfold supervise_respawn. cbn.
      rewrite (proj2 (Qle_bool_iff _ _)) by apply Qle_refl. cbn.
      split; [eauto|]. split; [done|]. split; [done|]. cbn in Hre. lia.
    + apply Nat.leb_gt in Hk'.
      rewrite !(proj2 (Z.leb_gt _ _)) by lia. done.
  - intros [Hl Ht]. apply Nat.leb_gt in Hk. rewrite (proj2 (Nat.leb_gt _ _)) by lia.
    unfold short_run. by rewrite Hl.
Qed.

Lemma crash_loop_state rs k n s :
  Forall (λ r, (r.1 < STABLE_RUN_SECONDS)%Q) rs → after_crashes k n s →
  after_crashes (k + length rs) n (crash_loop rs s).
Proof.
  intros H. revert k s. induction H as [|r rs Hr _ IH]; intros k s Hs; cbn.
  - by rewrite Nat.add_0_r.
  - rewrite Nat.add_succ_r, <- Nat.add_succ_l. apply IH. by apply short_run_step.
Qed.

Lemma start_state now s : after_crashes 0 0 (start_supervisor now s).
Proof. split; [eexists; reflexivity|]. done. Qed.

(** Nothing restarts the worker of a supervisor that crashed. *)
Definition gone (s : Supervisor) : Prop :=
  task_alive s = false ∧ (sv_loop s = Crashed ∨ sv_loop s = Absent).

Lemma gone_step s te : gone s → gone (sup_step s te).
Proof.
  destruct s as [h tk l seen], te as [now []]; intros [Ha [Hl|Hl]]; cbn in Hl; subst l; unfold gone; cbn;
    rewrite ?Ha; cbn; try (by auto); unfold worker_ends, task_alive in *; cbn in *; repeat case_match; naive_solver.
Qed.

Lemma gone_run es s : gone s → gone (sup_run es s).
Proof.
  revert s. induction es as [|te es IH]; intros s Hs; [done|]. cbn. by apply IH, gone_step.
Qed.

(** A worker that keeps ending within a minute is started again after each of its first
    1025 runs; the ladder then overflows a float inside the supervisor, which dies, and
    no event starts the worker again. *)
Theorem crash_loop_kills_supervisor now s rs :
  Forall (λ r, (r.1 < STABLE_RUN_SECONDS)%Q) rs →
  let s' := crash_loop rs (start_supervisor now s) in
  ((length rs ≤ 1025)%nat → task_alive s' = true ∧ wh_restarts (sv_health s') = Z.of_nat (length rs)) ∧
  ((1025 < length rs)%nat → ∀ es, task_alive (sup_run es s') = false).
Proof.
  intros Hrs s'. pose proof (crash_loop_state rs 0 0 _ Hrs (start_state now s)) as H.
  fold s' in H. unfold after_crashes in H. rewrite Nat.add_0_l in H. split; intros Hn.
  - rewrite (proj2 (Nat.leb_le _ _)) in H by done. destruct H as (_ & Ht & _ & Hr).
    unfold task_alive. rewrite Ht. split; [done|lia].
  - rewrite (proj2 (Nat.leb_gt _ _)) in H by done. destruct H as [Hl Ha].
    intros es. apply (gone_run es s'). split; [done|by left].
Qed.
End WorkerProps.

(** ** Killed consumers *)

Module ConsumerProps.
Import Kill ConsumerSupervision.

Section Supervise.
Context (chaos_enabled : bool) (group : string).

(** No flag, and no sticky window that would set it again. *)
Definition observed_absent (t : Q) (r : Redis) : Prop :=
  ∃ marker, r_mget t [kill_key_for group; sticky_kill_key_for group] r = [None; marker] ∧
    ∀ deadline, sticky_deadline marker = Some deadline → chaos_enabled = true → (deadline <= t)%Q.

Lemma read_kill_state_false t r r' :
  read_kill_state t chaos_enabled group r = (false, r') ↔ observed_absent t r ∧ r' = r.
Proof.
  unfold observed_absent, read_kill_state, rearm_sticky_kill, r_mget. cbn [fmap list_fmap].
  generalize (match r_get t (sticky_kill_key_for group) r with Ok o => o | Err _ => None end) as marker.
  intros marker. destruct (match r_get t (kill_key_for group) r with Ok o => o | Err _ => None end) as [flag|].
  { split; [done|]. intros [(m & [=] & _) _]. }
  destruct (sticky_deadline marker) as [d|] eqn:Hd.
  - destruct (Qle_bool (d - t) 0) eqn:Hq.
    + apply Qle_bool_iff in Hq. split.
      * intros [= <-]. split; [|done]. exists marker. split; [done|].
        intros ? [= <-]%(eq_trans (eq_sym Hd)) _. lra.
      * by intros [_ ->].
    + apply not_true_iff_false in Hq. rewrite Qle_bool_iff in Hq.
      destruct chaos_enabled; cbn.
      * split; [done|]. intros [(m & [= <-] & Hm) _]. exfalso. apply Hq. specialize (Hm d Hd eq_refl). lra.
      * split; [|by intros [_ ->]]. intros [= <-]. split; [|done]. by exists marker.
  - split; [|by intros [_ ->]]. intros [= <-]. split; [|done]. exists marker.
    split; [done|]. intros d [=]%(eq_trans (eq_sym Hd)).
Qed.

Lemma held_step s ev :
  su_phase s = Held →
  su_phase (supervise_step chaos_enabled group s ev) = Held ∨
  ∃ t, ev = KillLookup t Answered ∧ observed_absent t (su_redis s).
Proof.
  intros Hp. unfold supervise_step. rewrite Hp. destruct ev as [| | | | | |t o|]; try by left.
  destruct (check_chaos_kill_strict t o chaos_enabled group (su_redis s)) as [[[]|] r] eqn:E; try by left.
  right. exists t. unfold check_chaos_kill_strict, redis_cmd in E.
  destruct (read_kill_state t chaos_enabled group (su_redis s)) as [k r'] eqn:Ek. destruct o; simplify_eq.
  split; [done|]. by apply read_kill_state_false in Ek as [? _].
Qed.

(** A consumer stopped by its kill switch is started again only after a lookup that
    reached Redis found neither the flag nor a sticky window still open: a lookup that
    fails, or whose reply is lost, keeps it down. *)
Theorem killed_consumer_stays_down evs s :
  su_phase s = Held → su_phase (supervise chaos_enabled group evs s) ≠ Held →
  ∃ pre t post, evs = pre ++ KillLookup t Answered :: post ∧
    su_phase (supervise chaos_enabled group pre s) = Held ∧
    observed_absent t (su_redis (supervise chaos_enabled group pre s)).
Proof.
  revert s. induction evs as [|ev evs IH]; intros s Hp Hne; [done|].
  destruct (held_step s ev Hp) as [Hs|(t & -> & Ha)].
  - destruct (IH _ Hs Hne) as (pre & t & post & -> & H1 & H2). by exists (ev :: pre), t, post.
  - by exists [], t, evs.
Qed.

(** ** A sticky window is bounded *)

(** The flag expires by [limit]. *)
Definition flag_bounded (limit : Q) (r : Redis) : Prop :=
  ∀ e, r !! kill_key_for group = Some e → ∃ x, e_exp e = Some x ∧ (x <= limit)%Q.

(** The millisecond the flag is re-armed until. *)
Definition window_end (deadline : Q) : Q := Qmake (py_round (deadline * 1000)) 1000.

Lemma keys_differ : kill_key_for group ≠ sticky_kill_key_for group.
Proof. unfold kill_key_for, sticky_kill_key_for. done. Qed.

Lemma mget_marker t r m0 m1 :
  r_mget t [kill_key_for group; sticky_kill_key_for group] r = [m0; m1] →
  m1 = match r_get t (sticky_kill_key_for group) r with Ok o => o | Err _ => None end.
Proof. unfold r_mget. cbn. by intros [= _ <-]. Qed.

(** Every reader of the marker sees this deadline. *)
Definition marker_says (deadline : Q) (r : Redis) : Prop :=
  ∀ t d, sticky_deadline (match r_get t (sticky_kill_key_for group) r with Ok o => o | Err _ => None end) = Some d → d = deadline.

Lemma read_keeps_bound deadline t r b r' :
  read_kill_state t chaos_enabled group r = (b, r') →
  marker_says deadline r → flag_bounded (window_end deadline) r →
  marker_says deadline r' ∧ flag_bounded (window_end deadline) r'.
Proof.
  unfold read_kill_state. destruct (r_mget _ _ _) as [|[v|] [|m [|]]] eqn:E; try by (intros [= _ <-]).
  intros H Hm Hf. apply mget_marker in E. unfold rearm_sticky_kill in H.
  destruct (sticky_deadline m) as [d|] eqn:Hd; [|by simplify_eq].
  destruct (Qle_bool _ _); [by simplify_eq|]. destruct (negb _); [by simplify_eq|]. simplify_eq.
  apply Hm in Hd. subst d. split.
  - intros t' d'. unfold r_get, live, r_set_pxat. rewrite lookup_insert_ne by apply keys_differ. apply Hm.
  - intros e. unfold r_set_pxat. rewrite lookup_insert_eq. intros [= <-]. eexists. split; [done|]. apply Qle_refl.
Qed.

Definition lookups (ts : list Q) (r : Redis) : Redis :=
  foldl (λ r t, (read_kill_state t chaos_enabled group r).2) r ts.

Lemma lookups_keep_bound deadline ts r :
  marker_says deadline r → flag_bounded (window_end deadline) r →
  marker_says deadline (lookups ts r) ∧ flag_bounded (window_end deadline) (lookups ts r).
Proof.
  revert r. induction ts as [|t ts IH]; intros r Hm Hf; [done|].
  change (lookups (t :: ts) r) with (lookups ts (read_kill_state t chaos_enabled group r).2).
  destruct (read_kill_state t chaos_enabled group r) as [b r'] eqn:E.
  apply IH; cbn; by apply (read_keeps_bound _ _ _ _ _ E Hm Hf).
Qed.

(** However often the flag is looked up, or cleared and looked up, a sticky kill ends at
    its deadline (to the millisecond): from then on the group is not killed. *)
Theorem sticky_kill_ends deadline ts r t :
  marker_says deadline r → flag_bounded (window_end deadline) r →
  (deadline <= t)%Q → (window_end deadline <= t)%Q →
  (read_kill_state t chaos_enabled group (lookups ts r)).1 = false.
Proof.
  intros Hm Hf Ht Hw. destruct (lookups_keep_bound _ ts r Hm Hf) as [Hm' Hf'].
  set (r' := lookups ts r) in *.
  destruct (read_kill_state t chaos_enabled group r') as [b r''] eqn:E.
  assert (Ha : observed_absent t r'); [|by rewrite (proj2 (read_kill_state_false t r' r') (conj Ha eq_refl)) in E; simplify_eq].
  unfold observed_absent. unfold r_mget. cbn [fmap list_fmap].
  assert (Hnone : r_get t (kill_key_for group) r' = Ok None).
  { unfold r_get, live. destruct (r' !! kill_key_for group) as [e|] eqn:He; [|done].
    destruct (Hf' e He) as (x & Hx & Hle). unfold expired. rewrite Hx.
    rewrite (proj2 (Qle_bool_iff x t)) by lra. reflexivity. }
  rewrite Hnone. eexists. split; [done|]. intros d Hd _. rewrite (Hm' t d Hd). done.
Qed.

(** ** Restarting until it sticks *)

(** A try that cannot succeed: the client's [stop()] or [start()] raises. *)
Definition fails (c : Consumer) (try : bool * bool) : bool := (co_client c && negb try.1) || negb try.2.

(** A row of tries, each slept out before the next. *)
Fixpoint tries (l : list (bool * bool)) (s : Supervised) : Supervised :=
  match l with
  | [] => s
  | (stop_ok, start_ok) :: l' =>
      tries l' (supervise chaos_enabled group [TryRestart stop_ok start_ok; SleepOver] s)
  end.

Lemma try_fails c ph b r (o : bool * bool) :
  fails c o = true →
  ∃ c', try_restart o.1 o.2 b (mkSupervised c ph r) =
          mkSupervised c' (Backoff (Qmin b SUPERVISOR_MAX_BACKOFF_SECONDS) (b * 2)) r ∧
        co_client c' = true ∧ co_running c' = false ∧ co_restarting c' = co_restarting c.
Proof.
  unfold fails, try_restart, consumer_stop. cbn. destruct (co_client c && negb o.1); cbn.
  - intros _. eexists. done.
  - destruct o.2; cbn; [done|]. intros _. eexists. done.
Qed.

(** From a restart, every try that fails doubles the pause before the next one up to
    half a minute, and keeps the consumer marked as restarting; the first one that
    succeeds leaves it running, unmarked and no longer killed. *)
Theorem restart_until_it_sticks (l : list bool) c r :
  let s := tries ((λ stop_ok, (stop_ok, false)) <$> l) (begin_restart (mkSupervised c CrashPause r)) in
  su_phase s = Restarting (inject_Z (2 ^ Z.of_nat (length l))) ∧ co_restarting (su_consumer s) = true ∧
  (∀ stop_ok, su_phase (supervise_step chaos_enabled group s (TryRestart stop_ok false)) =
     Backoff (Qmin (inject_Z (2 ^ Z.of_nat (length l))) 30) (inject_Z (2 ^ Z.of_nat (S (length l))))) ∧
  supervise_step chaos_enabled group s (TryRestart true true) = mkSupervised (mkConsumer true true false false) Polling r.
Proof.
  assert (Hgen : ∀ k c, co_restarting c = true →
    ∃ c', tries ((λ stop_ok, (stop_ok, false)) <$> l) (mkSupervised c (Restarting (inject_Z (2 ^ Z.of_nat k))) r) =
          mkSupervised c' (Restarting (inject_Z (2 ^ Z.of_nat (k + length l)))) r ∧ co_restarting c' = true).
  { clear c. induction l as [|o l IH]; intros k c Hc; cbn.
    - rewrite Nat.add_0_r. eauto.
    - unfold supervise. cbn. unfold supervise_step at 1. cbn.
      destruct (try_fails c (Restarting (inject_Z (2 ^ Z.of_nat k))) (inject_Z (2 ^ Z.of_nat k)) r (o, false)) as (c' & Ht & _ & _ & Hr).
      { unfold fails. cbn. apply orb_true_r. }
      cbn in Ht. rewrite Ht. cbn.
      change (inject_Z (2 ^ Z.of_nat k) * 2)%Q with (inject_Z (2 ^ Z.of_nat k * 2)).
      replace (2 ^ Z.of_nat k * 2)%Z with (2 ^ Z.of_nat (S k))%Z by (rewrite Nat2Z.inj_succ, Z.pow_succ_r; lia).
      rewrite Nat.add_succ_r, <- Nat.add_succ_l. apply IH. by rewrite Hr. }
  destruct (Hgen 0%nat (set_restarting true c) eq_refl) as (c' & Heq & Hc').
  intros s. assert (Hs : s = mkSupervised c' (Restarting (inject_Z (2 ^ Z.of_nat (length l)))) r) by exact Heq.
  clearbody s. subst s. split; [reflexivity|]. split; [exact Hc'|]. split.
  - intros o. unfold supervise_step. cbn [su_phase].
    destruct (try_fails c' (Restarting (inject_Z (2 ^ Z.of_nat (length l)))) (inject_Z (2 ^ Z.of_nat (length l))) r (o, false)) as (c'' & Ht & _).
    { unfold fails. cbn. apply orb_true_r. }
    cbn [fst snd] in Ht. rewrite Ht. cbn [su_phase]. f_equal.
    change (inject_Z (2 ^ Z.of_nat (length l)) * 2)%Q with (inject_Z (2 ^ Z.of_nat (length l) * 2)).
    f_equal. rewrite Nat2Z.inj_succ, Z.pow_succ_r; lia.
  - unfold supervise_step, try_restart, consumer_stop. cbn. by rewrite andb_false_r.
Qed.
End Supervise.
End ConsumerProps.

(** ** Worked examples *)

Module SupervisionExample.
Import Worker WorkerProps Kill ConsumerSupervision ConsumerProps.

(** A worker that ticked at second 1 and then only has its watchdog. *)
Definition ticked : Supervisor := sup_step (start_supervisor 0 unstarted) (1, Tick).

Lemma wedged_worker_reported_witness :
  worker_status 30 20 (sup_run [(20, WatchdogTurn)] ticked) = None ∧
  is_Some (worker_status 30 40 (sup_run [(20, WatchdogTurn); (39, WatchdogTurn)] ticked)).
Proof.
  split; [reflexivity|].
  apply (wedged_worker_reported 30 1 40 [(20, WatchdogTurn); (39, WatchdogTurn)]%Q ticked).
  - reflexivity.
  - repeat constructor.
  - lra.
Defined.

(** A worker that returns at once, 1026 times. *)
Definition returning : list (Q * task_end) := replicate 1026 (0%Q, TaskReturned).

Lemma crash_loop_kills_supervisor_witness :
  task_alive (sup_run [(40000, Wake); (40000, Respawn)]%Q (crash_loop returning (start_supervisor 0 unstarted))) = false.
Proof.
  apply (crash_loop_kills_supervisor 0 unstarted returning).
  - apply Forall_replicate. apply Qlt_alt. reflexivity.
  - unfold returning. rewrite length_replicate. lia.
Defined.

Definition group : string := "saga-coordinator".
Definition killed_redis : Redis := r_set 0 (kill_key_for group) (RStr KILL_FLAG_VALUE) (Some 60%Q) ∅.

(** Killed at second 1; a lookup at second 2 finds the flag, one at second 30 is lost,
    one at second 61 finds it expired. *)
Definition held : Supervised :=
  supervise true group [TryRestart true true; PollTurn 1 Answered] (begin_supervision new_consumer killed_redis).
Definition released : list consumer_event :=
  [KillLookup 2 Answered; KillLookup 30 ReplyLost; KillLookup 61 NotReached; KillLookup 61 Answered].

Lemma killed_consumer_stays_down_witness :
  su_phase (supervise true group (take 3 released) held) = Held ∧
  ∃ pre t post, released = pre ++ KillLookup t Answered :: post ∧
    su_phase (supervise true group pre held) = Held ∧
    observed_absent true group t (su_redis (supervise true group pre held)).
Proof.
  split; [vm_compute; reflexivity|].
  apply (killed_consumer_stays_down true group released held); [vm_compute; reflexivity|].
  assert (H : su_phase (supervise true group released held) = Restarting 1) by (vm_compute; reflexivity).
  rewrite H. intros [=].
Defined.

(** A sticky kill until second 100, its flag cleared by a restart. *)
Definition sticky_redis : Redis := r_set 0 (sticky_kill_key_for group) (RStr "100.0") (Some 100%Q) ∅.

Lemma sticky_kill_ends_witness :
  (read_kill_state 50 true group sticky_redis).1 = true ∧
  (read_kill_state 100 true group (lookups true group [50; 60; 99]%Q sticky_redis)).1 = false.
Proof.
  split; [vm_compute; reflexivity|].
  apply (sticky_kill_ends true group (1000 # 10) [50; 60; 99]%Q sticky_redis 100).
  - intros t d. unfold r_get, live, sticky_redis, r_set. rewrite lookup_insert_eq.
    destruct (expired t _); cbn [e_val]; [intros [=]|].
    intros H. assert (E : py_float "100.0" = Some (1000 # 10)%Q) by (vm_compute; reflexivity).
    cbn [sticky_deadline] in H. rewrite E in H. congruence.
  - intros e. unfold sticky_redis, r_set. rewrite lookup_insert_ne by (intros [=]). rewrite lookup_empty. intros [=].
  - apply Qle_bool_iff. reflexivity.
  - apply Qle_bool_iff. vm_compute. reflexivity.
Defined.
End SupervisionExample.
