(* ===== verification/LeaderLock.v ===== *)
(** * The leader gate (core/leader_lock.py)

    Each replica's relay enters a gate built on a session-level advisory lock: it checks
    out a pooled connection, tries the lock on it, and gives the lock back on the same
    connection.  A session lock belongs to its connection and is re-entrant; a connection
    that is thrown away loses its locks. *)
From stdpp Require Import base tactics numbers option list gmap.
From S2P Require Import Prelude.

Definition conn := nat.
Definition replica := nat.

(** Where a replica is inside [advisory_leader_lock]. *)
Inductive gate_phase : Type :=
  | Connected (c : conn)  (** about to try the lock *)
  | Tried (c : conn) (acquired : bool)  (** about to end the transaction of the try *)
  | Leading (c : conn)  (** [yield True] *)
  | Following (c : conn)  (** [yield False] *)
  | Releasing (c : conn)
  | Closing (c : conn).

Definition phase_conn (p : gate_phase) : conn :=
  match p with
  | Connected c | Tried c _ | Leading c | Following c | Releasing c | Closing c => c
  end.

Record LockWorld := mkLockWorld {
  lw_lock : option (conn * nat);  (** the holder and how often it took the lock *)
  lw_idle : gset conn;  (** the pool *)
  lw_next : conn;
  lw_gates : gmap replica gate_phase
}.

Definition no_locks : LockWorld := mkLockWorld None ∅ 0 ∅.

(** [pg_try_advisory_lock]. *)
Definition try_advisory_lock (c : conn) (lock : option (conn * nat)) : bool * option (conn * nat) :=
  match lock with
  | None => (true, Some (c, 1%nat))
  | Some (h, n) => if bool_decide (h = c) then (true, Some (h, S n)) else (false, lock)
  end.

(** [pg_advisory_unlock]. *)
Definition advisory_unlock (c : conn) (lock : option (conn * nat)) : option (conn * nat) :=
  match lock with
  | Some (h, S (S n)) => if bool_decide (h = c) then Some (h, S n) else lock
  | Some (h, _) => if bool_decide (h = c) then None else lock
  | None => None
  end.

(** A connection that ends frees what it holds. *)
Definition free_locks (c : conn) (lock : option (conn * nat)) : option (conn * nat) :=
  match lock with
  | Some (h, n) => if bool_decide (h = c) then None else lock
  | None => None
  end.

Definition set_gate (k : replica) (p : option gate_phase) (w : LockWorld) : LockWorld :=
  mkLockWorld (lw_lock w) (lw_idle w) (lw_next w) (partial_alter (λ _, p) k (lw_gates w)).
Definition set_lock (l : option (conn * nat)) (w : LockWorld) : LockWorld :=
  mkLockWorld l (lw_idle w) (lw_next w) (lw_gates w).

(** The connection is invalidated and the gate raises. *)
Definition invalidate (k : replica) (c : conn) (w : LockWorld) : LockWorld :=
  set_gate k None (set_lock (free_locks c (lw_lock w)) w).

Inductive gate_event : Type :=
  | Connect (idle : option conn)  (** [engine.connect()]: from the pool, or new *)
  | TryLock (ok : bool)
  | EndTry (ok : bool)
  | LeaveBody  (** the caller's block ends, by a raise or not *)
  | Unlock (ok : bool)
  | Close.

(** One step of one replica; a call on the connection that does not come back ([ok] is
    [false]) loses the connection. *)
Definition gate_step (w : LockWorld) (e : replica * gate_event) : LockWorld :=
  let k := e.1 in
  match lw_gates w !! k, e.2 with
  | None, Connect (Some c) =>
      if bool_decide (c ∈ lw_idle w)
      then set_gate k (Some (Connected c)) (mkLockWorld (lw_lock w) (lw_idle w ∖ {[c]}) (lw_next w) (lw_gates w))
      else w
  | None, Connect None =>
      set_gate k (Some (Connected (lw_next w))) (mkLockWorld (lw_lock w) (lw_idle w) (S (lw_next w)) (lw_gates w))
  | Some (Connected c), TryLock true =>
      let '(acquired, lock) := try_advisory_lock c (lw_lock w) in
      set_gate k (Some (Tried c acquired)) (set_lock lock w)
  | Some (Connected c), TryLock false => invalidate k c w
  | Some (Tried c acquired), EndTry true =>
      set_gate k (Some (if acquired then Leading c else Following c)) w
  | Some (Tried c _), EndTry false => invalidate k c w
  | Some (Leading c), LeaveBody => set_gate k (Some (Releasing c)) w
  | Some (Following c), LeaveBody => set_gate k (Some (Closing c)) w
  | Some (Releasing c), Unlock true => set_gate k (Some (Closing c)) (set_lock (advisory_unlock c (lw_lock w)) w)
  | Some (Releasing c), Unlock false => invalidate k c w
  | Some (Closing c), Close => set_gate k None (mkLockWorld (lw_lock w) (lw_idle w ∪ {[c]}) (lw_next w) (lw_gates w))
  | _, _ => w
  end.

Definition gate_run : list (replica * gate_event) → LockWorld := λ es, foldl gate_step no_locks es.

(** ** The invariant *)

(** Between a successful try and the release. *)
Definition owns (p : gate_phase) : bool :=
  match p with Tried _ true | Leading _ | Releasing _ => true | _ => false end.

Record lock_inv (w : LockWorld) : Prop := {
  li_distinct k1 k2 p1 p2 : lw_gates w !! k1 = Some p1 → lw_gates w !! k2 = Some p2 →
    phase_conn p1 = phase_conn p2 → k1 = k2;
  li_idle k p : lw_gates w !! k = Some p → phase_conn p ∉ lw_idle w;
  li_fresh k p : lw_gates w !! k = Some p → (phase_conn p < lw_next w)%nat;
  li_idle_fresh c : c ∈ lw_idle w → (c < lw_next w)%nat;
  li_owner k p : lw_gates w !! k = Some p → owns p = true → lw_lock w = Some (phase_conn p, 1%nat);
  li_held c n : lw_lock w = Some (c, n) → ∃ k p, lw_gates w !! k = Some p ∧ owns p = true ∧ phase_conn p = c
}.
