(* ===== verification/LeaderLockProps.v ===== *)
(** * Properties of the leader gate

    Over every interleaving of replicas, with connections lost at any call: at most one
    replica is inside the gated block, and the lock is never left behind on a pooled
    connection, so the next replica to ask gets it. *)
From stdpp Require Import base tactics numbers option list gmap.
From S2P Require Import Prelude LeaderLock.

Lemma no_locks_inv : lock_inv no_locks.
Proof. split; cbn; try done; intros *; try (by rewrite lookup_empty); set_solver. Qed.

Lemma gates_set k p w k' :
  lw_gates (set_gate k p w) !! k' = if decide (k = k') then p else lw_gates w !! k'.
Proof.
  cbn. case_decide; [subst; by rewrite lookup_partial_alter_eq|by rewrite lookup_partial_alter_ne].
Qed.

(** A replica moves on with its connection and without touching the lock. *)
Lemma move_inv k p p' w :
  lock_inv w → lw_gates w !! k = Some p → phase_conn p' = phase_conn p → owns p' = owns p →
  lock_inv (set_gate k (Some p') w).
Proof.
  intros [H1 H2 H3 H4 H5 H6] Hk Hc Ho. split.
  - intros k1 k2 p1 p2. rewrite !gates_set. repeat case_decide; intros; simplify_eq; try done; eapply H1; eauto; congruence.
  - intros k1 p1. rewrite gates_set. case_decide; intros; simplify_eq; cbn; rewrite ?Hc; eauto.
  - intros k1 p1. rewrite gates_set. case_decide; intros; simplify_eq; cbn; rewrite ?Hc; eauto.
  - exact H4.
  - intros k1 p1. rewrite gates_set. case_decide; intros; simplify_eq; cbn; [rewrite Hc|]; eapply H5; eauto; congruence.
  - intros c n Hl. destruct (H6 c n Hl) as (k1 & p1 & Hk1 & Ho1 & Hc1). destruct (decide (k = k1)) as [->|Hne].
    + exists k1, p'. rewrite gates_set, decide_True by done. simplify_eq. repeat split; congruence.
    + exists k1, p1. by rewrite gates_set, decide_False by done.
Qed.

(** The connection's lock, if it holds it, is gone. *)
Lemma freed_inv k p p' w :
  lock_inv w → lw_gates w !! k = Some p →
  match p' with Some q => phase_conn q = phase_conn p ∧ owns q = false | None => True end →
  lock_inv (set_gate k p' (set_lock (free_locks (phase_conn p) (lw_lock w)) w)).
Proof.
  intros [H1 H2 H3 H4 H5 H6] Hk Hp'. split.
  - intros k1 k2 p1 p2. rewrite !gates_set. cbn. repeat case_decide; intros; simplify_eq; try done; destruct_and?;
      eapply H1; eauto; congruence.
  - intros k1 p1. rewrite gates_set. case_decide; intros; simplify_eq; cbn; [destruct Hp' as [-> _]|]; eauto.
  - intros k1 p1. rewrite gates_set. case_decide; intros; simplify_eq; cbn; [destruct Hp' as [-> _]|]; eauto.
  - exact H4.
  - intros k1 p1. rewrite gates_set. case_decide as Hd; intros Hp1 Ho1.
    + subst p'. destruct Hp' as [_ Hn]. congruence.
    + cbn in *. rewrite (H5 _ _ Hp1 Ho1). cbn. rewrite bool_decide_false; [done|].
      intros E. by destruct Hd; rewrite (H1 k1 k p1 p Hp1 Hk E).
  - cbn. intros c n Hl. destruct (lw_lock w) as [[h m]|] eqn:El; [|done]. cbn in Hl.
    case_bool_decide as Hh; [done|]. simplify_eq.
    destruct (H6 c n eq_refl) as (k1 & p1 & Hk1 & Ho1 & Hc1). exists k1, p1.
    rewrite lookup_partial_alter_ne; [done|]. intros ->. congruence.
Qed.

(** A free lock is taken. *)
Lemma taken_inv k c w :
  lock_inv w → lw_gates w !! k = Some (Connected c) → lw_lock w = None →
  lock_inv (set_gate k (Some (Tried c true)) (set_lock (Some (c, 1%nat)) w)).
Proof.
  intros [H1 H2 H3 H4 H5 H6] Hk Hn.
  assert (Hno : ∀ k p, lw_gates w !! k = Some p → owns p = true → False).
  { intros k1 p1 Hk1 Ho. pose proof (H5 _ _ Hk1 Ho). congruence. }
  split.
  - intros k1 k2 p1 p2. rewrite !gates_set. cbn. repeat case_decide; intros; simplify_eq; try done; by eapply (H1 k1 k2).
  - intros k1 p1. rewrite gates_set. case_decide; intros; simplify_eq; cbn; eauto. by apply (H2 k1 _ Hk).
  - intros k1 p1. rewrite gates_set. case_decide; intros; simplify_eq; cbn; eauto. by apply (H3 k1 _ Hk).
  - exact H4.
  - intros k1 p1. rewrite gates_set. case_decide; intros; simplify_eq; [done|]. exfalso. eauto.
  - cbn. intros c' n [= <- <-]. exists k, (Tried c true). cbn. by rewrite lookup_partial_alter_eq.
Qed.

(** A replica enters with a connection nobody else uses. *)
Lemma enter_inv k c idle next w :
  lock_inv w → lw_gates w !! k = None →
  (c < next)%nat → (lw_next w ≤ next)%nat → idle ⊆ lw_idle w → c ∉ idle →
  (∀ k' p, lw_gates w !! k' = Some p → phase_conn p ≠ c) →
  lock_inv (set_gate k (Some (Connected c)) (mkLockWorld (lw_lock w) idle next (lw_gates w))).
Proof.
  intros [H1 H2 H3 H4 H5 H6] Hk Hc Hn Hi Hci Hnew. split.
  - intros k1 k2 p1 p2. rewrite !gates_set. cbn. repeat case_decide; intros; simplify_eq; eauto; cbn in *.
    + exfalso. by eapply Hnew.
    + exfalso. by eapply Hnew.
  - intros k1 p1. rewrite gates_set. case_decide; intros Hp1; cbn in *; [by simplify_eq|].
    intros Hin. apply (H2 k1 p1); [done|]. by apply Hi.
  - intros k1 p1. rewrite gates_set. case_decide; intros Hp1; cbn in *; [by simplify_eq|].
    specialize (H3 k1 p1 Hp1). lia.
  - cbn. intros c' Hc'. specialize (H4 c' (Hi _ Hc')). lia.
  - intros k1 p1. rewrite gates_set. case_decide; intros; simplify_eq. by apply (H5 k1 p1).
  - cbn. intros c' n Hl. destruct (H6 c' n Hl) as (k1 & p1 & Hk1 & ?). exists k1, p1.
    rewrite lookup_partial_alter_ne; [done|congruence].
Qed.

Lemma leave_inv k c w :
  lock_inv w → lw_gates w !! k = Some (Closing c) →
  lock_inv (set_gate k None (mkLockWorld (lw_lock w) (lw_idle w ∪ {[c]}) (lw_next w) (lw_gates w))).
Proof.
  intros [H1 H2 H3 H4 H5 H6] Hk. split.
  - intros k1 k2 p1 p2. rewrite !gates_set. cbn. repeat case_decide; intros; simplify_eq; eauto.
  - intros k1 p1. rewrite gates_set. case_decide as Hd; intros E; simplify_eq; cbn in *.
    intros [Hin|Hin]%elem_of_union; [by apply (H2 k1 p1)|]. apply elem_of_singleton in Hin.
    apply Hd. symmetry. by apply (H1 k1 k p1 (Closing c)).
  - intros k1 p1. rewrite gates_set. case_decide; intros; simplify_eq. by apply (H3 k1 p1).
  - cbn. intros c' [?| ->%elem_of_singleton]%elem_of_union; [by apply H4|]. by apply (H3 k _ Hk).
  - intros k1 p1. rewrite gates_set. case_decide; intros; simplify_eq. by apply (H5 k1 p1).
  - cbn. intros c' n Hl. destruct (H6 c' n Hl) as (k1 & p1 & Hk1 & Ho & Hc). exists k1, p1.
    rewrite lookup_partial_alter_ne; [done|]. intros ->. by simplify_eq.
Qed.

Lemma step_inv w e : lock_inv w → lock_inv (gate_step w e).
Proof.
  intros Hw. destruct e as [k ev]. unfold gate_step. cbn.
  destruct (lw_gates w !! k) as [[c|c a|c|c|c|c]|] eqn:Hk; destruct ev as [[c'|]|[]|[]| |[]|]; try exact Hw.
  - destruct (lw_lock w) as [[h n]|] eqn:Hl; cbn.
    + case_bool_decide as Hh.
      * subst h. destruct (li_held w Hw c n Hl) as (k1 & p1 & Hk1 & Ho & Hc).
        pose proof (li_distinct w Hw k1 k p1 (Connected c) Hk1 Hk Hc) as ->. rewrite Hk in Hk1.
        injection Hk1 as <-. discriminate Ho.
      * replace (set_lock (Some (h, n)) w) with w by (destruct w; cbn in *; by subst).
        by apply (move_inv k (Connected c)).
    + by apply taken_inv.
  - by apply (freed_inv k (Connected c) None).
  - apply (move_inv k (Tried c a)); [done|done|by destruct a|by destruct a].
  - by apply (freed_inv k (Tried c a) None).
  - by apply (move_inv k (Leading c)).
  - by apply (move_inv k (Following c)).
  - pose proof (li_owner w Hw k _ Hk eq_refl) as Hl. cbn in Hl.
    replace (advisory_unlock c (lw_lock w)) with (free_locks c (lw_lock w)) by (by rewrite Hl).
    by apply (freed_inv k (Releasing c) (Some (Closing c))).
  - by apply (freed_inv k (Releasing c) None).
  - by apply leave_inv.
  - case_bool_decide as Hc; [|done]. apply enter_inv; try done.
    + by apply (li_idle_fresh w Hw).
    + set_solver.
    + set_solver.
    + intros k' p Hp E. subst. by apply (li_idle w Hw k' p).
  - apply enter_inv; try done; [lia|lia| |].
    + intros Hin. pose proof (li_idle_fresh w Hw _ Hin). lia.
    + intros k' p Hp E. pose proof (li_fresh w Hw k' p Hp). lia.
Qed.

Lemma run_inv es : lock_inv (gate_run es).
Proof.
  unfold gate_run. assert (H : ∀ w, lock_inv w → lock_inv (foldl gate_step w es)); [|apply H, no_locks_inv].
  induction es as [|e es IH]; intros w Hw; [done|]. cbn. by apply IH, step_inv.
Qed.


(** Leadership is never stranded: when no replica is between its try and its release,
    the next one to come leads, on a new connection or on any pooled one. *)
Theorem leadership_is_free es k idle :
  lw_gates (gate_run es) !! k = None →
  (∀ k' p, lw_gates (gate_run es) !! k' = Some p → owns p = false) →
  match idle with Some c => c ∈ lw_idle (gate_run es) | None => True end →
  ∃ c, lw_gates (gate_run (es ++ [(k, Connect idle); (k, TryLock true); (k, EndTry true)])) !! k = Some (Leading c).
Proof.
  intros Hk Hno Hidle. unfold gate_run. rewrite foldl_app. fold (gate_run es).
  assert (Hl : lw_lock (gate_run es) = None).
  { destruct (lw_lock (gate_run es)) as [[c n]|] eqn:E; [|done].
    destruct (li_held _ (run_inv es) c n E) as (k' & p & Hp & Ho & _). by rewrite (Hno k' p Hp) in Ho. }
  set (w := gate_run es) in *. cbn [foldl].
  assert (Hc : ∃ c, lw_gates (gate_step w (k, Connect idle)) !! k = Some (Connected c) ∧
                    lw_lock (gate_step w (k, Connect idle)) = None).
  { unfold gate_step. cbn. rewrite Hk. destruct idle as [c|]; [rewrite bool_decide_true by done|];
      eexists; cbn; by rewrite lookup_partial_alter_eq. }
  destruct Hc as (c & Hc & Hl'). exists c. generalize dependent (gate_step w (k, Connect idle)). intros w' Hc Hl'.
  assert (Ht : gate_step w' (k, TryLock true) = set_gate k (Some (Tried c true)) (set_lock (Some (c, 1%nat)) w')).
  { unfold gate_step. cbn. by rewrite Hc, Hl'. }
  rewrite Ht. unfold gate_step. cbn. by rewrite lookup_partial_alter_eq; cbn; rewrite lookup_partial_alter_eq.
Qed.

(** ** Worked examples *)

Module LeaderExample.

(** Two replicas; the first leads and loses its connection while releasing. *)
Definition handover : list (replica * gate_event) :=
  [(0, Connect None); (0, TryLock true); (1, Connect None); (1, TryLock true); (0, EndTry true); (1, EndTry true);
   (0, LeaveBody); (1, LeaveBody); (0, Unlock false); (1, Close)]%nat.


Lemma leadership_is_free_witness :
  ∃ c, lw_gates (gate_run (handover ++ [(1, Connect (Some 1)); (1, TryLock true); (1, EndTry true)]%nat)) !! 1%nat
       = Some (Leading c).
Proof.
  apply (leadership_is_free handover 1 (Some 1%nat)).
  - reflexivity.
  - intros k' p Hp. exfalso. assert (E : lw_gates (gate_run handover) = ∅) by reflexivity.
    rewrite E, lookup_empty in Hp. discriminate.
  - apply (bool_decide_eq_true_1 (1%nat ∈ lw_idle (gate_run handover))). vm_compute. reflexivity.
Defined.
End LeaderExample.
