(* ===== verification/ConsumerLag.v ===== *)
(** * Consumer lag readings (core/consumer_lag.py)

    What the metrics pass records about a consumer group in Redis (its lag, a rolling
    window of dated measurements, when its consumer last polled) and what a reader makes
    of it.  Datetimes are microseconds, Redis times and intervals are seconds. *)
From stdpp Require Import base tactics numbers option list gmap strings sorting.
From Stdlib Require Import QArith Qminmax Qround.
From S2P Require Import Prelude PyData Codec Models Redis.

Definition CONSUMER_LAG_KEY_PREFIX : string := "kafka:consumer_lag:".
Definition LAG_SAMPLES_SUFFIX : string := ":samples".
Definition LAST_POLL_SUFFIX : string := ":last_poll".
Definition LAG_SAMPLES_WINDOW_SECONDS : Z := 900.
Definition LAG_SAMPLES_MAX_ENTRIES : nat := 240.
Definition LAG_SAMPLES_TTL : Q := inject_Z (LAG_SAMPLES_WINDOW_SECONDS + 180).
Definition MIN_METRICS_INTERVAL_SECONDS : Q := 1.
Definition LAG_VALUE_TTL_INTERVALS : Q := 3.
Definition MIN_LAG_VALUE_TTL_SECONDS : Z := 15.
Definition LAG_QUERY_TIMEOUT_CAP_SECONDS : Q := 2.
Definition LIVE_REFRESHED_GROUP : string := "worker-dispatcher".
Definition DEPENDENCY_RESOLVER_GROUP : string := "dependency-resolver".
Definition LIVE_REFRESHED_GROUPS : list string := [LIVE_REFRESHED_GROUP; DEPENDENCY_RESOLVER_GROUP].
Definition PAGED_LAG_GROUPS : list string := [LIVE_REFRESHED_GROUP].
Definition STATIC_LAG_GROUPS : list string :=
  ["billing-consumer"; "orders-consumer"; "notifications-consumer"; "analytics-consumer"; "payments-consumer";
   "shipping-consumer"; "healthy-consumer"].
Definition POLL_FETCH_BOUND_SECONDS : Q := 2.
Definition POLL_INTERVAL_SECONDS : Q := POLL_FETCH_BOUND_SECONDS.
Definition POLLING_INTERVALS : Q := 5.

Inductive LagSource : Type := live_source | static_source | unrecognized.

#[export] Instance LagSource_eq_dec : EqDecision LagSource.
Proof. solve_decision. Defined.

(** ** The clock *)

(** [metrics_interval_seconds], [lag_value_ttl_seconds], [lag_query_timeout_seconds] at
    the configured [metrics_loop_interval_seconds]. *)
Definition metrics_interval_seconds (configured : Q) : Q := Qmax MIN_METRICS_INTERVAL_SECONDS configured.
Definition lag_value_ttl_seconds (configured : Q) : Z :=
  Z.max MIN_LAG_VALUE_TTL_SECONDS (Qceiling (LAG_VALUE_TTL_INTERVALS * metrics_interval_seconds configured)).
Definition lag_query_timeout_seconds (configured : Q) : Q :=
  Qmin LAG_QUERY_TIMEOUT_CAP_SECONDS (metrics_interval_seconds configured / 2).

(** [lag_samples_at_interval]. *)
Definition lag_samples_at_interval (interval : Q) : nat :=
  let interval := Qmax MIN_METRICS_INTERVAL_SECONDS interval in
  Nat.min LAG_SAMPLES_MAX_ENTRIES (Nat.max 1 (Z.to_nat (Qfloor (inject_Z LAG_SAMPLES_WINDOW_SECONDS / interval)))).

Definition lag_key (group : string) : string := CONSUMER_LAG_KEY_PREFIX +:+ group.
Definition samples_key (group : string) : string := lag_key group +:+ LAG_SAMPLES_SUFFIX.
Definition last_poll_key (group : string) : string := lag_key group +:+ LAST_POLL_SUFFIX.

Definition source_for (group : string) : LagSource :=
  if bool_decide (group ∈ LIVE_REFRESHED_GROUPS) then live_source
  else if bool_decide (group ∈ STATIC_LAG_GROUPS) then static_source
  else unrecognized.

Definition poll_interval_seconds (group : string) : option Q :=
  if bool_decide (group ∈ LIVE_REFRESHED_GROUPS) then Some POLL_INTERVAL_SECONDS else None.

(** A difference of datetimes, in seconds. *)
Definition total_seconds (us : Z) : Q := Qmake us 1000000.

(** [polling_verdict]: decided at the look, unknown when anything is. *)
Definition polling_verdict (last_poll_at observed_at : option Z) (interval : option Q) : option bool :=
  match last_poll_at, observed_at, interval with
  | Some polled, Some seen, Some interval =>
      let gap := Qmax 0 (total_seconds (seen - polled)) in
      Some (Qle_bool gap (POLLING_INTERVALS * interval))
  | _, _, _ => None
  end.

(** ** Decoding *)

Section Decode.
Context `{PyCodec}.

Record LagSample := mkSample { ls_lag : Z; ls_measured_at : Z }.

(** [parse_lag] of a reply: unreadable is unknown. *)
Definition parse_lag (raw : option rval) : option Z := v ← raw; int_of_reply v.

(** [parse_lag] of a decoded value; only [int(inf)] escapes, as an [OverflowError]. *)
Definition parse_json_lag (v : option json) : result exn (option Z) :=
  match v with
  | Some (JInt z) => Ok (Some z)
  | Some (JBool b) => Ok (Some (if b then 1 else 0)%Z)
  | Some (JStr s) => Ok (py_int s)
  | Some (JFloat repr) =>
      if bool_decide (repr ∈ ["inf"; "-inf"]) then Err (RuntimeError "cannot convert float infinity to integer")
      else Ok ((λ q : Q, Z.quot (Qnum q) (Zpos (Qden q))) <$> py_float repr)
  | _ => Ok None
  end.

(** [parse_measured_at]. *)
Definition parse_measured_at (v : option json) : option Z :=
  match v with Some (JStr s) => fromisoformat s | _ => None end.

(** One entry of the stored window; an unreadable one is dropped. *)
Definition parse_sample (entry : json) : result exn (option LagSample) :=
  match entry with
  | JObj d =>
      lag ← parse_json_lag (dget d "lag");
      Ok (l ← lag; at_ ← parse_measured_at (dget d "measured_at"); Some (mkSample l at_))
  | _ => Ok None
  end.

Fixpoint parse_entries (entries : list json) : result exn (list LagSample) :=
  match entries with
  | [] => Ok []
  | e :: entries' => s ← parse_sample e; rest ← parse_entries entries'; Ok (option_list s ++ rest)
  end.

(** Newest first; rows of one instant keep their order ([reverse=True] is stable). *)
Definition sample_newer (a b : LagSample) : Prop := (ls_measured_at b ≤ ls_measured_at a)%Z.

#[export] Instance sample_newer_dec : RelDecision sample_newer.
Proof. intros a b. unfold sample_newer. apply _. Defined.

Definition stored_list (raw : option rval) : list json :=
  match raw with
  | Some (RStr s) => match json_loads s with Some (JList l) => l | _ => [] end
  | _ => []
  end.

(** [parse_samples]. *)
Definition parse_samples (raw : option rval) : result exn (list LagSample) :=
  samples ← parse_entries (stored_list raw);
  Ok (take LAG_SAMPLES_MAX_ENTRIES (merge_sort sample_newer samples)).

(** [parse_last_poll]: also the bare time an older release wrote. *)
Definition parse_last_poll (raw : option rval) : option Z * option Z :=
  match raw with
  | Some (RStr s) =>
      match json_loads s with
      | None => (fromisoformat s, None)
      | Some (JObj d) => (parse_measured_at (dget d "last_poll_at"), parse_measured_at (dget d "observed_at"))
      | Some _ => (None, None)
      end
  | _ => (None, None)
  end.

(** ** Recording *)

(** The entries of a stored window that are still inside it. *)
Definition in_window_entry (cutoff : Z) (entry : json) : bool :=
  match entry with
  | JObj d => match parse_measured_at (dget d "measured_at") with Some at_ => (cutoff <? at_)%Z | None => false end
  | _ => false
  end.

Definition sample_entry (lag now : Z) : json := JObj [("lag", JInt lag); ("measured_at", JStr (isoformat now))].

(** [record_lag_sample]. *)
Definition record_lag_sample (t : Q) (now : Z) (group : string) (lag : Z) (r : Redis) : result exn Redis :=
  raw ← r_get t (samples_key group) r;
  let cutoff := (now - LAG_SAMPLES_WINDOW_SECONDS * 1000000)%Z in
  let kept := filter (λ e, in_window_entry cutoff e = true) (stored_list raw) in
  let samples := take LAG_SAMPLES_MAX_ENTRIES (sample_entry lag now :: kept) in
  Ok (r_set t (samples_key group) (RStr (json_dumps (JList samples))) (Some LAG_SAMPLES_TTL) r).

(** [record_last_poll]. *)
Definition record_last_poll (configured t : Q) (group : string) (polled_at observed_at : Z) (r : Redis) : Redis :=
  r_set t (last_poll_key group)
    (RStr (json_dumps (JObj [("last_poll_at", JStr (isoformat polled_at)); ("observed_at", JStr (isoformat observed_at))])))
    (Some (inject_Z (lag_value_ttl_seconds configured))) r.

(** ** Reading *)

Record LagReading := mkReading {
  lr_lag : option Z;
  lr_source : LagSource;
  lr_measured_at : option Z;
  lr_age_seconds : option Z;
  lr_samples : list LagSample;
  lr_last_poll_at : option Z;
  lr_last_poll_age : option Z;
  lr_polling : option bool;
  lr_poll_interval : option Q
}.

(** [max(0, int((now - at).total_seconds()))]. *)
Definition age (now at_ : Z) : Z := Z.max 0 (Z.quot (now - at_) 1000000).

(** [read_lag]. *)
Definition read_lag (t : Q) (now : Z) (group : string) (r : Redis) : result exn LagReading :=
  raw ← r_get t (lag_key group) r;
  let lag := parse_lag raw in
  let source := source_for group in
  '(samples, polled, observed) ←
    (if bool_decide (source = live_source) then
       raw_s ← r_get t (samples_key group) r;
       samples ← parse_samples raw_s;
       raw_p ← r_get t (last_poll_key group) r;
       let '(polled, observed) := parse_last_poll raw_p in
       Ok (samples, polled, observed)
     else Ok ([], None, None));
  let interval := poll_interval_seconds group in
  let measured := match samples, lag with
                  | s :: _, Some l => if bool_decide (ls_lag s = l) then Some (ls_measured_at s) else None
                  | _, _ => None
                  end in
  Ok (mkReading lag source measured (age now <$> measured) samples polled (age now <$> polled)
        (polling_verdict polled observed interval) interval).

(** What the metrics pass records of one measured group: the value, then the window,
    whose failure is logged ([_metrics_loop], [_record_group_lag]). *)
Definition record_group_lag (configured t : Q) (now : Z) (group : string) (lag : Z) (r : Redis) : Redis :=
  let r := r_set t (lag_key group) (RInt lag) (Some (inject_Z (lag_value_ttl_seconds configured))) r in
  match record_lag_sample t now group lag r with Ok r' => r' | Err _ => r end.
End Decode.
