(* ===== verification/ConsumerLagProps.v ===== *)
(** * Properties of the lag readings

    The stored window is exactly the last fifteen minutes of measurements, newest first;
    the backpressure gate acts on the last measurement while it is fresh and on nothing
    else. *)
From stdpp Require Import base tactics numbers option list gmap strings sorting.
From Stdlib Require Import QArith Qminmax Qround Lqa Lia.
From S2P Require Import Prelude PyData Codec Models Redis Admission ConsumerLag.

(** Filtering commutes with taking when what is kept is a prefix. *)
Lemma filter_take_prefix {A} (R : A → A → Prop) (P : A → Prop) `{!∀ x, Decision (P x)} n l :
  StronglySorted R l → (∀ x y, R x y → P y → P x) → filter P (take n l) = take n (filter P l).
Proof.
  intros Hs HP. revert n. induction Hs as [|x l Hs IH Hx]; intros [|n]; try done.
  cbn [take]. rewrite !filter_cons. case_decide as Hp; [cbn; f_equal; apply IH|].
  rewrite (filter_none P l); [|intros y Hy Hpy; apply Hp, (HP x y); [by apply (proj1 (Forall_forall _ _) Hx)|done]].
  rewrite take_nil. apply filter_none. intros y Hy Hpy. apply elem_of_take in Hy as (i & Hi & _).
  apply list_elem_of_lookup_2 in Hi. apply Hp, (HP x y); [by apply (proj1 (Forall_forall _ _) Hx)|done].
Qed.

Lemma strongly_sorted_lookup {A} (R : A → A → Prop) l i j x y :
  StronglySorted R l → (i < j)%nat → l !! i = Some x → l !! j = Some y → R x y.
Proof.
  intros Hs. revert i j. induction Hs as [|z l _ IH Hz]; intros i j Hij Hi Hj; [done|].
  destruct j as [|j]; [lia|]. destruct i as [|i]; cbn in *.
  - simplify_eq. apply (proj1 (Forall_forall _ _) Hz). by apply list_elem_of_lookup_2 in Hj.
  - apply (IH i j); [lia|done|done].
Qed.

(** ** The window *)

Section Window.
Context `{PyCodec} (group : string).

(** A measurement: the lag and the time, in microseconds; the passes that recorded them,
    oldest first. *)
Definition record_all (ms : list (Z * Z)) (r : Redis) : Redis :=
  foldl (λ r m, match record_lag_sample (total_seconds m.2) m.2 group m.1 r with
                | Ok r' => r' | Err _ => r end) r ms.

Definition WINDOW : Z := (LAG_SAMPLES_WINDOW_SECONDS * 1000000)%Z.

(** The measurements of the last fifteen minutes before [now], newest first. *)
Definition recent (now : Z) (ms : list (Z * Z)) : list (Z * Z) :=
  take LAG_SAMPLES_MAX_ENTRIES (filter (λ m, (now - WINDOW < m.2)%Z) (rev ms)).

Definition later (a b : Z * Z) : Prop := (b.2 < a.2)%Z.

Definition entries (l : list (Z * Z)) : list json := (λ m, sample_entry m.1 m.2) <$> l.

Lemma sample_fields lag s :
  dget [("lag", JInt lag); ("measured_at", JStr s)] "lag" = Some (JInt lag) ∧
  dget [("lag", JInt lag); ("measured_at", JStr s)] "measured_at" = Some (JStr s).
Proof. split; reflexivity. Qed.

(** Times Python can represent. *)
Definition dated (l : list (Z * Z)) : Prop := Forall (λ m, valid_datetime m.2 = true) l.

Lemma entries_plain l : json_plain (JList (entries l)) = true.
Proof. cbn. induction l as [|m l IH]; [done|]. cbn. done. Qed.

Lemma dated_recent now ms : dated ms → dated (recent now ms).
Proof.
  intros Hd. unfold dated in *. rewrite Forall_forall in *. intros m Hm. apply Hd. unfold recent in Hm.
  apply elem_of_take in Hm as (i & Hi & _). apply list_elem_of_lookup_2, list_elem_of_filter in Hi as [_ Hi].
  apply list_elem_of_In in Hi. rewrite <- in_rev in Hi. by apply list_elem_of_In.
Qed.

Lemma entry_in_window cutoff m : valid_datetime m.2 = true → in_window_entry cutoff (sample_entry m.1 m.2) = (cutoff <? m.2)%Z.
Proof.
  intros Hv. unfold in_window_entry, sample_entry. rewrite (proj2 (sample_fields _ _)). cbn [parse_measured_at].
  by rewrite iso_roundtrip.
Qed.

Lemma filter_entries cutoff l : dated l →
  filter (λ e, in_window_entry cutoff e = true) (entries l) = entries (filter (λ m, (cutoff < m.2)%Z) l).
Proof.
  induction 1 as [|m l Hm Hl IH]; [done|]. unfold entries in *. rewrite fmap_cons, !filter_cons.
  rewrite entry_in_window by done. destruct (cutoff <? m.2)%Z eqn:E.
  - apply Z.ltb_lt in E. rewrite !decide_True by done. cbn. by f_equal.
  - apply Z.ltb_ge in E. rewrite !decide_False by (done || lia). done.
Qed.

(** What the store holds: the window as of the last measurement. *)
Definition holds (ms : list (Z * Z)) (r : Redis) : Prop :=
  match rev ms with
  | [] => r !! samples_key group = None
  | (_, last) :: _ =>
      r !! samples_key group =
        Some (mkEntry (RStr (json_dumps (JList (entries (recent last ms))))) (Some (total_seconds last + LAG_SAMPLES_TTL)%Q))
  end.

Lemma later_sorted_all ms m : StronglySorted later (m :: rev ms) → ∀ x, x ∈ ms → (x.2 < m.2)%Z.
Proof.
  intros Hs x Hx. inversion Hs as [|? ? _ Hf]; subst. rewrite Forall_forall in Hf.
  apply Hf, list_elem_of_In. rewrite <- in_rev. by apply list_elem_of_In.
Qed.

Lemma window_after ms m :
  StronglySorted later (m :: rev ms) →
  (∀ old, (match rev ms with [] => False | (_, old') :: _ => old' = old end) → (old <= m.2)%Z) →
  recent m.2 (ms ++ [m]) =
    take LAG_SAMPLES_MAX_ENTRIES (m :: filter (λ x, (m.2 - WINDOW < x.2)%Z)
       (match rev ms with [] => [] | (_, old) :: _ => recent old ms end)).
Proof.
  intros Hs Hold. unfold recent at 1. rewrite rev_app_distr. cbn [rev app].
  rewrite filter_cons, decide_True by (unfold WINDOW, LAG_SAMPLES_WINDOW_SECONDS; lia).
  destruct (rev ms) as [|[l old] rest] eqn:E; [done|].
  unfold recent. rewrite E. inversion Hs as [|? ? Hs' _]; subst.
  specialize (Hold old eq_refl).
  change LAG_SAMPLES_MAX_ENTRIES with (S 239). cbn [take]. f_equal.
  rewrite (filter_take_prefix later (λ x, (m.2 - WINDOW < x.2)%Z));
    [|by apply sorted_filter|unfold later; intros x y Hxy Hy; lia].
  rewrite take_take, (filter_filter_iff _ _ (λ x, (m.2 - WINDOW < x.2)%Z)); [done|].
  intros x _. unfold WINDOW. lia.
Qed.

Lemma take_entries n l : take n (entries l) = entries (take n l).
Proof. unfold entries. by rewrite fmap_take. Qed.

(** Nothing of an expired window would have been kept. *)
Lemma record_step ms m r :
  dated ms → StronglySorted later (m :: rev ms) → holds ms r →
  ∃ r', record_lag_sample (total_seconds m.2) m.2 group m.1 r = Ok r' ∧ holds (ms ++ [m]) r'.
Proof.
  intros Hv Hs Hh. unfold record_lag_sample.
  assert (Hraw : ∃ raw, r_get (total_seconds m.2) (samples_key group) r = Ok raw ∧
    filter (λ e, in_window_entry (m.2 - WINDOW) e = true) (stored_list raw) =
    entries (filter (λ x, (m.2 - WINDOW < x.2)%Z) (match rev ms with [] => [] | (_, old) :: _ => recent old ms end))).
  { unfold holds in Hh. unfold r_get, live. destruct (rev ms) as [|[l old] rest] eqn:E.
    - rewrite Hh. by exists None.
    - rewrite Hh. unfold expired. cbn [e_exp e_val].
      destruct (Qle_bool _ _) eqn:Hx.
      + exists None. split; [done|]. cbn [stored_list]. rewrite filter_none.
        * rewrite filter_none; [done|]. intros x Hx' Hlt. unfold recent in Hx'.
          apply elem_of_take in Hx' as (i & Hi & _). apply list_elem_of_lookup_2, list_elem_of_filter in Hi as [_ Hi].
          apply Qle_bool_iff in Hx. unfold total_seconds, LAG_SAMPLES_TTL, LAG_SAMPLES_WINDOW_SECONDS, Qle in Hx. cbn in Hx.
          rewrite E in Hi. inversion Hs as [|? ? Hs' _]; subst. inversion Hs' as [|? ? _ Hf]; subst.
          assert ((x.2 ≤ old)%Z).
          { apply elem_of_cons in Hi as [->|Hi]; [done|]. rewrite Forall_forall in Hf. specialize (Hf x Hi). unfold later in Hf. cbn in Hf. lia. }
          unfold WINDOW, LAG_SAMPLES_WINDOW_SECONDS in Hlt. lia.
        * intros x Hx'. by apply elem_of_nil in Hx'.
      + eexists. split; [done|]. unfold stored_list.
        rewrite loads_dumps by apply entries_plain. apply filter_entries. by apply dated_recent. }
  destruct Hraw as (raw & -> & Hf). cbn [mbind result_mbind]. eexists. split; [done|].
  unfold holds. rewrite rev_app_distr. cbn [rev app]. unfold r_set. rewrite lookup_insert_eq. destruct m as [lag now].
  cbn [fst snd] in *. do 4 f_equal. unfold WINDOW in Hf. rewrite Hf.
  change (sample_entry lag now :: entries ?l) with (entries ((lag, now) :: l)) at 1.
  rewrite take_entries. f_equal.
  pose proof (window_after ms (lag, now) Hs) as W. cbn [snd] in W. rewrite W; [done|]. intros old Hold.
  destruct (rev ms) as [|[l old'] rest] eqn:E; [done|]. subst old'.
  inversion Hs as [|? ? _ Hfa]; subst. inversion Hfa as [|? ? Hlt _]; subst. unfold later in Hlt. cbn in Hlt. lia.
Qed.

Lemma record_all_holds ms r :
  dated ms → StronglySorted later (rev ms) → r !! samples_key group = None → holds ms (record_all ms r).
Proof.
  intros Hv Hs Hr. induction ms as [|m ms IH] using rev_ind; [done|]. apply Forall_app in Hv as [Hv _].
  rewrite rev_app_distr in Hs. cbn [rev app] in Hs. unfold record_all. rewrite foldl_app. cbn [foldl].
  inversion Hs as [|? ? Hs' _]; subst. destruct (record_step ms m _ Hv Hs (IH Hv Hs')) as (r' & Hr' & Hh).
  fold (record_all ms r). by rewrite Hr'.
Qed.

Lemma parse_sample_entry lag now : valid_datetime now = true →
  parse_sample (sample_entry lag now) = Ok (Some (mkSample lag now)).
Proof.
  intros Hv. unfold parse_sample, sample_entry. rewrite (proj1 (sample_fields _ _)), (proj2 (sample_fields _ _)).
  cbn [parse_json_lag mbind result_mbind parse_measured_at]. by rewrite iso_roundtrip.
Qed.

Lemma parse_entries_entries l : dated l →
  parse_entries (entries l) = Ok ((λ m, mkSample m.1 m.2) <$> l).
Proof.
  induction 1 as [|m l Hm Hl IH]; [done|].
  change (entries (m :: l)) with (sample_entry m.1 m.2 :: entries l). cbn [parse_entries].
  by rewrite parse_sample_entry, IH.
Qed.

Lemma sorted_samples l : StronglySorted later l →
  merge_sort sample_newer ((λ m, mkSample m.1 m.2) <$> l) = (λ m, mkSample m.1 m.2) <$> l.
Proof.
  intros Hs. assert (Hs' : StronglySorted (λ a b, ls_measured_at b < ls_measured_at a)%Z ((λ m, mkSample m.1 m.2) <$> l)).
  { induction Hs as [|x l Hs IH Hx]; [constructor|]. rewrite fmap_cons. constructor; [done|].
    apply Forall_fmap. eapply Forall_impl; [exact Hx|]. done. }
  apply (StronglySorted_unique_strong sample_newer).
  - intros x1 x2 H1 H2. unfold sample_newer. intros. assert (Ht : ls_measured_at x1 = ls_measured_at x2) by lia.
    rewrite merge_sort_Permutation in H1. apply list_elem_of_lookup in H1 as [i Hi]. apply list_elem_of_lookup in H2 as [j Hj].
    destruct (Nat.lt_trichotomy i j) as [Hij|[->|Hij]]; [|by simplify_eq|].
    + pose proof (strongly_sorted_lookup _ _ _ _ _ _ Hs' Hij Hi Hj) as Hlt. cbn in Hlt. lia.
    + pose proof (strongly_sorted_lookup _ _ _ _ _ _ Hs' Hij Hj Hi) as Hlt. cbn in Hlt. lia.
  - apply StronglySorted_merge_sort; unfold sample_newer.
    + intros x y z. lia.
    + intros x y. lia.
  - eapply sorted_weaken; [|exact Hs']. unfold sample_newer. cbn. intros. lia.
  - apply merge_sort_Permutation.
Qed.

Lemma recent_sorted now ms : StronglySorted later (rev ms) → StronglySorted later (recent now ms).
Proof.
  intros Hs. unfold recent. eapply (StronglySorted_app_1_l later _ (drop LAG_SAMPLES_MAX_ENTRIES _)).
  rewrite take_drop. by apply sorted_filter.
Qed.

(** Passes that measured a group at increasing times leave exactly the measurements of
    the fifteen minutes up to the last one, newest first and at most 240, as the window
    every reader decodes while it lives. *)
Theorem lag_window_exact ms lag now r t :
  dated (ms ++ [(lag, now)]) → StronglySorted later (rev (ms ++ [(lag, now)])) → r !! samples_key group = None →
  (t < total_seconds now + LAG_SAMPLES_TTL)%Q →
  ∃ raw, r_get t (samples_key group) (record_all (ms ++ [(lag, now)]) r) = Ok raw ∧
    parse_samples raw =
      Ok ((λ m, mkSample m.1 m.2) <$> recent now (ms ++ [(lag, now)])).
Proof.
  intros Hv Hs Hr Ht. pose proof (record_all_holds _ r Hv Hs Hr) as Hh. unfold holds in Hh.
  assert (E : rev (ms ++ [(lag, now)]) = (lag, now) :: rev ms) by (rewrite rev_app_distr; done).
  rewrite E in Hh. unfold r_get, live. rewrite Hh. unfold expired. cbn [e_exp e_val].
  destruct (Qle_bool _ _) eqn:Hq; [apply Qle_bool_iff in Hq; lra|].
  eexists. split; [done|]. unfold parse_samples, stored_list.
  rewrite loads_dumps by apply entries_plain. rewrite parse_entries_entries by (by apply dated_recent). cbn [mbind result_mbind].
  rewrite sorted_samples by (by apply recent_sorted). rewrite <- fmap_take. unfold recent at 1.
  rewrite take_take, Nat.min_id. done.
Qed.
End Window.

(** ** The backpressure gate *)

Section Gate.
Context `{PyCodec} (configured : Q).

(** The metrics passes: the time in microseconds and the lag of each. *)
Definition passes (ms : list (Z * Z)) (r : Redis) : Redis :=
  foldl (λ r m, record_group_lag configured (total_seconds m.2) m.2 LIVE_REFRESHED_GROUP m.1 r) r ms.

Lemma pass_value t now lag r :
  record_group_lag configured t now LIVE_REFRESHED_GROUP lag r !! BACKPRESSURE_LAG_KEY =
  Some (mkEntry (RInt lag) (Some (t + inject_Z (lag_value_ttl_seconds configured))%Q)).
Proof.
  unfold record_group_lag. change BACKPRESSURE_LAG_KEY with (lag_key LIVE_REFRESHED_GROUP).
  set (k := lag_key LIVE_REFRESHED_GROUP). set (r1 := r_set t k _ _ r).
  assert (H1 : r1 !! k = Some (mkEntry (RInt lag) (Some (t + inject_Z (lag_value_ttl_seconds configured))%Q))).
  { unfold r1, r_set. by rewrite lookup_insert_eq. }
  destruct (record_lag_sample t now LIVE_REFRESHED_GROUP lag r1) as [r2|] eqn:E; [|done].
  unfold record_lag_sample in E. apply bind_ok in E as (raw & _ & E). injection E as <-.
  unfold r_set. rewrite lookup_insert_ne; [done|]. unfold k. vm_compute. discriminate.
Qed.

(** The last measurement gates job creation for as long as it is fresh: three passes,
    so that one lost pass blanks nothing.  A request is refused exactly when Redis
    answers, the gate is on, and that measurement is above the threshold. *)
Theorem backpressure_follows_lag cfg ms lag now r t o :
  (3 * metrics_interval_seconds configured <= inject_Z (lag_value_ttl_seconds configured))%Q ∧
  (check_backpressure cfg t o (passes (ms ++ [(lag, now)]) r) ≠ Ok tt ↔
   (0 < backpressure_lag_threshold cfg < lag)%Z ∧ o = Answered ∧
   (t < total_seconds now + inject_Z (lag_value_ttl_seconds configured))%Q).
Proof.
  split.
  { unfold lag_value_ttl_seconds. eapply Qle_trans; [apply Qle_ceiling|]. rewrite <- Zle_Qle. apply Z.le_max_r. }
  unfold passes. rewrite foldl_app. cbn [foldl fst snd].
  generalize (foldl (λ r m, record_group_lag configured (total_seconds m.2) m.2 LIVE_REFRESHED_GROUP m.1 r) r ms) as r0.
  intros r0. pose proof (pass_value (total_seconds now) now lag r0) as Hv.
  generalize dependent (record_group_lag configured (total_seconds now) now LIVE_REFRESHED_GROUP lag r0).
  intros r1 Hv. unfold check_backpressure, redis_cmd, r_get, live. rewrite Hv. unfold expired. cbn [e_exp e_val].
  destruct (Qle_bool _ _) eqn:Hq.
  - apply Qle_bool_iff in Hq. cbn. split; [|intros (_ & _ & Hlt); lra].
    destruct o; cbn; case_match; done.
  - apply not_true_iff_false in Hq. rewrite Qle_bool_iff in Hq. apply Qnot_le_lt in Hq. cbn.
    destruct (_ <=? 0)%Z eqn:H0; [apply Z.leb_le in H0|apply Z.leb_gt in H0].
    + split; [done|]. intros [? _]. lia.
    + destruct o; cbn; [|by split; [|intros (_ & [=] & _)]..].
      destruct (_ <? lag)%Z eqn:Hl; [apply Z.ltb_lt in Hl|apply Z.ltb_ge in Hl].
      * split; [|done]. intros _. split; [lia|done].
      * split; [done|]. intros [? _]. lia.
Qed.
End Gate.

(** ** Worked example *)

Module LagExample.

(** Three passes a minute apart, the last one twenty minutes after the first. *)
Definition measured : list (Z * Z) := [(40, 1753963200000000); (35, 1753964340000000); (12, 1753964400000000)]%Z.

Lemma lag_window_exact_witness :
  ∃ raw, r_get 1753964400 (samples_key LIVE_REFRESHED_GROUP) (record_all LIVE_REFRESHED_GROUP measured ∅) = Ok raw ∧
    parse_samples raw = Ok [mkSample 12 1753964400000000; mkSample 35 1753964340000000].
Proof.
  destruct (lag_window_exact LIVE_REFRESHED_GROUP (take 2 measured) 12 1753964400000000 ∅ 1753964400) as (raw & H1 & H2).
  - repeat constructor.
  - repeat constructor.
  - apply lookup_empty.
  - apply Qlt_alt. reflexivity.
  - exists raw. split; [exact H1|]. rewrite H2. vm_compute. reflexivity.
Defined.
End LagExample.
