(* ===== verification/Alerts.v ===== *)
(** * Alerts and the platform's own alert rules

    The alerts table (models/alert.py, repositories/alert.py), creating an alert and what
    its webhook delivery carries (services/alerts.py), and the two rules the metrics pass
    evaluates: consumer lag and dead-letter depth (services/alert_rules.py). *)
From stdpp Require Import base tactics numbers option list gmap strings sorting.
From Stdlib Require Import QArith Ascii.
From S2P Require Import Prelude PyData Codec Models Database Redis ConsumerLag.

Definition DEFAULT_TENANT_ID : uuid := 281765665447109945354575765614876039134%N.

Example default_tenant_str : uuid_str DEFAULT_TENANT_ID = "d3fa17de-7a17-de7a-17de-7a17de7a17de".
Proof. vm_compute. reflexivity. Qed.

Definition SEVERITY_LOW : string := "low".
Definition SEVERITY_INFO : string := "info".
Definition SEVERITY_WARNING : string := "warning".
Definition SEVERITY_CRITICAL : string := "critical".
Definition ALLOWED_SEVERITIES : list string := [SEVERITY_LOW; SEVERITY_INFO; SEVERITY_WARNING; SEVERITY_CRITICAL].

(** A row of [alerts]. *)
Record Alert := mkAlert {
  al_id : uuid;
  al_tenant_id : uuid;
  al_severity : string;
  al_source : string;
  al_title : string;
  al_description : option string;
  al_fired_at : Z;
  al_resolved_at : option Z;
  al_extra_data : option dict;
  al_request_id : option string;
  al_dedup_key : option string
}.

(** The table, the audit rows written beside it, how many ids were drawn, and the
    webhook bodies delivered. *)
Record AlertStore := mkStore {
  as_alerts : list Alert;
  as_audit : list AuditLog;
  as_draws : N;
  as_delivered : list dict
}.

Definition open_row (a : Alert) : Prop := al_resolved_at a = None.

#[export] Instance open_row_dec a : Decision (open_row a).
Proof. unfold open_row. apply _. Defined.

(** ** repositories/alert.py *)

(** [ORDER BY fired_at DESC, id DESC]. *)
Definition alert_newer (a b : Alert) : Prop :=
  (al_fired_at b < al_fired_at a)%Z ∨ (al_fired_at b = al_fired_at a ∧ (al_id b ≤ al_id a)%N).

#[export] Instance alert_newer_dec : RelDecision alert_newer.
Proof. intros a b. unfold alert_newer. apply _. Defined.

Definition alert_matches (tenant : uuid) (active : option bool) (severity : option string) (a : Alert) : bool :=
  bool_decide (al_tenant_id a = tenant) &&
  match active with
  | None => true
  | Some true => bool_decide (open_row a)
  | Some false => negb (bool_decide (open_row a))
  end &&
  match severity with None => true | Some s => bool_decide (al_severity a = s) end.

(** [AlertRepository.list_for_tenant]. *)
Definition list_alerts (tenant : uuid) (active : option bool) (severity : option string) (offset limit : nat)
    (s : AlertStore) : list Alert * nat :=
  let hits := filter (λ a, alert_matches tenant active severity a = true) (as_alerts s) in
  (take limit (drop offset (merge_sort alert_newer hits)), length hits).

(** [AlertRepository.list_active_for_tenant]; one instant's alerts come in any order. *)
Definition list_active_alerts (tenant : uuid) (severity : option string) (offset limit : nat) (s : AlertStore)
    : list Alert * nat := list_alerts tenant (Some true) severity offset limit s.

Section Alerts.
Context `{SqlOrder, UuidSource, PyCodec}.

(** ** services/alerts.py *)

(** [INSERT INTO alerts]: the dedup key is unique per tenant, NULLs apart. *)
Definition insert_alert (a : Alert) (s : AlertStore) : result exn AlertStore :=
  if bool_decide (is_Some (al_dedup_key a) ∧
                  Exists (λ b, al_tenant_id b = al_tenant_id a ∧ al_dedup_key b = al_dedup_key a) (as_alerts s))
  then Err IntegrityError
  else Ok (mkStore (as_alerts s ++ [a]) (as_audit s) (as_draws s) (as_delivered s)).

(** [AlertService.create_alert]: validation, the row.  The delivery is queued for after
    the commit. *)
Definition create_alert (now : Z) (tenant : uuid) (severity source title : string) (description : option string)
    (extra : option dict) (request_id : option string) (dedup : option string) (s : AlertStore)
    : result exn (Alert * AlertStore) :=
  if negb (bool_decide (severity ∈ ALLOWED_SEVERITIES)) then Err (RequestValidationError "Unknown severity")
  else if bool_decide (title = "") then Err (RequestValidationError "Alert title must not be empty")
  else
    let a := mkAlert (uuid4 (as_draws s)) tenant severity source title description now None extra request_id dedup in
    s' ← insert_alert a (mkStore (as_alerts s) (as_audit s) (as_draws s + 1) (as_delivered s));
    Ok (a, s').

(** [_webhook_payload]. *)
Definition webhook_payload (a : Alert) : dict :=
  [("alert_id", juuid (al_id a)); ("tenant_id", juuid (al_tenant_id a)); ("severity", JStr (al_severity a));
   ("source", JStr (al_source a)); ("title", JStr (al_title a)); ("description", jstr_opt (al_description a));
   ("fired_at", JStr (isoformat (al_fired_at a))); ("extra_data", JObj (default [] (al_extra_data a)))].

(** [signed_material]: what the signature covers. *)
Definition signed_material (timestamp nonce body : string) : string := timestamp +:+ "." +:+ nonce +:+ "." +:+ body.

(** The body [deliver_webhook] posts. *)
Definition webhook_body (payload : dict) : string := json_dumps_with "," ":" true (JObj payload).

(** [deliver_webhook], when a webhook is configured: delivery is attempted, once. *)
Definition deliver_webhook (configured : bool) (payload : dict) (s : AlertStore) : AlertStore :=
  if configured then mkStore (as_alerts s) (as_audit s) (as_draws s) (as_delivered s ++ [payload]) else s.

(** ** services/alert_rules.py: episodes *)

Definition CONSUMER_STALLED_FINGERPRINT : string := "consumer_stalled".
Definition DLQ_DEPTH_FINGERPRINT : string := "dlq_depth_warning".
Definition CONSUMER_LAG_ALERT_SOURCE : string := "kafka:consumer_lag".
Definition DLQ_DEPTH_ALERT_SOURCE : string := "dlq:threshold".
Definition DLQ_SUBJECT : string := "total".
Definition ALERT_RAISED_ACTION : string := "alert.raised".
Definition ALERT_RESOLVED_ACTION : string := "alert.resolved".
Definition ALERT_RESOURCE_TYPE : string := "alert".
Definition DEDUP_NAMESPACE : string := "rule".

(** [_Episode]. *)
Record Episode := mkEpisode {
  ep_fingerprint : string;
  ep_subject : string;
  ep_tenant_id : uuid;
  ep_source : string;
  ep_title : string;
  ep_summary : string;
  ep_payload : dict
}.

Definition dedup_prefix (fingerprint subject : string) : string :=
  DEDUP_NAMESPACE +:+ ":" +:+ fingerprint +:+ ":" +:+ subject +:+ ":".
Definition dedup_key (fingerprint subject : string) (ordinal : Z) : string :=
  dedup_prefix fingerprint subject +:+ show_Z ordinal.

(** [dedup_key LIKE prefix%], escaped: a prefix test. *)
Definition in_series (tenant : uuid) (prefix : string) (a : Alert) : Prop :=
  al_tenant_id a = tenant ∧ match al_dedup_key a with Some k => String.prefix prefix k = true | None => False end.

#[export] Instance in_series_dec tenant prefix a : Decision (in_series tenant prefix a).
Proof. unfold in_series. destruct (al_dedup_key a); apply _. Defined.

Definition fired_later (a b : Alert) : Prop := (al_fired_at b ≤ al_fired_at a)%Z.

#[export] Instance fired_later_dec : RelDecision fired_later.
Proof. intros a b. unfold fired_later. apply _. Defined.

(** [_open_alert]: the newest unresolved alert of a series. *)
Definition open_alert (tenant : uuid) (prefix : string) (s : AlertStore) : option Alert :=
  head (merge_sort fired_later (sql_scan (filter (λ a, in_series tenant prefix a ∧ open_row a) (as_alerts s)))).

(** [_episodes_so_far]. *)
Definition episodes_so_far (tenant : uuid) (prefix : string) (s : AlertStore) : Z :=
  Z.of_nat (length (filter (in_series tenant prefix) (as_alerts s))).

(** [_record_transition]. *)
Definition record_transition (now : Z) (action : string) (a : Alert) (fingerprint subject summary : string)
    (extra : dict) (s : AlertStore) : AlertStore :=
  let payload := foldl (λ d kv, dset d kv.1 kv.2)
    [("alert_id", juuid (al_id a)); ("fingerprint", JStr fingerprint); ("subject", JStr subject);
     ("source", JStr (al_source a)); ("severity", JStr (al_severity a)); ("summary", JStr summary);
     ("dedup_key", jstr_opt (al_dedup_key a))] extra in
  mkStore (as_alerts s)
    (as_audit s ++ [mkAudit action (al_tenant_id a) None "service_account" None None (Some ALERT_RESOURCE_TYPE)
                      (Some (uuid_str (al_id a))) (Some payload) now])
    (as_draws s) (as_delivered s).

(** [_raise_episode] in two parts.  First, unless an episode is open, the ordinal of the
    next one.  The open-alert query and the count are statements that each see what is
    committed: [meanwhile] is what other transactions commit between them. *)
Definition plan_raise (meanwhile : AlertStore → AlertStore) (ep : Episode) (s : AlertStore) : option Z :=
  let prefix := dedup_prefix (ep_fingerprint ep) (ep_subject ep) in
  match open_alert (ep_tenant_id ep) prefix s with
  | Some _ => None
  | None => Some (episodes_so_far (ep_tenant_id ep) prefix (meanwhile s))
  end.

(** Then the insert, whose conflict on the key is another replica's win, the audit row,
    and the delivery after the commit. *)
Definition commit_raise (webhook : bool) (now : Z) (request_id : option string) (ep : Episode) (ordinal : Z)
    (s : AlertStore) : result exn (option uuid) * AlertStore :=
  match create_alert now (ep_tenant_id ep) SEVERITY_CRITICAL (ep_source ep) (ep_title ep) (Some (ep_summary ep))
          (Some (ep_payload ep)) request_id (Some (dedup_key (ep_fingerprint ep) (ep_subject ep) ordinal)) s with
  | Err IntegrityError => (Ok None, s)
  | Err e => (Err e, s)
  | Ok (a, s) =>
      let s := record_transition now ALERT_RAISED_ACTION a (ep_fingerprint ep) (ep_subject ep) (ep_summary ep) [] s in
      (Ok (Some (al_id a)), deliver_webhook webhook (webhook_payload a) s)
  end.

(** The whole of it; [meanwhile2] is what is committed between the count and the insert. *)
Definition raise_episode (webhook : bool) (now : Z) (request_id : option string)
    (meanwhile1 meanwhile2 : AlertStore → AlertStore) (ep : Episode) (s : AlertStore)
    : result exn (option uuid) * AlertStore :=
  match plan_raise meanwhile1 ep s with
  | None => (Ok None, s)
  | Some ordinal => commit_raise webhook now request_id ep ordinal (meanwhile2 (meanwhile1 s))
  end.

Definition resolve_row (now : Z) (i : uuid) (a : Alert) : Alert :=
  if bool_decide (al_id a = i)
  then mkAlert (al_id a) (al_tenant_id a) (al_severity a) (al_source a) (al_title a) (al_description a) (al_fired_at a)
         (Some now) (al_extra_data a) (al_request_id a) (al_dedup_key a)
  else a.

(** [_resolve_episode]. *)
Definition resolve_episode (now : Z) (tenant : uuid) (fingerprint subject reason : string) (s : AlertStore)
    : option uuid * AlertStore :=
  match open_alert tenant (dedup_prefix fingerprint subject) s with
  | None => (None, s)
  | Some a =>
      let s := mkStore (resolve_row now (al_id a) <$> as_alerts s) (as_audit s) (as_draws s) (as_delivered s) in
      (Some (al_id a),
       record_transition now ALERT_RESOLVED_ACTION a fingerprint subject (subject +:+ ": " +:+ reason)
         [("resolved_reason", JStr reason)] s)
  end.

(** ** The lag rule *)

(** [RuleOutcome]. *)
Record RuleOutcome := mkOutcome { ro_raised : list uuid; ro_resolved : list uuid }.
Definition no_outcome : RuleOutcome := mkOutcome [] [].
Definition outcome_app (a b : RuleOutcome) : RuleOutcome :=
  mkOutcome (ro_raised a ++ ro_raised b) (ro_resolved a ++ ro_resolved b).

Definition measured_groups : list string := filter (λ g, source_for g = live_source) PAGED_LAG_GROUPS.

Definition lag_summary (group : string) (sample : LagSample) (threshold : Z) : string :=
  group +:+ " is " +:+ show_Z (ls_lag sample) +:+ " messages behind (threshold " +:+ show_Z threshold +:+ "); " +:+
  "the group holds its assignment and keeps reporting, so the backlog is " +:+
  "real. Measured at " +:+ isoformat (ls_measured_at sample) +:+ ".".

Definition lag_payload (group : string) (sample : LagSample) (threshold : Z) (summary : string) : dict :=
  [("fingerprint", JStr CONSUMER_STALLED_FINGERPRINT); ("severity", JStr SEVERITY_CRITICAL);
   ("source", JStr CONSUMER_LAG_ALERT_SOURCE); ("consumer_group", JStr group); ("group", JStr group);
   ("lag", JInt (ls_lag sample)); ("measured_at", JStr (isoformat (ls_measured_at sample)));
   ("threshold", JInt threshold); ("summary", JStr summary)].

Definition lag_episode (group : string) (sample : LagSample) (threshold : Z) : Episode :=
  let summary := lag_summary group sample threshold in
  mkEpisode CONSUMER_STALLED_FINGERPRINT group DEFAULT_TENANT_ID CONSUMER_LAG_ALERT_SOURCE
    ("Consumer lag on " +:+ group +:+ ": " +:+ show_Z (ls_lag sample) +:+ " messages behind") summary
    (lag_payload group sample threshold summary).

(** What the evaluation of one episode meets: the clock, the caller's request id, what
    other transactions commit between its statements. *)
Record RuleEnv := mkRuleEnv {
  rn_webhook : bool;
  rn_now : Z;
  rn_request_id : option string;
  rn_meanwhile1 : AlertStore → AlertStore;
  rn_meanwhile2 : AlertStore → AlertStore
}.

Definition raise_in (env : RuleEnv) : Episode → AlertStore → result exn (option uuid) * AlertStore :=
  raise_episode (rn_webhook env) (rn_now env) (rn_request_id env) (rn_meanwhile1 env) (rn_meanwhile2 env).

(** One group of [_evaluate_consumer_lag]. *)
Definition evaluate_group (env : RuleEnv) (t : Q) (threshold : Z) (group : string) (r : Redis) (s : AlertStore)
    : result exn RuleOutcome * AlertStore :=
  match read_lag t (rn_now env) group r with
  | Err e => (Err e, s)
  | Ok reading =>
      match lr_samples reading with
      | [] => (Ok no_outcome, s)
      | sample :: _ =>
          if (threshold <=? ls_lag sample)%Z then
            match raise_in env (lag_episode group sample threshold) s with
            | (Err e, s) => (Err e, s)
            | (Ok raised, s) => (Ok (mkOutcome (option_list raised) []), s)
            end
          else
            let '(resolved, s) := resolve_episode (rn_now env) DEFAULT_TENANT_ID CONSUMER_STALLED_FINGERPRINT group
              ("lag measured at " +:+ show_Z (ls_lag sample) +:+ ", below the threshold of " +:+ show_Z threshold) s in
            (Ok (mkOutcome [] (option_list resolved)), s)
      end
  end.

(** Groups in order; a raise ends the rule. *)
Fixpoint evaluate_groups (env : RuleEnv) (t : Q) (threshold : Z) (groups : list string) (r : Redis) (s : AlertStore)
    : result exn RuleOutcome * AlertStore :=
  match groups with
  | [] => (Ok no_outcome, s)
  | g :: groups' =>
      match evaluate_group env t threshold g r s with
      | (Err e, s) => (Err e, s)
      | (Ok o, s) =>
          match evaluate_groups env t threshold groups' r s with
          | (Err e, s) => (Err e, s)
          | (Ok o', s) => (Ok (outcome_app o o'), s)
          end
      end
  end.

Definition evaluate_consumer_lag (env : RuleEnv) (t : Q) (threshold : Z) (r : Redis) (s : AlertStore)
    : result exn RuleOutcome * AlertStore := evaluate_groups env t threshold measured_groups r s.

(** ** The dead-letter rule *)

Definition dlq_summary (depth threshold : Z) (hint : option string) : string :=
  show_Z depth +:+ " jobs are in the dead-letter queue (threshold " +:+ show_Z threshold +:+ ")." +:+
  match hint with
  | Some h => " The rows above the baseline are categorised `" +:+ h +:+ "`."
  | None => " The rows above the baseline carry no category yet."
  end.

Definition dlq_payload (depth threshold : Z) (hint : option string) (summary : string) (measured_at : Z) : dict :=
  [("fingerprint", JStr DLQ_DEPTH_FINGERPRINT); ("severity", JStr SEVERITY_CRITICAL);
   ("source", JStr DLQ_DEPTH_ALERT_SOURCE); ("dlq_depth", JInt depth); ("threshold", JInt threshold);
   ("remediation_hint", jstr_opt hint);
   ("dlq_scope", match hint with Some _ => JNull | None => JStr "unclassified" end);
   ("measured_at", JStr (isoformat measured_at)); ("summary", JStr summary)].

Definition dead_rows (tenant : uuid) (db : DB) : list Job :=
  filter (λ j, job_tenant_id j = tenant ∧ job_status j = DEAD_LETTER) (map_to_list (db_jobs db)).*2.

Definition dlq_depth (tenant : uuid) (db : DB) : Z := Z.of_nat (length (dead_rows tenant db)).

(** [_dlq_depth_by_tenant]: the tenants with rows, and how many. *)
Definition dlq_depth_by_tenant (db : DB) : list (uuid * Z) :=
  (λ t, (t, dlq_depth t db)) <$>
  sql_scan (remove_dups (job_tenant_id <$> filter (λ j, job_status j = DEAD_LETTER) (map_to_list (db_jobs db)).*2)).

Definition dead_lettered_at (j : Job) : Z := default (job_created_at j) (job_completed_at j).

Definition dead_lettered_later (a b : Job) : Prop :=
  (dead_lettered_at b < dead_lettered_at a)%Z ∨ (dead_lettered_at b = dead_lettered_at a ∧ (job_id b ≤ job_id a)%N).

#[export] Instance dead_lettered_later_dec : RelDecision dead_lettered_later.
Proof. intros a b. unfold dead_lettered_later. apply _. Defined.

(** [_dominant_hint_above_baseline]. *)
Definition dominant_hint_above_baseline (tenant : uuid) (above : Z) (db : DB) : option string :=
  if (above <=? 0)%Z then None
  else
    let rows := take (Z.to_nat above) (merge_sort dead_lettered_later (dead_rows tenant db)) in
    match remove_dups (omap job_remediation_hint rows) with
    | [h] => Some h
    | _ => None
    end.

Definition dlq_episode (tenant : uuid) (depth threshold : Z) (hint : option string) (measured_at : Z) : Episode :=
  let summary := dlq_summary depth threshold hint in
  mkEpisode DLQ_DEPTH_FINGERPRINT DLQ_SUBJECT tenant DLQ_DEPTH_ALERT_SOURCE
    ("Dead-letter queue depth " +:+ show_Z depth +:+ " (threshold " +:+ show_Z threshold +:+ ")") summary
    (dlq_payload depth threshold hint summary measured_at).

(** The tenants at or above the threshold, with their depth and hint. *)
Definition breaching (threshold : Z) (db : DB) : list (uuid * (Z * option string)) :=
  (λ td, (td.1, (td.2, dominant_hint_above_baseline td.1 (td.2 - (threshold - 1)) db))) <$>
  filter (λ td, (threshold ≤ td.2)%Z) (dlq_depth_by_tenant db).

Fixpoint raise_depths (env : RuleEnv) (threshold : Z) (bs : list (uuid * (Z * option string))) (s : AlertStore)
    : result exn (list uuid) * AlertStore :=
  match bs with
  | [] => (Ok [], s)
  | (t, (depth, hint)) :: bs' =>
      match raise_in env (dlq_episode t depth threshold hint (rn_now env)) s with
      | (Err e, s) => (Err e, s)
      | (Ok raised, s) =>
          match raise_depths env threshold bs' s with
          | (Err e, s) => (Err e, s)
          | (Ok ids, s) => (Ok (option_list raised ++ ids), s)
          end
      end
  end.

(** [_tenants_with_open_episode]. *)
Definition tenants_with_open_episode (prefix : string) (s : AlertStore) : list uuid :=
  sql_scan (remove_dups (al_tenant_id <$> filter (λ a, in_series (al_tenant_id a) prefix a ∧ open_row a) (as_alerts s))).

Fixpoint resolve_depths (now threshold : Z) (db : DB) (keep : list uuid) (tenants : list uuid) (s : AlertStore)
    : list uuid * AlertStore :=
  match tenants with
  | [] => ([], s)
  | t :: tenants' =>
      if bool_decide (t ∈ keep) then resolve_depths now threshold db keep tenants' s
      else
        let '(resolved, s) := resolve_episode now t DLQ_DEPTH_FINGERPRINT DLQ_SUBJECT
          ("depth " +:+ show_Z (dlq_depth t db) +:+ ", below the threshold of " +:+ show_Z threshold) s in
        let '(ids, s) := resolve_depths now threshold db keep tenants' s in
        (option_list resolved ++ ids, s)
  end.

(** [_evaluate_dlq_depth], on the queue read at its start. *)
Definition evaluate_dlq_depth (env : RuleEnv) (threshold : Z) (db : DB) (s : AlertStore)
    : result exn RuleOutcome * AlertStore :=
  let bs := breaching threshold db in
  match raise_depths env threshold bs s with
  | (Err e, s) => (Err e, s)
  | (Ok raised, s) =>
      let tenants := tenants_with_open_episode (dedup_prefix DLQ_DEPTH_FINGERPRINT DLQ_SUBJECT) s in
      let '(resolved, s) := resolve_depths (rn_now env) threshold db bs.*1 tenants s in
      (Ok (mkOutcome raised resolved), s)
  end.

(** ** Both rules *)

(** [evaluate_alert_rules]: a rule that raises (as the first one does when Redis does not
    answer) is logged and does not stop the other. *)
Definition evaluate_alert_rules (enabled : bool) (lag_threshold depth_threshold : Z) (env : RuleEnv) (t : Q)
    (redis : option Redis) (db : DB) (s : AlertStore) : RuleOutcome * AlertStore :=
  if negb enabled then (no_outcome, s)
  else
    let keep '(o, s) := (match o with Ok o => o | Err _ => no_outcome end, s) in
    let '(o1, s) := keep (match redis with
                          | Some r => evaluate_consumer_lag env t lag_threshold r s
                          | None => (Err ServiceError, s)
                          end) in
    let '(o2, s) := keep (evaluate_dlq_depth env depth_threshold db s) in
    (outcome_app o1 o2, s).

(** The series a key of the rules belongs to: fingerprint and subject. *)
Definition series_of_key (key : string) : option (string * string) :=
  match split_char ":"%char (String.list_ascii_of_string key) with
  | _ :: fingerprint :: rest =>
      if (length rest <? 2)%nat then None
      else Some (String.string_of_list_ascii fingerprint,
                 str_join ":" (String.string_of_list_ascii <$> take (length rest - 1) rest))
  | _ => None
  end.

Definition rule_key (a : Alert) : option string :=
  k ← al_dedup_key a; if String.prefix (DEDUP_NAMESPACE +:+ ":") k then Some k else None.

Fixpoint resolve_series (now : Z) (reason : string) (series : list (uuid * string)) (s : AlertStore)
    : list uuid * AlertStore :=
  match series with
  | [] => ([], s)
  | (tenant, key) :: series' =>
      match series_of_key key with
      | None => resolve_series now reason series' s
      | Some (fingerprint, subject) =>
          let '(resolved, s) := resolve_episode now tenant fingerprint subject reason s in
          let '(ids, s) := resolve_series now reason series' s in
          (option_list resolved ++ ids, s)
      end
  end.

(** [resolve_open_episodes]. *)
Definition resolve_open_episodes (now : Z) (reason : string) (s : AlertStore) : list uuid * AlertStore :=
  resolve_series now reason
    (sql_scan (omap (λ a, if bool_decide (open_row a) then pair (al_tenant_id a) <$> rule_key a else None) (as_alerts s))) s.
End Alerts.
