(* ===== verification/AlertsProps.v ===== *)
(** * Properties of alerts

    Over every interleaving of replicas whose open-alert query and count agree, a series
    has at most one open episode and its episodes are numbered without gaps; when they
    do not agree one breach pages twice.  The dead-letter rule leaves an open alert for
    exactly the tenants above the threshold, the lag rule follows the newest measurement. *)
From stdpp Require Import base tactics numbers option list gmap strings sorting relations.
From Stdlib Require Import QArith Ascii Lia.
From S2P Require Import Prelude PyData Codec Models Database Redis ConsumerLag Alerts Fixtures.

(** ** Keys *)

Lemma dedup_key_inj f subj (a b : Z) : dedup_key f subj a = dedup_key f subj b → a = b.
Proof. unfold dedup_key. intros E%(inj _). by apply show_Z_inj. Qed.

(** ** One series *)

Section Series.
Context `{SqlOrder, UuidSource} (tenant : uuid) (fingerprint subject : string).

Let prefix : string := dedup_prefix fingerprint subject.
Let key (n : nat) : string := dedup_key fingerprint subject (Z.of_nat n).

Definition series (s : AlertStore) : list Alert := filter (in_series tenant prefix) (as_alerts s).
Definition open_count (s : AlertStore) : nat := length (filter open_row (series s)).

(** Ids are drawn, each once. *)
Definition ids_ok (s : AlertStore) : Prop :=
  NoDup (al_id <$> as_alerts s) ∧ ∀ a, a ∈ as_alerts s → ∃ n, (n < as_draws s)%N ∧ al_id a = uuid4 n.

(** Episodes are numbered from zero without gaps and at most one is open. *)
Record series_ok (s : AlertStore) : Prop := {
  so_keys : al_dedup_key <$> series s = (Some ∘ key) <$> seq 0 (length (series s));
  so_open : (open_count s ≤ 1)%nat;
  so_ids : ids_ok s
}.

Lemma key_in_series a n : al_tenant_id a = tenant → al_dedup_key a = Some (key n) → in_series tenant prefix a.
Proof. intros Ht Hk. split; [done|]. rewrite Hk. apply prefix_app. Qed.

Lemma open_alert_none s : open_alert tenant prefix s = None ↔ open_count s = 0%nat.
Proof.
  unfold open_alert, open_count, series. rewrite (filter_filter_iff _ _ (λ a, in_series tenant prefix a ∧ open_row a)) by naive_solver.
  set (l := filter _ (as_alerts s)).
  assert (Hp : merge_sort fired_later (sql_scan l) ≡ₚ l) by (rewrite merge_sort_Permutation; apply sql_scan_perm).
  apply Permutation_length in Hp. destruct (merge_sort fired_later (sql_scan l)) as [|x m]; cbn in *; split; intros; done || lia.
Qed.

Lemma open_alert_some s a :
  open_alert tenant prefix s = Some a → a ∈ as_alerts s ∧ in_series tenant prefix a ∧ open_row a.
Proof.
  unfold open_alert. set (l := filter _ (as_alerts s)).
  assert (Hp : merge_sort fired_later (sql_scan l) ≡ₚ l) by (rewrite merge_sort_Permutation; apply sql_scan_perm).
  intros Ha. assert (Hin : a ∈ l).
  { rewrite <- Hp. destruct (merge_sort fired_later (sql_scan l)); cbn in Ha; [done|]. simplify_eq. left. }
  apply list_elem_of_filter in Hin. naive_solver.
Qed.

Lemma series_key s a : series_ok s → a ∈ series s → ∃ n, (n < length (series s))%nat ∧ al_dedup_key a = Some (key n).
Proof.
  intros Hs Ha. apply (list_elem_of_fmap_2 al_dedup_key) in Ha. rewrite (so_keys s Hs) in Ha.
  apply list_elem_of_fmap in Ha as (n & Hk & Hn). apply elem_of_seq in Hn. exists n. split; [lia|exact Hk].
Qed.

Lemma key_taken s n : series_ok s → (n < length (series s))%nat → ∃ a, a ∈ series s ∧ al_dedup_key a = Some (key n).
Proof.
  intros Hs Hn. assert (Hin : Some (key n) ∈ al_dedup_key <$> series s).
  { rewrite (so_keys s Hs). apply list_elem_of_fmap. exists n. split; [done|]. apply elem_of_seq. lia. }
  apply list_elem_of_fmap in Hin as (a & Hk & Ha). by exists a.
Qed.

Definition of_series (ep : Episode) : Prop :=
  ep_tenant_id ep = tenant ∧ ep_fingerprint ep = fingerprint ∧ ep_subject ep = subject ∧ ep_title ep ≠ "".

(** The row an episode becomes. *)
Definition episode_row (now : Z) (request_id : option string) (ep : Episode) (n : nat) (s : AlertStore) : Alert :=
  mkAlert (uuid4 (as_draws s)) tenant SEVERITY_CRITICAL (ep_source ep) (ep_title ep) (Some (ep_summary ep)) now None
    (Some (ep_payload ep)) request_id (Some (key n)).

(** A raise under an ordinal already used changes nothing; under the next one it adds
    the open row, its audit row and its delivery. *)
Lemma commit_raise_cases webhook now request_id ep n s :
  series_ok s → of_series ep → (n ≤ length (series s))%nat →
  if decide (n = length (series s))
  then let a := episode_row now request_id ep n s in
       let r := commit_raise webhook now request_id ep (Z.of_nat n) s in
       r.1 = Ok (Some (al_id a)) ∧ as_alerts r.2 = as_alerts s ++ [a] ∧ as_draws r.2 = (as_draws s + 1)%N ∧
       length (as_audit r.2) = S (length (as_audit s)) ∧
       as_delivered r.2 = as_delivered s ++ (if webhook then [webhook_payload a] else [])
  else commit_raise webhook now request_id ep (Z.of_nat n) s = (Ok None, s).
Proof.
  intros Hs (Et & Ef & Es & Hti) Hn. unfold commit_raise, create_alert. rewrite Et, Ef, Es.
  change (bool_decide (SEVERITY_CRITICAL ∈ ALLOWED_SEVERITIES)) with true. cbn [negb].
  rewrite (bool_decide_false (ep_title ep = "")) by done. unfold insert_alert. cbn [al_dedup_key al_tenant_id as_alerts].
  fold (key n). case_decide as Hd.
  - rewrite bool_decide_false; [destruct webhook; cbn; rewrite ?app_nil_r, ?length_app; cbn; (split; [done|]); repeat split; lia || done|].
    intros [_ Hex]. apply Exists_exists in Hex as (b & Hb & Hbt & Hbk).
    assert (Hin : b ∈ series s) by (apply list_elem_of_filter; split; [by apply (key_in_series b n)|done]).
    destruct (series_key s b Hs Hin) as (m & Hm & Hkm). rewrite Hbk in Hkm. apply (inj Some) in Hkm.
    apply dedup_key_inj in Hkm. lia.
  - rewrite bool_decide_true; [done|]. split; [eauto|].
    destruct (key_taken s n Hs ltac:(lia)) as (b & Hb & Hk). apply list_elem_of_filter in Hb as [[Hbt _] Hb].
    apply Exists_exists. by exists b.
Qed.

Lemma fresh_id s : ids_ok s → uuid4 (as_draws s) ∉ al_id <$> as_alerts s.
Proof.
  intros [_ Hd] Hin. apply list_elem_of_fmap in Hin as (a & E & Ha). destruct (Hd a Ha) as (n & Hn & En).
  rewrite En in E. apply (inj uuid4) in E. lia.
Qed.

Lemma series_app s a :
  in_series tenant prefix a → filter (in_series tenant prefix) (as_alerts s ++ [a]) = series s ++ [a].
Proof. intros Ha. rewrite filter_app, filter_cons, decide_True by done. done. Qed.

(** Adding the next episode of a series with none open. *)
Lemma added_ok s s' a :
  series_ok s → open_count s = 0%nat → al_tenant_id a = tenant → al_dedup_key a = Some (key (length (series s))) →
  open_row a → al_id a = uuid4 (as_draws s) → as_alerts s' = as_alerts s ++ [a] → as_draws s' = (as_draws s + 1)%N →
  series_ok s' ∧ length (series s') = S (length (series s)) ∧ open_count s' = 1%nat.
Proof.
  intros [Hk Ho Hids] Hzero Ht Hka Hopen Hid Ha Hd.
  assert (Hser : series s' = series s ++ [a]).
  { unfold series. rewrite Ha. apply series_app. by apply (key_in_series a (length (series s))). }
  assert (Hoc : open_count s' = 1%nat).
  { unfold open_count in *. rewrite Hser, filter_app, length_app, Hzero, filter_cons, decide_True by done. done. }
  split; [|split; [by rewrite Hser, length_app; cbn; lia|done]]. split.
  - rewrite Hser, fmap_app, length_app, Hk. cbn [length]. rewrite Nat.add_1_r, seq_S, fmap_app. cbn. by rewrite Hka.
  - lia.
  - pose proof (fresh_id s Hids) as Hf. destruct Hids as [Hn Hdr]. split.
    + rewrite Ha, fmap_app. apply NoDup_app. split; [done|]. split; [|by apply NoDup_singleton].
      intros x Hx Hx'. apply list_elem_of_singleton in Hx' as ->. by rewrite Hid in Hx.
    + intros b. rewrite Ha, elem_of_app, list_elem_of_singleton, Hd. intros [Hb| ->].
      * destruct (Hdr b Hb) as (n & ? & ?). exists n. split; [lia|done].
      * exists (as_draws s). split; [lia|done].
Qed.

(** ** Resolving *)

Lemma resolve_row_fields now i a :
  al_id (resolve_row now i a) = al_id a ∧ al_tenant_id (resolve_row now i a) = al_tenant_id a ∧
  al_dedup_key (resolve_row now i a) = al_dedup_key a.
Proof. unfold resolve_row. by case_bool_decide. Qed.

Lemma resolve_row_series now i t p a : in_series t p (resolve_row now i a) ↔ in_series t p a.
Proof.
  unfold in_series. destruct (resolve_row_fields now i a) as (_ & -> & ->). done.
Qed.

Lemma filter_resolve now i t p (l : list Alert) :
  filter (in_series t p) (resolve_row now i <$> l) = resolve_row now i <$> filter (in_series t p) l.
Proof.
  induction l as [|a l IH]; [done|]. rewrite fmap_cons, !filter_cons, IH.
  pose proof (resolve_row_series now i t p a). repeat case_decide; naive_solver.
Qed.

(** Closing the one open row of a list. *)
Lemma close_one now i (l : list Alert) :
  (length (filter open_row l) ≤ 1)%nat → i ∈ al_id <$> filter open_row l →
  filter open_row (resolve_row now i <$> l) = [].
Proof.
  intros Hl Hi. apply filter_none. intros b Hb Ho. apply list_elem_of_fmap in Hb as (a & -> & Ha).
  unfold resolve_row, open_row in Ho. case_bool_decide as Hia; [done|].
  assert (Hao : a ∈ filter open_row l) by (by apply list_elem_of_filter).
  apply list_elem_of_fmap in Hi as (c & Hc & Hco).
  destruct (filter open_row l) as [|x [|y m]]; [by apply elem_of_nil in Hco| |cbn in Hl; lia].
  apply list_elem_of_singleton in Hao, Hco. congruence.
Qed.

Lemma resolve_alerts now reason s :
  as_alerts (resolve_episode now tenant fingerprint subject reason s).2 =
  match open_alert tenant prefix s with
  | None => as_alerts s
  | Some a => resolve_row now (al_id a) <$> as_alerts s
  end ∧ as_draws (resolve_episode now tenant fingerprint subject reason s).2 = as_draws s.
Proof. unfold resolve_episode. fold prefix. by destruct (open_alert tenant prefix s). Qed.

Lemma ids_resolve now i s s' :
  ids_ok s → as_alerts s' = resolve_row now i <$> as_alerts s → as_draws s' = as_draws s → ids_ok s'.
Proof.
  intros [Hn Hd] Ha Hdr. unfold ids_ok. rewrite Ha, Hdr, <- list_fmap_compose. split.
  - erewrite list_fmap_ext; [exact Hn|]. intros k a _. apply resolve_row_fields.
  - intros b (a & -> & Hab)%list_elem_of_fmap. rewrite (proj1 (resolve_row_fields now i a)). by apply Hd.
Qed.

Lemma resolved_ok now reason s :
  series_ok s → let s' := (resolve_episode now tenant fingerprint subject reason s).2 in
  series_ok s' ∧ length (series s') = length (series s) ∧ open_count s' = 0%nat.
Proof.
  intros Hs s'. destruct (resolve_alerts now reason s) as [Ha Hd]. fold s' in Ha, Hd.
  destruct (open_alert tenant prefix s) as [a|] eqn:E.
  - assert (Hser : series s' = resolve_row now (al_id a) <$> series s) by (unfold series; rewrite Ha; apply filter_resolve).
    apply open_alert_some in E as (Hin & Hsr & Hop).
    assert (Hlen : length (series s') = length (series s)) by (by rewrite Hser, length_fmap).
    assert (Hzero : open_count s' = 0%nat).
    { unfold open_count. rewrite Hser, close_one; [done|apply Hs|].
      apply list_elem_of_fmap. exists a. split; [done|]. apply list_elem_of_filter. split; [done|].
      by apply list_elem_of_filter. }
    split; [|done]. split; [|lia|].
    + rewrite Hlen, <- (so_keys s Hs), Hser, <- list_fmap_compose. apply list_fmap_ext. intros k b _. apply resolve_row_fields.
    + eapply ids_resolve; [apply Hs|exact Ha|exact Hd].
  - apply open_alert_none in E. assert (Hser : series s' = series s) by (unfold series; by rewrite Ha).
    assert (Hoc : open_count s' = open_count s) by (unfold open_count; by rewrite Hser).
    split; [|split; [by rewrite Hser|by rewrite Hoc]]. destruct Hs as [Hk Ho [Hn Hdr]].
    split; [by rewrite Hser|lia|]. unfold ids_ok. by rewrite Ha, Hd.
Qed.
End Series.

(** ** Replicas at work on one series *)

Section Episodes.
Context `{SqlOrder, UuidSource} (tenant : uuid) (fingerprint subject : string).

Let ok := series_ok tenant fingerprint subject.
Let rows := series tenant fingerprint subject.
Let opens := open_count tenant fingerprint subject.

(** The store and the ordinals that evaluations have planned and not inserted yet. *)
Record EpWorld := mkEp { ew_store : AlertStore; ew_plans : list Z }.

Inductive ep_step (w : EpWorld) : EpWorld → Prop :=
  | ep_plan ep o : of_series tenant fingerprint subject ep → plan_raise id ep (ew_store w) = Some o →
      ep_step w (mkEp (ew_store w) (o :: ew_plans w))
  | ep_commit webhook now request_id ep o : of_series tenant fingerprint subject ep → o ∈ ew_plans w →
      ep_step w (mkEp (commit_raise webhook now request_id ep o (ew_store w)).2 (ew_plans w))
  | ep_resolve now reason :
      ep_step w (mkEp (resolve_episode now tenant fingerprint subject reason (ew_store w)).2 (ew_plans w))
  | ep_other s : rows s = rows (ew_store w) → ids_ok s → ep_step w (mkEp s (ew_plans w)).

Definition no_alerts : AlertStore := mkStore [] [] 0 [].

Record ep_inv (w : EpWorld) : Prop := {
  ei_ok : ok (ew_store w);
  ei_plans o : o ∈ ew_plans w → ∃ n, o = Z.of_nat n ∧ (n ≤ length (rows (ew_store w)))%nat ∧
    (n = length (rows (ew_store w)) → opens (ew_store w) = 0%nat)
}.

Lemma no_alerts_inv : ep_inv (mkEp no_alerts []).
Proof.
  split; [split|]; cbn; [done|unfold open_count; cbn; lia| |by intros o Ho%elem_of_nil].
  split; [constructor|by intros a Ha%elem_of_nil].
Qed.

Lemma plan_ordinal ep s o : of_series tenant fingerprint subject ep → plan_raise id ep s = Some o →
  o = Z.of_nat (length (rows s)) ∧ opens s = 0%nat.
Proof.
  intros (Et & Ef & Es & _). unfold plan_raise. rewrite Et, Ef, Es.
  destruct (open_alert _ _ s) eqn:E; [done|]. intros [= <-]. apply open_alert_none in E. done.
Qed.

Lemma ep_step_inv w w' : ep_inv w → ep_step w w' → ep_inv w'.
Proof.
  intros [Hok Hpl] Hst. destruct Hst as [ep o Hep Ho|webhook now request_id ep o Hep Ho|now reason|s Hs Hids]; cbn in *.
  - destruct (plan_ordinal ep _ o Hep Ho) as [-> Hz]. split; [done|]. cbn. intros o [->|Hin]%elem_of_cons; [|by apply Hpl].
    exists (length (rows (ew_store w))). done.
  - destruct (Hpl o Ho) as (n & -> & Hn & Hz).
    pose proof (commit_raise_cases tenant fingerprint subject webhook now request_id ep n (ew_store w) Hok Hep Hn) as Hc.
    case_decide as Hd.
    + cbv zeta in Hc. destruct Hc as (_ & Ha & Hdr & _).
      destruct (added_ok tenant fingerprint subject (ew_store w) _ (episode_row tenant fingerprint subject now request_id ep n (ew_store w)) Hok (Hz Hd) eq_refl ltac:(by rewrite <- Hd) eq_refl eq_refl Ha Hdr)
        as (Hok' & Hlen & _).
      split; [done|]. cbn. intros o Ho'. destruct (Hpl o Ho') as (m & -> & Hm & _). exists m. unfold rows in *. rewrite Hlen.
      split; [done|]. split; lia.
    + rewrite Hc. by split.
  - destruct (resolved_ok tenant fingerprint subject now reason (ew_store w) Hok) as (Hok' & Hlen & Hz).
    split; [done|]. cbn. intros o Ho. destruct (Hpl o Ho) as (n & -> & Hn & _). exists n. unfold rows in *. rewrite Hlen. done.
  - assert (Hoc : opens s = opens (ew_store w)) by (unfold opens, open_count; unfold rows in Hs; by rewrite Hs).
    split; cbn.
    + destruct Hok as [Hk Hone _]. split; [unfold rows in Hs; by rewrite Hs|unfold opens in Hoc; by rewrite Hoc|done].
    + intros o Ho. rewrite Hs, Hoc. by apply Hpl.
Qed.

(** Whatever interleaving of evaluations on any number of replicas, a series of episodes
    never has two open alerts, and its alerts are numbered from zero without a gap: a
    sustained breach pages once and the next one after a recovery pages again. *)
Theorem one_open_episode w :
  rtc ep_step (mkEp no_alerts []) w →
  (opens (ew_store w) ≤ 1)%nat ∧
  al_dedup_key <$> rows (ew_store w) =
    (λ n, Some (dedup_key fingerprint subject (Z.of_nat n))) <$> seq 0 (length (rows (ew_store w))).
Proof.
  intros Hr. assert (Hi : ep_inv w).
  { revert Hr. generalize no_alerts_inv. generalize (mkEp no_alerts []). intros w0 Hw0 Hr.
    induction Hr as [|w1 w2 w3 Hst _ IH]; [done|]. apply IH. by eapply ep_step_inv. }
  destruct Hi as [[Hk Ho _] _]. done.
Qed.
End Episodes.

(** ** Frames: what one tenant's transitions leave of the others *)

Section Rules.
Context `{SqlOrder, UuidSource, PyCodec} (fingerprint subject : string).

Let ok t := series_ok t fingerprint subject.
Let opens t := open_count t fingerprint subject.

Lemma series_other t a s s' :
  al_tenant_id a ≠ t → as_alerts s' = as_alerts s ++ [a] →
  series t fingerprint subject s' = series t fingerprint subject s.
Proof.
  intros Ht Ha. unfold series. rewrite Ha, filter_app, filter_cons, decide_False, filter_nil, app_nil_r; [done|].
  intros [? _]. done.
Qed.

Lemma series_resolved_other t now a s s' :
  ids_ok s → a ∈ as_alerts s → al_tenant_id a ≠ t → as_alerts s' = resolve_row now (al_id a) <$> as_alerts s →
  series t fingerprint subject s' = series t fingerprint subject s.
Proof.
  intros [Hn _] Hin Ht Ha. unfold series. rewrite Ha, filter_resolve.
  rewrite <- (list_fmap_id (filter _ (as_alerts s))) at 2. apply list_fmap_ext. intros k b Hb.
  apply list_elem_of_lookup_2, list_elem_of_filter in Hb as [[Hbt _] Hb]. unfold resolve_row. rewrite bool_decide_false; [done|].
  intros E. assert (b = a); [|congruence].
  apply list_elem_of_lookup in Hb as [i Hi]. apply list_elem_of_lookup in Hin as [j Hj].
  assert (Hij : i = j).
  { eapply NoDup_lookup; [exact Hn| |]; rewrite list_lookup_fmap; [rewrite Hi|rewrite Hj]; cbn; [done|by rewrite E]. }
  subst. congruence.
Qed.

Lemma ok_frame t s s' :
  ok t s → ids_ok s' → series t fingerprint subject s' = series t fingerprint subject s →
  ok t s' ∧ opens t s' = opens t s.
Proof.
  intros [Hk Ho _] Hids Hs. assert (Hoc : opens t s' = opens t s) by (unfold opens, open_count; by rewrite Hs).
  split; [|done]. split; [by rewrite Hs|unfold opens in Hoc; by rewrite Hoc|done].
Qed.

(** An evaluation that no other transaction interrupts: the episode of its own tenant
    is open afterwards, the other tenants' series are as they were. *)
Lemma raise_alone webhook now request_id ep t s :
  (∀ t, ok t s) → of_series t fingerprint subject ep →
  let r := raise_episode webhook now request_id id id ep s in
  is_ok r.1 = true ∧ (∀ t, ok t r.2) ∧ opens t r.2 = 1%nat ∧ (∀ t', t' ≠ t → opens t' r.2 = opens t' s).
Proof.
  intros Hok Hep r. unfold r, raise_episode. destruct (plan_raise id ep s) as [o|] eqn:Hp; cbn [id].
  - destruct (plan_ordinal t fingerprint subject ep s o Hep Hp) as [-> Hz].
    pose proof (commit_raise_cases t fingerprint subject webhook now request_id ep _ s (Hok t) Hep ltac:(reflexivity)) as Hc.
    rewrite decide_True in Hc by done. cbv zeta in Hc. destruct Hc as (Hres & Ha & Hd & _).
    destruct (added_ok t fingerprint subject s _ (episode_row t fingerprint subject now request_id ep _ s) (Hok t) Hz eq_refl eq_refl eq_refl eq_refl Ha Hd) as (Hok' & _ & Hone).
    split; [by rewrite Hres|]. split; [|split; [done|]].
    + intros t'. destruct (decide (t' = t)) as [->|Hne]; [done|].
      eapply ok_frame; [apply Hok|apply Hok'|]. eapply (series_other t'); [|exact Ha]. cbn. congruence.
    + intros t' Hne. eapply ok_frame; [apply Hok|apply Hok'|].
      eapply (series_other t'); [|exact Ha]. cbn. congruence.
  - split; [done|]. split; [done|]. split; [|done].
    unfold plan_raise in Hp. destruct Hep as (Et & Ef & Es & _). rewrite Et, Ef, Es in Hp.
    destruct (open_alert _ _ s) eqn:E; [|done]. pose proof (so_open _ _ _ _ (Hok t)) as Hle.
    destruct (decide (opens t s = 0%nat)) as [Hz|Hz]; [|unfold opens in *; cbn [snd]; lia]. apply open_alert_none in Hz. congruence.
Qed.

Lemma resolve_alone now reason t s :
  (∀ t, ok t s) →
  let s' := (resolve_episode now t fingerprint subject reason s).2 in
  (∀ t, ok t s') ∧ opens t s' = 0%nat ∧ (∀ t', t' ≠ t → opens t' s' = opens t' s).
Proof.
  intros Hok s'. destruct (resolved_ok t fingerprint subject now reason s (Hok t)) as (Hok' & _ & Hz). fold s' in Hok', Hz.
  assert (Hser : ∀ t', t' ≠ t → series t' fingerprint subject s' = series t' fingerprint subject s).
  { intros t' Hne. destruct (resolve_alerts t fingerprint subject now reason s) as [Ha _]. fold s' in Ha.
    destruct (open_alert t _ s) as [a|] eqn:E; [|unfold series; by rewrite Ha].
    apply open_alert_some in E as (Hin & [Hat _] & _).
    eapply series_resolved_other; [apply (Hok t)|exact Hin|congruence|exact Ha]. }
  split; [|split; [done|]].
  - intros t'. destruct (decide (t' = t)) as [->|Hne]; [done|]. eapply ok_frame; [apply Hok|apply Hok'|by apply Hser].
  - intros t' Hne. eapply ok_frame; [apply Hok|apply Hok'|by apply Hser].
Qed.
End Rules.

(** ** The rules, evaluated without interruption *)

Section Evaluate.
Context `{SqlOrder, UuidSource, PyCodec} (webhook : bool) (now : Z) (request_id : option string).

Definition alone : RuleEnv := mkRuleEnv webhook now request_id id id.

Lemma lag_title group sample threshold : ep_title (lag_episode group sample threshold) ≠ "".
Proof. discriminate. Qed.

(** The lag rule leaves an open alert exactly when the newest measurement is at or above
    the threshold; without a measurement it changes nothing. *)
Theorem lag_rule_follows_measurement t threshold group r s reading :
  read_lag t now group r = Ok reading →
  (∀ tenant, series_ok tenant CONSUMER_STALLED_FINGERPRINT group s) →
  let s' := (evaluate_group alone t threshold group r s).2 in
  match lr_samples reading with
  | [] => s' = s
  | sample :: _ =>
      open_count DEFAULT_TENANT_ID CONSUMER_STALLED_FINGERPRINT group s' =
        if (threshold <=? ls_lag sample)%Z then 1%nat else 0%nat
  end.
Proof.
  intros Hr Hok s'. unfold s', evaluate_group. cbn [rn_now alone]. rewrite Hr.
  destruct (lr_samples reading) as [|sample rest]; [done|].
  destruct (threshold <=? ls_lag sample)%Z.
  - destruct (raise_alone CONSUMER_STALLED_FINGERPRINT group webhook now request_id
      (lag_episode group sample threshold) DEFAULT_TENANT_ID s Hok) as (_ & _ & Hone & _).
    { repeat split; try reflexivity. apply lag_title. }
    unfold raise_in. cbn [rn_webhook rn_now rn_request_id rn_meanwhile1 rn_meanwhile2 alone].
    destruct (raise_episode _ _ _ _ _ _ s) as [[]]; exact Hone.
  - cbn [rn_now alone].
    destruct (resolve_alone CONSUMER_STALLED_FINGERPRINT group now
      ("lag measured at " +:+ show_Z (ls_lag sample) +:+ ", below the threshold of " +:+ show_Z threshold)
      DEFAULT_TENANT_ID s Hok) as (_ & Hz & _).
    destruct (resolve_episode _ _ _ _ _ s). exact Hz.
Qed.

Let ok t := series_ok t DLQ_DEPTH_FINGERPRINT DLQ_SUBJECT.
Let opens t := open_count t DLQ_DEPTH_FINGERPRINT DLQ_SUBJECT.

Lemma raise_depths_opens threshold bs s :
  (∀ t, ok t s) → let r := raise_depths alone threshold bs s in
  is_ok r.1 = true ∧ (∀ t, ok t r.2) ∧ ∀ t, opens t r.2 = if decide (t ∈ bs.*1) then 1%nat else opens t s.
Proof.
  revert s. induction bs as [|[t [depth hint]] bs IH]; intros s Hok; cbn [raise_depths].
  { split; [done|]. split; [done|]. intros t. rewrite decide_False; [done|]. by intros Ht%elem_of_nil. }
  destruct (raise_alone DLQ_DEPTH_FINGERPRINT DLQ_SUBJECT webhook now request_id
    (dlq_episode t depth threshold hint now) t s Hok) as (Hr1 & Hok1 & Hone & Hoth).
  { repeat split; try reflexivity. discriminate. }
  unfold raise_in. cbn [rn_webhook rn_now rn_request_id rn_meanwhile1 rn_meanwhile2 alone].
  destruct (raise_episode _ _ _ _ _ _ s) as [[raised|e] s1]; [|done]. cbn [snd fst] in *.
  destruct (IH s1 Hok1) as (Hr2 & Hok2 & Hop). destruct (raise_depths alone threshold bs s1) as [[ids|e] s2]; [|done].
  cbn [snd fst] in *. split; [done|]. split; [done|]. intros t'. rewrite Hop. rewrite fmap_cons. cbn [fst].
  destruct (decide (t' ∈ bs.*1)) as [Hin|Hin]; [by rewrite decide_True by (by right)|].
  destruct (decide (t' = t)) as [->|Hne].
  - by rewrite decide_True by left.
  - rewrite decide_False by (intros [?|?]%elem_of_cons; done). by apply Hoth.
Qed.

Lemma resolve_depths_opens threshold db keep ts s :
  (∀ t, ok t s) → let r := resolve_depths now threshold db keep ts s in
  (∀ t, ok t r.2) ∧ ∀ t, opens t r.2 = if decide (t ∈ ts ∧ t ∉ keep) then 0%nat else opens t s.
Proof.
  revert s. induction ts as [|t ts IH]; intros s Hok; cbn [resolve_depths].
  { split; [done|]. intros t. rewrite decide_False; [done|]. by intros [Ht%elem_of_nil _]. }
  case_bool_decide as Hk.
  - destruct (IH s Hok) as [Hok1 Hop]. split; [done|]. intros t'. rewrite Hop.
    destruct (decide (t' ∈ ts ∧ t' ∉ keep)) as [Hd|Hd]; [by rewrite decide_True by (split; [right|]; apply Hd)|].
    rewrite decide_False; [done|]. intros [[->|Ht]%elem_of_cons Hn]; [done|]. by apply Hd.
  - destruct (resolve_alone DLQ_DEPTH_FINGERPRINT DLQ_SUBJECT now
      ("depth " +:+ show_Z (dlq_depth t db) +:+ ", below the threshold of " +:+ show_Z threshold) t s Hok) as (Hok1 & Hz & Hoth).
    destruct (resolve_episode _ _ _ _ _ s) as [resolved s1]. cbn [snd] in *.
    destruct (IH s1 Hok1) as [Hok2 Hop]. destruct (resolve_depths _ _ _ _ ts s1) as [ids s2]. cbn [snd] in *.
    split; [done|]. intros t'. rewrite Hop.
    destruct (decide (t' ∈ ts ∧ t' ∉ keep)) as [Hd|Hd]; [by rewrite decide_True by (split; [right|]; apply Hd)|].
    destruct (decide (t' = t)) as [->|Hne].
    + rewrite decide_True by (split; [left|done]). done.
    + rewrite decide_False; [by apply Hoth|]. intros [[->|Ht]%elem_of_cons Hn]; [done|]. by apply Hd.
Qed.

Lemma breaching_tenants threshold db t :
  (0 < threshold)%Z → t ∈ (breaching threshold db).*1 ↔ (threshold ≤ dlq_depth t db)%Z.
Proof.
  intros Hpos. unfold breaching. rewrite <- list_fmap_compose. cbn. unfold dlq_depth_by_tenant. split.
  - intros ([t' d] & -> & Hin)%list_elem_of_fmap. apply list_elem_of_filter in Hin as [Hle Hin].
    apply list_elem_of_fmap in Hin as (t'' & [= -> ->] & _). done.
  - intros Hle. apply list_elem_of_fmap. exists (t, dlq_depth t db). split; [done|]. apply list_elem_of_filter. split; [done|].
    apply list_elem_of_fmap. exists t. split; [done|]. rewrite sql_scan_perm. apply elem_of_remove_dups.
    unfold dlq_depth in Hle. destruct (dead_rows t db) as [|j rest] eqn:E; [cbn in Hle; lia|].
    assert (Hj : j ∈ dead_rows t db) by (rewrite E; left). unfold dead_rows in Hj.
    apply list_elem_of_filter in Hj as [[Ht Hs] Hj]. apply list_elem_of_fmap. exists j. split; [done|].
    by apply list_elem_of_filter.
Qed.

Lemma open_tenants s t :
  t ∈ tenants_with_open_episode (dedup_prefix DLQ_DEPTH_FINGERPRINT DLQ_SUBJECT) s ↔ opens t s ≠ 0%nat.
Proof.
  unfold tenants_with_open_episode, opens, open_count, series. rewrite sql_scan_perm, elem_of_remove_dups.
  rewrite list_elem_of_fmap. split.
  - intros (a & -> & Ha). apply list_elem_of_filter in Ha as [[Hs Ho] Ha]. intros Hz.
    apply nil_length_inv in Hz. assert (Hin : a ∈ filter open_row (filter (in_series (al_tenant_id a)
      (dedup_prefix DLQ_DEPTH_FINGERPRINT DLQ_SUBJECT)) (as_alerts s))).
    { apply list_elem_of_filter. split; [done|]. by apply list_elem_of_filter. }
    rewrite Hz in Hin. by apply elem_of_nil in Hin.
  - intros Hne. destruct (filter open_row _) as [|a rest] eqn:E; [done|].
    assert (Hin : a ∈ a :: rest) by left. rewrite <- E in Hin.
    apply list_elem_of_filter in Hin as [Ho [Hs Ha]%list_elem_of_filter]. exists a.
    destruct Hs as [Ht Hs]. split; [done|]. apply list_elem_of_filter. split; [|done]. split; [|done]. by split.
Qed.

(** The dead-letter rule leaves an open alert for exactly the tenants whose queue is at
    or above the threshold, drained ones included. *)
Theorem dlq_rule_tracks_depth threshold db s :
  (0 < threshold)%Z → (∀ t, series_ok t DLQ_DEPTH_FINGERPRINT DLQ_SUBJECT s) →
  let r := evaluate_dlq_depth alone threshold db s in
  is_ok r.1 = true ∧
  ∀ t, open_count t DLQ_DEPTH_FINGERPRINT DLQ_SUBJECT r.2 = if (threshold <=? dlq_depth t db)%Z then 1%nat else 0%nat.
Proof.
  intros Hpos Hok r. unfold r, evaluate_dlq_depth.
  destruct (raise_depths_opens threshold (breaching threshold db) s Hok) as (Hr1 & Hok1 & Hop1).
  destruct (raise_depths alone threshold (breaching threshold db) s) as [[raised|e] s1]; [|done]. cbn [snd fst] in *.
  destruct (resolve_depths_opens threshold db (breaching threshold db).*1
    (tenants_with_open_episode (dedup_prefix DLQ_DEPTH_FINGERPRINT DLQ_SUBJECT) s1) s1 Hok1) as [Hok2 Hop2].
  cbn [rn_now alone]. destruct (resolve_depths _ _ _ _ _ s1) as [ids s2]. cbn [snd fst] in *. split; [done|].
  intros t. fold (opens t s2). rewrite Hop2.
  pose proof (open_tenants s1 t) as Hopen. pose proof (breaching_tenants threshold db t Hpos) as Hbr.
  specialize (Hop1 t). destruct (threshold <=? dlq_depth t db)%Z eqn:E; [apply Z.leb_le in E|apply Z.leb_gt in E].
  - rewrite decide_False by (intros [_ Hn]; by apply Hn, Hbr). rewrite Hop1, decide_True; [done|by apply Hbr].
  - assert (Hnb : t ∉ (breaching threshold db).*1) by (rewrite Hbr; lia).
    match goal with |- context [decide ?P] => destruct (decide P) as [Hd|Hd] end; [done|]. destruct (decide (opens t s1 = 0%nat)) as [Hz|Hz]; [exact Hz|]. destruct Hd. split; [by apply Hopen|done].
Qed.
End Evaluate.

(** ** Worked examples *)

Module AlertExample.
Import Fixtures.

Definition five_deep : Episode := dlq_episode tenant 5 5 None 1000000.

(** What another replica's evaluation of the same pass commits. *)
Definition other_replica (s : AlertStore) : AlertStore := (raise_episode true 1000000 None id id five_deep s).2.

(** When the other replica's insert commits between this one's open-alert query and its
    count, both raise: one breach, two open alerts, two deliveries.  When it commits
    after the count, the unique key settles it. *)
Theorem split_reads_page_twice :
  (let r := raise_episode true 1000000 None other_replica id five_deep no_alerts in
   is_ok r.1 = true ∧ open_count tenant DLQ_DEPTH_FINGERPRINT DLQ_SUBJECT r.2 = 2%nat ∧ length (as_delivered r.2) = 2%nat) ∧
  (let r := raise_episode true 1000000 None id other_replica five_deep no_alerts in
   r.1 = Ok None ∧ open_count tenant DLQ_DEPTH_FINGERPRINT DLQ_SUBJECT r.2 = 1%nat ∧ length (as_delivered r.2) = 1%nat).
Proof. split; cbv zeta; (split; [vm_compute; reflexivity|split; vm_compute; reflexivity]). Qed.

(** Two replicas plan the same episode and both try to insert it. *)
Definition raced : EpWorld :=
  mkEp (commit_raise true 1000001 None five_deep 0 (commit_raise true 1000000 None five_deep 0 no_alerts).2).2 [0; 0]%Z.

Lemma five_deep_series : of_series tenant DLQ_DEPTH_FINGERPRINT DLQ_SUBJECT five_deep.
Proof. repeat split; try reflexivity. discriminate. Qed.

Lemma raced_reachable : rtc (ep_step tenant DLQ_DEPTH_FINGERPRINT DLQ_SUBJECT) (mkEp no_alerts []) raced.
Proof.
  eapply rtc_l; [apply (ep_plan _ _ _ (mkEp no_alerts []) five_deep 0 five_deep_series); reflexivity|].
  eapply rtc_l; [apply (ep_plan _ _ _ (mkEp no_alerts [0%Z]) five_deep 0 five_deep_series); reflexivity|].
  eapply rtc_l; [apply (ep_commit _ _ _ (mkEp no_alerts [0; 0]%Z) true 1000000 None five_deep 0 five_deep_series); left|].
  eapply rtc_l; [apply (ep_commit _ _ _ (mkEp _ [0; 0]%Z) true 1000001 None five_deep 0 five_deep_series); left|].
  apply rtc_refl.
Qed.

Lemma one_open_episode_witness :
  length (as_alerts (ew_store raced)) = 1%nat ∧
  (open_count tenant DLQ_DEPTH_FINGERPRINT DLQ_SUBJECT (ew_store raced) ≤ 1)%nat.
Proof.
  split; [vm_compute; reflexivity|].
  exact (proj1 (one_open_episode tenant DLQ_DEPTH_FINGERPRINT DLQ_SUBJECT raced raced_reachable)).
Defined.

Lemma no_alerts_ok t f subj : series_ok t f subj no_alerts.
Proof. exact (ei_ok _ _ _ _ (no_alerts_inv t f subj)). Qed.

(** A measured lag of 40 against a threshold of 20. *)
Definition lagging : Redis := record_group_lag 60 1753964400 1753964400000000 LIVE_REFRESHED_GROUP 40 ∅.
Definition lag_reading : LagReading :=
  match read_lag 1753964401 1753964401000000 LIVE_REFRESHED_GROUP lagging with
  | Ok reading => reading
  | Err _ => mkReading None unrecognized None None [] None None None None
  end.

Lemma lag_rule_follows_measurement_witness :
  open_count DEFAULT_TENANT_ID CONSUMER_STALLED_FINGERPRINT LIVE_REFRESHED_GROUP
    (evaluate_group (alone true 1753964401000000 None) 1753964401 20 LIVE_REFRESHED_GROUP lagging no_alerts).2 = 1%nat.
Proof.
  assert (Hs : lr_samples lag_reading = [mkSample 40 1753964400000000]) by (vm_compute; reflexivity).
  assert (Hr : read_lag 1753964401 1753964401000000 LIVE_REFRESHED_GROUP lagging = Ok lag_reading).
  { unfold lag_reading. destruct (read_lag _ _ _ lagging) eqn:E; [reflexivity|]. exfalso. revert E. vm_compute. discriminate. }
  assert (Hok : ∀ t, series_ok t CONSUMER_STALLED_FINGERPRINT LIVE_REFRESHED_GROUP no_alerts) by (intros; apply no_alerts_ok).
  pose proof (lag_rule_follows_measurement true 1753964401000000 None 1753964401 20 LIVE_REFRESHED_GROUP lagging no_alerts
    lag_reading Hr Hok) as H.
  cbv zeta in H. rewrite Hs in H. exact H.
Defined.

(** One dead job against a threshold of one, in a tenant that had none open. *)
Lemma dlq_rule_tracks_depth_witness :
  open_count tenant DLQ_DEPTH_FINGERPRINT DLQ_SUBJECT
    (evaluate_dlq_depth (alone true 1000000 None) 1 (db_of [row 1 DEAD_LETTER] []) no_alerts).2 = 1%nat.
Proof.
  assert (Hd : dlq_depth tenant (db_of [row 1 DEAD_LETTER] []) = 1%Z) by (vm_compute; reflexivity).
  pose proof (dlq_rule_tracks_depth true 1000000 None 1 (db_of [row 1 DEAD_LETTER] []) no_alerts ltac:(lia)
    (λ t, no_alerts_ok t DLQ_DEPTH_FINGERPRINT DLQ_SUBJECT)) as H.
  cbv zeta in H. destruct H as [_ H]. specialize (H tenant). rewrite Hd in H. exact H.
Defined.
End AlertExample.
