(* ===== verification/Slo.v ===== *)
(** * Service-level objectives (services/slo.py)

    The objectives, their measurement on the jobs table, the burn rate, and the scheduled
    evaluation that raises one alert per objective and window.  Floating-point numbers are
    IEEE binary64, computed by [SpecFloat]. *)
From stdpp Require Import base tactics numbers option list gmap strings.
From Stdlib Require Import QArith Qround SpecFloat.
From S2P Require Import Prelude PyData Codec Models Database Redis ConsumerLag Alerts.

(** ** Floats *)

Definition f64_of_Z (z : Z) : spec_float := binary_normalize 53 1024 z 0 false.
Definition f64_div : spec_float → spec_float → spec_float := SFdiv 53 1024.
Definition f64_sub : spec_float → spec_float → spec_float := SFsub 53 1024.
Definition f64_mul : spec_float → spec_float → spec_float := SFmul 53 1024.
Definition f64_max (a b : spec_float) : spec_float := if SFltb a b then b else a.

(** The literal [m / 10 ^ e]: both are exact, so their quotient is the nearest double. *)
Definition f64_lit (m e : Z) : spec_float := f64_div (f64_of_Z m) (f64_of_Z (10 ^ e)).

(** ** Printing floats *)

(** The value of a finite float. *)
Definition f64_value (f : spec_float) : Q :=
  match f with
  | S754_finite neg m e => (inject_Z (if neg then Z.neg m else Z.pos m) * Qpower 2 e)%Q
  | _ => 0%Q
  end.

Definition f64_negative (f : spec_float) : bool :=
  match f with S754_zero b | S754_infinity b | S754_finite b _ _ => b | S754_nan => false end.

(** The value in units of [10 ^ -digits], to the nearest, ties to even. *)
Definition decimal_units (digits : Z) (f : spec_float) : Z := py_round (f64_value f * inject_Z (10 ^ digits)).

(** [n] units of [10 ^ -digits] with all the decimals written. *)
Definition fixed_point (digits n : Z) : string :=
  show_Z (n / 10 ^ digits) +:+
  (if (digits =? 0)%Z then ""
   else "." +:+ String.substring 1 (Z.to_nat digits) (show_Z (10 ^ digits + n mod 10 ^ digits))).

(** [f"{x:.<digits>f}"] and [f"{x:.<digits>%}"]. *)
Definition format_fixed (digits : Z) (f : spec_float) : string :=
  match f with
  | S754_nan => "nan"
  | S754_infinity b => (if b then "-" else "") +:+ "inf"
  | _ => (if f64_negative f then "-" else "") +:+ fixed_point digits (Z.abs (decimal_units digits f))
  end.
Definition format_percent (digits : Z) (f : spec_float) : string :=
  format_fixed digits (f64_mul f (f64_of_Z 100)) +:+ "%".

(** Drop trailing zeros, keeping one decimal. *)
Fixpoint trim_decimals (fuel : nat) (digits n : Z) : Z * Z :=
  match fuel with
  | S fuel => if (1 <? digits)%Z && (n mod 10 =? 0)%Z then trim_decimals fuel (digits - 1) (n / 10) else (digits, n)
  | O => (digits, n)
  end.

(** [repr(round(x, digits))] for [|x| < 10 ^ 16] and [digits <= 6]: the shortest decimal,
    in exponent form below [10 ^ -4]. *)
Definition repr_rounded (digits : Z) (f : spec_float) : string :=
  let n := Z.abs (decimal_units digits f) in
  (if f64_negative f then "-" else "") +:+
  (if (0 <? n)%Z && (n <? 10 ^ (digits - 4))%Z then
     if (n <? 10)%Z then show_Z n +:+ "e-0" +:+ show_Z digits
     else if (n mod 10 =? 0)%Z then show_Z (n / 10) +:+ "e-0" +:+ show_Z (digits - 1)
     else show_Z (n / 10) +:+ "." +:+ show_Z (n mod 10) +:+ "e-0" +:+ show_Z (digits - 1)
   else let '(d, m) := trim_decimals (Z.to_nat digits) digits n in fixed_point d m).

(** ** Declarations *)

Definition FAST_BURN_THRESHOLD : spec_float := f64_lit 144 1.

Record SLODefinition := mkSLO {
  slo_id : string;
  slo_name : string;
  slo_target : spec_float;
  slo_window_hours : Z;
  slo_runbook_id : string;
  slo_latency_threshold : option Z  (** seconds *)
}.

Definition job_completion_rate : SLODefinition :=
  mkSLO "job_completion_rate" "Job completion rate" (f64_lit 99 2) 24 "rb-slo-job-completion" None.
Definition job_dispatch_latency : SLODefinition :=
  mkSLO "job_dispatch_latency" "Job dispatch latency" (f64_lit 95 2) 24 "rb-slo-dispatch-latency" (Some 30%Z).
Definition SLOS : list SLODefinition := [job_completion_rate; job_dispatch_latency].

Definition DISPATCHED_STATUSES : list JobStatus := [RUNNING; COMPLETED; FAILED; DEAD_LETTER].
Definition LAB_FIXTURE_PAYLOAD_MARKERS : list string := ["eval_fixture"; "seeded_fixture"].

(** [SLOState]; the burn rate of an unreachable target is infinite. *)
Record SLOState := mkSLOState {
  ss_definition : SLODefinition;
  ss_total : Z;
  ss_failed : Z;
  ss_current : spec_float;
  ss_budget_remaining_pct : spec_float;
  ss_burn_rate : spec_float;
  ss_healthy : bool
}.

(** ** Measurement *)

(** [_state]. *)
Definition slo_state (slo : SLODefinition) (total failed : Z) : SLOState :=
  let one := f64_of_Z 1 in
  if (total =? 0)%Z then mkSLOState slo 0 0 one (f64_of_Z 100) (f64_of_Z 0) true
  else
    let failure_rate := f64_div (f64_of_Z failed) (f64_of_Z total) in
    let current := f64_sub one failure_rate in
    let budget_allowed := f64_sub one (slo_target slo) in
    let '(burn_rate, remaining) :=
      if SFleb budget_allowed (f64_of_Z 0) then
        if (0 <? failed)%Z then (S754_infinity false, f64_of_Z (-100)) else (f64_of_Z 0, f64_of_Z 100)
      else
        (f64_div failure_rate budget_allowed,
         f64_max (f64_of_Z (-100)) (f64_mul (f64_sub one (f64_div failure_rate budget_allowed)) (f64_of_Z 100))) in
    mkSLOState slo total failed current remaining burn_rate (SFleb (slo_target slo) current).

(** [_not_a_lab_fixture]: the payload does not carry a marker set to [true]. *)
Definition lab_fixture (j : Job) : bool :=
  existsb (λ m, match job_payload j with
                | Some d => match dget d m with Some (JBool b) => b | _ => false end
                | None => false
                end) LAB_FIXTURE_PAYLOAD_MARKERS.

Definition since (now : Z) (slo : SLODefinition) : Z := (now - slo_window_hours slo * 3600 * 1000000)%Z.

(** Settled in the window. *)
Definition settled_in_window (since : Z) (j : Job) : bool :=
  (since <=? job_created_at j)%Z && bool_decide (job_status j ∈ [COMPLETED; DEAD_LETTER]) && negb (lab_fixture j).

(** [_dispatched_in_window]. *)
Definition dispatched_in_window (since : Z) (j : Job) : bool :=
  (since <=? job_created_at j)%Z && bool_decide (job_status j ∈ DISPATCHED_STATUSES) && negb (lab_fixture j).

Definition job_rows (db : DB) : list Job := (map_to_list (db_jobs db)).*2.

(** [SELECT count, sum of a case]. *)
Definition count_and_sum (rows : list Job) (failed : Job → bool) : Z * Z :=
  (Z.of_nat (length rows), Z.of_nat (length (filter (λ j, failed j = true) rows))).

(** [_compute_completion_slo]. *)
Definition compute_completion_slo (now : Z) (slo : SLODefinition) (db : DB) : SLOState :=
  let rows := filter (λ j, settled_in_window (since now slo) j = true) (job_rows db) in
  let '(total, failed) := count_and_sum rows (λ j, bool_decide (job_status j = DEAD_LETTER)) in
  slo_state slo total failed.

(** Dispatched late, or never started. *)
Definition dispatch_miss (threshold_seconds : Z) (j : Job) : bool :=
  match job_started_at j with
  | None => true
  | Some started => (threshold_seconds * 1000000 <? started - job_created_at j)%Z
  end.

(** [_compute_latency_slo], the query. *)
Definition compute_latency_slo (now threshold_seconds : Z) (slo : SLODefinition) (db : DB) : SLOState :=
  let rows := filter (λ j, dispatched_in_window (since now slo) j = true) (job_rows db) in
  let '(total, failed) := count_and_sum rows (dispatch_miss threshold_seconds) in
  slo_state slo total failed.

(** [_compute_latency_slo_python], the scan. *)
Fixpoint latency_scan (threshold_seconds : Z) (rows : list Job) (total failed : Z) : Z * Z :=
  match rows with
  | [] => (total, failed)
  | j :: rows' =>
      let total := (total + 1)%Z in
      match job_started_at j with
      | None => latency_scan threshold_seconds rows' total (failed + 1)
      | Some started =>
          if (threshold_seconds * 1000000 <? started - job_created_at j)%Z
          then latency_scan threshold_seconds rows' total (failed + 1)
          else latency_scan threshold_seconds rows' total failed
      end
  end.

Definition compute_latency_slo_python (now threshold_seconds : Z) (slo : SLODefinition) (db : DB) : SLOState :=
  let '(total, failed) :=
    latency_scan threshold_seconds (filter (λ j, dispatched_in_window (since now slo) j = true) (job_rows db)) 0 0 in
  slo_state slo total failed.

(** [compute_all]. *)
Definition compute_slo (now : Z) (db : DB) (slo : SLODefinition) : SLOState :=
  match slo_latency_threshold slo with
  | Some threshold => compute_latency_slo now threshold slo db
  | None => compute_completion_slo now slo db
  end.
Definition compute_all (now : Z) (db : DB) : list SLOState := compute_slo now db <$> SLOS.

(** ** Scheduled evaluation *)

(** [is_fast_burning]. *)
Definition is_fast_burning (s : SLOState) : bool := SFleb FAST_BURN_THRESHOLD (ss_burn_rate s).

(** [_fast_burn_dedup_key]: one key per objective and window. *)
Definition burn_bucket (window_seconds : Q) (now : Z) : Z := Qfloor (total_seconds now / window_seconds).
Definition fast_burn_dedup_key (id : string) (window_seconds : Q) (now : Z) : string :=
  "slo:" +:+ id +:+ ":fast_burn:" +:+ show_Z (burn_bucket window_seconds now).

(** [_alert_description]; the multiplication sign is two bytes of UTF-8. *)
Definition times_sign : string :=
  String (Ascii.ascii_of_nat 195) (String (Ascii.ascii_of_nat 151) "").
Definition alert_description (st : SLOState) : string :=
  let d := ss_definition st in
  slo_name d +:+ " is burning error budget at " +:+ format_fixed 1 (ss_burn_rate st) +:+ times_sign +:+
  " the sustainable rate (" +:+ show_Z (ss_failed st) +:+ " failed of " +:+ show_Z (ss_total st) +:+
  " in the last " +:+ show_Z (slo_window_hours d) +:+ "h, " +:+ format_percent 1 (ss_current st) +:+
  " against a " +:+ format_percent 0 (slo_target d) +:+ " target). Budget remaining: " +:+
  format_fixed 0 (ss_budget_remaining_pct st) +:+ "%. Runbook: " +:+ slo_runbook_id d +:+ ".".

(** The [extra_data] of the alert. *)
Definition alert_details (st : SLOState) : dict :=
  let d := ss_definition st in
  [("slo_id", JStr (slo_id d)); ("runbook_id", JStr (slo_runbook_id d));
   ("burn_rate", match ss_burn_rate st with
                 | S754_infinity false => JNull
                 | r => JFloat (repr_rounded 3 r)
                 end);
   ("threshold", JFloat (repr_rounded 6 FAST_BURN_THRESHOLD)); ("target", JFloat (repr_rounded 6 (slo_target d)));
   ("current", JFloat (repr_rounded 6 (ss_current st)));
   ("budget_remaining_pct", JFloat (repr_rounded 2 (ss_budget_remaining_pct st)));
   ("window_hours", JInt (slo_window_hours d)); ("total", JInt (ss_total st)); ("failed", JInt (ss_failed st))].

Section Evaluation.
Context `{UuidSource}.

(** [_raise_fast_burn_alert]: a conflict on the key means the window has its alert. *)
Definition raise_fast_burn_alert (webhook : bool) (now : Z) (request_id : option string) (window_seconds : Q)
    (st : SLOState) (s : AlertStore) : result exn (option uuid) * AlertStore :=
  let slo := ss_definition st in
  match create_alert now DEFAULT_TENANT_ID SEVERITY_CRITICAL ("slo:" +:+ slo_id slo) ("SLO fast burn: " +:+ slo_name slo)
          (Some (alert_description st)) (Some (alert_details st)) request_id
          (Some (fast_burn_dedup_key (slo_id slo) window_seconds now)) s with
  | Err IntegrityError => (Ok None, s)
  | Err e => (Err e, s)
  | Ok (a, s) => (Ok (Some (al_id a)), deliver_webhook webhook (webhook_payload a) s)
  end.

(** [run_evaluation] on the states it computed. *)
Fixpoint raise_burning (webhook : bool) (now : Z) (request_id : option string) (window_seconds : Q)
    (states : list SLOState) (s : AlertStore) : result exn (list uuid) * AlertStore :=
  match states with
  | [] => (Ok [], s)
  | st :: states' =>
      if negb (is_fast_burning st) then raise_burning webhook now request_id window_seconds states' s
      else
        match raise_fast_burn_alert webhook now request_id window_seconds st s with
        | (Err e, s) => (Err e, s)
        | (Ok raised, s) =>
            match raise_burning webhook now request_id window_seconds states' s with
            | (Err e, s) => (Err e, s)
            | (Ok ids, s) => (Ok (option_list raised ++ ids), s)
            end
        end
  end.

Definition run_evaluation (webhook : bool) (now : Z) (request_id : option string) (window_seconds : Q) (db : DB)
    (s : AlertStore) : result exn (list uuid) * AlertStore :=
  raise_burning webhook now request_id window_seconds (compute_all now db) s.
End Evaluation.
