(* ===== verification/SloProps.v ===== *)
(** * Properties of the objectives

    What counts and what does not, the query and the scan agree, when an objective pages,
    and how often. *)
From stdpp Require Import base tactics numbers option list gmap strings.
From Stdlib Require Import QArith Qround SpecFloat Lia.
From S2P Require Import Prelude PyData Codec Models Database Redis ConsumerLag Alerts Slo Fixtures.

(** ** The query and the scan *)

Lemma latency_scan_counts threshold rows total failed :
  latency_scan threshold rows total failed =
  ((total + (count_and_sum rows (dispatch_miss threshold)).1)%Z,
   (failed + (count_and_sum rows (dispatch_miss threshold)).2)%Z).
Proof.
  revert total failed. induction rows as [|j rows IH]; intros total failed.
  { cbn. f_equal; lia. }
  assert (Hstep : latency_scan threshold (j :: rows) total failed =
                  latency_scan threshold rows (total + 1) (if dispatch_miss threshold j then failed + 1 else failed)).
  { cbn [latency_scan]. unfold dispatch_miss. by destruct (job_started_at j); [destruct (_ <? _)%Z|]. }
  rewrite Hstep, IH. unfold count_and_sum. cbn [fst snd length]. rewrite filter_cons.
  destruct (dispatch_miss threshold j) eqn:E; [rewrite decide_True by done|rewrite decide_False by done];
    cbn [length]; f_equal; lia.
Qed.

(** The portable scan and the query compute the same state. *)
Theorem latency_scan_equals_query now threshold slo db :
  compute_latency_slo_python now threshold slo db = compute_latency_slo now threshold slo db.
Proof.
  unfold compute_latency_slo_python, compute_latency_slo. rewrite latency_scan_counts.
  destruct (count_and_sum _ _) as [total failed]. cbn [fst snd]. by rewrite !Z.add_0_l.
Qed.

(** ** What counts *)

(** A row that is in neither half of any fraction. *)
Definition uncounted (j : Job) : Prop :=
  lab_fixture j = true ∨ job_status j = CANCELLED ∨ job_status j = WAITING ∨ job_status j = PENDING.

Lemma uncounted_settled t j : uncounted j → settled_in_window t j = false.
Proof.
  unfold settled_in_window. intros [->|[->|[->| ->]]]; cbn; rewrite ?andb_false_r; done.
Qed.
Lemma uncounted_dispatched t j : uncounted j → dispatched_in_window t j = false.
Proof.
  unfold dispatched_in_window. intros [->|[->|[->| ->]]]; cbn; rewrite ?andb_false_r; done.
Qed.

Lemma count_and_sum_perm rows rows' f : rows ≡ₚ rows' → count_and_sum rows f = count_and_sum rows' f.
Proof. intros E. unfold count_and_sum. by rewrite E. Qed.

Lemma rows_insert db j :
  db_jobs db !! job_id j = None → job_rows (with_jobs (<[job_id j := j]> (db_jobs db)) db) ≡ₚ j :: job_rows db.
Proof. intros Hn. unfold job_rows. cbn. by rewrite map_to_list_insert. Qed.

Lemma filter_skip (P : Job → bool) j rows rows' :
  rows ≡ₚ j :: rows' → P j = false → filter (λ j, P j = true) rows ≡ₚ filter (λ j, P j = true) rows'.
Proof. intros E Hj. rewrite E, filter_cons, decide_False by congruence. done. Qed.

(** Cancelled, waiting and pending jobs and declared lab rows move no objective. *)
Theorem uncounted_rows_move_nothing now db j :
  db_jobs db !! job_id j = None → uncounted j →
  compute_all now (with_jobs (<[job_id j := j]> (db_jobs db)) db) = compute_all now db.
Proof.
  intros Hn Hu. unfold compute_all. apply list_fmap_ext. intros k slo _. unfold compute_slo.
  pose proof (rows_insert db j Hn) as Hp. destruct (slo_latency_threshold slo) as [threshold|].
  - unfold compute_latency_slo.
    rewrite (count_and_sum_perm _ (filter (λ j, dispatched_in_window (since now slo) j = true) (job_rows db))); [done|].
    apply (filter_skip (dispatched_in_window (since now slo)) j); [done|by apply uncounted_dispatched].
  - unfold compute_completion_slo.
    rewrite (count_and_sum_perm _ (filter (λ j, settled_in_window (since now slo) j = true) (job_rows db))); [done|].
    apply (filter_skip (settled_in_window (since now slo)) j); [done|by apply uncounted_settled].
Qed.

(** ** When an objective pages *)

Definition all_pairs (n : nat) (f : nat → nat → bool) : bool :=
  forallb (λ total, forallb (f total) (seq 0 (S total))) (seq 0 (S n)).

Lemma all_pairs_at n f total failed : all_pairs n f = true → (failed ≤ total ≤ n)%nat → f total failed = true.
Proof.
  unfold all_pairs. intros Hall Hle.
  pose proof (proj1 (forallb_forall _ _) Hall total ltac:(apply in_seq; lia)) as H.
  exact (proj1 (forallb_forall _ _) H failed ltac:(apply in_seq; lia)).
Qed.

(** Does the float verdict agree with "the failure rate is above [num / den]"? *)
Definition pages_above (slo : SLODefinition) (num den : Z) (total failed : nat) : bool :=
  Bool.eqb (is_fast_burning (slo_state slo (Z.of_nat total) (Z.of_nat failed)))
           (num * Z.of_nat total <? den * Z.of_nat failed)%Z.

Lemma completion_checked : all_pairs 40 (pages_above job_completion_rate 144 1000) = true.
Proof. vm_compute. reflexivity. Qed.
Lemma latency_checked : all_pairs 40 (pages_above job_dispatch_latency 72 100) = true.
Proof. vm_compute. reflexivity. Qed.


(** ** How often *)

Section Once.
Context `{UuidSource} (webhook : bool) (window_seconds : Q).

Definition keyed (k : string) (s : AlertStore) : list Alert :=
  filter (λ a, al_tenant_id a = DEFAULT_TENANT_ID ∧ al_dedup_key a = Some k) (as_alerts s).

Definition keys_unique (s : AlertStore) : Prop := ∀ k, (length (keyed k s) ≤ 1)%nat.

Let raise now rid := raise_fast_burn_alert webhook now rid window_seconds.

(** A raise leaves the objective's window with its one alert and touches no other key. *)
Lemma raise_keyed now rid st s :
  keys_unique s → let k := fast_burn_dedup_key (slo_id (ss_definition st)) window_seconds now in
  is_ok (raise now rid st s).1 = true ∧ keys_unique (raise now rid st s).2 ∧
  ∀ k', length (keyed k' (raise now rid st s).2) = if decide (k' = k) then 1%nat else length (keyed k' s).
Proof.
  intros Hu k. unfold raise, raise_fast_burn_alert, create_alert.
  change (bool_decide (SEVERITY_CRITICAL ∈ ALLOWED_SEVERITIES)) with true. cbn [negb].
  rewrite (bool_decide_false ("SLO fast burn: " +:+ _ = "")) by discriminate. unfold insert_alert. cbn [al_dedup_key al_tenant_id as_alerts].
  fold k. case_bool_decide as Hx; cbn [fst snd].
  - split; [done|]. split; [done|]. intros k'. destruct (decide (k' = k)) as [->|]; [|done].
    destruct Hx as [_ Hex]. apply Exists_exists in Hex as (b & Hb & Hbt & Hbk).
    assert (Hin : b ∈ keyed k s) by (by apply list_elem_of_filter). specialize (Hu k).
    assert (Hlen : length (keyed k s) ≠ 0%nat) by (destruct (keyed k s); [by apply elem_of_nil in Hin|done]).
    apply Nat.le_antisymm; [exact Hu|by apply Nat.neq_0_lt_0].
  - cbn [mbind result_mbind fst snd].
    set (a := mkAlert _ _ _ _ _ _ _ _ _ _ _).
    match goal with |- context [deliver_webhook webhook ?p ?st'] => set (s' := deliver_webhook webhook p st') end.
    assert (Ha : as_alerts s' = as_alerts s ++ [a]) by (unfold s'; by destruct webhook).
    assert (Hk : ∀ k', length (keyed k' s') = if decide (k' = k) then 1%nat else length (keyed k' s)).
    { intros k'. unfold keyed. rewrite Ha, filter_app, filter_cons. destruct (decide (k' = k)) as [->|Hne].
      - rewrite decide_True by done. rewrite length_app. cbn.
        destruct (filter _ (as_alerts s)) as [|b l] eqn:E; [done|]. exfalso. apply Hx. split; [eauto|].
        assert (Hb : b ∈ b :: l) by left. rewrite <- E in Hb. apply list_elem_of_filter in Hb as [[Hbt Hbk] Hb].
        apply Exists_exists. by exists b.
      - rewrite decide_False by (intros [_ [= E]]; by destruct Hne). by rewrite filter_nil, app_nil_r. }
    split; [done|]. split; [|done]. intros k'. rewrite Hk. case_decide; [done|apply Hu].
Qed.

Let key_of now st := fast_burn_dedup_key (slo_id (ss_definition st)) window_seconds now.

Lemma raise_burning_keyed now rid states s :
  keys_unique s →
  let r := raise_burning webhook now rid window_seconds states s in
  is_ok r.1 = true ∧ keys_unique r.2 ∧
  ∀ k, length (keyed k r.2) =
    if decide (Exists (λ st, is_fast_burning st = true ∧ k = key_of now st) states) then 1%nat else length (keyed k s).
Proof.
  revert s. induction states as [|st states IH]; intros s Hu; cbn [raise_burning].
  { split; [done|]. split; [done|]. intros k. rewrite decide_False; [done|]. by intros ?%Exists_nil. }
  destruct (is_fast_burning st) eqn:Eb; cbn [negb].
  - destruct (raise_keyed now rid st s Hu) as (H1 & Hu1 & Hk1). unfold raise in *.
    destruct (raise_fast_burn_alert _ _ _ _ st s) as [[raised|e] s1]; [|done]. cbn [fst snd] in *.
    destruct (IH s1 Hu1) as (H2 & Hu2 & Hk2). destruct (raise_burning _ _ _ _ states s1) as [[ids|e] s2]; [|done].
    cbn [fst snd] in *. split; [done|]. split; [done|]. intros k. rewrite Hk2.
    destruct (decide (Exists _ states)) as [Hex|Hex]; [by rewrite decide_True by (by apply Exists_cons; right)|].
    rewrite Hk1. unfold key_of. destruct (decide (k = _)) as [->|Hne].
    + by rewrite decide_True by (by apply Exists_cons; left).
    + rewrite decide_False; [done|]. intros [[_ ?]|?]%Exists_cons; done.
  - destruct (IH s Hu) as (H2 & Hu2 & Hk2). split; [done|]. split; [done|]. intros k. rewrite Hk2.
    destruct (decide (Exists _ states)) as [Hex|Hex]; [by rewrite decide_True by (by apply Exists_cons; right)|].
    rewrite decide_False; [done|]. intros [[? _]|?]%Exists_cons; congruence.
Qed.

(** Evaluations by any number of replicas: when, and on which tables. *)
Definition evaluations (es : list (Z * DB)) (s : AlertStore) : AlertStore :=
  foldl (λ s e, (run_evaluation webhook e.1 None window_seconds e.2 s).2) s es.

(** Some evaluation in the window saw this objective burn. *)
Definition burned (k : string) (es : list (Z * DB)) : Prop :=
  Exists (λ e, Exists (λ st, is_fast_burning st = true ∧ k = key_of e.1 st) (compute_all e.1 e.2)) es.

#[local] Instance burned_dec k es : Decision (burned k es).
Proof. unfold burned. apply _. Defined.

(** However many evaluations run, each objective has exactly one alert for each window
    in which some evaluation saw it burn, and none for the others. *)
Theorem one_alert_per_window es slo now :
  let k := fast_burn_dedup_key (slo_id slo) window_seconds now in
  length (keyed k (evaluations es (mkStore [] [] 0 []))) = if decide (burned k es) then 1%nat else 0%nat.
Proof.
  intros k. assert (Hgen : ∀ s, keys_unique s →
    length (keyed k (evaluations es s)) = if decide (burned k es) then 1%nat else length (keyed k s)).
  { induction es as [|e es IH]; intros s Hu.
    { rewrite decide_False; [done|]. unfold burned. by intros ?%Exists_nil. }
    change (evaluations (e :: es) s) with
      (evaluations es (run_evaluation webhook e.1 None window_seconds e.2 s).2).
    destruct (raise_burning_keyed e.1 None (compute_all e.1 e.2) s Hu) as (_ & Hu1 & Hk1). fold key_of in Hk1.
    unfold run_evaluation. rewrite (IH _ Hu1).
    destruct (decide (burned k es)) as [Hb|Hb]; [by rewrite decide_True by (by apply Exists_cons; right)|].
    rewrite Hk1. destruct (decide (Exists _ (compute_all e.1 e.2))) as [He|He].
    - by rewrite decide_True by (by apply Exists_cons; left).
    - rewrite decide_False; [done|]. intros [?|?]%Exists_cons; done. }
  rewrite Hgen; [done|]. intros k'. cbn. lia.
Qed.
End Once.

Module SloExample.
Import Fixtures.


(** A cancelled job beside a dead one. *)
Lemma uncounted_rows_move_nothing_witness :
  let db := db_of [row 1 DEAD_LETTER] [] in
  compute_all 1000000 (with_jobs (<[job_id (row 2 CANCELLED) := row 2 CANCELLED]> (db_jobs db)) db) =
  compute_all 1000000 db ∧ ss_failed <$> compute_all 1000000 db = [1%Z; 1%Z].
Proof.
  split; [|vm_compute; reflexivity].
  apply uncounted_rows_move_nothing; [vm_compute; reflexivity|right; left; reflexivity].
Defined.
End SloExample.
