(* ===== verification/ControlLoops.v ===== *)
(** * The background loops (workers/control_loop_pause.py, core/loop_heartbeat.py,
      core/outbox_heartbeat.py, the loops of workers/dispatcher.py)

    Each loop reads its pause flag, does one pass and stamps the time of the pass it
    completed.  A turn here is one iteration of the body of one loop; the tool
    [get_control_loops] reads the flags and the stamps. *)
From stdpp Require Import base tactics numbers option list gmap strings.
From Stdlib Require Import QArith Qround Qminmax.
From S2P Require Import Prelude PyData Codec Models Database Redis Queue DagPause World Dispatcher Sweeps OutboxRelay Idempotency Supervision ConsumerLag Alerts Slo.

(** ** The closed set of loops *)

Inductive ControlLoopName : Type :=
  | OUTBOX_RELAY | DELAYED_RETRY_PROMOTE | DLQ_REPLAY_PROMOTE | RESUME_UNBLOCKED_WAITING
  | STALE_PENDING_BACKSTOP | STALE_RUNNING_SWEEP | LEASE_RENEWAL | SLO_EVALUATION | METRICS
  | DIGEST | IDEMPOTENCY_REAPER.

#[export] Instance ControlLoopName_eq_dec : EqDecision ControlLoopName.
Proof. solve_decision. Defined.

Definition loop_value (n : ControlLoopName) : string :=
  match n with
  | OUTBOX_RELAY => "outbox_relay"
  | DELAYED_RETRY_PROMOTE => "delayed_retry_promote"
  | DLQ_REPLAY_PROMOTE => "dlq_replay_promote"
  | RESUME_UNBLOCKED_WAITING => "resume_unblocked_waiting"
  | STALE_PENDING_BACKSTOP => "stale_pending_backstop"
  | STALE_RUNNING_SWEEP => "stale_running_sweep"
  | LEASE_RENEWAL => "lease_renewal"
  | SLO_EVALUATION => "slo_evaluation"
  | METRICS => "metrics"
  | DIGEST => "digest"
  | IDEMPOTENCY_REAPER => "idempotency_reaper"
  end.

(** The enumeration order. *)
Definition all_loops : list ControlLoopName :=
  [OUTBOX_RELAY; DELAYED_RETRY_PROMOTE; DLQ_REPLAY_PROMOTE; RESUME_UNBLOCKED_WAITING; STALE_PENDING_BACKSTOP;
   STALE_RUNNING_SWEEP; LEASE_RENEWAL; SLO_EVALUATION; METRICS; DIGEST; IDEMPOTENCY_REAPER].

(** The settings the loops read each pass. *)
Record LoopSettings := mkLoopSettings {
  llm_digest_interval_hours : Z;
  slo_evaluation_interval_seconds : Q;
  slo_alert_dedup_window_seconds : Q;
  metrics_loop_interval_seconds : Q;
  alert_rules_enabled : bool;
  consumer_lag_alert_threshold : Z;
  dlq_depth_alert_threshold : Z;
  alert_webhook : bool  (** a webhook url and secret are set *)
}.

Definition TICK_INTERVAL_SECONDS (n : ControlLoopName) : option Q :=
  match n with
  | OUTBOX_RELAY => Some 1
  | DELAYED_RETRY_PROMOTE | DLQ_REPLAY_PROMOTE => Some (1 # 2)
  | RESUME_UNBLOCKED_WAITING => Some (inject_Z 10)
  | STALE_PENDING_BACKSTOP | STALE_RUNNING_SWEEP => Some (inject_Z 60)
  | LEASE_RENEWAL => Some (inject_Z 20)
  | SLO_EVALUATION | METRICS | DIGEST => None
  | IDEMPOTENCY_REAPER => Some (inject_Z 3600)
  end%Q.

(** [tick_interval_seconds]. *)
Definition tick_interval_seconds (ls : LoopSettings) (n : ControlLoopName) : option Q :=
  match TICK_INTERVAL_SECONDS n with
  | Some mirrored => Some mirrored
  | None =>
      match n with
      | DIGEST => Some (inject_Z (Z.max 60 (llm_digest_interval_hours ls * 3600)))
      | SLO_EVALUATION =>
          let interval := slo_evaluation_interval_seconds ls in
          if Qle_bool interval 0 then None else Some interval
      | METRICS => Some (metrics_interval_seconds (metrics_loop_interval_seconds ls))
      | _ => None
      end
  end.

(** ** The flag *)

Definition loop_pause_key (n : ControlLoopName) : string := "chaos:pause:" +:+ loop_value n.

(** [pause_control_loop]: the tool that sets it. *)
Definition pause_control_loop (t : Q) (n : ControlLoopName) (ttl_seconds : Z) (r : Redis) : Redis :=
  r_set t (loop_pause_key n) (RStr "paused") (Some (inject_Z ttl_seconds)) r.

(** [loop_is_paused]: the loop's half fails open. *)
Definition loop_is_paused (chaos_enabled : bool) (o : reach) (t : Q) (n : ControlLoopName) (r : Redis) : bool :=
  if negb chaos_enabled then false
  else match (redis_cmd o (λ r, v ← r_get t (loop_pause_key n) r; Ok (v, r)) r).1 with
       | Ok (Some _) => true
       | _ => false
       end.

(** [TTL k]: -2 when absent, -1 without expiry, else the seconds left, rounded. *)
Definition r_ttl (t : Q) (k : string) (r : Redis) : Z :=
  match live t r k with
  | None => -2
  | Some e => match e_exp e with None => -1 | Some x => Qfloor (x - t + (1 # 2))%Q end
  end.

(** [loop_pause_state]: the reader's half raises. *)
Definition loop_pause_state (chaos_enabled : bool) (o : reach) (t : Q) (n : ControlLoopName) (r : Redis)
    : result exn (bool * option Z) :=
  if negb chaos_enabled then Ok (false, None)
  else
    ttl ← (redis_cmd o (λ r, Ok (r_ttl t (loop_pause_key n) r, r)) r).1;
    Ok (if (ttl =? -2)%Z then (false, None) else if (ttl =? -1)%Z then (true, None) else (true, Some ttl)).

(** ** The stamp *)

Definition RELAY_TICK_KEY : string := "outbox:relay:last_tick".
Definition RELAY_TICK_TTL_SECONDS : Q := inject_Z 86400.
Definition LOOP_RUN_KEY_PREFIX : string := "worker:loop:".
Definition LOOP_RUN_KEY_SUFFIX : string := ":last_run".
Definition LOOP_RUN_TTL_SECONDS : Q := inject_Z (3 * 86400).

(** [loop_run_key]: the relay's record is its own stamp. *)
Definition loop_run_key (n : ControlLoopName) : string :=
  match n with
  | OUTBOX_RELAY => RELAY_TICK_KEY
  | _ => LOOP_RUN_KEY_PREFIX +:+ loop_value n +:+ LOOP_RUN_KEY_SUFFIX
  end.

(** The write of a stamp; a failure is logged. *)
Definition stamp (o : reach) (t : Q) (now : Z) (key : string) (ttl : Q) (r : Redis) : Redis :=
  (redis_cmd o (λ r, Ok (tt, r_set t key (RStr (isoformat now)) (Some ttl) r)) r).2.

(** [record_loop_run] and [record_relay_tick]. *)
Definition record_loop_run (o : reach) (t : Q) (now : Z) (n : ControlLoopName) : Redis → Redis :=
  stamp o t now (loop_run_key n) LOOP_RUN_TTL_SECONDS.
Definition record_relay_tick (o : reach) (t : Q) (now : Z) : Redis → Redis :=
  stamp o t now RELAY_TICK_KEY RELAY_TICK_TTL_SECONDS.

Section Reading.
Context `{PyCodec}.

(** [read_loop_run]. *)
Definition read_loop_run (o : reach) (t : Q) (n : ControlLoopName) (r : Redis) : result exn (option Z) :=
  raw ← (redis_cmd o (λ r, v ← r_get t (loop_run_key n) r; Ok (v, r)) r).1;
  Ok (match raw with Some (RStr s) => fromisoformat s | _ => None end).

Inductive tick_unknown : Type :=
  | TICK_UNKNOWN_NO_RECORD | TICK_UNKNOWN_UNREADABLE | TICK_UNKNOWN_UNREACHABLE.

(** [read_relay_tick]. *)
Definition read_relay_tick (o : reach) (t : Q) (r : Redis) : option Z * option tick_unknown :=
  match (redis_cmd o (λ r, v ← r_get t RELAY_TICK_KEY r; Ok (v, r)) r).1 with
  | Err _ => (None, Some TICK_UNKNOWN_UNREACHABLE)
  | Ok None => (None, Some TICK_UNKNOWN_NO_RECORD)
  | Ok (Some (RStr s)) =>
      match fromisoformat s with Some at_ => (Some at_, None) | None => (None, Some TICK_UNKNOWN_UNREADABLE) end
  | Ok (Some _) => (None, Some TICK_UNKNOWN_UNREADABLE)
  end.

(** ** [get_control_loops] *)

Record ControlLoopState := mkLoopState {
  cl_name : ControlLoopName;
  cl_paused : option bool;
  cl_paused_expires_in : option Z;
  cl_tick_interval : option Q;
  cl_last_run_at : option Z;
  cl_last_run_age : option Z  (** tenths of a second *)
}.

(** [_age_seconds]: the float rounded to a tenth, clamped at zero. *)
Definition age_tenths (measured_at : Z) (at_ : option Z) : option Z :=
  (λ a, decimal_units 1 (f64_div (f64_of_Z (Z.max 0 (measured_at - a))) (f64_of_Z 1000000))) <$> at_.

(** [_state] of one loop. *)
Definition control_loop_state (ls : LoopSettings) (chaos_enabled : bool) (o : reach * reach) (t : Q) (measured_at : Z)
    (r : Redis) (n : ControlLoopName) : result exn ControlLoopState :=
  '(paused, expires) ← loop_pause_state chaos_enabled o.1 t n r;
  last_run ← read_loop_run o.2 t n r;
  Ok (mkLoopState n (Some paused) expires (tick_interval_seconds ls n) last_run (age_tenths measured_at last_run)).

(** All the loops, or all of them unknown; [true] marks a reading that is known. *)
Definition get_control_loops (ls : LoopSettings) (chaos_enabled : bool) (o : ControlLoopName → reach * reach) (t : Q)
    (measured_at : Z) (r : Redis) : bool * list ControlLoopState :=
  match mapM (λ n, control_loop_state ls chaos_enabled (o n) t measured_at r n) all_loops with
  | Ok states => (true, states)
  | Err _ => (false, (λ n, mkLoopState n None None (tick_interval_seconds ls n) None None) <$> all_loops)
  end.
End Reading.

(** ** The turns *)

(** What the loops share and keep: the stores, the resume sweep's cursor, the worker's
    liveness record. *)
Record Platform := mkPlatform {
  pf_world : World;
  pf_cursor : option (Z * uuid);
  pf_alerts : AlertStore;
  pf_idem : IdemStore;
  pf_sup : Worker.Supervisor
}.

Definition on_world (f : World → World) (p : Platform) : Platform :=
  mkPlatform (f (pf_world p)) (pf_cursor p) (pf_alerts p) (pf_idem p) (pf_sup p).
Definition with_cursor (c : option (Z * uuid)) (p : Platform) : Platform :=
  mkPlatform (pf_world p) c (pf_alerts p) (pf_idem p) (pf_sup p).
Definition with_alerts (s : AlertStore) (p : Platform) : Platform :=
  mkPlatform (pf_world p) (pf_cursor p) s (pf_idem p) (pf_sup p).
Definition with_idem (s : IdemStore) (p : Platform) : Platform :=
  mkPlatform (pf_world p) (pf_cursor p) (pf_alerts p) s (pf_sup p).
Definition with_sup (s : Worker.Supervisor) (p : Platform) : Platform :=
  mkPlatform (pf_world p) (pf_cursor p) (pf_alerts p) (pf_idem p) s.
Definition on_redis (f : Redis → Redis) : Platform → Platform := on_world (λ w, with_redis (f (w_redis w)) w).
Definition on_db (f : DB → DB) : Platform → Platform := on_world (λ w, with_db (f (w_db w)) w).
Definition pf_redis (p : Platform) : Redis := w_redis (pf_world p).
Definition pf_db (p : Platform) : DB := w_db (pf_world p).

Definition PassM : Type := Platform → result exn unit * Platform.

(** A pass that is one database transaction. *)
Definition tx_pass (tx : tx_outcome) (f : Platform → Platform) : PassM := λ p,
  match tx with
  | TxCommits => (Ok tt, f p)
  | TxRollsBack => (Err ServiceError, p)
  | TxCommitsThenRaises => (Err ServiceError, f p)
  end.

Definition world_pass (f : World → result exn unit * World) : PassM := λ p,
  let '(o, w) := f (pf_world p) in (o, on_world (λ _, w) p).

(** How the flag is read and the stamp written: reach and clocks. *)
Record TurnEnv := mkTurnEnv {
  te_check : reach;
  te_check_time : Q;
  te_stamp : reach;
  te_stamp_time : Q;
  te_stamp_now : Z
}.

(** What one metrics pass meets. *)
Record MetricsEnv := mkMetricsEnv {
  me_time : Q;
  me_now : Z;
  me_length : reach;  (** the length of the delayed set *)
  me_lag : option Z;  (** [consumer.consumer_lag()] *)
  me_resolver_lag : option Z;
  me_value : reach;  (** the value key *)
  me_sample : reach;  (** the window *)
  me_resolver : reach * reach;
  me_polled : option Z;  (** [consumer.last_poll_at] *)
  me_resolver_polled : option Z;
  me_polls : reach * reach;
  me_rules : RuleEnv;
  me_rules_redis : bool  (** Redis answers the rules *)
}.

Section Turns.
Context `{PyCodec, SqlOrder, UuidSource} (cfg : Settings) (ls : LoopSettings).

(** A write to Redis whose failure is logged. *)
Definition best_effort (o : reach) (f : Redis → result exn Redis) (r : Redis) : Redis :=
  (redis_cmd o (λ r, r' ← f r; Ok (tt, r')) r).2.

(** [_record_group_lag]: the window only after the value. *)
Definition record_group_lag_at (o : reach * reach) (t : Q) (now : Z) (group : string) (lag : Z) (r : Redis) : Redis :=
  let ttl := inject_Z (lag_value_ttl_seconds (metrics_loop_interval_seconds ls)) in
  match redis_cmd o.1 (λ r, Ok (tt, r_set t (lag_key group) (RInt lag) (Some ttl) r)) r with
  | (Err _, r) => r
  | (Ok _, r) => best_effort o.2 (record_lag_sample t now group lag) r
  end.

(** [_publish_last_poll]. *)
Definition publish_last_poll (o : reach) (t : Q) (now : Z) (group : string) (polled_at : option Z) (r : Redis) : Redis :=
  match polled_at with
  | None => r
  | Some at_ =>
      best_effort o (λ r, Ok (record_last_poll (metrics_loop_interval_seconds ls) t group at_ now r)) r
  end.

(** [_metrics_loop] after its pause check; the gauges go to another system. *)
Definition metrics_pass (e : MetricsEnv) : PassM := λ p,
  let t := me_time e in
  match (redis_cmd (me_length e) (λ r, n ← delayed_length t r; Ok (n, r)) (pf_redis p)).1 with
  | Err x => (Err x, p)
  | Ok _ =>
      let measured :=
        match me_lag e with
        | None => (Ok tt, p)
        | Some lag =>
            let ttl := inject_Z (lag_value_ttl_seconds (metrics_loop_interval_seconds ls)) in
            match redis_cmd (me_value e) (λ r, Ok (tt, r_set t (lag_key LIVE_REFRESHED_GROUP) (RInt lag) (Some ttl) r)) (pf_redis p) with
            | (Err x, r) => (Err x, on_redis (λ _, r) p)
            | (Ok _, r) =>
                (Ok tt, on_redis (λ _, best_effort (me_sample e) (record_lag_sample t (me_now e) LIVE_REFRESHED_GROUP lag) r) p)
            end
        end in
      match measured with
      | (Err x, p) => (Err x, p)
      | (Ok _, p) =>
          let p := match me_resolver_lag e with
                   | Some lag => on_redis (record_group_lag_at (me_resolver e) t (me_now e) DEPENDENCY_RESOLVER_GROUP lag) p
                   | None => p
                   end in
          let p := on_redis (publish_last_poll (me_polls e).1 t (me_now e) LIVE_REFRESHED_GROUP (me_polled e)) p in
          let p := on_redis (publish_last_poll (me_polls e).2 t (me_now e) DEPENDENCY_RESOLVER_GROUP (me_resolver_polled e)) p in
          (Ok tt, with_alerts (evaluate_alert_rules (alert_rules_enabled ls) (consumer_lag_alert_threshold ls)
                    (dlq_depth_alert_threshold ls) (me_rules e) t (redis_view (me_rules_redis e) (pf_world p))
                    (pf_db p) (pf_alerts p)).2 p)
      end
  end.

(** The body of one loop. *)
Inductive loop_turn : Type :=
  | PromoteDelayed (tick : Q) (t : Q) (pop_ok : bool) (env : string → ItemEnv)
  | PromoteReplays (t : Q) (claim_ok : bool) (env : uuid → ReplayEnv)
  | ResumeWaiting (now : Z) (t : Q) (lookup_ok : uuid → bool) (tx : tx_outcome)
  | RequeueStale (now : Z) (t : Q) (redis_ok : bool) (tx : tx_outcome)
  | SweepRunning (scan_ok : bool) (now_scan now : Z) (in_flight : gset string) (env : uuid → (DB → DB) * tx_outcome)
  | RenewLeases (now : Z) (in_flight : gset string) (tx : tx_outcome)
  | RelayTurn (leader fetch_ok : bool) (now : Z) (producer : OutboxEvent → publish_outcome) (others : DB → DB) (marked : bool)
  | EvaluateSlos (read_ok : bool) (now : Z) (request_id : option string)
  | MeasureLag (e : MetricsEnv)
  | DigestOff  (** the digest with its feature off, its default *)
  | ReapIdempotency (now : Z) (tx : tx_outcome).

Definition turn_name (b : loop_turn) : ControlLoopName :=
  match b with
  | PromoteDelayed _ _ _ _ => DELAYED_RETRY_PROMOTE
  | PromoteReplays _ _ _ => DLQ_REPLAY_PROMOTE
  | ResumeWaiting _ _ _ _ => RESUME_UNBLOCKED_WAITING
  | RequeueStale _ _ _ _ => STALE_PENDING_BACKSTOP
  | SweepRunning _ _ _ _ _ => STALE_RUNNING_SWEEP
  | RenewLeases _ _ _ => LEASE_RENEWAL
  | RelayTurn _ _ _ _ _ _ => OUTBOX_RELAY
  | EvaluateSlos _ _ _ => SLO_EVALUATION
  | MeasureLag _ => METRICS
  | DigestOff => DIGEST
  | ReapIdempotency _ _ => IDEMPOTENCY_REAPER
  end.

(** ** The work of each loop, between its pause check and its stamp *)

Definition threshold : Z := stale_running_threshold_seconds cfg.

(** [_promote_delayed_loop], [_promote_dlq_replay_loop]. *)
Definition promote_delayed_pass (t : Q) (pop_ok : bool) (env : string → ItemEnv) : PassM :=
  world_pass (promote_delayed_once cfg t pop_ok env).
Definition promote_dlq_replay_pass (t : Q) (claim_ok : bool) (env : uuid → ReplayEnv) : PassM :=
  world_pass (promote_dlq_replay_once cfg t claim_ok env).

(** [_resume_unblocked_waiting_loop]: a failure resets the cursor. *)
Definition resume_waiting_pass (now : Z) (t : Q) (lookup_ok : uuid → bool) (tx : tx_outcome) : PassM := λ p,
  let pass p :=
    let '(cursor, db) := resume_unblocked_waiting_once cfg now t
                           (λ i, redis_view (lookup_ok i) (pf_world p)) (pf_cursor p) (pf_db p) in
    with_cursor cursor (on_db (λ _, db) p) in
  let '(o, p) := tx_pass tx pass p in
  (o, match o with Ok _ => p | Err _ => with_cursor None p end).

(** [_requeue_stale_pending_loop]. *)
Definition requeue_stale_pass (now : Z) (t : Q) (redis_ok : bool) (tx : tx_outcome) : PassM := λ p,
  match requeue_stale_pending_once cfg now t (redis_view redis_ok (pf_world p)) (pf_db p) with
  | Err x => (Err x, p)
  | Ok db => tx_pass tx (on_db (λ _, db)) p
  end.

(** [_stale_running_sweep_loop]: only the scan can fail the pass. *)
Definition sweep_running_pass (scan_ok : bool) (now_scan now : Z) (in_flight : gset string)
    (env : uuid → (DB → DB) * tx_outcome) : PassM := λ p,
  if scan_ok then (Ok tt, on_db (λ db, (sweep_stale_running_once cfg now_scan now threshold in_flight env db).2) p)
  else (Err ServiceError, p).

(** [_renew_running_leases_loop]. *)
Definition renew_leases_pass (now : Z) (in_flight : gset string) (tx : tx_outcome) : PassM :=
  tx_pass tx (on_db (λ db, (renew_running_leases_once now threshold in_flight db).2)).

(** [_outbox_relay_tick] with the stamp it writes once the rows are fetched. *)
Definition relay_work (relay_stamp : Redis → Redis) (fetch_ok : bool) (now : Z) (producer : OutboxEvent → publish_outcome)
    (others : DB → DB) (marked : bool) : PassM := λ p,
  if fetch_ok
  then (Ok tt, on_world (λ w, outbox_relay_tick cfg now producer others marked (with_redis (relay_stamp (w_redis w)) w)) p)
  else (Err ServiceError, p).

(** [_slo_evaluation_loop]. *)
Definition slo_pass (read_ok : bool) (now : Z) (request_id : option string) : PassM := λ p,
  if read_ok then
    let '(o, s) := run_evaluation (alert_webhook ls) now request_id (slo_alert_dedup_window_seconds ls) (pf_db p) (pf_alerts p) in
    (match o with Ok _ => Ok tt | Err x => Err x end, with_alerts s p)
  else (Err ServiceError, p).

(** [_digest_loop] with its feature off, and [_idempotency_reaper_loop]. *)
Definition digest_off_pass : PassM := λ p, (Ok tt, p).
Definition reaper_pass (now : Z) (tx : tx_outcome) : PassM :=
  tx_pass tx (λ p, with_idem (delete_expired now (pf_idem p)).2 p).

Definition loop_pass (relay_stamp : Redis → Redis) (b : loop_turn) : PassM :=
  match b with
  | PromoteDelayed _ t pop_ok env => promote_delayed_pass t pop_ok env
  | PromoteReplays t claim_ok env => promote_dlq_replay_pass t claim_ok env
  | ResumeWaiting now t lookup_ok tx => resume_waiting_pass now t lookup_ok tx
  | RequeueStale now t redis_ok tx => requeue_stale_pass now t redis_ok tx
  | SweepRunning scan_ok now_scan now in_flight env => sweep_running_pass scan_ok now_scan now in_flight env
  | RenewLeases now in_flight tx => renew_leases_pass now in_flight tx
  | RelayTurn _ fetch_ok now producer others marked => relay_work relay_stamp fetch_ok now producer others marked
  | EvaluateSlos read_ok now request_id => slo_pass read_ok now request_id
  | MeasureLag e => metrics_pass e
  | DigestOff => digest_off_pass
  | ReapIdempotency now tx => reaper_pass now tx
  end.

(** Does the loop reach its pause check on this turn?  A replica that does not lead skips
    the relay's turn, a disabled objective evaluation re-reads its setting. *)
Definition turn_due (b : loop_turn) : bool :=
  match b with
  | RelayTurn leader _ _ _ _ _ => leader
  | EvaluateSlos _ _ _ => negb (Qle_bool (slo_evaluation_interval_seconds ls) 0)
  | _ => true
  end.

(** The worker's liveness tick comes first, whatever the pause. *)
Definition turn_tick (b : loop_turn) (p : Platform) : Platform :=
  match b with
  | PromoteDelayed tick _ _ _ => with_sup (Worker.worker_tick tick (pf_sup p)) p
  | _ => p
  end.

(** The stamp after the work; the relay has none there. *)
Definition turn_stamp (e : TurnEnv) (b : loop_turn) : Redis → Redis :=
  match b with
  | RelayTurn _ _ _ _ _ _ => id
  | _ => record_loop_run (te_stamp e) (te_stamp_time e) (te_stamp_now e) (turn_name b)
  end.

(** One iteration of a loop. *)
Definition run_turn (e : TurnEnv) (b : loop_turn) (p : Platform) : Platform :=
  let p := turn_tick b p in
  if negb (turn_due b) then p
  else if loop_is_paused (chaos_enabled cfg) (te_check e) (te_check_time e) (turn_name b) (pf_redis p) then p
  else
    match loop_pass (record_relay_tick (te_stamp e) (te_stamp_time e) (te_stamp_now e)) b p with
    | (Ok _, p) => on_redis (turn_stamp e b) p
    | (Err _, p) => p
    end.
End Turns.
