(* ===== verification/ControlLoopsProps.v ===== *)
(** * Properties of the background loops

    What [get_control_loops] reports is what the loops did, and a held loop does nothing
    until its hold ends. *)
From stdpp Require Import base tactics numbers option list gmap strings.
From Stdlib Require Import QArith Qround Lia Lqa.
From S2P Require Import Prelude PyData Codec Models Database Redis Queue DagPause JobService World Dispatcher Sweeps OutboxRelay Idempotency Supervision ConsumerLag Alerts Slo ControlLoops Fixtures.

(** ** What the passes write to Redis *)

(** The keys the work of the loops goes to. *)
Definition work_keys : list string :=
  [DELAYED_KEY; SCHEDULED_KEY; INFLIGHT_KEY;
   lag_key LIVE_REFRESHED_GROUP; samples_key LIVE_REFRESHED_GROUP; last_poll_key LIVE_REFRESHED_GROUP;
   lag_key DEPENDENCY_RESOLVER_GROUP; samples_key DEPENDENCY_RESOLVER_GROUP; last_poll_key DEPENDENCY_RESOLVER_GROUP].

(** Two keyspaces that differ on work keys only. *)
Definition frame (r r' : Redis) : Prop := ∀ k, k ∉ work_keys → r' !! k = r !! k.

#[export] Instance frame_preorder : PreOrder frame.
Proof. split; [done|]. intros r1 r2 r3 H12 H23 k Hk. by rewrite H23, H12. Qed.

Lemma pause_key_reserved n : loop_pause_key n ∉ work_keys.
Proof. destruct n; apply (bool_decide_eq_true_1 _); vm_compute; reflexivity. Qed.
Lemma run_key_reserved n : loop_run_key n ∉ work_keys.
Proof. destruct n; apply (bool_decide_eq_true_1 _); vm_compute; reflexivity. Qed.
Lemma run_key_inj n m : loop_run_key n = loop_run_key m → n = m.
Proof. intros E. destruct n, m; first [reflexivity|exfalso; vm_compute in E; congruence]. Qed.
Lemma pause_key_inj n m : loop_pause_key n = loop_pause_key m → n = m.
Proof. intros E. destruct n, m; first [reflexivity|exfalso; vm_compute in E; congruence]. Qed.
Lemma run_pause_key n m : loop_run_key n ≠ loop_pause_key m.
Proof. intros E. destruct n, m; vm_compute in E; congruence. Qed.

Lemma frame_set t k v ex r : k ∈ work_keys → frame r (r_set t k v ex r).
Proof. intros Hk k' Hk'. unfold r_set. rewrite lookup_insert_ne; [done|]. by intros ->. Qed.
Lemma frame_put t k m r : k ∈ work_keys → frame r (put_zset t k m r).
Proof.
  intros Hk k' Hk'. unfold put_zset. assert (k ≠ k') by (by intros ->).
  case_bool_decide; [by rewrite lookup_delete_ne|by rewrite lookup_insert_ne].
Qed.
Lemma frame_cmd {A} o (f : Redis → result exn (A * Redis)) r :
  (∀ a r', f r = Ok (a, r') → frame r r') → frame r (redis_cmd o f r).2.
Proof. intros Hf. unfold redis_cmd. destruct o, (f r) as [[a r']|]; cbn; eauto; reflexivity. Qed.
Lemma frame_call {A} ok (f : Redis → result exn (A * Redis)) w :
  (∀ a r', f (w_redis w) = Ok (a, r') → frame (w_redis w) r') → frame (w_redis w) (w_redis (redis_call ok f w).2).
Proof. intros Hf. unfold redis_call. destruct ok; [|reflexivity]. destruct (f (w_redis w)) as [[a r']|]; cbn; eauto; reflexivity. Qed.
Lemma frame_best_effort o f r : (∀ r', f r = Ok r' → frame r r') → frame r (best_effort o f r).
Proof. intros Hf. apply frame_cmd. intros [] r' E. destruct (f r) as [r1|] eqn:E1; [|done]. injection E as <-. eauto. Qed.

Ltac work_key := repeat first [by left|right].
Create HintDb frames.
#[export] Hint Resolve frame_set frame_put frame_cmd frame_call frame_best_effort : frames.

Lemma frame_zadd t k m s r r' : k ∈ work_keys → r_zadd t k m s r = Ok r' → frame r r'.
Proof. intros Hk. unfold r_zadd. destruct (r_zset t k r); [|done]. intros [= <-]. eauto with frames. Qed.
Lemma frame_zrem t k m r r' : k ∈ work_keys → r_zrem t k m r = Ok r' → frame r r'.
Proof. intros Hk. unfold r_zrem. destruct (r_zset t k r); [|done]. intros [= <-]. eauto with frames. Qed.

Lemma frame_pop t r a r' : pop_ready_delayed t r = Ok (a, r') → frame r r'.
Proof.
  unfold pop_ready_delayed, atomic_pop_ready. destruct (r_zset _ _ r); [|done]. cbn [mbind result_mbind].
  intros [= <- <-]. destruct (zrange_due _ _ _); [reflexivity|]. apply frame_put. work_key.
Qed.
Lemma frame_claim t r a r' : claim_ready t r = Ok (a, r') → frame r r'.
Proof.
  unfold claim_ready. destruct (r_zset t SCHEDULED_KEY r); [|done]. cbn [mbind result_mbind].
  destruct (r_zset t INFLIGHT_KEY r); [|done]. cbn [mbind result_mbind]. destruct (claim_script _ _ _ _) as [[claimed s'] i'].
  intros [= <- <-]. etransitivity; [apply (frame_put t SCHEDULED_KEY s'); work_key|].
  etransitivity; [apply (frame_put t INFLIGHT_KEY i'); work_key|].
  destruct (filter _ claimed); [reflexivity|]. apply frame_put. work_key.
Qed.

Section Frames.
Context `{PyCodec, SqlOrder, UuidSource} (cfg : Settings) (ls : LoopSettings).

Lemma frame_push ok t job d w : frame (w_redis w) (w_redis (push_guarded ok t job d w)).
Proof.
  apply frame_call. intros [] r' E. unfold push_delayed in E. destruct (r_zadd _ _ _ _ _) as [r1|] eqn:E1; [|done].
  injection E as <-. eapply frame_zadd; [|exact E1]. work_key.
Qed.

Lemma frame_item e i w : frame (w_redis w) (w_redis (promote_item cfg e i w)).
Proof.
  unfold promote_item. destruct (uuid_parse i) as [job|]; [|reflexivity].
  assert (Hp : ∀ d w', w_redis w' = w_redis w → frame (w_redis w) (w_redis (push_guarded (it_push_ok e) (it_time e) i d w'))).
  { intros d w' <-. apply frame_push. }
  destruct (it_tx e); [|by apply Hp|];
    (destruct (get_by_id job (w_db w)) as [j|]; [|reflexivity]);
    (destruct (find_blocking_pause _ _ _ _); [by apply Hp|]); [reflexivity|by apply Hp].
Qed.

Lemma frame_items env ids w : frame (w_redis w) (w_redis (foldl (λ w i, promote_item cfg (env i) i w) w ids)).
Proof.
  revert w. induction ids as [|i ids IH]; intros w; [reflexivity|]. cbn [foldl].
  etransitivity; [apply (frame_item (env i) i w)|apply IH].
Qed.

Lemma frame_delayed t ok env w : frame (w_redis w) (w_redis (promote_delayed_once cfg t ok env w).2).
Proof.
  unfold promote_delayed_once. pose proof (frame_call ok (pop_ready_delayed t) w (frame_pop t (w_redis w))) as Hf.
  destruct (redis_call _ _ w) as [[ids|x] w1]; [|exact Hf]. etransitivity; [exact Hf|apply frame_items].
Qed.

Lemma frame_fire e entry w : frame (w_redis w) (w_redis (fire_replay cfg e entry w)).
Proof.
  unfold fire_replay. destruct entry as [[tenant principal] job]. destruct (rv_request e) as [now t].
  assert (Hs : frame (w_redis w) (w_redis (redis_call (rv_schedule_ok e)
                 (schedule_replay t tenant principal job PAUSED_REPLAY_DEFER_SECONDS) w).2)).
  { apply frame_call. intros q r' E. unfold schedule_replay, arm_replay in E.
    destruct (r_zadd _ _ _ _ _) as [r1|] eqn:E1; [|done]. injection E as <- <-. eapply frame_zadd; [|exact E1]. work_key. }
  destruct (rv_tx e); [|reflexivity|];
    (destruct (find_blocking_pause _ _ _ _); [first [exact Hs|reflexivity]|]);
    (destruct (replay_job _ _ _ _ _ _ _) as [[[? ?] ?]|]; reflexivity).
Qed.

Lemma frame_fires env entries w : frame (w_redis w) (w_redis (fire_replays cfg env entries w).2).
Proof.
  revert w. induction entries as [|[[tenant principal] job] entries IH]; intros w; [reflexivity|]. cbn [fire_replays].
  match goal with |- context [redis_call ?ok ?f ?w'] =>
    assert (Hf : frame (w_redis w') (w_redis (redis_call ok f w').2)) end.
  { apply frame_call. intros [] r' E. unfold ack_replay in E. destruct (r_zrem _ _ _ _) as [r1|] eqn:E1; [|done].
    injection E as <-. eapply frame_zrem; [|exact E1]. work_key. }
  pose proof (frame_fire (env job) (tenant, principal, job) w) as H2.
  destruct (redis_call _ _ _) as [[[]|x] w2]; (etransitivity; [exact H2|]); [|exact Hf].
  etransitivity; [exact Hf|apply IH].
Qed.

Lemma frame_replays t ok env w : frame (w_redis w) (w_redis (promote_dlq_replay_once cfg t ok env w).2).
Proof.
  unfold promote_dlq_replay_once. pose proof (frame_call ok (claim_ready t) w (frame_claim t (w_redis w))) as Hf.
  destruct (redis_call _ _ w) as [[ids|x] w1]; [|exact Hf]. etransitivity; [exact Hf|apply frame_fires].
Qed.

Lemma frame_sample t now g lag r r' : samples_key g ∈ work_keys → record_lag_sample t now g lag r = Ok r' → frame r r'.
Proof.
  intros Hk. unfold record_lag_sample. destruct (r_get _ _ r); [|done]. cbn [mbind result_mbind].
  intros [= <-]. by apply frame_set.
Qed.

Lemma frame_group_lag o t now lag r : frame r (record_group_lag_at ls o t now DEPENDENCY_RESOLVER_GROUP lag r).
Proof.
  unfold record_group_lag_at.
  match goal with |- context [redis_cmd ?o ?f r] => pose proof (frame_cmd o f r) as Hf end.
  cbv beta in Hf. specialize (Hf ltac:(intros [] r' [= <-]; apply frame_set; work_key)).
  destruct (redis_cmd _ _ r) as [[[]|x] r1]; [|exact Hf]. etransitivity; [exact Hf|].
  apply frame_best_effort. intros r' E. eapply frame_sample; [|exact E]. work_key.
Qed.

Lemma frame_poll o t now g at_ r : last_poll_key g ∈ work_keys → frame r (publish_last_poll ls o t now g at_ r).
Proof.
  intros Hk. unfold publish_last_poll. destruct at_ as [a|]; [|reflexivity].
  apply frame_best_effort. intros r' [= <-]. by apply frame_set.
Qed.

Lemma frame_metrics e p : frame (pf_redis p) (pf_redis (metrics_pass ls e p).2).
Proof.
  unfold metrics_pass. destruct (redis_cmd (me_length e) _ _).1 as [n|x]; [|reflexivity].
  set (measured := match me_lag e with None => _ | Some _ => _ end).
  assert (Hm : frame (pf_redis p) (pf_redis measured.2)).
  { unfold measured. destruct (me_lag e) as [lag|]; [|reflexivity].
    match goal with |- context [redis_cmd ?o ?f ?r] => pose proof (frame_cmd o f r) as Hf end.
    cbv beta in Hf. specialize (Hf ltac:(intros [] r' [= <-]; apply frame_set; work_key)).
    destruct (redis_cmd _ _ _) as [[[]|x] r1]; cbn; [|exact Hf]. etransitivity; [exact Hf|].
    apply frame_best_effort. intros r' E. eapply frame_sample; [|exact E]. work_key. }
  destruct measured as [[[]|x] p1]; [|exact Hm]. cbn [snd] in *. etransitivity; [exact Hm|].
  change (pf_redis (with_alerts ?s ?q)) with (pf_redis q).
  etransitivity; [|apply frame_poll; work_key]. etransitivity; [|apply frame_poll; work_key].
  destruct (me_resolver_lag e) as [lag|]; [apply frame_group_lag|reflexivity].
Qed.

Lemma frame_tx tx f p : (∀ p, pf_redis (f p) = pf_redis p) → frame (pf_redis p) (pf_redis (tx_pass tx f p).2).
Proof. intros Hf. destruct tx; cbn; rewrite ?Hf; reflexivity. Qed.

(** The relay's pass does not read Redis and writes it nothing but its stamp. *)
Lemma relay_redis now producer others marked w r :
  outbox_relay_tick cfg now producer others marked (with_redis r w) =
  with_redis r (outbox_relay_tick cfg now producer others marked w).
Proof.
  unfold outbox_relay_tick. change (w_db (with_redis r w)) with (w_db w).
  destruct (fetch_unpublished cfg OUTBOX_RELAY_BATCH (w_db w)); [done|]. by destruct (publish_events cfg _ _).
Qed.

(** Apart from the relay's stamp, a pass writes work keys only. *)
Lemma frame_pass b p : frame (pf_redis p) (pf_redis (loop_pass cfg ls id b p).2).
Proof.
  destruct b; cbn [loop_pass]; unfold promote_delayed_pass, promote_dlq_replay_pass, resume_waiting_pass, requeue_stale_pass,
    sweep_running_pass, renew_leases_pass, relay_work, slo_pass, digest_off_pass, reaper_pass.
  - unfold world_pass. pose proof (frame_delayed t pop_ok env (pf_world p)) as Hf.
    by destruct (promote_delayed_once _ _ _ _ _).
  - unfold world_pass. pose proof (frame_replays t claim_ok env (pf_world p)) as Hf.
    by destruct (promote_dlq_replay_once _ _ _ _ _).
  - destruct tx; cbn [tx_pass]; [|reflexivity|]; by destruct (resume_unblocked_waiting_once _ _ _ _ _ _).
  - destruct (requeue_stale_pending_once _ _ _ _ _); [by apply frame_tx|reflexivity].
  - destruct scan_ok; reflexivity.
  - by apply frame_tx.
  - destruct fetch_ok; [|reflexivity]. unfold on_world, pf_redis. cbn [snd pf_world]. rewrite relay_redis. reflexivity.
  - destruct read_ok; [|reflexivity]. destruct (run_evaluation _ _ _ _ _ _) as [[]]; reflexivity.
  - apply frame_metrics.
  - reflexivity.
  - by apply frame_tx.
Qed.
End Frames.

(** ** The reference *)

Section Reference.
Context `{PyCodec, SqlOrder, UuidSource} (cfg : Settings) (ls : LoopSettings).

(** A turn that was neither skipped nor held and whose pass did not raise. *)
Definition completes (e : TurnEnv) (b : loop_turn) (p : Platform) : bool :=
  turn_due ls b &&
  negb (loop_is_paused (chaos_enabled cfg) (te_check e) (te_check_time e) (turn_name b) (pf_redis p)) &&
  is_ok (loop_pass cfg ls id b (turn_tick b p)).1.

(** The pass it leaves on record: its time and when it was stored. *)
Definition recorded (e : TurnEnv) (b : loop_turn) (p : Platform) : option (Z * Q) :=
  match te_stamp e with
  | NotReached => None
  | _ => if completes e b p then Some (te_stamp_now e, te_stamp_time e) else None
  end.

Definition run_ttl (n : ControlLoopName) : Q :=
  match n with OUTBOX_RELAY => RELAY_TICK_TTL_SECONDS | _ => LOOP_RUN_TTL_SECONDS end.

(** What happens: turns of the loops, in any order, and holds. *)
Inductive loop_event : Type :=
  | Turn (e : TurnEnv) (b : loop_turn)
  | Hold (t : Q) (n : ControlLoopName) (ttl_seconds : Z).

Definition step (p : Platform) (ev : loop_event) : Platform :=
  match ev with
  | Turn e b => run_turn cfg ls e b p
  | Hold t n ttl => on_redis (pause_control_loop t n ttl) p
  end.
Definition run_events (es : list loop_event) (p : Platform) : Platform := foldl step p es.

(** The last pass of a loop on record, and the last hold on it. *)
Fixpoint last_pass (n : ControlLoopName) (es : list loop_event) (p : Platform) (acc : option (Z * Q)) : option (Z * Q) :=
  match es with
  | [] => acc
  | Turn e b :: es' =>
      let acc := if bool_decide (turn_name b = n) then union (recorded e b p) acc else acc in
      last_pass n es' (run_turn cfg ls e b p) acc
  | Hold t m ttl :: es' => last_pass n es' (step p (Hold t m ttl)) acc
  end.
Fixpoint last_hold (n : ControlLoopName) (es : list loop_event) (acc : option Q) : option Q :=
  match es with
  | [] => acc
  | Hold t m ttl :: es' => last_hold n es' (if bool_decide (m = n) then Some (t + inject_Z ttl)%Q else acc)
  | Turn _ _ :: es' => last_hold n es' acc
  end.

(** ** What a turn does to the flags and the stamps *)

Definition run_entry (n : ControlLoopName) (s : Z * Q) : rentry :=
  mkEntry (RStr (isoformat s.1)) (Some (s.2 + run_ttl n)%Q).

Lemma stamp_lookup o t now key ttl r k :
  stamp o t now key ttl r !! k =
  match o with
  | NotReached => r !! k
  | _ => if bool_decide (k = key) then Some (mkEntry (RStr (isoformat now)) (Some (t + ttl)%Q)) else r !! k
  end.
Proof.
  unfold stamp, redis_cmd, r_set. destruct o; cbn [snd]; [|done|];
    (case_bool_decide as Hk; [rewrite Hk; apply lookup_insert_eq|apply lookup_insert_ne; congruence]).
Qed.

Lemma tick_redis b p : pf_redis (turn_tick b p) = pf_redis p.
Proof. by destruct b. Qed.

Lemma relay_pass st l f now producer others marked p :
  loop_pass cfg ls st (RelayTurn l f now producer others marked) p =
  ((loop_pass cfg ls id (RelayTurn l f now producer others marked) p).1,
   if f then on_redis st (loop_pass cfg ls id (RelayTurn l f now producer others marked) p).2 else p).
Proof.
  cbn [loop_pass]. unfold relay_work. destruct f; [|done]. cbn [fst snd]. f_equal. unfold on_redis, on_world.
  cbn [pf_world pf_cursor pf_alerts pf_idem pf_sup]. f_equal. by rewrite !relay_redis.
Qed.

Lemma turn_lookup e b p k :
  k ∉ work_keys →
  pf_redis (run_turn cfg ls e b p) !! k =
  match recorded e b p with
  | Some s => if bool_decide (k = loop_run_key (turn_name b)) then Some (run_entry (turn_name b) s) else pf_redis p !! k
  | None => pf_redis p !! k
  end.
Proof.
  intros Hk. unfold run_turn, recorded, completes. rewrite tick_redis.
  destruct (turn_due ls b); cbn [negb andb]; [|rewrite tick_redis; by destruct (te_stamp e)].
  destruct (loop_is_paused _ _ _ _ _); cbn [negb andb]; [rewrite tick_redis; by destruct (te_stamp e)|].
  pose proof (frame_pass cfg ls b (turn_tick b p) k Hk) as Hf. rewrite tick_redis in Hf.
  assert (Hcase : (∃ l f now producer others marked, b = RelayTurn l f now producer others marked) ∨
                  ((∀ st, loop_pass cfg ls st b = loop_pass cfg ls id b) ∧
                   turn_stamp e b = stamp (te_stamp e) (te_stamp_time e) (te_stamp_now e) (loop_run_key (turn_name b)) (run_ttl (turn_name b)))).
  { destruct b; first [left; by repeat eexists|right; done]. }
  destruct Hcase as [(l & f & now & producer & others & marked & ->)|[Hst Hstamp]].
  - rewrite relay_pass. destruct f.
    + change (loop_pass cfg ls id (RelayTurn l true now producer others marked) (turn_tick _ p)).1 with (Ok (E:=exn) tt).
      cbn [is_ok andb]. unfold on_redis at 1. cbn. unfold record_relay_tick.
      change (w_redis (pf_world ?q)) with (pf_redis q). rewrite stamp_lookup. cbn in Hf. 
      unfold run_entry. cbn. destruct (te_stamp e); [|exact Hf|]; (case_bool_decide; [done|exact Hf]).
    + cbn. by destruct (te_stamp e).
  - rewrite Hst. destruct (loop_pass cfg ls id b (turn_tick b p)) as [[[]|x] p1]; cbn [fst snd is_ok] in *.
    + rewrite Hstamp. change (pf_redis (on_redis ?g ?q)) with (g (pf_redis q)). rewrite stamp_lookup.
      destruct (te_stamp e); [|exact Hf|]; (case_bool_decide; [done|exact Hf]).
    + rewrite Hf. by destruct (te_stamp e).
Qed.

Definition hold_entry (x : Q) : rentry := mkEntry (RStr "paused") (Some x).

Lemma flags_after n es p acc :
  pf_redis p !! loop_pause_key n = hold_entry <$> acc →
  pf_redis (run_events es p) !! loop_pause_key n = hold_entry <$> last_hold n es acc.
Proof.
  revert p acc. induction es as [|[e b|t m ttl] es IH]; intros p acc Hp; [exact Hp| |]; cbn [last_hold]; apply IH; cbn [step].
  - rewrite turn_lookup by apply pause_key_reserved. destruct (recorded e b p); [|done].
    rewrite bool_decide_false; [done|]. intros E. by apply (run_pause_key (turn_name b) n).
  - change (pf_redis (on_redis ?f p)) with (f (pf_redis p)). unfold pause_control_loop, r_set.
    case_bool_decide as E; [subst m; apply lookup_insert_eq|].
    rewrite lookup_insert_ne; [done|]. intros Hk. by apply pause_key_inj in Hk.
Qed.

Lemma stamps_after n es p acc :
  pf_redis p !! loop_run_key n = run_entry n <$> acc →
  pf_redis (run_events es p) !! loop_run_key n = run_entry n <$> last_pass n es p acc.
Proof.
  revert p acc. induction es as [|[e b|t m ttl] es IH]; intros p acc Hp; [exact Hp| |]; cbn [last_pass]; apply IH; cbn [step].
  - rewrite turn_lookup by apply run_key_reserved. destruct (decide (turn_name b = n)) as [E|E].
    + rewrite (bool_decide_true (turn_name b = n)) by done. subst n.
      destruct (recorded e b p) as [s|]; [rewrite bool_decide_true by done; by destruct acc|]. rewrite Hp. by destruct acc.
    + rewrite (bool_decide_false (turn_name b = n)) by done.
      destruct (recorded e b p); [|exact Hp]. rewrite bool_decide_false; [exact Hp|].
      intros Hk. apply run_key_inj in Hk. congruence.
  - change (pf_redis (on_redis ?f p)) with (f (pf_redis p)). unfold pause_control_loop, r_set.
    rewrite lookup_insert_ne; [exact Hp|]. intros Hk. by apply (run_pause_key n m).
Qed.

Definition stamped_validly (ev : loop_event) : Prop :=
  match ev with Turn e _ => valid_datetime (te_stamp_now e) = true | Hold _ _ _ => True end.

Lemma last_pass_valid n es p acc s :
  Forall stamped_validly es → (∀ s, acc = Some s → valid_datetime s.1 = true) →
  last_pass n es p acc = Some s → valid_datetime s.1 = true.
Proof.
  intros Hes. revert p acc. induction Hes as [|ev es Hev _ IH]; intros p acc Hacc; [apply Hacc|].
  destruct ev as [e b|t m ttl]; cbn [last_pass]; apply IH; [|exact Hacc].
  intros s0. case_bool_decide; [|apply Hacc]. unfold recorded.
  destruct (te_stamp e); destruct (completes e b p); try apply Hacc;
    cbn; (destruct acc; [|]); try (intros [= <-]; exact Hev); by intros E%Hacc.
Qed.

(** ** The reading *)

(** The pass a reader at [t] sees, and the seconds a hold has left. *)
Definition pass_seen (t : Q) (n : ControlLoopName) (s : option (Z * Q)) : option Z :=
  '(now, at_) ← s; if Qle_bool (at_ + run_ttl n) t then None else Some now.
Definition hold_left (t : Q) (x : option Q) : option Z :=
  x ← x; if Qle_bool x t then None else Some (Qfloor (x - t + (1 # 2))%Q).

Lemma read_stamp t n r s :
  r !! loop_run_key n = run_entry n <$> s → (∀ x, s = Some x → valid_datetime x.1 = true) →
  read_loop_run Answered t n r = Ok (pass_seen t n s).
Proof.
  intros Hr Hv. unfold read_loop_run, redis_cmd, r_get, live. rewrite Hr. destruct s as [[now at_]|]; [|done].
  cbn [fmap option_fmap option_map expired run_entry e_exp fst snd pass_seen mbind option_bind].
  destruct (Qle_bool _ _); [done|]. cbn. by rewrite (iso_roundtrip now (Hv _ eq_refl)).
Qed.

Lemma read_hold t n r x :
  r !! loop_pause_key n = hold_entry <$> x →
  loop_pause_state true Answered t n r = Ok (bool_decide (is_Some (hold_left t x)), hold_left t x).
Proof.
  intros Hr. unfold loop_pause_state, redis_cmd, r_ttl, live. rewrite Hr. destruct x as [x|]; [|done].
  cbn [negb fmap option_fmap option_map expired hold_entry e_exp hold_left mbind option_bind fst].
  destruct (Qle_bool x t) eqn:E; [done|]. cbn [e_exp mbind result_mbind].
  assert (Hz : (0 <= Qfloor (x - t + (1 # 2)))%Z).
  { change 0%Z with (Qfloor 0). apply Qfloor_resp_le.
    assert (~ x <= t)%Q by (rewrite <- Qle_bool_iff; congruence). lra. }
  cbn [hold_entry e_exp].
  generalize dependent (Qfloor (x - t + (1 # 2))%Q). intros z Hz.
  rewrite (proj2 (Z.eqb_neq z (-2))), (proj2 (Z.eqb_neq z (-1))) by lia. reflexivity.
Qed.

Lemma mapM_ok {A B} (f : A → result exn B) (g : A → B) l : (∀ a, f a = Ok (g a)) → mapM f l = Ok (g <$> l).
Proof. intros Hf. induction l as [|a l IH]; [done|]. cbn. rewrite Hf. cbn. by rewrite IH. Qed.

(** In every interleaving of turns and holds, [get_control_loops] reports of each loop
    the time of the last pass it completed (not skipped, not held, not failed, its stamp
    delivered and still kept) and exactly the time its last hold has left: no loop's work
    touches another's record or any flag. *)
Theorem control_loops_reading_exact es p t measured_at :
  (∀ n, pf_redis p !! loop_pause_key n = None ∧ pf_redis p !! loop_run_key n = None) →
  Forall stamped_validly es →
  get_control_loops ls true (λ _, (Answered, Answered)) t measured_at (pf_redis (run_events es p)) =
  (true, (λ n,
     let left := hold_left t (last_hold n es None) in
     let seen := pass_seen t n (last_pass n es p None) in
     mkLoopState n (Some (bool_decide (is_Some left))) left (tick_interval_seconds ls n) seen (age_tenths measured_at seen))
   <$> all_loops).
Proof.
  intros Hp Hes. unfold get_control_loops. erewrite mapM_ok; [reflexivity|]. intros n. unfold control_loop_state. cbn [fst snd].
  rewrite (read_hold t n _ (last_hold n es None)) by (by apply flags_after; rewrite (proj1 (Hp n))). cbn [mbind result_mbind].
  rewrite (read_stamp t n _ (last_pass n es p None)); [done|by apply stamps_after; rewrite (proj2 (Hp n))|].
  intros x. by apply last_pass_valid.
Qed.

(** ** Holds *)

(** The turn with the flag out of the way. *)
Definition unheld_turn (e : TurnEnv) (b : loop_turn) (p : Platform) : Platform :=
  run_turn cfg ls (mkTurnEnv NotReached (te_check_time e) (te_stamp e) (te_stamp_time e) (te_stamp_now e)) b p.

Definition not_held_again (n : ControlLoopName) (ev : loop_event) : Prop :=
  match ev with Hold _ m _ => m ≠ n | Turn _ _ => True end.

Lemma last_hold_other n es acc : Forall (not_held_again n) es → last_hold n es acc = acc.
Proof.
  intros Hes. revert acc. induction Hes as [|[e b|t m ttl] es Hev _ IH]; intros acc; [done|apply IH|].
  cbn [last_hold]. rewrite bool_decide_false by done. apply IH.
Qed.

(** A hold stops its loop and no other, until it expires: whatever the loops do after it,
    a turn that reads the flag before the expiry changes nothing but the worker's
    liveness tick, and from the expiry on the turn is the one without the flag. *)
Theorem hold_lasts_until_expiry es p t0 n ttl e b :
  chaos_enabled cfg = true → turn_name b = n → te_check e = Answered → Forall (not_held_again n) es →
  let q := run_events (Hold t0 n ttl :: es) p in
  run_turn cfg ls e b q =
  if Qle_bool (t0 + inject_Z ttl) (te_check_time e) then unheld_turn e b q else turn_tick b q.
Proof.
  intros Hc Hn Ha Hes q.
  assert (Hq : pf_redis q !! loop_pause_key n = hold_entry <$> Some (t0 + inject_Z ttl)%Q).
  { rewrite <- (last_hold_other n es _ Hes).
    change q with (run_events es (step p (Hold t0 n ttl))). apply flags_after. cbn [step].
    change (pf_redis (on_redis ?f p)) with (f (pf_redis p)). apply lookup_insert_eq. }
  assert (Hp : loop_is_paused (chaos_enabled cfg) (te_check e) (te_check_time e) (turn_name b) (pf_redis (turn_tick b q)) =
               negb (Qle_bool (t0 + inject_Z ttl) (te_check_time e))).
  { rewrite tick_redis, Hc, Ha, Hn. unfold loop_is_paused, redis_cmd, r_get, live. rewrite Hq.
    cbn [fmap option_fmap option_map expired hold_entry e_exp negb]. by destruct (Qle_bool _ _). }
  unfold unheld_turn, run_turn. rewrite Hp. cbn [te_check te_check_time te_stamp te_stamp_time te_stamp_now].
  destruct (Qle_bool _ _); cbn [negb]; [|by destruct (turn_due ls b)].
  unfold loop_is_paused at 1. rewrite Hc. reflexivity.
Qed.
End Reference.

Module LoopExample.
Import Fixtures.

Definition lab_cfg : Settings :=
  mkSettings (kafka_topic_job_submitted cfg) (kafka_topic_job_progress cfg) (kafka_topic_job_completed cfg)
    (kafka_topic_job_failed cfg) (kafka_topic_job_cancelled cfg) (kafka_topic_job_dlq cfg) (max_job_attempts cfg)
    (job_retry_backoff_base cfg) (outbox_max_attempts cfg) (stale_running_threshold_seconds cfg)
    (llm_retry_policy_enabled cfg) (llm_retry_policy_min_retry_count cfg) (backpressure_lag_threshold cfg) true
    (job_create_rate_limit cfg) (job_create_rate_window_seconds cfg).
Definition loop_settings : LoopSettings := mkLoopSettings 24 300 3600 60 true 20 5 false.

(** One waiting job that may run. *)
Definition stranded : Platform :=
  mkPlatform (world_of (db_of [row 1 COMPLETED; row 2 WAITING] [(2, 1)]%N)) None (mkStore [] [] 0 [])
    (mkIdemStore ∅ 0) Worker.unstarted.

Definition turn_env (t : Z) : TurnEnv := mkTurnEnv Answered (inject_Z t) Answered (inject_Z t) (t * 1000000).
Definition resume (t : Z) : loop_event :=
  Turn (turn_env t) (ResumeWaiting (t * 1000000) (inject_Z t) (λ _, true) TxCommits).

(** The resume sweep held for 300 seconds, a turn of it and one of the reaper. *)
Definition held_run : list loop_event :=
  [Hold (inject_Z 100) RESUME_UNBLOCKED_WAITING 300; resume 110;
   Turn (turn_env 120) (ReapIdempotency 120000000 TxCommits)].

Lemma control_loops_reading_exact_witness :
  filter (λ s, cl_name s = RESUME_UNBLOCKED_WAITING ∨ cl_name s = IDEMPOTENCY_REAPER)
    (get_control_loops loop_settings true (λ _, (Answered, Answered)) (inject_Z 125) 125000000
       (pf_redis (run_events lab_cfg loop_settings held_run stranded))).2 =
  [mkLoopState RESUME_UNBLOCKED_WAITING (Some true) (Some 275%Z) (Some (inject_Z 10)) None None;
   mkLoopState IDEMPOTENCY_REAPER (Some false) None (Some (inject_Z 3600)) (Some 120000000%Z) (Some 50%Z)].
Proof.
  rewrite (control_loops_reading_exact lab_cfg loop_settings held_run stranded (inject_Z 125) 125000000).
  - vm_compute. reflexivity.
  - intros n. split; reflexivity.
  - repeat constructor.
Defined.

Lemma hold_lasts_until_expiry_witness :
  let q := run_events lab_cfg loop_settings held_run stranded in
  pf_db (step lab_cfg loop_settings q (resume 399)) = pf_db stranded ∧
  job_status <$> (db_jobs (pf_db (step lab_cfg loop_settings q (resume 400))) !! 2%N) = Some PENDING.
Proof.
  intros q. split.
  - unfold q, held_run, step, resume.
    rewrite (hold_lasts_until_expiry lab_cfg loop_settings _ stranded (inject_Z 100) RESUME_UNBLOCKED_WAITING 300);
      [vm_compute; reflexivity..|repeat constructor].
  - unfold q, held_run, step, resume.
    rewrite (hold_lasts_until_expiry lab_cfg loop_settings _ stranded (inject_Z 100) RESUME_UNBLOCKED_WAITING 300);
      [vm_compute; reflexivity..|repeat constructor].
Defined.
End LoopExample.
