(* ===== verification/AgentRuns.v ===== *)
(** * Agent runs (services/agent_run.py, repositories/agent_run.py, models/agent_run.py,
      mcp/tools/commander_runs.py)

    What an autonomous responder reports of one run: an upsert by the caller's run id, an
    append-only timeline, bounded ledgers, and a write-up that lands once. *)
From stdpp Require Import base tactics numbers option list gmap strings sorting.
From Stdlib Require Import ZArith.
From S2P Require Import Prelude PyData.

(** ** Data *)

Inductive AgentRunState : Type :=
  | TRIAGE | INVESTIGATING | PLANNING | AWAITING_APPROVAL | REMEDIATING | VERIFYING
  | RESOLVED | ESCALATED | RUN_FAILED.

#[export] Instance AgentRunState_eq_dec : EqDecision AgentRunState.
Proof. solve_decision. Defined.

Definition run_state_value (s : AgentRunState) : string :=
  match s with
  | TRIAGE => "triage" | INVESTIGATING => "investigating" | PLANNING => "planning"
  | AWAITING_APPROVAL => "awaiting_approval" | REMEDIATING => "remediating" | VERIFYING => "verifying"
  | RESOLVED => "resolved" | ESCALATED => "escalated" | RUN_FAILED => "failed"
  end.

Definition terminal_run_state (s : AgentRunState) : bool :=
  match s with RESOLVED | ESCALATED | RUN_FAILED => true | _ => false end.

(** One entry of the step ledger; the tool requires a [seq], the service does not. *)
Record Step := mkStep { st_seq : option Z; st_body : dict }.

(** The row; [updated_at], which the database moves, is left out. *)
Record AgentRun := mkRun {
  ar_id : uuid;
  ar_tenant_id : uuid;
  ar_alert_id : option uuid;
  ar_service_account_id : uuid;
  ar_scenario : option string;
  ar_state : AgentRunState;
  ar_phase_history : list (AgentRunState * Z);
  ar_current_hypothesis : option dict;
  ar_last_step : option dict;
  ar_hypotheses : list dict;
  ar_plan : option dict;
  ar_verification : option dict;
  ar_verifications : list dict;
  ar_steps : list Step;
  ar_steps_dropped : Z;
  ar_budget : option dict;
  ar_briefing : option dict;
  ar_started_at : Z;
  ar_finished_at : option Z
}.

(** The runs, by their primary key, and the alerts a run may name. *)
Record RunStore := mkRunStore { rs_runs : gmap uuid AgentRun; rs_alerts : gset uuid }.

Definition put_run (r : AgentRun) (s : RunStore) : RunStore :=
  mkRunStore (<[ar_id r := r]> (rs_runs s)) (rs_alerts s).

Inductive run_error : Type :=
  | AgentRunAlreadyFinished | AgentRunBriefingAlreadyRecorded | AgentRunNotFound
  | RunIntegrityError.  (** the database refuses the row *)

(** ** Repository *)

(** [get_for_tenant]. *)
Definition get_run (run_id tenant : uuid) (s : RunStore) : option AgentRun :=
  r ← rs_runs s !! run_id; if bool_decide (ar_tenant_id r = tenant) then Some r else None.

(** [list_for_tenant]: one page and the total. *)
Definition run_newer (a b : AgentRun) : Prop :=
  (ar_started_at b < ar_started_at a)%Z ∨ (ar_started_at a = ar_started_at b ∧ (ar_id b ≤ ar_id a)%N).
#[export] Instance run_newer_dec : RelDecision run_newer.
Proof. intros a b. unfold run_newer. apply _. Defined.

Definition run_matches (tenant : uuid) (alert_id : option uuid) (active : option bool) (r : AgentRun) : bool :=
  bool_decide (ar_tenant_id r = tenant) &&
  match alert_id with Some a => bool_decide (ar_alert_id r = Some a) | None => true end &&
  match active with
  | Some true => bool_decide (ar_finished_at r = None)
  | Some false => negb (bool_decide (ar_finished_at r = None))
  | None => true
  end.

Definition list_runs (tenant : uuid) (alert_id : option uuid) (active : option bool) (offset limit : nat) (s : RunStore)
    : list AgentRun * nat :=
  let rows := filter (λ r, run_matches tenant alert_id active r = true) ((map_to_list (rs_runs s)).*2) in
  (take limit (drop offset (merge_sort run_newer rows)), length rows).

(** ** Service *)

Definition STEPS_CAP : nat := 200.
Definition VERIFICATIONS_CAP : nat := 50.

(** [_capped]: the newest entries. *)
Definition capped {A} (cap : nat) (entries : list A) : list A :=
  if (cap <? length entries)%nat then drop (length entries - cap) entries else entries.

(** [_append_step]: the ledger and how many entries the cap discarded. *)
Definition append_step (steps : list Step) (step : Step) : list Step * Z :=
  match st_seq step with
  | Some seq =>
      if existsb (λ e, bool_decide (st_seq e = Some seq)) steps then (steps, 0%Z)
      else (capped STEPS_CAP (steps ++ [step]), Z.max 0 (Z.of_nat (length (steps ++ [step])) - Z.of_nat STEPS_CAP))
  | None => (capped STEPS_CAP (steps ++ [step]), Z.max 0 (Z.of_nat (length (steps ++ [step])) - Z.of_nat STEPS_CAP))
  end.

(** What one report carries. *)
Record Report := mkReport {
  rp_run_id : uuid;
  rp_state : AgentRunState;
  rp_at : Z;
  rp_alert_id : option uuid;
  rp_label : option string;
  rp_current_hypothesis : option dict;
  rp_last_step : option dict;
  rp_hypotheses : option (list dict);
  rp_plan : option dict;
  rp_verification : option dict;
  rp_step : option Step;
  rp_budget : option dict
}.

Record ReportOutcome := mkReportOutcome { ro_run : AgentRun; ro_created : bool; ro_phase_appended : bool }.

(** The foreign key on the alert. *)
Definition alert_known (s : RunStore) (alert_id : option uuid) : bool :=
  match alert_id with Some a => bool_decide (a ∈ rs_alerts s) | None => true end.

(** The row the first report creates. *)
Definition first_report (now : Z) (tenant account : uuid) (r : Report) : AgentRun :=
  mkRun (rp_run_id r) tenant (rp_alert_id r) account (rp_label r) (rp_state r) [(rp_state r, rp_at r)]
    (rp_current_hypothesis r) (rp_last_step r) (default [] (rp_hypotheses r)) (rp_plan r) (rp_verification r)
    (option_list (rp_verification r)) (option_list (rp_step r)) 0 (rp_budget r) None now
    (if terminal_run_state (rp_state r) then Some (rp_at r) else None).

(** What a later report does to an open run. *)
Definition later_report (r : Report) (run : AgentRun) : AgentRun :=
  let appended := negb (bool_decide (ar_state run = rp_state r)) in
  let '(steps, dropped) :=
    match rp_step r with Some step => append_step (ar_steps run) step | None => (ar_steps run, 0%Z) end in
  mkRun (ar_id run) (ar_tenant_id run) (union (rp_alert_id r) (ar_alert_id run)) (ar_service_account_id run)
    (union (rp_label r) (ar_scenario run)) (rp_state r)
    (if appended then ar_phase_history run ++ [(rp_state r, rp_at r)] else ar_phase_history run)
    (rp_current_hypothesis r) (rp_last_step r) (default (ar_hypotheses run) (rp_hypotheses r))
    (union (rp_plan r) (ar_plan run)) (union (rp_verification r) (ar_verification run))
    (match rp_verification r with
     | Some v => capped VERIFICATIONS_CAP (ar_verifications run ++ [v])
     | None => ar_verifications run
     end)
    steps (ar_steps_dropped run + dropped) (union (rp_budget r) (ar_budget run)) (ar_briefing run)
    (ar_started_at run) (if terminal_run_state (rp_state r) then Some (rp_at r) else ar_finished_at run).

(** [report_run]. *)
Definition report_run (now : Z) (tenant account : uuid) (r : Report) (s : RunStore)
    : result run_error (ReportOutcome * RunStore) :=
  match get_run (rp_run_id r) tenant s with
  | None =>
      if bool_decide (is_Some (rs_runs s !! rp_run_id r)) || negb (alert_known s (rp_alert_id r)) then Err RunIntegrityError
      else
        let run := first_report now tenant account r in
        Ok (mkReportOutcome run true true, put_run run s)
  | Some run =>
      match ar_finished_at run with
      | Some _ => Err AgentRunAlreadyFinished
      | None =>
          if negb (alert_known s (rp_alert_id r)) then Err RunIntegrityError
          else
            let run' := later_report r run in
            Ok (mkReportOutcome run' false (negb (bool_decide (ar_state run = rp_state r))), put_run run' s)
      end
  end.

(** [report_briefing]. *)
Definition report_briefing (run_id tenant : uuid) (briefing : dict) (prose : option string) (at_ : Z) (s : RunStore)
    : result run_error (AgentRun * RunStore) :=
  match get_run run_id tenant s with
  | None => Err AgentRunNotFound
  | Some run =>
      match ar_briefing run with
      | Some _ => Err AgentRunBriefingAlreadyRecorded
      | None =>
          let stored := dset (dset briefing "prose" (jstr_opt prose)) "recorded_at" (JStr (isoformat at_)) in
          let run' :=
            mkRun (ar_id run) (ar_tenant_id run) (ar_alert_id run) (ar_service_account_id run) (ar_scenario run) (ar_state run)
              (ar_phase_history run) (ar_current_hypothesis run) (ar_last_step run) (ar_hypotheses run) (ar_plan run)
              (ar_verification run) (ar_verifications run) (ar_steps run) (ar_steps_dropped run) (ar_budget run)
              (Some stored) (ar_started_at run) (union (ar_finished_at run) (Some at_)) in
          Ok (run', put_run run' s)
      end
  end.

(** ** The receipts *)

Record RunReceipt := mkReceipt {
  rc_state : AgentRunState;
  rc_created : bool;
  rc_phase_appended : bool;
  rc_phase_count : nat;
  rc_finished_at : option Z;
  rc_steps_count : nat;
  rc_steps_dropped : Z
}.

(** [report_agent_run]. *)
Definition report_agent_run (now : Z) (tenant account : uuid) (r : Report) (s : RunStore)
    : result run_error (RunReceipt * RunStore) :=
  match report_run now tenant account r s with
  | Err e => Err e
  | Ok (o, s) =>
      let run := ro_run o in
      Ok (mkReceipt (ar_state run) (ro_created o) (ro_phase_appended o) (length (ar_phase_history run))
            (ar_finished_at run) (length (ar_steps run)) (ar_steps_dropped run), s)
  end.
