(* ===== verification/AgentRunsProps.v ===== *)
(** * Properties of the agent runs

    The row is a summary of the reports, the ledger keeps the newest steps and says what it
    dropped, and a closed run does not change. *)
From stdpp Require Import base tactics numbers option list gmap strings sorting.
From Stdlib Require Import ZArith Lia.
From S2P Require Import Prelude PyData AgentRuns.

(** ** The ledger *)

(** Reference: an unbounded ledger, each [seq] entered once. *)
Definition enter (steps : list Step) (step : Step) : list Step :=
  if existsb (λ e, bool_decide (st_seq e = st_seq step)) steps then steps else steps ++ [step].

(** A caller whose positions do not decrease: a step is new or a retry of the last one. *)
Definition in_order (steps : list Step) (step : Step) : Prop :=
  ∃ n, st_seq step = Some n ∧ Forall (λ e, ∃ m, st_seq e = Some m ∧ (m ≤ n)%Z) steps ∧
       ((∃ e, last steps = Some e ∧ st_seq e = Some n) ∨ Forall (λ e, st_seq e ≠ Some n) steps).

Definition newest (cap : nat) {A} (l : list A) : list A := drop (length l - cap) l.

Lemma capped_newest {A} cap (l : list A) : capped cap l = newest cap l.
Proof.
  unfold capped, newest. destruct (cap <? length l)%nat eqn:E; [done|]. apply Nat.ltb_ge in E.
  by replace (length l - cap)%nat with 0%nat by lia.
Qed.

Lemma newest_snoc {A} cap (l : list A) a : (0 < cap)%nat → newest cap (newest cap l ++ [a]) = newest cap (l ++ [a]).
Proof.
  intros Hc. unfold newest. rewrite !length_app, length_drop. cbn [length].
  destruct (decide (length l < cap)%nat).
  - replace (length l - cap)%nat with 0%nat by lia. by rewrite drop_0, Nat.sub_0_r.
  - rewrite !drop_app_le by (rewrite ?length_drop; lia). rewrite drop_drop. do 2 f_equal. lia.
Qed.

Lemma last_newest {A} cap (l : list A) : (0 < cap)%nat → last (newest cap l) = last l.
Proof.
  intros Hc. destruct l as [|x l _] using rev_ind; [done|]. unfold newest. rewrite length_app, drop_app_le by (cbn; lia).
  by rewrite !last_snoc.
Qed.

Lemma length_newest {A} cap (l : list A) : length (newest cap l) = (length l `min` cap)%nat.
Proof. unfold newest. rewrite length_drop. lia. Qed.

Lemma existsb_seq n l : existsb (λ e, bool_decide (st_seq e = Some n)) l = true ↔ Exists (λ e, st_seq e = Some n) l.
Proof.
  rewrite existsb_exists, Exists_exists. split; intros (e & He & Hn); exists e; (split; [by apply list_elem_of_In in He || apply list_elem_of_In|]).
  - by apply bool_decide_eq_true in Hn.
  - by apply bool_decide_eq_true.
Qed.

(** The capped ledger follows the unbounded one. *)
Lemma append_step_newest L step :
  in_order L step →
  append_step (newest STEPS_CAP L) step =
  (newest STEPS_CAP (enter L step),
   (Z.of_nat (length (enter L step) - STEPS_CAP) - Z.of_nat (length L - STEPS_CAP))%Z).
Proof.
  intros (n & Hs & Hle & Hlast). unfold append_step, enter. rewrite Hs.
  destruct Hlast as [(e & Hl & He)|Hnew].
  - assert (Hin : ∀ l, last l = Some e → existsb (λ e, bool_decide (st_seq e = Some n)) l = true).
    { intros l Hl'. apply existsb_seq. apply Exists_exists. exists e. split; [by apply last_Some_elem_of|done]. }
    rewrite (Hin L Hl). rewrite (Hin (newest STEPS_CAP L)); [|rewrite last_newest by (unfold STEPS_CAP; lia); done].
    f_equal. lia.
  - assert (Hno : ∀ l, Forall (λ e, st_seq e ≠ Some n) l → existsb (λ e, bool_decide (st_seq e = Some n)) l = false).
    { intros l Hl. apply not_true_iff_false. rewrite existsb_seq. intros Hex. apply Exists_exists in Hex as (x & Hx & Hn).
      rewrite Forall_forall in Hl. by apply (Hl x). }
    rewrite (Hno L Hnew), (Hno (newest STEPS_CAP L)) by (by apply Forall_drop).
    rewrite capped_newest, newest_snoc by (unfold STEPS_CAP; lia). f_equal.
    rewrite !length_app, length_newest. cbn [length]. unfold STEPS_CAP. lia.
Qed.

(** ** The record as a summary of the reports *)

(** The state changes, with the times they were reported at. *)
Fixpoint phase_timeline (prev : option AgentRunState) (rs : list Report) : list (AgentRunState * Z) :=
  match rs with
  | [] => []
  | r :: rs' =>
      if bool_decide (prev = Some (rp_state r)) then phase_timeline prev rs'
      else (rp_state r, rp_at r) :: phase_timeline (Some (rp_state r)) rs'
  end.

Definition ledger (rs : list Report) : list Step :=
  foldl (λ L r, match rp_step r with Some step => enter L step | None => L end) [] rs.

(** The newest value any report carried. *)
Definition last_given {A} (f : Report → option A) (rs : list Report) : option A := last (omap f rs).

(** What a row should say after these reports, the last of which is [r]. *)
Definition summary (started : Z) (id tenant account : uuid) (rs : list Report) (r : Report) : AgentRun :=
  let all := rs ++ [r] in
  mkRun id tenant (last_given rp_alert_id all) account (last_given rp_label all) (rp_state r) (phase_timeline None all)
    (rp_current_hypothesis r) (rp_last_step r) (default [] (last_given rp_hypotheses all)) (last_given rp_plan all)
    (last_given rp_verification all) (newest VERIFICATIONS_CAP (omap rp_verification all))
    (newest STEPS_CAP (ledger all)) (Z.of_nat (length (ledger all) - STEPS_CAP)) (last_given rp_budget all) None started
    (if terminal_run_state (rp_state r) then Some (rp_at r) else None).

(** The calls in order, each with the database's clock. *)
Fixpoint report_all (tenant account : uuid) (calls : list (Z * Report)) (s : RunStore) : result run_error RunStore :=
  match calls with
  | [] => Ok s
  | (now, r) :: calls' => '(_, s) ← report_run now tenant account r s; report_all tenant account calls' s
  end.

Lemma report_all_snoc tenant account calls now r s :
  report_all tenant account (calls ++ [(now, r)]) s =
  s ← report_all tenant account calls s; '(_, s) ← report_run now tenant account r s; Ok s.
Proof.
  revert s. induction calls as [|[now' r'] calls IH]; intros s; cbn.
  - by destruct (report_run now tenant account r s) as [[]|].
  - destruct (report_run now' tenant account r' s) as [[o s1]|]; [|done]. cbn. apply IH.
Qed.

Lemma omap_snoc {A B} (f : A → option B) l a : omap f (l ++ [a]) = omap f l ++ option_list (f a).
Proof. rewrite omap_app. cbn. by destruct (f a). Qed.

Lemma last_given_snoc {A} (f : Report → option A) rs r : last_given f (rs ++ [r]) = union (f r) (last_given f rs).
Proof.
  unfold last_given. rewrite omap_snoc. destruct (f r); cbn [option_list option_rect]; [by rewrite last_snoc; destruct (last _)|].
  rewrite app_nil_r. by destruct (last _).
Qed.

Lemma ledger_snoc rs r :
  ledger (rs ++ [r]) = match rp_step r with Some step => enter (ledger rs) step | None => ledger rs end.
Proof. unfold ledger. by rewrite foldl_app. Qed.

Lemma timeline_snoc prev rs r :
  phase_timeline prev (rs ++ [r]) =
  phase_timeline prev rs ++ (if bool_decide (union (rp_state <$> last rs) prev = Some (rp_state r)) then [] else [(rp_state r, rp_at r)]).
Proof.
  revert prev. induction rs as [|r0 rs IH]; intros prev; cbn [app phase_timeline].
  - cbn. rewrite option_union_left_id || destruct prev; by case_bool_decide.
  - assert (E : ∀ p, union (rp_state <$> last (r0 :: rs)) p = union (rp_state <$> last rs) (Some (rp_state r0))).
    { intros p. rewrite last_cons. by destruct (last rs), p. }
    rewrite !E. case_bool_decide as Hp; rewrite IH; [|done]. by rewrite Hp.
Qed.

Lemma timeline_open rs r r' :
  phase_timeline None ((rs ++ [r]) ++ [r']) =
  if negb (bool_decide (rp_state r = rp_state r')) then phase_timeline None (rs ++ [r]) ++ [(rp_state r', rp_at r')]
  else phase_timeline None (rs ++ [r]).
Proof.
  rewrite (timeline_snoc None (rs ++ [r])), last_snoc. cbn [fmap option_fmap option_map].
  change (union (Some (rp_state r)) None) with (Some (rp_state r)).
  destruct (decide (rp_state r = rp_state r')) as [E|E].
  - rewrite !bool_decide_true by congruence. cbn. by rewrite app_nil_r.
  - by rewrite !bool_decide_false by congruence.
Qed.

(** One more report on an open run. *)
Lemma summary_later started id tenant account rs r r' :
  terminal_run_state (rp_state r) = false →
  (∀ step, rp_step r' = Some step → in_order (ledger (rs ++ [r])) step) →
  later_report r' (summary started id tenant account rs r) = summary started id tenant account (rs ++ [r]) r'.
Proof.
  intros Hopen Hord. unfold later_report, summary. cbn [ar_state ar_steps].
  assert (Hsteps : (match rp_step r' with
                    | Some step => append_step (newest STEPS_CAP (ledger (rs ++ [r]))) step
                    | None => (newest STEPS_CAP (ledger (rs ++ [r])), 0%Z)
                    end) =
                   (newest STEPS_CAP (ledger ((rs ++ [r]) ++ [r'])),
                    (Z.of_nat (length (ledger ((rs ++ [r]) ++ [r'])) - STEPS_CAP) -
                     Z.of_nat (length (ledger (rs ++ [r])) - STEPS_CAP))%Z)).
  { rewrite (ledger_snoc (rs ++ [r])). destruct (rp_step r') as [step|]; [apply append_step_newest; by apply Hord|].
    f_equal. lia. }
  rewrite Hsteps. rewrite timeline_open, !(last_given_snoc _ (rs ++ [r])), (omap_snoc _ (rs ++ [r])).
  rewrite Hopen. cbn. f_equal.
  - by destruct (rp_hypotheses r'), (last_given rp_hypotheses (rs ++ [r])).
  - destruct (rp_verification r') as [v|]; cbn [option_list option_rect]; [|by rewrite app_nil_r].
    by rewrite capped_newest, newest_snoc by (unfold VERIFICATIONS_CAP; lia).
  - lia.
Qed.

Lemma summary_first started tenant account r :
  first_report started tenant account r = summary started (rp_run_id r) tenant account [] r.
Proof.
  unfold first_report, summary. cbn [app phase_timeline].
  rewrite bool_decide_false by done. unfold last_given, ledger, newest. cbn.
  destruct (rp_alert_id r), (rp_label r), (rp_hypotheses r), (rp_plan r), (rp_verification r), (rp_step r), (rp_budget r); done.
Qed.

(** Every step is new or a retry of the newest one. *)
Definition orderly (rs : list Report) : Prop :=
  ∀ pre r post step, rs = pre ++ r :: post → rp_step r = Some step → in_order (ledger pre) step.

Definition first_clock (calls : list (Z * Report)) (now : Z) : Z :=
  match calls with [] => now | c :: _ => c.1 end.

Lemma orderly_prefix rs rs' : orderly (rs ++ rs') → orderly rs.
Proof. intros Ho pre r post step -> Hs. apply (Ho pre r (post ++ rs') step); [|done]. by rewrite <- app_assoc. Qed.

(** Whatever the calls of one open run carry, the row is their summary: the timeline
    holds the state changes and nothing else, the columns hold the newest value given, the
    ledger holds the newest 200 of the distinct steps and [steps_dropped] counts the rest. *)
Theorem run_record_exact tenant account id calls now r s :
  rs_runs s !! id = None →
  Forall (λ c, rp_run_id c.2 = id ∧ alert_known s (rp_alert_id c.2) = true) (calls ++ [(now, r)]) →
  Forall (λ c, terminal_run_state (rp_state c.2) = false) calls →
  orderly ((calls ++ [(now, r)]).*2) →
  report_all tenant account (calls ++ [(now, r)]) s =
  Ok (mkRunStore (<[id := summary (first_clock calls now) id tenant account (calls.*2) r]> (rs_runs s)) (rs_alerts s)).
Proof.
  intros Hnone. revert now r. induction calls as [|[now0 r0] calls IH] using rev_ind; intros now r Hids Hopen Hord.
  - apply Forall_singleton in Hids as [Hid Ha]. cbn in *. unfold report_run, get_run. rewrite Hid, Hnone. cbn.
    rewrite Ha. cbn. unfold put_run. rewrite summary_first. cbn. by rewrite Hid.
  - apply Forall_app in Hids as [Hids0 Hid]. apply Forall_singleton in Hid as [Hid Ha].
    apply Forall_app in Hopen as [Hopen0 Hopen]. rewrite Forall_singleton in Hopen.
    change (terminal_run_state (rp_state r0) = false) in Hopen. cbn [snd] in *.
    rewrite report_all_snoc, (IH now0 r0 Hids0 Hopen0); [|rewrite fmap_app in Hord; by apply orderly_prefix in Hord].
    cbn [mbind result_mbind].
    set (row := summary (first_clock calls now0) id tenant account (calls.*2) r0).
    assert (Hg : get_run (rp_run_id r) tenant (mkRunStore (<[id := row]> (rs_runs s)) (rs_alerts s)) = Some row).
    { unfold get_run. cbn [rs_runs]. rewrite Hid, lookup_insert_eq. cbn. destruct (bool_decide (tenant = tenant)) eqn:E; [done|]. by apply bool_decide_eq_false in E. }
    unfold report_run. rewrite Hg. unfold row at 1. cbn [ar_finished_at summary]. rewrite Hopen.
    change (alert_known _ _) with (alert_known s (rp_alert_id r)). rewrite Ha. cbn [negb mbind result_mbind].
    assert (Hrow : later_report r row = summary (first_clock (calls ++ [(now0, r0)]) now) id tenant account ((calls ++ [(now0, r0)]).*2) r).
    { unfold row. rewrite summary_later; [by rewrite fmap_app; destruct calls|done|].
      intros step Hs. apply (Hord _ r [] step); [|done]. by rewrite !fmap_app. }
    unfold put_run. rewrite Hrow. cbn [rs_runs rs_alerts ar_id summary]. by rewrite insert_insert_eq.
Qed.

(** ** Closed runs *)

Inductive run_call : Type :=
  | CallReport (now : Z) (tenant account : uuid) (r : Report)
  | CallBriefing (run_id tenant : uuid) (briefing : dict) (prose : option string) (at_ : Z).

(** A call that is refused leaves the store as it was. *)
Definition call_step (s : RunStore) (c : run_call) : RunStore :=
  match c with
  | CallReport now tenant account r => match report_run now tenant account r s with Ok (_, s') => s' | Err _ => s end
  | CallBriefing run_id tenant b prose at_ => match report_briefing run_id tenant b prose at_ s with Ok (_, s') => s' | Err _ => s end
  end.

Definition with_briefing (b : option dict) (run : AgentRun) : AgentRun :=
  mkRun (ar_id run) (ar_tenant_id run) (ar_alert_id run) (ar_service_account_id run) (ar_scenario run) (ar_state run)
    (ar_phase_history run) (ar_current_hypothesis run) (ar_last_step run) (ar_hypotheses run) (ar_plan run)
    (ar_verification run) (ar_verifications run) (ar_steps run) (ar_steps_dropped run) (ar_budget run) b
    (ar_started_at run) (ar_finished_at run).

(** The rows are stored under their ids. *)
Definition runs_keyed (s : RunStore) : Prop := ∀ i run, rs_runs s !! i = Some run → ar_id run = i.

(** A closed row afterwards: itself, with a write-up that is set at most once. *)
Definition closed_as (run run' : AgentRun) : Prop :=
  run' = with_briefing (ar_briefing run') run ∧ (ar_briefing run = None ∨ ar_briefing run' = ar_briefing run).

Lemma put_run_lookup r s i : rs_runs (put_run r s) !! i = if decide (ar_id r = i) then Some r else rs_runs s !! i.
Proof. unfold put_run. cbn. case_decide as E; [by rewrite <- E, lookup_insert_eq|by rewrite lookup_insert_ne]. Qed.

Lemma get_run_some i tenant s run : get_run i tenant s = Some run → rs_runs s !! i = Some run ∧ ar_tenant_id run = tenant.
Proof.
  unfold get_run. destruct (rs_runs s !! i) as [r|]; [|done]. cbn. case_bool_decide; [|done]. by intros [= <-].
Qed.

Lemma call_step_keyed s c : runs_keyed s → runs_keyed (call_step s c).
Proof.
  intros Hk. assert (Hput : ∀ r, runs_keyed (put_run r s)).
  { intros r i run. rewrite put_run_lookup. case_decide; [by intros [= <-]|apply Hk]. }
  destruct c as [now tenant account r|i tenant b prose at_]; cbn [call_step].
  - unfold report_run. destruct (get_run _ _ _) as [run|].
    + destruct (ar_finished_at run); [done|]. destruct (negb _); [done|apply Hput].
    + destruct (_ || _); [done|apply Hput].
  - unfold report_briefing. destruct (get_run _ _ _) as [run|]; [|done]. destruct (ar_briefing run); [done|apply Hput].
Qed.

Lemma call_step_closed s c i run :
  runs_keyed s → rs_runs s !! i = Some run → is_Some (ar_finished_at run) →
  ∃ run', rs_runs (call_step s c) !! i = Some run' ∧ closed_as run run'.
Proof.
  intros Hk Hi [t Hf]. assert (Hself : closed_as run run) by (split; [by destruct run|by right]).
  destruct c as [now tenant account r|j tenant b prose at_]; cbn [call_step].
  - unfold report_run. destruct (get_run _ _ _) as [run0|] eqn:Hg.
    + apply get_run_some in Hg as [Hg _]. destruct (ar_finished_at run0) eqn:E; [by exists run|].
      destruct (negb _); [by exists run|]. exists run. split; [|done]. rewrite put_run_lookup.
      assert (Hid : ar_id (later_report r run0) = rp_run_id r).
      { rewrite <- (Hk _ _ Hg). unfold later_report. by destruct (match rp_step r with Some _ => _ | None => _ end). }
      rewrite Hid. case_decide as Hd; [|done]. rewrite Hd in Hg. congruence.
    + destruct (bool_decide _) eqn:Hb; cbn [orb]; [by exists run|]. destruct (negb _); [by exists run|].
      exists run. split; [|done]. rewrite put_run_lookup. case_decide as Hd; [|done].
      apply bool_decide_eq_false in Hb. change (ar_id _) with (rp_run_id r) in Hd. rewrite Hd, Hi in Hb. by destruct Hb.
  - unfold report_briefing. destruct (get_run _ _ _) as [run0|] eqn:Hg; [|by exists run].
    apply get_run_some in Hg as [Hg _]. destruct (ar_briefing run0) eqn:Eb; [by exists run|].
    rewrite put_run_lookup. cbn [ar_id]. rewrite (Hk _ _ Hg). case_decide as Hd; [|by exists run].
    subst j. rewrite Hi in Hg. injection Hg as <-. eexists. split; [done|]. split; [|by left].
    unfold with_briefing. cbn [ar_briefing]. rewrite Hf, (Hk i run Hi). reflexivity.
Qed.

Lemma closed_as_trans r1 r2 r3 : closed_as r1 r2 → closed_as r2 r3 → closed_as r1 r3.
Proof.
  intros [E12 B12] [E23 B23]. split.
  - rewrite E23. rewrite E12. done.
  - destruct B12 as [?|B12]; [by left|]. destruct B23 as [B23|B23]; [left; congruence|right; congruence].
Qed.

(** A closed run is frozen: whatever is called afterwards, by whomever, its row keeps
    every column but the write-up, which is set at most once, and further reports on it
    are refused. *)
Theorem closed_run_is_frozen s i run calls :
  runs_keyed s → rs_runs s !! i = Some run → is_Some (ar_finished_at run) →
  let s' := foldl call_step s calls in
  (∃ run', rs_runs s' !! i = Some run' ∧ closed_as run run') ∧
  ∀ now account r, rp_run_id r = i → report_run now (ar_tenant_id run) account r s' = Err AgentRunAlreadyFinished.
Proof.
  intros Hk Hi Hf s'.
  assert (H : ∃ run', rs_runs s' !! i = Some run' ∧ closed_as run run').
  { unfold s'. clear s'. revert s run Hk Hi Hf. induction calls as [|c calls IH]; intros s run Hk Hi Hf.
    { exists run. split; [done|]. split; [by destruct run|by right]. }
    destruct (call_step_closed s c i run Hk Hi Hf) as (run1 & H1 & C1). cbn [foldl].
    destruct (IH (call_step s c) run1) as (run2 & H2 & C2); [by apply call_step_keyed|done| |].
    { destruct C1 as [-> _]. exact Hf. }
    exists run2. split; [done|]. by eapply closed_as_trans. }
  split; [exact H|]. destruct H as (run' & H' & [E _]). intros now account r <-.
  unfold report_run, get_run. rewrite H'. cbn. rewrite E. cbn [ar_tenant_id with_briefing].
  rewrite bool_decide_true by done. cbn [ar_finished_at with_briefing]. by destruct Hf as [t ->].
Qed.

Module RunExample.

Definition no_runs : RunStore := mkRunStore ∅ ∅.
Definition run_id : uuid := 7%N.
Definition tenant : uuid := 900%N.
Definition account : uuid := 902%N.

Definition report (st : AgentRunState) (at_ : Z) (v : option dict) (step : option Z) : Report :=
  mkReport run_id st at_ None None None None None None v ((λ n, mkStep (Some n) []) <$> step) None.

(** Step 1 is reported, retried in the next state, then step 2 closes the run. *)
Definition calls : list (Z * Report) :=
  [(100, report TRIAGE 90 None (Some 1)); (110, report INVESTIGATING 105 None (Some 1))]%Z.
Definition closing : Report := report RESOLVED 120 None (Some 2%Z).

Definition closed_run : AgentRun := summary 100 run_id tenant account (calls.*2) closing.

Lemma calls_orderly : orderly ((calls ++ [(130%Z, closing)]).*2).
Proof.
  intros pre r post step E Hs. destruct pre as [|r1 [|r2 [|r3 pre]]]; cbn in E; injection E; intros; subst; cbn in Hs; try injection Hs as <-.
  - exists 1%Z. repeat split; [constructor|by right].
  - exists 1%Z. split; [done|]. split; [repeat constructor; exists 1%Z; split; [done|lia]|]. left. by eexists.
  - exists 2%Z. split; [done|]. split; [repeat constructor; exists 1%Z; split; [done|lia]|]. right. repeat constructor. discriminate.
  - by destruct pre.
Qed.

Lemma run_record_exact_witness :
  report_all tenant account (calls ++ [(130%Z, closing)]) no_runs =
    Ok (mkRunStore (<[run_id := closed_run]> (rs_runs no_runs)) (rs_alerts no_runs)) ∧
  ar_phase_history closed_run = [(TRIAGE, 90); (INVESTIGATING, 105); (RESOLVED, 120)]%Z ∧
  st_seq <$> ar_steps closed_run = [Some 1; Some 2]%Z.
Proof.
  split; [|split; vm_compute; reflexivity].
  apply (run_record_exact tenant account run_id calls 130 closing no_runs).
  - reflexivity.
  - repeat constructor.
  - repeat constructor.
  - exact calls_orderly.
Defined.

(** The closed run, a late report and two write-ups. *)
Definition closed_store : RunStore := put_run closed_run no_runs.
Definition late_calls : list run_call :=
  [CallReport 140 tenant account (report TRIAGE 135 None (Some 3%Z)); CallBriefing run_id tenant [] (Some "first") 150;
   CallBriefing run_id tenant [] (Some "second") 160].

Lemma closed_run_is_frozen_witness :
  (∃ run', rs_runs (foldl call_step closed_store late_calls) !! run_id = Some run' ∧ closed_as closed_run run') ∧
  report_run 170 tenant account closing (foldl call_step closed_store late_calls) = Err AgentRunAlreadyFinished.
Proof.
  destruct (closed_run_is_frozen closed_store run_id closed_run late_calls) as [H1 H2].
  - intros i run. unfold closed_store. rewrite put_run_lookup. case_decide as E; [intros [= <-]; exact E|]. intros [=].
  - reflexivity.
  - by eexists.
  - split; [exact H1|]. exact (H2 170%Z account closing eq_refl).
Defined.

(** 201 steps, the last of which overflows the ledger. *)
Definition many : list (Z * Report) := (λ n, (Z.of_nat n, report INVESTIGATING 0 None (Some (Z.of_nat n)))) <$> seq 0 201.
Definition last_row (r : result run_error RunStore) : option AgentRun :=
  match r with Ok s => rs_runs s !! run_id | Err _ => None end.

(** Not every report is safe to retry: a verdict sent twice is stored twice, and a step
    sent again after the cap discarded it is entered and counted a second time. *)
Theorem retries_counted_twice :
  let verdict := (10%Z, report VERIFYING 5 (Some [("verdict", JStr "verified")]) None) in
  length ∘ ar_verifications <$> last_row (report_all tenant account [verdict; verdict] no_runs) = Some 2%nat ∧
  (λ r, (length (ar_steps r), ar_steps_dropped r)) <$> last_row (report_all tenant account many no_runs) = Some (200%nat, 1%Z) ∧
  (λ r, (length (ar_steps r), ar_steps_dropped r)) <$>
    last_row (report_all tenant account (many ++ [(300%Z, report INVESTIGATING 0 None (Some 0%Z))]) no_runs) = Some (200%nat, 2%Z).
Proof. vm_compute. repeat split; reflexivity. Qed.
End RunExample.
