(* ===== verification/Accounts.v ===== *)
(** * Service accounts and their tokens (services/service_account.py, core/scopes.py,
      repositories/service_account.py, api/service_accounts.py, dependencies.py)

    Machine principals: a named account with a set of scopes, bearer tokens of which only
    a hash is stored, the admin endpoints that create, narrow, mint and revoke, and the
    check every machine request goes through. *)
From stdpp Require Import base tactics numbers option list gmap strings sorting.
From Stdlib Require Import ZArith.
From S2P Require Import Prelude PyData Database.

(** ** Scopes *)

Inductive Scope : Type :=
  | TELEMETRY_READ | INCIDENTS_READ | ACTIONS_PROPOSE | ACTIONS_EXECUTE | CHAOS_INVOKE | AGENT_RUNS_WRITE.

Definition scope_value (s : Scope) : string :=
  match s with
  | TELEMETRY_READ => "telemetry:read"
  | INCIDENTS_READ => "incidents:read"
  | ACTIONS_PROPOSE => "actions:propose"
  | ACTIONS_EXECUTE => "actions:execute"
  | CHAOS_INVOKE => "chaos:invoke"
  | AGENT_RUNS_WRITE => "agent_runs:write"
  end.

Definition ALL_SCOPES : list string :=
  scope_value <$> [TELEMETRY_READ; INCIDENTS_READ; ACTIONS_PROPOSE; ACTIONS_EXECUTE; CHAOS_INVOKE; AGENT_RUNS_WRITE].
Definition API_GRANTABLE_SCOPES : list string := filter (λ s, s ≠ scope_value CHAOS_INVOKE) ALL_SCOPES.

(** [validate_scopes]: every scope is known. *)
Definition validate_scopes (scopes : list string) : bool := forallb (λ s, bool_decide (s ∈ ALL_SCOPES)) scopes.

(** [assert_api_grantable]. *)
Definition assert_api_grantable (chaos_enabled : bool) (scopes : option (list string)) : bool :=
  match scopes with
  | None | Some [] => true
  | Some scopes =>
      chaos_enabled || forallb (λ s, negb (bool_decide (s ∈ ALL_SCOPES ∧ s ∉ API_GRANTABLE_SCOPES))) scopes
  end.

(** ** Data *)

Record ServiceAccount := mkAccount {
  sa_id : uuid;
  sa_tenant_id : uuid;
  sa_name : string;
  sa_scopes : list string;
  sa_is_active : bool;
  sa_created_by : option uuid
}.

Record ServiceAccountToken := mkToken {
  tk_id : uuid;
  tk_account_id : uuid;
  tk_hash : string;
  tk_scopes : list string;
  tk_expires_at : option Z;
  tk_revoked_at : option Z;
  tk_last_used_at : option Z;
  tk_created_at : Z
}.

Record AccountAudit := mkAccountAudit {
  aa_action : string;
  aa_user_id : option uuid;
  aa_tenant_id : uuid;
  aa_resource_type : string;
  aa_resource_id : uuid;
  aa_extra : dict
}.

Record AccountStore := mkAccounts {
  ac_accounts : gmap uuid ServiceAccount;
  ac_tokens : gmap uuid ServiceAccountToken;
  ac_audit : list AccountAudit;
  ac_draws : N
}.

Inductive auth_failure : Type :=
  | NotAServiceToken | InvalidToken | TokenRevoked | TokenExpired | AccountMissing | AccountDisabled.

Inductive account_error : Type :=
  | AccountForbidden  (** [AuthorizationError] *)
  | AccountConflict
  | AccountNotFound
  | AccountIntegrity  (** a unique constraint *)
  | AccountRequestInvalid  (** the request model refuses *)
  | AuthenticationFailed (why : auth_failure).

Definition with_account (a : ServiceAccount) (s : AccountStore) : AccountStore :=
  mkAccounts (<[sa_id a := a]> (ac_accounts s)) (ac_tokens s) (ac_audit s) (ac_draws s).
Definition with_token (k : ServiceAccountToken) (s : AccountStore) : AccountStore :=
  mkAccounts (ac_accounts s) (<[tk_id k := k]> (ac_tokens s)) (ac_audit s) (ac_draws s).
Definition log_account (a : AccountAudit) (s : AccountStore) : AccountStore :=
  mkAccounts (ac_accounts s) (ac_tokens s) (ac_audit s ++ [a]) (ac_draws s).
Definition drawn (s : AccountStore) : AccountStore :=
  mkAccounts (ac_accounts s) (ac_tokens s) (ac_audit s) (ac_draws s + 1).

(** ** Repositories *)

(** [get_by_name]. *)
Definition account_by_name (tenant : uuid) (name : string) (s : AccountStore) : option ServiceAccount :=
  head (filter (λ a, sa_tenant_id a = tenant ∧ sa_name a = name) ((map_to_list (ac_accounts s)).*2)).

(** [get_by_hash]; the hash is unique. *)
Definition token_by_hash (h : string) (s : AccountStore) : option ServiceAccountToken :=
  head (filter (λ k, tk_hash k = h) ((map_to_list (ac_tokens s)).*2)).

Definition token_newer (a b : ServiceAccountToken) : Prop :=
  (tk_created_at b < tk_created_at a)%Z ∨ (tk_created_at a = tk_created_at b ∧ (tk_id b ≤ tk_id a)%N).
#[export] Instance token_newer_dec : RelDecision token_newer.
Proof. intros a b. unfold token_newer. apply _. Defined.

(** [list_for_service_account]. *)
Definition list_tokens (account : uuid) (s : AccountStore) : list ServiceAccountToken :=
  merge_sort token_newer (filter (λ k, tk_account_id k = account) ((map_to_list (ac_tokens s)).*2)).

(** ** Service *)

Definition TOKEN_PREFIX : string := "sa_".
Definition DEFAULT_TOKEN_TTL : Z := 90 * 86400 * 1000000.

Definition looks_like_service_account_token (value : string) : bool := String.prefix TOKEN_PREFIX value.

Definition jscopes (scopes : list string) : json := JList (JStr <$> scopes).

Section Service.
(** [sha256], and [secrets.token_urlsafe] as an argument of the mint. *)
Context `{UuidSource} (sha256_hex : string → string).

(** [create_service_account]. *)
Definition create_service_account (tenant : uuid) (name : string) (scopes : list string) (by_user : option uuid) (s : AccountStore)
    : result account_error (ServiceAccount * AccountStore) :=
  if negb (validate_scopes scopes) then Err AccountForbidden
  else
    match account_by_name tenant name s with
    | Some _ => Err AccountConflict
    | None =>
        let a := mkAccount (uuid4 (ac_draws s)) tenant name scopes true by_user in
        Ok (a, log_account (mkAccountAudit "service_account.created" by_user tenant "service_account" (sa_id a)
                              [("name", JStr name); ("scopes", jscopes scopes)]) (with_account a (drawn s)))
    end.

(** [update_scopes]: an unchanged set writes nothing. *)
Definition update_scopes (a : ServiceAccount) (scopes : list string) (by_user : option uuid) (s : AccountStore)
    : result account_error (ServiceAccount * AccountStore) :=
  if negb (validate_scopes scopes) then Err AccountForbidden
  else if bool_decide (merge_sort string_le (sa_scopes a) = merge_sort string_le scopes) then Ok (a, s)
  else
    let a' := mkAccount (sa_id a) (sa_tenant_id a) (sa_name a) scopes (sa_is_active a) (sa_created_by a) in
    Ok (a', log_account (mkAccountAudit "service_account.scopes_updated" by_user (sa_tenant_id a) "service_account" (sa_id a)
                           [("sa_name", JStr (sa_name a)); ("scopes_before", jscopes (sa_scopes a)); ("scopes_after", jscopes scopes)])
             (with_account a' s)).

(** [mint_token]: the row and the plaintext, once. *)
Definition mint_token (now : Z) (random : string) (a : ServiceAccount) (scopes : option (list string)) (ttl : option Z)
    (by_user : option uuid) (s : AccountStore) : result account_error (ServiceAccountToken * string * AccountStore) :=
  if negb (sa_is_active a) then Err AccountForbidden
  else
    let requested := default (sa_scopes a) scopes in
    if negb (validate_scopes requested) then Err AccountForbidden
    else if negb (forallb (λ x, bool_decide (x ∈ sa_scopes a)) requested) then Err AccountForbidden
    else
      let plaintext := TOKEN_PREFIX +:+ random in
      let h := sha256_hex plaintext in
      let expires := (now + default DEFAULT_TOKEN_TTL ttl)%Z in
      match token_by_hash h s with
      | Some _ => Err AccountIntegrity
      | None =>
          let k := mkToken (uuid4 (ac_draws s)) (sa_id a) h requested (Some expires) None None now in
          Ok (k, plaintext,
              log_account (mkAccountAudit "service_account.token_minted" by_user (sa_tenant_id a) "service_account_token" (tk_id k)
                             [("service_account_id", juuid (sa_id a)); ("scopes", jscopes requested);
                              ("expires_at", JStr (isoformat expires))]) (with_token k (drawn s)))
      end.

(** [revoke_token]. *)
Definition revoke_token (now : Z) (a : ServiceAccount) (token_id : uuid) (by_user : option uuid) (s : AccountStore)
    : result account_error (ServiceAccountToken * AccountStore) :=
  match ac_tokens s !! token_id with
  | None => Err AccountNotFound
  | Some k =>
      if negb (bool_decide (tk_account_id k = sa_id a)) then Err AccountNotFound
      else
        match tk_revoked_at k with
        | Some _ => Ok (k, s)
        | None =>
            let k' := mkToken (tk_id k) (tk_account_id k) (tk_hash k) (tk_scopes k) (tk_expires_at k) (Some now)
                        (tk_last_used_at k) (tk_created_at k) in
            Ok (k', log_account (mkAccountAudit "service_account.token_revoked" by_user (sa_tenant_id a) "service_account_token"
                                   (tk_id k) [("service_account_id", juuid (sa_id a))]) (with_token k' s))
        end
  end.

(** [verify_token]; the last use is recorded on success. *)
Definition verify_token (now : Z) (plaintext : string) (s : AccountStore)
    : result account_error (ServiceAccount * ServiceAccountToken * AccountStore) :=
  if negb (looks_like_service_account_token plaintext) then Err (AuthenticationFailed NotAServiceToken)
  else
    match token_by_hash (sha256_hex plaintext) s with
    | None => Err (AuthenticationFailed InvalidToken)
    | Some k =>
        match tk_revoked_at k with
        | Some _ => Err (AuthenticationFailed TokenRevoked)
        | None =>
            if match tk_expires_at k with Some e => (e <? now)%Z | None => false end then Err (AuthenticationFailed TokenExpired)
            else
              match ac_accounts s !! tk_account_id k with
              | None => Err (AuthenticationFailed AccountMissing)
              | Some a =>
                  if negb (sa_is_active a) then Err (AuthenticationFailed AccountDisabled)
                  else
                    let k' := mkToken (tk_id k) (tk_account_id k) (tk_hash k) (tk_scopes k) (tk_expires_at k) (tk_revoked_at k)
                                (Some now) (tk_created_at k) in
                    Ok (a, k', with_token k' s)
              end
        end
    end.

(** ** Principals *)

(** The machine half of [get_current_principal]. *)
Record MachinePrincipal := mkPrincipal { pr_tenant_id : uuid; pr_account : ServiceAccount; pr_scopes : list string }.

Definition get_machine_principal (now : Z) (bearer : string) (s : AccountStore)
    : result account_error (MachinePrincipal * AccountStore) :=
  match verify_token now bearer s with
  | Err e => Err e
  | Ok (a, k, s) => Ok (mkPrincipal (sa_tenant_id a) a (tk_scopes k), s)
  end.

(** [require_scope], of a machine principal. *)
Definition require_scope (required : list Scope) (p : MachinePrincipal) : bool :=
  forallb (λ r, bool_decide (scope_value r ∈ pr_scopes p)) required.

(** ** The admin endpoints *)

Record AdminUser := mkAdmin { ad_id : uuid; ad_tenant_id : uuid; ad_platform_admin : bool }.

(** [resolve_admin_tenant]. *)
Definition resolve_admin_tenant (u : AdminUser) (requested : option uuid) : uuid :=
  match requested with
  | Some t => if ad_platform_admin u then t else ad_tenant_id u
  | None => ad_tenant_id u
  end.

(** The account an endpoint's path names, in the effective tenant. *)
Definition path_account (u : AdminUser) (tenant : option uuid) (id : uuid) (s : AccountStore) : result account_error ServiceAccount :=
  match ac_accounts s !! id with
  | Some a => if bool_decide (sa_tenant_id a = resolve_admin_tenant u tenant) then Ok a else Err AccountNotFound
  | None => Err AccountNotFound
  end.

Section Endpoints.
Context (chaos_enabled : bool) (now : Z) (u : AdminUser).

(** [POST /admin/service-accounts]. *)
Definition post_account (tenant : option uuid) (name : string) (scopes : list string) (s : AccountStore) : result account_error AccountStore :=
  if negb (ad_platform_admin u) then Err AccountForbidden
  else if (String.length name =? 0)%nat || (128 <? String.length name)%nat then Err AccountRequestInvalid
  else if negb (assert_api_grantable chaos_enabled (Some scopes)) then Err AccountForbidden
  else '(_, s) ← create_service_account (resolve_admin_tenant u tenant) name scopes (Some (ad_id u)) s; Ok s.

(** [PATCH /admin/service-accounts/{id}]. *)
Definition patch_account (tenant : option uuid) (id : uuid) (scopes : list string) (s : AccountStore) : result account_error AccountStore :=
  if negb (ad_platform_admin u) then Err AccountForbidden
  else if negb (assert_api_grantable chaos_enabled (Some scopes)) then Err AccountForbidden
  else a ← path_account u tenant id s; '(_, s) ← update_scopes a scopes (Some (ad_id u)) s; Ok s.

(** [POST /admin/service-accounts/{id}/tokens]. *)
Definition post_token (tenant : option uuid) (id : uuid) (random : string) (scopes : option (list string)) (ttl_days : option Z)
    (s : AccountStore) : result account_error AccountStore :=
  if negb (ad_platform_admin u) then Err AccountForbidden
  else if match ttl_days with Some d => (d <? 1)%Z || (365 <? d)%Z | None => false end then Err AccountRequestInvalid
  else if negb (assert_api_grantable chaos_enabled scopes) then Err AccountForbidden
  else
    a ← path_account u tenant id s;
    '(_, s) ← mint_token now random a scopes ((λ d, d * 86400 * 1000000)%Z <$> ttl_days) (Some (ad_id u)) s; Ok s.

(** [DELETE /admin/service-accounts/{id}/tokens/{token}]. *)
Definition delete_token (tenant : option uuid) (id token : uuid) (s : AccountStore) : result account_error AccountStore :=
  if negb (ad_platform_admin u) then Err AccountForbidden
  else a ← path_account u tenant id s; '(_, s) ← revoke_token now a token (Some (ad_id u)) s; Ok s.

Inductive account_request : Type :=
  | PostAccount (tenant : option uuid) (name : string) (scopes : list string)
  | PatchAccount (tenant : option uuid) (id : uuid) (scopes : list string)
  | PostToken (tenant : option uuid) (id : uuid) (random : string) (scopes : option (list string)) (ttl_days : option Z)
  | DeleteToken (tenant : option uuid) (id token : uuid)
  | Present (bearer : string).  (** any request with a machine token *)

(** One request and the store it commits. *)
Definition handle_account_request (q : account_request) (s : AccountStore) : result account_error AccountStore :=
  match q with
  | PostAccount tenant name scopes => post_account tenant name scopes s
  | PatchAccount tenant id scopes => patch_account tenant id scopes s
  | PostToken tenant id random scopes ttl_days => post_token tenant id random scopes ttl_days s
  | DeleteToken tenant id token => delete_token tenant id token s
  | Present bearer => '(_, s) ← get_machine_principal now bearer s; Ok s
  end.
End Endpoints.

(** A refused request rolls back. *)
Definition account_step (chaos_enabled : bool) (s : AccountStore) (c : Z * AdminUser * account_request) : AccountStore :=
  let '(now, u, q) := c in
  match handle_account_request chaos_enabled now u q s with Ok s' => s' | Err _ => s end.
End Service.
