(* ===== verification/AccountsProps.v ===== *)
(** * Properties of the service accounts

    A revoked token stays refused, and the admin endpoints do not grant [chaos:invoke]
    while the chaos gate is closed, except by inheritance. *)
From stdpp Require Import base tactics numbers option list gmap strings sorting.
From Stdlib Require Import ZArith Lia.
From S2P Require Import Prelude PyData Database Accounts.

Section Accounts.
Context `{UuidSource} (sha256_hex : string → string).

(** ** Lookups *)

Lemma filtered_row {A} `{Countable K} (P : A → Prop) `{∀ a, Decision (P a)} (m : gmap K A) a :
  head (filter P ((map_to_list m).*2)) = Some a → P a ∧ ∃ i, m !! i = Some a.
Proof.
  intros Hh. apply head_Some_elem_of in Hh. apply list_elem_of_filter in Hh as [HP Ha]. split; [done|].
  apply list_elem_of_fmap in Ha as ([i a'] & -> & Hi). exists i. by apply elem_of_map_to_list in Hi.
Qed.

Lemma filtered_none {A} `{Countable K} (P : A → Prop) `{∀ a, Decision (P a)} (m : gmap K A) i a :
  head (filter P ((map_to_list m).*2)) = None → m !! i = Some a → ¬ P a.
Proof.
  intros Hh Hi HP. apply head_None in Hh.
  assert (Hin : a ∈ filter P ((map_to_list m).*2)).
  { apply list_elem_of_filter. split; [done|]. apply list_elem_of_fmap. exists (i, a). split; [done|]. by apply elem_of_map_to_list. }
  rewrite Hh in Hin. by apply elem_of_nil in Hin.
Qed.

(** The tokens are stored under their ids, which have been drawn, and no two share a hash. *)
Record tokens_ok (s : AccountStore) : Prop := {
  to_keyed i k : ac_tokens s !! i = Some k → tk_id k = i;
  to_drawn i k : ac_tokens s !! i = Some k → ∃ n, (n < ac_draws s)%N ∧ i = uuid4 n;
  to_hash i j k l : ac_tokens s !! i = Some k → ac_tokens s !! j = Some l → tk_hash k = tk_hash l → i = j
}.

(** How a request may change the tokens. *)
Inductive token_change (s s' : AccountStore) : Prop :=
  | tokens_kept : ac_tokens s' = ac_tokens s → (ac_draws s ≤ ac_draws s')%N → token_change s s'
  | token_minted k :
      ac_tokens s' = <[tk_id k := k]> (ac_tokens s) → tk_id k = uuid4 (ac_draws s) → ac_draws s' = (ac_draws s + 1)%N →
      token_by_hash (tk_hash k) s = None →
      (∃ a, ac_accounts s !! tk_account_id k = Some a ∧ Forall (λ x, x ∈ sa_scopes a) (tk_scopes k)) → token_change s s'
  | token_rewritten k0 k :
      ac_tokens s !! tk_id k = Some k0 → ac_tokens s' = <[tk_id k := k]> (ac_tokens s) → ac_draws s' = ac_draws s →
      tk_hash k = tk_hash k0 → tk_scopes k = tk_scopes k0 →
      (is_Some (tk_revoked_at k0) → tk_revoked_at k = tk_revoked_at k0) → token_change s s'.

(** How it may change the accounts: every new scope set passed the gate. *)
Definition account_change (chaos : bool) (s s' : AccountStore) : Prop :=
  ac_accounts s' = ac_accounts s ∨
  ∃ a, ac_accounts s' = <[sa_id a := a]> (ac_accounts s) ∧ assert_api_grantable chaos (Some (sa_scopes a)) = true.

Definition accounts_keyed (s : AccountStore) : Prop := ∀ i a, ac_accounts s !! i = Some a → sa_id a = i.

Lemma path_account_ok u tenant i s a : path_account u tenant i s = Ok a → ac_accounts s !! i = Some a.
Proof. unfold path_account. destruct (ac_accounts s !! i) as [a'|]; [|done]. case_bool_decide; [|done]. by intros [= <-]. Qed.

Lemma verify_change now bearer s a k s' :
  tokens_ok s → verify_token sha256_hex now bearer s = Ok (a, k, s') →
  token_change s s' ∧ ac_accounts s' = ac_accounts s ∧ ∃ i k0, ac_tokens s !! i = Some k0 ∧ tk_scopes k = tk_scopes k0.
Proof.
  intros Hok. unfold verify_token. destruct (negb _); [done|].
  destruct (token_by_hash _ s) as [k0|] eqn:Hk; [|done]. apply filtered_row in Hk as [_ [i Hi]].
  destruct (tk_revoked_at k0) eqn:Hr; [done|]. destruct (match tk_expires_at k0 with Some _ => _ | None => _ end); [done|].
  destruct (ac_accounts s !! tk_account_id k0) as [a0|]; [|done]. destruct (negb _); [done|]. intros [= <- <- <-].
  split; [|split; [done|by exists i, k0]].
  match goal with |- token_change _ ?s1 => match s1 with context [with_token ?k' s] => apply (token_rewritten s s1 k0 k') end end; try reflexivity; cbn.
  - rewrite (to_keyed s Hok i k0 Hi). exact Hi.
  - intros [? ?]. congruence.
Qed.

Lemma revoke_change now a i by_user s k s' :
  tokens_ok s → revoke_token now a i by_user s = Ok (k, s') → token_change s s' ∧ ac_accounts s' = ac_accounts s.
Proof.
  intros Hok. unfold revoke_token. destruct (ac_tokens s !! i) as [k0|] eqn:Hi; [|done]. destruct (negb _); [done|].
  destruct (tk_revoked_at k0) eqn:Hr; intros [= <- <-].
  - split; [by apply tokens_kept|done].
  - split; [|done]. match goal with |- token_change _ ?s1 => match s1 with context [with_token ?k' s] => apply (token_rewritten s s1 k0 k') end end; try reflexivity; cbn.
    + rewrite (to_keyed s Hok i k0 Hi). exact Hi.
    + intros [? ?]. congruence.
Qed.

Lemma mint_change now random a i scopes ttl by_user s k p s' :
  ac_accounts s !! i = Some a → accounts_keyed s →
  mint_token sha256_hex now random a scopes ttl by_user s = Ok (k, p, s') → token_change s s' ∧ ac_accounts s' = ac_accounts s.
Proof.
  intros Hi Hk. unfold mint_token. destruct (negb _); [done|]. destruct (negb (validate_scopes _)); [done|].
  destruct (forallb _ _) eqn:Hf; [|done]. cbn [negb]. destruct (token_by_hash _ s) eqn:Hh; [done|]. intros [= <- <- <-].
  split; [|done]. eapply token_minted; [reflexivity|reflexivity|reflexivity|exact Hh|]. cbn.
  exists a. rewrite (Hk i a Hi). split; [done|]. apply Forall_forall. intros x Hx.
  rewrite forallb_forall in Hf. apply (bool_decide_eq_true_1 _). apply Hf. by apply list_elem_of_In.
Qed.

(** ** One request *)

Lemma request_change chaos now u q s s' :
  tokens_ok s → accounts_keyed s → handle_account_request sha256_hex chaos now u q s = Ok s' →
  token_change s s' ∧ account_change chaos s s' ∧ accounts_keyed s'.
Proof.
  intros Hok Hk. unfold handle_account_request, post_account, patch_account, post_token, delete_token.
  assert (Hsame : ∀ s1, ac_accounts s1 = ac_accounts s → account_change chaos s s1 ∧ accounts_keyed s1).
  { intros s1 E. split; [by left|]. intros i a. rewrite E. apply Hk. }
  assert (Hput : ∀ a s1, ac_accounts s1 = <[sa_id a := a]> (ac_accounts s) → assert_api_grantable chaos (Some (sa_scopes a)) = true →
    account_change chaos s s1 ∧ accounts_keyed s1).
  { intros a s1 E Hg. split; [right; by exists a|]. intros i b. rewrite E. destruct (decide (sa_id a = i)) as [<-|Hne].
    - rewrite lookup_insert_eq. by intros [= <-].
    - rewrite lookup_insert_ne by done. apply Hk. }
  destruct q as [tenant name scopes|tenant id scopes|tenant id random scopes ttl|tenant id token|bearer].
  - destruct (negb _); [done|]. destruct (_ || _); [done|]. destruct (assert_api_grantable _ _) eqn:Hg; [|done]. cbn [negb].
    unfold create_service_account. destruct (negb (validate_scopes _)); [done|]. destruct (account_by_name _ _ _); [done|].
    cbn. intros [= <-]. split; [apply tokens_kept; [done|cbn; lia]|]. by eapply Hput.
  - destruct (negb _); [done|]. destruct (assert_api_grantable _ _) eqn:Hg; [|done]. cbn [negb].
    destruct (path_account u tenant id s) as [a|]; [|done]. cbn [mbind result_mbind]. unfold update_scopes.
    destruct (negb (validate_scopes _)); [done|].
    case_bool_decide; cbn; intros [= <-]; (split; [apply tokens_kept; [done|cbn; lia]|]); [by apply Hsame|by eapply Hput].
  - destruct (negb _); [done|]. destruct (match ttl with Some _ => _ | None => _ end); [done|]. destruct (negb _); [done|].
    destruct (path_account u tenant id s) as [a|] eqn:Ha; [|done]. apply path_account_ok in Ha. cbn [mbind result_mbind].
    destruct (mint_token _ _ _ _ _ _ _ _) as [[[k p] s1]|] eqn:Hm; [|done]. cbn. intros [= <-].
    destruct (mint_change _ _ _ _ _ _ _ _ _ _ _ Ha Hk Hm) as [Hc Hs]. split; [done|by apply Hsame].
  - destruct (negb _); [done|]. destruct (path_account u tenant id s) as [a|]; [|done]. cbn [mbind result_mbind].
    destruct (revoke_token _ _ _ _ _) as [[k s1]|] eqn:Hm; [|done]. cbn. intros [= <-].
    destruct (revoke_change _ _ _ _ _ _ _ Hok Hm) as [Hc Hs]. split; [done|by apply Hsame].
  - unfold get_machine_principal. destruct (verify_token _ _ _ _) as [[[a k] s1]|] eqn:Hm; [|done]. cbn. intros [= <-].
    destruct (verify_change _ _ _ _ _ _ Hok Hm) as (Hc & Hs & _). split; [done|by apply Hsame].
Qed.

(** A request keeps the invariant of the tokens. *)
Lemma token_change_ok s s' : tokens_ok s → token_change s s' → tokens_ok s'.
Proof.
  intros Hok [Ht Hd|k Ht Hid Hd Hh _|k0 k Hk0 Ht Hd Hh _ _].
  - split; rewrite Ht; [apply Hok| |apply Hok]. intros i k Hi. destruct (to_drawn s Hok i k Hi) as (n & Hn & ->). exists n. split; [lia|done].
  - assert (Hold : ∀ j l, ac_tokens s !! j = Some l → tk_hash l ≠ tk_hash k).
    { intros j l Hj. by apply (filtered_none _ _ _ _ Hh Hj). }
    split; rewrite Ht, ?Hd.
    + intros i l. rewrite lookup_insert_Some. intros [[? <-]|[_ Hi]]; [done|by apply (to_keyed s Hok)].
    + intros i l. rewrite lookup_insert_Some. intros [[<- <-]|[_ Hi]]; [exists (ac_draws s); split; [lia|done]|].
      destruct (to_drawn s Hok i l Hi) as (n & Hn & ->). exists n. split; [lia|done].
    + intros i j l m. rewrite !lookup_insert_Some. intros [[<- <-]|[_ Hi]] [[<- <-]|[_ Hj]] E; [done| | |by apply (to_hash s Hok i j l m)].
      * by destruct (Hold j m Hj).
      * by destruct (Hold i l Hi).
  - split; rewrite Ht, ?Hd.
    + intros i l. rewrite lookup_insert_Some. intros [[? <-]|[_ Hi]]; [done|by apply (to_keyed s Hok)].
    + intros i l. rewrite lookup_insert_Some. intros [[<- <-]|[_ Hi]]; [by apply (to_drawn s Hok _ k0)|by apply (to_drawn s Hok _ l)].
    + intros i j l m. rewrite !lookup_insert_Some. intros [[<- <-]|[_ Hi]] [[<- <-]|[_ Hj]] E; [done| | |by apply (to_hash s Hok i j l m)].
      * apply (to_hash s Hok _ j k0 m); [done|done|congruence].
      * apply (to_hash s Hok i _ l k0); [done|done|congruence].
Qed.

Definition requests (chaos : bool) (cs : list (Z * AdminUser * account_request)) (s : AccountStore) : AccountStore :=
  foldl (account_step sha256_hex chaos) s cs.

(** An invariant of every request is one of every sequence of them. *)
Lemma requests_invariant chaos (I : AccountStore → Prop) cs s :
  (∀ s s', tokens_ok s → accounts_keyed s → token_change s s' → account_change chaos s s' → I s → I s') →
  tokens_ok s → accounts_keyed s → I s →
  tokens_ok (requests chaos cs s) ∧ accounts_keyed (requests chaos cs s) ∧ I (requests chaos cs s).
Proof.
  intros Hstep. revert s. induction cs as [|[[now u] q] cs IH]; intros s Hok Hk HI; [done|].
  cbn [requests foldl account_step]. destruct (handle_account_request _ _ _ _ _ s) as [s'|] eqn:E; [|by apply IH].
  destruct (request_change _ _ _ _ _ _ Hok Hk E) as (Ht & Ha & Hk').
  apply IH; [by eapply token_change_ok|done|by eapply Hstep].
Qed.

(** ** Revocation *)

(** C40: A revoked token stays refused: whatever requests follow, presenting it fails as
    revoked, at any time. *)
Theorem revocation_is_final chaos cs s i k plaintext now :
  tokens_ok s → accounts_keyed s → ac_tokens s !! i = Some k → is_Some (tk_revoked_at k) →
  looks_like_service_account_token plaintext = true → sha256_hex plaintext = tk_hash k →
  verify_token sha256_hex now plaintext (requests chaos cs s) = Err (AuthenticationFailed TokenRevoked).
Proof.
  intros Hok Hk Hi Hr Hp Hh.
  destruct (requests_invariant chaos (λ s, ∃ k', ac_tokens s !! i = Some k' ∧ tk_hash k' = tk_hash k ∧ is_Some (tk_revoked_at k')) cs s)
    as (Hok' & _ & k' & Hi' & Hh' & Hr'); [|done|done|by exists k|].
  - clear. intros s s' Hok _ Hc _ (k' & Hi & Hh & Hr). destruct Hc as [Ht _|k1 Ht Hid _ _ _|k0 k1 Hk0 Ht _ Hh1 _ Hrev]; rewrite Ht.
    + by exists k'.
    + exists k'. rewrite lookup_insert_ne; [done|]. intros <-. destruct (to_drawn s Hok _ _ Hi) as (n & Hn & E).
      rewrite Hid in E. apply (inj uuid4) in E. lia.
    + destruct (decide (tk_id k1 = i)) as [<-|Hne]; [|rewrite lookup_insert_ne by done; by exists k'].
      rewrite Hi in Hk0. injection Hk0 as <-. exists k1. rewrite lookup_insert_eq. split; [done|]. split; [congruence|].
      by rewrite Hrev.
  - unfold verify_token. rewrite Hp. cbn [negb].
    destruct (token_by_hash _ _) as [l|] eqn:Hl.
    + apply filtered_row in Hl as [Hlh [j Hj]].
      assert (Eij : i = j) by (apply (to_hash _ Hok' i j k' l); congruence). subst j. rewrite Hi' in Hj. injection Hj as <-.
      by destruct Hr' as [t ->].
    + by destruct (filtered_none _ _ _ _ Hl Hi'); rewrite Hh', Hh.
Qed.

(** ** The chaos scope *)

Definition chaos_free (s : AccountStore) : Prop :=
  (∀ i a, ac_accounts s !! i = Some a → scope_value CHAOS_INVOKE ∉ sa_scopes a) ∧
  (∀ i k, ac_tokens s !! i = Some k → scope_value CHAOS_INVOKE ∉ tk_scopes k).

Lemma grantable_chaos_free scopes : assert_api_grantable false (Some scopes) = true → scope_value CHAOS_INVOKE ∉ scopes.
Proof.
  destruct scopes as [|x scopes]; [intros _; apply not_elem_of_nil|]. cbn [assert_api_grantable orb]. intros Hf Hin.
  rewrite forallb_forall in Hf. specialize (Hf (scope_value CHAOS_INVOKE) ltac:(by apply list_elem_of_In)).
  apply negb_true_iff, bool_decide_eq_false in Hf. apply Hf. apply (bool_decide_eq_true_1 _). reflexivity.
Qed.

(** While the chaos gate is closed and no account holds [chaos:invoke], no sequence of
    requests to the endpoints produces a principal that passes its check. *)
Theorem api_never_grants_chaos cs s now bearer p s' :
  tokens_ok s → accounts_keyed s → chaos_free s →
  get_machine_principal sha256_hex now bearer (requests false cs s) = Ok (p, s') →
  require_scope [CHAOS_INVOKE] p = false.
Proof.
  intros Hok Hk Hc Hp.
  destruct (requests_invariant false chaos_free cs s) as (Hok' & _ & _ & Hc'); [|done..|].
  - clear. intros s s' Hok _ Ht Ha [Hca Hct]. split.
    + destruct Ha as [->|(a & -> & Hg)]; [done|]. intros i b. rewrite lookup_insert_Some.
      intros [[_ <-]|[_ Hi]]; [by apply grantable_chaos_free|by eapply Hca].
    + destruct Ht as [-> _|k -> _ _ _ (a & Ha' & Hsub)|k0 k Hk0 -> _ _ Hsc _]; [done| |]; intros i l; rewrite lookup_insert_Some.
      * intros [[_ <-]|[_ Hi]]; [|by eapply Hct]. intros Hin. rewrite Forall_forall in Hsub.
        by apply (Hca _ _ Ha'), Hsub.
      * intros [[_ <-]|[_ Hi]]; [|by eapply Hct]. rewrite Hsc. by eapply Hct.
  - unfold get_machine_principal in Hp. destruct (verify_token _ _ _ _) as [[[a k] s1]|] eqn:Hv; [|done]. injection Hp as <- <-.
    destruct (verify_change _ _ _ _ _ _ Hok' Hv) as (_ & _ & i & k0 & Hi & Hs).
    cbn [require_scope forallb pr_scopes]. rewrite Hs, bool_decide_false; [done|]. by eapply Hc'.
Qed.
End Accounts.

Module AccountExample.

Definition hash (s : string) : string := s.
Definition admin : AdminUser := mkAdmin 1%N 900%N true.
Definition no_accounts : AccountStore := mkAccounts ∅ ∅ [] 0.

Lemma no_accounts_ok : tokens_ok no_accounts ∧ accounts_keyed no_accounts ∧ chaos_free no_accounts.
Proof.
  assert (H : ∀ i k, ac_tokens no_accounts !! i = Some k → False) by (intros i k; discriminate).
  assert (H' : ∀ i a, ac_accounts no_accounts !! i = Some a → False) by (intros i a; discriminate).
  split; [split|split; [|split]]; repeat intro; exfalso; eauto.
Qed.

Definition reader : list string := [scope_value TELEMETRY_READ].

(** An account with one token, used, revoked, and a second one. *)
Definition minted : AccountStore :=
  requests hash false [(0%Z, admin, PostAccount None "agent" reader); (1%Z, admin, PostToken None (uuid4 0) "one" None None)] no_accounts.
Definition revoked : AccountStore :=
  requests hash false [(2%Z, admin, Present "sa_one"); (3%Z, admin, DeleteToken None (uuid4 0) (uuid4 1))] minted.
Definition after : list (Z * AdminUser * account_request) :=
  [(4%Z, admin, PostToken None (uuid4 0) "two" (Some reader) (Some 1%Z)); (5%Z, admin, PostToken None (uuid4 0) "one" None None)].

Lemma revoked_ok : tokens_ok revoked ∧ accounts_keyed revoked.
Proof.
  unfold revoked, minted. destruct no_accounts_ok as (H1 & H2 & _).
  destruct (requests_invariant hash false (λ _, True) [(0%Z, admin, PostAccount None "agent" reader); (1%Z, admin, PostToken None (uuid4 0) "one" None None)]
    no_accounts ltac:(done) H1 H2 I) as (H3 & H4 & _).
  by destruct (requests_invariant hash false (λ _, True) [(2%Z, admin, Present "sa_one"); (3%Z, admin, DeleteToken None (uuid4 0) (uuid4 1))]
    _ ltac:(done) H3 H4 I) as (? & ? & _).
Qed.

Lemma revocation_is_final_witness :
  is_ok (verify_token hash 2 "sa_one" minted) = true ∧
  verify_token hash 10 "sa_one" (requests hash false after revoked) = Err (AuthenticationFailed TokenRevoked).
Proof.
  split; [vm_compute; reflexivity|].
  apply (revocation_is_final hash false after revoked (uuid4 1)
    (mkToken (uuid4 1) (uuid4 0) "sa_one" reader (Some (1 + DEFAULT_TOKEN_TTL)%Z) (Some 3%Z) (Some 2%Z) 1) "sa_one" 10).
  - exact (proj1 revoked_ok).
  - exact (proj2 revoked_ok).
  - vm_compute. reflexivity.
  - by eexists.
  - reflexivity.
  - reflexivity.
Defined.

(** A request for the scope is refused, the account's own token lacks it. *)
Definition attempts : list (Z * AdminUser * account_request) :=
  [(0%Z, admin, PostAccount None "agent" reader); (1%Z, admin, PatchAccount None (uuid4 0) [scope_value CHAOS_INVOKE]);
   (2%Z, admin, PostToken None (uuid4 0) "one" None None)].
Definition attempted : result account_error (MachinePrincipal * AccountStore) :=
  get_machine_principal hash 3 "sa_one" (requests hash false attempts no_accounts).

Lemma api_never_grants_chaos_witness :
  match attempted with Ok (p, _) => require_scope [CHAOS_INVOKE] p = false ∧ require_scope [TELEMETRY_READ] p = true | Err _ => False end.
Proof.
  destruct no_accounts_ok as (H1 & H2 & H3).
  destruct attempted as [[p s']|e] eqn:E; [|vm_compute in E; discriminate].
  split; [exact (api_never_grants_chaos hash attempts no_accounts 3 "sa_one" p s' H1 H2 H3 E)|].
  vm_compute in E. injection E as <- _. vm_compute. reflexivity.
Defined.

(** An account the operator seeded with [chaos:invoke]. *)
Definition seeded : AccountStore :=
  match create_service_account 900%N "lab" [scope_value CHAOS_INVOKE] None no_accounts with Ok (_, s) => s | Err _ => no_accounts end.

(** With the gate closed the endpoint refuses the scope by name but grants it to a
    request that names none; and a token keeps the scopes its account has lost. *)
Theorem closed_gate_mints_chaos :
  handle_account_request hash false 1 admin (PostToken None (uuid4 0) "x" (Some [scope_value CHAOS_INVOKE]) None) seeded
    = Err AccountForbidden ∧
  let minted := requests hash false [(1%Z, admin, PostToken None (uuid4 0) "x" None None)] seeded in
  let narrowed := requests hash false [(2%Z, admin, PatchAccount None (uuid4 0) [])] minted in
  match get_machine_principal hash 3 "sa_x" narrowed with
  | Ok (p, _) => require_scope [CHAOS_INVOKE] p = true ∧ sa_scopes (pr_account p) = []
  | Err _ => False
  end.
Proof. vm_compute. repeat split; reflexivity. Qed.
End AccountExample.
