(* ===== verification/SchemaRegistry.v ===== *)
(** * The schema registry and the producer (workers/schema_registry.py,
      workers/kafka_producer.py, schemas/kafka)

    One JSON Schema per topic, validated before a message is published: the keywords the
    five schema files use, the topic table, and the producer that starts itself. *)
From stdpp Require Import base tactics numbers option list gmap strings.
From Stdlib Require Import QArith Qround Ascii.
From S2P Require Import Prelude PyData Models OutboxRelay.

(** ** The keywords *)

Inductive schema_type : Type := TString | TInteger | TObject | TBoolean | TNull.

(** One property: [type] (one of a list), [const], [format: uuid], [minLength],
    [minimum], [maximum]. *)
Record prop_schema := mkProp {
  ps_types : option (list schema_type);
  ps_const : option string;
  ps_uuid : bool;
  ps_min_length : option nat;
  ps_minimum : option Z;
  ps_maximum : option Z
}.

(** An object schema; [additionalProperties] is true in all of them. *)
Record Schema := mkSchema { sc_required : list string; sc_properties : list (string * prop_schema) }.

Definition any_prop : prop_schema := mkProp None None false None None None.
Definition typed (ts : list schema_type) : prop_schema := mkProp (Some ts) None false None None None.
Definition const_prop (s : string) : prop_schema := mkProp None (Some s) false None None None.
Definition uuid_prop : prop_schema := mkProp (Some [TString]) None true None None None.
Definition nonempty_prop : prop_schema := mkProp (Some [TString]) None false (Some 1%nat) None None.
Definition natural_prop : prop_schema := mkProp (Some [TInteger]) None false None (Some 0%Z) None.

(** ** Validation *)

(** A number, as [jsonschema] sees one: not a boolean. *)
Definition number_of (v : json) : option Q :=
  match v with JInt z => Some (inject_Z z) | JFloat r => py_float r | _ => None end.

Definition has_type (v : json) (t : schema_type) : bool :=
  match t, v with
  | TString, JStr _ | TObject, JObj _ | TBoolean, JBool _ | TNull, JNull => true
  | TInteger, _ => match number_of v with Some q => Qeq_bool q (inject_Z (Qfloor q)) | None => false end
  | _, _ => false
  end.

(** [format: uuid]: the text parses and has its dashes in place. *)
Definition is_uuid (s : string) : bool :=
  bool_decide (is_Some (uuid_parse s)) &&
  forallb (λ n, bool_decide (String.get n s = Some "-"%char)) [8; 13; 18; 23]%nat.

(** Every keyword; those for other types do not apply. *)
Definition prop_ok (p : prop_schema) (v : json) : bool :=
  match ps_types p with Some ts => existsb (has_type v) ts | None => true end &&
  match ps_const p with Some s => match v with JStr s' => bool_decide (s' = s) | _ => false end | None => true end &&
  match v with
  | JStr s =>
      (negb (ps_uuid p) || is_uuid s) &&
      match ps_min_length p with Some n => (n <=? String.length s)%nat | None => true end
  | _ => true
  end &&
  match number_of v with
  | Some q =>
      match ps_minimum p with Some m => Qle_bool (inject_Z m) q | None => true end &&
      match ps_maximum p with Some m => Qle_bool q (inject_Z m) | None => true end
  | None => true
  end.

Definition schema_ok (sc : Schema) (payload : dict) : bool :=
  forallb (λ k, bool_decide (is_Some (dget payload k))) (sc_required sc) &&
  forallb (λ '(k, p), match dget payload k with Some v => prop_ok p v | None => true end) (sc_properties sc).

(** ** The schema files *)

Definition identity_props (event : string) : list (string * prop_schema) :=
  [("event", const_prop event); ("tenant_id", uuid_prop); ("job_id", uuid_prop); ("user_id", uuid_prop)].

Definition job_submitted_schema : Schema :=
  mkSchema ["event"; "tenant_id"; "job_id"; "user_id"; "job_type"]
    (identity_props "job.submitted" ++
     [("job_type", nonempty_prop); ("payload", typed [TObject; TNull]); ("priority", natural_prop);
      ("trace_id", typed [TString; TNull])]).

Definition job_progress_schema : Schema :=
  mkSchema ["event"; "tenant_id"; "job_id"; "user_id"; "status"; "percent"]
    (identity_props "job.progress" ++
     [("status", nonempty_prop); ("percent", mkProp (Some [TInteger]) None false None (Some 0%Z) (Some 100%Z));
      ("message", typed [TString]); ("retry_count", natural_prop)]).

Definition job_completed_schema : Schema :=
  mkSchema ["event"; "tenant_id"; "job_id"; "user_id"; "job_type"]
    (identity_props "job.completed" ++
     [("job_type", nonempty_prop); ("result", typed [TObject; TNull]); ("retry_count", natural_prop)]).

Definition job_failed_schema : Schema :=
  mkSchema ["event"; "tenant_id"; "job_id"; "user_id"; "job_type"; "error"; "dead_lettered"]
    (identity_props "job.failed" ++
     [("job_type", nonempty_prop); ("error", typed [TString]); ("message", typed [TString]);
      ("retry_count", natural_prop); ("max_attempts", natural_prop); ("max_retries", natural_prop);
      ("payload", typed [TObject; TNull]); ("trace_id", typed [TString; TNull]); ("dead_lettered", typed [TBoolean])]).

Definition job_cancelled_schema : Schema :=
  mkSchema ["event"; "tenant_id"; "job_id"; "user_id"; "job_type"; "reason"]
    (identity_props "job.cancelled" ++
     [("job_type", nonempty_prop); ("reason", typed [TString]); ("retry_count", natural_prop);
      ("trace_id", typed [TString; TNull])]).

(** ** The registry *)

(** [topic_schema_files]: one entry per topic setting, in the order of the settings; the
    dead-letter topic shares a schema. *)
Definition topic_schemas (cfg : Settings) : list (string * Schema) :=
  [(kafka_topic_job_submitted cfg, job_submitted_schema); (kafka_topic_job_progress cfg, job_progress_schema);
   (kafka_topic_job_completed cfg, job_completed_schema); (kafka_topic_job_failed cfg, job_failed_schema);
   (kafka_topic_job_cancelled cfg, job_cancelled_schema); (kafka_topic_job_dlq cfg, job_failed_schema)].

(** The registry is a dictionary: of two settings with one topic the later one counts. *)
Definition validator (cfg : Settings) (topic : string) : option Schema :=
  foldl (λ o ts, if bool_decide (ts.1 = topic) then Some ts.2 else o) None (topic_schemas cfg).

Inductive schema_error : Type := UnknownTopicError | SchemaInvalid.

(** [validate]. *)
Definition validate (cfg : Settings) (topic : string) (payload : dict) : result schema_error unit :=
  match validator cfg topic with
  | None => Err UnknownTopicError
  | Some sc => if schema_ok sc payload then Ok tt else Err SchemaInvalid
  end.

(** ** The producer *)

Definition START_RETRY_MIN_INTERVAL : Q := 5.

(** The module's globals: is the singleton set, and when was the last start tried. *)
Record Producer := mkProducer { pd_running : bool; pd_last_start_attempt : Q }.

(** [_ensure_producer] at a monotonic time; [start_ok]: the broker is there. *)
Definition ensure_producer (now : Q) (start_ok : bool) (p : Producer) : bool * Producer :=
  if pd_running p then (true, p)
  else if negb (Qle_bool START_RETRY_MIN_INTERVAL (now - pd_last_start_attempt p)) then (false, p)
  else (start_ok, mkProducer start_ok now).

(** What the broker does with a message: it has it, or the send fails and it may have it. *)
Inductive broker_reply : Type := BrokerAcks | BrokerFails (msg : string) (reached : bool).

(** [publish_raw]: the schema first, so that a bad row costs no start attempt. *)
Definition publish_raw (cfg : Settings) (now : Q) (start_ok : bool) (reply : broker_reply) (topic : string) (payload : dict)
    (p : Producer) : publish_outcome * Producer :=
  match validate cfg topic payload with
  | Err UnknownTopicError => (PubSchemaInvalid ("no schema registered for topic " +:+ topic), p)
  | Err SchemaInvalid => (PubSchemaInvalid ("schema validation failed for " +:+ topic), p)
  | Ok _ =>
      let '(ready, p) := ensure_producer now start_ok p in
      if negb ready then (PubFailed "Kafka producer not started" false, p)
      else match reply with BrokerAcks => (PubSent, p) | BrokerFails m reached => (PubFailed m reached, p) end
  end.

(** [publish_job_progress]: the payload, published on the swallowing path. *)
Definition job_progress_payload (job user tenant : uuid) (status : string) (percent : Z) (message : string) (retry_count : Z) : dict :=
  [("event", JStr "job.progress"); ("tenant_id", juuid tenant); ("job_id", juuid job); ("user_id", juuid user);
   ("status", JStr status); ("percent", JInt percent); ("message", JStr message); ("retry_count", JInt retry_count)].
