(* ===== verification/SchemaProps.v ===== *)
(** * The lifecycle events conform to their schemas *)
From stdpp Require Import base tactics numbers option list gmap strings.
From Stdlib Require Import QArith Qround Lia.
From S2P Require Import Prelude PyData Models Database JobEvents Redis World Dispatcher OutboxRelay Cascade DbInv OpsInv System SchemaRegistry Fixtures.

(** ** UUIDs *)

Lemma hex_digits_mod k n : hex_digits k n = hex_digits k (n mod 16 ^ N.of_nat k).
Proof.
  revert n. induction k as [|k IH]; intros n; [done|]. cbn [hex_digits].
  assert (Hp : (16 ^ N.of_nat (S k) = 16 * 16 ^ N.of_nat k)%N) by (rewrite Nat2N.inj_succ; apply N.pow_succ_r').
  assert (Hz : (16 ^ N.of_nat k ≠ 0)%N) by (by apply N.pow_nonzero).
  rewrite (IH (n / 16)%N), (IH ((n mod 16 ^ N.of_nat (S k)) / 16)%N), Hp.
  rewrite N.Div0.mod_mul_r, (N.mul_comm 16), N.div_add by done.
  rewrite (N.div_small (n mod 16) 16) by (by apply N.mod_lt). rewrite N.add_0_l, N.Div0.mod_mod.
  rewrite N.Div0.mod_add, N.Div0.mod_mod. done.
Qed.

(** What [str] prints of an identifier is in the format the schemas ask for. *)
Lemma uuid_str_format u : is_uuid (uuid_str u) = true.
Proof.
  assert (E : uuid_str u = uuid_str (u mod uuid_bound)).
  { unfold uuid_str, uuid_chars. rewrite (hex_digits_mod 32 u). done. }
  unfold is_uuid. rewrite bool_decide_true; [reflexivity|]. rewrite E, uuid_parse_str by (by apply N.mod_lt). by eexists.
Qed.

(** ** Properties of one value *)

Lemma uuid_ok u : prop_ok uuid_prop (juuid u) = true.
Proof. unfold prop_ok, juuid. cbn [ps_types ps_const ps_uuid ps_min_length uuid_prop number_of]. by rewrite uuid_str_format. Qed.

Lemma integer_ok z : has_type (JInt z) TInteger = true.
Proof. cbn [has_type number_of]. rewrite Qfloor_Z. apply Qeq_bool_iff. reflexivity. Qed.

Lemma juuid_str u : juuid u = JStr (uuid_str u).
Proof. done. Qed.

Lemma natural_ok z : (0 ≤ z)%Z → prop_ok natural_prop (JInt z) = true.
Proof.
  intros Hz. unfold prop_ok. cbn [ps_types ps_const ps_minimum ps_maximum natural_prop number_of existsb].
  by rewrite integer_ok, (proj2 (Qle_bool_iff _ _)) by (by rewrite <- Zle_Qle).
Qed.

Lemma nonempty_ok s : s ≠ "" → prop_ok nonempty_prop (JStr s) = true.
Proof. intros Hs. destruct s as [|c s]; [done|]. reflexivity. Qed.

Lemma opt_str_ok o : prop_ok (typed [TString; TNull]) (jstr_opt o) = true.
Proof. by destruct o. Qed.
Lemma opt_obj_ok o : prop_ok (typed [TObject; TNull]) (jobj_opt o) = true.
Proof. by destruct o. Qed.

Create HintDb schemas.
#[export] Hint Resolve uuid_ok natural_ok nonempty_ok opt_str_ok opt_obj_ok : schemas.
#[export] Hint Extern 1 (prop_ok _ _ = true) => reflexivity : schemas.
#[export] Hint Extern 2 (_ ≤ _)%Z => lia : schemas.

Lemma field_ok payload k p v :
  dget payload k = Some v → prop_ok p v = true → match dget payload k with Some v => prop_ok p v | None => true end = true.
Proof. by intros ->. Qed.

Lemma fields_cons payload k p ps :
  match dget payload k with Some v => prop_ok p v | None => true end = true →
  forallb (λ '(k, p), match dget payload k with Some v => prop_ok p v | None => true end) ps = true →
  forallb (λ '(k, p), match dget payload k with Some v => prop_ok p v | None => true end) ((k, p) :: ps) = true.
Proof. intros H1 H2. cbn [forallb]. by rewrite H1. Qed.

Ltac conforms :=
  unfold schema_ok; apply andb_true_intro; split; [reflexivity|];
  cbn [sc_properties identity_props app job_submitted_schema job_progress_schema job_completed_schema job_failed_schema
    job_cancelled_schema];
  repeat (apply fields_cons; [eapply field_ok; [reflexivity|]; auto with schemas|]); try reflexivity.

(** ** The payloads *)

(** What the request models ask of a submission. *)
Definition typed_row (j : Job) : Prop :=
  job_type j ≠ "" ∧ (0 ≤ job_priority j)%Z ∧ (0 ≤ job_retry_count j)%Z ∧ (0 ≤ job_max_attempts j)%Z.

#[local] Opaque juuid uuid_str payload_for_event str_or show_Z round_half_even dremove.

Lemma submitted_conforms j : typed_row j → schema_ok job_submitted_schema (job_submitted_payload j) = true.
Proof. intros (? & ? & ? & ?). unfold job_submitted_payload. conforms. Qed.
Lemma completed_conforms j : typed_row j → schema_ok job_completed_schema (completed_event_payload j) = true.
Proof. intros (? & ? & ? & ?). unfold completed_event_payload. conforms. Qed.
Lemma cancelled_conforms j : typed_row j → schema_ok job_cancelled_schema (cancelled_event_payload j) = true.
Proof. intros (? & ? & ? & ?). unfold cancelled_event_payload. conforms. Qed.
Lemma dlq_conforms j m : typed_row j → schema_ok job_failed_schema (dlq_event_payload j m) = true.
Proof. intros (? & ? & ? & ?). unfold dlq_event_payload. conforms. Qed.
Lemma failed_conforms ex exc plan n u :
  ex_type ex ≠ "" → ex_job_id_str ex = uuid_str u → (0 ≤ n)%Z → schema_ok job_failed_schema (job_failed_payload ex exc plan n) = true.
Proof.
  intros ? E ?. unfold job_failed_payload. rewrite E, <- juuid_str.
  generalize ("Retrying in " +:+ show_Z (round_half_even (rp_delay plan)) +:+ "s (attempt " +:+ show_Z n +:+ " of " +:+
              show_Z (ex_max_attempts ex) +:+ ")") as message. intros message. conforms.
Qed.
Lemma progress_conforms job user tenant status percent message n :
  status ≠ "" → (0 ≤ percent ≤ 100)%Z → (0 ≤ n)%Z →
  schema_ok job_progress_schema (job_progress_payload job user tenant status percent message n) = true.
Proof.
  intros ? Hp ?. unfold job_progress_payload. conforms.
  unfold prop_ok. cbn [ps_types ps_const ps_minimum ps_maximum number_of existsb]. rewrite integer_ok.
  by rewrite !(proj2 (Qle_bool_iff _ _)) by (rewrite <- Zle_Qle; lia).
Qed.

(** ** The registry *)

Lemma fold_absent (ts : list (string * Schema)) topic o :
  topic ∉ ts.*1 → foldl (λ o ts, if bool_decide (ts.1 = topic) then Some ts.2 else o) o ts = o.
Proof.
  revert o. induction ts as [|[t sc] ts IH]; intros o Hn; [done|]. rewrite fmap_cons in Hn. cbn [fst] in Hn.
  apply not_elem_of_cons in Hn as [Hne Hn]. cbn [foldl fst]. rewrite bool_decide_false by congruence. by apply IH.
Qed.

Lemma fold_present (ts : list (string * Schema)) topic sc o :
  NoDup ts.*1 → (topic, sc) ∈ ts → foldl (λ o ts, if bool_decide (ts.1 = topic) then Some ts.2 else o) o ts = Some sc.
Proof.
  revert o. induction ts as [|[t sc'] ts IH]; intros o Hnd Hin; [by apply elem_of_nil in Hin|].
  rewrite fmap_cons in Hnd. apply NoDup_cons in Hnd as [Hn Hnd]. cbn [foldl fst snd].
  apply elem_of_cons in Hin as [[= <- <-]|Hin]; [|by apply IH].
  rewrite bool_decide_true by done. by apply fold_absent.
Qed.

Lemma validate_ok cfg topic sc payload :
  NoDup (topic_schemas cfg).*1 → (topic, sc) ∈ topic_schemas cfg → schema_ok sc payload = true → validate cfg topic payload = Ok tt.
Proof. intros Hnd Hin Hok. unfold validate, validator. by rewrite (fold_present _ _ _ _ Hnd Hin), Hok. Qed.

Ltac work_topic := repeat first [by left|right].

Section Typing.
Context `{SqlOrder, UuidSource} (cfg : Settings).

End Typing.

Module SchemaExample.
Import SystemProps.

End SchemaExample.
