(* ===== verification/Auth.v ===== *)
(** * Human accounts and their tokens (core/security.py, services/auth.py, api/auth.py,
      repositories/user.py, repositories/tenant.py, dependencies.py, api/streaming.py)

    Registration, enrolment, login and refresh, the check every human request goes
    through, and the two stream-token endpoints.  The JWT library and bcrypt are
    interfaces that state what the code relies on. *)
From stdpp Require Import base tactics numbers option list gmap strings.
From Stdlib Require Import ZArith QArith.
From S2P Require Import Prelude PyData Codec Models Database JobRepo Redis JobService Accounts Admission.

(** ** Libraries *)

(** A claim set [_make_token] can produce: JSON, with the registered claims of their types. *)
Definition token_claims (c : dict) : bool :=
  json_plain (JObj c) &&
  match dget c "exp", dget c "iat", dget c "sub", dget c "jti" with
  | Some (JInt _), Some (JInt _), Some (JStr _), Some (JStr _) => true
  | _, _, _, _ => false
  end.

(** [exp] has not passed, in whole seconds. *)
Definition claims_live (now : Z) (c : dict) : bool :=
  match dget c "exp" with Some (JInt e) => (now / 1000000 <=? e)%Z | _ => true end.

(** [jose.jwt]: signed claim sets.  [decode] is [None] where it raises [JWTError]. *)
Class JwtLib := {
  jwt_encode : string → string → dict → string;
  jwt_decode : Z → string → string → string → option dict;
  jwt_decode_encode now key alg c :
    token_claims c = true →
    jwt_decode now key alg (jwt_encode key alg c) = if claims_live now c then Some c else None
}.

(** [bcrypt]: a call is [None] where it raises; passwords of up to 72 bytes are hashed. *)
Class BcryptLib := {
  hashpw : string → string → option string;
  checkpw : string → string → option bool;
  checkpw_hashpw p salt :
    (String.length p ≤ 72)%nat → ∃ h, hashpw p salt = Some h ∧ checkpw p h = Some true
}.

(** [o == s] for a claim [o] and a string [s]. *)
Definition is_str (o : option json) (s : string) : bool :=
  match o with Some (JStr s') => bool_decide (s' = s) | _ => false end.

(** ** Rows *)

Record User := mkUser {
  us_id : uuid;
  us_tenant_id : uuid;
  us_email : string;
  us_hashed_password : string;
  us_role : string;
  us_is_active : bool;
  us_is_platform_admin : bool;
  us_created_at : Z
}.

Record TenantRow := mkTenantRow {
  tr_columns : Tenant;  (** identifier, slug and limits *)
  tr_name : string;
  tr_is_active : bool;
  tr_created_at : Z
}.

Record AuthStore := mkAuth {
  au_users : gmap uuid User;
  au_tenants : gmap uuid TenantRow;
  au_db : DB;
  au_redis : Redis
}.

Definition with_users (m : gmap uuid User) (s : AuthStore) : AuthStore := mkAuth m (au_tenants s) (au_db s) (au_redis s).
Definition with_tenants (m : gmap uuid TenantRow) (s : AuthStore) : AuthStore := mkAuth (au_users s) m (au_db s) (au_redis s).
Definition with_auth_db (db : DB) (s : AuthStore) : AuthStore := mkAuth (au_users s) (au_tenants s) db (au_redis s).
Definition with_auth_redis (r : Redis) (s : AuthStore) : AuthStore := mkAuth (au_users s) (au_tenants s) (au_db s) r.

Definition DEFAULT_TENANT_SLUG : string := "default".

Record AuthSettings := mkAuthSettings {
  secret_key : string;
  jwt_algorithm : string;
  access_token_expire_minutes : Z;
  refresh_token_expire_days : Z
}.

(** ** Repositories *)

(** [UserRepository.get_by_email]; the column is unique. *)
Definition get_by_email (email : string) (s : AuthStore) : option User :=
  head (filter (λ u, us_email u = email) (map_to_list (au_users s)).*2).

(** [TenantRepository.get_by_slug]; the column is unique. *)
Definition get_by_slug (slug : string) (s : AuthStore) : option TenantRow :=
  head (filter (λ t, tn_slug (tr_columns t) = slug) (map_to_list (au_tenants s)).*2).

Section Auth.
Context `{UuidSource, !JwtLib, !BcryptLib} (cfg : AuthSettings).

(** The two [create]s: an identifier; the database checks the key and the unique column. *)
Definition create_user (now : Z) (email hashed role : string) (tenant : uuid) (s : AuthStore) : result exn (User * AuthStore) :=
  let '(i, db) := draw_uuid (au_db s) in
  let u := mkUser i tenant email hashed role true false now in
  if bool_decide (is_Some (au_users s !! i)) then Err IntegrityError
  else if existsb (λ u', bool_decide (us_email u' = email)) (map_to_list (au_users s)).*2 then Err IntegrityError
  else Ok (u, with_users (<[i := u]> (au_users s)) (with_auth_db db s)).

Definition create_tenant (now : Z) (slug name : string) (s : AuthStore) : result exn (TenantRow * AuthStore) :=
  let '(i, db) := draw_uuid (au_db s) in
  let t := mkTenantRow (mkTenant i slug 120 100000) name true now in
  if bool_decide (is_Some (au_tenants s !! i)) then Err IntegrityError
  else if existsb (λ t', bool_decide (tn_slug (tr_columns t') = slug)) (map_to_list (au_tenants s)).*2 then Err IntegrityError
  else Ok (t, with_tenants (<[i := t]> (au_tenants s)) (with_auth_db db s)).

(** ** Passwords and tokens (core/security.py) *)

Definition hash_password (salt password : string) : result exn string :=
  match hashpw password salt with
  | Some h => Ok h
  | None => Err (ValueError "password cannot be longer than 72 bytes")
  end.

(** Fails closed on a hash bcrypt cannot parse. *)
Definition verify_password (plain hashed : string) : bool := default false (checkpw plain hashed).

(** The payload of [_make_token]: the registered claims override the caller's.  [clock] is
    read once for [exp] and once for [iat]; the library stores both in whole seconds. *)
Definition token_payload (clock : nat → Z) (data : dict) (delta : Z) (token_type : string) (jti : uuid) : dict :=
  dset (dset (dset (dset data "exp" (JInt ((clock 0%nat + delta) / 1000000)))
                "iat" (JInt (clock 1%nat / 1000000)))
          "type" (JStr token_type)) "jti" (juuid jti).

Definition make_token (clock : nat → Z) (data : dict) (delta : Z) (token_type : string) (db : DB) : string * DB :=
  let '(jti, db) := draw_uuid db in
  (jwt_encode (secret_key cfg) (jwt_algorithm cfg) (token_payload clock data delta token_type jti), db).

Definition create_access_token (clock : nat → Z) (data : dict) : DB → string * DB :=
  make_token clock data (access_token_expire_minutes cfg * 60 * 1000000) "access".
Definition create_refresh_token (clock : nat → Z) (data : dict) : DB → string * DB :=
  make_token clock data (refresh_token_expire_days cfg * 86400 * 1000000) "refresh".

Definition STREAM_TOKEN_TTL_SECONDS : Z := 60.

Definition create_stream_token (clock : nat → Z) (job tenant : uuid) : DB → string * DB :=
  make_token clock [("sub", juuid job); ("tenant_id", juuid tenant)] (STREAM_TOKEN_TTL_SECONDS * 1000000) "stream".

Definition decode_token (now : Z) (token expected_type : string) : result exn dict :=
  match jwt_decode now (secret_key cfg) (jwt_algorithm cfg) token with
  | None => Err (AuthenticationError "Invalid or expired token")
  | Some payload =>
      if is_str (dget payload "type") expected_type then Ok payload
      else Err (AuthenticationError ("Expected " +:+ expected_type +:+ " token, got " +:+
                                     py_str_opt (dget payload "type")))
  end.

(** ** The service *)

(** [session.execute(set_config(...))] reads nothing the model keeps; the request's audit
    row follows. *)
Definition audit_user (now : Z) (action : string) (by_user tenant about : uuid) (extra : option dict) (s : AuthStore) : AuthStore :=
  with_auth_db (audit_log now action tenant (Some by_user) None None None (Some "user") (Some (uuid_str about)) extra (au_db s)) s.

(** What a request brings besides its arguments: clock readings, the bcrypt salt, and
    what other requests commit between its reads and its first INSERT. *)
Record AuthEnv := mkAuthEnv {
  ae_clock : nat → Z;
  ae_salt : string;
  ae_meanwhile : AuthStore → AuthStore;
  ae_time : Q;
  ae_reach : nat → reach;
  ae_forwarded_for : option string;
  ae_peer : option string
}.

Definition register (env : AuthEnv) (email password tenant_slug : string) (new_tenant_name : option string) (s : AuthStore)
    : result exn (User * AuthStore) :=
  let now := ae_clock env 0%nat in
  match get_by_email email s with
  | Some _ => Err (ConflictError ("Email already registered: " +:+ email))
  | None =>
      let found := get_by_slug tenant_slug s in
      let s := ae_meanwhile env s in
      let founding := match found, new_tenant_name with
                      | None, Some name => if bool_decide (name = "") then None else Some name
                      | _, _ => None
                      end in
      '(tenant, role, s) ←
        match founding, found with
        | Some name, _ => '(t, s) ← create_tenant now tenant_slug name s; Ok (Some t, "admin", s)
        | None, Some t =>
            if bool_decide (tenant_slug ≠ DEFAULT_TENANT_SLUG)
            then Err (AuthorizationError ("Registration into tenant " +:+ repr_str tenant_slug +:+
                                          " requires an invitation from one of its administrators"))
            else Ok (Some t, "user", s)
        | None, None => Ok (None, "user", s)
        end;
      match tenant with
      | Some t =>
          if tr_is_active t then
            let tid := tn_id (tr_columns t) in
            hashed ← hash_password (ae_salt env) password;
            '(u, s) ← create_user now email hashed role tid s;
            Ok (u, audit_user now "user.registered" (us_id u) tid (us_id u) None s)
          else Err (NotFoundError ("Tenant " +:+ tenant_slug +:+ " not found or inactive"))
      | None => Err (NotFoundError ("Tenant " +:+ tenant_slug +:+ " not found or inactive"))
      end
  end.

Definition add_tenant_member (env : AuthEnv) (admin : User) (email password : string) (s : AuthStore)
    : result exn (User * AuthStore) :=
  let now := ae_clock env 0%nat in
  match get_by_email email s with
  | Some _ => Err (ConflictError ("Email already registered: " +:+ email))
  | None =>
      let s := ae_meanwhile env s in
      hashed ← hash_password (ae_salt env) password;
      '(u, s) ← create_user now email hashed "user" (us_tenant_id admin) s;
      Ok (u, audit_user now "user.enrolled" (us_id admin) (us_tenant_id admin) (us_id u)
               (Some [("email", JStr email); ("role", JStr "user")]) s)
  end.

(** The claims of a session. *)
Definition token_data (u : User) : dict :=
  [("sub", juuid (us_id u)); ("tenant_id", juuid (us_tenant_id u)); ("role", JStr (us_role u)); ("email", JStr (us_email u))].

(** A fresh access and refresh token. *)
Definition token_pair (clock : nat → Z) (u : User) (db : DB) : string * string * DB :=
  let '(a, db) := create_access_token clock (token_data u) db in
  let '(r, db) := create_refresh_token (λ n, clock (2 + n)%nat) (token_data u) db in
  (a, r, db).

Definition login (env : AuthEnv) (email password : string) (s : AuthStore) : result exn (string * string * AuthStore) :=
  match get_by_email email s with
  | None => Err (AuthenticationError "Invalid email or password")
  | Some u =>
      if negb (verify_password password (us_hashed_password u)) then Err (AuthenticationError "Invalid email or password")
      else if negb (us_is_active u) then Err (AuthenticationError "Account is disabled")
      else
        let '(a, r, db) := token_pair (ae_clock env) u (au_db s) in
        Ok (a, r, audit_user (ae_clock env 4%nat) "user.login" (us_id u) (us_tenant_id u) (us_id u) None (with_auth_db db s))
  end.

(** [uuid.UUID(payload["sub"])]. *)
Definition subject_of (payload : dict) : result exn uuid :=
  match dget payload "sub" with
  | None => Err (KeyError "sub")
  | Some (JStr sub) => match uuid_parse sub with
                       | Some i => Ok i
                       | None => Err (ValueError "badly formed hexadecimal UUID string")
                       end
  | Some _ => Err (RuntimeError "AttributeError")
  end.

Definition refresh (env : AuthEnv) (refresh_token : string) (s : AuthStore) : result exn (string * string * AuthStore) :=
  payload ← decode_token (ae_clock env 4%nat) refresh_token "refresh";
  i ← subject_of payload;
  match au_users s !! i with
  | Some u =>
      if us_is_active u then
        let '(a, r, db) := token_pair (ae_clock env) u (au_db s) in Ok (a, r, with_auth_db db s)
      else Err (AuthenticationError "User not found or disabled")
  | None => Err (AuthenticationError "User not found or disabled")
  end.

(** ** The caller of a request (dependencies.py) *)

(** [get_current_user] of the bearer token the OAuth2 scheme extracted. *)
Definition get_current_user (now : Z) (bearer : option string) (s : AuthStore) : result exn User :=
  match bearer with
  | None => Err (AuthenticationError "Not authenticated")
  | Some token =>
      payload ← decode_token now token "access";
      i ← match subject_of payload with
          | Err (KeyError _) | Err (ValueError _) => Err (AuthenticationError "Malformed token payload")
          | r => r
          end;
      match au_users s !! i with
      | None => Err (AuthenticationError "User not found")
      | Some u =>
          if negb (us_is_active u) then Err (AuthenticationError "Account is disabled")
          else
            match dget payload "tenant_id" with
            | None | Some JNull => Ok u
            | Some t => if is_str (Some t) (uuid_str (us_tenant_id u)) then Ok u
                        else Err (AuthenticationError "Token tenant_id does not match user")
            end
      end
  end.

(** [require_role]. *)
Definition require_role (roles : list string) (u : User) : result exn User :=
  if bool_decide (us_role u ∈ roles) then Ok u
  else Err (AuthorizationError ("Required role: [" +:+ String.concat ", " (repr_str <$> roles) +:+ "], got: " +:+ us_role u)).

(** [require_platform_admin]. *)
Definition require_platform_admin (u : User) : result exn User :=
  if us_is_platform_admin u then Ok u else Err (AuthorizationError "Platform admin role required").

(** ** The stream-token endpoints (api/streaming.py) *)

Definition role_of (role : string) : UserRole :=
  if bool_decide (role = "admin") then ADMIN else if bool_decide (role = "support") then SUPPORT else USER.

(** [POST /jobs/{job_id}/stream-token]. *)
Definition issue_stream_token (env : AuthEnv) (u : User) (job : uuid) (s : AuthStore) : result exn (string * AuthStore) :=
  _ ← get_job job (us_id u) (role_of (us_role u)) (us_tenant_id u) (au_db s);
  let '(t, db) := create_stream_token (ae_clock env) job (us_tenant_id u) (au_db s) in
  Ok (t, with_auth_db db s).

(** The authorization half of [GET /jobs/{job_id}/stream]: the tenant whose row is read. *)
Definition authorize_stream (now : Z) (token : option string) (job : uuid) : result exn uuid :=
  match token with
  | None => Err (AuthenticationError "Missing stream token")
  | Some token =>
      payload ← decode_token now token "stream";
      if negb (is_str (dget payload "sub") (uuid_str job))
      then Err (AuthorizationError "Stream token was not issued for this job")
      else match uuid_parse (py_str_opt (dget payload "tenant_id")) with
           | Some t => Ok t
           | None => Err (AuthenticationError "Stream token carries no usable tenant")
           end
  end.

(** ** The endpoints (api/auth.py) *)

(** [EmailStr]: the normalised address, [None] when the request model refuses it. *)
Context (email_str : string → option string).

Definition between (lo hi : nat) (s : string) : bool := (lo <=? String.length s)%nat && (String.length s <=? hi)%nat.

(** The request models. *)
Definition valid_credentials (email password : string) : result exn string :=
  match email_str email with
  | Some e => if (8 <=? String.length password)%nat then Ok e else Err (RequestValidationError "password")
  | None => Err (RequestValidationError "email")
  end.

Definition valid_user_create (email password slug : string) (name : option string) : result exn string :=
  e ← valid_credentials email password;
  if negb (between 1 64 slug) then Err (RequestValidationError "tenant_slug")
  else if match name with Some n => negb (between 1 128 n) | None => false end then Err (RequestValidationError "new_tenant_name")
  else Ok e.

Inductive auth_request : Type :=
  | Register (email password tenant_slug : string) (new_tenant_name : option string)
  | AddMember (bearer : option string) (email password : string)
  | Login (email password : string)
  | RefreshSession (refresh_token : string)
  | Me (bearer : option string)
  | IssueStreamToken (bearer : option string) (job : uuid)
  | OpenStream (token : option string) (job : uuid).

Inductive auth_reply : Type :=
  | RUser (u : User) (tenant_slug : option string)
  | RTokens (access refresh : string)
  | RStreamToken (token : string)
  | RStream (tenant : uuid).

(** The rate limit of an endpoint: ten a minute per address. *)
Definition auth_rate_limit (env : AuthEnv) (prefix : string) (s : AuthStore) : result exn unit * AuthStore :=
  let '(res, r) := check_client_rate_limit (ae_time env) (ae_reach env) (ae_forwarded_for env) (ae_peer env) 10 60 prefix (au_redis s) in
  (res, with_auth_redis r s).

(** The body of an endpoint after its dependencies: what it answers and commits. *)
Definition auth_body (env : AuthEnv) (q : auth_request) (s : AuthStore) : result exn (auth_reply * AuthStore) :=
  match q with
  | Register email password slug name =>
      e ← valid_user_create email password slug name;
      '(u, s) ← register env e password slug name s; Ok (RUser u None, s)
  | AddMember bearer email password =>
      admin ← get_current_user (ae_clock env 5%nat) bearer s;
      admin ← require_role ["admin"] admin;
      e ← valid_credentials email password;
      '(u, s) ← add_tenant_member env admin e password s; Ok (RUser u None, s)
  | Login email password =>
      e ← valid_credentials email password;
      '(a, r, s) ← login env e password s; Ok (RTokens a r, s)
  | RefreshSession token => '(a, r, s) ← refresh env token s; Ok (RTokens a r, s)
  | Me bearer =>
      u ← get_current_user (ae_clock env 5%nat) bearer s;
      Ok (RUser u ((λ t, tn_slug (tr_columns t)) <$> au_tenants s !! us_tenant_id u), s)
  | IssueStreamToken bearer job =>
      u ← get_current_user (ae_clock env 5%nat) bearer s;
      '(t, s) ← issue_stream_token env u job s; Ok (RStreamToken t, s)
  | OpenStream token job => t ← authorize_stream (ae_clock env 5%nat) token job; Ok (RStream t, s)
  end.

Definition rate_prefix (q : auth_request) : option string :=
  match q with
  | Register _ _ _ _ => Some "register"
  | AddMember _ _ _ => Some "enrol"
  | Login _ _ => Some "login"
  | _ => None
  end.

(** The dependencies, in the order the endpoint declares them. *)
Definition auth_deps (env : AuthEnv) (q : auth_request) (s : AuthStore) : result exn unit * AuthStore :=
  match q, rate_prefix q with
  | AddMember bearer _ _, Some p =>
      match (u ← get_current_user (ae_clock env 5%nat) bearer s; require_role ["admin"] u) with
      | Ok _ => auth_rate_limit env p s
      | Err e => (Err e, s)
      end
  | _, Some p => auth_rate_limit env p s
  | _, None => (Ok tt, s)
  end.

(** One request: the counter of its address moves whatever the outcome; a refusal rolls
    the transaction back. *)
Definition handle_auth (env : AuthEnv) (q : auth_request) (s : AuthStore) : result exn auth_reply * AuthStore :=
  match auth_deps env q s with
  | (Err e, s) => (Err e, s)
  | (Ok _, s) => match auth_body env q s with Ok (rep, s') => (Ok rep, s') | Err e => (Err e, s) end
  end.
End Auth.
