(* ===== verification/AuthProps.v ===== *)
(** * Properties of human accounts and their tokens

    Requests arrive in any order and overlap where a request reads before it inserts; the
    log keeps what was answered.  Tokens are assumed unforgeable: one that decodes under
    the platform's key is one the platform has minted. *)
From stdpp Require Import base tactics numbers option list gmap strings.
From Stdlib Require Import ZArith QArith Lia.
From S2P Require Import Prelude PyData Codec Models Database JobRepo Redis JobService Accounts Admission Auth.

Section Props.
Context `{UuidSource, !JwtLib, !BcryptLib} (cfg : AuthSettings) (email_str : string → option string).

(** ** Tokens *)

Definition encode (c : dict) : string := jwt_encode (secret_key cfg) (jwt_algorithm cfg) c.

Lemma decode_payload now clock data delta τ jti τ' :
  token_claims (token_payload clock data delta τ jti) = true →
  decode_token cfg now (encode (token_payload clock data delta τ jti)) τ' =
    if claims_live now (token_payload clock data delta τ jti) then
      if bool_decide (τ = τ') then Ok (token_payload clock data delta τ jti)
      else Err (AuthenticationError ("Expected " +:+ τ' +:+ " token, got " +:+ τ))
    else Err (AuthenticationError "Invalid or expired token").
Proof.
  intros Hc. unfold decode_token, encode. rewrite jwt_decode_encode by done.
  destruct (claims_live _ _); [|done].
  assert (dget (token_payload clock data delta τ jti) "type" = Some (JStr τ)) as ->.
  { unfold token_payload. generalize (dset (dset data "exp" (JInt ((clock 0%nat + delta) / 1000000))) "iat" (JInt (clock 1%nat / 1000000))).
    intros d. induction d as [|[k v] d IH]; [done|]. cbn [dset].
    destruct (decide ("type" = k)) as [<-|Hk].
    - rewrite (bool_decide_true ("type" = "type")) by done. cbn [dset].
      rewrite (bool_decide_false ("jti" = "type")) by done. cbn [dget]. by rewrite bool_decide_true.
    - rewrite (bool_decide_false ("type" = k)) by done. cbn [dset].
      destruct (decide ("jti" = k)) as [<-|Hj].
      + rewrite (bool_decide_true ("jti" = "jti")) by done. cbn [dget].
        rewrite (bool_decide_false ("type" = "jti")) by done. by rewrite dget_dset_eq.
      + rewrite (bool_decide_false ("jti" = k)) by done. cbn [dget]. rewrite (bool_decide_false ("type" = k)) by done. done. }
  cbn. done.
Qed.

Lemma session_payload clock u delta τ jti :
  token_payload clock (token_data u) delta τ jti =
  [("sub", juuid (us_id u)); ("tenant_id", juuid (us_tenant_id u)); ("role", JStr (us_role u)); ("email", JStr (us_email u));
   ("exp", JInt ((clock 0%nat + delta) / 1000000)); ("iat", JInt (clock 1%nat / 1000000)); ("type", JStr τ); ("jti", juuid jti)].
Proof. reflexivity. Qed.

Lemma stream_payload clock job tenant delta jti :
  token_payload clock [("sub", juuid job); ("tenant_id", juuid tenant)] delta "stream" jti =
  [("sub", juuid job); ("tenant_id", juuid tenant); ("exp", JInt ((clock 0%nat + delta) / 1000000));
   ("iat", JInt (clock 1%nat / 1000000)); ("type", JStr "stream"); ("jti", juuid jti)].
Proof. reflexivity. Qed.

Lemma session_claims clock u delta τ jti : token_claims (token_payload clock (token_data u) delta τ jti) = true.
Proof. rewrite session_payload. reflexivity. Qed.

Lemma stream_claims clock job tenant delta jti :
  token_claims (token_payload clock [("sub", juuid job); ("tenant_id", juuid tenant)] delta "stream" jti) = true.
Proof. rewrite stream_payload. reflexivity. Qed.

(** Reading the claims back. *)
Lemma session_sub clock u delta τ jti : dget (token_payload clock (token_data u) delta τ jti) "sub" = Some (juuid (us_id u)).
Proof. reflexivity. Qed.
Lemma session_tenant clock u delta τ jti : dget (token_payload clock (token_data u) delta τ jti) "tenant_id" = Some (juuid (us_tenant_id u)).
Proof. reflexivity. Qed.
Lemma session_exp clock u delta τ jti : dget (token_payload clock (token_data u) delta τ jti) "exp" = Some (JInt ((clock 0%nat + delta) / 1000000)).
Proof. reflexivity. Qed.

Abbreviation stream_data job tenant := [("sub", juuid job); ("tenant_id", juuid tenant)].
Lemma stream_sub clock job tenant delta jti : dget (token_payload clock (stream_data job tenant) delta "stream" jti) "sub" = Some (juuid job).
Proof. reflexivity. Qed.
Lemma stream_tenant clock job tenant delta jti : dget (token_payload clock (stream_data job tenant) delta "stream" jti) "tenant_id" = Some (juuid tenant).
Proof. reflexivity. Qed.
Lemma stream_exp clock job tenant delta jti :
  dget (token_payload clock (stream_data job tenant) delta "stream" jti) "exp" = Some (JInt ((clock 0%nat + delta) / 1000000)).
Proof. reflexivity. Qed.

Lemma subject_juuid c i : dget c "sub" = Some (juuid i) → (i < uuid_bound)%N → subject_of c = Ok i.
Proof. intros E Hi. unfold subject_of. rewrite E. unfold juuid. by rewrite uuid_parse_str. Qed.

Lemma live_exp now c e : dget c "exp" = Some (JInt e) → claims_live now c = (now / 1000000 <=? e)%Z.
Proof. intros E. unfold claims_live. by rewrite E. Qed.

Lemma is_str_juuid i (t : string) : is_str (Some (juuid i)) t = bool_decide (uuid_str i = t).
Proof. reflexivity. Qed.
Lemma py_str_juuid i : py_str_opt (Some (juuid i)) = uuid_str i.
Proof. reflexivity. Qed.

(** The three kinds of minted token. *)
Definition access_of (clock : nat → Z) (u : User) (jti : uuid) : dict :=
  token_payload clock (token_data u) (access_token_expire_minutes cfg * 60 * 1000000) "access" jti.
Definition refresh_of (clock : nat → Z) (u : User) (jti : uuid) : dict :=
  token_payload clock (token_data u) (refresh_token_expire_days cfg * 86400 * 1000000) "refresh" jti.
Definition stream_of (clock : nat → Z) (job tenant : uuid) (jti : uuid) : dict :=
  token_payload clock [("sub", juuid job); ("tenant_id", juuid tenant)] (STREAM_TOKEN_TTL_SECONDS * 1000000) "stream" jti.

Lemma token_pair_spec clock u db a r db' :
  token_pair cfg clock u db = (a, r, db') →
  (∃ j1 j2, a = encode (access_of clock u j1) ∧ r = encode (refresh_of (λ n, clock (2 + n)%nat) u j2)) ∧
  db_audit db' = db_audit db ∧ db_jobs db' = db_jobs db ∧ (db_draws db ≤ db_draws db')%N.
Proof.
  unfold token_pair, create_access_token, create_refresh_token, make_token, draw_uuid. cbn. intros [= <- <- <-]. cbn.
  split; [by eexists _, _|]. split_and!; [done|done|lia].
Qed.

(** ** Runs *)

Record AuthSys := mkSys { sy_store : AuthStore; sy_log : list (AuthEnv * auth_request * auth_reply) }.

Definition tokens_of (rep : auth_reply) : list string :=
  match rep with RTokens a r => [a; r] | RStreamToken t => [t] | _ => [] end.
Definition minted (log : list (AuthEnv * auth_request * auth_reply)) : list string := mjoin ((λ e, tokens_of e.2) <$> log).

Definition presented (q : auth_request) : option string :=
  match q with
  | AddMember b _ _ | Me b | IssueStreamToken b _ => b
  | RefreshSession t => Some t
  | OpenStream t _ => t
  | _ => None
  end.

(** A token that decodes was minted before. *)
Definition unforged (log : list (AuthEnv * auth_request * auth_reply)) (t : string) : Prop :=
  ∀ now c, jwt_decode now (secret_key cfg) (jwt_algorithm cfg) t = Some c → t ∈ minted log.

(** An UUID of the path has 128 bits. *)
Definition path_uuid (q : auth_request) : Prop :=
  match q with IssueStreamToken _ j | OpenStream _ j => (j < uuid_bound)%N | _ => True end.

Definition creates (q : auth_request) : bool := match q with Register _ _ _ _ | AddMember _ _ _ => true | _ => false end.

(** What the rest of the platform does to the shared tables: jobs keep their identity,
    audit rows stay, identifiers are not drawn twice. *)
Definition db_evolves (db db' : DB) : Prop :=
  (∀ i j, db_jobs db !! i = Some j → ∃ j', db_jobs db' !! i = Some j' ∧ same_identity j j') ∧
  (∀ a, a ∈ db_audit db → a ∈ db_audit db') ∧ (db_draws db ≤ db_draws db')%N.

Inductive auth_run : AuthSys → AuthSys → Prop :=
  | run_refl x : auth_run x x
  | run_other x s log env q s1 rep s' :
      auth_run x (mkSys s log) → (∀ t, presented q = Some t → unforged log t) → path_uuid q → creates q = false →
      auth_deps cfg env q s = (Ok tt, s1) → auth_body cfg email_str env q s1 = Ok (rep, s') →
      auth_run x (mkSys s' (log ++ [(env, q, rep)]))
  | run_create x s log env q s1 log' rep s' :
      auth_run x (mkSys s log) → (∀ t, presented q = Some t → unforged log t) → creates q = true →
      auth_deps cfg env q s = (Ok tt, s1) →
      auth_run (mkSys s1 log) (mkSys (ae_meanwhile env s1) log') →
      auth_body cfg email_str env q s1 = Ok (rep, s') →
      auth_run x (mkSys s' (log' ++ [(env, q, rep)]))
  | run_refused x s log env q e s1 :
      auth_run x (mkSys s log) → handle_auth cfg email_str env q s = (Err e, s1) → auth_run x (mkSys s1 log)
  | run_platform x s log db :
      auth_run x (mkSys s log) → db_evolves (au_db s) db → auth_run x (mkSys (with_auth_db db s) log).

(** Nothing a run has stored or answered is lost. *)
Definition extends (x y : AuthSys) : Prop :=
  au_users (sy_store x) ⊆ au_users (sy_store y) ∧ au_tenants (sy_store x) ⊆ au_tenants (sy_store y) ∧
  db_evolves (au_db (sy_store x)) (au_db (sy_store y)) ∧ (∀ e, e ∈ sy_log x → e ∈ sy_log y).

Lemma same_identity_refl j : same_identity j j.
Proof. unfold same_identity. naive_solver. Qed.

Lemma db_evolves_refl db : db_evolves db db.
Proof. split_and!; [|done|done]. intros i j Hj. eauto using same_identity_refl. Qed.

Lemma db_evolves_trans a b c : db_evolves a b → db_evolves b c → db_evolves a c.
Proof.
  intros (A1&A2&A3) (B1&B2&B3). split_and!; [|auto|lia]. intros i j Hj.
  apply A1 in Hj as (j' & Hj' & Hs). apply B1 in Hj' as (j'' & Hj'' & Hs'). exists j''. split; [done|].
  unfold same_identity in *. naive_solver congruence.
Qed.

Lemma db_evolves_tables db db' :
  db_jobs db' = db_jobs db → (∀ a, a ∈ db_audit db → a ∈ db_audit db') → (db_draws db ≤ db_draws db')%N → db_evolves db db'.
Proof. intros Hj Ha Hd. split_and!; [|done|done]. rewrite Hj. eauto using same_identity_refl. Qed.

Lemma extends_refl x : extends x x.
Proof. split_and!; [done|done|apply db_evolves_refl|done]. Qed.

Lemma extends_trans x y z : extends x y → extends y z → extends x z.
Proof.
  intros (A1&A2&A3&A4) (B1&B2&B3&B4).
  split_and!; [by etrans|by etrans|by eapply db_evolves_trans|auto].
Qed.

(** ** What one request does *)

Lemma auth_deps_frame env q s o s1 : auth_deps cfg env q s = (o, s1) → ∃ r, s1 = with_auth_redis r s.
Proof.
  assert (Hr : ∀ p o s1, auth_rate_limit env p s = (o, s1) → ∃ r, s1 = with_auth_redis r s).
  { intros p o' s1'. unfold auth_rate_limit. destruct (check_client_rate_limit _ _ _ _ _ _ _ _) as [res r].
    intros [= <- <-]. by exists r. }
  assert (Hid : ∃ r, s = with_auth_redis r s) by (exists (au_redis s); by destruct s).
  unfold auth_deps. intros E. destruct q; cbn [rate_prefix] in E; try (by apply Hr in E); try (by simplify_eq).
  destruct (_ ≫= _) in E; [by apply Hr in E|by simplify_eq].
Qed.

Lemma create_user_spec now email hashed role tenant s u s' :
  create_user now email hashed role tenant s = Ok (u, s') →
  us_email u = email ∧ us_hashed_password u = hashed ∧ us_role u = role ∧ us_tenant_id u = tenant ∧
  us_is_active u = true ∧ us_is_platform_admin u = false ∧ au_users s !! us_id u = None ∧
  (∀ i v, au_users s !! i = Some v → us_email v ≠ email) ∧
  au_users s' = <[us_id u := u]> (au_users s) ∧ au_tenants s' = au_tenants s ∧ db_evolves (au_db s) (au_db s').
Proof.
  unfold create_user, draw_uuid. intros E. case_bool_decide as Hi; [done|]. destruct (existsb _ _) eqn:Ex; [done|].
  simplify_eq/=. split_and!; try done.
  - by apply eq_None_not_Some.
  - intros i v Hv He. apply not_true_iff_false in Ex. apply Ex, existsb_exists. exists v. split; [|by apply bool_decide_true].
    apply list_elem_of_In, list_elem_of_fmap. exists (i, v). split; [done|]. by apply elem_of_map_to_list.
  - apply db_evolves_tables; cbn; [done|auto|lia].
Qed.

Lemma create_tenant_spec now slug name s t s' :
  create_tenant now slug name s = Ok (t, s') →
  tn_slug (tr_columns t) = slug ∧ tr_is_active t = true ∧ au_tenants s !! tn_id (tr_columns t) = None ∧
  au_users s' = au_users s ∧ au_tenants s' = <[tn_id (tr_columns t) := t]> (au_tenants s) ∧ db_evolves (au_db s) (au_db s').
Proof.
  unfold create_tenant, draw_uuid. intros E. case_bool_decide as Hi; [done|]. destruct (existsb _ _); [done|].
  simplify_eq/=. split_and!; try done; [by apply eq_None_not_Some|]. apply db_evolves_tables; cbn; [done|auto|lia].
Qed.

Lemma audit_user_frame now action by_user tenant about extra s :
  let s' := audit_user now action by_user tenant about extra s in
  au_users s' = au_users s ∧ au_tenants s' = au_tenants s ∧ db_evolves (au_db s) (au_db s') ∧
  mkAudit action tenant (Some by_user) "user" (Some by_user) None (Some "user") (Some (uuid_str about)) extra now ∈ db_audit (au_db s').
Proof.
  cbn. split_and!; [done|done| |].
  - apply db_evolves_tables; cbn; [done|intros a Ha; apply elem_of_app; by left|lia].
  - apply elem_of_app. right. by apply list_elem_of_singleton.
Qed.

(** [register]: who joins which tenant, in which role. *)
Lemma register_spec env email password slug name s u s' :
  register env email password slug name s = Ok (u, s') →
  let mid := ae_meanwhile env s in
  us_email u = email ∧ us_is_active u = true ∧ us_is_platform_admin u = false ∧ au_users mid !! us_id u = None ∧
  (∀ i v, au_users mid !! i = Some v → us_email v ≠ email) ∧ au_users s' = <[us_id u := u]> (au_users mid) ∧
  hash_password (ae_salt env) password = Ok (us_hashed_password u) ∧ db_evolves (au_db mid) (au_db s') ∧
  ((us_role u = "user" ∧ slug = DEFAULT_TENANT_SLUG ∧ au_tenants s' = au_tenants mid ∧
    ∃ t, get_by_slug slug s = Some t ∧ us_tenant_id u = tn_id (tr_columns t)) ∨
   (us_role u = "admin" ∧ au_tenants mid !! us_tenant_id u = None ∧
    ∃ t, tn_id (tr_columns t) = us_tenant_id u ∧ tn_slug (tr_columns t) = slug ∧
         au_tenants s' = <[us_tenant_id u := t]> (au_tenants mid))).
Proof.
  unfold register. intros E. cbn. destruct (get_by_email email s); [done|].
  apply bind_ok in E as ([[tenant role] s1] & E1 & E2).
  destruct tenant as [t|]; [|done]. destruct (tr_is_active t) eqn:Ha; [|done].
  apply bind_ok in E2 as (h & Eh & E2). apply bind_ok in E2 as ([u' s2] & Eu & [= <- <-]).
  apply create_user_spec in Eu as (A1&<-&A3&A4&A5&A6&A7&A8&A9&A10&A11).
  destruct (audit_user_frame (ae_clock env 0%nat) "user.registered" (us_id u') (tn_id (tr_columns t)) (us_id u') None s2)
    as (B1&B2&B3&_).
  rewrite B1, B2.
  assert (Hcase : (∃ n, create_tenant (ae_clock env 0%nat) slug n (ae_meanwhile env s) = Ok (t, s1) ∧ role = "admin") ∨
                  (get_by_slug slug s = Some t ∧ slug = DEFAULT_TENANT_SLUG ∧ role = "user" ∧ s1 = ae_meanwhile env s)).
  { destruct (get_by_slug slug s) as [t'|].
    - destruct name; cbn in E1; case_bool_decide as Hs; simplify_eq; right; split_and!; try done; by apply dec_stable.
    - destruct name as [n|]; [|done]. case_bool_decide; [done|]. lazy beta iota zeta in E1.
      apply bind_ok in E1 as ([t' s2'] & Et & E1). simplify_eq. left. eauto. }
  destruct Hcase as [(n & Et & ->)|(Hf & -> & -> & ->)].
  - apply create_tenant_spec in Et as (C1&C2&C3&C4&C5&C6). rewrite C4 in A7, A8, A9. subst.
    split_and!; try done; [by eapply db_evolves_trans; [|eapply db_evolves_trans]|].
    right. rewrite A4. split_and!; [done|done|]. exists t. split_and!; [done|done|]. by rewrite A10, C5.
  - subst. split_and!; try done; [by eapply db_evolves_trans|]. left. split_and!; [done|done|done|]. by exists t.
Qed.

Lemma add_member_spec env admin email password s u s' :
  add_tenant_member env admin email password s = Ok (u, s') →
  let mid := ae_meanwhile env s in
  us_is_active u = true ∧ us_is_platform_admin u = false ∧ us_role u = "user" ∧ us_tenant_id u = us_tenant_id admin ∧
  au_users mid !! us_id u = None ∧ au_users s' = <[us_id u := u]> (au_users mid) ∧ au_tenants s' = au_tenants mid ∧
  db_evolves (au_db mid) (au_db s') ∧
  mkAudit "user.enrolled" (us_tenant_id admin) (Some (us_id admin)) "user" (Some (us_id admin)) None (Some "user")
    (Some (uuid_str (us_id u))) (Some [("email", JStr email); ("role", JStr "user")]) (ae_clock env 0%nat) ∈ db_audit (au_db s').
Proof.
  unfold add_tenant_member. intros E. cbn. destruct (get_by_email email s); [done|].
  apply bind_ok in E as (h & Eh & E). apply bind_ok in E as ([u' s2] & Eu & [= <- <-]).
  apply create_user_spec in Eu as (A1&_&A3&A4&A5&A6&A7&A8&A9&A10&A11).
  destruct (audit_user_frame (ae_clock env 0%nat) "user.enrolled" (us_id admin) (us_tenant_id admin) (us_id u')
              (Some [("email", JStr email); ("role", JStr "user")]) s2) as (B1&B2&B3&B4).
  rewrite B1, B2. split_and!; try done. by eapply db_evolves_trans.
Qed.

Lemma decode_ok now t τ c :
  decode_token cfg now t τ = Ok c → jwt_decode now (secret_key cfg) (jwt_algorithm cfg) t = Some c.
Proof. unfold decode_token. destruct (jwt_decode _ _ _ _); [|done]. by destruct (is_str _ _); intros [= <-]. Qed.

Lemma current_user_spec now b s u :
  get_current_user cfg now b s = Ok u →
  ∃ t c i, b = Some t ∧ decode_token cfg now t "access" = Ok c ∧ subject_of c = Ok i ∧ au_users s !! i = Some u ∧
           us_is_active u = true.
Proof.
  unfold get_current_user. destruct b as [t|]; [|done]. intros E.
  apply bind_ok in E as (c & Ec & E). apply bind_ok in E as (i & Ei & E).
  destruct (au_users s !! i) as [u'|] eqn:Hu; [|done]. destruct (us_is_active u') eqn:Ha; [|done]. cbn in E.
  exists t, c, i. assert (u' = u) as -> by (destruct (dget c "tenant_id") as [[]|]; cbn in E; split_tests; done).
  split_and!; try done. destruct (subject_of c) as [i'|[]]; by simplify_eq.
Qed.

(** Login and refresh: the tokens are those of a user of the store. *)
Lemma login_spec env email password s a r s' :
  login cfg env email password s = Ok (a, r, s') →
  ∃ u j1 j2, get_by_email email s = Some u ∧ verify_password password (us_hashed_password u) = true ∧ us_is_active u = true ∧
    a = encode (access_of (ae_clock env) u j1) ∧ r = encode (refresh_of (λ n, ae_clock env (2 + n)%nat) u j2) ∧
    au_users s' = au_users s ∧ au_tenants s' = au_tenants s ∧ db_evolves (au_db s) (au_db s').
Proof.
  unfold login. destruct (get_by_email email s) as [u|]; [|done].
  destruct (verify_password _ _) eqn:Hv; [|done]. destruct (us_is_active u) eqn:Ha; [|done].
  cbn [negb]. destruct (token_pair _ _ _ _) as [[a' r'] db] eqn:Et. intros [= <- <- <-].
  apply token_pair_spec in Et as ((j1 & j2 & -> & ->) & A1 & A2 & A3). exists u, j1, j2.
  split_and!; try done. apply db_evolves_tables; cbn; [done| |done].
  intros x Hx. apply elem_of_app. left. by rewrite A1.
Qed.

Lemma refresh_spec env t s a r s' :
  refresh cfg env t s = Ok (a, r, s') →
  ∃ c u j1 j2, decode_token cfg (ae_clock env 4%nat) t "refresh" = Ok c ∧ (∃ i, subject_of c = Ok i ∧ au_users s !! i = Some u) ∧
    a = encode (access_of (ae_clock env) u j1) ∧ r = encode (refresh_of (λ n, ae_clock env (2 + n)%nat) u j2) ∧
    au_users s' = au_users s ∧ au_tenants s' = au_tenants s ∧ db_evolves (au_db s) (au_db s').
Proof.
  unfold refresh. intros E. apply bind_ok in E as (c & Ec & E). apply bind_ok in E as (i & Ei & E).
  destruct (au_users s !! i) as [u|] eqn:Hu; [|done]. destruct (us_is_active u); [|done].
  destruct (token_pair _ _ _ _) as [[a' r'] db] eqn:Et. simplify_eq.
  apply token_pair_spec in Et as ((j1 & j2 & -> & ->) & A1 & A2 & A3). exists c, u, j1, j2.
  split_and!; try done; [by exists i|]. apply db_evolves_tables; cbn; [done|by rewrite A1|done].
Qed.

Lemma issue_spec env u job s t s' :
  issue_stream_token cfg env u job s = Ok (t, s') →
  ∃ j jti, get_job job (us_id u) (role_of (us_role u)) (us_tenant_id u) (au_db s) = Ok j ∧
    t = encode (stream_of (ae_clock env) job (us_tenant_id u) jti) ∧
    au_users s' = au_users s ∧ au_tenants s' = au_tenants s ∧ db_evolves (au_db s) (au_db s').
Proof.
  unfold issue_stream_token. intros E. apply bind_ok in E as (j & Ej & E). cbn in E. simplify_eq.
  eexists j, _. split_and!; try done. apply db_evolves_tables; cbn; [done|auto|lia].
Qed.

Lemma other_body_frame env q s rep s' :
  creates q = false → auth_body cfg email_str env q s = Ok (rep, s') →
  au_users s' = au_users s ∧ au_tenants s' = au_tenants s ∧ db_evolves (au_db s) (au_db s').
Proof.
  destruct q; cbn [creates auth_body]; try done; intros _ E.
  - apply bind_ok in E as (e & _ & E). apply bind_ok in E as ([[a r] s1] & E & [= <- <-]).
    apply login_spec in E as (?&?&?&?). naive_solver.
  - apply bind_ok in E as ([[a r] s1] & E & [= <- <-]). apply refresh_spec in E as (?&?&?&?&?). naive_solver.
  - apply bind_ok in E as (u & _ & [= <- <-]). split_and!; [done|done|apply db_evolves_refl].
  - apply bind_ok in E as (u & _ & E). apply bind_ok in E as ([t s1] & E & [= <- <-]).
    apply issue_spec in E as (?&?&?). naive_solver.
  - apply bind_ok in E as (t & _ & [= <- <-]). split_and!; [done|done|apply db_evolves_refl].
Qed.

(** A creating request adds one user to what the others left. *)
Lemma create_body_frame env q s rep s' :
  creates q = true → auth_body cfg email_str env q s = Ok (rep, s') →
  au_users (ae_meanwhile env s) ⊆ au_users s' ∧ au_tenants (ae_meanwhile env s) ⊆ au_tenants s' ∧
  db_evolves (au_db (ae_meanwhile env s)) (au_db s').
Proof.
  destruct q; cbn [creates auth_body]; try done; intros _ E.
  - apply bind_ok in E as (e & _ & E). apply bind_ok in E as ([u s1] & E & [= <- <-]).
    apply register_spec in E as (_&_&_&Hf&_&Hu&_&Hd&Ht). rewrite Hu. split_and!; [by apply insert_subseteq| |done].
    destruct Ht as [(_&_&->&_)|(_&Hn&t&_&_&->)]; [done|]. by apply insert_subseteq.
  - apply bind_ok in E as (a & _ & E). apply bind_ok in E as (a' & _ & E). apply bind_ok in E as (e & _ & E).
    apply bind_ok in E as ([u s1] & E & [= <- <-]). apply add_member_spec in E as (_&_&_&_&Hf&->&->&Hd&_).
    split_and!; [by apply insert_subseteq|done|done].
Qed.

Lemma refused_frame env q s e s1 : handle_auth cfg email_str env q s = (Err e, s1) → ∃ r, s1 = with_auth_redis r s.
Proof.
  unfold handle_auth. destruct (auth_deps cfg env q s) as [o s2] eqn:Ed. apply auth_deps_frame in Ed as (r & ->).
  destruct o as [[]|]; [destruct (auth_body _ _ _ _ _) as [[rep s']|]|]; intros E; simplify_eq; by exists r.
Qed.

Lemma run_extends x y : auth_run x y → extends x y.
Proof.
  induction 1 as [x|x s log env q s1 rep s' _ IH _ _ Hq Hd Hb|x s log env q s1 log' rep s' _ IH _ Hq Hd _ IH' Hb
                 |x s log env q e s1 _ IH Hh|x s log db _ IH Hdb].
  - apply extends_refl.
  - apply auth_deps_frame in Hd as (r & ->). apply other_body_frame in Hb as (A1&A2&A3); [|done].
    eapply extends_trans; [exact IH|]. split_and!; cbn in *; [by rewrite A1|by rewrite A2|done|].
    intros e He. apply elem_of_app. by left.
  - apply auth_deps_frame in Hd as (r & ->). apply create_body_frame in Hb as (A1&A2&A3); [|done].
    eapply extends_trans; [exact IH|]. eapply extends_trans; [exact IH'|].
    split_and!; cbn in *; [done|done|done|]. intros e He. apply elem_of_app. by left.
  - apply refused_frame in Hh as (r & ->). eapply extends_trans; [exact IH|].
    split_and!; [done|done|apply db_evolves_refl|done].
  - eapply extends_trans; [exact IH|]. by split_and!.
Qed.

(** ** Who belongs to a tenant *)

Definition keyed (s : AuthStore) : Prop :=
  (∀ i u, au_users s !! i = Some u → us_id u = i) ∧ (∀ i t, au_tenants s !! i = Some t → tn_id (tr_columns t) = i).

Definition grows (s s' : AuthStore) : Prop :=
  au_users s ⊆ au_users s' ∧ au_tenants s ⊆ au_tenants s' ∧ db_evolves (au_db s) (au_db s').

(** How an account that [s0] did not have came to be in [s]. *)
Definition joined (s0 s : AuthStore) (u : User) : Prop :=
  us_is_platform_admin u = false ∧
  ( (** signed up to the shared tenant *)
   (us_role u = "user" ∧ ∃ t, au_tenants s !! us_tenant_id u = Some t ∧ tn_slug (tr_columns t) = DEFAULT_TENANT_SLUG) ∨
   (** founded a tenant that did not exist *)
   (us_role u = "admin" ∧ au_tenants s0 !! us_tenant_id u = None ∧ is_Some (au_tenants s !! us_tenant_id u)) ∨
   (** enrolled by an active administrator of the tenant, on record *)
   (us_role u = "user" ∧ ∃ a, au_users s !! us_id a = Some a ∧ us_role a = "admin" ∧ us_is_active a = true ∧
      us_tenant_id a = us_tenant_id u ∧
      ∃ row, row ∈ db_audit (au_db s) ∧ audit_action row = "user.enrolled" ∧ audit_user_id row = Some (us_id a) ∧
             audit_tenant_id row = us_tenant_id u ∧ audit_resource_id row = Some (uuid_str (us_id u)))).

Definition membership (s0 s : AuthStore) : Prop :=
  (∀ i u, au_users s !! i = Some u → au_users s0 !! i = None → joined s0 s u) ∧
  (∀ i j u v, au_users s !! i = Some u → au_users s !! j = Some v → au_users s0 !! i = None → au_users s0 !! j = None →
    us_role u = "admin" → us_role v = "admin" → us_tenant_id u = us_tenant_id v → i = j).

Lemma grows_trans a b c : grows a b → grows b c → grows a c.
Proof. intros (A1&A2&A3) (B1&B2&B3). split_and!; [by etrans|by etrans|by eapply db_evolves_trans]. Qed.

Lemma joined_later s0 s s' u : grows s s' → joined s0 s u → joined s0 s' u.
Proof.
  intros (G1&G2&G3) [Hp J]. split; [done|]. destruct J as [(?&t&Ht&?)|[(?&?&t&Ht)|(?&a&Ha&?&?&?&row&Hr&?)]].
  - left. split; [done|]. exists t. split; [|done]. by eapply lookup_weaken.
  - right; left. split_and!; [done|done|]. exists t. by eapply lookup_weaken.
  - right; right. split; [done|]. exists a. split_and!; try done; [by eapply lookup_weaken|].
    exists row. split_and!; try tauto. by apply G3.
Qed.

Lemma joined_earlier s0 s s' u : grows s0 s → joined s s' u → joined s0 s' u.
Proof.
  intros (G1&G2&G3) [Hp J]. split; [done|]. destruct J as [?|[(?&?&?)|?]]; [by left| |by right; right].
  right; left. split_and!; try done. by eapply lookup_weaken_None.
Qed.

Lemma founder_new s0 s u : joined s0 s u → us_role u = "admin" →
  au_tenants s0 !! us_tenant_id u = None ∧ is_Some (au_tenants s !! us_tenant_id u).
Proof. intros [_ [[Hr _]|[(_&?&?)|[Hr _]]]] Ha; [congruence|done|congruence]. Qed.

Lemma membership_trans a b c : grows a b → grows b c → membership a b → membership b c → membership a c.
Proof.
  intros Gab Gbc [Jab Uab] [Jbc Ubc]. split.
  - intros i u Hu Hn. destruct (au_users b !! i) as [u'|] eqn:Hb.
    + assert (u' = u) as ->. { eapply lookup_weaken in Hb; [|exact (proj1 Gbc)]. congruence. }
      by eapply joined_later, Jab.
    + by eapply joined_earlier, Jbc.
  - intros i j u v Hi Hj Hni Hnj Ru Rv Ht.
    assert (Hold : ∀ k w, au_users c !! k = Some w → au_users a !! k = None → us_role w = "admin" →
              (au_users b !! k = Some w ∧ is_Some (au_tenants b !! us_tenant_id w)) ∨
              (au_users b !! k = None ∧ au_tenants b !! us_tenant_id w = None)).
    { intros k w Hw Hnw Rw. destruct (au_users b !! k) as [w'|] eqn:Hb.
      - assert (w' = w) as -> by (eapply lookup_weaken in Hb; [|exact (proj1 Gbc)]; congruence).
        left. split; [done|]. by eapply founder_new in Rw as [_ ?]; [|by eapply Jab].
      - right. split; [done|]. by eapply founder_new in Rw as [? _]; [|by eapply Jbc]. }
    destruct (Hold _ _ Hi Hni Ru) as [[Bu [tu Tu]]|[Bu Tu]], (Hold _ _ Hj Hnj Rv) as [[Bv [tv Tv]]|[Bv Tv]];
      rewrite Ht in Tu; try congruence; [by eapply Uab|by eapply Ubc].
Qed.

Lemma membership_same s s' : au_users s' = au_users s → membership s s'.
Proof. intros E. split; intros *; rewrite E; congruence. Qed.

(** One creating request. *)
Lemma create_membership env q s rep s' :
  creates q = true → auth_body cfg email_str env q s = Ok (rep, s') → grows s (ae_meanwhile env s) → keyed s →
  membership (ae_meanwhile env s) s' ∧ (keyed (ae_meanwhile env s) → keyed s').
Proof.
  intros Hq Hb G [Ku Kt].
  assert (Hone : ∀ u, au_users s' = <[us_id u := u]> (au_users (ae_meanwhile env s)) → joined (ae_meanwhile env s) s' u →
            membership (ae_meanwhile env s) s').
  { intros u E J. split.
    - intros i v Hv Hn. rewrite E in Hv. destruct (decide (i = us_id u)) as [->|]; [|rewrite lookup_insert_ne in Hv by done; congruence].
      rewrite lookup_insert_eq in Hv. by simplify_eq.
    - intros i j v w Hv Hw Hi Hj _ _ _. rewrite E in Hv, Hw.
      destruct (decide (i = us_id u)); [|rewrite lookup_insert_ne in Hv by done; congruence].
      destruct (decide (j = us_id u)); [congruence|rewrite lookup_insert_ne in Hw by done; congruence]. }
  assert (Hkey : ∀ u, au_users s' = <[us_id u := u]> (au_users (ae_meanwhile env s)) →
            (au_tenants s' = au_tenants (ae_meanwhile env s) ∨
             ∃ t, au_tenants s' = <[tn_id (tr_columns t) := t]> (au_tenants (ae_meanwhile env s))) →
            keyed (ae_meanwhile env s) → keyed s').
  { intros u E Et [K1 K2]. split.
    - intros i v. rewrite E, lookup_insert_Some. intros [[<- <-]|[_ Hv]]; [done|by apply K1].
    - intros i t Ht. destruct Et as [Et|[t' Et]]; rewrite Et in Ht; [by apply K2|].
      apply lookup_insert_Some in Ht as [[<- <-]|[_ Ht]]; [done|by apply K2]. }
  destruct q; cbn [creates auth_body] in *; try done.
  - apply bind_ok in Hb as (e & _ & E). apply bind_ok in E as ([u s1] & E & [= <- <-]).
    apply register_spec in E as (_&_&Hp&_&_&Eu&_&_&Ht). split.
    + apply (Hone u Eu). split; [done|]. destruct Ht as [(Hr&->&Et&t&Hs&Hid)|(Hr&Hn&t&Hid&_&Et)].
      * left. split; [done|]. exists t. rewrite Et. unfold get_by_slug in Hs. apply head_Some_elem_of in Hs.
        apply list_elem_of_filter in Hs as [Hslug Hin]. split; [|done].
        apply list_elem_of_fmap in Hin as ([i t'] & -> & Hin). apply elem_of_map_to_list in Hin.
        cbn in *. rewrite Hid, (Kt _ _ Hin). eapply lookup_weaken; [done|]. apply G.
      * right; left. split_and!; [done|done|]. rewrite Et. exists t. apply lookup_insert_eq.
    + apply (Hkey u Eu). destruct Ht as [(_&_&Et&_)|(_&_&t&Hid&_&Et)]; [by left|]. right. exists t. by rewrite Hid.
  - apply bind_ok in Hb as (a0 & Ha & E). apply bind_ok in E as (a & Hr & E). apply bind_ok in E as (e & _ & E).
    apply bind_ok in E as ([u s1] & E & [= <- <-]).
    unfold require_role in Hr. case_bool_decide as Hrole; [|done]. simplify_eq.
    apply list_elem_of_singleton in Hrole. apply current_user_spec in Ha as (t & c & i & _ & _ & _ & Hi & Hact).
    apply add_member_spec in E as (_&Hp&Hr&Ht&Hf&Eu&Et&_&Haud). split.
    + apply (Hone u Eu). split; [done|]. right; right. split; [done|]. exists a. split_and!; try done.
      * pose proof (Ku _ _ Hi) as Hid. rewrite <- Hid in Hi.
        assert (Hm : au_users (ae_meanwhile env s) !! us_id a = Some a) by (eapply lookup_weaken; [done|apply G]).
        rewrite Eu, lookup_insert_ne by congruence. done.
      * eexists. split; [exact Haud|]. cbn. by rewrite Ht.
    + apply (Hkey u Eu). by left.
Qed.

Lemma run_grows x y : auth_run x y → grows (sy_store x) (sy_store y).
Proof. intros (?&?&?&_)%run_extends. by split_and!. Qed.

Lemma run_membership x y :
  auth_run x y → keyed (sy_store x) → membership (sy_store x) (sy_store y) ∧ keyed (sy_store y).
Proof.
  induction 1 as [x|x s log env q s1 rep s' Hr IH _ _ Hq Hd Hb|x s log env q s1 log' rep s' Hr IH _ Hq Hd Hm IH' Hb
                 |x s log env q e s1 _ IH Hh|x s log db Hr IH Hdb]; intros K; [|destruct (IH K) as [M Ks]..].
  - split; [by apply membership_same|done].
  - apply run_grows in Hr as Gr. apply auth_deps_frame in Hd as (r & ->). apply other_body_frame in Hb as (E1&E2&E3); [|done].
    cbn in *. split; [|by split; cbn; rewrite ?E1, ?E2; apply Ks].
    eapply membership_trans; [exact Gr| |exact M|]; [split_and!; [by rewrite E1|by rewrite E2|done]|by apply membership_same].
  - apply run_grows in Hr as Gr. apply run_grows in Hm as Gm. apply auth_deps_frame in Hd as (r & ->). cbn in *.
    destruct (IH' Ks) as [M' K'].
    pose proof (create_body_frame _ _ _ _ _ Hq Hb) as Gb. destruct (create_membership _ _ _ _ _ Hq Hb Gm Ks) as [Mb Kb].
    split; [|by apply Kb]. eapply membership_trans; [|exact Gb| |exact Mb].
    + by eapply grows_trans; [exact Gr|].
    + by eapply membership_trans; [exact Gr|exact Gm|exact M|].
  - apply refused_frame in Hh as (r & ->). exact (conj M Ks).
  - split; [|exact Ks]. eapply membership_trans; [by apply run_grows| |exact M|by apply membership_same].
    split_and!; [done|done|exact Hdb].
Qed.


(** ** What a token proves *)

Abbreviation log_t := (list (AuthEnv * auth_request * auth_reply)).

(** A login of this account was answered. *)
Definition logged_in (log : log_t) (u : User) : Prop :=
  ∃ env email password a r, (env, Login email password, RTokens a r) ∈ log ∧
    email_str email = Some (us_email u) ∧ verify_password password (us_hashed_password u) = true.

(** A user who may watch a job: its owner, or an operator of its tenant. *)
Definition may_watch (db : DB) (u : User) (job : uuid) : Prop :=
  ∃ j, db_jobs db !! job = Some j ∧ job_tenant_id j = us_tenant_id u ∧
       (privileged (role_of (us_role u)) = true ∨ job_user_id j = us_id u).

Definition event_ok (s : AuthStore) (log : log_t) (e : AuthEnv * auth_request * auth_reply) : Prop :=
  let '(env, q, rep) := e in
  match rep with
  | RTokens a r =>
      ∃ u j1 j2, au_users s !! us_id u = Some u ∧ logged_in log u ∧
        a = encode (access_of (ae_clock env) u j1) ∧ r = encode (refresh_of (λ n, ae_clock env (2 + n)%nat) u j2)
  | RStreamToken t =>
      ∃ b job u jti, q = IssueStreamToken b job ∧ (job < uuid_bound)%N ∧ au_users s !! us_id u = Some u ∧ logged_in log u ∧
        us_is_active u = true ∧ may_watch (au_db s) u job ∧ t = encode (stream_of (ae_clock env) job (us_tenant_id u) jti)
  | _ => True
  end.

Definition log_ok (y : AuthSys) : Prop := ∀ e, e ∈ sy_log y → event_ok (sy_store y) (sy_log y) e.

(** The identifiers of the accounts are UUIDs. *)
Definition bounded (s : AuthStore) : Prop :=
  ∀ i u, au_users s !! i = Some u → (i < uuid_bound)%N ∧ (us_tenant_id u < uuid_bound)%N.

Lemma bounded_grows s s' : grows s s' → bounded s' → bounded s.
Proof. intros G B i u Hu. eapply B, lookup_weaken; [done|apply G]. Qed.

Lemma logged_in_mono (log log' : log_t) u : (∀ e, e ∈ log → e ∈ log') → logged_in log u → logged_in log' u.
Proof. intros Hl (env&em&pw&a&r&?&?). exists env, em, pw, a, r. naive_solver. Qed.

Lemma may_watch_grows db db' u job : db_evolves db db' → may_watch db u job → may_watch db' u job.
Proof.
  intros (E&_) (j & Hj & Ht & Hw). apply E in Hj as (j' & Hj' & _ & Et & Eu & _). exists j'.
  rewrite Et, Eu. done.
Qed.

Lemma event_ok_mono s s' (log log' : log_t) e :
  grows s s' → (∀ e, e ∈ log → e ∈ log') → event_ok s log e → event_ok s' log' e.
Proof.
  intros G Hl. destruct e as [[env q] [u sl|a r|t|t]]; cbn; try done.
  - intros (u&j1&j2&Hu&Hi&?). exists u, j1, j2. split_and!; try tauto; [eapply lookup_weaken; [done|apply G]|by eapply logged_in_mono].
  - intros (b&job&u&jti&?&?&Hu&Hi&?&Hw&?). exists b, job, u, jti.
    split_and!; try done; [eapply lookup_weaken; [done|apply G]|by eapply logged_in_mono|eapply may_watch_grows; [apply G|done]].
Qed.

Lemma log_ok_extend s s' (log log' : log_t) :
  grows s s' → log_ok (mkSys s log) → (∀ e, e ∈ log → e ∈ log') →
  (∀ e, e ∈ log' → e ∈ log ∨ event_ok s' log' e) → log_ok (mkSys s' log').
Proof. intros G L Hl Hn e He. destruct (Hn e He) as [Hin|?]; [|done]. eapply event_ok_mono; [done|done|]. by apply L. Qed.

Lemma minted_elem (log : log_t) t : t ∈ minted log → ∃ e, e ∈ log ∧ t ∈ tokens_of e.2.
Proof. intros (l & Ht & Hl)%list_elem_of_join. apply list_elem_of_fmap in Hl as (e & -> & He). eauto. Qed.

Lemma decode_kind now clock data delta τ jti τ' c :
  token_claims (token_payload clock data delta τ jti) = true →
  decode_token cfg now (encode (token_payload clock data delta τ jti)) τ' = Ok c →
  τ = τ' ∧ c = token_payload clock data delta τ jti ∧ claims_live now (token_payload clock data delta τ jti) = true.
Proof.
  intros Hc. rewrite decode_payload by done. destruct (claims_live _ _) eqn:Hl; [|done].
  case_bool_decide; [|done]. by intros [= <-].
Qed.

(** The account behind a session token of either kind. *)
Lemma session_token s (log : log_t) now t τ c i u :
  log_ok (mkSys s log) → keyed s → bounded s → t ∈ minted log → τ = "access" ∨ τ = "refresh" →
  decode_token cfg now t τ = Ok c → subject_of c = Ok i → au_users s !! i = Some u →
  logged_in log u ∧ (τ = "access" → ∃ env q r, (env, q, RTokens t r) ∈ log ∧
                                    (now / 1000000 ≤ (ae_clock env 0%nat + access_token_expire_minutes cfg * 60 * 1000000) / 1000000)%Z).
Proof.
  intros L K B Hm Hτ Hd Hsub Hu. apply minted_elem in Hm as ([[env q] rep] & He & Ht). apply L in He as Hok.
  assert (Hsame : ∀ clock u' delta τ' jti, au_users s !! us_id u' = Some u' →
            subject_of (token_payload clock (token_data u') delta τ' jti) = Ok i → u' = u).
  { intros clock u' delta τ' jti Hu' E. rewrite (subject_juuid _ (us_id u')) in E; [|apply session_sub|by eapply (B _ _ Hu')].
    by simplify_eq. }
  destruct rep as [u' sl|a r|st|tn]; cbn [event_ok tokens_of snd] in Ht, Hok; try (by apply not_elem_of_nil in Ht).
  - destruct Hok as (u' & j1 & j2 & Hu' & Hlog & -> & ->). apply elem_of_cons in Ht as [->|Ht%list_elem_of_singleton]; [|subst t].
    + apply decode_kind in Hd as (<- & -> & Hlive); [|apply session_claims].
      assert (u' = u) as -> by (by eapply Hsame). split; [done|]. intros _. eexists env, q, _. split; [exact He|].
      rewrite (live_exp _ _ _ (session_exp _ _ _ _ _)) in Hlive. by apply Z.leb_le.
    + apply decode_kind in Hd as (<- & -> & _); [|apply session_claims].
      assert (u' = u) as -> by (by eapply Hsame). split; [done|]. done.
  - destruct Hok as (b & job & u' & jti & _ & _ & _ & _ & _ & _ & ->). apply list_elem_of_singleton in Ht as ->.
    apply decode_kind in Hd as (<- & _); [|apply stream_claims]. by destruct Hτ.
Qed.

Lemma bearer_logged_in s (log : log_t) now b u :
  log_ok (mkSys s log) → keyed s → bounded s → (∀ t, b = Some t → unforged log t) →
  get_current_user cfg now b s = Ok u → logged_in log u ∧ au_users s !! us_id u = Some u ∧ us_is_active u = true.
Proof.
  intros L K B Hf Hg. apply current_user_spec in Hg as (t & c & i & -> & Hd & Hs & Hu & Ha).
  assert (Hm : t ∈ minted log) by (eapply Hf; [done|by apply decode_ok in Hd]).
  destruct (session_token s log now t "access" c i u) as [Hl _]; auto.
  split_and!; [done| |done]. by rewrite (proj1 K _ _ Hu).
Qed.

(** The event of a request that creates nobody. *)
Lemma other_event s (log : log_t) env q rep s' :
  log_ok (mkSys s log) → keyed s → bounded s → (∀ t, presented q = Some t → unforged log t) → path_uuid q → creates q = false →
  auth_body cfg email_str env q s = Ok (rep, s') → event_ok s' (log ++ [(env, q, rep)]) (env, q, rep).
Proof.
  intros L K B Hf Hp Hq Hb. destruct q; cbn [creates auth_body presented path_uuid] in *; try done.
  - apply bind_ok in Hb as (e & He & E). apply bind_ok in E as ([[a r] s1] & E & [= <- <-]).
    apply login_spec in E as (u & j1 & j2 & Hu & Hv & Ha & Ea & Er & Eu & _). cbn [event_ok]. exists u, j1, j2.
    unfold get_by_email in Hu. apply head_Some_elem_of in Hu. apply list_elem_of_filter in Hu as [Hem Hin].
    apply list_elem_of_fmap in Hin as ([i u'] & Eu' & Hin). cbn in Eu'. subst u'. apply elem_of_map_to_list in Hin.
    split_and!; [by rewrite Eu, (proj1 K _ _ Hin)| |done|done].
    eexists env, email, password, a, r. split_and!; [apply elem_of_app; right; by apply list_elem_of_singleton| |done].
    unfold valid_credentials in He. destruct (email_str email); [|done]. destruct (8 <=? _)%nat; [|done]. by simplify_eq.
  - apply bind_ok in Hb as ([[a r] s1] & E & [= <- <-]).
    apply refresh_spec in E as (c & u & j1 & j2 & Hd & (i & Hs & Hu) & Ea & Er & Eu & _). cbn [event_ok]. exists u, j1, j2.
    assert (Hm : refresh_token ∈ minted log) by (eapply Hf; [done|by apply decode_ok in Hd]).
    destruct (session_token s log _ _ "refresh" c i u L K B Hm ltac:(by right) Hd Hs Hu) as [Hl _].
    split_and!; [by rewrite Eu, (proj1 K _ _ Hu)| |done|done].
    eapply logged_in_mono; [|exact Hl]. intros e He. apply elem_of_app. by left.
  - apply bind_ok in Hb as (u & _ & [= <- <-]). done.
  - apply bind_ok in Hb as (u & Hg & E). apply bind_ok in E as ([t s1] & E & [= <- <-]).
    destruct (bearer_logged_in s log _ _ u L K B Hf Hg) as (Hl & Hu & Ha).
    apply issue_spec in E as (j & jti & Hj & Et & Eu & _ & Ed). cbn [event_ok]. exists bearer, job, u, jti.
    split_and!; try done; [by rewrite Eu| | ].
    + eapply logged_in_mono; [|exact Hl]. intros e He. apply elem_of_app. by left.
    + eapply may_watch_grows; [exact Ed|]. unfold get_job, get_for_tenant in Hj.
      destruct (db_jobs (au_db s) !! job) as [j'|] eqn:Hjob; [|done]. case_bool_decide as Htn; [|done].
      destruct (negb _ && _) eqn:Hw; [done|]. simplify_eq. exists j. split_and!; [done|done|].
      apply andb_false_iff in Hw as [Hw|Hw]; reflect_bools; [by left|right; by apply dec_stable].
  - apply bind_ok in Hb as (t & _ & [= <- <-]). done.
Qed.

Lemma run_log_ok x y :
  auth_run x y → keyed (sy_store x) → log_ok x → bounded (sy_store y) → log_ok y.
Proof.
  induction 1 as [x|x s log env q s1 rep s' Hr IH Hf Hp Hq Hd Hb|x s log env q s1 log' rep s' Hr IH Hf Hq Hd Hm IH' Hb
                 |x s log env q e s1 Hr IH Hh|x s log db Hr IH Hdb]; intros K L B; [done|..];
    destruct (run_membership _ _ Hr K) as [_ Ks]; cbn in *.
  - apply auth_deps_frame in Hd as (r & ->). pose proof (other_body_frame _ _ _ _ _ Hq Hb) as (E1&E2&E3).
    assert (G : grows s s') by (split_and!; [by rewrite E1|by rewrite E2|done]).
    assert (Bs : bounded s) by (by eapply bounded_grows). pose proof (IH K L Bs) as Ls.
    eapply log_ok_extend; [exact G|exact Ls|intros e He; apply elem_of_app; by left|].
    intros e [He|He%list_elem_of_singleton]%elem_of_app; [by left|right; subst e].
    by eapply (other_event (with_auth_redis r s)).
  - apply auth_deps_frame in Hd as (r & ->). pose proof (create_body_frame _ _ _ _ _ Hq Hb) as Gb.
    pose proof (run_grows _ _ Hm) as Gm. cbn in Gm.
    assert (Bm : bounded (ae_meanwhile env (with_auth_redis r s))) by (by eapply bounded_grows).
    assert (Ls : log_ok (mkSys s log)) by (apply IH; [done|done|by eapply bounded_grows; [exact Gm|]]).
    assert (Lm : log_ok (mkSys (ae_meanwhile env (with_auth_redis r s)) log')) by (apply IH'; [exact Ks|exact Ls|done]).
    eapply log_ok_extend; [exact Gb|exact Lm|intros e He; apply elem_of_app; by left|].
    intros e [He|He%list_elem_of_singleton]%elem_of_app; [by left|right; subst e].
    destruct q; cbn [creates auth_body] in *; try done; apply bind_ok in Hb as (e1 & _ & E);
      repeat (apply bind_ok in E as ([] & _ & E) || apply bind_ok in E as (? & _ & E)); by simplify_eq.
  - apply refused_frame in Hh as (r & ->). exact (IH K L B).
  - eapply log_ok_extend; [|exact (IH K L B)|done|by left]. by split_and!.
Qed.

(** C30: A bearer token is accepted only for an active account that logged in before with its
    password, directly or through refreshes, and only within the life of the answer that
    minted it; a refresh or stream token never passes as an access token. *)
Theorem access_follows_login x y now t u :
  auth_run x y → keyed (sy_store x) → sy_log x = [] → bounded (sy_store y) → unforged (sy_log y) t →
  get_current_user cfg now (Some t) (sy_store y) = Ok u →
  us_is_active u = true ∧ logged_in (sy_log y) u ∧
  ∃ env q r, (env, q, RTokens t r) ∈ sy_log y ∧
    (now / 1000000 ≤ (ae_clock env 0%nat + access_token_expire_minutes cfg * 60 * 1000000) / 1000000)%Z.
Proof.
  intros Hr K Hlog B Hf Hg. assert (L : log_ok x) by (intros e He; rewrite Hlog in He; by apply not_elem_of_nil in He).
  destruct (run_membership _ _ Hr K) as [_ Ky]. apply run_log_ok in Hr as Ly; [|done..].
  apply current_user_spec in Hg as (t' & c & i & [= <-] & Hd & Hs & Hu & Ha).
  assert (Hm : t ∈ minted (sy_log y)) by (eapply Hf; by apply decode_ok in Hd).
  destruct y as [s log]. destruct (session_token s log now t "access" c i u) as [Hl Hage]; auto.
Qed.

Lemma authorize_spec now t job tenant :
  authorize_stream cfg now (Some t) job = Ok tenant →
  ∃ c, decode_token cfg now t "stream" = Ok c ∧ is_str (dget c "sub") (uuid_str job) = true ∧
       uuid_parse (py_str_opt (dget c "tenant_id")) = Some tenant.
Proof.
  unfold authorize_stream. intros (c & Hd & Ha)%bind_ok. exists c. destruct (is_str _ _); [|done]. cbn in Ha.
  destruct (uuid_parse _); [|done]. by simplify_eq.
Qed.

(** A job's stream opens only on a token minted for that very job, less than 61 seconds
    ago, for an active, logged-in account of the job's tenant that owns the job or operates
    the tenant. *)
Theorem stream_access_authorised x y now t job tenant :
  auth_run x y → keyed (sy_store x) → sy_log x = [] → bounded (sy_store y) → unforged (sy_log y) t → (job < uuid_bound)%N →
  authorize_stream cfg now (Some t) job = Ok tenant →
  ∃ env b u, (env, IssueStreamToken b job, RStreamToken t) ∈ sy_log y ∧ (now < ae_clock env 0%nat + 61 * 1000000)%Z ∧
    au_users (sy_store y) !! us_id u = Some u ∧ us_tenant_id u = tenant ∧ us_is_active u = true ∧
    logged_in (sy_log y) u ∧ may_watch (au_db (sy_store y)) u job.
Proof.
  intros Hr K Hlog B Hf Hjob Ha. assert (L : log_ok x) by (intros e He; rewrite Hlog in He; by apply not_elem_of_nil in He).
  apply run_log_ok in Hr as Ly; [|done..].
  apply authorize_spec in Ha as (c & Hd & Hsub & Ha). assert (Hm : t ∈ minted (sy_log y)) by (eapply Hf; by apply decode_ok in Hd).
  apply minted_elem in Hm as ([[env q] rep] & He & Ht). apply Ly in He as Hok.
  destruct rep as [u' sl|a r|st|tn]; cbn [event_ok tokens_of snd] in Ht, Hok; try (by apply not_elem_of_nil in Ht).
  - destruct Hok as (u' & j1 & j2 & _ & _ & -> & ->).
    apply elem_of_cons in Ht as [->|Ht%list_elem_of_singleton]; [|subst t];
      apply decode_kind in Hd as (Hk & _); [done|apply session_claims|done|apply session_claims].
  - destruct Hok as (b & job' & u & jti & -> & Hjob' & Hu & Hl & Hact & Hw & ->). apply list_elem_of_singleton in Ht as ->.
    apply decode_kind in Hd as (_ & -> & Hlive); [|apply stream_claims].
    rewrite (live_exp _ _ _ (stream_exp _ _ _ _ _)) in Hlive. rewrite stream_sub, is_str_juuid in Hsub. rewrite stream_tenant, py_str_juuid in Ha.
    apply bool_decide_eq_true, uuid_str_inj in Hsub as ->; [|done..].
    rewrite uuid_parse_str in Ha by (by eapply (B _ _ Hu)). simplify_eq.
    exists env, b, u. split_and!; try done.
    apply Z.leb_le in Hlive. pose proof (Z.mod_pos_bound now 1000000). pose proof (Z.div_mod now 1000000).
    pose proof (Z.div_mod (ae_clock env 0%nat + STREAM_TOKEN_TTL_SECONDS * 1000000) 1000000).
    pose proof (Z.mod_pos_bound (ae_clock env 0%nat + STREAM_TOKEN_TTL_SECONDS * 1000000) 1000000).
    unfold STREAM_TOKEN_TTL_SECONDS in *. lia.
Qed.

(** A successful registration can be used: the same address and password log in, and the
    access token of that login is accepted as the new account for as long as it lives. *)
Theorem registration_logs_in env email password slug name s u s' env' :
  register env email password slug name s = Ok (u, s') → (String.length password ≤ 72)%nat → (us_id u < uuid_bound)%N →
  ∃ a r s'', login cfg env' email password s' = Ok (a, r, s'') ∧
    ∀ now, (now / 1000000 ≤ (ae_clock env' 0%nat + access_token_expire_minutes cfg * 60 * 1000000) / 1000000)%Z →
      get_current_user cfg now (Some a) s'' = Ok u.
Proof.
  intros Hr Hp Hb. apply register_spec in Hr as (<-&Ha&_&_&Hem&Eu&Hh&_).
  assert (Hfind : get_by_email (us_email u) s' = Some u).
  { unfold get_by_email. set (l := filter _ _).
    assert (Hin : u ∈ l).
    { apply list_elem_of_filter. split; [done|]. apply list_elem_of_fmap. exists (us_id u, u). split; [done|].
      apply elem_of_map_to_list. rewrite Eu. apply lookup_insert_eq. }
    assert (Hall : ∀ v, v ∈ l → v = u).
    { intros v [Hv Hin']%list_elem_of_filter. apply list_elem_of_fmap in Hin' as ([i v'] & Ev & Hi). cbn in Ev. subst v'.
      apply elem_of_map_to_list in Hi. rewrite Eu in Hi. apply lookup_insert_Some in Hi as [[_ <-]|[_ Hi]]; [done|].
      by apply Hem in Hi. }
    destruct l as [|v l]; [by apply not_elem_of_nil in Hin|]. cbn. f_equal. apply Hall. left. }
  destruct (checkpw_hashpw password (ae_salt env) Hp) as (h & Eh & Hc).
  assert (us_hashed_password u = h) as <- by (unfold hash_password in Hh; rewrite Eh in Hh; by simplify_eq).
  unfold login. rewrite Hfind. unfold verify_password. rewrite Hc, Ha. cbn [default negb].
  destruct (token_pair cfg (ae_clock env') u (au_db s')) as [[a r] db] eqn:Et.
  apply token_pair_spec in Et as ((j1 & j2 & -> & ->) & _). eexists _, _, _. split; [reflexivity|].
  intros now Hnow. unfold get_current_user, access_of. rewrite decode_payload by apply session_claims.
  rewrite (live_exp _ _ _ (session_exp _ _ _ _ _)). apply Z.leb_le in Hnow. rewrite Hnow, bool_decide_true by done.
  rewrite bind_return, (subject_juuid _ (us_id u)) by (apply session_sub || done). rewrite bind_return.
  cbn [audit_user with_auth_db au_users]. rewrite Eu, lookup_insert_eq, Ha, session_tenant. cbn [negb].
  destruct (juuid (us_tenant_id u)) as [| | | |t| |] eqn:Ej; try discriminate Ej. rewrite <- Ej, is_str_juuid.
  by rewrite bool_decide_true.
Qed.
End Props.

(** ** Worked examples *)

Module AuthExample.

(** A signature that is the text itself, and a hash that is the password. *)
Definition signed (key alg : string) (c : dict) : string := json_dumps (JList [JStr key; JStr alg; JObj c]).

#[local] Existing Instance printed_codec.

Definition opened (now : Z) (key alg t : string) : option dict :=
  match json_loads t with
  | Some (JList [JStr k; JStr a; JObj c]) => if bool_decide (k = key ∧ a = alg) && claims_live now c then Some c else None
  | _ => None
  end.

Lemma opened_signed now key alg c :
  token_claims c = true → opened now key alg (signed key alg c) = if claims_live now c then Some c else None.
Proof.
  intros Hc. unfold opened, signed. apply andb_true_iff in Hc as [Hc _]. rewrite loads_dumps.
  - rewrite bool_decide_true by done. done.
  - change (json_plain (JList [JStr key; JStr alg; JObj c])) with (json_plain (JObj c) && true). by rewrite Hc.
Qed.

Definition clear_jwt : JwtLib := {| jwt_encode := signed; jwt_decode := opened; jwt_decode_encode := opened_signed |}.

Definition clear_hash (p salt : string) : option string := if (String.length p <=? 72)%nat then Some p else None.
Definition clear_check (p h : string) : option bool := Some (bool_decide (h = p)).

Lemma clear_check_hash p salt :
  (String.length p ≤ 72)%nat → ∃ h, clear_hash p salt = Some h ∧ clear_check p h = Some true.
Proof. intros Hp. exists p. apply Nat.leb_le in Hp. unfold clear_hash, clear_check. rewrite Hp. by rewrite bool_decide_true. Qed.

Definition clear_bcrypt : BcryptLib := {| hashpw := clear_hash; checkpw := clear_check; checkpw_hashpw := clear_check_hash |}.

#[local] Existing Instance clear_jwt.
#[local] Existing Instance clear_bcrypt.

Definition cfg : AuthSettings := mkAuthSettings "key" "HS256" 30 7.
Definition at_time : Z := 1700000000000000.
Definition env : AuthEnv := mkAuthEnv (λ n, (at_time + Z.of_nat n)%Z) "salt" (λ s, s) (inject_Z 1700000000) (λ _, Answered) None (Some "10.0.0.1").

(** The shared tenant and one job of user 1 in tenant 2 (the identifiers the run draws). *)
Definition shared : TenantRow := mkTenantRow (mkTenant 500 "default" 120 100000) "Default" true 0.
Definition job7 : Job :=
  mkJob 7 1 2 "csv_upload" RUNNING None (Some []) None None 0 3 None None None None 0 None None None None None None None 0 0.
Definition start : AuthStore := mkAuth ∅ {[ 500%N := shared ]} (mkDB {[ 7%N := job7 ]} [] [] [] ∅ 0) ∅.

Definition answer (q : auth_request) (s : AuthStore) : auth_reply :=
  match (handle_auth cfg Some env q s).1 with Ok r => r | Err _ => RStream 0 end.
Definition next (q : auth_request) (s : AuthStore) : AuthStore := (handle_auth cfg Some env q s).2.
Definition bearer_of (r : auth_reply) : option string := match r with RTokens a _ => Some a | RStreamToken t => Some t | _ => None end.

Definition q1 : auth_request := Register "ada@x.io" "password" "acme" (Some "Acme").
Definition s1 := next q1 start.
Definition q2 : auth_request := Login "ada@x.io" "password".
Definition s2 := next q2 s1.
Definition access := bearer_of (answer q2 s1).
Definition q3 : auth_request := AddMember access "bob@x.io" "password".
Definition s3 := next q3 s2.
Definition q4 : auth_request := IssueStreamToken access 7.
Definition s4 := next q4 s3.
Definition log4 : list (AuthEnv * auth_request * auth_reply) :=
  [(env, q1, answer q1 start); (env, q2, answer q2 s1); (env, q3, answer q3 s2); (env, q4, answer q4 s3)].

Lemma minted_unforged log t : t ∈ minted log → unforged cfg log t.
Proof. by intros ? ? ? _. Qed.

Lemma minted_app (l1 l2 : list (AuthEnv * auth_request * auth_reply)) t : t ∈ minted l1 ∨ t ∈ minted l2 → t ∈ minted (l1 ++ l2).
Proof. unfold minted. rewrite fmap_app, join_app, elem_of_app. done. Qed.

(** One more request that is answered. *)
Lemma run_answer x s log q :
  auth_run cfg Some x (mkSys s log) → (∀ t, presented q = Some t → t ∈ minted log) → path_uuid q →
  is_ok (handle_auth cfg Some env q s).1 = true →
  auth_run cfg Some x (mkSys (next q s) (log ++ [(env, q, answer q s)])).
Proof.
  intros Hr Hm Hp Hok. unfold next, answer.
  destruct (handle_auth cfg Some env q s) as [o s'] eqn:E. unfold handle_auth in E.
  destruct (auth_deps cfg env q s) as [[[]|e] s1] eqn:Ed; [|by simplify_eq].
  destruct (auth_body cfg Some env q s1) as [[rep s'']|] eqn:Eb; [|by simplify_eq]. simplify_eq. cbn.
  destruct (creates q) eqn:Hq.
  - eapply run_create; eauto using minted_unforged. apply run_refl.
  - eapply run_other; eauto using minted_unforged.
Qed.

Lemma access_minted : ∀ t, access = Some t → t ∈ minted [(env, q1, answer q1 start); (env, q2, answer q2 s1)].
Proof.
  unfold access, minted. intros t Ht. cbn [fmap list_fmap snd mjoin list_join]. apply elem_of_app. right.
  destruct (answer q2 s1) as [|a r|t'|]; cbn in Ht; simplify_eq; apply elem_of_app; left; left.
Qed.

(** The administrator registers, logs in, enrols a colleague and asks for a stream token. *)
Lemma run4 : auth_run cfg Some (mkSys start []) (mkSys s4 log4).
Proof.
  change log4 with (((([] ++ [(env, q1, answer q1 start)]) ++ [(env, q2, answer q2 s1)]) ++ [(env, q3, answer q3 s2)]) ++ [(env, q4, answer q4 s3)]).
  assert (O1 : is_ok (handle_auth cfg Some env q1 start).1 = true) by (vm_compute; reflexivity).
  assert (O2 : is_ok (handle_auth cfg Some env q2 s1).1 = true) by (vm_compute; reflexivity).
  assert (O3 : is_ok (handle_auth cfg Some env q3 s2).1 = true) by (vm_compute; reflexivity).
  assert (O4 : is_ok (handle_auth cfg Some env q4 s3).1 = true) by (vm_compute; reflexivity).
  refine (run_answer _ s3 _ q4 (run_answer _ s2 _ q3 (run_answer _ s1 _ q2 (run_answer _ start _ q1 (run_refl _ _ _) _ I O1) _ I O2)
            _ I O3) _ _ O4).
  - intros t Ht. discriminate Ht.
  - intros t Ht. discriminate Ht.
  - exact access_minted.
  - intros t Ht. apply minted_app. left. by apply access_minted.
  - cbn. done.
Qed.

Lemma start_keyed : keyed start.
Proof.
  split; intros i x Hx; cbn in Hx; [by rewrite lookup_empty in Hx|].
  apply lookup_singleton_Some in Hx as [<- <-]. reflexivity.
Qed.

Lemma s4_bounded : bounded s4.
Proof.
  assert (Hall : forallb (λ kv, (kv.1 <? uuid_bound)%N && (us_tenant_id kv.2 <? uuid_bound)%N) (map_to_list (au_users s4)) = true)
    by (vm_compute; reflexivity).
  intros i u Hu. apply elem_of_map_to_list, list_elem_of_In in Hu. rewrite forallb_forall in Hall. apply Hall in Hu.
  apply andb_true_iff in Hu as [H1%N.ltb_lt H2%N.ltb_lt]. done.
Qed.


Lemma access_follows_login_witness :
  ∃ t u, access = Some t ∧ get_current_user cfg at_time (Some t) s4 = Ok u ∧ us_email u = "ada@x.io" ∧ logged_in Some log4 u.
Proof.
  destruct access as [t|] eqn:Ea; [|exfalso; vm_compute in Ea; discriminate].
  assert (Hu : ∃ u, get_current_user cfg at_time access s4 = Ok u ∧ us_email u = "ada@x.io")
    by (eexists; split; vm_compute; reflexivity).
  rewrite Ea in Hu. destruct Hu as (u & Hu & He). exists t, u. split_and!; [done|done|done|].
  apply (access_follows_login cfg Some (mkSys start []) (mkSys s4 log4) at_time t u run4 start_keyed eq_refl s4_bounded); [|exact Hu].
  apply minted_unforged, (minted_app [(env, q1, answer q1 start); (env, q2, answer q2 s1)]). left. by apply access_minted.
Defined.

Lemma stream_access_authorised_witness :
  ∃ t, bearer_of (answer q4 s3) = Some t ∧ authorize_stream cfg at_time (Some t) 7 = Ok 1%N ∧
       ∃ u, us_tenant_id u = 1%N ∧ may_watch (au_db s4) u 7.
Proof.
  destruct (answer q4 s3) as [|a r|t|] eqn:Ea; try (exfalso; vm_compute in Ea; discriminate). exists t. split; [done|].
  assert (Ht : authorize_stream cfg at_time (bearer_of (answer q4 s3)) 7 = Ok 1%N) by (vm_compute; reflexivity).
  rewrite Ea in Ht. split; [exact Ht|].
  destruct (stream_access_authorised cfg Some (mkSys start []) (mkSys s4 log4) at_time t 7 1%N run4 start_keyed eq_refl s4_bounded)
    as (e & b & u & _ & _ & _ & Hu & _ & _ & Hw); [|done|exact Ht|].
  - apply minted_unforged, (minted_app [(env, q1, answer q1 start); (env, q2, answer q2 s1); (env, q3, answer q3 s2)] [(env, q4, answer q4 s3)]).
    right. rewrite Ea. left.
  - exists u. split; [exact Hu|exact Hw].
Defined.

Lemma registration_logs_in_witness :
  ∃ u s, register env "eve@x.io" "password" "default" None start = Ok (u, s) ∧
    ∃ a r s', login cfg env "eve@x.io" "password" s = Ok (a, r, s') ∧ get_current_user cfg at_time (Some a) s' = Ok u.
Proof.
  destruct (register env "eve@x.io" "password" "default" None start) as [[u s]|] eqn:E; [|exfalso; vm_compute in E; discriminate].
  exists u, s. split; [done|].
  destruct (registration_logs_in cfg env "eve@x.io" "password" "default" None start u s env E) as (a & r & s' & Hl & Hg).
  - vm_compute. lia.
  - assert (Ei : match register env "eve@x.io" "password" "default" None start with Ok (u, _) => us_id u | Err _ => 0%N end = 1%N)
      by (vm_compute; reflexivity).
    rewrite E in Ei. by rewrite Ei.
  - exists a, r, s'. split; [exact Hl|]. apply Hg. vm_compute. discriminate.
Defined.
End AuthExample.
