(* ===== verification/Progress.v ===== *)
(** * Progress events and their streams (workers/progress.py, progress_broker.py,
      sse_consumer.py, api/streaming.py)

    A progress event is retained under one Redis key per job and published on the job's
    channel, unless what is retained supersedes it.  One broker per process reads every
    channel over one connection and hands events to the queues of the open streams, of
    which there is a bounded number. *)
From stdpp Require Import base tactics numbers option list gmap strings.
From Stdlib Require Import ZArith QArith.
From S2P Require Import Prelude PyData Codec Models Database JobRepo Redis JobService Auth.

(** ** workers/progress.py *)

Definition CHANNEL_PREFIX : string := "job:progress".
Definition LAST_EVENT_PREFIX : string := "job:progress:last".
Definition LAST_EVENT_TTL_SECONDS : Q := 3600.
Definition PROGRESS_TERMINAL_STATUSES : list string := ["completed"; "failed"; "dead_letter"; "cancelled"].

(** [ProgressEvent], as [publish] builds it. *)
Record ProgressEvent := mkProgress {
  pe_job_id : string;
  pe_status : string;
  pe_progress : Z;
  pe_message : string;
  pe_retry_count : Z;
  pe_timestamp : string;
  pe_source : string;
  pe_sequence : option Z
}.

Definition is_terminal_event (e : ProgressEvent) : bool := bool_decide (pe_status e ∈ PROGRESS_TERMINAL_STATUSES).

(** [asdict], and [to_json]. *)
Definition event_dict (e : ProgressEvent) : dict :=
  [("job_id", JStr (pe_job_id e)); ("status", JStr (pe_status e)); ("progress", JInt (pe_progress e));
   ("message", JStr (pe_message e)); ("retry_count", JInt (pe_retry_count e)); ("timestamp", JStr (pe_timestamp e));
   ("source", JStr (pe_source e)); ("sequence", match pe_sequence e with Some n => JInt n | None => JNull end)].

Definition to_json (e : ProgressEvent) : string := json_dumps (JObj (event_dict e)).

Definition progress_channel (job : string) : string := CHANNEL_PREFIX +:+ ":" +:+ job.
Definition last_key (job : string) : string := LAST_EVENT_PREFIX +:+ ":" +:+ job.

Definition field_names : list string :=
  ["job_id"; "status"; "progress"; "message"; "retry_count"; "timestamp"; "source"; "sequence"].

(** An optional field of the constructor, with its default. *)
Definition field_or {A} (read : json → option A) (dflt : A) (o : option json) : option A :=
  match o with None => Some dflt | Some j => read j end.
Definition str_field (j : json) : option string := match j with JStr s => Some s | _ => None end.
Definition int_field (j : json) : option Z := match j with JInt z => Some z | _ => None end.
Definition seq_field (j : json) : option (option Z) := match j with JNull => Some None | JInt z => Some (Some z) | _ => None end.

(** The constructor called with the entries of [d], for values of the declared types; [__post_init__] fills an empty
    timestamp. *)
Definition event_of_dict (now : Z) (d : dict) : option ProgressEvent :=
  job ← dget d "job_id" ≫= str_field;
  status ← dget d "status" ≫= str_field;
  progress ← dget d "progress" ≫= int_field;
  message ← dget d "message" ≫= str_field;
  retries ← field_or int_field 0%Z (dget d "retry_count");
  stamp ← field_or str_field "" (dget d "timestamp");
  source ← field_or str_field "" (dget d "source");
  sequence ← field_or seq_field None (dget d "sequence");
  Some (mkProgress job status progress message retries (if bool_decide (stamp = "") then isoformat now else stamp) source sequence).

Section Snapshot.
Context `{PyCodec}.

(** [_parse_event]: unknown keys are dropped. *)
Definition parse_event (now : Z) (raw : string) : option ProgressEvent :=
  match json_loads raw with
  | Some (JObj d) => event_of_dict now (filter (λ kv, kv.1 ∈ field_names) d)
  | _ => None
  end.

(** [_supersedes]. *)
Definition supersedes (new : ProgressEvent) (retained : option ProgressEvent) : bool :=
  match retained with
  | None => true
  | Some old =>
      if is_terminal_event old && negb (is_terminal_event new) then false
      else negb (bool_decide (pe_source new ≠ "") && bool_decide (pe_source new = pe_source old) &&
                 match pe_sequence new, pe_sequence old with Some n, Some o => (n <=? o)%Z | _, _ => false end)
  end.

(** [read_last_event]. *)
Definition read_last_event (now : Z) (t : Q) (job : string) (r : Redis) : result exn (option ProgressEvent) :=
  raw ← r_get t (last_key job) r;
  Ok match raw with
     | Some (RStr s) => parse_event now s
     | Some (RInt z) => parse_event now (show_Z z)
     | _ => None
     end.

(** The two halves of [publish]: read and retain; then fan out. *)
Definition new_event (now : Z) (job status : string) (progress : Z) (message : string) (retries : Z) (source : string)
    (sequence : option Z) : ProgressEvent :=
  mkProgress job status progress message retries (isoformat now) source sequence.

Definition retain (now : Z) (t : Q) (e : ProgressEvent) (r : Redis) : result exn (option string * Redis) :=
  retained ← read_last_event now t (pe_job_id e) r;
  if supersedes e retained
  then Ok (Some (to_json e), r_set t (last_key (pe_job_id e)) (RStr (to_json e)) (Some LAST_EVENT_TTL_SECONDS) r)
  else Ok (None, r).
End Snapshot.

(** [rate_limited]: the closure's two variables, and one call. *)
Record Throttle := mkThrottle { th_last_at : option Q; th_last_percent : Z }.
Definition fresh_throttle : Throttle := mkThrottle None 0.
Definition MIN_PROGRESS_INTERVAL_SECONDS : Q := 1 # 2.
Definition MIN_PROGRESS_DELTA_PERCENT : Z := 1.

Definition throttled (min_interval : Q) (min_delta : Z) (now : Q) (percent : Z) (th : Throttle) : bool * Throttle :=
  let due := match th_last_at th with
             | None => true
             | Some last => (100 <=? percent)%Z ||
                            (Qle_bool min_interval (now - last) && (min_delta <=? percent - th_last_percent th)%Z)
             end in
  if due then (true, mkThrottle (Some now) percent) else (false, th).

(** ** workers/sse_consumer.py *)

(** [int(v)] of a JSON value. *)
Definition py_int_json (j : json) : result exn Z :=
  match j with
  | JInt z => Ok z
  | JBool b => Ok (if b then 1 else 0)%Z
  | JStr s => match py_int s with Some z => Ok z | None => Err (ValueError "invalid literal for int() with base 10") end
  | JFloat s => match py_float s with
                | Some q => Ok (Z.quot (Qnum q) (Zpos (Qden q)))
                | None => Err (ValueError "cannot convert float to integer")
                end
  | _ => Err (RuntimeError "TypeError")
  end.

(** The status the browser sees; [None] skips the event. *)
Definition sse_status (value : dict) (event : json) : result exn (option string) :=
  match event with
  | JStr "job.failed" => Ok (Some match dget value "dead_lettered" with Some (JBool true) => "dead_letter" | _ => "retrying" end)
  | JStr "job.progress" => Ok (Some "running")
  | JStr "job.completed" => Ok (Some "completed")
  | JStr "job.cancelled" => Ok (Some "cancelled")
  | JList _ | JObj _ => Err (RuntimeError "TypeError")  (** an unhashable key *)
  | _ => Ok None
  end.

(** [SseConsumer.handle_message] up to the call of [publish]: its event. *)
Definition sse_event (now : Z) (topic : string) (value : json) (offset : option Z) : result exn (option ProgressEvent) :=
  match value with
  | JObj d =>
      match dget d "job_id", dget d "event" with
      | Some job, Some event =>
          if negb (truthy job) || negb (truthy event) then Ok None
          else
            status ← sse_status d event;
            match status with
            | None => Ok None
            | Some status =>
                percent ← match dget d "percent" with
                          | Some j => py_int_json j
                          | None => Ok (if bool_decide (status = "completed") then 100 else 0)%Z
                          end;
                let message := match dget d "message" with
                               | Some j => if truthy j then Some (py_str j) else None
                               | None => None
                               end in
                let message := default (if bool_decide (status = "completed") then "Job completed successfully"
                                        else "Job " +:+ status) message in
                retries ← match dget d "retry_count" with Some j => py_int_json j | None => Ok 0%Z end;
                Ok (Some (new_event now (py_str job) status percent message retries topic offset))
            end
      | _, _ => Ok None
      end
  | _ => Ok None
  end.

(** ** workers/progress_broker.py *)

Definition QUEUE_MAXSIZE : nat := 64.

Inductive queue_item : Type := Item (e : ProgressEvent) | StreamClosed.

(** [_offer]: a full queue loses its oldest item. *)
Definition offer (x : queue_item) (q : list queue_item) : list queue_item :=
  if (length q <? QUEUE_MAXSIZE)%nat then q ++ [x] else drop 1 q ++ [x].

Record BrokerConfig := mkBrokerConfig {
  bc_max_streams : Z;
  bc_idle_timeout : Q;
  bc_max_duration : Q;
  bc_retry_after : Z
}.

(** The broker of a process.  A queue is named by a number; the shared connection is the
    set of channels it is subscribed to. *)
Record Broker := mkBroker {
  br_subscribers : gmap string (gmap N (list queue_item));
  br_pubsub : option (gset string);
  br_reader : bool;  (** a reader task that is not done *)
  br_active : Z;
  br_slots : gmap N bool  (** every slot handed out, and whether it was released *)
}.

Definition fresh_broker : Broker := mkBroker ∅ None false 0 ∅.

Definition with_subscribers (m : gmap string (gmap N (list queue_item))) (b : Broker) : Broker :=
  mkBroker m (br_pubsub b) (br_reader b) (br_active b) (br_slots b).
Definition with_connection (p : option (gset string)) (reader : bool) (b : Broker) : Broker :=
  mkBroker (br_subscribers b) p reader (br_active b) (br_slots b).

(** [acquire]: a slot named [i], or a refusal. *)
Definition acquire_slot (cfg : BrokerConfig) (i : N) (b : Broker) : result exn Broker :=
  if (0 <? bc_max_streams cfg)%Z && (bc_max_streams cfg <=? br_active b)%Z then
    Err (StreamCapacityError ("This process is already streaming its maximum of " +:+ show_Z (bc_max_streams cfg) +:+
                              " concurrent job progress streams; retry in " +:+ show_Z (bc_retry_after cfg) +:+ "s."))
  else Ok (mkBroker (br_subscribers b) (br_pubsub b) (br_reader b) (br_active b + 1) (<[i := false]> (br_slots b))).

(** [StreamSlot.release]: only the first call counts. *)
Definition release_slot (i : N) (b : Broker) : Broker :=
  match br_slots b !! i with
  | Some false => mkBroker (br_subscribers b) (br_pubsub b) (br_reader b) (Z.max 0 (br_active b - 1)) (<[i := true]> (br_slots b))
  | _ => b
  end.

Definition queues_of (job : string) (b : Broker) : gmap N (list queue_item) := default ∅ (br_subscribers b !! job).

(** [_register]; [ok]: the SUBSCRIBE, if it is issued, succeeds. *)
Definition register_queue (ok : bool) (job : string) (i : N) (b : Broker) : Broker :=
  let first_for_job := negb (bool_decide (is_Some (br_subscribers b !! job))) in
  let conn := default ∅ (br_pubsub b) in
  if first_for_job && negb ok
  then with_connection (Some conn) (br_reader b)
         (with_subscribers (<[job := <[i := [StreamClosed]]> (queues_of job b)]> (br_subscribers b)) b)
  else with_connection (Some (if first_for_job then {[ progress_channel job ]} ∪ conn else conn)) true
         (with_subscribers (<[job := <[i := []]> (queues_of job b)]> (br_subscribers b)) b).

(** [_teardown]. *)
Definition teardown (b : Broker) : Broker := with_connection None false b.

(** [_unregister]; [ok]: the UNSUBSCRIBE, if it is issued, succeeds. *)
Definition unregister_queue (ok : bool) (job : string) (i : N) (b : Broker) : Broker :=
  let b := match br_subscribers b !! job with
           | None => b
           | Some qs =>
               let qs := delete i qs in
               if bool_decide (qs = ∅)
               then with_connection ((λ conn, if ok then conn ∖ {[ progress_channel job ]} else conn) <$> br_pubsub b) (br_reader b)
                      (with_subscribers (delete job (br_subscribers b)) b)
               else with_subscribers (<[job := qs]> (br_subscribers b)) b
           end in
  if bool_decide (br_subscribers b = ∅) then teardown b else b.

(** [_job_id_from_channel]. *)
Definition job_id_from_channel (channel : string) : string :=
  let p := CHANNEL_PREFIX +:+ ":" in
  if String.prefix p channel then String.substring (String.length p) (String.length channel - String.length p) channel else channel.

Section Broker.
Context `{PyCodec}.

(** [_dispatch] of a message: here an unknown key is an error and the event is dropped. *)
Definition broker_dispatch (now : Z) (channel data : string) (b : Broker) : Broker :=
  let job := job_id_from_channel channel in
  match br_subscribers b !! job with
  | None => b
  | Some qs =>
      match json_loads data with
      | Some (JObj d) =>
          if forallb (λ kv, bool_decide (kv.1 ∈ field_names)) d then
            match event_of_dict now d with
            | Some e => with_subscribers (<[job := offer (Item e) <$> qs]> (br_subscribers b)) b
            | None => b
            end
          else b
      | _ => b
      end
  end.

(** [_close_all], when the reader's connection fails. *)
Definition reader_failed (b : Broker) : Broker :=
  with_connection (br_pubsub b) false (with_subscribers ((λ qs : gmap N (list queue_item), offer StreamClosed <$> qs) <$> br_subscribers b) b).

(** ** One stream: [subscribe] *)

Inductive viewer_stage : Type :=
  | Connecting
  | Registered                      (** before the snapshot is read *)
  | Watching (deadline : option Q)
  | Finished.

Record Viewer := mkViewer { vw_stage : viewer_stage; vw_out : list ProgressEvent }.

(** After the snapshot was read, or skipped, or could not be read. *)
Definition viewer_snapshot (cfg : BrokerConfig) (time : Q) (snapshot : option ProgressEvent) (v : Viewer) : Viewer :=
  let watching := Watching (if Qle_bool (bc_max_duration cfg) 0 then None else Some (time + bc_max_duration cfg)%Q) in
  match snapshot with
  | Some e => mkViewer (if is_terminal_event e then Finished else watching) (vw_out v ++ [e])
  | None => mkViewer watching (vw_out v)
  end.

(** One turn of the loop: the deadline, else the next item, else the wait timed out. *)
Definition viewer_turn (time : Q) (q : list queue_item) (v : Viewer) : Viewer * list queue_item :=
  match vw_stage v with
  | Watching deadline =>
      if match deadline with Some d => Qle_bool d time | None => false end then (mkViewer Finished (vw_out v), q)
      else match q with
           | Item e :: q => (mkViewer (if is_terminal_event e then Finished else Watching deadline) (vw_out v ++ [e]), q)
           | StreamClosed :: q => (mkViewer Finished (vw_out v), q)
           | [] => (mkViewer Finished (vw_out v), q)
           end
  | _ => (v, q)
  end.

(** ** api/streaming.py *)

(** [_terminal_event_from_row]. *)
Definition terminal_event_from_row (now : Z) (j : Job) : ProgressEvent :=
  mkProgress (uuid_str (job_id j)) (job_status_value (job_status j)) (if bool_decide (job_status j = COMPLETED) then 100 else 0)
    (match job_error_message j with Some m => if bool_decide (m = "") then "Job already finished" else m | None => "Job already finished" end)
    (job_retry_count j) (isoformat now) "" None.

(** [_snapshot_is_stale]. *)
Definition snapshot_is_stale (snapshot : option ProgressEvent) (row_is_terminal : bool) (row_updated_at : option Z) : bool :=
  match snapshot, row_updated_at with
  | Some e, Some row_at =>
      negb row_is_terminal && is_terminal_event e &&
      match fromisoformat (pe_timestamp e) with Some snapshot_at => (snapshot_at <? row_at)%Z | None => false end
  | _, _ => false
  end.

(** What the generator does before it subscribes. *)
Inductive stream_start : Type :=
  | ReportRow (e : ProgressEvent)          (** one synthetic event, and the end *)
  | Subscribe (use_snapshot : bool).

Definition stream_plan (now : Z) (job : option Job) (snapshot : option ProgressEvent) : stream_start :=
  let finished := j ← job; if bool_decide (job_status_value (job_status j) ∈ PROGRESS_TERMINAL_STATUSES)
                           then Some (terminal_event_from_row now j) else None in
  match finished, snapshot with
  | Some e, None => ReportRow e
  | _, _ => Subscribe (negb (snapshot_is_stale snapshot (bool_decide (is_Some finished)) (job_updated_at <$> job)))
  end.

(** [GET /jobs/{job_id}/stream]: authorised, the row read, a slot reserved; then the plan
    of the generator, once it has read the snapshot. *)
Definition stream_job_progress `{!JwtLib} (auth : AuthSettings) (cfg : BrokerConfig) (now : Z) (t : Q) (token : option string)
    (job : uuid) (slot : N) (db : DB) (r : Redis) (b : Broker) : result exn (result exn stream_start * Broker) :=
  tenant ← authorize_stream auth now token job;
  let row := get_for_tenant job tenant db in
  b ← acquire_slot cfg slot b;
  Ok (match read_last_event now t (uuid_str job) r with
      | Ok snapshot => (Ok (stream_plan now row snapshot), b)
      | Err e => (Err e, release_slot slot b)
      end).
End Broker.
