(* ===== verification/ProgressProps.v ===== *)
(** * Properties of progress events and their streams *)
From stdpp Require Import base tactics numbers option list gmap strings sorting.
From Stdlib Require Import ZArith QArith Lia Sorted.
From S2P Require Import Prelude PyData Codec Models Database JobRepo Redis JobService Auth Progress.

(** ** Stream slots *)

Definition held (b : Broker) : nat := size (filter (λ kv : N * bool, kv.2 = false) (br_slots b)).

(** Slots are handed out under fresh names; each may be released any number of times. *)
Inductive slot_run (cfg : BrokerConfig) : Broker → Prop :=
  | slots_fresh : slot_run cfg fresh_broker
  | slots_acquire b i b' : slot_run cfg b → br_slots b !! i = None → acquire_slot cfg i b = Ok b' → slot_run cfg b'
  | slots_release b i : slot_run cfg b → slot_run cfg (release_slot i b).

(** The stream budget is exact: the counter is the number of slots taken and not released,
    however often a slot is released; a slot is refused exactly when a positive limit is
    reached, so the number of open streams never exceeds it. *)
Theorem stream_slots_exact cfg b :
  slot_run cfg b →
  br_active b = Z.of_nat (held b) ∧
  ((0 < bc_max_streams cfg)%Z → (br_active b ≤ bc_max_streams cfg)%Z) ∧
  ∀ i, is_ok (acquire_slot cfg i b) = false ↔ (0 < bc_max_streams cfg ∧ br_active b = bc_max_streams cfg)%Z.
Proof.
  intros Hr.
  assert (Hinv : br_active b = Z.of_nat (held b) ∧ ((0 < bc_max_streams cfg)%Z → (br_active b ≤ bc_max_streams cfg)%Z)).
  { induction Hr as [|b i b' _ [IH1 IH2] Hi Ha|b i _ [IH1 IH2]].
    - split; [reflexivity|cbn; lia].
    - unfold acquire_slot in Ha. destruct (_ && _) eqn:Hc; [done|]. simplify_eq. unfold held in *. cbn.
      rewrite map_filter_insert_True, map_size_insert_None by (rewrite ?map_lookup_filter_None; auto).
      split; [lia|]. intros Hm. apply andb_false_iff in Hc as [Hc|Hc]; [apply Z.ltb_ge in Hc|apply Z.leb_gt in Hc]; lia.
    - unfold release_slot. destruct (br_slots b !! i) as [[]|] eqn:Hi; [done| |done]. unfold held in *. cbn.
      rewrite map_filter_insert_False by done. rewrite map_filter_delete.
      assert (Hf : filter (λ kv : N * bool, kv.2 = false) (br_slots b) !! i = Some false) by (by apply map_lookup_filter_Some).
      rewrite map_size_delete_Some by done.
      assert (size (filter (λ kv : N * bool, kv.2 = false) (br_slots b)) ≠ 0%nat).
      { rewrite map_size_ne_0_lookup. eauto. }
      split; [lia|]. intros Hm. apply IH2 in Hm. lia. }
  destruct Hinv as [H1 H2]. split_and!; [done|done|]. intros i. unfold acquire_slot.
  destruct (0 <? bc_max_streams cfg)%Z eqn:Hm; cbn [andb].
  - apply Z.ltb_lt in Hm. specialize (H2 Hm). destruct (_ <=? _)%Z eqn:Hl; cbn; [apply Z.leb_le in Hl|apply Z.leb_gt in Hl]; split; (done || lia).
  - apply Z.ltb_ge in Hm. cbn. split; [done|lia].
Qed.

(** ** The throttle *)

(** The percentages that go out, of a sequence of calls. *)
Fixpoint emitted (th : Throttle) (calls : list (Q * Z)) : list Z :=
  match calls with
  | [] => []
  | (now, p) :: calls =>
      let '(due, th) := throttled MIN_PROGRESS_INTERVAL_SECONDS MIN_PROGRESS_DELTA_PERCENT now p th in
      if due then p :: emitted th calls else emitted th calls
  end.

Lemma emitted_later at_ last calls :
  (length (filter (λ p, p < 100)%Z (emitted (mkThrottle (Some at_) last) calls)) ≤ Z.to_nat (99 - last))%nat.
Proof.
  revert at_ last. induction calls as [|[now p] calls IH]; intros at_ last; cbn; [lia|].
  unfold throttled. cbn [th_last_at th_last_percent]. destruct (100 <=? p)%Z eqn:Hp; cbn [orb].
  - apply Z.leb_le in Hp. rewrite filter_cons_False by lia.
    destruct (decide (p ≤ last)%Z) as [|Hl]; [|pose proof (IH now p); lia].
    pose proof (IH now p). lia.
  - apply Z.leb_gt in Hp. destruct (Qle_bool _ _); cbn [andb]; [|apply IH].
    destruct (_ <=? _)%Z eqn:Hd; [|apply IH]. apply Z.leb_le in Hd. unfold MIN_PROGRESS_DELTA_PERCENT in Hd.
    rewrite filter_cons_True by lia. cbn. pose proof (IH now p). lia.
Qed.

Lemma emitted_full th calls :
  filter (λ p, 100 ≤ p)%Z (emitted th calls) = filter (λ p, 100 ≤ p)%Z calls.*2.
Proof.
  revert th. induction calls as [|[now p] calls IH]; intros th; [done|]. cbn [emitted]. rewrite fmap_cons. unfold throttled. cbn [snd].
  destruct (th_last_at th) as [at_|]; cbn [fst snd].
  - destruct (100 <=? p)%Z eqn:Hp; cbn [orb].
    + apply Z.leb_le in Hp. rewrite !filter_cons_True by done. f_equal. apply IH.
    + apply Z.leb_gt in Hp. rewrite (filter_cons_False _ p calls.*2) by lia.
      destruct (Qle_bool _ _ && _); [rewrite filter_cons_False by lia|]; apply IH.
  - rewrite !filter_cons. case_decide; [f_equal|]; apply IH.
Qed.

(** Whatever a processor reports, at most 100 updates below 100% leave the throttle, the
    first update and every update at 100% or more do. *)
Theorem progress_updates_bounded calls :
  (∀ c, c ∈ calls → 0 ≤ c.2)%Z →
  (length (filter (λ p, p < 100)%Z (emitted fresh_throttle calls)) ≤ 100)%nat ∧
  head (emitted fresh_throttle calls) = head calls.*2 ∧
  filter (λ p, 100 ≤ p)%Z (emitted fresh_throttle calls) = filter (λ p, 100 ≤ p)%Z calls.*2.
Proof.
  intros Hc. split_and!; [|by destruct calls as [|[now p] calls]|apply emitted_full].
  destruct calls as [|[now p] calls]; [cbn; lia|]. specialize (Hc (now, p) ltac:(left)). cbn in Hc.
  pose proof (emitted_later now p calls). cbn [emitted throttled fresh_throttle th_last_at].
  rewrite filter_cons. case_decide; cbn [length]; lia.
Qed.

(** ** The retained event *)

#[local] Arguments to_json : simpl never.
#[local] Arguments LAST_EVENT_TTL_SECONDS : simpl never.

Section Codec.
Context `{PyCodec}.

Lemma event_plain e : json_plain (JObj (event_dict e)) = true.
Proof. destruct e as [? ? ? ? ? ? ? []]; reflexivity. Qed.

Lemma event_read now e : pe_timestamp e ≠ "" → event_of_dict now (event_dict e) = Some e.
Proof.
  intros Ht. destruct e as [j s p m r ts src sq]. cbn in Ht. unfold event_of_dict, event_dict. cbn [pe_job_id pe_status pe_progress
    pe_message pe_retry_count pe_timestamp pe_source pe_sequence].
  transitivity (Some (mkProgress j s p m r (if bool_decide (ts = "") then isoformat now else ts) src sq)); [destruct sq; reflexivity|].
  by rewrite bool_decide_false.
Qed.

Lemma event_fields e : filter (λ kv : string * json, kv.1 ∈ field_names) (event_dict e) = event_dict e.
Proof. reflexivity. Qed.

(** Reading back what [publish] retains. *)
Lemma parse_to_json now e : pe_timestamp e ≠ "" → parse_event now (to_json e) = Some e.
Proof.
  intros Ht. unfold parse_event, to_json. rewrite loads_dumps by apply event_plain. rewrite event_fields. by apply event_read.
Qed.
End Codec.

(** ** Nobody is left watching a job that ended

    One job, one of its viewers, and everything else that touches the same Redis, broker
    and channel: publishers (one at a time), the reader, other viewers of any job.  Redis
    is reachable, and all happens within the hour an event is retained. *)

Record Sse := mkSse {
  se_redis : Redis;
  se_pending : option ProgressEvent;  (** retained, not yet published *)
  se_wire : list ProgressEvent;       (** published, not yet read by the broker *)
  se_broker : Broker;
  se_viewer : Viewer
}.

Section Stream.
Context `{PyCodec} (cfg : BrokerConfig) (job : string) (me : N) (t0 : Q).

Definition within_ttl (t : Q) : Prop := (t0 <= t)%Q ∧ (t < t0 + LAST_EVENT_TTL_SECONDS)%Q.

Definition my_queue (b : Broker) : list queue_item := default [] (br_subscribers b !! job ≫= λ qs, qs !! me).
Definition set_queue (q : list queue_item) (b : Broker) : Broker :=
  with_subscribers (alter (λ qs, <[me := q]> qs) job (br_subscribers b)) b.

(** PUBLISH reaches the connection if it is subscribed to the channel. *)
Definition fan_out (e : ProgressEvent) (b : Broker) (wire : list ProgressEvent) : list ProgressEvent :=
  match br_pubsub b with
  | Some conn => if bool_decide (progress_channel (pe_job_id e) ∈ conn) then wire ++ [e] else wire
  | None => wire
  end.

(** A closed connection loses what it had not read. *)
Definition after_leave (b : Broker) (wire : list ProgressEvent) : list ProgressEvent :=
  match br_pubsub b with Some _ => wire | None => [] end.

Inductive sse_step : Sse → Sse → Prop :=
  | st_retain r wire b v now t e out r' :
      within_ttl t → pe_timestamp e ≠ "" → retain now t e r = Ok (out, r') →
      sse_step (mkSse r None wire b v) (mkSse r' (match out with Some _ => Some e | None => None end) wire b v)
  | st_publish r e wire b v : sse_step (mkSse r (Some e) wire b v) (mkSse r None (fan_out e b wire) b v)
  | st_read r p e wire b v now :
      br_reader b = true →
      sse_step (mkSse r p (e :: wire) b v) (mkSse r p wire (broker_dispatch now (progress_channel (pe_job_id e)) (to_json e) b) v)
  | st_other_register r p wire b v job' i :
      i ≠ me → sse_step (mkSse r p wire b v) (mkSse r p wire (register_queue true job' i b) v)
  | st_other_unregister r p wire b v ok job' i :
      i ≠ me → let b' := unregister_queue ok job' i b in
      sse_step (mkSse r p wire b v) (mkSse r p (after_leave b' wire) b' v)
  | st_other_keys r p wire b v r' :
      r' !! last_key job = r !! last_key job → sse_step (mkSse r p wire b v) (mkSse r' p wire b v)
  | st_register r p wire b v :
      vw_stage v = Connecting → 
      sse_step (mkSse r p wire b v) (mkSse r p wire (register_queue true job me b) (mkViewer Registered (vw_out v)))
  | st_snapshot r p wire b v now t time snapshot :
      within_ttl t → vw_stage v = Registered → read_last_event now t job r = Ok snapshot →
      sse_step (mkSse r p wire b v) (mkSse r p wire b (viewer_snapshot cfg time snapshot v))
  | st_turn r p wire b v d time v' q :
      vw_stage v = Watching d → viewer_turn time (my_queue b) v = (v', q) →
      sse_step (mkSse r p wire b v) (mkSse r p wire (set_queue q b) v')
  | st_leave r p wire b v ok :
      vw_stage v = Finished → let b' := unregister_queue ok job me b in
      sse_step (mkSse r p wire b v) (mkSse r p (after_leave b' wire) b' v).

(** ** Invariant *)

(** What is retained for the job. *)
Definition retains (r : Redis) (o : option ProgressEvent) : Prop :=
  match o with
  | None => r !! last_key job = None
  | Some e => pe_timestamp e ≠ "" ∧ ∃ x, (t0 + LAST_EVENT_TTL_SECONDS <= x)%Q ∧
                r !! last_key job = Some (mkEntry (RStr (to_json e)) (Some x))
  end.

Definition ends (o : option ProgressEvent) : bool := match o with Some e => is_terminal_event e | None => false end.

Definition queued (q : list queue_item) : list ProgressEvent := omap (λ x, match x with Item e => Some e | StreamClosed => None end) q.
Definition mine (l : list ProgressEvent) : list ProgressEvent := filter (λ e, pe_job_id e = job) l.

(** The job's events on their way to the viewer, oldest first. *)
Definition coming (y : Sse) : list ProgressEvent :=
  queued (my_queue (se_broker y)) ++ mine (se_wire y) ++ mine (option_list (se_pending y)).

(** A terminal event is followed by terminal events only. *)
Definition in_order : list ProgressEvent → Prop := StronglySorted (λ a b, is_terminal_event a = true → is_terminal_event b = true).

Lemma progress_channel_inj a b : progress_channel a = progress_channel b → a = b.
Proof. unfold progress_channel. intros E. by do 2 apply (inj (String.append _)) in E. Qed.

Lemma last_key_inj a b : last_key a = last_key b → a = b.
Proof. unfold last_key. intros E. by do 2 apply (inj (String.append _)) in E. Qed.

Lemma substring_all s : String.substring 0 (String.length s) s = s.
Proof. induction s as [|c s IH]; [done|]. cbn. by rewrite IH. Qed.

Lemma removeprefix p s :
  String.prefix p (p +:+ s) = true ∧
  String.substring (String.length p) (String.length (p +:+ s) - String.length p) (p +:+ s) = s.
Proof.
  induction p as [|c p [IH1 IH2]].
  - split; [by destruct s|]. change ("" +:+ s) with s. rewrite Nat.sub_0_r. apply substring_all.
  - change (String c p +:+ s) with (String c (p +:+ s)). split; [cbn; by destruct (Ascii.ascii_dec c c)|exact IH2].
Qed.

Lemma job_of_channel j : job_id_from_channel (progress_channel j) = j.
Proof.
  unfold job_id_from_channel, progress_channel.
  assert (E : CHANNEL_PREFIX +:+ ":" +:+ j = (CHANNEL_PREFIX +:+ ":") +:+ j) by reflexivity. rewrite E.
  destruct (removeprefix (CHANNEL_PREFIX +:+ ":") j) as [-> ->]. done.
Qed.

Lemma retained_read now t r o : retains r o → within_ttl t → read_last_event now t job r = Ok o.
Proof.
  intros Hr [_ Ht]. unfold read_last_event, r_get, live. destruct o as [e|]; cbn in Hr.
  - destruct Hr as (Hs & x & Hx & ->). unfold expired. cbn [e_exp e_val].
    replace (Qle_bool x t) with false; [cbn [e_val mbind result_mbind]; by rewrite parse_to_json|].
    symmetry. apply not_true_iff_false. rewrite Qle_bool_iff. intros Hle.
    apply (Qlt_not_le _ _ Ht). by eapply Qle_trans.
  - by rewrite Hr.
Qed.

(** [retain], seen from the job's key. *)
Lemma retain_key now t e r out r' o :
  retain now t e r = Ok (out, r') → within_ttl t → pe_timestamp e ≠ "" → retains r o →
  (pe_job_id e ≠ job ∧ retains r' o) ∨
  (pe_job_id e = job ∧ out = None ∧ r' = r) ∨
  (pe_job_id e = job ∧ is_Some out ∧ retains r' (Some e) ∧ (is_terminal_event e = false → ends o = false)).
Proof.
  intros Hr Ht Hs Ho. unfold retain in Hr. apply bind_ok in Hr as (o' & Hread & Hr).
  destruct (decide (pe_job_id e = job)) as [Hj|Hj]; [right|left; split; [done|]].
  - rewrite Hj in Hread. rewrite (retained_read _ _ _ _ Ho Ht) in Hread. simplify_eq.
    destruct (supersedes e o') eqn:Hsup; simplify_eq; [right|by left]. split_and!; [done|by eexists| |].
    + split; [done|]. exists (t + LAST_EVENT_TTL_SECONDS)%Q. split.
      * apply Qplus_le_compat; [apply Ht|apply Qle_refl].
      * unfold r_set. rewrite Hj. by rewrite lookup_insert_eq.
    + intros Hn. destruct o' as [old|]; [|done]. cbn. cbn in Hsup. rewrite Hn in Hsup. by destruct (is_terminal_event old).
  - destruct (supersedes e o'); simplify_eq; [|done].
    assert (E : r_set t (last_key (pe_job_id e)) (RStr (to_json e)) (Some LAST_EVENT_TTL_SECONDS) r !! last_key job = r !! last_key job).
    { unfold r_set. rewrite lookup_insert_ne; [done|]. intros E. by apply last_key_inj in E. }
    destruct o as [old|]; cbn in *; rewrite E; done.
Qed.

(** ** Queues *)

Lemma queued_app a b : queued (a ++ b) = queued a ++ queued b.
Proof. unfold queued. apply omap_app. Qed.

Lemma offer_queued e q : ∃ d, queued q = d ++ drop (length d) (queued q) ∧
  queued (offer (Item e) q) = drop (length d) (queued q) ++ [e].
Proof.
  unfold offer. destruct (_ <? _)%nat.
  - exists []. rewrite queued_app. done.
  - rewrite queued_app. destruct q as [|[x|] q]; [by exists []|by exists [x]|by exists []].
Qed.

(** What dispatching a published event does. *)
Lemma dispatch_published now e b :
  pe_timestamp e ≠ "" →
  broker_dispatch now (progress_channel (pe_job_id e)) (to_json e) b =
  match br_subscribers b !! pe_job_id e with
  | Some qs => with_subscribers (<[pe_job_id e := offer (Item e) <$> qs]> (br_subscribers b)) b
  | None => b
  end.
Proof.
  intros Hs. unfold broker_dispatch. rewrite job_of_channel. destruct (br_subscribers b !! _) as [qs|]; [|done].
  unfold to_json. rewrite loads_dumps by apply event_plain.
  assert (forallb (λ kv : string * json, bool_decide (kv.1 ∈ field_names)) (event_dict e) = true) as -> by reflexivity.
  by rewrite event_read.
Qed.

(** ** The broker *)

Definition connected (b : Broker) : Prop :=
  ∀ j, is_Some (br_subscribers b !! j) → br_reader b = true ∧ ∃ conn, br_pubsub b = Some conn ∧ progress_channel j ∈ conn.

Lemma connected_keys b m : connected b → (∀ j, is_Some (m !! j) → is_Some (br_subscribers b !! j)) → connected (with_subscribers m b).
Proof. intros Hc Hm j Hj. by apply Hc, Hm. Qed.

Lemma register_connected j i b : connected b → connected (register_queue true j i b).
Proof.
  intros Hc. unfold register_queue. rewrite andb_false_r. intros j' Hj'. cbn in *. split; [done|]. eexists. split; [done|].
  destruct (decide (j' = j)) as [->|Hne].
  - case_bool_decide as Hs; cbn; [|set_solver]. destruct (Hc j Hs) as (_ & conn & -> & Hin). done.
  - rewrite lookup_insert_ne in Hj' by done. destruct (Hc j' Hj') as (_ & conn & -> & Hin). cbn.
    destruct (negb _); [|done]. apply elem_of_union. by right.
Qed.

Lemma unregister_spec ok j i b :
  let b' := unregister_queue ok j i b in
  connected b →
  connected b' ∧
  br_subscribers b' = match br_subscribers b !! j with
                      | None => br_subscribers b
                      | Some qs => if decide (delete i qs = ∅) then delete j (br_subscribers b)
                                   else <[j := delete i qs]> (br_subscribers b)
                      end.
Proof.
  intros b' Hc. subst b'. unfold unregister_queue. set (b1 := match br_subscribers b !! j with Some _ => _ | None => _ end).
  assert (H1 : connected b1 ∧ br_subscribers b1 = match br_subscribers b !! j with
                      | None => br_subscribers b
                      | Some qs => if decide (delete i qs = ∅) then delete j (br_subscribers b)
                                   else <[j := delete i qs]> (br_subscribers b)
                      end).
  { subst b1. destruct (br_subscribers b !! j) as [qs|] eqn:Hj; [|done]. cbn zeta.
    destruct (decide (delete i qs = ∅)) as [He|He].
    - rewrite bool_decide_true by done. split; [|done]. intros j' Hj'. cbn in Hj'. apply lookup_delete_is_Some in Hj' as [Hne Hj'].
      destruct (Hc j' Hj') as (Hr & conn & Hp & Hin). cbn. split; [done|]. rewrite Hp. cbn. eexists. split; [done|].
      destruct ok; [|done]. apply elem_of_difference. split; [done|]. rewrite elem_of_singleton. intros E. by apply progress_channel_inj in E.
    - rewrite bool_decide_false by done. split; [|done]. apply connected_keys; [done|]. intros j' Hj'.
      destruct (decide (j' = j)) as [->|]; [by rewrite Hj|by rewrite lookup_insert_ne in Hj']. }
  destruct H1 as [H1 H2]. case_bool_decide as He; [|done]. split; [|done].
  intros j' Hj'. cbn in Hj'. rewrite He in Hj'. by apply lookup_empty_is_Some in Hj'.
Qed.

Lemma my_queue_register j i b : i ≠ me → my_queue (register_queue true j i b) = my_queue b.
Proof.
  intros Hi. unfold register_queue, my_queue, queues_of. rewrite andb_false_r. cbn.
  destruct (decide (j = job)) as [->|]; [|by rewrite lookup_insert_ne]. rewrite lookup_insert_eq. cbn. rewrite lookup_insert_ne by done.
  destruct (br_subscribers b !! job); [done|]. cbn. by rewrite lookup_empty.
Qed.

Lemma my_queue_unregister ok j i b : connected b → i ≠ me → my_queue (unregister_queue ok j i b) = my_queue b.
Proof.
  intros Hc Hi. unfold my_queue. destruct (unregister_spec ok j i b Hc) as [_ ->].
  destruct (br_subscribers b !! j) as [qs|] eqn:Hj; [|done].
  destruct (decide (j = job)) as [->|Hne].
  - rewrite Hj. cbn. destruct (decide _) as [He|He].
    + rewrite lookup_delete_eq. cbn. rewrite <- (lookup_delete_ne qs i me Hi), He, lookup_empty. done.
    + rewrite lookup_insert_eq. cbn. by rewrite lookup_delete_ne.
  - destruct (decide _); [rewrite lookup_delete_ne|rewrite lookup_insert_ne]; done.
Qed.

(** My queue stays while I have one. *)
Definition has_queue (b : Broker) : Prop := ∃ qs, br_subscribers b !! job = Some qs ∧ is_Some (qs !! me).

Lemma has_queue_register j i b : has_queue b → i ≠ me → has_queue (register_queue true j i b).
Proof.
  intros (qs & Hq & Hm) Hi. unfold has_queue, register_queue, queues_of. rewrite andb_false_r. cbn.
  destruct (decide (j = job)) as [->|]; [|rewrite lookup_insert_ne by done; eauto].
  rewrite lookup_insert_eq, Hq. eexists. split; [done|]. cbn. by rewrite lookup_insert_ne.
Qed.

Lemma has_queue_unregister ok j i b : connected b → has_queue b → i ≠ me → has_queue (unregister_queue ok j i b).
Proof.
  intros Hc (qs & Hq & Hm) Hi. unfold has_queue. destruct (unregister_spec ok j i b Hc) as [_ ->].
  destruct (br_subscribers b !! j) as [qs'|] eqn:Hj; [|by exists qs].
  destruct (decide (j = job)) as [->|Hne].
  - simplify_eq. destruct (decide _) as [He|He].
    + exfalso. rewrite <- (lookup_delete_ne qs i me Hi), He, lookup_empty in Hm. by destruct Hm.
    + rewrite lookup_insert_eq. eexists. split; [done|]. by rewrite lookup_delete_ne.
  - exists qs. destruct (decide _); [rewrite lookup_delete_ne|rewrite lookup_insert_ne]; done.
Qed.

Lemma has_queue_keeps_connection b : connected b → has_queue b → ∃ conn, br_pubsub b = Some conn ∧ progress_channel job ∈ conn.
Proof. intros Hc (qs & Hq & _). by destruct (Hc job) as (_ & ?); [rewrite Hq|]. Qed.
(** ** The invariant *)

Record stream_inv (y : Sse) : Prop := {
  si_connected : connected (se_broker y);
  si_mine : vw_stage (se_viewer y) = Registered ∨ (∃ d, vw_stage (se_viewer y) = Watching d) → has_queue (se_broker y);
  si_retained : ∃ o, retains (se_redis y) o ∧ in_order (coming y) ∧
    (∀ e, e ∈ coming y → is_terminal_event e = true → ends o = true) ∧
    (∀ d, vw_stage (se_viewer y) = Watching d → ends o = true → ∃ e, e ∈ coming y ∧ is_terminal_event e = true);
  si_stamped : ∀ e, e ∈ se_wire y ∨ se_pending y = Some e → pe_timestamp e ≠ "";
  si_out : ∀ pre e post, vw_out (se_viewer y) = pre ++ e :: post → is_terminal_event e = true →
    post = [] ∧ vw_stage (se_viewer y) = Finished
}.

Lemma in_order_sublist l' l : sublist l' l → in_order l → in_order l'.
Proof.
  induction 1 as [|x l1 l2 Hs IH|x l1 l2 Hs IH]; intros Ho; [done|..]; apply StronglySorted_inv in Ho as [Ho Hx].
  - constructor; [by apply IH|]. apply Forall_forall. intros y Hy. rewrite Forall_forall in Hx. apply Hx. by eapply elem_of_sublist.
  - by apply IH.
Qed.

(** What is on its way shrinks: only the viewer's own need has to be checked. *)
Lemma inv_shrinks r p wire b v p' wire' b' v' :
  stream_inv (mkSse r p wire b v) → connected b' →
  (vw_stage v' = Registered ∨ (∃ d, vw_stage v' = Watching d) → has_queue b') →
  sublist (coming (mkSse r p' wire' b' v')) (coming (mkSse r p wire b v)) →
  (∀ d e, vw_stage v' = Watching d → e ∈ coming (mkSse r p wire b v) → is_terminal_event e = true →
     (∃ d, vw_stage v = Watching d) → ∃ e, e ∈ coming (mkSse r p' wire' b' v') ∧ is_terminal_event e = true) →
  (∀ d o, vw_stage v' = Watching d → retains r o → ends o = true → ∃ d, vw_stage v = Watching d) →
  (∀ e, e ∈ wire' ∨ p' = Some e → e ∈ wire ∨ p = Some e) →
  (∀ pre e post, vw_out v' = pre ++ e :: post → is_terminal_event e = true → post = [] ∧ vw_stage v' = Finished) →
  stream_inv (mkSse r p' wire' b' v').
Proof.
  intros [C M (o & Ro & Oo & To & Wo) S O] C' M' Hs Hw Hw' Hst O'. split; cbn in *; auto.
  exists o. split_and!; [done|by eapply in_order_sublist| |].
  - intros e He Ht. eapply To; [|done]. by eapply elem_of_sublist.
  - intros d Hd He. destruct (Hw' d o Hd Ro He) as [d' Hd']. destruct (Wo d' Hd' He) as (e & Hin & Ht). by eapply (Hw d e); eauto.
Qed.

Lemma mine_app a b : mine (a ++ b) = mine a ++ mine b.
Proof. apply filter_app. Qed.

Lemma inv_retain r wire b v now t e out r' :
  within_ttl t → pe_timestamp e ≠ "" → retain now t e r = Ok (out, r') →
  stream_inv (mkSse r None wire b v) → stream_inv (mkSse r' (match out with Some _ => Some e | None => None end) wire b v).
Proof.
  intros Ht Hs Hr [C M (o & Ro & Oo & To & Wo) S O]. split; cbn in *; auto.
  - unfold coming in *. cbn [se_broker se_wire se_pending option_list mine] in *.
    change (mine []) with (@nil ProgressEvent) in *. rewrite app_nil_r in *.
    destruct (retain_key _ _ _ _ _ _ _ Hr Ht Hs Ro) as [[Hj Ro']|[(Hj & -> & ->)|(Hj & [p ->] & Ro' & Hn)]].
    + assert (mine (option_list (match out with Some _ => Some e | None => None end)) = []) as ->.
      { destruct out; [|done]. change (mine [e] = []). unfold mine. by rewrite filter_cons_False. }
      rewrite app_nil_r. by exists o.
    + change (mine (option_list None)) with (@nil ProgressEvent). rewrite app_nil_r. by exists o.
    + assert (mine (option_list (Some e)) = [e]) as -> by (change (mine [e] = [e]); unfold mine; by rewrite filter_cons_True).
      rewrite app_assoc. exists (Some e). split_and!; [done| | |].
      * apply sorted_app_one; [done|]. intros y Hy Hty. destruct (is_terminal_event e) eqn:He; [done|].
        rewrite (To y Hy Hty) in Hn. by specialize (Hn eq_refl).
      * intros y Hy Hty. cbn. apply elem_of_app in Hy as [Hy|Hy%list_elem_of_singleton]; [|congruence].
        destruct (is_terminal_event e) eqn:He; [done|]. rewrite (To y Hy Hty) in Hn. by specialize (Hn eq_refl).
      * intros d _ He. exists e. split; [|done]. apply elem_of_app. right. by apply list_elem_of_singleton.
  - intros y [Hy|Hy]; [apply S; by left|]. destruct out; by simplify_eq.
Qed.

Lemma inv_read r p e wire b v now :
  stream_inv (mkSse r p (e :: wire) b v) →
  stream_inv (mkSse r p wire (broker_dispatch now (progress_channel (pe_job_id e)) (to_json e) b) v).
Proof.
  intros I. pose proof I as [C M _ S O]. cbn in *. rewrite dispatch_published by (apply S; left; left).
  set (b' := match br_subscribers b !! pe_job_id e with Some _ => _ | None => b end).
  assert (Hq : (pe_job_id e ≠ job ∧ my_queue b' = my_queue b) ∨
               (pe_job_id e = job ∧ (¬ has_queue b ∨ my_queue b' = offer (Item e) (my_queue b)) ∧ (¬ has_queue b → my_queue b' = [] ∧ my_queue b = []))).
  { subst b'. unfold my_queue, has_queue. destruct (decide (pe_job_id e = job)) as [Hj|Hj]; [right|left].
    - split; [done|]. rewrite Hj. destruct (br_subscribers b !! job) as [qs|] eqn:Eq.
      + cbn. rewrite lookup_insert_eq. cbn. rewrite lookup_fmap. destruct (qs !! me) as [q|] eqn:Em; cbn; [split; [by right|]|].
        * intros Hn. exfalso. apply Hn. exists qs. by rewrite Em.
        * split; [left|done]. intros (qs' & [= <-] & Hm). rewrite Em in Hm. by destruct Hm.
      + cbn. rewrite Eq. split; [left|done]. by intros (qs' & ? & _).
    - split; [done|]. destruct (br_subscribers b !! pe_job_id e); [|done]. cbn. by rewrite lookup_insert_ne. }
  assert (C' : connected b').
  { subst b'. destruct (br_subscribers b !! pe_job_id e) as [qs|] eqn:Eq; [|done]. apply connected_keys; [done|].
    intros j Hj. destruct (decide (j = pe_job_id e)) as [->|]; [by rewrite Eq|by rewrite lookup_insert_ne in Hj]. }
  assert (M' : has_queue b → has_queue b').
  { subst b'. intros (qs & Eq & Hm). unfold has_queue. destruct (decide (pe_job_id e = job)) as [Hj|Hj].
    - rewrite Hj, Eq. cbn. rewrite lookup_insert_eq. eexists. split; [done|]. rewrite lookup_fmap. by apply fmap_is_Some.
    - destruct (br_subscribers b !! pe_job_id e); cbn; [rewrite lookup_insert_ne by done|]; eauto. }
  destruct Hq as [[Hj Hq]|(Hj & Hq & Hnone)].
  - assert (E : coming (mkSse r p wire b' v) = coming (mkSse r p (e :: wire) b v)).
    { unfold coming. cbn [se_broker se_wire se_pending]. rewrite Hq. unfold mine at 3. by rewrite filter_cons_False. }
    eapply inv_shrinks; eauto; [by rewrite E|by rewrite E; eauto|].
    intros y [Hy|Hy]; [left; by right|by right].
  - assert (Hc : ∃ d tl, coming (mkSse r p (e :: wire) b v) = d ++ tl ∧ coming (mkSse r p wire b' v) = tl ∧
                   (has_queue b → ∃ tl' tl'', tl = tl' ++ e :: tl'' ∧ ∀ x, x ∈ d → x ∈ d)).
    { unfold coming. cbn [se_broker se_wire se_pending]. unfold mine at 1. rewrite filter_cons_True by done. fold (mine wire).
      destruct Hq as [Hn|Hq].
      - destruct (Hnone Hn) as [-> ->]. exists [e], (mine wire ++ mine (option_list p)). split_and!; try done.
      - destruct (offer_queued e (my_queue b)) as (d & E1 & E2). rewrite Hq, E2.
        exists d, (drop (length d) (queued (my_queue b)) ++ e :: mine wire ++ mine (option_list p)).
        split_and!; [by rewrite (app_assoc d), <- E1|by rewrite <- app_assoc|]. intros _. eauto. }
    destruct Hc as (d & tl & E1 & E2 & E3).
    eapply inv_shrinks; eauto.
    + rewrite E1, E2. apply sublist_inserts_l. reflexivity.
    + intros dl x Hdl Hx Htx _. rewrite E1 in Hx. rewrite E2. apply elem_of_app in Hx as [Hx|Hx]; [|eauto].
      assert (Hh : has_queue b) by (apply M; right; eauto). destruct (E3 Hh) as (tl' & tl'' & -> & _).
      exists e. split; [apply elem_of_app; right; left|]. destruct I as [_ _ (o & _ & Oo & _) _ _]. rewrite E1 in Oo.
      unfold in_order in Oo. apply StronglySorted_app in Oo as (Hcross & _). eapply Hcross; [exact Hx| |exact Htx].
      apply elem_of_app. right. left.
    + intros y [Hy|Hy]; [left; by right|by right].
Qed.

Lemma out_snoc v e stage :
  (∀ pre x post, vw_out v = pre ++ x :: post → is_terminal_event x = true → post = [] ∧ vw_stage v = Finished) →
  vw_stage v ≠ Finished → (is_terminal_event e = true → stage = Finished) →
  ∀ pre x post, vw_out v ++ [e] = pre ++ x :: post → is_terminal_event x = true → post = [] ∧ stage = Finished.
Proof.
  intros O Hs He pre x post E Hx. destruct post as [|y post _] using rev_ind.
  - apply app_inj_tail in E as [_ ->]. auto.
  - rewrite app_comm_cons, app_assoc in E. apply app_inj_tail in E as [E _]. apply O in E as [_ ?]; [done|done].
Qed.

Lemma inv_turn r p wire b v d time v' q :
  vw_stage v = Watching d → viewer_turn time (my_queue b) v = (v', q) →
  stream_inv (mkSse r p wire b v) → stream_inv (mkSse r p wire (set_queue q b) v').
Proof.
  intros Hd Ht I. pose proof I as [C M (o & Ro & Oo & To & Wo) S O]. cbn in *.
  assert (C' : connected (set_queue q b)).
  { apply connected_keys; [done|]. intros j. destruct (decide (j = job)) as [->|]; [rewrite lookup_alter_eq|by rewrite lookup_alter_ne].
    by rewrite fmap_is_Some. }
  destruct M as (qs & Eq & Hm); [right; eauto|].
  assert (Hset : has_queue (set_queue q b) ∧ my_queue (set_queue q b) = q).
  { unfold has_queue, my_queue, set_queue. cbn. rewrite lookup_alter_eq, Eq. cbn. split; [|by rewrite lookup_insert_eq].
    eexists. split; [done|]. rewrite lookup_insert_eq. eauto. }
  destruct Hset as [Hh Hq].
  assert (Hcases : (vw_stage v' = Finished ∧ vw_out v' = vw_out v ∧ sublist (queued q) (queued (my_queue b))) ∨
    (∃ e, queued (my_queue b) = e :: queued q ∧ vw_out v' = vw_out v ++ [e] ∧
          vw_stage v' = if is_terminal_event e then Finished else Watching d)).
  { unfold viewer_turn in Ht. rewrite Hd in Ht. destruct (match d with Some _ => _ | None => _ end); [simplify_eq; left; done|].
    destruct (my_queue b) as [|[e|] q']; simplify_eq; [left; done|right|left; done]. exists e. done. }
  assert (Hsub : sublist (coming (mkSse r p wire (set_queue q b) v')) (coming (mkSse r p wire b v))).
  { unfold coming. cbn [se_broker se_wire se_pending]. rewrite Hq. apply sublist_app; [|done].
    destruct Hcases as [(_ & _ & ?)|(e & -> & _)]; [done|by apply sublist_cons]. }
  eapply inv_shrinks; eauto.
  - intros d' e Hd' He Hte _. destruct Hcases as [(Hf & _)|(x & Ex & _ & Hs)]; [congruence|].
    destruct (is_terminal_event x) eqn:Hx; [congruence|]. exists e. split; [|done].
    unfold coming in He |- *. cbn [se_broker se_wire se_pending] in *. rewrite Hq. rewrite Ex in He. cbn [app] in He.
    apply elem_of_cons in He as [->|He]; [congruence|done].
  - destruct Hcases as [(Hf & Ho & _)|(x & _ & Ho & Hs)].
    + rewrite Ho. intros pre e post E He. split; [|done]. by eapply O.
    + rewrite Ho. apply out_snoc; [done|congruence|]. intros Hx. rewrite Hs. by rewrite Hx.
Qed.

Lemma retains_fun r o o' : retains r o → retains r o' → ends o = ends o'.
Proof.
  intros A B. destruct o as [e|], o' as [e'|]; cbn in A, B; [|destruct A as (_ & ? & _ & A); congruence|destruct B as (_ & ? & _ & B); congruence|done].
  destruct A as (Se & x & _ & Ex), B as (Se' & x' & _ & Ex'). assert (Et : to_json e = to_json e') by congruence.
  assert (Some e = Some e') as [= ->]; [|done]. by rewrite <- (parse_to_json 0 e Se), <- (parse_to_json 0 e' Se'), Et.
Qed.

Lemma stream_step_inv x y : sse_step x y → stream_inv x → stream_inv y.
Proof.
  intros Hs I. destruct Hs as [r wire b v now t e out r' Ht Hts Hr|r e wire b v|r p e wire b v now Hr|r p wire b v job' i Hi
    |r p wire b v ok job' i Hi b'|r p wire b v r' Hr|r p wire b v Hst|r p wire b v now t time snap Ht Hst Hread
    |r p wire b v d time v' q Hd Ht|r p wire b v ok Hst b'].
  - by eapply inv_retain.
  - pose proof I as [C M _ S O]. cbn in *.
    assert (E : has_queue b → coming (mkSse r None (fan_out e b wire) b v) = coming (mkSse r (Some e) wire b v)).
    { intros Hh. unfold coming. cbn [se_broker se_wire se_pending]. change (option_list (Some e)) with [e].
      change (option_list None) with (@nil ProgressEvent). f_equal. rewrite <- !mine_app, app_nil_r.
      destruct (decide (pe_job_id e = job)) as [Hj|Hj].
      - destruct (has_queue_keeps_connection b C Hh) as (conn & Hp & Hin). unfold fan_out. rewrite Hp, Hj. by rewrite bool_decide_true.
      - rewrite mine_app. assert (mine [e] = []) as -> by (unfold mine; by rewrite filter_cons_False). rewrite app_nil_r.
        unfold fan_out. destruct (br_pubsub b); [|done]. case_bool_decide; [|done]. rewrite mine_app.
        assert (mine [e] = []) as -> by (unfold mine; by rewrite filter_cons_False). apply app_nil_r. }
    assert (Hsub : sublist (coming (mkSse r None (fan_out e b wire) b v)) (coming (mkSse r (Some e) wire b v))).
    { unfold coming. cbn [se_broker se_wire se_pending]. change (option_list (Some e)) with [e].
      change (option_list None) with (@nil ProgressEvent). apply sublist_app; [done|]. rewrite <- !mine_app, app_nil_r.
      unfold fan_out, mine. destruct (br_pubsub b); [case_bool_decide|]; rewrite ?filter_app; (done || by apply sublist_inserts_r). }
    eapply inv_shrinks; eauto.
    + intros d y Hd Hy Hty _. rewrite E by (apply M; right; eauto). eauto.
    + intros y [Hy|Hy]; [|done]. unfold fan_out in Hy. destruct (br_pubsub b); [case_bool_decide|]; try (by left).
      apply elem_of_app in Hy as [?|Hy%list_elem_of_singleton]; [by left|right; congruence].
  - by apply inv_read.
  - pose proof I as [C M _ S O]. cbn in *.
    assert (E : coming (mkSse r p wire (register_queue true job' i b) v) = coming (mkSse r p wire b v))
      by (unfold coming; cbn [se_broker se_wire se_pending]; by rewrite my_queue_register).
    eapply inv_shrinks; eauto using register_connected, has_queue_register; [by rewrite E|rewrite E; eauto].
  - pose proof I as [C M _ S O]. cbn in *. destruct (unregister_spec ok job' i b C) as [C' _]. subst b'.
    assert (Hsub : sublist (after_leave (unregister_queue ok job' i b) wire) wire)
      by (unfold after_leave; destruct (br_pubsub _); [done|apply sublist_nil_l]).
    eapply inv_shrinks; eauto using has_queue_unregister.
    + unfold coming. cbn [se_broker se_wire se_pending]. rewrite my_queue_unregister by done.
      apply sublist_app; [done|]. apply sublist_app; [|done]. unfold after_leave. destruct (br_pubsub _); [done|apply sublist_nil_l].
    + intros d y Hd Hy Hty _. exists y. split; [|done]. assert (Hh : has_queue b) by (apply M; right; eauto).
      unfold coming in *. cbn [se_broker se_wire se_pending] in *. rewrite my_queue_unregister by done.
      destruct (has_queue_keeps_connection _ C' (has_queue_unregister ok job' i b C Hh Hi)) as (conn & Hp & _).
      unfold after_leave. by rewrite Hp.
    + intros y [Hy|Hy]; [left; by eapply elem_of_sublist|by right].
  - destruct I as [C M (o & Ro & W) S O]. split; cbn in *; auto. exists o. split; [|done].
    destruct o; cbn in *; by rewrite Hr.
  - pose proof I as [C M _ S O]. cbn in *.
    assert (Hmy : my_queue (register_queue true job me b) = []).
    { unfold my_queue, register_queue. rewrite andb_false_r. cbn. rewrite lookup_insert_eq. cbn. by rewrite lookup_insert_eq. }
    eapply inv_shrinks; eauto using register_connected; cbn [vw_stage vw_out]; try done.
    + intros _. unfold has_queue, register_queue. rewrite andb_false_r. cbn. rewrite lookup_insert_eq. eexists. split; [done|].
      by rewrite lookup_insert_eq.
    + unfold coming. cbn [se_broker se_wire se_pending]. rewrite Hmy. by apply sublist_inserts_l.
    + intros pre e post E He. destruct (O _ _ _ E He) as [_ Hf]. congruence.
  - pose proof I as [C M (o & Ro & _) S O]. cbn in *. rewrite (retained_read _ _ _ _ Ro Ht) in Hread. simplify_eq.
    set (v' := viewer_snapshot cfg time snap v).
    eapply (inv_shrinks r p wire b v p wire b v'); eauto.
    + intros d o Hd Ro' He. exfalso. rewrite (retains_fun _ _ _ Ro' Ro) in He. destruct snap as [e|]; [|done]. cbn in He.
      subst v'. cbn in Hd. by rewrite He in Hd.
    + subst v'. destruct snap as [e|]; cbn [viewer_snapshot vw_out vw_stage].
      * apply out_snoc; [done|congruence|]. by intros ->.
      * intros pre e post E He. destruct (O _ _ _ E He) as [_ Hf]. congruence.
  - by eapply inv_turn.
  - pose proof I as [C M _ S O]. cbn in *. destruct (unregister_spec ok job me b C) as [C' Hsubs]. subst b'.
    assert (Hw : sublist (after_leave (unregister_queue ok job me b) wire) wire)
      by (unfold after_leave; destruct (br_pubsub _); [done|apply sublist_nil_l]).
    eapply inv_shrinks; eauto; try congruence.
    + intros [H1|[d H1]]; congruence.
    + unfold coming. cbn [se_broker se_wire se_pending].
      apply sublist_app; [|apply sublist_app; [unfold after_leave; destruct (br_pubsub _); [done|apply sublist_nil_l]|done]].
      unfold my_queue at 1. rewrite Hsubs. destruct (br_subscribers b !! job) as [qs|] eqn:Eq; [|rewrite Eq; apply sublist_nil_l].
      destruct (decide _); [rewrite lookup_delete_eq|rewrite lookup_insert_eq; cbn; rewrite lookup_delete_eq]; apply sublist_nil_l.
    + intros y [Hy|Hy]; [left; by eapply elem_of_sublist|by right].
Qed.

(** ** The theorem *)

Definition at_rest (y : Sse) : Prop := se_pending y = None ∧ mine (se_wire y) = [] ∧ queued (my_queue (se_broker y)) = [].

(** A fresh start: nothing retained for the job, nobody watching it under this name. *)
Definition fresh_start (r : Redis) : Sse := mkSse r None [] fresh_broker (mkViewer Connecting []).

Lemma fresh_inv r : r !! last_key job = None → stream_inv (fresh_start r).
Proof.
  intros Hr. split; cbn.
  - intros j Hj. cbn in Hj. by apply lookup_empty_is_Some in Hj.
  - by intros [?|[??]].
  - exists None. split_and!; [done|constructor| |]; [intros e He; by apply not_elem_of_nil in He|done].
  - intros e [He|He]; [by apply not_elem_of_nil in He|done].
  - intros pre e post E. by destruct pre.
Qed.

Lemma reach_inv r y : r !! last_key job = None → rtc sse_step (fresh_start r) y → stream_inv y.
Proof.
  intros Hr Hs. apply fresh_inv in Hr. induction Hs as [|x y z Hxy _ IH]; [done|]. eapply IH, stream_step_inv; eauto.
Qed.

End Stream.

(** ** Worked examples *)

Module ProgressExample.
#[local] Existing Instance printed_codec.

Definition cfg : BrokerConfig := mkBrokerConfig 2 300 0 5.
Definition job : string := "7".
Definition now : Z := 1700000000000000.
Definition t0 : Q := 1700000000.
Definition running : ProgressEvent := new_event now job "running" 40 "chunk 2" 0 "job.progress" (Some 11%Z).
Definition completed : ProgressEvent := new_event now job "completed" 100 "Job completed successfully" 0 "job.completed" (Some 3%Z).

(** Two streams are open; the third is refused; a second release of a slot changes nothing. *)
Lemma stream_slots_exact_witness :
  ∃ b1 b2, acquire_slot cfg 0 fresh_broker = Ok b1 ∧ acquire_slot cfg 1 b1 = Ok b2 ∧
    is_ok (acquire_slot cfg 2 b2) = false ∧ br_active (release_slot 0 (release_slot 0 b2)) = 1%Z.
Proof.
  eexists _, _. split; [reflexivity|]. split; [reflexivity|]. split; [|reflexivity].
  apply (stream_slots_exact cfg); [|split; reflexivity].
  eapply (slots_acquire _ _ 1%N); [eapply (slots_acquire _ _ 0%N); [apply slots_fresh|reflexivity|reflexivity]|reflexivity|reflexivity].
Defined.

Lemma progress_updates_bounded_witness :
  let calls := [(0, 0%Z); (1 # 10, 5%Z); (1, 5%Z); (1, 5%Z); (2, 100%Z)] in
  emitted fresh_throttle calls = [0; 5; 100]%Z ∧ (length (filter (λ p, p < 100)%Z (emitted fresh_throttle calls)) ≤ 100)%nat.
Proof.
  split; [reflexivity|]. apply progress_updates_bounded. intros c Hc. 
  repeat (apply elem_of_cons in Hc as [->|Hc]; [cbn; lia|]). by apply not_elem_of_nil in Hc.
Defined.

Lemma stamped : isoformat now ≠ "".
Proof. assert (E : isoformat now = "2023-11-14T22:13:20+00:00") by (vm_compute; reflexivity). rewrite E. discriminate. Qed.

Lemma window : within_ttl t0 t0.
Proof. split; [apply Qle_refl|reflexivity]. Qed.

Definition saved (e : ProgressEvent) (r : Redis) : Redis :=
  r_set t0 (last_key job) (RStr (to_json e)) (Some LAST_EVENT_TTL_SECONDS) r.

Lemma retain_first e : pe_job_id e = job → retain now t0 e ∅ = Ok (Some (to_json e), saved e ∅).
Proof.
  intros Hj. unfold retain, saved. rewrite Hj, (retained_read job t0 now t0 ∅ None); [reflexivity|apply lookup_empty|apply window].
Qed.

Lemma read_saved e r : pe_timestamp e ≠ "" → read_last_event now t0 job (saved e r) = Ok (Some e).
Proof.
  intros Hs. apply (retained_read job t0); [|apply window]. split; [done|]. exists (t0 + LAST_EVENT_TTL_SECONDS)%Q.
  split; [apply Qle_refl|apply lookup_insert_eq].
Qed.

Definition b1 : Broker := register_queue true job 0 fresh_broker.
Definition v1 : Viewer := viewer_snapshot cfg 0 None (mkViewer Registered []).
Definition r1 : Redis := saved running ∅.
Definition b2 : Broker := broker_dispatch now (progress_channel job) (to_json running) b1.
Definition y1 : Sse := mkSse r1 None [] (set_queue job 0 [] b2) (viewer_turn 0 (my_queue job 0 b2) v1).1.

(** The viewer connects, finds nothing, and is shown the first update. *)
Lemma run1 : rtc (sse_step cfg job 0 t0) (fresh_start ∅) y1.
Proof.
  eapply rtc_l; [apply st_register; reflexivity|].
  eapply rtc_l; [apply (st_snapshot _ _ _ _ _ _ _ _ _ now t0 0 None); [apply window|reflexivity|reflexivity]|].
  eapply rtc_l; [apply (st_retain _ _ _ _ _ _ _ _ now t0 running (Some (to_json running)) r1);
    [apply window|exact stamped|exact (retain_first running eq_refl)]|].
  eapply rtc_l; [apply st_publish|].
  assert (fan_out running (register_queue true job 0 fresh_broker) [] = [running]) as -> by reflexivity.
  eapply rtc_l; [apply (st_read _ _ _ _ _ _ running [] _ _ now); reflexivity|].
  eapply rtc_l; [apply (st_turn _ _ _ _ _ _ _ _ _ None 0 (viewer_turn 0 (my_queue job 0 b2) v1).1 []); [reflexivity|vm_compute; reflexivity]|].
  apply rtc_refl.
Qed.


(** A SUBSCRIBE that fails leaves its viewer registered, so the next viewer of the job does
    not subscribe either: after Redis is back and the first viewer has left, the second one
    waits on a channel nobody listens to. *)
Theorem failed_subscribe_silences_next :
  let b := unregister_queue true job 0 (register_queue true job 1 (register_queue false job 0 fresh_broker)) in
  is_Some (queues_of job b !! 1%N) ∧ br_pubsub b = Some ∅ ∧ fan_out completed b [] = [].
Proof. vm_compute. split; [by eexists|done]. Qed.

(** The check and the SET of [publish] are separate commands: two consumers that interleave
    there leave [running] retained after [completed]. *)
Theorem racing_publish_reopens :
  supersedes running None = true ∧ retain now t0 completed ∅ = Ok (Some (to_json completed), saved completed ∅) ∧
  read_last_event now t0 job (saved running (saved completed ∅)) = Ok (Some running).
Proof. split; [reflexivity|]. split; [exact (retain_first completed eq_refl)|exact (read_saved running _ stamped)]. Qed.
End ProgressExample.
