(* ===== verification/Processors.v ===== *)
(** * The job processors (workers/thread_adapters.py, cpu_processors.py, async_tasks.py)

    What each processor computes from a stored payload, the progress it offers on the
    way, and the state it shares with other jobs: the process pool, and the breaker in
    front of the simulated endpoints with the flag that degrades them.  Progress is a
    list of percentages and messages; sleeps are left out. *)
From stdpp Require Import base tactics numbers option list gmap strings.
From Stdlib Require Import ZArith QArith Qround SpecFloat Ascii.
From S2P Require Import Prelude PyData Codec Models Redis CircuitBreaker ConsumerLag Slo Progress.

(** ** Shared *)

(** [int(payload.get(k, default))]. *)
Definition payload_int (payload : dict) (k : string) (dflt : Z) : result exn Z :=
  match dget payload k with Some j => py_int_json j | None => Ok dflt end.

(** [max(lo, min(z, hi))]. *)
Definition clamp (lo hi z : Z) : Z := Z.max lo (Z.min z hi).

(** [range(start, stop, step)] for a positive step. *)
Fixpoint range_from (fuel : nat) (start stop step : Z) : list Z :=
  match fuel with
  | S fuel => if (start <? stop)%Z then start :: range_from fuel (start + step)%Z stop step else []
  | O => []
  end.
Definition py_range (stop step : Z) : list Z := range_from (Z.to_nat stop) 0 stop step.

(** [sum(range(n))]. *)
Definition sum_range (n : Z) : Z := foldr Z.add 0%Z (seqZ 0 n).

(** [int(i / n * 100)] in double precision. *)
Definition percent_done (i n : Z) : Z :=
  Qfloor (f64_value (f64_mul (f64_div (f64_of_Z i) (f64_of_Z n)) (f64_of_Z 100))).

(** A percentage and a message, as offered to the publisher. *)
Abbreviation Progress := (list (Z * string)).

(** ** thread_adapters.py: csv_upload *)

Module Csv.
Definition MAX_ROW_COUNT : Z := 1000000.
Definition MAX_CHUNK_SIZE : Z := 100000.

Record Chunk := mkChunk { ch_start : Z; ch_end : Z; ch_checksum : Z }.

Definition parse_chunk_blocking (chunk_start chunk_end : Z) : Chunk :=
  mkChunk chunk_start chunk_end (sum_range (chunk_end - chunk_start) mod 65536)%Z.

(** The dash of the messages is not of Latin-1. *)
Definition parse_chunk (en_dash : string) (row_count chunk_size total_chunks : Z) (chunk_idx : nat) (chunk_start : Z)
    : Chunk * (Z * string) :=
  let chunk_end := Z.min (chunk_start + chunk_size) row_count in
  (parse_chunk_blocking chunk_start chunk_end,
   (percent_done (Z.of_nat chunk_idx + 1) total_chunks, "Parsed rows " +:+ show_Z chunk_start +:+ en_dash +:+ show_Z chunk_end)).

Definition process_csv_upload (en_dash : string) (payload : dict) : result exn (list Chunk * Progress * dict) :=
  rows ← payload_int payload "row_count" 500;
  size ← payload_int payload "chunk_size" 100;
  let row_count := clamp 0 MAX_ROW_COUNT rows in
  let chunk_size := clamp 1 MAX_CHUNK_SIZE size in
  let total_chunks := Z.max 1 ((row_count + chunk_size - 1) / chunk_size)%Z in
  let steps := imap (parse_chunk en_dash row_count chunk_size total_chunks) (py_range row_count chunk_size) in
  let chunks := steps.*1 in
  let total_rows := foldr Z.add 0%Z ((λ c, (ch_end c - ch_start c)%Z) <$> chunks) in
  Ok (chunks,
      (0%Z, "Parsing " +:+ show_Z row_count +:+ " rows in chunks of " +:+ show_Z chunk_size) :: steps.*2,
      [("total_rows", JInt total_rows); ("chunks_processed", JInt (Z.of_nat (length chunks))); ("chunk_size", JInt chunk_size)]).
End Csv.

(** ** cpu_processors.py *)

Module Cpu.
(** *** The process pool *)

(** The current pool, named by its generation, and the last generation made. *)
Record PoolState := mkPool { pl_current : option nat; pl_generation : nat }.
Definition no_pool : PoolState := mkPool None 0.

Definition get_pool (p : PoolState) : nat * PoolState :=
  match pl_current p with
  | Some g => (pl_generation p, p)
  | None => let g := S (pl_generation p) in (g, mkPool (Some g) g)
  end.

Definition reset_pool (generation : option nat) (p : PoolState) : PoolState :=
  match pl_current p with
  | None => p
  | Some _ =>
      match generation with
      | Some g => if bool_decide (g ≠ pl_generation p) then p else mkPool None (pl_generation p)
      | None => mkPool None (pl_generation p)
      end
  end.

(** *** The work *)

Definition MAX_PAGE_COUNT : Z := 1000.
Definition MAX_REPORT_ROWS : Z := 1000000.
Definition MAX_GROUP_COUNT : Z := 1000.

(** [len(text.split())]: the runs of characters that are not blank. *)
Fixpoint count_words (inside : bool) (s : list ascii) : Z :=
  match s with
  | [] => 0
  | c :: s => if bool_decide (c = " "%char) then count_words false s
              else ((if inside then 0 else 1) + count_words true s)%Z
  end.

Definition words_per_page : Z := 300.
Definition fake_text : list ascii := mjoin (replicate (Z.to_nat words_per_page) (chars "word ")).

Definition analyze_document (payload : dict) : result exn dict :=
  pages ← payload_int payload "page_count" 10;
  let page_count := clamp 0 MAX_PAGE_COUNT pages in
  let '(word_count, entity_count) :=
    Nat.iter (Z.to_nat page_count)
      (λ acc, (acc.1 + count_words false fake_text, acc.2 + words_per_page / 20)%Z) (0, 0)%Z in
  Ok [("pages_analyzed", JInt page_count); ("word_count", JInt word_count); ("entities_found", JInt entity_count);
      ("avg_words_per_page", JInt words_per_page)].

Definition generate_report (payload : dict) : result exn dict :=
  rows ← payload_int payload "row_count" 10000;
  let row_count := clamp 0 MAX_REPORT_ROWS rows in
  groups ← payload_int payload "group_count" 10;
  let group_count := clamp 1 MAX_GROUP_COUNT groups in
  let totals := (λ i, ("group_" +:+ show_Z i, JInt (sum_range (row_count / group_count)))) <$> seqZ 0 group_count in
  Ok [("rows_processed", JInt row_count); ("groups", JInt group_count); ("totals", JObj totals);
      ("output_format", default (JStr "pdf") (dget payload "format"))].

(** *** The wrappers *)

(** What the pool_answer to the pool brought back. *)
Inductive pool_answer : Type := PoolRan | PoolBroke | PoolRaised (e : exn).

Definition BROKEN_POOL : exn := RuntimeError "BrokenProcessPool".

(** One job from its look at the pool to its end; [others] is what the other jobs do to
    the pool while this one's child runs. *)
Definition on_pool (work : dict → result exn dict) (sub : pool_answer) (others : PoolState → PoolState) (payload : dict) (p : PoolState)
    : result exn dict * PoolState :=
  let '(generation, p) := get_pool p in
  let p := others p in
  match sub with
  | PoolRan => (work payload, p)
  | PoolRaised e => (Err e, p)
  | PoolBroke => (Err BROKEN_POOL, reset_pool (Some generation) p)
  end.

Definition py_str_of (d : dict) (k : string) : string := py_str (default JNull (dget d k)).

Definition process_doc_analysis (em_dash : string) (sub : pool_answer) (others : PoolState → PoolState) (payload : dict) (p : PoolState)
    : Progress * result exn dict * PoolState :=
  let '(out, p) := on_pool analyze_document sub others payload p in
  let first := (5%Z, "Submitting document analysis to process pool") in
  (match out with
   | Ok d => [first; (100%Z, "Analysis complete " +:+ em_dash +:+ " " +:+ py_str_of d "word_count" +:+ " words across " +:+
                              py_str_of d "pages_analyzed" +:+ " pages")]
   | Err _ => [first]
   end, out, p).

Definition process_report_gen (em_dash : string) (sub : pool_answer) (others : PoolState → PoolState) (payload : dict) (p : PoolState)
    : Progress * result exn dict * PoolState :=
  let '(out, p) := on_pool generate_report sub others payload p in
  let first := (5%Z, "Generating report over " +:+ py_str (default (JInt 10000) (dget payload "row_count")) +:+ " rows") in
  (match out with
   | Ok d => [first; (100%Z, "Report generated " +:+ em_dash +:+ " " +:+ py_str_of d "groups" +:+ " groups, format=" +:+
                              py_str_of d "output_format")]
   | Err _ => [first]
   end, out, p).
End Cpu.

(** ** async_tasks.py: bulk_api_sync *)

Module Bulk.
Definition MAX_ENDPOINT_COUNT : Z := 100.
Definition bulk_api_breaker : BreakerConfig := mkBreakerConfig "bulk-api-sync" 3 30.
Definition DOWNSTREAM_FLAG_KEY : string := "chaos:downstream:bulk_api_sync".
Definition DEGRADE_FAIL : string := "fail".
Definition DEGRADE_SLOW : string := "slow".

Record Degradation := mkDegradation { dg_mode : string; dg_delay_ms : Z }.

(** [text.partition(":")]: what is before the first colon and what is after it. *)
Fixpoint partition_colon (s : list ascii) : list ascii * list ascii :=
  match s with
  | [] => ([], [])
  | c :: s' => if bool_decide (c = ":"%char) then ([], s') else let '(a, b) := partition_colon s' in (c :: a, b)
  end.

Definition parse_degradation (raw : option rval) : option Degradation :=
  text ← match raw with Some (RStr s) => Some s | Some (RInt z) => Some (show_Z z) | _ => None end;
  let '(mode, delay) := partition_colon (chars text) in
  let mode := String.string_of_list_ascii mode in
  if bool_decide (mode ∈ [DEGRADE_FAIL; DEGRADE_SLOW])
  then Some (mkDegradation mode (Z.max 0 (default 0%Z (py_int (String.string_of_list_ascii delay)))))
  else None.

Definition read_degradation (chaos_enabled : bool) (o : reach) (t : Q) (r : Redis) : option Degradation :=
  if negb chaos_enabled then None
  else match (redis_cmd o (λ r, v ← r_get t DOWNSTREAM_FLAG_KEY r; Ok (v, r)) r).1 with
       | Ok raw => parse_degradation raw
       | Err _ => None
       end.

(** *** One endpoint *)

(** What an endpoint call does when it is let through: [draw] is what chance brings, a
    failure and the number of records. *)
Definition do_call (degraded : option Degradation) (draw : bool * Z) : option Z :=
  match degraded with
  | Some d => if bool_decide (dg_mode d = DEGRADE_SLOW) then Some draw.2 else None
  | None => if draw.1 then None else Some draw.2
  end.

Inductive endpoint_outcome : Type := Synced (records : Z) | Answered503 | CircuitOpen.

Definition endpoint_json (x : nat * endpoint_outcome) : json :=
  let i := ("endpoint", JInt (Z.of_nat x.1)) in
  match x.2 with
  | Synced n => JObj [i; ("status", JStr "ok"); ("records_synced", JInt n)]
  | Answered503 => JObj [i; ("status", JStr "error"); ("code", JInt 503)]
  | CircuitOpen => JObj [i; ("status", JStr "error"); ("code", JStr "circuit_open")]
  end.

Definition is_synced (x : nat * endpoint_outcome) : bool := match x.2 with Synced _ => true | _ => false end.

(** [_call_one] with no other call in between, through the breaker. *)
Definition call_one (degraded : option Degradation) (mono : Q) (wall : Z) (signal : option Z) (draw : bool * Z) (b : Breaker)
    : endpoint_outcome * Breaker :=
  let answer := do_call degraded draw in
  let fn := match answer with Some _ => FnReturns | None => FnRaises "other" end in
  match call bulk_api_breaker mono wall signal fn mono wall b with
  | (CallRejected, _, b) => (CircuitOpen, b)
  | (CallReturned, _, b) => (Synced (default 0%Z answer), b)
  | (CallRaised, _, b) => (Answered503, b)
  end.

(** *** The job *)

(** How many endpoints the payload asks for, after the clamp. *)
Definition endpoint_count (payload : dict) : result exn Z :=
  requested ← payload_int payload "endpoint_count" 5;
  Ok (Z.max 0 (Z.min requested MAX_ENDPOINT_COUNT)).

(** The progress while the results land. *)
Definition landing (n : Z) (i : nat) : Z * string :=
  (percent_done (Z.of_nat i + 1) n, "Synced " +:+ show_Z (Z.of_nat i + 1) +:+ "/" +:+ show_Z n +:+ " endpoints").

(** [process_bulk_api_sync] given how each endpoint call ended, in the order they ended. *)
Definition process_bulk_api_sync (n : Z) (landed : list (nat * endpoint_outcome)) : Progress * result exn dict :=
  let start := (0%Z, "Starting sync of " +:+ show_Z n +:+ " endpoints") in
  if (n =? 0)%Z then
    ([start; (100%Z, "No endpoints to sync")],
     Ok [("endpoints_synced", JInt 0); ("errors", JInt 0); ("total", JInt 0); ("results", JList [])])
  else
    let ok := Z.of_nat (length (filter (λ x, is_synced x = true) landed)) in
    let errors := (Z.of_nat (length landed) - ok)%Z in
    (start :: imap (λ i _, landing n i) landed,
     if (ok =? 0)%Z then
       Err (RuntimeError ("bulk api sync failed: all " +:+ show_Z errors +:+ " endpoint calls failed (0 of " +:+ show_Z n +:+
                          " endpoints returned a result)"))
     else Ok [("endpoints_synced", JInt ok); ("errors", JInt errors); ("total", JInt n); ("results", JList (endpoint_json <$> landed))]).

(** The fan-out when each call runs to its end before the next: a call that fails at once
    does, the tasks starting in the order of their endpoints. *)
Fixpoint run_calls (degraded : option Degradation) (mono : Q) (wall : Z) (draws : nat → bool * Z) (i k : nat) (b : Breaker)
    : list (nat * endpoint_outcome) * Breaker :=
  match k with
  | O => ([], b)
  | S k =>
      let '(o, b) := call_one degraded mono wall None (draws i) b in
      let '(l, b) := run_calls degraded mono wall draws (S i) k b in
      ((i, o) :: l, b)
  end.
End Bulk.
