(* ===== verification/ProcessorsProps.v ===== *)
(** * Properties of the job processors

    A CSV is parsed in chunks that tile its rows, whatever the payload asks for; a pool is
    thrown away only when it broke; a sync accounts for every endpoint and fails exactly
    when none answered; and a degraded dependency opens the breaker. *)
From stdpp Require Import base tactics numbers option list gmap strings relations.
From Stdlib Require Import ZArith QArith Qround SpecFloat Ascii Lia.
From S2P Require Import Prelude PyData Codec Models Redis CircuitBreaker BreakerProps ConsumerLag Slo Progress ProgressProps Processors.

(** ** csv_upload *)

(** Consecutive chunks from [a] to [b], each of between 1 and [size] rows. *)
Fixpoint tiles (size a b : Z) (l : list Csv.Chunk) : Prop :=
  match l with
  | [] => a = b
  | c :: l => Csv.ch_start c = a ∧ (0 < Csv.ch_end c - Csv.ch_start c ≤ size)%Z ∧ tiles size (Csv.ch_end c) b l
  end.

Lemma tiles_total size a b l : tiles size a b l → foldr Z.add 0%Z ((λ c, (Csv.ch_end c - Csv.ch_start c)%Z) <$> l) = (b - a)%Z.
Proof.
  revert a. induction l as [|c l IH]; intros a; cbn; [lia|]. intros (<- & _ & Ht). rewrite (IH _ Ht). lia.
Qed.

Lemma range_tiles dash rows size total fuel a i :
  (0 < size)%Z → (0 ≤ a ≤ rows)%Z → (Z.to_nat (rows - a) ≤ fuel)%nat →
  tiles size a rows (imap (λ k x, (Csv.parse_chunk dash rows size total (i + k) x).1) (range_from fuel a rows size)).
Proof.
  intros Hs. revert a i. induction fuel as [|fuel IH]; intros a i Ha Hf; cbn [range_from]; [cbn; lia|].
  destruct (a <? rows)%Z eqn:E; [|cbn; apply Z.ltb_ge in E; lia]. apply Z.ltb_lt in E. cbn [imap tiles].
  split; [done|]. unfold Csv.parse_chunk at 1 2 3. cbn. split; [lia|].
  destruct (Z.le_gt_cases (a + size) rows) as [Hle|Hgt].
  - rewrite Z.min_l by lia.
    rewrite (imap_ext _ (λ k x, (Csv.parse_chunk dash rows size total (S i + k) x).1)) by done.
    apply IH; lia.
  - rewrite Z.min_r by lia. destruct fuel as [|fuel]; cbn [range_from]; [done|]. by rewrite (proj2 (Z.ltb_ge _ _)) by lia.
Qed.

(** The number of chunks is the one announced. *)
Lemma range_count fuel a stop step :
  (0 < step)%Z → (a ≤ stop)%Z → (Z.to_nat (stop - a) ≤ fuel)%nat →
  (Z.of_nat (length (range_from fuel a stop step)) = (stop - a + step - 1) / step)%Z.
Proof.
  intros Hs. revert a. induction fuel as [|fuel IH]; intros a Ha Hf; cbn [range_from].
  - replace (stop - a + step - 1)%Z with (step - 1)%Z by lia. by rewrite Z.div_small by lia.
  - destruct (a <? stop)%Z eqn:E; [apply Z.ltb_lt in E|apply Z.ltb_ge in E; replace (stop - a + step - 1)%Z with (step - 1)%Z by lia; by rewrite Z.div_small by lia].
    cbn [length]. rewrite Nat2Z.inj_succ. destruct (Z.le_gt_cases (a + step) stop) as [Hle|Hgt].
    + rewrite IH by lia. replace (stop - a + step - 1)%Z with ((stop - (a + step) + step - 1) + 1 * step)%Z by lia. rewrite Z.div_add; lia.
    + replace (length _) with 0%nat by (destruct fuel; cbn [range_from]; [done|]; by rewrite (proj2 (Z.ltb_ge _ _)) by lia).
      rewrite <- (Z.div_unique (stop - a + step - 1) step 1 (stop - a - 1)); lia.
Qed.

(** A CSV is parsed whole.  Whatever integers a stored payload carries, replayed payloads
    that never passed validation included, the job returns: its chunks tile the rows from
    0 to the clamped row count in order, none empty and none above the clamped chunk
    size, and the result reports exactly that many rows and chunks. *)
Theorem csv_is_parsed_whole dash payload rows size :
  payload_int payload "row_count" 500 = Ok rows → payload_int payload "chunk_size" 100 = Ok size →
  let row_count := clamp 0 Csv.MAX_ROW_COUNT rows in
  let chunk_size := clamp 1 Csv.MAX_CHUNK_SIZE size in
  ∃ chunks progress, Csv.process_csv_upload dash payload =
      Ok (chunks, progress, [("total_rows", JInt row_count); ("chunks_processed", JInt (Z.of_nat (length chunks))); ("chunk_size", JInt chunk_size)]) ∧
    tiles chunk_size 0 row_count chunks ∧ Z.of_nat (length chunks) = ((row_count + chunk_size - 1) / chunk_size)%Z ∧
    length progress = S (length chunks) ∧ head progress.*1 = Some 0%Z.
Proof.
  intros Hr Hs row_count chunk_size.
  assert (Hrow : (0 ≤ row_count)%Z) by (unfold row_count, clamp; lia).
  assert (Hsize : (0 < chunk_size)%Z) by (unfold chunk_size, clamp; lia).
  unfold Csv.process_csv_upload. rewrite Hr, Hs. cbn [mbind result_mbind]. fold row_count chunk_size.
  set (total := Z.max 1 _). set (steps := imap _ _).
  assert (Hch : steps.*1 = imap (λ k x, (Csv.parse_chunk dash row_count chunk_size total (0 + k) x).1) (py_range row_count chunk_size)).
  { unfold steps. by rewrite fmap_imap. }
  assert (Ht : tiles chunk_size 0 row_count steps.*1).
  { rewrite Hch. apply range_tiles; lia. }
  exists (steps.*1), ((0%Z, "Parsing " +:+ show_Z row_count +:+ " rows in chunks of " +:+ show_Z chunk_size) :: steps.*2).
  rewrite (tiles_total _ _ _ _ Ht), Z.sub_0_r. split_and!; try done.
  - unfold steps. rewrite length_fmap, length_imap. unfold py_range. rewrite range_count by lia. f_equal. lia.
  - cbn. by rewrite !length_fmap.
Qed.

(** ** The process pool *)

(** Running jobs with the generation each was given, the generations a child of which
    has died, and the ones a job has given up on. *)
Record PoolRun := mkPoolRun {
  pr_pool : Cpu.PoolState;
  pr_jobs : list nat;
  pr_broken : gset nat;
  pr_given_up : gset nat
}.

Inductive pool_step : PoolRun → PoolRun → Prop :=
  | ps_submit p js br gu g p' : Cpu.get_pool p = (g, p') → pool_step (mkPoolRun p js br gu) (mkPoolRun p' (js ++ [g]) br gu)
  | ps_dies p js br gu g : (g ≤ Cpu.pl_generation p)%nat → pool_step (mkPoolRun p js br gu) (mkPoolRun p js ({[g]} ∪ br) gu)
  | ps_ends p js js' br gu g : pool_step (mkPoolRun p (js ++ g :: js') br gu) (mkPoolRun p (js ++ js') br gu)
  | ps_breaks p js js' br gu g : g ∈ br →
      pool_step (mkPoolRun p (js ++ g :: js') br gu) (mkPoolRun (Cpu.reset_pool (Some g) p) (js ++ js') br ({[g]} ∪ gu)).

Definition idle_pool : PoolRun := mkPoolRun Cpu.no_pool [] ∅ ∅.

Record pool_inv (w : PoolRun) : Prop := {
  pi_current : ∀ g, Cpu.pl_current (pr_pool w) = Some g → g = Cpu.pl_generation (pr_pool w) ∧ g ∉ pr_given_up w;
  pi_jobs : ∀ g, g ∈ pr_jobs w → (g ≤ Cpu.pl_generation (pr_pool w))%nat;
  pi_given_up : ∀ g, g ∈ pr_given_up w → (g ≤ Cpu.pl_generation (pr_pool w))%nat
}.

Lemma get_pool_spec p g p' :
  (∀ g, Cpu.pl_current p = Some g → g = Cpu.pl_generation p) → Cpu.get_pool p = (g, p') →
  Cpu.pl_current p' = Some g ∧ Cpu.pl_generation p' = g ∧
  (p' = p ∨ Cpu.pl_current p = None ∧ g = S (Cpu.pl_generation p)).
Proof.
  intros Hc. unfold Cpu.get_pool. destruct (Cpu.pl_current p) as [g'|] eqn:E; intros [= <- <-]; cbn; [|by split_and!; try done; right].
  specialize (Hc g' eq_refl). rewrite E. subst g'. split_and!; try done. by left.
Qed.

Lemma reset_pool_spec g p :
  Cpu.pl_generation (Cpu.reset_pool (Some g) p) = Cpu.pl_generation p ∧
  (Cpu.reset_pool (Some g) p = p ∧ (g ≠ Cpu.pl_generation p ∨ Cpu.pl_current p = None) ∨
   Cpu.pl_current (Cpu.reset_pool (Some g) p) = None ∧ g = Cpu.pl_generation p).
Proof.
  unfold Cpu.reset_pool. destruct (Cpu.pl_current p) eqn:E; [|auto]. case_bool_decide as Hg; [by auto|]. cbn. split; [done|]. right.
  split; [done|]. destruct (decide (g = Cpu.pl_generation p)); [done|]. by destruct Hg.
Qed.

Lemma pool_step_inv w w' : pool_step w w' → pool_inv w → pool_inv w'.
Proof.
  intros Hs [Hc Hj Hg]. destruct Hs as [p js br gu g p' Hp|p js br gu g Hle|p js js' br gu g|p js js' br gu g Hb]; cbn in *.
  - destruct (get_pool_spec p g p') as (Hp1 & Hp2 & Hcase); [intros g' Hg'; by apply Hc|done|].
    assert (Hge : (Cpu.pl_generation p ≤ Cpu.pl_generation p')%nat) by (destruct Hcase as [->|[_ ?]]; lia).
    split; cbn.
    + intros g' Hg'. rewrite Hp1 in Hg'. simplify_eq. split; [done|]. destruct Hcase as [->|[_ Heq]]; [by apply Hc|]. intros Hin. apply Hg in Hin. lia.
    + intros g' Hin. apply elem_of_app in Hin as [Hin|Hin]; [apply Hj in Hin; lia|]. apply list_elem_of_singleton in Hin. lia.
    + intros g' Hin. apply Hg in Hin. lia.
  - by split.
  - split; cbn; try done. intros g' Hin. apply Hj. set_solver.
  - destruct (reset_pool_spec g p) as [Hgen Hcase]. split; cbn.
    + intros g' Hg'. rewrite Hgen. destruct Hcase as [[Heq Hor]|[Hn _]]; [|congruence]. rewrite Heq in Hg'. destruct (Hc g' Hg') as [-> Hn].
      split; [done|]. destruct Hor as [Hor|Hor]; [set_solver|congruence].
    + intros g' Hin. rewrite Hgen. apply Hj. set_solver.
    + intros g' Hin. rewrite Hgen. apply elem_of_union in Hin as [Hin|Hin]; [|by apply Hg]. apply elem_of_singleton in Hin as ->. apply Hj. set_solver.
Qed.

(** A pool is thrown away only when it broke, and never used again.  Over every
    interleaving of jobs that look up the pool, lose a child or end: a pool none of whose
    children has died stays the current one through every step, also when jobs of earlier
    pools give up, and a job is never given a pool that a job before it gave up on. *)
Theorem healthy_pool_survives w w' :
  rtc pool_step idle_pool w → pool_step w w' →
  (∀ g, Cpu.pl_current (pr_pool w) = Some g → g ∉ pr_broken w → Cpu.pl_current (pr_pool w') = Some g) ∧
  (∀ g, pr_jobs w' = pr_jobs w ++ [g] → Cpu.pl_current (pr_pool w') = Some g ∧ g ∉ pr_given_up w').
Proof.
  intros Hr Hs.
  assert (Hw : pool_inv w).
  { revert Hr. apply (rtc_ind_r pool_inv); [split; cbn; set_solver|]. intros y z _ Hyz Hy. by eapply pool_step_inv. }
  pose proof (pool_step_inv _ _ Hs Hw) as [Hc' _ _]. destruct Hw as [Hc Hj Hg].
  destruct Hs as [p js br gu g p' Hp|p js br gu g Hle|p js js' br gu g|p js js' br gu g Hb]; cbn in *.
  - destruct (get_pool_spec p g p') as (Hp1 & Hp2 & Hcase); [intros g' Hg'; by apply Hc|done|]. split.
    + intros g' Hg' _. destruct Hcase as [->|[Hn _]]; [done|congruence].
    + intros g' [= <-]%(inj _). split; [done|]. by apply Hc'.
  - split; [done|]. intros g' Heq. by apply (f_equal length) in Heq; rewrite length_app in Heq; cbn in Heq; lia.
  - split; [done|]. intros g' Heq. apply (f_equal length) in Heq. rewrite !length_app in Heq. cbn in Heq. lia.
  - split; [|intros g' Heq; apply (f_equal length) in Heq; rewrite !length_app in Heq; cbn in Heq; lia].
    intros g' Hg' Hnb. destruct (reset_pool_spec g p) as [_ [[-> _]|[_ Heq]]]; [done|]. destruct (Hc g' Hg') as [-> _]. by subst.
Qed.

(** ** bulk_api_sync *)

(** Percentages in order, within 0 and 100, the last one 100. *)
Definition good_percents (l : list Z) : bool :=
  forallb (λ p, (0 <=? p) && (p <=? 100))%Z l && bool_decide (last l = Some 100%Z) &&
  (fix ascending l := match l with a :: (b :: _) as l' => (a <=? b)%Z && ascending l' | _ => true end) l.

Definition landing_percents (n : nat) : list Z := 0%Z :: ((λ i, percent_done (Z.of_nat i + 1) (Z.of_nat n)) <$> seq 0 n).

Lemma percents_checked : forallb (λ n, good_percents (landing_percents n)) (seq 1 100) = true.
Proof. vm_compute. reflexivity. Qed.

Lemma percents_good n : (1 ≤ n ≤ 100)%nat → good_percents (landing_percents n) = true.
Proof.
  intros Hn. pose proof percents_checked as Hc. rewrite forallb_forall in Hc. apply Hc. apply in_seq. lia.
Qed.

Lemma imap_seq {A} (f : nat → Z) (l : list A) : imap (λ i _, f i) l = f <$> seq 0 (length l).
Proof.
  revert f. induction l as [|x l IH]; intros f; [done|]. cbn [imap length seq fmap list_fmap]. f_equal.
  rewrite <- (fmap_S_seq 0), <- list_fmap_compose. exact (IH (f ∘ S)).
Qed.

(** A sync accounts for every endpoint and fails exactly when none answered.  For up to
    100 endpoints, however the calls ended and in whatever order: the percentages offered
    never fall, stay between 0 and 100 and end at 100; when some endpoint synced, the job
    returns with the number of those, the number of the others and their total; when none
    did, it raises; and a sync of no endpoints returns. *)
Theorem sync_accounts_for_all payload n landed :
  Bulk.endpoint_count payload = Ok n → Z.of_nat (length landed) = n →
  let '(progress, out) := Bulk.process_bulk_api_sync n landed in
  good_percents progress.*1 = true ∧
  let ok := Z.of_nat (length (filter (λ x, Bulk.is_synced x = true) landed)) in
  match out with
  | Ok d => dget d "endpoints_synced" = Some (JInt ok) ∧ dget d "errors" = Some (JInt (n - ok)) ∧ dget d "total" = Some (JInt n) ∧
            (n = 0 ∨ 0 < ok)%Z
  | Err _ => (0 < n)%Z ∧ ok = 0%Z
  end.
Proof.
  intros Hn Hl. unfold Bulk.endpoint_count in Hn. destruct (payload_int _ _ _) as [z|]; [|done]. cbn in Hn. injection Hn as Hn.
  unfold Bulk.process_bulk_api_sync. destruct (n =? 0)%Z eqn:E0.
  { apply Z.eqb_eq in E0. destruct landed; [|cbn in Hl; lia]. rewrite E0. cbn. split_and!; try done. by left. }
  apply Z.eqb_neq in E0. split.
  - cbn [fmap list_fmap fst]. rewrite fmap_imap. cbn. rewrite (imap_seq (λ i, percent_done (Z.of_nat i + 1) n)).
    unfold Bulk.MAX_ENDPOINT_COUNT in Hn. rewrite <- Hl. apply (percents_good (length landed)). lia.
  - destruct (_ =? 0)%Z eqn:Eo; [apply Z.eqb_eq in Eo; split; [lia|done]|]. apply Z.eqb_neq in Eo. cbn. rewrite Hl. split_and!; try done. right. lia.
Qed.

(** *** A degraded dependency *)

Lemma closed_call_raises cfg t w reason b :
  cb_state b = CLOSED → ∃ rs, call cfg t w None (FnRaises reason) t w b = (CallRaised, rs, (call cfg t w None (FnRaises reason) t w b).2).
Proof.
  intros Hs. unfold call. rewrite bool_decide_false by (by intros Hn; apply Hn). unfold admit_call. rewrite Hs.
  destruct (on_failure cfg t w reason b) as [ch b1]. destruct (record_state cfg ch t None b1) as [r1 b2]. eauto.
Qed.

Lemma fail_call d mono wall draw b :
  Bulk.dg_mode d = Bulk.DEGRADE_FAIL →
  Bulk.call_one (Some d) mono wall None draw b =
    match call Bulk.bulk_api_breaker mono wall None (FnRaises "other") mono wall b with
    | (CallRejected, _, b) => (Bulk.CircuitOpen, b)
    | (CallReturned, _, b) => (Bulk.Synced 0, b)
    | (CallRaised, _, b) => (Bulk.Answered503, b)
    end.
Proof. intros Hd. unfold Bulk.call_one, Bulk.do_call. rewrite Hd. by rewrite bool_decide_false. Qed.

Lemma open_run d mono wall draws i k b :
  Bulk.dg_mode d = Bulk.DEGRADE_FAIL → cb_state b = OPEN → cb_opened_at b = Some mono →
  Bulk.run_calls (Some d) mono wall draws i k b = ((λ j, (j, Bulk.CircuitOpen)) <$> seq i k, b).
Proof.
  intros Hd Hs Ho. revert i. induction k as [|k IH]; intros i; [done|]. cbn [Bulk.run_calls]. rewrite fail_call by done.
  rewrite (open_call_rejected Bulk.bulk_api_breaker mono wall _ mono wall b mono Hs Ho).
  - by rewrite IH.
  - apply (Qle_lt_trans _ 0); [|reflexivity]. apply Qle_lteq. right. apply Qplus_opp_r.
Qed.

Lemma failing_step d mono wall draws i k b :
  Bulk.dg_mode d = Bulk.DEGRADE_FAIL → cb_state b = CLOSED →
  ∃ b', Bulk.run_calls (Some d) mono wall draws i (S k) b =
      (let '(l, b2) := Bulk.run_calls (Some d) mono wall draws (S i) k b' in ((i, Bulk.Answered503) :: l, b2)) ∧
    cb_failure_count b' = (cb_failure_count b + 1)%Z ∧
    if (3 <=? cb_failure_count b + 1)%Z then cb_state b' = OPEN ∧ cb_opened_at b' = Some mono else cb_state b' = CLOSED.
Proof.
  intros Hd Hs. exists (call Bulk.bulk_api_breaker mono wall None (FnRaises "other") mono wall b).2.
  destruct (failing_call_closed Bulk.bulk_api_breaker mono wall "other" b Hs) as [Hc Hst]. cbn [Bulk.run_calls]. rewrite fail_call by done.
  destruct (closed_call_raises Bulk.bulk_api_breaker mono wall "other" b Hs) as [rs Hr]. rewrite Hr at 1. split; [done|]. split; [done|].
  cbn [Bulk.bulk_api_breaker bc_failure_threshold] in Hst. destruct (3 <=? _)%Z; [done|]. by destruct Hst.
Qed.


(** ** Worked examples *)

Module ProcessorExample.
(** 250 rows in chunks of 100, and a chunk size of zero. *)
Definition upload : dict := [("row_count", JInt 250); ("chunk_size", JStr "100")].

Lemma csv_is_parsed_whole_witness :
  ∃ chunks progress, Csv.process_csv_upload "-" upload =
      Ok (chunks, progress, [("total_rows", JInt 250); ("chunks_processed", JInt (Z.of_nat (length chunks))); ("chunk_size", JInt 100)]) ∧
    tiles 100 0 250 chunks ∧ Z.of_nat (length chunks) = 3%Z ∧ length progress = S (length chunks) ∧ head progress.*1 = Some 0%Z.
Proof. exact (csv_is_parsed_whole "-" upload 250 100 eq_refl eq_refl). Defined.

Example zero_chunk_size :
  (λ x, x.2) <$> (match Csv.process_csv_upload "-" [("row_count", JInt 3); ("chunk_size", JInt 0)] with Ok x => Some x | Err _ => None end) =
  Some [("total_rows", JInt 3); ("chunks_processed", JInt 3); ("chunk_size", JInt 1)].
Proof. vm_compute. reflexivity. Qed.

Example analysis :
  Cpu.analyze_document [("page_count", JInt 2)] =
  Ok [("pages_analyzed", JInt 2); ("word_count", JInt 600); ("entities_found", JInt 30); ("avg_words_per_page", JInt 300)].
Proof. vm_compute. reflexivity. Qed.

Example report :
  Cpu.generate_report [("row_count", JInt 10); ("group_count", JInt 2)] =
  Ok [("rows_processed", JInt 10); ("groups", JInt 2); ("totals", JObj [("group_0", JInt 10); ("group_1", JInt 10)]); ("output_format", JStr "pdf")].
Proof. vm_compute. reflexivity. Qed.

(** Two jobs share a pool, its child dies, the first gives up, a third job gets a new
    pool, and the second gives up on the old one. *)
Definition rebuilt : PoolRun := mkPoolRun (Cpu.mkPool (Some 2%nat) 2) [1; 2]%nat {[1%nat]} {[1%nat]}.

Lemma rebuilt_reachable : rtc pool_step idle_pool rebuilt.
Proof.
  eapply rtc_l; [exact (ps_submit Cpu.no_pool [] ∅ ∅ 1 (Cpu.mkPool (Some 1%nat) 1) eq_refl)|].
  eapply rtc_l; [exact (ps_submit (Cpu.mkPool (Some 1%nat) 1) [1%nat] ∅ ∅ 1 _ eq_refl)|].
  eapply rtc_l; [apply (ps_dies (Cpu.mkPool (Some 1%nat) 1) [1; 1]%nat ∅ ∅ 1); cbn; lia|]. rewrite union_empty_r_L.
  eapply rtc_l; [apply (ps_breaks (Cpu.mkPool (Some 1%nat) 1) [] [1%nat] {[1%nat]} ∅ 1); set_solver|]. rewrite union_empty_r_L.
  eapply rtc_l; [exact (ps_submit (Cpu.mkPool None 1) [1%nat] {[1%nat]} {[1%nat]} 2 (Cpu.mkPool (Some 2%nat) 2) eq_refl)|].
  apply rtc_refl.
Qed.

Lemma healthy_pool_survives_witness :
  let w' := mkPoolRun (Cpu.reset_pool (Some 1%nat) (pr_pool rebuilt)) [2%nat] {[1%nat]} ({[1%nat]} ∪ {[1%nat]}) in
  Cpu.pl_current (pr_pool w') = Some 2%nat.
Proof.
  cbn zeta. refine (proj1 (healthy_pool_survives rebuilt _ rebuilt_reachable _) 2%nat eq_refl _).
  - apply (ps_breaks (Cpu.mkPool (Some 2%nat) 2) [] [2%nat]). set_solver.
  - cbn. set_solver.
Defined.

Definition two_of_three : list (nat * Bulk.endpoint_outcome) := [(2, Bulk.Synced 40); (0, Bulk.Answered503); (1, Bulk.Synced 7)]%nat.

Lemma sync_accounts_for_all_witness :
  let '(progress, out) := Bulk.process_bulk_api_sync 3 two_of_three in
  good_percents progress.*1 = true ∧
  let ok := Z.of_nat (length (filter (λ x, Bulk.is_synced x = true) two_of_three)) in
  match out with
  | Ok d => dget d "endpoints_synced" = Some (JInt ok) ∧ dget d "errors" = Some (JInt (3 - ok)) ∧ dget d "total" = Some (JInt 3) ∧
            (3 = 0 ∨ 0 < ok)%Z
  | Err _ => (0 < 3)%Z ∧ ok = 0%Z
  end.
Proof. exact (sync_accounts_for_all [("endpoint_count", JInt 3)] 3 two_of_three eq_refl eq_refl). Defined.

Definition flagged : Redis := r_set 0 Bulk.DOWNSTREAM_FLAG_KEY (RStr "fail:2000") (Some 300%Q) ∅.

End ProcessorExample.
