(* ===== verification/BreakerState.v ===== *)
(** * The published state of circuit breakers (core/breaker_state.py, the registry of
      core/circuit_breaker.py, mcp/tools/circuit_breakers.py)

    A breaker lives in the process that owns it; what another process can read is a
    record in Redis, and what makes every owner forget a fault is a signal in Redis that
    carries the instant of the last reset.  The writes fail open, the reads say why they
    know nothing. *)
From stdpp Require Import base tactics numbers option list gmap strings sorting.
From Stdlib Require Import ZArith QArith.
From S2P Require Import Prelude PyData Codec Models Redis CircuitBreaker ConsumerLag Slo Progress.

Definition BREAKER_STATE_KEY_PREFIX : string := "breaker:state:".
Definition BREAKER_RESET_AT_KEY : string := "breaker:reset:at".
Definition BREAKER_STATE_CLOSED : string := "closed".
Definition BREAKER_STATE_TTL_SECONDS : Q := inject_Z 86400.

(** ** Failure classes *)

Definition FAILURE_CLASS_TIMEOUT : string := "timeout".
Definition FAILURE_CLASS_CONNECTION : string := "connection".
Definition FAILURE_CLASS_OTHER : string := "other".

(** An exception as the names of its class and of the classes it derives from. *)
Definition classify_failure (mro : list string) : string :=
  if bool_decide ("TimeoutError" ∈ mro) then FAILURE_CLASS_TIMEOUT
  else if bool_decide ("ConnectionError" ∈ mro) || bool_decide ("OSError" ∈ mro) then FAILURE_CLASS_CONNECTION
  else FAILURE_CLASS_OTHER.

(** ** Why nothing is known *)

Definition BREAKERS_UNKNOWN_NONE_PUBLISHED : string :=
  "no breaker has a state record: either this platform registers none, or none has reported for longer than the platform keeps".
Definition BREAKERS_UNKNOWN_UNREACHABLE : string :=
  "the platform could not reach the store that holds breaker state, so no breaker state is known".
Definition BREAKERS_UNKNOWN_UNREADABLE : string :=
  "breaker state records exist but could not be read, so no breaker state is known".

Definition breaker_key_for (name : string) : string := BREAKER_STATE_KEY_PREFIX +:+ name.

(** A record as it is read back. *)
Record StoredBreaker := mkStoredBreaker { sb_record : BreakerRecord; sb_recorded_at : Z }.

(** The outcome, the instant and the clock of the n-th command an operation issues. *)
Record StoreEnv := mkStoreEnv {
  se_reach : nat → reach;
  se_time : nat → Q;
  se_now : nat → Z
}.

Section State.
Context `{PyCodec} (float_repr : Q → string).

(** ** Writing *)

Definition iso_json (at_ : option Z) : json := match at_ with Some t => JStr (isoformat t) | None => JNull end.

Definition breaker_dict (b : BreakerRecord) (now : Z) : dict :=
  [("name", JStr (br_name b)); ("state", JStr (br_state b)); ("failure_count", JInt (br_failure_count b));
   ("failure_threshold", JInt (br_failure_threshold b));
   ("recovery_timeout_s", JFloat (float_repr (br_recovery_timeout_s b)));
   ("last_state_change_at", iso_json (br_last_state_change_at b)); ("last_failure_at", iso_json (br_last_failure_at b));
   ("last_failure_reason_class", match br_last_failure_reason_class b with Some c => JStr c | None => JNull end);
   ("recorded_at", JStr (isoformat now))].

(** The [SET] of a record made at [now]; a failed one is logged and dropped. *)
Definition set_breaker_record (o : reach) (t : Q) (now : Z) (b : BreakerRecord) (r : Redis) : Redis :=
  (redis_cmd o (λ r, Ok (tt, r_set t (breaker_key_for (br_name b)) (RStr (json_dumps (JObj (breaker_dict b now))))
                              (Some BREAKER_STATE_TTL_SECONDS) r)) r).2.

Definition publish_breaker_state (env : StoreEnv) (n : nat) (b : BreakerRecord) (r : Redis) : Redis :=
  set_breaker_record (se_reach env n) (se_time env n) (se_now env n) b r.

(** [publish_breaker_reset]: the instant it signalled, or nothing. *)
Definition publish_breaker_reset (env : StoreEnv) (n : nat) (r : Redis) : option Z * Redis :=
  let at_ := se_now env n in
  match redis_cmd (se_reach env n) (λ r, Ok (tt, r_set (se_time env n) BREAKER_RESET_AT_KEY (RStr (isoformat at_))
                                             (Some BREAKER_STATE_TTL_SECONDS) r)) r with
  | (Ok _, r) => (Some at_, r)
  | (Err _, r) => (None, r)
  end.

(** ** Reading *)

Definition parse_stamp (v : option json) : option Z :=
  match v with Some (JStr s) => fromisoformat s | _ => None end.

(** [read_breaker_reset_at]: absent, unparseable and unreachable are all no reset. *)
Definition read_breaker_reset_at (o : reach) (t : Q) (r : Redis) : option Z :=
  match (redis_cmd o (λ r, v ← r_get t BREAKER_RESET_AT_KEY r; Ok (v, r)) r).1 with
  | Ok (Some (RStr s)) => fromisoformat s
  | _ => None
  end.

(** [int(loaded.get(k) or 0)] and [float(loaded.get(k) or 0.0)]. *)
Definition int_or_zero (v : option json) : result exn Z :=
  match v with Some j => if truthy j then py_int_json j else Ok 0%Z | None => Ok 0%Z end.

Definition py_float_json (j : json) : result exn Q :=
  match j with
  | JFloat s | JStr s => match py_float s with Some q => Ok q | None => Err (ValueError "could not convert string to float") end
  | JInt z => Ok (inject_Z z)
  | JBool b => Ok (if b then 1 else 0)%Q
  | _ => Err (RuntimeError "TypeError")
  end.
Definition float_or_zero (v : option json) : result exn Q :=
  match v with Some j => if truthy j then py_float_json j else Ok 0%Q | None => Ok 0%Q end.

(** [_record_from]: [Ok None] is a record that cannot be read as one; a count of another
    type raises. *)
Definition record_from (raw : option rval) : result exn (option StoredBreaker) :=
  match raw with
  | Some (RStr s) =>
      match json_loads s with
      | Some (JObj d) =>
          match parse_stamp (dget d "recorded_at"), dget d "name", dget d "state" with
          | Some recorded_at, Some (JStr name), Some (JStr state) =>
              count ← int_or_zero (dget d "failure_count");
              threshold ← int_or_zero (dget d "failure_threshold");
              timeout ← float_or_zero (dget d "recovery_timeout_s");
              Ok (Some (mkStoredBreaker
                (mkBreakerRecord name state count threshold timeout
                   (parse_stamp (dget d "last_state_change_at")) (parse_stamp (dget d "last_failure_at"))
                   (match dget d "last_failure_reason_class" with Some (JStr c) => Some c | _ => None end))
                recorded_at))
          | _, _, _ => Ok None
          end
      | _ => Ok None
      end
  | _ => Ok None
  end.

(** [_scan_keys]: every live key of the namespace, sorted. *)
Definition scan_keys (t : Q) (r : Redis) : list string :=
  merge_sort string_le (filter (λ k, String.prefix BREAKER_STATE_KEY_PREFIX k = true ∧ is_Some (live t r k)) (elements (dom r))).

(** The loop over the keys: [Ok None] is an unreachable store. *)
Fixpoint read_records (env : StoreEnv) (n : nat) (keys : list string) (r : Redis) : result exn (option (list StoredBreaker)) :=
  match keys with
  | [] => Ok (Some [])
  | k :: keys =>
      match (redis_cmd (se_reach env n) (λ r, v ← r_get (se_time env n) k r; Ok (v, r)) r).1 with
      | Err _ => Ok None
      | Ok raw =>
          record ← record_from raw;
          rest ← read_records env (S n) keys r;
          Ok (option_map (λ l, option_list record ++ l) rest)
      end
  end.

Definition name_le (a b : StoredBreaker) : Prop := string_le (br_name (sb_record a)) (br_name (sb_record b)).
#[export] Instance name_le_dec : RelDecision name_le.
Proof. intros a b. unfold name_le. apply _. Defined.

(** [read_breaker_states] from its n-th command on: the records by name, or why none is
    known; and how many commands it issued. *)
Definition read_breaker_states (env : StoreEnv) (n : nat) (r : Redis) : result exn (list StoredBreaker * option string * nat) :=
  match se_reach env n with
  | Answered =>
      let keys := scan_keys (se_time env n) r in
      if bool_decide (keys = []) then Ok ([], Some BREAKERS_UNKNOWN_NONE_PUBLISHED, S n)
      else
        records ← read_records env (S n) keys r;
        Ok (match records with
            | None => ([], Some BREAKERS_UNKNOWN_UNREACHABLE)
            | Some [] => ([], Some BREAKERS_UNKNOWN_UNREADABLE)
            | Some l => (merge_sort name_le l, None)
            end, (S n + length keys)%nat)
  | _ => Ok ([], Some BREAKERS_UNKNOWN_UNREACHABLE, S n)
  end.

(** ** The reset *)

Definition is_reset_clean (b : BreakerRecord) : bool :=
  bool_decide (br_state b = BREAKER_STATE_CLOSED) && (br_failure_count b =? 0)%Z &&
  bool_decide (br_last_failure_at b = None) && bool_decide (br_last_failure_reason_class b = None) &&
  bool_decide (br_last_state_change_at b = None).

(** The record a reset writes: the breaker's own yardsticks and nothing else. *)
Definition cleaned (b : BreakerRecord) : BreakerRecord :=
  mkBreakerRecord (br_name b) BREAKER_STATE_CLOSED 0 (br_failure_threshold b) (br_recovery_timeout_s b) None None None.

Fixpoint rewrite_records (env : StoreEnv) (n : nat) (records : list StoredBreaker) (r : Redis) : Z * Redis :=
  match records with
  | [] => (0%Z, r)
  | x :: records =>
      if is_reset_clean (sb_record x) then rewrite_records env n records r
      else
        let '(count, r) := rewrite_records env (S n) records (publish_breaker_state env n (cleaned (sb_record x)) r) in
        ((count + 1)%Z, r)
  end.

(** [reset_breaker_states], run without interruption: how many records it rewrote. *)
Definition reset_breaker_states (env : StoreEnv) (r : Redis) : result exn Z * Redis :=
  match publish_breaker_reset env 0 r with
  | (None, r) => (Ok 0%Z, r)
  | (Some _, r) =>
      match read_breaker_states env 1 r with
      | Err e => (Err e, r)
      | Ok (records, _, n) => let '(count, r) := rewrite_records env n records r in (Ok count, r)
      end
  end.

(** ** The registry *)

(** The breakers of one process, each with its configuration. *)
Abbreviation Registry := (gmap string (BreakerConfig * Breaker)).

(** [get_circuit_breaker]: the first registration of a name decides its configuration. *)
Definition get_circuit_breaker (cfg : BreakerConfig) (reg : Registry) : Registry :=
  match reg !! bc_name cfg with Some _ => reg | None => <[bc_name cfg := (cfg, new_breaker)]> reg end.

Definition registered_le (a b : BreakerConfig * Breaker) : Prop := string_le (bc_name a.1) (bc_name b.1).
#[export] Instance registered_le_dec : RelDecision registered_le.
Proof. intros a b. unfold registered_le. apply _. Defined.

Definition registered_breakers (reg : Registry) : list (BreakerConfig * Breaker) :=
  merge_sort registered_le (map_to_list reg).*2.

(** [_record] of one breaker against a store: the read of the signal is command [2 n], the
    write command [2 n + 1]. *)
Definition record_breaker (env : StoreEnv) (n : nat) (changed : bool) (mono : Q) (cfg : BreakerConfig) (b : Breaker) (r : Redis)
    : Breaker * Redis :=
  let signal := read_breaker_reset_at (se_reach env (2 * n)) (se_time env (2 * n)) r in
  match record_state cfg changed mono signal b with
  | (None, b) => (b, r)
  | (Some record, b) => (b, publish_breaker_state env (2 * n + 1) record r)
  end.

Fixpoint record_each (env : StoreEnv) (mono : nat → Q) (n : nat) (bs : list (BreakerConfig * Breaker)) (reg : Registry) (r : Redis)
    : Registry * Redis :=
  match bs with
  | [] => (reg, r)
  | (cfg, b) :: bs =>
      let '(b, r) := record_breaker env n true (mono n) cfg b r in
      record_each env mono (S n) bs (<[bc_name cfg := (cfg, b)]> reg) r
  end.

Definition record_registered_breakers (env : StoreEnv) (mono : nat → Q) (reg : Registry) (r : Redis) : Registry * Redis :=
  record_each env mono 0 (registered_breakers reg) reg r.

(** ** get_circuit_breakers *)

(** [_age_seconds]: the float rounded to milliseconds, clamped at zero. *)
Definition age_seconds (measured_at : Z) (at_ : option Z) : option json :=
  (λ a, JFloat (repr_rounded 3 (f64_div (f64_of_Z (Z.max 0 (measured_at - a))) (f64_of_Z 1000000)))) <$> at_.

Context (datetime_text : Z → string).

Definition datetime_opt (o : option Z) : json := match o with Some t => JStr (datetime_text t) | None => JNull end.

(** [_reading] as it is serialised. *)
Definition breaker_reading (measured_at : Z) (x : StoredBreaker) : json :=
  let b := sb_record x in
  JObj [("name", JStr (br_name b)); ("state", JStr (br_state b)); ("failure_count", JInt (br_failure_count b));
        ("failure_threshold", JInt (br_failure_threshold b)); ("recovery_timeout_s", JFloat (float_repr (br_recovery_timeout_s b)));
        ("last_state_change_at", datetime_opt (br_last_state_change_at b));
        ("seconds_since_state_change", default JNull (age_seconds measured_at (br_last_state_change_at b)));
        ("last_failure_at", datetime_opt (br_last_failure_at b));
        ("last_failure_reason_class", match br_last_failure_reason_class b with Some c => JStr c | None => JNull end);
        ("recorded_at", JStr (datetime_text (sb_recorded_at x)));
        ("reported_age_s", default (JFloat "0.0") (age_seconds measured_at (Some (sb_recorded_at x))))].

Definition get_circuit_breakers (env : StoreEnv) (measured_at : Z) (r : Redis) : result exn dict :=
  '(records, unknown, _) ← read_breaker_states env 0 r;
  Ok [("measured_at", JStr (datetime_text measured_at)); ("breakers", JList (breaker_reading measured_at <$> records));
      ("total", JInt (Z.of_nat (length records)));
      ("unknown_reason", match unknown with Some s => JStr s | None => JNull end)].
End State.
