(* ===== verification/BreakerStateProps.v ===== *)
(** * Properties of the published state of circuit breakers

    What is written is read back, and a reset is complete: once it has rewritten what it
    found, no reader sees a failure from before it, whatever the owning processes do
    meanwhile, unless one of them was in the middle of recording. *)
From stdpp Require Import base tactics numbers option list gmap strings sorting relations.
From Stdlib Require Import ZArith QArith Lia Lqa.
From S2P Require Import Prelude PyData Codec Models Redis CircuitBreaker ConsumerLag Slo Progress BreakerState.

Section Props.
#[local] Instance reach_eq_dec : EqDecision reach.
Proof. solve_decision. Defined.

Context `{PyCodec} (float_repr : Q → string).

(** ** Read back what was written *)

Definition valid_opt (o : option Z) : Prop := match o with Some t => valid_datetime t = true | None => True end.

(** A timeout whose text is read as itself. *)
Definition printable (q : Q) : Prop :=
  float_text (float_repr q) = true ∧ float_or_zero (Some (JFloat (float_repr q))) = Ok q.

Definition good_record (b : BreakerRecord) : Prop :=
  printable (br_recovery_timeout_s b) ∧ valid_opt (br_last_state_change_at b) ∧ valid_opt (br_last_failure_at b).

Abbreviation text b now := (json_dumps (JObj (breaker_dict float_repr b now))).

Lemma parse_iso o : valid_opt o → parse_stamp (Some (iso_json o)) = o.
Proof. destruct o as [t|]; [|done]. cbn [iso_json parse_stamp valid_opt]. intros Ht. by rewrite iso_roundtrip. Qed.

Lemma int_or_zero_int z : int_or_zero (Some (JInt z)) = Ok z.
Proof. unfold int_or_zero. by destruct z. Qed.

(** What a breaker publishes is what a reader reads. *)
Lemma published_is_read b now :
  good_record b → valid_datetime now = true → record_from (Some (RStr (text b now))) = Ok (Some (mkStoredBreaker b now)).
Proof.
  intros ([Hf Hq] & Hc & Hl) Hn. unfold record_from. rewrite loads_dumps.
  - set (d := breaker_dict float_repr b now).
    change (dget d "recorded_at") with (Some (JStr (isoformat now))).
    change (dget d "name") with (Some (JStr (br_name b))).
    change (dget d "state") with (Some (JStr (br_state b))).
    change (dget d "failure_count") with (Some (JInt (br_failure_count b))).
    change (dget d "failure_threshold") with (Some (JInt (br_failure_threshold b))).
    change (dget d "recovery_timeout_s") with (Some (JFloat (float_repr (br_recovery_timeout_s b)))).
    change (dget d "last_state_change_at") with (Some (iso_json (br_last_state_change_at b))).
    change (dget d "last_failure_at") with (Some (iso_json (br_last_failure_at b))).
    change (dget d "last_failure_reason_class") with (Some (match br_last_failure_reason_class b with Some c => JStr c | None => JNull end)).
    rewrite (parse_iso _ Hc), (parse_iso _ Hl), !int_or_zero_int, Hq. cbn [parse_stamp]. rewrite iso_roundtrip by done. cbn [mbind result_mbind].
    destruct b as [? ? ? ? ? ? ? []]; done.
  - cbn [json_plain breaker_dict]. rewrite bool_decide_true.
    + cbn. rewrite Hf. unfold iso_json. by repeat case_match.
    + cbn. repeat constructor; set_solver.
Qed.

(** ** Owners, recordings and resets, interleaved *)

(** One [_record] or one [_honour_reset] on its way. *)
Inductive stage : Type :=
  | Begun
  | HasSignal (signal : option Z)
  | Made (record : BreakerRecord) (at_ : Z)
  | Ended.

(** One [reset_breaker_states] on its way, after its signal. *)
Inductive reset_stage : Type :=
  | Signalled
  | Reading (keys : list string) (found : list StoredBreaker)
  | Rewriting (lost : bool) (todo : list StoredBreaker)  (** [lost]: a write did not arrive *)
  | Failed.

Record BreakerWorld := mkBreakerWorld {
  bw_clock : Z;
  bw_redis : Redis;
  bw_owners : list (BreakerConfig * Breaker);
  bw_recordings : list (nat * stage);
  bw_resets : list reset_stage
}.

Definition seconds (us : Z) : Q := total_seconds us.
Definition DAY : Z := 86400000000.

(** The blocks a breaker runs under its lock. *)
Inductive block (cfg : BreakerConfig) (now : Z) (b : Breaker) : Breaker → Prop :=
  | block_admit mono p b' : admit_call cfg mono now b = (p, b') → block cfg now b b'
  | block_undo : block cfg now b (undo_probe now b)
  | block_success : block cfg now b (on_success now b).2
  | block_failure mono reason : block cfg now b (on_failure cfg mono now reason b).2.

Abbreviation set_record o c at_ b r := (set_breaker_record float_repr o (seconds c) at_ b r).

(** The steps; all processes and the store share one clock.  A recording whose read of
    the signal fails takes part only with [outages]. *)
Inductive world_step (outages : bool) : BreakerWorld → BreakerWorld → Prop :=
  | ws_tick c c' r os ps rs : (c ≤ c')%Z → world_step outages (mkBreakerWorld c r os ps rs) (mkBreakerWorld c' r os ps rs)
  | ws_block c r os ps rs i cfg b b' : os !! i = Some (cfg, b) → block cfg c b b' →
      world_step outages (mkBreakerWorld c r os ps rs) (mkBreakerWorld c r (<[i := (cfg, b')]> os) ps rs)
  | ws_begin c r os ps rs i :
      world_step outages (mkBreakerWorld c r os ps rs) (mkBreakerWorld c r os (ps ++ [(i, Begun)]) rs)
  | ws_signal c r os ps rs k i o : ps !! k = Some (i, Begun) → (o = Answered ∨ outages = true) →
      world_step outages (mkBreakerWorld c r os ps rs)
        (mkBreakerWorld c r os (<[k := (i, HasSignal (read_breaker_reset_at o (seconds c) r))]> ps) rs)
  | ws_honour c r os ps rs k i signal cfg b : ps !! k = Some (i, HasSignal signal) → os !! i = Some (cfg, b) →
      world_step outages (mkBreakerWorld c r os ps rs)
        (mkBreakerWorld c r (<[i := (cfg, (honour_reset signal b).2)]> os) (<[k := (i, Ended)]> ps) rs)
  | ws_make c r os ps rs k i signal cfg b mono record b' : ps !! k = Some (i, HasSignal signal) → os !! i = Some (cfg, b) →
      record_state cfg true mono signal b = (Some record, b') →
      world_step outages (mkBreakerWorld c r os ps rs)
        (mkBreakerWorld c r (<[i := (cfg, b')]> os) (<[k := (i, Made record c)]> ps) rs)
  | ws_set c r os ps rs k i record at_ o : ps !! k = Some (i, Made record at_) →
      world_step outages (mkBreakerWorld c r os ps rs)
        (mkBreakerWorld c (set_record o c at_ record r) os (<[k := (i, Ended)]> ps) rs)
  | ws_cancel c r os ps rs k i st : ps !! k = Some (i, st) →
      world_step outages (mkBreakerWorld c r os ps rs) (mkBreakerWorld c r os (<[k := (i, Ended)]> ps) rs)
  | ws_reset c r os ps rs o done r' : publish_breaker_reset (mkStoreEnv (λ _, o) (λ _, seconds c) (λ _, c)) 0 r = (done, r') →
      world_step outages (mkBreakerWorld c r os ps rs)
        (mkBreakerWorld c r' os ps (rs ++ [match done with Some _ => Signalled | None => Failed end]))
  | ws_scan c r os ps rs k : rs !! k = Some Signalled →
      world_step outages (mkBreakerWorld c r os ps rs)
        (mkBreakerWorld c r os ps (<[k := Reading (scan_keys (seconds c) r) []]> rs))
  | ws_get c r os ps rs k key keys found raw x : rs !! k = Some (Reading (key :: keys) found) →
      r_get (seconds c) key r = Ok raw → record_from raw = Ok x →
      world_step outages (mkBreakerWorld c r os ps rs)
        (mkBreakerWorld c r os ps (<[k := Reading keys (found ++ option_list x)]> rs))
  | ws_read c r os ps rs k found : rs !! k = Some (Reading [] found) →
      world_step outages (mkBreakerWorld c r os ps rs)
        (mkBreakerWorld c r os ps (<[k := Rewriting false (filter (λ x, is_reset_clean (sb_record x) = false) (merge_sort name_le found))]> rs))
  | ws_rewrite c r os ps rs k lost x todo o : rs !! k = Some (Rewriting lost (x :: todo)) →
      world_step outages (mkBreakerWorld c r os ps rs)
        (mkBreakerWorld c (set_record o c c (cleaned (sb_record x)) r) os ps
           (<[k := Rewriting (lost || bool_decide (o = NotReached)) todo]> rs))
  | ws_fail c r os ps rs k st : rs !! k = Some st →
      world_step outages (mkBreakerWorld c r os ps rs) (mkBreakerWorld c r os ps (<[k := Failed]> rs)).
(** ** The invariant after a signal *)

Section Reset.
Context (T : Z) (me : nat).
Hypothesis valid_clock : ∀ c, (T ≤ c < T + DAY)%Z → valid_datetime c = true.

(** No failure from before the reset. *)
Definition fresh_failure (o : option Z) : Prop := match o with Some f => (T ≤ f)%Z | None => True end.

Definition owner_ok (x : BreakerConfig * Breaker) : Prop :=
  printable (bc_recovery_timeout x.1) ∧ valid_opt (cb_last_state_change_at x.2) ∧ valid_opt (cb_last_failure_at x.2) ∧
  match cb_observed_reset_at x.2 with Some o => (T ≤ o)%Z → fresh_failure (cb_last_failure_at x.2) | None => True end.

Definition stage_ok (st : stage) : Prop :=
  match st with
  | HasSignal signal => ∃ t, signal = Some t ∧ (T ≤ t)%Z
  | Made record at_ => good_record record ∧ fresh_failure (br_last_failure_at record) ∧ valid_datetime at_ = true
  | _ => True
  end.

(** Every record of the namespace was written by a breaker or a reset. *)
Definition written (k : string) (e : rentry) (b : BreakerRecord) (at_ : Z) : Prop :=
  k = breaker_key_for (br_name b) ∧ e_val e = RStr (text b at_) ∧ good_record b ∧ valid_datetime at_ = true.
Definition store_ok (r : Redis) : Prop :=
  ∀ k e, String.prefix BREAKER_STATE_KEY_PREFIX k = true → r !! k = Some e → ∃ b at_, written k e b at_.

Definition signal_ok (c : Z) (r : Redis) : Prop :=
  ∃ t, (T ≤ t ≤ c)%Z ∧ r !! BREAKER_RESET_AT_KEY = Some (mkEntry (RStr (isoformat t)) (Some (seconds t + BREAKER_STATE_TTL_SECONDS)%Q)).

(** A live record that still shows a failure from before. *)
Definition stale (c : Z) (r : Redis) (k : string) : Prop :=
  ∃ e b at_, live (seconds c) r k = Some e ∧ written k e b at_ ∧ ¬ fresh_failure (br_last_failure_at b).

Definition found_ok (l : list StoredBreaker) : Prop := Forall (λ x, good_record (sb_record x)) l.
Definition reset_ok (st : reset_stage) : Prop :=
  match st with Reading keys found => Forall (λ k, String.prefix BREAKER_STATE_KEY_PREFIX k = true) keys ∧ found_ok found | Rewriting _ todo => found_ok todo | _ => True end.

Definition names (k : string) (l : list StoredBreaker) : Prop :=
  ∃ x, x ∈ l ∧ breaker_key_for (br_name (sb_record x)) = k ∧ is_reset_clean (sb_record x) = false.

(** What this reset has still to rewrite covers what is stale. *)
Definition covers (c : Z) (r : Redis) (st : reset_stage) : Prop :=
  ∀ k, stale c r k →
    match st with
    | Reading keys found => k ∈ keys ∨ names k found
    | Rewriting false todo => names k todo
    | _ => True
    end.

Record after_signal (w : BreakerWorld) : Prop := {
  as_clock : (T ≤ bw_clock w)%Z;
  as_signal : signal_ok (bw_clock w) (bw_redis w);
  as_owners : Forall owner_ok (bw_owners w);
  as_stages : Forall (λ x, stage_ok x.2) (bw_recordings w);
  as_store : store_ok (bw_redis w);
  as_resets : Forall reset_ok (bw_resets w);
  as_mine : ∃ st, bw_resets w !! me = Some st ∧ covers (bw_clock w) (bw_redis w) st
}.

Lemma key_is_prefixed name : String.prefix BREAKER_STATE_KEY_PREFIX (breaker_key_for name) = true.
Proof. apply prefix_app. Qed.

Lemma written_fun k e b a b' a' : written k e b a → written k e b' a' → b' = b.
Proof.
  intros (_ & He & Hb & Ha) (_ & He' & Hb' & Ha').
  pose proof (published_is_read b a Hb Ha) as H1. pose proof (published_is_read b' a' Hb' Ha') as H2.
  rewrite <- He in H1. rewrite <- He' in H2. rewrite H1 in H2. by injection H2.
Qed.

(** *** Writing a record *)

Lemma set_record_cases o c at_ b r :
  set_record o c at_ b r = r ∧ o = NotReached ∨
  set_record o c at_ b r = <[breaker_key_for (br_name b) := mkEntry (RStr (text b at_)) (Some (seconds c + BREAKER_STATE_TTL_SECONDS)%Q)]> r ∧
    o ≠ NotReached.
Proof. destruct o; cbn; [right|left|right]; done. Qed.

Lemma set_store_ok o c at_ b r : good_record b → valid_datetime at_ = true → store_ok r → store_ok (set_record o c at_ b r).
Proof.
  intros Hb Ha Hr k e Hk. destruct (set_record_cases o c at_ b r) as [[-> _]|[-> _]]; [by apply Hr|].
  rewrite lookup_insert_Some. intros [[<- <-]|[_ He]]; [|by apply Hr]. by exists b, at_.
Qed.

Lemma set_signal_ok o c c' at_ b r : signal_ok c r → signal_ok c (set_record o c' at_ b r).
Proof.
  intros (t & Ht & Hr). exists t. split; [done|]. destruct (set_record_cases o c' at_ b r) as [[-> _]|[-> _]]; [done|].
  by rewrite lookup_insert_ne.
Qed.

Lemma set_stale o c at_ b r k :
  good_record b → valid_datetime at_ = true → fresh_failure (br_last_failure_at b) → stale c (set_record o c at_ b r) k →
  stale c r k ∧ (o = NotReached ∨ k ≠ breaker_key_for (br_name b)).
Proof.
  intros Hb Ha Hf Hs. destruct (set_record_cases o c at_ b r) as [[Hw ->]|[Hw Ho]]; rewrite Hw in Hs; [by auto|].
  destruct (decide (k = breaker_key_for (br_name b))) as [->|Hne].
  - destruct Hs as (e & b' & a' & Hl & Hw' & Hn). unfold live in Hl. rewrite lookup_insert_eq in Hl. destruct (expired _ _); [done|].
    simplify_eq. assert (b' = b) as ->; [|done]. eapply written_fun; [|done]. by split_and!.
  - split; [|by right]. destruct Hs as (e & b' & a' & Hl & ?). exists e, b', a'. unfold live in *. by rewrite lookup_insert_ne in Hl.
Qed.

Lemma live_earlier c c' r k e : (c ≤ c')%Z → live (seconds c') r k = Some e → live (seconds c) r k = Some e.
Proof.
  unfold live, expired. destruct (r !! k) as [e'|]; [|done]. intros Hc Hl. destruct (e_exp e') as [x|]; [|done].
  destruct (Qle_bool x (seconds c')) eqn:E; [done|]. destruct (Qle_bool x (seconds c)) eqn:E2; [|done].
  apply Qle_bool_iff in E2. assert (Hx : (x <= seconds c')%Q).
  { eapply Qle_trans; [exact E2|]. unfold seconds, total_seconds, Qle. cbn. lia. }
  apply Qle_bool_iff in Hx. congruence.
Qed.

(** *** The owners *)

Lemma honour_ok cfg b t :
  owner_ok (cfg, b) → (T ≤ t)%Z →
  let b' := (honour_reset (Some t) b).2 in owner_ok (cfg, b') ∧ fresh_failure (cb_last_failure_at b').
Proof.
  intros (Hp & Hc & Hl & Ho) Ht. cbn [fst snd] in *. unfold honour_reset. case_bool_decide as E.
  { cbn. rewrite E in Ho. split; [|by apply Ho]. unfold owner_ok. cbn. rewrite E. split_and!; done. }
  destruct (cb_last_failure_at b) as [f|] eqn:Ef.
  - destruct (t <? f)%Z eqn:El; cbn; unfold owner_ok; cbn; rewrite ?Ef; split_and!; cbn in *; try done; apply Z.ltb_lt in El; lia.
  - cbn. unfold owner_ok. cbn. split_and!; done.
Qed.

Lemma make_ok cfg b t mono record b' :
  owner_ok (cfg, b) → (T ≤ t)%Z → record_state cfg true mono (Some t) b = (Some record, b') →
  owner_ok (cfg, b') ∧ good_record record ∧ fresh_failure (br_last_failure_at record).
Proof.
  intros Hb Ht. destruct (honour_ok cfg b t Hb Ht) as [(Hp & Hc & Hl & Ho) Hf]. unfold record_state. cbn [negb andb].
  intros [= <- <-]. cbn [fst snd] in *. unfold owner_ok, good_record. cbn. split_and!; done.
Qed.

Lemma set_state_ok cfg c s b : valid_datetime c = true → owner_ok (cfg, b) → owner_ok (cfg, set_state c s b).
Proof. intros Hv (Hp & Hc & Hl & Ho). unfold set_state. case_bool_decide; unfold owner_ok; cbn; by split_and!. Qed.

Lemma block_ok cfg c b b' : block cfg c b b' → (T ≤ c)%Z → valid_datetime c = true → owner_ok (cfg, b) → owner_ok (cfg, b').
Proof.
  intros Hb Ht Hv Ho. destruct Hb as [mono p b' Ha| | |mono reason].
  - unfold admit_call in Ha. destruct (cb_state b); [by simplify_eq| |by simplify_eq].
    destruct (Qle_bool _ _); simplify_eq; [|done]. exact (set_state_ok cfg c HALF_OPEN b Hv Ho).
  - unfold undo_probe. apply set_state_ok; done.
  - pose proof (set_state_ok cfg c CLOSED b Hv Ho) as Hs. exact Hs.
  - assert (Hf : owner_ok (cfg, mkBreaker (cb_state b) (cb_failure_count b + 1) (cb_opened_at b) false (cb_last_state_change_at b)
                             (Some c) (Some reason) (cb_recorded_at_monotonic b) (cb_observed_reset_at b))).
    { destruct Ho as (Hp & Hc & _ & _). unfold owner_ok. cbn in *. split_and!; try done. by destruct (cb_observed_reset_at b). }
    unfold on_failure. destruct (_ || _); [|exact Hf]. exact (set_state_ok cfg c OPEN _ Hv Hf).
Qed.

(** *** The signal *)

Lemma day_alive c t : (T ≤ t)%Z → (c < T + DAY)%Z → Qle_bool (seconds t + BREAKER_STATE_TTL_SECONDS) (seconds c) = false.
Proof.
  intros Ht Hc. apply not_true_is_false. intros Hq. apply Qle_bool_iff in Hq.
  unfold seconds, total_seconds, BREAKER_STATE_TTL_SECONDS, DAY, Qle, Qplus in *. cbn in *. lia.
Qed.

Lemma signal_read c r : signal_ok c r → (T ≤ c < T + DAY)%Z → ∃ t, read_breaker_reset_at Answered (seconds c) r = Some t ∧ (T ≤ t)%Z.
Proof.
  intros (t & Ht & Hr) Hc. exists t. split; [|lia]. unfold read_breaker_reset_at, redis_cmd, r_get, live, expired. rewrite Hr.
  cbn [e_exp e_val]. rewrite day_alive by lia. cbn. apply iso_roundtrip, valid_clock. lia.
Qed.

Lemma reset_signal o c r done r' :
  publish_breaker_reset (mkStoreEnv (λ _, o) (λ _, seconds c) (λ _, c)) 0 r = (done, r') →
  (r' = r ∧ done = None) ∨
  r' = <[BREAKER_RESET_AT_KEY := mkEntry (RStr (isoformat c)) (Some (seconds c + BREAKER_STATE_TTL_SECONDS)%Q)]> r.
Proof. destruct o; cbn; intros [= <- <-]; [by right|by left|by right]. Qed.

Lemma reset_store_ok e r : store_ok r → store_ok (<[BREAKER_RESET_AT_KEY := e]> r).
Proof. intros Hr k e' Hk. rewrite lookup_insert_Some. intros [[<- _]|[_ He]]; [done|by apply Hr]. Qed.

Lemma reset_stale e c r k : stale c (<[BREAKER_RESET_AT_KEY := e]> r) k → stale c r k.
Proof.
  intros (e' & b & a & Hl & (-> & Hw) & Hn). exists e', b, a. split_and!; try done.
  unfold live in *. by rewrite lookup_insert_ne in Hl.
Qed.

(** *** What the reset reads *)

Lemma get_record c r k raw x :
  store_ok r → String.prefix BREAKER_STATE_KEY_PREFIX k = true → r_get (seconds c) k r = Ok raw → record_from raw = Ok x →
  Forall (λ y, good_record (sb_record y)) (option_list x) ∧ (stale c r k → names k (option_list x)).
Proof.
  intros Hr Hk Hg Hx. unfold r_get in Hg. destruct (live (seconds c) r k) as [e|] eqn:El.
  2:{ simplify_eq/=. split; [constructor|]. intros (e & b & a & Hl & _). congruence. }
  assert (He : r !! k = Some e). { unfold live in El. destruct (r !! k) as [e'|]; [|done]. destruct (expired _ _); by simplify_eq. }
  destruct (Hr k e Hk He) as (b & a & Hw). pose proof Hw as (Hkey & Hv & Hb & Ha). rewrite Hv in Hg. simplify_eq.
  rewrite published_is_read in Hx by done. injection Hx as <-. split; [by apply Forall_singleton|].
  intros (e' & b' & a' & Hl & Hw' & Hn). rewrite El in Hl. injection Hl as <-. rewrite (written_fun _ _ _ _ _ _ Hw Hw') in Hn.
  exists (mkStoredBreaker b a). split_and!; [by left|done|]. cbn. unfold is_reset_clean.
  destruct (br_last_failure_at b); [|done]. rewrite (bool_decide_false (Some _ = None)) by done. by rewrite !andb_false_r.
Qed.

Lemma scan_elem c r k : k ∈ scan_keys (seconds c) r ↔ String.prefix BREAKER_STATE_KEY_PREFIX k = true ∧ is_Some (live (seconds c) r k).
Proof.
  unfold scan_keys. rewrite merge_sort_Permutation, list_elem_of_filter, elem_of_elements, elem_of_dom. split; [naive_solver|].
  intros [Hk Hl]. split; [done|]. destruct Hl as [e Hl]. unfold live in Hl. destruct (r !! k); [eauto|done].
Qed.

Lemma names_app k l l' : names k (l ++ l') ↔ names k l ∨ names k l'.
Proof. unfold names. setoid_rewrite elem_of_app. naive_solver. Qed.

Lemma cleaned_good b : good_record b → good_record (cleaned b).
Proof. intros (Hp & _). unfold good_record. by split_and!. Qed.

(** *** One step *)

Definition in_time (w : BreakerWorld) : Prop := (bw_clock w < T + DAY)%Z.

Lemma stale_earlier c c' r k : (c ≤ c')%Z → stale c' r k → stale c r k.
Proof. intros Hc (e & b & a & Hl & ?). exists e, b, a. split; [|done]. by apply (live_earlier c c'). Qed.

(** Another stage of some reset, the same store. *)
Lemma mine_other c r (rs : list reset_stage) k st st' :
  rs !! k = Some st → (∃ x, rs !! me = Some x ∧ covers c r x) → (covers c r st → covers c r st') →
  ∃ x, <[k := st']> rs !! me = Some x ∧ covers c r x.
Proof.
  intros Hk (x & Hx & Hc) Himp. destruct (decide (k = me)) as [->|Hne].
  - exists st'. rewrite list_lookup_insert_eq by (by apply lookup_lt_Some in Hk). split; [done|]. rewrite Hk in Hx. simplify_eq. by apply Himp.
  - exists x. by rewrite list_lookup_insert_ne.
Qed.

(** Another store with no new stale record. *)
Lemma mine_store c r r' (rs : list reset_stage) :
  (∀ k, stale c r' k → stale c r k) → (∃ x, rs !! me = Some x ∧ covers c r x) → ∃ x, rs !! me = Some x ∧ covers c r' x.
Proof. intros Hs (x & Hx & Hc). exists x. split; [done|]. intros k Hk. by apply Hc, Hs. Qed.

Lemma mine_rewritten c r (rs : list reset_stage) k lost x todo o :
  reset_ok (Rewriting lost (x :: todo)) → valid_datetime c = true → rs !! k = Some (Rewriting lost (x :: todo)) →
  (∃ x, rs !! me = Some x ∧ covers c r x) →
  ∃ y, <[k := Rewriting (lost || bool_decide (o = NotReached)) todo]> rs !! me = Some y ∧
       covers c (set_record o c c (cleaned (sb_record x)) r) y.
Proof.
  intros Hok Hv Hk Hm. apply Forall_cons in Hok as [Hx _].
  pose proof (λ key, set_stale o c c (cleaned (sb_record x)) r key (cleaned_good _ Hx) Hv I) as Hst.
  destruct Hm as (y & Hy & Hc). destruct (decide (k = me)) as [->|Hne].
  - rewrite Hk in Hy. injection Hy as <-. eexists. rewrite list_lookup_insert_eq by (by apply lookup_lt_Some in Hk).
    split; [done|]. intros key Hs. destruct lost; [done|]. cbn [orb]. case_bool_decide as Ho; [done|].
    destruct (Hst key Hs) as [Hs' [?|Hkey]]; [done|]. destruct (Hc key Hs') as (z & Hz & Hkz & Hd). exists z. split_and!; try done.
    apply elem_of_cons in Hz as [->|Hz]; [|done]. by destruct Hkey.
  - exists y. rewrite list_lookup_insert_ne by done. split; [done|]. intros key Hs. apply Hc. by apply Hst.
Qed.

Lemma owner_insert i x os : Forall owner_ok os → owner_ok x → Forall owner_ok (<[i := x]> os).
Proof. intros. by apply Forall_insert. Qed.

Lemma after_signal_step w w' : world_step false w w' → in_time w' → after_signal w → after_signal w'.
Proof.
  intros Hs Ht [Hc Hsig Ho Hp Hst Hrs Hm]. unfold in_time in Ht.
  destruct Hs as [c c' r os ps rs Hcc|c r os ps rs i cfg b b' Hi Hb|c r os ps rs i|c r os ps rs k i o Hk Hans|c r os ps rs k i sg cfg b Hk Hi
    |c r os ps rs k i sg cfg b mono record b' Hk Hi Hr|c r os ps rs k i record at_ o Hk|c r os ps rs k i st Hk
    |c r os ps rs o dn r' Hr|c r os ps rs k Hk|c r os ps rs k key keys found raw x Hk Hg Hx|c r os ps rs k found Hk|c r os ps rs k lost x todo o Hk
    |c r os ps rs k st Hk];
    cbn [bw_clock bw_redis bw_owners bw_recordings bw_resets] in *;
    try (assert (Hv : valid_datetime c = true) by (apply valid_clock; lia)).
  - split; cbn; try done; [lia|destruct Hsig as (t & ? & ?); exists t; split; [lia|done]|].
    destruct Hm as (x & Hx & Hcv). exists x. split; [done|]. intros k Hk. by apply Hcv, (stale_earlier c c').
  - split; cbn; try done. apply owner_insert; [done|]. eapply block_ok; [done|done|done|]. by eapply (Forall_lookup_1 owner_ok).
  - split; cbn; try done. apply Forall_app. split; [done|]. by apply Forall_singleton.
  - destruct Hans as [->|?]; [|done]. split; cbn; try done. apply Forall_insert; [done|]. by apply signal_read.
  - destruct (Forall_lookup_1 _ _ _ _ Hp Hk) as (t & -> & Htt). cbn in *.
    split; cbn; try done; [|by apply Forall_insert]. apply owner_insert; [done|].
    apply honour_ok; [|done]. by eapply (Forall_lookup_1 owner_ok).
  - destruct (Forall_lookup_1 _ _ _ _ Hp Hk) as (t & -> & Htt). cbn in *.
    destruct (make_ok cfg b t mono record b') as (Hb' & Hrec & Hfr); [by eapply (Forall_lookup_1 owner_ok)|done|done|].
    split; cbn; try done; [by apply owner_insert|]. by apply Forall_insert.
  - destruct (Forall_lookup_1 _ _ _ _ Hp Hk) as (Hg & Hf & Ha). cbn in *. split; cbn; try done.
    + by apply set_signal_ok.
    + by apply Forall_insert.
    + by apply set_store_ok.
    + apply (mine_store c r); [|done]. intros key Hkey. exact (proj1 (set_stale _ _ _ _ _ _ Hg Ha Hf Hkey)).
  - split; cbn; try done. by apply Forall_insert.
  - destruct (reset_signal o c r dn r' Hr) as [[-> ->]| ->].
    + split; cbn; try done; [apply Forall_app; split; [done|by apply Forall_singleton]|].
      destruct Hm as (x & Hx & Hcv). exists x. split; [by apply lookup_app_l_Some|done].
    + split; cbn; try done.
      * exists c. split; [lia|]. by rewrite lookup_insert_eq.
      * by apply reset_store_ok.
      * apply Forall_app; split; [done|apply Forall_singleton]. by destruct dn.
      * destruct Hm as (x & Hx & Hcv). exists x. split; [by apply lookup_app_l_Some|]. intros key Hkey. apply Hcv. by eapply reset_stale.
  - split; cbn; try done.
    { apply Forall_insert; [done|]. split; [|constructor]. apply Forall_forall. intros key. by rewrite scan_elem; intros [? _]. }
    eapply mine_other; [done|done|]. intros _ key Hkey. left.
    apply scan_elem. destruct Hkey as (e & b & a & Hl & (-> & _) & _). split; [apply key_is_prefixed|eauto].
  - pose proof (Forall_lookup_1 _ _ _ _ Hrs Hk) as Hf. cbn in Hf.
    destruct Hf as [Hkeys Hf]. apply Forall_cons in Hkeys as [Hkey Hkeys]. destruct (get_record c r key raw x Hst Hkey Hg Hx) as [Hgd Hnm].
    split; cbn; try done; [apply Forall_insert; [done|]; split; [done|by apply Forall_app]|].
    eapply mine_other; [done|done|]. intros Hcv k' Hk'. rewrite names_app. destruct (Hcv k' Hk') as [Hin|Hn]; [|by auto].
    apply elem_of_cons in Hin as [->|Hin]; [|by left]. right. right. by apply Hnm.
  - destruct (Forall_lookup_1 _ _ _ _ Hrs Hk) as [_ Hf]. split; cbn; try done.
    + apply Forall_insert; [done|]. cbn. unfold found_ok. apply Forall_forall. intros y Hy. apply list_elem_of_filter in Hy as [_ Hy].
      rewrite merge_sort_Permutation in Hy. by apply (proj1 (Forall_forall _ _) Hf).
    + eapply mine_other; [done|done|]. intros Hcv key Hkey. destruct (Hcv key Hkey) as [Hn|(y & Hy & Hky & Hd)]; [by apply not_elem_of_nil in Hn|].
      exists y. split_and!; try done. apply list_elem_of_filter. split; [done|]. by rewrite merge_sort_Permutation.
  - pose proof (Forall_lookup_1 _ _ _ _ Hrs Hk) as Hf. pose proof Hf as Hf'. cbn in Hf'. apply Forall_cons in Hf' as [Hx Htd].
    split; cbn; try done.
    + by apply set_signal_ok.
    + apply set_store_ok; [by apply cleaned_good|done|done].
    + by apply Forall_insert.
    + by eapply mine_rewritten.
  - split; cbn; try done; [by apply Forall_insert|]. by eapply mine_other.
Qed.

Lemma step_clock o w w' : world_step o w w' → (bw_clock w ≤ bw_clock w')%Z.
Proof. destruct 1; cbn; lia. Qed.

Lemma after_signal_steps w w' : rtc (world_step false) w w' → in_time w' → after_signal w → after_signal w'.
Proof.
  intros Hs. induction Hs as [w|w w1 w' H1 Hs IH]; intros Ht Hw; [done|]. apply IH; [done|]. eapply after_signal_step; [done| |done].
  unfold in_time in *. assert (Hm : (bw_clock w1 ≤ bw_clock w')%Z); [|lia].
  clear -Hs. induction Hs as [|x y z Hxy _ IH]; [lia|]. apply step_clock in Hxy. lia.
Qed.

(** *** What a reader reads *)

Lemma read_fresh c r env keys n :
  store_ok r → (∀ k, ¬ stale c r k) → Forall (λ k, String.prefix BREAKER_STATE_KEY_PREFIX k = true) keys →
  (∀ n, se_reach env n = Answered ∧ se_time env n = seconds c) →
  ∃ l, read_records env n keys r = Ok (Some l) ∧ Forall (λ x, fresh_failure (br_last_failure_at (sb_record x))) l.
Proof.
  intros Hr Hst Hk He. revert n. induction Hk as [|k keys Hk _ IH]; intros n; [by exists []|]. cbn [read_records].
  destruct (He n) as [-> ->]. destruct (IH (S n)) as (l & Hl & Hf). unfold redis_cmd, r_get.
  destruct (live (seconds c) r k) as [e|] eqn:El; cbn [mbind result_mbind fst]; [|rewrite Hl; by exists l].
  assert (Hke : r !! k = Some e). { unfold live in El. destruct (r !! k) as [e'|]; [|done]. destruct (expired _ _); by simplify_eq. }
  destruct (Hr k e Hk Hke) as (b & a & Hw). pose proof Hw as (_ & Hv & Hb & Ha). rewrite Hv. cbn [fst mbind result_mbind].
  rewrite published_is_read by done. cbn [mbind result_mbind]. rewrite Hl. eexists. split; [done|]. cbn. apply Forall_cons. split; [|done].
  cbn. unfold fresh_failure. destruct (br_last_failure_at b) as [f|] eqn:Ef; [|done]. apply Z.nlt_ge. intros Hlt. apply (Hst k).
  exists e, b, a. rewrite Ef. split_and!; try done. cbn. lia.
Qed.
End Reset.

(** A breaker with readable stamps that has not honoured a reset of this instant. *)
Definition owner_before (T : Z) (x : BreakerConfig * Breaker) : Prop :=
  printable (bc_recovery_timeout x.1) ∧ valid_opt (cb_last_state_change_at x.2) ∧ valid_opt (cb_last_failure_at x.2) ∧
  match cb_observed_reset_at x.2 with Some o => (o < T)%Z | None => True end.

End Props.

(** ** A worked example *)

Module BreakerStateExample.
#[local] Existing Instance printed_codec.

Definition cfg : BreakerConfig := mkBreakerConfig "bulk-api-sync" 3 (300 # 10).
Definition repr (q : Q) : string := "30.0".

(** Three failures at the instants 5, 6 and 7 open the breaker. *)
Definition failing : Breaker :=
  (on_failure cfg 2 7 "other" (on_failure cfg 1 6 "other" (on_failure cfg 0 5 "other" new_breaker).2).2).2.
Definition T : Z := 1000000.
Definition stored : Redis := set_breaker_record repr Answered (seconds 8) 8 (breaker_record cfg failing) ∅.
Definition signalled : Redis := (publish_breaker_reset (mkStoreEnv (λ _, Answered) (λ _, seconds T) (λ _, T)) 0 stored).2.
Definition key : string := "breaker:state:bulk-api-sync".
Definition found : StoredBreaker := mkStoredBreaker (breaker_record cfg failing) 8.
Definition rewritten : Redis := set_breaker_record repr Answered (seconds T) T (cleaned (breaker_record cfg failing)) signalled.
Definition calm : StoreEnv := mkStoreEnv (λ _, Answered) (λ _, seconds T) (λ _, T).

Lemma clock_valid c : (T ≤ c < T + DAY)%Z → valid_datetime c = true.
Proof.
  unfold T, DAY, valid_datetime. intros Hc.
  assert (Hd : (c / 1000000 / 86400 = 0 ∨ c / 1000000 / 86400 = 1)%Z).
  { rewrite Z.div_div by lia. assert (H0 : (0 ≤ c / (1000000 * 86400) < 2)%Z); [|lia]. split; [apply Z.div_pos|apply Z.div_lt_upper_bound]; lia. }
  by destruct Hd as [-> | ->].
Qed.

Lemma scanned : scan_keys (seconds T) signalled = [key].
Proof. vm_compute. reflexivity. Qed.

Definition stored_text : string := json_dumps (JObj (breaker_dict repr (breaker_record cfg failing) 8)).

Lemma got : r_get (seconds T) key signalled = Ok (Some (RStr stored_text)).
Proof. vm_compute. reflexivity. Qed.

Lemma was_found : record_from (Some (RStr stored_text)) = Ok (Some found).
Proof. vm_compute. reflexivity. Qed.

Lemma sorted : filter (λ x, is_reset_clean (sb_record x) = false) (merge_sort name_le [found]) = [found].
Proof. vm_compute. reflexivity. Qed.

(** The reset alone, from its signal to its last write. *)
Lemma reset_runs os ps :
  rtc (world_step repr false) (mkBreakerWorld T signalled os ps [Signalled]) (mkBreakerWorld T rewritten os ps [Rewriting false []]).
Proof.
  eapply rtc_l; [exact (ws_scan repr false T signalled os ps [Signalled] 0 eq_refl)|]. rewrite scanned.
  eapply rtc_l; [exact (ws_get repr false T signalled os ps [Reading [key] []] 0 key [] [] _ (Some found) eq_refl got was_found)|].
  eapply rtc_l; [exact (ws_read repr false T signalled os ps [Reading [] [found]] 0 [found] eq_refl)|]. rewrite sorted.
  eapply rtc_l; [exact (ws_rewrite repr false T signalled os ps [Rewriting false [found]] 0 false found [] Answered eq_refl)|].
  apply rtc_refl.
Qed.

Lemma stored_ok : store_ok repr stored.
Proof.
  apply set_store_ok; [|done|by intros k e _ He]. by split_and!.
Qed.


(** A recording on its way when the reset signals undoes it: the breaker looked for a
    signal before there was one, the reset ran to its end, and the record the breaker
    then publishes shows the old failure again. *)
Theorem racing_record_undoes_reset :
  ∃ w, rtc (world_step repr false) (mkBreakerWorld T stored [(cfg, failing)] [] []) w ∧
    bw_resets w = [Rewriting false []] ∧
    ∃ x, read_breaker_states calm 0 (bw_redis w) = Ok ([x], None, 2%nat) ∧ br_last_failure_at (sb_record x) = Some 7%Z.
Proof.
  eexists. split; [|].
  - eapply rtc_l; [exact (ws_begin repr false T stored _ [] [] 0)|].
    eapply rtc_l; [exact (ws_signal repr false T stored _ [(0%nat, Begun)] [] 0 0 Answered eq_refl (or_introl eq_refl))|].
    eapply rtc_l; [exact (ws_reset repr false T stored _ _ [] Answered (Some T) signalled eq_refl)|].
    etransitivity; [apply reset_runs|].
    eapply rtc_l; [exact (ws_make repr false T rewritten [(cfg, failing)] [(0%nat, HasSignal None)] [Rewriting false []] 0 0 None cfg failing 3
                            (breaker_record cfg failing) _ eq_refl eq_refl eq_refl)|].
    eapply rtc_l; [exact (ws_set repr false T rewritten _ [(0%nat, Made (breaker_record cfg failing) T)] [Rewriting false []] 0 0 (breaker_record cfg failing) T Answered eq_refl)|].
    apply rtc_refl.
  - cbn [bw_resets bw_redis]. split; [reflexivity|]. eexists. split; [vm_compute; reflexivity|reflexivity].
Qed.
End BreakerStateExample.
