(* ===== verification/McpServer.v ===== *)
(** * The MCP server (mcp/protocol.py, registry.py, chaos.py, commander.py, lab_probe.py,
      handlers.py, standalone.py; services/operator_audit.py; dependencies.py)

    One JSON-RPC request of the agent-facing surface, from the HTTP headers to the
    committed store: who is calling, which tools are registered, whether the call may run,
    the claim on its idempotency key, the tool inside its savepoint, the audit row, the
    reply and the end of the transaction.  A tool is an arbitrary function of the store;
    the tools themselves are modelled in [McpActions]. *)
From stdpp Require Import base tactics numbers option list gmap strings sorting.
From Stdlib Require Import ZArith QArith Ascii.
From S2P Require Import Prelude PyData Codec Models Database Redis JobService Dispatcher Idempotency Admission Cache Accounts Auth.

(** ** Strings *)

Definition lower_char (c : ascii) : ascii :=
  let n := Ascii.N_of_ascii c in if ((65 <=? n) && (n <=? 90))%N then Ascii.ascii_of_N (n + 32) else c.
Definition py_lower (s : string) : string := String.string_of_list_ascii (lower_char <$> chars s).
Definition py_strip (s : string) : string := String.string_of_list_ascii (strip is_space (chars s)).

(** [s.partition(" ")]: before the first blank, and after it. *)
Fixpoint partition_blank (s : string) : string * string :=
  match s with
  | "" => ("", "")
  | String c s' => if bool_decide (c = " "%char) then ("", s')
                   else let '(a, b) := partition_blank s' in (String c a, b)
  end.

(** ** protocol.py *)

Definition JSONRPC_INVALID_REQUEST : Z := -32600.
Definition JSONRPC_METHOD_NOT_FOUND : Z := -32601.
Definition JSONRPC_INVALID_PARAMS : Z := -32602.
Definition JSONRPC_INTERNAL_ERROR : Z := -32603.
Definition MCP_UNAUTHORIZED : Z := -32001.
Definition MCP_FORBIDDEN : Z := -32002.
Definition MCP_RATE_LIMITED : Z := -32003.
Definition MCP_TOOL_NOT_FOUND : Z := -32010.
Definition MCP_TOOL_ERROR : Z := -32011.
Definition LAB_PROBE_FIELD : string := "_lab_probe".

Inductive rpc_id : Type := IdStr (s : string) | IdInt (z : Z).
Definition rpc_id_json (i : option rpc_id) : json :=
  match i with Some (IdStr s) => JStr s | Some (IdInt z) => JInt z | None => JNull end.

Record JsonRpcRequest := mkRpcRequest { rq_id : option rpc_id; rq_method : string; rq_params : dict }.
Record JsonRpcError := mkRpcError { er_code : Z; er_message : string; er_data : option dict }.
Record JsonRpcResponse := mkRpcResponse { rs_id : option rpc_id; rs_result : option dict; rs_error : option JsonRpcError }.

(** [str | int | None], as pydantic reads it: [None] is a validation error. *)
Definition validate_id (v : option json) : option (option rpc_id) :=
  match v with
  | None | Some JNull => Some None
  | Some (JStr s) => Some (Some (IdStr s))
  | Some (JInt z) => Some (Some (IdInt z))
  | Some (JBool b) => Some (Some (IdInt (if b then 1 else 0)))
  | Some (JFloat r) =>
      match py_float r with
      | Some q => if Qeq_bool (inject_Z (Qround.Qfloor q)) q then Some (Some (IdInt (Qround.Qfloor q))) else None
      | None => None
      end
  | Some (JList _) | Some (JObj _) => None
  end.

(** A [dict] field that defaults to the empty one, a [str] field, an optional one. *)
Definition validate_dict (v : option json) : option dict :=
  match v with None => Some [] | Some (JObj d) => Some d | Some _ => None end.
Definition validate_str (v : option json) : option string :=
  match v with Some (JStr s) => Some s | _ => None end.
Definition validate_opt_str (v : option json) : option (option string) :=
  match v with None | Some JNull => Some None | Some (JStr s) => Some (Some s) | Some _ => None end.

(** [JsonRpcRequest.model_validate]. *)
Definition validate_request (payload : dict) : option JsonRpcRequest :=
  match dget payload "jsonrpc" with
  | None | Some (JStr "2.0") =>
      i ← validate_id (dget payload "id");
      m ← validate_str (dget payload "method");
      p ← validate_dict (dget payload "params");
      Some (mkRpcRequest i m p)
  | Some _ => None
  end.

Record ToolCallParams := mkToolCall { tc_name : string; tc_arguments : dict; tc_lab_probe : option string }.

(** [ToolCallParams.model_validate]; the label is read by its alias alone. *)
Definition validate_call (params : dict) : option ToolCallParams :=
  n ← validate_str (dget params "name");
  a ← validate_dict (dget params "arguments");
  l ← validate_opt_str (dget params LAB_PROBE_FIELD);
  Some (mkToolCall n a l).

(** [InitializeParams.model_validate]. *)
Definition validate_initialize (params : dict) : bool :=
  bool_decide (is_Some (validate_opt_str (dget params "protocolVersion"))) &&
  match dget params "clientInfo" with None | Some JNull | Some (JObj _) => true | Some _ => false end.

(** [ToolCallResult(content=[ToolCallContent(text=...)]).model_dump()]. *)
Definition tool_call_result (text : string) : dict :=
  [("content", JList [JObj [("type", JStr "text"); ("text", JStr text)]]); ("isError", JBool false)].

(** [response.model_dump()], with or without the absent fields. *)
Definition is_null (v : json) : bool := match v with JNull => true | _ => false end.
Definition drop_none (exclude : bool) (d : dict) : dict :=
  if exclude then filter (λ kv, is_null kv.2 = false) d else d.
Definition dump_error (exclude : bool) (e : JsonRpcError) : json :=
  JObj (drop_none exclude [("code", JInt (er_code e)); ("message", JStr (er_message e));
                           ("data", match er_data e with Some d => JObj d | None => JNull end)]).
Definition dump_response (exclude : bool) (r : JsonRpcResponse) : dict :=
  drop_none exclude
    [("jsonrpc", JStr "2.0"); ("id", rpc_id_json (rs_id r));
     ("result", match rs_result r with Some d => JObj d | None => JNull end);
     ("error", match rs_error r with Some e => dump_error exclude e | None => JNull end)].

(** [_error] and [_ok]. *)
Definition rpc_error (i : option rpc_id) (code : Z) (message : string) (data : option dict) : JsonRpcResponse :=
  mkRpcResponse i None (Some (mkRpcError code message data)).
Definition rpc_ok (i : option rpc_id) (result : dict) : JsonRpcResponse := mkRpcResponse i (Some result) None.

(** ** core/exceptions.py *)

(** [status_code] and [error_code] of an [AppError]; [None] for any other exception. *)
Definition app_error (e : exn) : option (Z * string) :=
  match e with
  | NotFoundError _ => Some (404%Z, "not_found")
  | AuthenticationError _ => Some (401%Z, "authentication_failed")
  | AuthorizationError _ => Some (403%Z, "forbidden")
  | ConflictError _ => Some (409%Z, "conflict")
  | RequestValidationError _ => Some (422%Z, "validation_error")
  | RateLimitError _ => Some (429%Z, "rate_limit_exceeded")
  | QuotaExceededError _ => Some (429%Z, "quota_exceeded")
  | JobError _ => Some (400%Z, "job_error")
  | BackpressureError _ => Some (503%Z, "backpressure")
  | StreamCapacityError _ => Some (503%Z, "stream_capacity")
  | ToolError status code _ => Some (status, code)
  | _ => None
  end.

(** [_status_to_jsonrpc]. *)
Definition status_to_jsonrpc (status : Z) : Z :=
  if (status =? 401)%Z then MCP_UNAUTHORIZED
  else if (status =? 403)%Z then MCP_FORBIDDEN
  else if (status =? 429)%Z then MCP_RATE_LIMITED
  else if (400 <=? status)%Z && (status <? 500)%Z then JSONRPC_INVALID_REQUEST
  else JSONRPC_INTERNAL_ERROR.

(** ** The store, its savepoints and its end of transaction *)

(** Users, tenants, jobs, audit and Redis; accounts and tokens; idempotency claims; and
    the work queued on the session until the commit. *)
Record McpStore := mkMcp {
  mc_auth : AuthStore;
  mc_accounts : AccountStore;
  mc_idem : IdemStore;
  mc_hooks : list cache_effect
}.

Definition mc_db (s : McpStore) : DB := au_db (mc_auth s).
Definition mc_redis (s : McpStore) : Redis := au_redis (mc_auth s).
Definition with_mcp_db (db : DB) (s : McpStore) : McpStore :=
  mkMcp (with_auth_db db (mc_auth s)) (mc_accounts s) (mc_idem s) (mc_hooks s).
Definition with_mcp_redis (r : Redis) (s : McpStore) : McpStore :=
  mkMcp (with_auth_redis r (mc_auth s)) (mc_accounts s) (mc_idem s) (mc_hooks s).
Definition with_mcp_accounts (a : AccountStore) (s : McpStore) : McpStore := mkMcp (mc_auth s) a (mc_idem s) (mc_hooks s).
Definition with_mcp_idem (i : IdemStore) (s : McpStore) : McpStore := mkMcp (mc_auth s) (mc_accounts s) i (mc_hooks s).
Definition with_mcp_hooks (h : list cache_effect) (s : McpStore) : McpStore := mkMcp (mc_auth s) (mc_accounts s) (mc_idem s) h.

(** The tables as they were in [s]; Redis keeps what reached it, and the rollback listener
    empties the queue. *)
Definition roll_back (s s' : McpStore) : McpStore := with_mcp_hooks [] (with_mcp_redis (mc_redis s') s).

(** [async with db.begin_nested()]. *)
Definition savepoint {A} (body : McpStore → result exn A * McpStore) (s : McpStore) : result exn A * McpStore :=
  match body s with
  | (Ok a, s') => (Ok a, s')
  | (Err e, s') => (Err e, roll_back s s')
  end.

(** ** dependencies.py *)

Record Principal := mkPrin { pn_tenant_id : uuid; pn_who : User + ServiceAccount; pn_scopes : list string }.
Definition pn_kind (p : Principal) : string := match pn_who p with inl _ => "user" | inr _ => "service_account" end.
Definition pn_id (p : Principal) : uuid := match pn_who p with inl u => us_id u | inr a => sa_id a end.

(** The messages of [verify_token]. *)
Definition auth_failure_message (f : auth_failure) : string :=
  match f with
  | NotAServiceToken => "Not a service-account token"
  | InvalidToken => "Invalid token"
  | TokenRevoked => "Token has been revoked"
  | TokenExpired => "Token has expired"
  | AccountMissing => "Service account not found"
  | AccountDisabled => "Service account is disabled"
  end.

(** What [verify_token] raises. *)
Definition account_exn (e : account_error) : exn :=
  match e with
  | AuthenticationFailed f => AuthenticationError (auth_failure_message f)
  | _ => AuthorizationError ""
  end.

(** ** registry.py *)

(** What a handler is given besides the store: the principal, clock readings, how each
    Redis command ends, which of its database steps fail, and the trace context. *)
Record ToolContext := mkCtx {
  cx_principal : Principal;
  cx_now : nat → Z;
  cx_time : nat → Q;
  cx_reach : nat → reach;
  cx_fails : nat → bool;
  cx_otel : dict
}.

(** A tool as its decorator receives it.  [ts_validate] is the input model: the parsed
    input, or the error list; the handler returns its output model as JSON. *)
Record ToolSpec := mkSpec {
  ts_name : string;
  ts_description : string;
  ts_input : Type;
  ts_validate : dict → result json ts_input;
  ts_input_schema : dict;
  ts_output_schema : dict;
  ts_handler : ts_input → ToolContext → McpStore → result exn dict * McpStore
}.

Record ToolDefinition := mkToolDef {
  td_spec : ToolSpec;
  td_required_scope : option Scope;
  td_is_chaos : bool;
  td_is_commander : bool;
  td_is_idempotent : bool
}.

Abbreviation Registry := (gmap string ToolDefinition).

(** [tool]: a duplicate name raises at import. *)
Definition register_tool (d : ToolDefinition) (reg : Registry) : result exn Registry :=
  match reg !! ts_name (td_spec d) with
  | Some _ => Err (ValueError ("Tool already registered: " +:+ ts_name (td_spec d)))
  | None => Ok (<[ts_name (td_spec d) := d]> reg)
  end.

Definition get_tool (name : string) (reg : Registry) : option ToolDefinition := reg !! name.

Definition tool_name_le (a b : ToolDefinition) : Prop := string_le (ts_name (td_spec a)) (ts_name (td_spec b)).
#[export] Instance tool_name_le_dec : RelDecision tool_name_le.
Proof. intros a b. unfold tool_name_le. apply _. Defined.

(** [list_tools]. *)
Definition list_tools (reg : Registry) : list ToolDefinition := merge_sort tool_name_le (map_to_list reg).*2.

(** ** chaos.py and commander.py *)

Inductive BlastRadius : Type := SINGLE_CONSUMER | SINGLE_LOOP | SINGLE_SERVICE | SHARED_DEPENDENCY | ENVIRONMENT_WIDE.
Definition blast_radius_value (b : BlastRadius) : string :=
  match b with
  | SINGLE_CONSUMER => "single_consumer" | SINGLE_LOOP => "single_loop" | SINGLE_SERVICE => "single_service"
  | SHARED_DEPENDENCY => "shared_dependency" | ENVIRONMENT_WIDE => "environment_wide"
  end.

Definition describe (prefix : string) (t : ToolSpec) : ToolSpec :=
  mkSpec (ts_name t) (prefix +:+ ts_description t) (ts_input t) (ts_validate t) (ts_input_schema t) (ts_output_schema t) (ts_handler t).

(** [chaos_tool]: nothing is registered when chaos is off. *)
Definition chaos_tool (chaos_enabled : bool) (b : BlastRadius) (t : ToolSpec) (reg : Registry) : result exn Registry :=
  if negb chaos_enabled then Ok reg
  else register_tool (mkToolDef (describe ("[chaos: " +:+ blast_radius_value b +:+ "] ") t) (Some CHAOS_INVOKE) true false false) reg.

Definition COMMANDER_DESCRIPTION_PREFIX : string := "[commander: telemetry] ".

(** [commander_tool]. *)
Definition commander_tool (t : ToolSpec) (reg : Registry) : result exn Registry :=
  register_tool (mkToolDef (describe COMMANDER_DESCRIPTION_PREFIX t) (Some AGENT_RUNS_WRITE) false true false) reg.

(** The three decorators a tool module can use; a plain [@tool] leaves both flags off. *)
Inductive tool_decl : Type :=
  | PlainTool (t : ToolSpec) (scope : option Scope) (idempotent : bool)
  | ChaosTool (b : BlastRadius) (t : ToolSpec)
  | CommanderTool (t : ToolSpec).

Definition declare_tool (chaos_enabled : bool) (d : tool_decl) (reg : Registry) : result exn Registry :=
  match d with
  | PlainTool t scope idem => register_tool (mkToolDef t scope false false idem) reg
  | ChaosTool b t => chaos_tool chaos_enabled b t reg
  | CommanderTool t => commander_tool t reg
  end.

(** Importing [app.mcp.tools]. *)
Fixpoint load_tools (chaos_enabled : bool) (ds : list tool_decl) (reg : Registry) : result exn Registry :=
  match ds with
  | [] => Ok reg
  | d :: ds => reg ← declare_tool chaos_enabled d reg; load_tools chaos_enabled ds reg
  end.

(** ** services/operator_audit.py *)

Definition TOOL_INVOKED_ACTION : string := "agent.tool_invoked".
Definition CHAOS_TOOL_INVOKED_ACTION : string := "chaos.tool_invoked".
Definition CHAOS_TOOL_DENIED_ACTION : string := "chaos.tool_denied".
Definition CHAOS_ACTION_PREFIX : string := "chaos.".
Definition AGENT_RUN_REPORTED_ACTION : string := "agent.run_reported".
Definition LAB_ACTION_PREFIX : string := "lab.".
Definition LAB_PROBE_ACTION : string := "lab.probe".
Definition OUTCOME_SUCCESS : string := "success".
Definition OUTCOME_ERROR : string := "error".
Definition OUTCOME_UNAUTHORIZED : string := "unauthorized".

Definition hidden_audit_action_prefixes (p : Principal) : list string :=
  (if bool_decide (scope_value CHAOS_INVOKE ∈ pn_scopes p) then [] else [CHAOS_ACTION_PREFIX; LAB_ACTION_PREFIX]) ++
  (if bool_decide (scope_value AGENT_RUNS_WRITE ∈ pn_scopes p) then [AGENT_RUN_REPORTED_ACTION] else []).

Inductive LabProbeBasis : Type := ChaosScope | SmokeAccount.
Record LabProbeLabel := mkLabel { lb_reason : string; lb_principal_name : string; lb_basis : LabProbeBasis }.

(** The arguments of [record_tool_invocation] but the principal and the clock. *)
Record Invocation := mkInvocation {
  iv_tool_name : string;
  iv_arguments : dict;
  iv_scope_used : option string;
  iv_outcome : string;
  iv_error_message : option string;
  iv_is_chaos : bool;
  iv_is_commander : bool;
  iv_denied_by : option string;
  iv_lab : option LabProbeLabel
}.

Definition invocation_action (v : Invocation) : string :=
  if iv_is_chaos v then match iv_denied_by v with Some _ => CHAOS_TOOL_DENIED_ACTION | None => CHAOS_TOOL_INVOKED_ACTION end
  else if iv_is_commander v then AGENT_RUN_REPORTED_ACTION
  else match iv_lab v with Some _ => LAB_PROBE_ACTION | None => TOOL_INVOKED_ACTION end.

Definition opt_field (k : string) (v : option string) : dict := match v with Some s => [(k, JStr s)] | None => [] end.

Definition invocation_extra (latency : string) (v : Invocation) : dict :=
  [("tool_name", JStr (iv_tool_name v)); ("arguments", JObj (iv_arguments v)); ("scope_used", jstr_opt (iv_scope_used v));
   ("latency_ms", JFloat latency); ("outcome", JStr (iv_outcome v))] ++
  opt_field "error_message" (iv_error_message v) ++ opt_field "denied_by" (iv_denied_by v) ++
  opt_field "lab_probe_reason" (lb_reason <$> iv_lab v) ++ opt_field "lab_probe_principal" (lb_principal_name <$> iv_lab v).

(** The row, with the identity fields of [_principal_kwargs]. *)
Definition invocation_row (now : Z) (latency : string) (p : Principal) (v : Invocation) : AuditLog :=
  mkAudit (invocation_action v) (pn_tenant_id p) (match pn_who p with inl u => Some (us_id u) | inr _ => None end)
    (pn_kind p) (Some (pn_id p)) None (Some "mcp_tool") (Some (iv_tool_name v)) (Some (invocation_extra latency v)) now.

(** [record_tool_invocation]: whether the row was staged.  A failing INSERT rolls its
    savepoint back. *)
Definition record_tool_invocation (ok : bool) (now : Z) (latency : string) (p : Principal) (v : Invocation) (s : McpStore)
    : bool * McpStore :=
  match savepoint (λ s, if ok then (Ok tt, with_mcp_db (with_audit (db_audit (mc_db s) ++ [invocation_row now latency p v]) (mc_db s)) s)
                        else (Err IntegrityError, s)) s with
  | (Ok _, s) => (true, s)
  | (Err _, s) => (false, s)
  end.

(** [record_world_reset]. *)
Definition record_world_reset (now : Z) (tenant : uuid) (principal : option uuid) (counters : dict) (s : McpStore) : McpStore :=
  with_mcp_db (audit_log now "lab.world_reset" tenant None (Some "service_account") principal None (Some "world") None
                 (Some counters) (mc_db s)) s.

Section Server.
Context `{UuidSource, !JwtLib} (acfg : AuthSettings) (sha256_hex : string → string).

(** [get_current_principal]: the last use of a machine token is recorded. *)
Definition get_current_principal (now : Z) (token : string) (s : McpStore) : result exn (Principal * McpStore) :=
  if looks_like_service_account_token token then
    match verify_token sha256_hex now token (mc_accounts s) with
    | Ok (a, k, acc) => Ok (mkPrin (sa_tenant_id a) (inr a) (tk_scopes k), with_mcp_accounts acc s)
    | Err e => Err (account_exn e)
    end
  else
    u ← get_current_user acfg now (Some token) (mc_auth s);
    Ok (mkPrin (us_tenant_id u) (inl u) [], s).

(** [_principal_or_error] of the [Authorization] header: an [AppError] is returned, any
    other exception escapes. *)
Definition principal_or_error (now : Z) (header : option string) (s : McpStore) : result exn (result exn Principal * McpStore) :=
  let '(scheme, token) := partition_blank (default "" header) in
  if negb (bool_decide (py_lower scheme = "bearer")) || bool_decide (token = "")
  then Ok (Err (AuthenticationError "missing bearer token"), s)
  else
    match get_current_principal now token s with
    | Ok (p, s) => Ok (Ok p, s)
    | Err e => match app_error e with Some _ => Ok (Err e, s) | None => Err e end
    end.

(** ** lab_probe.py *)

Record McpSettings := mkMcpSettings {
  chaos_on : bool;
  lab_probe_smoke_account_name : string;
  mcp_rate_limit_per_principal : Z;
  mcp_rate_limit_window_seconds : Z
}.
Context (cfg : McpSettings).

Definition LAB_PRINCIPAL_HEADER : string := "X-Lab-Principal".
Definition LAB_PROBE_REASON_MAX_LENGTH : Z := 200.
Definition WRITE_SCOPES : list string := scope_value <$> [ACTIONS_EXECUTE; ACTIONS_PROPOSE; AGENT_RUNS_WRITE].

Definition REFUSAL_MESSAGE : string :=
  LAB_PROBE_FIELD +:+ " is only honoured on a request that also carries a valid " +:+ LAB_PRINCIPAL_HEADER +:+
  " credential authorised to label a call; this request did not, so nothing ran".

(** [LabProbeRefused]. *)
Record LabProbeRefused := mkRefused { rf_reason_code : string; rf_detail : string }.
Definition audit_message (r : LabProbeRefused) : string := LAB_PROBE_FIELD +:+ " refused: " +:+ rf_detail r.
Definition error_data (r : LabProbeRefused) : dict := [("error_code", JStr "lab_probe_refused"); ("reason_code", JStr (rf_reason_code r))].

(** [_basis]. *)
Definition label_basis (name : string) (scopes : list string) : option LabProbeBasis :=
  if bool_decide (scope_value CHAOS_INVOKE ∈ scopes) then Some ChaosScope
  else if bool_decide (name = lab_probe_smoke_account_name cfg) && negb (existsb (λ w, bool_decide (w ∈ scopes)) WRITE_SCOPES)
  then Some SmokeAccount else None.

(** The caller's reason, once the credential stands. *)
Definition probe_reason (value name : string) (b : LabProbeBasis) : result LabProbeRefused LabProbeLabel :=
  let reason := py_strip value in
  let len := Z.of_nat (String.length reason) in
  if bool_decide (reason = "") then Err (mkRefused "reason_invalid" (LAB_PROBE_FIELD +:+ " must carry a short reason"))
  else if (LAB_PROBE_REASON_MAX_LENGTH <? len)%Z
  then Err (mkRefused "reason_invalid" (LAB_PROBE_FIELD +:+ " is at most " +:+ show_Z LAB_PROBE_REASON_MAX_LENGTH +:+
                                        " characters, got " +:+ show_Z len))
  else Ok (mkLabel reason name b).

(** [resolve_lab_probe]: the credential is verified, not adopted. *)
Definition resolve_lab_probe (now : Z) (value : string) (header : option string) (tenant : uuid) (s : McpStore)
    : result LabProbeRefused LabProbeLabel * McpStore :=
  if negb (chaos_on cfg) then (Err (mkRefused "not_available" "this deployment does not accept a call label"), s)
  else
    let h := py_strip (default "" header) in
    if bool_decide (h = "") then (Err (mkRefused "credential_missing" ("no " +:+ LAB_PRINCIPAL_HEADER +:+ " header on the request")), s)
    else
      let '(scheme, token) := partition_blank h in
      if negb (bool_decide (py_lower scheme = "bearer")) || bool_decide (py_strip token = "")
      then (Err (mkRefused "credential_invalid" (LAB_PRINCIPAL_HEADER +:+ " must be 'Bearer <token>'")), s)
      else
        match verify_token sha256_hex now (py_strip token) (mc_accounts s) with
        | Err _ => (Err (mkRefused "credential_invalid" ("the " +:+ LAB_PRINCIPAL_HEADER +:+ " credential was not accepted")), s)
        | Ok (a, k, acc) =>
            let s := with_mcp_accounts acc s in
            if negb (bool_decide (sa_tenant_id a = tenant))
            then (Err (mkRefused "credential_not_authorised" ("the " +:+ LAB_PRINCIPAL_HEADER +:+ " credential belongs to another tenant")), s)
            else
              match label_basis (sa_name a) (tk_scopes k) with
              | None => (Err (mkRefused "credential_not_authorised" ("the " +:+ LAB_PRINCIPAL_HEADER +:+ " credential may not label a call")), s)
              | Some b => (probe_reason value (sa_name a) b, s)
              end
        end.

(** ** handlers.py *)

(** pydantic: the error list of a refused model, by model name; the message of a refused
    request; and an output model's own JSON text. *)
Context (validation_errors : string → dict → json) (malformed : dict → string) (model_dump_json : dict → string).

Definition SERVER_NAME : string := "incident-platform-mcp".
Definition SERVER_VERSION : string := "0.1.0".
Definition SUPPORTED_PROTOCOL_VERSION : string := "2025-03-26".

Definition handle_initialize (i : option rpc_id) (params : dict) : JsonRpcResponse :=
  if negb (validate_initialize params)
  then rpc_error i JSONRPC_INVALID_PARAMS "invalid initialize params" (Some [("errors", validation_errors "InitializeParams" params)])
  else rpc_ok i [("protocolVersion", JStr SUPPORTED_PROTOCOL_VERSION);
                 ("serverInfo", JObj [("name", JStr SERVER_NAME); ("version", JStr SERVER_VERSION)]);
                 ("capabilities", JObj [("tools", JObj [])])].

Definition tool_info (d : ToolDefinition) : json :=
  let t := td_spec d in
  JObj [("name", JStr (ts_name t)); ("description", JStr (ts_description t)); ("inputSchema", JObj (ts_input_schema t));
        ("outputSchema", JObj (ts_output_schema t)); ("required_scope", jstr_opt (scope_value <$> td_required_scope d));
        ("is_idempotent", JBool (td_is_idempotent d))].

Definition handle_tools_list (i : option rpc_id) (reg : Registry) : JsonRpcResponse :=
  rpc_ok i [("tools", JList (tool_info <$> list_tools reg))].

(** What happens around a call: clock readings, the latency it measures, which database
    work fails, what other transactions commit between the statements of the claim, and
    the tool's own surroundings. *)
Record CallEnv := mkCallEnv {
  ce_now : nat → Z;
  ce_latency : string;
  ce_audit_ok : bool;
  ce_lookup_fails : bool;  (** the lookup of the lab credential *)
  ce_claim_fails : bool;  (** a statement of [acquire] *)
  ce_acquire : AcquireEnv;
  ce_claim_write_ok : bool;  (** the completion or the release of the claim *)
  ce_tool_now : nat → Z;
  ce_tool_time : nat → Q;
  ce_tool_reach : nat → reach;
  ce_tool_fails : nat → bool;
  ce_otel : dict;
  ce_time : Q;  (** the endpoint's clock, and its Redis commands *)
  ce_reach : nat → reach
}.

Definition tool_context (env : CallEnv) (p : Principal) : ToolContext :=
  mkCtx p (ce_tool_now env) (ce_tool_time env) (ce_tool_reach env) (ce_tool_fails env) (ce_otel env).

(** What leaves [_run_tool_call] but a reply. *)
Inductive call_exn : Type := AuditWriteFailed (tool : string) | Escaped (e : exn).

(** [_audit], then the reply. *)
Definition audited (env : CallEnv) (p : Principal) (v : Invocation) (reply : JsonRpcResponse) (s : McpStore)
    : result call_exn JsonRpcResponse * McpStore :=
  match record_tool_invocation (ce_audit_ok env) (ce_now env 1%nat) (ce_latency env) p v s with
  | (true, s) => (Ok reply, s)
  | (false, s) => (Err (AuditWriteFailed (iv_tool_name v)), s)
  end.

(** The message of a refused claim; the holder is the row the claim met. *)
Definition idem_message (k : IdemScope) (arguments : dict) (e : idem_error) (s : IdemStore) : string :=
  let key := "Idempotency key " +:+ repr_str k.2 in
  match e, get_by_key k s with
  | IdempotencyKeyReused, Some r =>
      if bool_decide (ir_arguments_hash r = hash_arguments sha256_hex arguments)
      then key +:+ " was previously used for a different tool (" +:+ repr_str (ir_tool_name r) +:+ ")."
      else key +:+ " was previously used for tool " +:+ repr_str (ir_tool_name r) +:+
           " with different arguments. Pick a fresh key or send the exact same arguments."
  | IdempotencyKeyReused, None => key
  | IdempotencyKeyInFlight, Some _ => key +:+ " is currently being executed by another call. Retry shortly."
  | IdempotencyKeyInFlight, None => key +:+ " could not be claimed; another call is contending for it. Retry shortly."
  end.
Definition idem_code (e : idem_error) : string :=
  match e with IdempotencyKeyReused => "idempotency_key_reused" | IdempotencyKeyInFlight => "idempotency_key_in_flight" end.

(** A write to the claim in a savepoint of its own; a failure is logged. *)
Definition claim_write (env : CallEnv) (f : IdemStore → IdemStore) (s : McpStore) : McpStore :=
  (savepoint (λ s, if ce_claim_write_ok env then (Ok tt, with_mcp_idem (f (mc_idem s)) s) else (Err ServiceError, s)) s).2.

(** [_release_claim] and [_complete_claim]. *)
Definition release_claim (env : CallEnv) (claim : option uuid) (s : McpStore) : McpStore :=
  match claim with Some i => claim_write env (release i) s | None => s end.
Definition finish_claim (env : CallEnv) (claim : option uuid) (output : dict) (s : McpStore) : McpStore :=
  match claim with
  | Some i => claim_write env (complete (ce_now env 2%nat) i output (Some IDEMPOTENCY_TTL)) s
  | None => s
  end.

(** How a raise of the tool is recorded and answered. *)
Definition tool_failure (e : exn) : string * Z * string * option dict :=
  match e with
  | AuthenticationError m => (OUTCOME_UNAUTHORIZED, MCP_UNAUTHORIZED, m, None)
  | AuthorizationError m => (OUTCOME_UNAUTHORIZED, MCP_FORBIDDEN, m, None)
  | _ => match app_error e with
         | Some (_, code) => (OUTCOME_ERROR, MCP_TOOL_ERROR, exn_message e, Some [("error_code", JStr code)])
         | None => (OUTCOME_ERROR, JSONRPC_INTERNAL_ERROR, "internal tool error", None)
         end
  end.

Section Call.
Context (env : CallEnv) (i : option rpc_id) (p : Principal) (call : ToolCallParams) (lab : option LabProbeLabel) (d : ToolDefinition).

(** An audit row of this call to a registered tool. *)
Definition call_invocation (scope : option string) (outcome : string) (error denied_by : option string) : Invocation :=
  mkInvocation (ts_name (td_spec d)) (tc_arguments call) scope outcome error (td_is_chaos d) (td_is_commander d) denied_by lab.

Definition scope_used : option string := scope_value <$> td_required_scope d.

(** From the savepoint to the reply. *)
Definition execute_call (input : ts_input (td_spec d)) (claim : option uuid) (s : McpStore) : result call_exn JsonRpcResponse * McpStore :=
  match savepoint (ts_handler (td_spec d) input (tool_context env p)) s with
  | (Err e, s) =>
      let '(outcome, code, message, data) := tool_failure e in
      let '(res, s) := audited env p (call_invocation scope_used outcome (Some (exn_message e)) None) (rpc_error i code message data) s in
      (res, release_claim env claim s)
  | (Ok output, s) =>
      match audited env p (call_invocation scope_used OUTCOME_SUCCESS None None)
              (rpc_ok i (tool_call_result (model_dump_json output))) s with
      | (Ok reply, s) => (Ok reply, finish_claim env claim output s)
      | (Err x, s) => (Err x, s)
      end
  end.

(** The claim on the key of an idempotent tool, then the call. *)
Definition claim_call (input : ts_input (td_spec d)) (s : McpStore) : result call_exn JsonRpcResponse * McpStore :=
  if negb (td_is_idempotent d) then execute_call input None s
  else
    match extract_idempotency_key (tc_arguments call) with
    | None =>
        audited env p (call_invocation scope_used OUTCOME_ERROR (Some "idempotency_key required") None)
          (rpc_error i JSONRPC_INVALID_PARAMS "idempotency_key is required for this tool" None) s
    | Some key =>
        if ce_claim_fails env then (Err (Escaped ServiceError), s)
        else
          let k := (pn_tenant_id p, pn_id p, key) in
          match acquire sha256_hex (ce_acquire env) (Some IDEMPOTENCY_TTL) k (ts_name (td_spec d)) (tc_arguments call) (mc_idem s) with
          | (Err e, m) =>
              let message := idem_message k (tc_arguments call) e m in
              audited env p (call_invocation scope_used OUTCOME_ERROR (Some message) None)
                (rpc_error i MCP_TOOL_ERROR message (Some [("error_code", JStr (idem_code e))])) (with_mcp_idem m s)
          | (Ok (Replay hit), m) =>
              audited env p (call_invocation scope_used OUTCOME_SUCCESS None None)
                (rpc_ok i (tool_call_result (json_dumps (JObj (hit_response hit))))) (with_mcp_idem m s)
          | (Ok (Claim c), m) => execute_call input (Some c) (with_mcp_idem m s)
          end
    end.

(** The scope check and the arguments. *)
Definition authorize_call (s : McpStore) : result call_exn JsonRpcResponse * McpStore :=
  match td_required_scope d with
  | Some r =>
      if negb (bool_decide (scope_value r ∈ pn_scopes p)) then
        audited env p (call_invocation scope_used OUTCOME_UNAUTHORIZED (Some "missing required scope")
                         (if td_is_chaos d then Some "scope_check" else None))
          (rpc_error i MCP_FORBIDDEN ("missing required scope: " +:+ scope_value r) None) s
      else
        match ts_validate (td_spec d) (tc_arguments call) with
        | Err errors =>
            audited env p (call_invocation scope_used OUTCOME_ERROR (Some "invalid arguments") None)
              (rpc_error i JSONRPC_INVALID_PARAMS "invalid tool arguments" (Some [("errors", errors)])) s
        | Ok input => claim_call input s
        end
  | None =>
      match ts_validate (td_spec d) (tc_arguments call) with
      | Err errors =>
          audited env p (call_invocation scope_used OUTCOME_ERROR (Some "invalid arguments") None)
            (rpc_error i JSONRPC_INVALID_PARAMS "invalid tool arguments" (Some [("errors", errors)])) s
      | Ok input => claim_call input s
      end
  end.
End Call.

(** An audit row of a call to no registered tool. *)
Definition unknown_invocation (call : ToolCallParams) (message : string) (lab : option LabProbeLabel) : Invocation :=
  mkInvocation (tc_name call) (tc_arguments call) None OUTCOME_ERROR (Some message) false false None lab.

(** [_run_tool_call]. *)
Definition run_tool_call (env : CallEnv) (reg : Registry) (i : option rpc_id) (params : dict) (p : Principal) (lab_header : option string)
    (s : McpStore) : result call_exn JsonRpcResponse * McpStore :=
  match validate_call params with
  | None => (Ok (rpc_error i JSONRPC_INVALID_PARAMS "invalid tools/call params"
                   (Some [("errors", validation_errors "ToolCallParams" params)])), s)
  | Some call =>
      let go lab s :=
        match get_tool (tc_name call) reg with
        | None => audited env p (unknown_invocation call "tool not registered" lab)
                    (rpc_error i MCP_TOOL_NOT_FOUND ("unknown tool: " +:+ tc_name call) None) s
        | Some d => authorize_call env i p call lab d s
        end in
      match tc_lab_probe call with
      | None => go None s
      | Some value =>
          if ce_lookup_fails env && chaos_on cfg then (Err (Escaped ServiceError), s)
          else
            match resolve_lab_probe (ce_now env 0%nat) value lab_header (pn_tenant_id p) s with
            | (Ok label, s) => go (Some label) s
            | (Err refusal, s) =>
                audited env p (unknown_invocation call (audit_message refusal) None)
                  (rpc_error i JSONRPC_INVALID_PARAMS REFUSAL_MESSAGE (Some (error_data refusal))) s
            end
      end
  end.

(** How [handle_tools_call] ends: with a reply, with a reply after a database error that
    aborted the transaction, or by failing the request. *)
Inductive call_end : Type :=
  | Replied (r : JsonRpcResponse)
  | RepliedAborted (r : JsonRpcResponse)
  | AuditLost.

Definition handle_tools_call (env : CallEnv) (reg : Registry) (i : option rpc_id) (params : dict) (p : Principal) (lab_header : option string)
    (s : McpStore) : call_end * McpStore :=
  match run_tool_call env reg i params p lab_header s with
  | (Ok r, s) => (Replied r, s)
  | (Err (AuditWriteFailed _), s) => (AuditLost, s)
  | (Err (Escaped _), s) => (RepliedAborted (rpc_error i JSONRPC_INTERNAL_ERROR "internal server error" None), s)
  end.

(** [dispatch]. *)
Definition dispatch (env : CallEnv) (reg : Registry) (q : JsonRpcRequest) (who : result exn Principal) (lab_header : option string)
    (s : McpStore) : call_end * McpStore :=
  if bool_decide (rq_method q = "initialize") then (Replied (handle_initialize (rq_id q) (rq_params q)), s)
  else
    match who with
    | Err e => (Replied (rpc_error (rq_id q) MCP_UNAUTHORIZED (exn_message e) None), s)
    | Ok p =>
        if bool_decide (rq_method q = "tools/list") then (Replied (handle_tools_list (rq_id q) reg), s)
        else if bool_decide (rq_method q = "tools/call") then handle_tools_call env reg (rq_id q) (rq_params q) p lab_header s
        else (Replied (rpc_error (rq_id q) JSONRPC_METHOD_NOT_FOUND ("unknown method: " +:+ rq_method q) None), s)
    end.

(** ** standalone.py *)

Definition MCP_RATE_BUCKET : string := "mcp:principal".

(** What other transactions commit while the claim runs stays when this one rolls back. *)
Definition others_committed (env : CallEnv) (m : IdemStore) : IdemStore :=
  foldl (λ m n, ae_others (ce_acquire env) n m) m (seq 0 6).
Definition abandon (env : CallEnv) (s s' : McpStore) : McpStore :=
  with_mcp_idem (others_committed env (mc_idem s)) (roll_back s s').

(** [get_db] after the body: the commit, then the queued work. *)
Definition commit (env : CallEnv) (s : McpStore) : McpStore :=
  with_mcp_hooks [] (with_mcp_redis
    (foldl (λ r e, apply_effect (ce_time env) (ce_reach env 2%nat) e r) (mc_redis s) (mc_hooks s)) s).

(** The two exception handlers. *)
Definition app_error_response (e : exn) (status : Z) (code : string) : Z * dict :=
  (status, dump_response false (rpc_error None (status_to_jsonrpc status) (exn_message e) (Some [("error_code", JStr code)]))).
Definition unhandled_response : Z * dict :=
  (500%Z, [("jsonrpc", JStr "2.0"); ("id", JNull);
           ("error", dump_error false (mkRpcError JSONRPC_INTERNAL_ERROR "internal server error" None))]).

(** The per-principal rate limit of [mcp_endpoint]. *)
Definition limit_principal (env : CallEnv) (who : result exn Principal) (s : McpStore) : result exn unit * McpStore :=
  match who with
  | Err _ => (Ok tt, s)
  | Ok p =>
      let '(res, r) := check_identity_rate_limit (ce_time env) (ce_reach env) (uuid_str (pn_id p)) (mcp_rate_limit_per_principal cfg)
                         (mcp_rate_limit_window_seconds cfg) MCP_RATE_BUCKET (mc_redis s) in
      (res, with_mcp_redis r s)
  end.

(** [mcp_endpoint] with its dependencies and the end of its transaction: the status, the
    body, and the store after the request. *)
Definition mcp_endpoint (env : CallEnv) (reg : Registry) (payload : dict) (auth_header lab_header : option string) (s : McpStore)
    : (Z * dict) * McpStore :=
  match principal_or_error (ce_now env 3%nat) auth_header s with
  | Err _ => (unhandled_response, s)
  | Ok (who, s1) =>
      match validate_request payload with
      | None =>
          match validate_id (dget payload "id") with
          | Some i => ((200%Z, dump_response false (rpc_error i JSONRPC_INVALID_REQUEST ("malformed JSON-RPC request: " +:+ malformed payload) None)),
                       commit env s1)
          | None => (unhandled_response, s)
          end
      | Some q =>
          match limit_principal env who s1 with
          | (Err e, s2) =>
              match app_error e with
              | Some (status, code) => (app_error_response e status code, roll_back s s2)
              | None => (unhandled_response, roll_back s s2)
              end
          | (Ok _, s2) =>
              match dispatch env reg q who lab_header s2 with
              | (Replied r, s3) => ((200%Z, dump_response true r), commit env s3)
              | (RepliedAborted r, s3) => ((200%Z, dump_response true r), abandon env s s3)
              | (AuditLost, s3) => (unhandled_response, abandon env s s3)
              end
          end
      end
  end.
End Server.
