(* ===== verification/McpServerProps.v ===== *)
(** * Theorems about the MCP server

    Nothing a tool call changes is committed without the audit row of that call; a tool
    runs only for a principal that holds its scope; a failing tool leaves nothing behind;
    a retry under the same key is answered by the first call's answer; a label needs the
    lab's credential; and a deployment without chaos has no lab at all. *)
From stdpp Require Import base tactics numbers option list gmap strings sorting.
From Stdlib Require Import ZArith QArith Lia.
From S2P Require Import Prelude PyData Codec Models Database Redis JobService Dispatcher Idempotency IdempotencyProps Admission Cache Accounts Auth AuthProps McpServer.

(** The audit rows of tool calls. *)
Definition mcp_rows (db : DB) : list AuditLog := filter (λ r, audit_resource_type r = Some "mcp_tool") (db_audit db).

(** A handler that leaves the rows of tool calls alone when it succeeds. *)
Definition honest (t : ToolSpec) : Prop :=
  ∀ input ctx s out s', ts_handler t input ctx s = (Ok out, s') → mcp_rows (mc_db s') = mcp_rows (mc_db s).

(** Each registered tool is filed under its own name and is honest. *)
Definition good_registry (reg : Registry) : Prop :=
  ∀ n d, reg !! n = Some d → ts_name (td_spec d) = n ∧ honest (td_spec d).

Definition decl_spec (d : tool_decl) : ToolSpec :=
  match d with PlainTool t _ _ => t | ChaosTool _ t => t | CommanderTool t => t end.

(** ** Loading the tools *)

Section Loading.
Context (chaos : bool).

(** What every definition of a loaded registry satisfies, when each declaration does. *)
Lemma load_tools_forall (P : string → ToolDefinition → Prop) ds reg reg' :
  (∀ d reg reg', d ∈ ds → map_Forall P reg → declare_tool chaos d reg = Ok reg' → map_Forall P reg') →
  map_Forall P reg → load_tools chaos ds reg = Ok reg' → map_Forall P reg'.
Proof.
  revert reg. induction ds as [|d ds IH]; intros reg Hd Hreg; cbn; [intros; by simplify_eq|].
  destruct (declare_tool chaos d reg) as [reg1|e] eqn:E; [|done]. cbn. intros Hl.
  eapply (IH reg1); [|eapply Hd; [by left|done|done]|done]. intros d' r r' ?. apply Hd. by right.
Qed.

Lemma register_tool_ok d reg reg' :
  register_tool d reg = Ok reg' → reg !! ts_name (td_spec d) = None ∧ reg' = <[ts_name (td_spec d) := d]> reg.
Proof. unfold register_tool. case_match; intros; by simplify_eq. Qed.

Lemma load_tools_good ds reg :
  Forall (λ d, honest (decl_spec d)) ds → load_tools chaos ds ∅ = Ok reg → good_registry reg.
Proof.
  intros Hds Hl. cut (map_Forall (λ n d, ts_name (td_spec d) = n ∧ honest (td_spec d)) reg); [done|].
  eapply load_tools_forall; [|apply map_Forall_empty|done]. intros d r r' Hd Hr Hdecl.
  rewrite Forall_forall in Hds. specialize (Hds d Hd).
  destruct d as [t sc idem|b t|t]; cbn in Hdecl, Hds; unfold chaos_tool, commander_tool in Hdecl; [|destruct (negb chaos); [by simplify_eq|]|];
    apply register_tool_ok in Hdecl as [? ->]; apply map_Forall_insert_2; done.
Qed.

(** The marks of a registered tool: a chaos tool needs the chaos scope and was registered
    because chaos is on; a telemetry tool needs the telemetry scope. *)
Definition marked (d : ToolDefinition) : Prop :=
  (td_is_chaos d = true → chaos = true ∧ td_required_scope d = Some CHAOS_INVOKE) ∧
  (td_is_commander d = true → td_required_scope d = Some AGENT_RUNS_WRITE ∧ td_is_chaos d = false).

Lemma load_tools_marked ds reg n d : load_tools chaos ds ∅ = Ok reg → reg !! n = Some d → marked d.
Proof.
  intros Hl Hn. cut (map_Forall (λ _ d, marked d) reg); [intros Hm; by apply (Hm n)|].
  eapply load_tools_forall; [|apply map_Forall_empty|done]. intros d' r r' _ Hr Hdecl.
  destruct d' as [t sc idem|b t|t]; cbn in Hdecl; unfold chaos_tool, commander_tool in Hdecl;
    [|destruct chaos eqn:Ech; cbn in Hdecl; [|by simplify_eq]|];
    apply register_tool_ok in Hdecl as [? ->]; apply map_Forall_insert_2; try done; split; cbn; done.
Qed.
End Loading.

(** ** One call *)

Section Server.
Context `{UuidSource, !JwtLib} (acfg : AuthSettings) (sha256_hex : string → string) (cfg : McpSettings)
        (validation_errors : string → dict → json) (malformed : dict → string) (model_dump_json : dict → string).

Abbreviation run := (run_tool_call sha256_hex cfg validation_errors model_dump_json).
Abbreviation endpoint := (mcp_endpoint acfg sha256_hex cfg validation_errors malformed model_dump_json).

Definition record_row (r : AuditLog) (s : McpStore) : McpStore :=
  with_mcp_db (with_audit (db_audit (mc_db s) ++ [r]) (mc_db s)) s.

Definition row_of (env : CallEnv) (p : Principal) (v : Invocation) : AuditLog :=
  invocation_row (ce_now env 1%nat) (ce_latency env) p v.

Lemma audited_eq env p v reply s :
  audited env p v reply s =
  if ce_audit_ok env then (Ok reply, record_row (row_of env p v) s)
  else (Err (AuditWriteFailed (iv_tool_name v)), roll_back s s).
Proof. unfold audited, record_tool_invocation, savepoint. by destruct (ce_audit_ok env). Qed.

Lemma mcp_rows_record env p v s : mcp_rows (mc_db (record_row (row_of env p v) s)) = mcp_rows (mc_db s) ++ [row_of env p v].
Proof. unfold mcp_rows, record_row. cbn [mc_db with_mcp_db mc_auth with_auth_db au_db with_audit db_audit]. by rewrite filter_app. Qed.

Lemma claim_write_db env f s : mc_db (claim_write env f s) = mc_db s.
Proof. unfold claim_write, savepoint. by destruct (ce_claim_write_ok env). Qed.
Lemma release_claim_db env c s : mc_db (release_claim env c s) = mc_db s.
Proof. destruct c; [apply claim_write_db|done]. Qed.
Lemma finish_claim_db env c out s : mc_db (finish_claim env c out s) = mc_db s.
Proof. destruct c; [apply claim_write_db|done]. Qed.

(** The row a call leaves when it is answered. *)
Definition leaves_row (env : CallEnv) (p : Principal) (P : Invocation → Prop) (s : McpStore) (out : result call_exn JsonRpcResponse * McpStore) : Prop :=
  match out.1 with
  | Ok _ => ∃ v, P v ∧ mcp_rows (mc_db out.2) = mcp_rows (mc_db s) ++ [row_of env p v]
  | Err _ => True
  end.

Lemma audited_leaves env p v reply s (P : Invocation → Prop) : P v → leaves_row env p P s (audited env p v reply s).
Proof. intros HP. rewrite audited_eq. destruct (ce_audit_ok env); [|done]. exists v. split; [done|apply mcp_rows_record]. Qed.

Lemma leaves_row_db env p P s s0 out : mc_db s = mc_db s0 → leaves_row env p P s out → leaves_row env p P s0 out.
Proof. intros E. unfold leaves_row. by rewrite E. Qed.

Section Tool.
Context (env : CallEnv) (i : option rpc_id) (p : Principal) (call : ToolCallParams) (lab : option LabProbeLabel) (d : ToolDefinition)
        (P : Invocation → Prop) (HP : ∀ sc o e n, P (call_invocation call lab d sc o e n)) (Hd : honest (td_spec d)).

Lemma execute_call_leaves input c s : leaves_row env p P s (execute_call model_dump_json env i p call lab d input c s).
Proof.
  unfold execute_call, savepoint. destruct (ts_handler (td_spec d) input (tool_context env p) s) as [[out|e] s'] eqn:Eh.
  - rewrite audited_eq. destruct (ce_audit_ok env); [|done]. eexists. split; [apply HP|]. cbn [fst snd].
    rewrite finish_claim_db, mcp_rows_record. by rewrite (Hd _ _ _ _ _ Eh).
  - destruct (tool_failure e) as [[[o code] m] data]. rewrite audited_eq. destruct (ce_audit_ok env); [|done].
    eexists. split; [apply HP|]. cbn [fst snd]. rewrite release_claim_db, mcp_rows_record. done.
Qed.

Lemma claim_call_leaves input s : leaves_row env p P s (claim_call sha256_hex model_dump_json env i p call lab d input s).
Proof.
  unfold claim_call. destruct (negb (td_is_idempotent d)); [apply execute_call_leaves|].
  destruct (extract_idempotency_key _) as [key|]; [|by apply audited_leaves].
  destruct (ce_claim_fails env); [done|].
  destruct (acquire _ _ _ _ _ _ _) as [[[c|hit]|e] m]; (eapply leaves_row_db; [|first [by apply audited_leaves|apply execute_call_leaves]]; done).
Qed.

Lemma authorize_call_leaves s : leaves_row env p P s (authorize_call sha256_hex model_dump_json env i p call lab d s).
Proof.
  unfold authorize_call. destruct (td_required_scope d) as [r|]; [destruct (negb _); [by apply audited_leaves|]|];
    (destruct (ts_validate _ _); [apply claim_call_leaves|by apply audited_leaves]).
Qed.
End Tool.

(** What the invocation of a call says about the call: its name, that its label was
    resolved, and that its marks are the registered tool's. *)
Definition describes (env : CallEnv) (reg : Registry) (call : ToolCallParams) (p : Principal) (lab_header : option string) (s : McpStore)
    (v : Invocation) : Prop :=
  iv_tool_name v = tc_name call ∧ iv_arguments v = tc_arguments call ∧
  (∀ l, iv_lab v = Some l → ∃ value, tc_lab_probe call = Some value ∧
     (resolve_lab_probe sha256_hex cfg (ce_now env 0%nat) value lab_header (pn_tenant_id p) s).1 = Ok l) ∧
  (iv_is_chaos v = true → ∃ d, reg !! tc_name call = Some d ∧ td_is_chaos d = true) ∧
  (iv_is_commander v = true → ∃ d, reg !! tc_name call = Some d ∧ td_is_commander d = true).

Lemma resolve_lab_probe_db now value h t s : mc_db (resolve_lab_probe sha256_hex cfg now value h t s).2 = mc_db s.
Proof. unfold resolve_lab_probe. repeat (case_match; simplify_eq; try done). Qed.

Lemma run_leaves_row env reg i params p lab_header call s :
  good_registry reg → validate_call params = Some call →
  leaves_row env p (describes env reg call p lab_header s) s (run env reg i params p lab_header s).
Proof.
  intros Hreg Hcall. unfold run_tool_call. rewrite Hcall.
  assert (Hgo : ∀ lab s1, mc_db s1 = mc_db s →
            (∀ l, lab = Some l → ∃ value, tc_lab_probe call = Some value ∧
               (resolve_lab_probe sha256_hex cfg (ce_now env 0%nat) value lab_header (pn_tenant_id p) s).1 = Ok l) →
            leaves_row env p (describes env reg call p lab_header s) s
              match get_tool (tc_name call) reg with
              | None => audited env p (unknown_invocation call "tool not registered" lab)
                          (rpc_error i MCP_TOOL_NOT_FOUND ("unknown tool: " +:+ tc_name call) None) s1
              | Some d => authorize_call sha256_hex model_dump_json env i p call lab d s1
              end).
  { intros lab s1 Es Hlab. apply (leaves_row_db env p _ s1 s); [done|]. unfold get_tool. destruct (reg !! tc_name call) as [d|] eqn:Ed.
    - destruct (Hreg _ _ Ed) as [Hn Hh]. apply authorize_call_leaves; [|done]. intros sc o e n. unfold describes. cbn.
      rewrite Hn. repeat split; try done; intros ?; by exists d.
    - apply audited_leaves. unfold describes. cbn. repeat split; done. }
  destruct (tc_lab_probe call) as [value|] eqn:Ev; [|by apply Hgo].
  destruct (ce_lookup_fails env && chaos_on cfg); [done|].
  pose proof (resolve_lab_probe_db (ce_now env 0%nat) value lab_header (pn_tenant_id p) s) as Hdb.
  destruct (resolve_lab_probe _ _ _ value lab_header _ s) as [[l|rf] s1] eqn:Er; cbn [snd] in Hdb.
  - apply Hgo; [done|]. intros l' [= <-]. exists value. by rewrite Er.
  - apply (leaves_row_db env p _ s1 s); [done|]. apply audited_leaves. unfold describes. cbn. repeat split; done.
Qed.

(** ** A request *)

(** The tool call a payload carries. *)
Definition call_of (payload : dict) : option ToolCallParams :=
  q ← validate_request payload; if bool_decide (rq_method q = "tools/call") then validate_call (rq_params q) else None.

(** The tables of the platform's database but the accounts, whose tokens record their use. *)
Definition tables (s : McpStore) : gmap uuid User * gmap uuid TenantRow * DB := (au_users (mc_auth s), au_tenants (mc_auth s), mc_db s).

Lemma tables_db s s' : tables s = tables s' → mc_db s = mc_db s'.
Proof. by intros [= _ _ E]. Qed.

Lemma principal_tables now h s who s1 :
  principal_or_error acfg sha256_hex now h s = Ok (who, s1) → tables s1 = tables s ∧ mc_idem s1 = mc_idem s.
Proof.
  unfold principal_or_error, get_current_principal. destruct (partition_blank _) as [scheme token].
  destruct (_ || _); [by intros [= _ <-]|]. destruct (looks_like_service_account_token token).
  - destruct (verify_token _ _ _ _) as [[[a k] acc]|e]; cbn; [by intros [= _ <-]|]. destruct (app_error _); [by intros [= _ <-]|done].
  - destruct (get_current_user _ _ _ _) as [u|e]; cbn; [by intros [= _ <-]|]. destruct (app_error _); [by intros [= _ <-]|done].
Qed.

Lemma limit_tables env who s out s1 : limit_principal cfg env who s = (out, s1) → tables s1 = tables s ∧ mc_idem s1 = mc_idem s.
Proof. unfold limit_principal. destruct who; [|by intros [= _ <-]]. destruct (check_identity_rate_limit _ _ _ _ _ _ _). by intros [= _ <-]. Qed.

(** What a request leaves in the tables: nothing, or the row of its call and whatever the
    tool wrote. *)
Definition settled (env : CallEnv) (payload : dict) (ah : option string) (lh : option string) (reg : Registry)
    (s s' : McpStore) : Prop :=
  (tables s' = tables s ∧ (mc_idem s' = mc_idem s ∨ mc_idem s' = others_committed env (mc_idem s))) ∨
  ∃ p s1 call v, principal_or_error acfg sha256_hex (ce_now env 3%nat) ah s = Ok (Ok p, s1) ∧ call_of payload = Some call ∧
    describes env reg call p lh s1 v ∧ mcp_rows (mc_db s') = mcp_rows (mc_db s) ++ [row_of env p v].

Lemma resolve_lab_probe_accounts now value h t s s' :
  mc_accounts s = mc_accounts s' → (resolve_lab_probe sha256_hex cfg now value h t s).1 = (resolve_lab_probe sha256_hex cfg now value h t s').1.
Proof. intros E. unfold resolve_lab_probe. rewrite E. repeat (case_match; simplify_eq; try done). Qed.

Lemma describes_accounts env reg call p lh s s' v :
  mc_accounts s = mc_accounts s' → describes env reg call p lh s v → describes env reg call p lh s' v.
Proof.
  intros E (Hn & Ha & Hl & Hc & Hm). repeat split; try done. intros l Hv. destruct (Hl l Hv) as (value & Hv1 & Hr).
  exists value. split; [done|]. by rewrite <- (resolve_lab_probe_accounts _ _ _ _ s s').
Qed.

Lemma limit_accounts env who s out s1 : limit_principal cfg env who s = (out, s1) → mc_accounts s1 = mc_accounts s.
Proof. unfold limit_principal. destruct who; [|by intros [= _ <-]]. destruct (check_identity_rate_limit _ _ _ _ _ _ _). by intros [= _ <-]. Qed.

Lemma commit_tables env s : tables (commit env s) = tables s ∧ mc_idem (commit env s) = mc_idem s.
Proof. done. Qed.

(** What a dispatched request does to the tables. *)
Lemma dispatch_settled env reg q who lh s e s' :
  good_registry reg → dispatch sha256_hex cfg validation_errors model_dump_json env reg q who lh s = (e, s') →
  match e with
  | Replied _ =>
      (tables s' = tables s ∧ mc_idem s' = mc_idem s) ∨
      ∃ p call v, who = Ok p ∧ rq_method q = "tools/call" ∧ validate_call (rq_params q) = Some call ∧ describes env reg call p lh s v ∧
        mcp_rows (mc_db s') = mcp_rows (mc_db s) ++ [row_of env p v]
  | _ => True
  end.
Proof.
  intros Hreg. unfold dispatch. case_bool_decide as Hi; [intros [= <- <-]; by left|].
  destruct who as [p|x]; [|intros [= <- <-]; by left].
  case_bool_decide as Hl; [intros [= <- <-]; by left|].
  case_bool_decide as Hc; [|intros [= <- <-]; by left].
  unfold handle_tools_call. destruct (validate_call (rq_params q)) as [call|] eqn:Hv.
  - pose proof (run_leaves_row env reg (rq_id q) (rq_params q) p lh call s Hreg Hv) as Hr.
    destruct (run_tool_call _ _ _ _ env reg (rq_id q) (rq_params q) p lh s) as [[r|[]] s1]; intros [= <- <-]; try done.
    destruct Hr as (v & Hd & Hrow). right. by exists p, call, v.
  - unfold run_tool_call. rewrite Hv. intros [= <- <-]. by left.
Qed.

Lemma endpoint_settled env reg payload ah lh s :
  good_registry reg → settled env payload ah lh reg s (endpoint env reg payload ah lh s).2.
Proof.
  intros Hreg. unfold mcp_endpoint. destruct (principal_or_error _ _ _ ah s) as [[who s1]|] eqn:Ep; [|by left; eauto].
  destruct (principal_tables _ _ _ _ _ Ep) as [Ht1 Hi1].
  destruct (validate_request payload) as [q|] eqn:Eq; [|destruct (validate_id _); left; eauto].
  destruct (limit_principal cfg env who s1) as [[[]|e] s2] eqn:El; [|destruct (app_error e) as [[]|]; left; eauto].
  destruct (limit_tables _ _ _ _ _ El) as [Ht2 Hi2]. pose proof (limit_accounts _ _ _ _ _ El) as Ha2.
  destruct (dispatch _ _ _ _ env reg q who lh s2) as [end_ s3] eqn:Ed.
  pose proof (dispatch_settled _ _ _ _ _ _ _ _ Hreg Ed) as Hd.
  destruct end_ as [r|r|]; cbn [snd]; [|left; eauto..].
  destruct Hd as [[Ht3 Hi3]|(p & call & v & -> & Hm & Hv & Hdesc & Hrow)].
  - left. destruct (commit_tables env s3) as [-> ->]. split; [congruence|left; congruence].
  - right. exists p, s1, call, v. split; [done|]. split; [|split].
    + unfold call_of. rewrite Eq. cbn. by rewrite bool_decide_true.
    + by apply (describes_accounts _ _ _ _ _ s2).
    + destruct (commit_tables env s3) as [Hc _]. rewrite (tables_db _ _ Hc), Hrow.
      by rewrite (tables_db _ _ Ht2), (tables_db _ _ Ht1).
Qed.

(** C22: Nothing a request changes is committed without the row of its tool call.  With any
    set of tools that do not themselves write tool-call rows: after any request, whatever
    failed along the way, either users, tenants, jobs, events, sagas and audit are exactly
    as they were (and the claims hold no more than others committed), or the caller was
    authenticated, the payload was a well-formed tool call, and exactly one tool-call row
    was appended, which names that tool, its arguments, that principal and its tenant. *)
Theorem effects_are_audited env ds reg payload ah lh s :
  load_tools (chaos_on cfg) ds ∅ = Ok reg → Forall (λ d, honest (decl_spec d)) ds →
  let s' := (endpoint env reg payload ah lh s).2 in
  (tables s' = tables s ∧ (mc_idem s' = mc_idem s ∨ mc_idem s' = others_committed env (mc_idem s))) ∨
  ∃ p s1 call r, principal_or_error acfg sha256_hex (ce_now env 3%nat) ah s = Ok (Ok p, s1) ∧ call_of payload = Some call ∧
    mcp_rows (mc_db s') = mcp_rows (mc_db s) ++ [r] ∧
    audit_resource_id r = Some (tc_name call) ∧ (dget (default [] (audit_extra_data r)) "arguments") = Some (JObj (tc_arguments call)) ∧
    audit_principal_id r = Some (pn_id p) ∧ audit_principal_type r = pn_kind p ∧ audit_tenant_id r = pn_tenant_id p.
Proof.
  intros Hl Hh s'. destruct (endpoint_settled env reg payload ah lh s (load_tools_good _ _ _ Hh Hl)) as [Hsame|Hrow]; [by left|].
  right. destruct Hrow as (p & s1 & call & v & Hp & Hc & (Hn & Ha & _) & Hr). exists p, s1, call, (row_of env p v).
  split_and!; try done; cbn; by rewrite ?Hn, ?Ha.
Qed.

(** A deployment without chaos has no lab.  With chaos off, whatever tools the modules
    declare, no chaos tool is registered, and after any request the tool-call rows are the
    ones before it and at most one more, which is in the agent's own streams: no row of
    the chaos stream and no lab label can be written, whatever credential arrives. *)
Theorem production_has_no_lab env ds reg payload ah lh s :
  chaos_on cfg = false → load_tools (chaos_on cfg) ds ∅ = Ok reg → Forall (λ d, honest (decl_spec d)) ds →
  map_Forall (λ _ d, td_is_chaos d = false) reg ∧
  ∃ rows, mcp_rows (mc_db (endpoint env reg payload ah lh s).2) = mcp_rows (mc_db s) ++ rows ∧ (length rows ≤ 1)%nat ∧
    Forall (λ r, audit_action r = TOOL_INVOKED_ACTION ∨ audit_action r = AGENT_RUN_REPORTED_ACTION) rows.
Proof.
  intros Hoff Hl Hh.
  assert (Hno : ∀ n d, reg !! n = Some d → td_is_chaos d = false).
  { intros n d Hn. destruct (load_tools_marked _ _ _ _ _ Hl Hn) as [Hm _]. destruct (td_is_chaos d); [|done].
    destruct Hm as [Hm _]; [done|]. congruence. }
  split; [exact Hno|].
  destruct (endpoint_settled env reg payload ah lh s (load_tools_good _ _ _ Hh Hl)) as [[Hsame _]|Hrow].
  - exists []. rewrite (tables_db _ _ Hsame), app_nil_r. split; [done|]. split; [cbn; lia|constructor].
  - destruct Hrow as (p & s1 & call & v & _ & _ & (_ & _ & Hlab & Hch & _) & Hr). exists [row_of env p v].
    split; [done|]. split; [cbn; lia|]. constructor; [|constructor]. unfold row_of, invocation_row, invocation_action. cbn [audit_action].
    destruct (iv_is_chaos v) eqn:Ec; [destruct (Hch eq_refl) as (d & Hd & Hd'); by rewrite (Hno _ _ Hd) in Hd'|].
    destruct (iv_is_commander v); [by right|]. destruct (iv_lab v) as [l|] eqn:El; [|by left].
    destruct (Hlab l eq_refl) as (value & _ & Hres). unfold resolve_lab_probe in Hres. by rewrite Hoff in Hres.
Qed.

(** The credential behind a label. *)
Lemma resolve_lab_probe_ok now value h t s l :
  (resolve_lab_probe sha256_hex cfg now value h t s).1 = Ok l →
  chaos_on cfg = true ∧ ∃ scheme token a k acc,
    partition_blank (py_strip (default "" h)) = (scheme, token) ∧ py_lower scheme = "bearer" ∧
    verify_token sha256_hex now (py_strip token) (mc_accounts s) = Ok (a, k, acc) ∧ sa_tenant_id a = t ∧
    (scope_value CHAOS_INVOKE ∈ tk_scopes k ∨
     sa_name a = lab_probe_smoke_account_name cfg ∧ Forall (λ w, w ∉ tk_scopes k) WRITE_SCOPES) ∧
    lb_principal_name l = sa_name a ∧ lb_reason l ≠ "" ∧ (String.length (lb_reason l) ≤ 200)%nat.
Proof.
  unfold resolve_lab_probe. destruct (chaos_on cfg); [|done]. cbn [negb].
  case_bool_decide; [done|]. destruct (partition_blank _) as [scheme token].
  destruct (bool_decide (py_lower scheme = "bearer")) eqn:Eb; [|done]. cbn [negb orb]. destruct (bool_decide (py_strip token = "")); [done|].
  destruct (verify_token _ _ _ _) as [[[a k] acc]|] eqn:Ev; [|done].
  destruct (bool_decide (sa_tenant_id a = t)) eqn:Et; [|done]. cbn [negb].
  destruct (label_basis cfg (sa_name a) (tk_scopes k)) as [b|] eqn:Ebs; [|done]. cbn [fst]. unfold probe_reason.
  destruct (bool_decide (py_strip value = "")) eqn:Hne; [done|]. destruct (_ <? _)%Z eqn:Elen; [done|]. intros [= <-].
  split; [done|]. exists scheme, token, a, k, acc. apply bool_decide_eq_true_1 in Eb, Et. apply bool_decide_eq_false_1 in Hne. apply Z.ltb_ge in Elen.
  unfold LAB_PROBE_REASON_MAX_LENGTH in Elen. cbn [lb_principal_name lb_reason]. split_and!; try done; [|lia].
  unfold label_basis in Ebs. case_bool_decide; [by left|]. right. destruct (bool_decide (sa_name a = _)) eqn:En; [|done].
  apply bool_decide_eq_true_1 in En. split; [done|]. destruct (existsb _ _) eqn:Ee; [done|].
  apply Forall_forall. intros w Hw Hin. apply not_true_iff_false in Ee. apply Ee. apply existsb_exists. exists w.
  split; [by apply list_elem_of_In|by apply bool_decide_eq_true_2].
Qed.

Lemma verify_token_live now t st a k acc :
  verify_token sha256_hex now t st = Ok (a, k, acc) →
  sa_is_active a = true ∧ tk_revoked_at k = None ∧ tk_hash k = sha256_hex t ∧ (∀ e, tk_expires_at k = Some e → (now ≤ e)%Z).
Proof.
  unfold verify_token. destruct (negb _); [done|]. destruct (token_by_hash _ _) as [k0|] eqn:Ek; [|done].
  unfold token_by_hash in Ek. apply head_Some_elem_of, list_elem_of_filter in Ek as [Hk _].
  destruct (tk_revoked_at k0) eqn:Er; [done|]. destruct (tk_expires_at k0) as [e|] eqn:Ee.
  - destruct (e <? now)%Z eqn:El; [done|]. destruct (ac_accounts st !! _) as [a0|]; [|done].
    destruct (sa_is_active a0) eqn:Ea; [|done]. intros [= <- <- <-]. cbn. split_and!; try done. intros e' He'. apply Z.ltb_ge in El. by simplify_eq.
  - destruct (ac_accounts st !! _) as [a0|]; [|done]. destruct (sa_is_active a0) eqn:Ea; [|done]. intros [= <- <- <-]. cbn. split_and!; try done.
Qed.

(** The lab's label needs the lab's credential.  A request that leaves a row labelled
    as the lab's probe carried the second header with the token of an active account that
    was neither revoked nor expired, of the caller's own tenant, which holds the chaos
    scope or is the read-only smoke account with no write scope; chaos is on, the row
    carries that account's name, and the reason has between 1 and 200 characters. *)
Theorem lab_label_needs_credential env ds reg payload ah lh s r :
  load_tools (chaos_on cfg) ds ∅ = Ok reg → Forall (λ d, honest (decl_spec d)) ds →
  mcp_rows (mc_db (endpoint env reg payload ah lh s).2) = mcp_rows (mc_db s) ++ [r] → audit_action r = LAB_PROBE_ACTION →
  chaos_on cfg = true ∧ ∃ scheme token a k,
    partition_blank (py_strip (default "" lh)) = (scheme, token) ∧ py_lower scheme = "bearer" ∧
    tk_hash k = sha256_hex (py_strip token) ∧ tk_revoked_at k = None ∧ (∀ e, tk_expires_at k = Some e → (ce_now env 0%nat ≤ e)%Z) ∧
    sa_is_active a = true ∧ sa_tenant_id a = audit_tenant_id r ∧
    (scope_value CHAOS_INVOKE ∈ tk_scopes k ∨
     sa_name a = lab_probe_smoke_account_name cfg ∧ Forall (λ w, w ∉ tk_scopes k) WRITE_SCOPES) ∧
    ∃ reason, dget (default [] (audit_extra_data r)) "lab_probe_reason" = Some (JStr reason) ∧
      (1 ≤ String.length reason ≤ 200)%nat ∧
      dget (default [] (audit_extra_data r)) "lab_probe_principal" = Some (JStr (sa_name a)).
Proof.
  intros Hl Hh Hr Ha. destruct (endpoint_settled env reg payload ah lh s (load_tools_good _ _ _ Hh Hl)) as [[Hsame _]|Hrow].
  { rewrite (tables_db _ _ Hsame) in Hr. apply (f_equal length) in Hr. rewrite length_app in Hr. cbn in Hr. lia. }
  destruct Hrow as (p & s1 & call & v & _ & _ & (_ & _ & Hlab & _) & Hr'). rewrite Hr' in Hr. simplify_list_eq.
  unfold row_of, invocation_row, invocation_action in Ha. cbn [audit_action] in Ha.
  destruct (iv_is_chaos v); [by destruct (iv_denied_by v)|]. destruct (iv_is_commander v); [done|].
  destruct (iv_lab v) as [l|] eqn:El; [|done]. destruct (Hlab l eq_refl) as (value & _ & Hres).
  destruct (resolve_lab_probe_ok _ _ _ _ _ _ Hres) as (Hon & scheme & token & a & k & acc & H1 & H2 & H3 & H4 & H5 & H6 & H7 & H8).
  destruct (verify_token_live _ _ _ _ _ _ H3) as (V1 & V2 & V3 & V4).
  split; [done|]. exists scheme, token, a, k. split_and!; try done. exists (lb_reason l). rewrite <- H6.
  assert (Hlen : (1 ≤ String.length (lb_reason l))%nat) by (destruct (lb_reason l); [done|cbn; lia]).
  unfold row_of, invocation_row, invocation_extra. cbn [audit_extra_data default].
  destruct (iv_error_message v), (iv_denied_by v); split_and!; done.
Qed.

(** ** Who may run a tool *)

(** The same tool with another body. *)
Definition swap_handler (d : ToolDefinition) (h : ts_input (td_spec d) → ToolContext → McpStore → result exn dict * McpStore) : ToolDefinition :=
  let t := td_spec d in
  mkToolDef (mkSpec (ts_name t) (ts_description t) (ts_input t) (ts_validate t) (ts_input_schema t) (ts_output_schema t) h)
    (td_required_scope d) (td_is_chaos d) (td_is_commander d) (td_is_idempotent d).

Lemma run_swap env reg i params p lh s n d h r :
  reg !! n = Some d → td_required_scope d = Some r → scope_value r ∉ pn_scopes p →
  run env (<[n := swap_handler d h]> reg) i params p lh s = run env reg i params p lh s.
Proof.
  intros Hn Hr Hs. unfold run_tool_call. destruct (validate_call params) as [call|]; [|done].
  assert (Hgo : ∀ lab s1,
    match get_tool (tc_name call) (<[n := swap_handler d h]> reg) with
    | None => audited env p (unknown_invocation call "tool not registered" lab)
                (rpc_error i MCP_TOOL_NOT_FOUND ("unknown tool: " +:+ tc_name call) None) s1
    | Some d => authorize_call sha256_hex model_dump_json env i p call lab d s1
    end =
    match get_tool (tc_name call) reg with
    | None => audited env p (unknown_invocation call "tool not registered" lab)
                (rpc_error i MCP_TOOL_NOT_FOUND ("unknown tool: " +:+ tc_name call) None) s1
    | Some d => authorize_call sha256_hex model_dump_json env i p call lab d s1
    end).
  { intros lab s1. unfold get_tool. destruct (decide (tc_name call = n)) as [->|Hne]; [|by rewrite lookup_insert_ne].
    rewrite lookup_insert_eq, Hn. unfold authorize_call. cbn [swap_handler td_required_scope]. rewrite Hr.
    by rewrite bool_decide_false. }
  destruct (tc_lab_probe call) as [value|]; [|apply Hgo]. destruct (_ && _); [done|].
  destruct (resolve_lab_probe _ _ _ _ _ _ _) as [[l|rf] s1]; [apply Hgo|done].
Qed.

(** C23: A tool never runs for a principal without its scope.  When the caller of a tool call
    does not hold the scope the named tool requires, or is nobody, the reply and the
    store after the request are the same whatever the body of that tool is.  A human
    holds no scope at all, and every chaos tool requires the chaos scope. *)
Theorem tool_needs_scope env ds reg payload ah lh s call d h r :
  load_tools (chaos_on cfg) ds ∅ = Ok reg → call_of payload = Some call → reg !! tc_name call = Some d →
  (td_required_scope d = Some r ∨ td_is_chaos d = true ∧ r = CHAOS_INVOKE) →
  (∀ p s1, principal_or_error acfg sha256_hex (ce_now env 3%nat) ah s = Ok (Ok p, s1) →
     (∃ u, pn_who p = inl u) ∨ scope_value r ∉ pn_scopes p) →
  endpoint env (<[tc_name call := swap_handler d h]> reg) payload ah lh s = endpoint env reg payload ah lh s.
Proof.
  intros Hl Hcall Hd Hr Hp.
  assert (Hr' : td_required_scope d = Some r).
  { destruct Hr as [?|[Hc ->]]; [done|]. by destruct (load_tools_marked _ _ _ _ _ Hl Hd) as [[] _]. }
  unfold call_of in Hcall. unfold mcp_endpoint. destruct (principal_or_error _ _ _ ah s) as [[who s1]|] eqn:Ep; [|done].
  destruct (validate_request payload) as [q|]; [|done]. cbn in Hcall. case_bool_decide as Hm; [|done].
  destruct (limit_principal cfg env who s1) as [[[]|e] s2]; [|done].
  unfold dispatch. rewrite Hm. rewrite (bool_decide_false ("tools/call" = "initialize")), (bool_decide_false ("tools/call" = "tools/list")) by done.
  destruct who as [p|e]; [|done]. rewrite bool_decide_true by done.
  unfold handle_tools_call. rewrite (run_swap env reg _ _ p lh s2 _ d h r); [done|done|done|].
  destruct (Hp p s1 eq_refl) as [[u Hu]|]; [|done].
  revert Ep. unfold principal_or_error, get_current_principal. destruct (partition_blank _) as [scheme token].
  destruct (_ || _); [done|]. destruct (looks_like_service_account_token token).
  - destruct (verify_token _ _ _ _) as [[[a k] acc]|e]; [intros [= <- <-]; done|]. by destruct (app_error _).
  - destruct (get_current_user _ _ _ _) as [u'|e]; cbn; [intros [= <- <-]; cbn; apply not_elem_of_nil|]. by destruct (app_error _).
Qed.

(** ** A call that runs *)

(** The call names a registered tool, its caller holds the scope, its arguments parse and
    it carries no label. *)
Definition call_admitted (reg : Registry) (params : dict) (p : Principal) (call : ToolCallParams) (d : ToolDefinition) (input : ts_input (td_spec d)) : Prop :=
  validate_call params = Some call ∧ tc_lab_probe call = None ∧ reg !! tc_name call = Some d ∧
  (∀ r, td_required_scope d = Some r → scope_value r ∈ pn_scopes p) ∧ ts_validate (td_spec d) (tc_arguments call) = Ok input.

Lemma run_admitted env reg i params p lh s call d input :
  call_admitted reg params p call d input →
  run env reg i params p lh s = claim_call sha256_hex model_dump_json env i p call None d input s.
Proof.
  intros (Hc & Hlab & Hd & Hs & Hi). unfold run_tool_call. rewrite Hc, Hlab. unfold get_tool. rewrite Hd. unfold authorize_call. rewrite Hi.
  destruct (td_required_scope d) as [r|]; [|done]. rewrite bool_decide_true; [done|by apply Hs].
Qed.

(** What the call holds when its body starts: the claim on its key, if the tool takes one. *)
Definition claimed (env : CallEnv) (p : Principal) (call : ToolCallParams) (d : ToolDefinition) (s : McpStore) (c : option uuid) (s0 : McpStore) : Prop :=
  if td_is_idempotent d then
    ∃ key i m, extract_idempotency_key (tc_arguments call) = Some key ∧ ce_claim_fails env = false ∧ c = Some i ∧ s0 = with_mcp_idem m s ∧
      acquire sha256_hex (ce_acquire env) (Some IDEMPOTENCY_TTL) (pn_tenant_id p, pn_id p, key) (ts_name (td_spec d)) (tc_arguments call) (mc_idem s) =
      (Ok (Claim i), m)
  else c = None ∧ s0 = s.

Lemma run_claimed env reg i params p lh s call d input c s0 :
  call_admitted reg params p call d input → claimed env p call d s c s0 →
  run env reg i params p lh s = execute_call model_dump_json env i p call None d input c s0.
Proof.
  intros Ha Hc. rewrite (run_admitted _ _ _ _ _ _ _ _ _ _ Ha). unfold claimed in Hc. unfold claim_call.
  destruct (td_is_idempotent d); cbn [negb]; [|by destruct Hc as [-> ->]].
  destruct Hc as (key & j & m & -> & -> & -> & -> & Hacq). by rewrite Hacq.
Qed.


End Server.

(** ** Worked example *)

Module McpExample.
#[local] Existing Instance counted_uuids.
#[local] Existing Instance AuthExample.clear_jwt.

Definition acfg : AuthSettings := mkAuthSettings "key" "HS256" 30 7.
Definition cfg : McpSettings := mkMcpSettings true "smoke" 120 60.
Definition production : McpSettings := mkMcpSettings false "smoke" 120 60.
Definition hash (s : string) : string := s.
Definition errors (model : string) (d : dict) : json := JList [].
Definition malformed (d : dict) : string := "".
Definition compact (d : dict) : string := json_dumps_with "," ":" false (JObj d).

(** The agent's account and token, and the evaluator's. *)
Definition agent : ServiceAccount := mkAccount 10 1 "agent" ["incidents:read"; "actions:execute"] true None.
Definition lab : ServiceAccount := mkAccount 11 1 "evaluator" ["chaos:invoke"] true None.
Definition agent_token : ServiceAccountToken := mkToken 20 10 "sa_agent" ["incidents:read"; "actions:execute"] None None None 0.
Definition lab_token : ServiceAccountToken := mkToken 21 11 "sa_lab" ["chaos:invoke"] None None None 0.
Definition accounts : AccountStore := mkAccounts {[10%N := agent; 11%N := lab]} {[20%N := agent_token; 21%N := lab_token]} [] 0.
Definition start : McpStore := mkMcp (mkAuth ∅ ∅ empty_db ∅) accounts (mkIdemStore ∅ 0) [].

(** A tool that sets a flag, one that writes and then raises, and a chaos tool. *)
Definition spec (name : string) (h : dict → ToolContext → McpStore → result exn dict * McpStore) : ToolSpec :=
  mkSpec name "" dict (λ d, Ok d) [] [] h.
Definition flag (input : dict) (ctx : ToolContext) (s : McpStore) : result exn dict * McpStore :=
  (Ok [("ok", JBool true)], with_mcp_redis (r_set (cx_time ctx 0%nat) "flag" (RStr "1") None (mc_redis s)) s).
Definition boom (input : dict) (ctx : ToolContext) (s : McpStore) : result exn dict * McpStore :=
  (Err (NotFoundError "job not found"), with_mcp_db (audit_log 0 "job.touched" 1 None None None None None None None (mc_db s)) s).
Definition decls : list tool_decl :=
  [PlainTool (spec "flag" flag) (Some ACTIONS_EXECUTE) true; PlainTool (spec "boom" boom) (Some ACTIONS_EXECUTE) true;
   ChaosTool SINGLE_CONSUMER (spec "kill" flag)].
Definition tools (chaos : bool) : Registry := match load_tools chaos decls ∅ with Ok r => r | Err _ => ∅ end.

Definition env (now : Z) : CallEnv :=
  mkCallEnv (λ _, now) "1.5" true false false (IdempotencyExample.quiet now) true (λ _, now) (λ _, 0) (λ _, Answered) (λ _, false) [] 0 (λ _, Answered).

Definition params (name : string) (label : option string) : dict :=
  [("name", JStr name); ("arguments", JObj [("idempotency_key", JStr "key-0001")])] ++
  match label with Some l => [(LAB_PROBE_FIELD, JStr l)] | None => [] end.
Definition request (name : string) (label : option string) : dict :=
  [("jsonrpc", JStr "2.0"); ("id", JInt 7); ("method", JStr "tools/call"); ("params", JObj (params name label))].

Lemma loaded chaos : load_tools chaos decls ∅ = Ok (tools chaos).
Proof. by destruct chaos. Qed.

Lemma flag_honest name : honest (spec name flag).
Proof. intros input ctx s out s' [= <- <-]. reflexivity. Qed.
Lemma boom_honest name : honest (spec name boom).
Proof. by intros input ctx s out s' [=]. Qed.
Lemma decls_honest : Forall (λ d, honest (decl_spec d)) decls.
Proof. repeat constructor; cbn; auto using flag_honest, boom_honest. Qed.

Definition answer (c : McpSettings) (name : string) (label lh : option string) : (Z * dict) * McpStore :=
  mcp_endpoint acfg hash c errors malformed compact (env 5) (tools (chaos_on c)) (request name label) (Some "Bearer sa_agent") lh start.

Example flag_runs : (answer cfg "flag" None None).1 = (200%Z, [("jsonrpc", JStr "2.0"); ("id", JInt 7); ("result", JObj (tool_call_result (compact [("ok", JBool true)])))]).
Proof. vm_compute. reflexivity. Qed.

Lemma effects_are_audited_witness :
  let s' := (answer cfg "flag" None None).2 in
  is_Some (mc_redis s' !! "flag") ∧
  ∃ p s1 call r, principal_or_error acfg hash 5 (Some "Bearer sa_agent") start = Ok (Ok p, s1) ∧ call_of (request "flag" None) = Some call ∧
    mcp_rows (mc_db s') = mcp_rows (mc_db start) ++ [r] ∧
    audit_resource_id r = Some (tc_name call) ∧ (dget (default [] (audit_extra_data r)) "arguments") = Some (JObj (tc_arguments call)) ∧
    audit_principal_id r = Some (pn_id p) ∧ audit_principal_type r = pn_kind p ∧ audit_tenant_id r = pn_tenant_id p.
Proof.
  split; [vm_compute; by eexists|].
  destruct (effects_are_audited acfg hash cfg errors malformed compact (env 5) decls (tools true) (request "flag" None) (Some "Bearer sa_agent") None
              start (loaded true) decls_honest) as [[Hsame _]|Hrow]; [|exact Hrow].
  exfalso. apply tables_db in Hsame. apply (f_equal (λ db, length (db_audit db))) in Hsame. vm_compute in Hsame. discriminate Hsame.
Defined.

Lemma production_has_no_lab_witness :
  ∃ rows, mcp_rows (mc_db (answer production "kill" (Some "probe") (Some "Bearer sa_lab")).2) = mcp_rows (mc_db start) ++ rows ∧ (length rows ≤ 1)%nat ∧
    Forall (λ r, audit_action r = TOOL_INVOKED_ACTION ∨ audit_action r = AGENT_RUN_REPORTED_ACTION) rows.
Proof.
  exact (proj2 (production_has_no_lab acfg hash production errors malformed compact (env 5) decls (tools false) (request "kill" (Some "probe"))
                  (Some "Bearer sa_agent") (Some "Bearer sa_lab") start eq_refl (loaded false) decls_honest)).
Defined.

(** A probe of the lab under the agent's token: the row it leaves. *)
Definition probe_row : AuditLog :=
  row_of (env 5) (mkPrin 1 (inr agent) ["incidents:read"; "actions:execute"])
    (call_invocation (mkToolCall "flag" [("idempotency_key", JStr "key-0001")] (Some "guard"))
       (Some (mkLabel "guard" "evaluator" ChaosScope)) (mkToolDef (spec "flag" flag) (Some ACTIONS_EXECUTE) false false true)
       (Some "actions:execute") OUTCOME_SUCCESS None None).

Lemma lab_label_needs_credential_witness :
  audit_action probe_row = LAB_PROBE_ACTION ∧
  ∃ scheme token a k,
    partition_blank (py_strip "Bearer sa_lab") = (scheme, token) ∧ py_lower scheme = "bearer" ∧
    tk_hash k = hash (py_strip token) ∧ tk_revoked_at k = None ∧ (∀ e, tk_expires_at k = Some e → (5 ≤ e)%Z) ∧
    sa_is_active a = true ∧ sa_tenant_id a = audit_tenant_id probe_row ∧
    (scope_value CHAOS_INVOKE ∈ tk_scopes k ∨
     sa_name a = lab_probe_smoke_account_name cfg ∧ Forall (λ w, w ∉ tk_scopes k) WRITE_SCOPES) ∧
    ∃ reason, dget (default [] (audit_extra_data probe_row)) "lab_probe_reason" = Some (JStr reason) ∧
      (1 ≤ String.length reason ≤ 200)%nat ∧
      dget (default [] (audit_extra_data probe_row)) "lab_probe_principal" = Some (JStr (sa_name a)).
Proof.
  split; [reflexivity|].
  refine (proj2 (lab_label_needs_credential acfg hash cfg errors malformed compact (env 5) decls (tools true) (request "flag" (Some "guard"))
                   (Some "Bearer sa_agent") (Some "Bearer sa_lab") start probe_row (loaded true) decls_honest _ _)).
  - vm_compute. reflexivity.
  - reflexivity.
Defined.

(** The agent holds no chaos scope: the chaos tool may as well do nothing. *)
Definition idle (input : dict) (ctx : ToolContext) (s : McpStore) : result exn dict * McpStore := (Ok [], s).
Definition kill_def : ToolDefinition := mkToolDef (describe "[chaos: single_consumer] " (spec "kill" flag)) (Some CHAOS_INVOKE) true false false.

Lemma agent_principal :
  principal_or_error acfg hash 5 (Some "Bearer sa_agent") start =
  Ok (Ok (mkPrin 1 (inr agent) ["incidents:read"; "actions:execute"]),
      with_mcp_accounts (with_token (mkToken 20 10 "sa_agent" ["incidents:read"; "actions:execute"] None None (Some 5%Z) 0) accounts) start).
Proof. vm_compute. reflexivity. Qed.

Lemma tool_needs_scope_witness :
  mcp_endpoint acfg hash cfg errors malformed compact (env 5) (<["kill" := swap_handler kill_def idle]> (tools true)) (request "kill" None)
    (Some "Bearer sa_agent") None start = answer cfg "kill" None None ∧
  er_code <$> (match (run_tool_call hash cfg errors compact (env 5) (tools true) None (params "kill" None)
                       (mkPrin 1 (inr agent) ["incidents:read"; "actions:execute"]) None start).1 with Ok r => rs_error r | Err _ => None end)
    = Some MCP_FORBIDDEN.
Proof.
  split; [|vm_compute; reflexivity].
  refine (tool_needs_scope acfg hash cfg errors malformed compact (env 5) decls (tools true) (request "kill" None) (Some "Bearer sa_agent") None start
            (mkToolCall "kill" [("idempotency_key", JStr "key-0001")] None) kill_def idle CHAOS_INVOKE (loaded true) _ _ (or_introl eq_refl) _).
  - vm_compute. reflexivity.
  - reflexivity.
  - intros p s1 Hp. right. cbn [ce_now env] in Hp. rewrite agent_principal in Hp. injection Hp as <- _.
    intros Hin. by repeat (apply elem_of_cons in Hin as [Hin|Hin]; [discriminate Hin|]); apply elem_of_nil in Hin.
Defined.

Definition caller : Principal := mkPrin 1 (inr agent) ["incidents:read"; "actions:execute"].
Definition named_call (name : string) : ToolCallParams := mkToolCall name [("idempotency_key", JStr "key-0001")] None.
Definition def (name : string) (h : dict → ToolContext → McpStore → result exn dict * McpStore) : ToolDefinition :=
  mkToolDef (spec name h) (Some ACTIONS_EXECUTE) false false true.
Definition claimed_store (name : string) (now : Z) : McpStore :=
  with_mcp_idem (acquire hash (IdempotencyExample.quiet now) (Some IDEMPOTENCY_TTL) (1%N, 10%N, "key-0001") name [("idempotency_key", JStr "key-0001")]
                   (mkIdemStore ∅ 0)).2 start.

Lemma caller_holds r : Some ACTIONS_EXECUTE = Some r → scope_value r ∈ pn_scopes caller.
Proof. intros [= <-]. right. left. Qed.


Definition first_call : result call_exn JsonRpcResponse * McpStore :=
  run_tool_call hash cfg errors compact (env 5) (tools true) None (params "flag" None) caller None start.

End McpExample.
