(* ===== verification/McpActions.v ===== *)
(** * The tools of the MCP server (mcp/tools/actions, mcp/tools/list_dlq_messages.py,
      dag_state.py, list_audit_events.py, mcp/tools/chaos; repositories/job.py and audit.py)

    The Tier-1 actions an agent may take on dead-lettered jobs, paused chains, cache keys
    and consumer groups, the reads it verifies them with, and two of the lab's faults.
    Each is a handler of [McpServer]: a function of its parsed input, its context and the
    store. *)
From stdpp Require Import base tactics numbers option list gmap strings sorting.
From Stdlib Require Import ZArith QArith Ascii.
From S2P Require Import Prelude PyData Codec Models Database JobEvents JobRepo Redis Queue DagPause JobService Dispatcher Supervision Accounts Auth McpServer.

(** ** pydantic *)

(** Lax parsing of a field: [None] is a validation error. *)
Class Pydantic := {
  pyd_int : json → option Z;
  pyd_bool : json → option bool;
  pyd_uuid : json → option uuid;
  pyd_datetime : Z → string;  (** an aware UTC datetime in JSON mode *)
  pyd_int_int z : pyd_int (JInt z) = Some z;
  pyd_bool_bool b : pyd_bool (JBool b) = Some b;
  pyd_uuid_uuid u : (u < uuid_bound)%N → pyd_uuid (juuid u) = Some u
}.

Section Fields.
Context `{Pydantic}.

(** [extra="forbid"]. *)
Definition only_fields (fields : list string) (d : dict) : bool := forallb (λ kv, bool_decide (kv.1 ∈ fields)) d.

Definition int_between (lo hi : Z) (v : json) : option Z := z ← pyd_int v; if (lo <=? z)%Z && (z <=? hi)%Z then Some z else None.
Definition str_between (lo hi : Z) (v : json) : option string :=
  match v with
  | JStr s => let n := Z.of_nat (String.length s) in if (lo <=? n)%Z && (n <=? hi)%Z then Some s else None
  | _ => None
  end.
Definition plain_str (v : json) : option string := match v with JStr s => Some s | _ => None end.

(** A required field, one with a default, and an optional one. *)
Definition required {A} (f : json → option A) (v : option json) : option A := v ← v; f v.
Definition defaulted {A} (a : A) (f : json → option A) (v : option json) : option A := match v with None => Some a | Some v => f v end.
Definition nullable {A} (f : json → option A) (v : option json) : option (option A) :=
  match v with None | Some JNull => Some None | Some v => Some <$> f v end.

(** [idempotency_key: str = Field(min_length=8, max_length=255)]. *)
Definition key_field (d : dict) : option string := required (str_between 8 255) (dget d "idempotency_key").
End Fields.

(** ** JobRepository.list_jobs *)

Inductive JobSort : Type := CREATED_AT | DEAD_LETTERED_AT.

Record JobFilter := mkJobFilter {
  jf_user_id : option uuid;
  jf_status : option string;
  jf_job_type : option string;
  jf_trace_id : option string;
  jf_created_after : option Z;
  jf_created_before : option Z;
  jf_retry_count_min : option Z;
  jf_retry_count_max : option Z;
  jf_remediation_hint : option string;
  jf_exclude_remediation_hints : list string;
  jf_require_trace_id : bool
}.

(** An absent condition holds. *)
Definition when_some {A} (o : option A) (f : A → bool) : bool := match o with Some a => f a | None => true end.

(** The WHERE clause; a comparison with NULL does not hold. *)
Definition job_matches (tenant : uuid) (f : JobFilter) (j : Job) : bool :=
  bool_decide (job_tenant_id j = tenant) &&
  when_some (jf_user_id f) (λ u, bool_decide (job_user_id j = u)) &&
  when_some (jf_status f) (λ x, bool_decide (job_status_value (job_status j) = x)) &&
  when_some (jf_job_type f) (λ x, bool_decide (job_type j = x)) &&
  when_some (jf_trace_id f) (λ x, bool_decide (job_trace_id j = Some x)) &&
  when_some (jf_created_after f) (λ x, x <=? job_created_at j)%Z &&
  when_some (jf_created_before f) (λ x, job_created_at j <=? x)%Z &&
  when_some (jf_retry_count_min f) (λ x, x <=? job_retry_count j)%Z &&
  when_some (jf_retry_count_max f) (λ x, job_retry_count j <=? x)%Z &&
  when_some (jf_remediation_hint f) (λ x, bool_decide (job_remediation_hint j = Some x)) &&
  match jf_exclude_remediation_hints f with
  | [] => true
  | hints => match job_remediation_hint j with None => true | Some h => negb (bool_decide (h ∈ hints)) end
  end &&
  (negb (jf_require_trace_id f) || match job_trace_id j with Some t => negb (bool_decide (t = "")) | None => false end).

Definition sort_key (sort : JobSort) (j : Job) : Z :=
  match sort with CREATED_AT => job_created_at j | DEAD_LETTERED_AT => default (job_created_at j) (job_completed_at j) end.

(** [ORDER BY key DESC, id DESC]. *)
Definition job_newer (sort : JobSort) (a b : Job) : Prop :=
  (sort_key sort b < sort_key sort a)%Z ∨ (sort_key sort a = sort_key sort b ∧ (job_id b ≤ job_id a)%N).
#[export] Instance job_newer_dec sort : RelDecision (job_newer sort).
Proof. intros a b. unfold job_newer. apply _. Defined.

(** One page and the true total. *)
Definition list_jobs (tenant : uuid) (offset limit : nat) (f : JobFilter) (sort : JobSort) (db : DB) : list Job * nat :=
  let rows := filter (λ j, job_matches tenant f j = true) (map_to_list (db_jobs db)).*2 in
  (take limit (drop offset (merge_sort (job_newer sort) rows)), length rows).

(** The dead-lettered jobs a replay tool asks for. *)
Definition dead_letters (job_type hint : option string) (exclude : list string) : JobFilter :=
  mkJobFilter None (Some (job_status_value DEAD_LETTER)) job_type None None None None None hint exclude false.

(** ** Actions *)

Section Actions.
Context `{SqlOrder, UuidSource, !Pydantic} (cfg : Settings).
(** [repr] of a float, the error lists of pydantic, and the texts and schemas that
    [tools/list] shows, by tool name. *)
Context (float_repr : Q → string) (validation_errors : string → dict → json) (doc : string → string) (schema : string → dict).

Definition validated {A} (model : string) (d : dict) (o : option A) : result json A :=
  match o with Some a => Ok a | None => Err (validation_errors model d) end.

Definition HUMAN_REQUIRED : string := "human_required".
Definition REPLAY_SAFE : string := "replay_safe".
Definition WAIT_AND_REPLAY : string := "wait_and_replay".

(** The request a service call of item [n] makes. *)
Definition item_request (ctx : ToolContext) (n : nat) (s : McpStore) : Request :=
  mkRequest (cx_now ctx n) (cx_time ctx n) (match cx_reach ctx n with Answered => Some (mc_redis s) | _ => None end) (cx_otel ctx) "".

Definition machine_caller (p : Principal) : Caller := mkCaller None (pn_kind p) (Some (pn_id p)).

(** [service.replay_job(...)] in the savepoint of item [n]. *)
Definition replay_item (ctx : ToolContext) (n : nat) (job : uuid) : McpStore → result exn Job * McpStore :=
  savepoint (λ s,
    if cx_fails ctx n then (Err ServiceError, s)
    else
      match replay_job cfg (item_request ctx n s) true job (pn_tenant_id (cx_principal ctx)) (machine_caller (cx_principal ctx)) (mc_db s) with
      | Ok (j, db, effects) => (Ok j, with_mcp_hooks (mc_hooks s ++ effects) (with_mcp_db db s))
      | Err e => (Err e, s)
      end).

(** *** _scheduled_replay.py *)

(** [schedule_one_audited] for item [n]: the row, then the armed entry, in one savepoint
    whose failure disarms. *)
Definition schedule_one_audited (ctx : ToolContext) (n : nat) (job : uuid) (delay : Z) (extra : dict) (s : McpStore) : result exn Q * McpStore :=
  let p := cx_principal ctx in
  let t := cx_time ctx n in
  let execute_at := (t + inject_Z delay)%Q in
  let row := [("delay_seconds", JInt delay); ("execute_at", JFloat (float_repr execute_at))] in
  match savepoint (λ s,
    if cx_fails ctx n then (Err ServiceError, s)
    else
      let db := audit_log (cx_now ctx n) "job.replay_scheduled" (pn_tenant_id p) (match pn_who p with inl u => Some (us_id u) | inr _ => None end)
                  (Some (pn_kind p)) (Some (pn_id p)) (Some job) (Some "job") (Some (uuid_str job))
                  (Some (foldl (λ d kv, dset d kv.1 kv.2) row extra)) (mc_db s) in
      let '(res, r) := redis_cmd (cx_reach ctx (2 * n)) (λ r, r' ← arm_replay t (pn_tenant_id p) (pn_id p) job execute_at r; Ok (tt, r')) (mc_redis s) in
      (res, with_mcp_redis r (with_mcp_db db s))) s with
  | (Ok _, s) => (Ok execute_at, s)
  | (Err e, s) =>
      if cx_fails ctx n then (Err e, s)
      else
        let '(_, r) := redis_cmd (cx_reach ctx (2 * n + 1)) (λ r, r' ← cancel_scheduled_replay t (pn_tenant_id p) (pn_id p) job r; Ok (tt, r')) (mc_redis s) in
        (Err e, with_mcp_redis r s)
  end.

(** *** replay_dlq_by_ids.py *)

Record ReplayDlqByIdsInput := mkByIds { bi_job_ids : list uuid; bi_delay_seconds : option Z }.

Definition uuid_list (lo hi : nat) (v : json) : option (list uuid) :=
  match v with
  | JList l => us ← mapM pyd_uuid l; if (lo <=? length us)%nat && (length us <=? hi)%nat then Some us else None
  | _ => None
  end.

Definition validate_by_ids (d : dict) : result json ReplayDlqByIdsInput :=
  validated "ReplayDlqByIdsInput" d
    (if only_fields ["job_ids"; "delay_seconds"; "idempotency_key"] d then
       ids ← required (uuid_list 1 50) (dget d "job_ids");
       delay ← nullable (int_between 1 3600) (dget d "delay_seconds");
       _ ← key_field d;
       Some (mkByIds ids delay)
     else None).

(** [_schedule_one]. *)
Definition schedule_one (ctx : ToolContext) (n : nat) (job : uuid) (delay : Z) (s : McpStore) : result exn Q * McpStore :=
  match get_for_tenant job (pn_tenant_id (cx_principal ctx)) (mc_db s) with
  | None => (Err (NotFoundError ("Job " +:+ uuid_str job +:+ " not found")), s)
  | Some j =>
      if negb (replayable (job_status j))
      then (Err (JobError ("Only failed/dead_letter jobs can be replayed, got: " +:+ job_status_value (job_status j))), s)
      else schedule_one_audited ctx n job delay [] s
  end.

(** What became of one id. *)
Inductive item_outcome : Type := ItemReplayed | ItemScheduled (execute_at : Q) | ItemFailed (e : exn).

Definition replay_result (job : uuid) (o : item_outcome) : json :=
  JObj [("id", juuid job); ("ok", JBool (match o with ItemFailed _ => false | _ => true end));
        ("error", match o with ItemFailed e => JStr (exn_message e) | _ => JNull end);
        ("scheduled", JBool (match o with ItemScheduled _ => true | _ => false end));
        ("execute_at", match o with ItemScheduled q => JFloat (float_repr q) | _ => JNull end)].

Definition replay_or_schedule (ctx : ToolContext) (delay : option Z) (n : nat) (job : uuid) (s : McpStore) : item_outcome * McpStore :=
  match delay with
  | None => match replay_item ctx n job s with (Ok _, s) => (ItemReplayed, s) | (Err e, s) => (ItemFailed e, s) end
  | Some delay => match schedule_one ctx n job delay s with (Ok q, s) => (ItemScheduled q, s) | (Err e, s) => (ItemFailed e, s) end
  end.

(** The loop over the items, numbered from [n]. *)
Fixpoint item_loop {A} (f : nat → A → McpStore → item_outcome * McpStore) (n : nat) (items : list A) (s : McpStore)
    : list (A * item_outcome) * McpStore :=
  match items with
  | [] => ([], s)
  | a :: items => let '(o, s) := f n a s in let '(os, s) := item_loop f (S n) items s in ((a, o) :: os, s)
  end.

Definition is_replayed (o : item_outcome) : bool := match o with ItemReplayed => true | _ => false end.
Definition is_scheduled (o : item_outcome) : bool := match o with ItemScheduled _ => true | _ => false end.
Definition is_failed (o : item_outcome) : bool := match o with ItemFailed _ => true | _ => false end.
Definition count_items {A} (f : item_outcome → bool) (os : list (A * item_outcome)) : Z :=
  Z.of_nat (length (filter (λ x, f x.2 = true) os)).

Definition replay_dlq_by_ids (inp : ReplayDlqByIdsInput) (ctx : ToolContext) (s : McpStore) : result exn dict * McpStore :=
  let '(os, s) := item_loop (replay_or_schedule ctx (bi_delay_seconds inp)) 0 (bi_job_ids inp) s in
  (Ok [("requested", JInt (Z.of_nat (length (bi_job_ids inp)))); ("replayed", JInt (count_items is_replayed os));
       ("scheduled", JInt (count_items is_scheduled os)); ("failed", JInt (count_items is_failed os));
       ("results", JList ((λ x, replay_result x.1 x.2) <$> os))], s).

(** *** replay_dlq_messages.py *)

Record ReplayDlqMessagesInput := mkMessages { ms_job_type : option string; ms_limit : Z; ms_include_human_required : bool }.

Definition validate_messages (d : dict) : result json ReplayDlqMessagesInput :=
  validated "ReplayDlqMessagesInput" d
    (if only_fields ["job_type"; "limit"; "include_human_required"; "idempotency_key"] d then
       t ← nullable plain_str (dget d "job_type");
       l ← defaulted 25%Z (int_between 1 200) (dget d "limit");
       h ← defaulted false pyd_bool (dget d "include_human_required");
       _ ← key_field d;
       Some (mkMessages t l h)
     else None).

Definition replayed_job (j : Job) : json := JObj [("id", juuid (job_id j)); ("type", JStr (job_type j))].

Definition replay_job_item (ctx : ToolContext) (n : nat) (j : Job) (s : McpStore) : item_outcome * McpStore :=
  match replay_item ctx n (job_id j) s with (Ok _, s) => (ItemReplayed, s) | (Err e, s) => (ItemFailed e, s) end.

Definition replay_dlq_messages (inp : ReplayDlqMessagesInput) (ctx : ToolContext) (s : McpStore) : result exn dict * McpStore :=
  let tenant := pn_tenant_id (cx_principal ctx) in
  let fenced := if ms_include_human_required inp then [] else [HUMAN_REQUIRED] in
  let limit := Z.to_nat (ms_limit inp) in
  let jobs := (list_jobs tenant 0 limit (dead_letters (ms_job_type inp) None fenced) CREATED_AT (mc_db s)).1 in
  let skipped := match fenced with
                 | [] => []
                 | _ => (list_jobs tenant 0 limit (dead_letters (ms_job_type inp) (Some HUMAN_REQUIRED) []) CREATED_AT (mc_db s)).1
                 end in
  let '(os, s) := item_loop (replay_job_item ctx) 0 jobs s in
  let replayed := filter (λ x, is_replayed x.2 = true) os in
  (Ok [("requested", JInt (Z.of_nat (length jobs))); ("replayed", JInt (Z.of_nat (length replayed))); ("failed", JInt (count_items is_failed os));
       ("jobs", JList ((λ x, replayed_job x.1) <$> replayed)); ("skipped_human_required", JInt (Z.of_nat (length skipped)));
       ("skipped_jobs", JList (replayed_job <$> skipped))], s).

(** *** replay_dlq_by_category.py *)

Record ReplayDlqByCategoryInput := mkByCategory {
  bc_category : string;
  bc_job_type : option string;
  bc_max_replays : Z;
  bc_delay_seconds : option Z
}.

Definition validate_by_category (d : dict) : result json ReplayDlqByCategoryInput :=
  validated "ReplayDlqByCategoryInput" d
    (if only_fields ["category"; "job_type"; "max_replays"; "delay_seconds"; "idempotency_key"] d then
       c ← required plain_str (dget d "category");
       t ← nullable plain_str (dget d "job_type");
       m ← defaulted 20%Z (int_between 1 100) (dget d "max_replays");
       delay ← nullable (int_between 1 3600) (dget d "delay_seconds");
       _ ← key_field d;
       Some (mkByCategory c t m delay)
     else None).

Definition replay_category_item (ctx : ToolContext) (category : string) (delay : option Z) (n : nat) (j : Job) (s : McpStore)
    : item_outcome * McpStore :=
  match delay with
  | None => replay_job_item ctx n j s
  | Some delay =>
      match schedule_one_audited ctx n (job_id j) delay [("category", JStr category)] s with
      | (Ok q, s) => (ItemScheduled q, s)
      | (Err e, s) => (ItemFailed e, s)
      end
  end.

Definition replay_dlq_by_category (inp : ReplayDlqByCategoryInput) (ctx : ToolContext) (s : McpStore) : result exn dict * McpStore :=
  if negb (bool_decide (bc_category inp ∈ [REPLAY_SAFE; WAIT_AND_REPLAY])) then
    (Err (ToolError 400 "dlq_category_refused"
            ("Category " +:+ repr_str (bc_category inp) +:+ " is not replayable. Allowed: " +:+
             py_repr (JList [JStr REPLAY_SAFE; JStr WAIT_AND_REPLAY]) +:+
             ". `human_required` entries must go through a human review path.")), s)
  else
    let jobs := (list_jobs (pn_tenant_id (cx_principal ctx)) 0 (Z.to_nat (bc_max_replays inp))
                   (dead_letters (bc_job_type inp) (Some (bc_category inp)) []) CREATED_AT (mc_db s)).1 in
    let '(os, s) := item_loop (replay_category_item ctx (bc_category inp) (bc_delay_seconds inp)) 0 jobs s in
    let ids f := juuid ∘ job_id ∘ fst <$> filter (λ x, f x.2 = true) os in
    let last_execute_at := last (omap (λ x, match x.2 with ItemScheduled q => Some q | _ => None end) os) in
    (Ok [("category", JStr (bc_category inp)); ("matched", JInt (Z.of_nat (length jobs))); ("replayed", JInt (count_items is_replayed os));
         ("scheduled", JInt (count_items is_scheduled os)); ("failed", JInt (count_items is_failed os));
         ("job_ids", JList (ids is_replayed ++ ids is_scheduled));
         ("execute_at", match last_execute_at with Some q => JFloat (float_repr q) | None => JNull end)], s).

(** *** mark_dlq_permanent.py *)

Record MarkDlqPermanentInput := mkMark { mk_job_id : uuid; mk_reason : string }.

Definition validate_mark (d : dict) : result json MarkDlqPermanentInput :=
  validated "MarkDlqPermanentInput" d
    (if only_fields ["job_id"; "reason"; "idempotency_key"] d then
       i ← required pyd_uuid (dget d "job_id");
       r ← required (str_between 8 1024) (dget d "reason");
       _ ← key_field d;
       Some (mkMark i r)
     else None).

Definition mark_dlq_permanent (inp : MarkDlqPermanentInput) (ctx : ToolContext) (s : McpStore) : result exn dict * McpStore :=
  let p := cx_principal ctx in
  match get_by_id (mk_job_id inp) (mc_db s) with
  | None => (Err (NotFoundError ("job not found: " +:+ uuid_str (mk_job_id inp))), s)
  | Some j =>
      if negb (bool_decide (job_tenant_id j = pn_tenant_id p)) then (Err (NotFoundError ("job not found: " +:+ uuid_str (mk_job_id inp))), s)
      else if negb (bool_decide (job_status j = DEAD_LETTER))
      then (Err (NotFoundError ("job " +:+ uuid_str (mk_job_id inp) +:+ " is not in dead_letter (status=" +:+ job_status_value (job_status j) +:+ ")")), s)
      else
        let already := bool_decide (job_remediation_hint j = Some HUMAN_REQUIRED) in
        let fenced_at := cx_now ctx 0%nat in
        let '(_, db) := update_job (cx_now ctx 1%nat) (job_id j) no_guard
                          [SetRemediationHint (Some HUMAN_REQUIRED); SetFencedAt (Some fenced_at);
                           SetFencedBy (Some (pn_kind p +:+ ":" +:+ uuid_str (pn_id p)))] (mc_db s) in
        let db := audit_log (cx_now ctx 1%nat) "job.marked_permanent" (job_tenant_id j) None (Some (pn_kind p)) (Some (pn_id p)) (Some (job_id j))
                    (Some "job") (Some (uuid_str (job_id j)))
                    (Some [("reason", JStr (mk_reason inp)); ("previous_hint", jstr_opt (job_remediation_hint j)); ("new_hint", JStr HUMAN_REQUIRED);
                           ("already_marked", JBool already); ("fenced_at", JStr (isoformat fenced_at))]) db in
        (Ok [("job_id", juuid (job_id j)); ("previous_hint", jstr_opt (job_remediation_hint j)); ("remediation_hint", JStr HUMAN_REQUIRED);
             ("already_marked", JBool already); ("fenced_at", JStr (pyd_datetime fenced_at))], with_mcp_db db s)
  end.

(** *** pause_dag.py and chaos/pause_dag_chaos.py *)

Record PauseDagInput := mkPauseDag { pd_root_job_id : uuid; pd_ttl_seconds : Z }.

Definition validate_pause_dag (d : dict) : result json PauseDagInput :=
  validated "PauseDagInput" d
    (if only_fields ["root_job_id"; "ttl_seconds"; "idempotency_key"] d then
       i ← required pyd_uuid (dget d "root_job_id");
       t ← defaulted 600%Z (int_between 1 3600) (dget d "ttl_seconds");
       _ ← key_field d;
       Some (mkPauseDag i t)
     else None).

Definition validate_pause_dag_chaos (d : dict) : result json PauseDagInput :=
  validated "PauseDagChaosInput" d
    (if only_fields ["root_job_id"; "ttl_seconds"] d then
       i ← required pyd_uuid (dget d "root_job_id");
       t ← defaulted 600%Z (int_between 1 3600) (dget d "ttl_seconds");
       Some (mkPauseDag i t)
     else None).

(** [SET key value EX ttl] as one command of the handler. *)
Definition redis_set (ctx : ToolContext) (n : nat) (k v : string) (ttl : Z) (s : McpStore) : result exn unit * McpStore :=
  let '(res, r) := redis_cmd (cx_reach ctx n) (λ r, Ok (tt, r_set (cx_time ctx n) k (RStr v) (Some (inject_Z ttl)) r)) (mc_redis s) in
  (res, with_mcp_redis r s).

(** [DELETE key]: whether it was there. *)
Definition redis_delete (ctx : ToolContext) (n : nat) (k : string) (s : McpStore) : result exn bool * McpStore :=
  let '(res, r) := redis_cmd (cx_reach ctx n) (λ r, Ok (bool_decide (is_Some (live (cx_time ctx n) r k)), r_del k r)) (mc_redis s) in
  (res, with_mcp_redis r s).

Definition pause_dag (inp : PauseDagInput) (ctx : ToolContext) (s : McpStore) : result exn dict * McpStore :=
  let missing := (Err (NotFoundError ("job not found: " +:+ uuid_str (pd_root_job_id inp))), s) in
  match get_by_id (pd_root_job_id inp) (mc_db s) with
  | None => missing
  | Some root =>
      if negb (bool_decide (job_tenant_id root = pn_tenant_id (cx_principal ctx))) then missing
      else
        let key := pause_key_for (pd_root_job_id inp) in
        match redis_set ctx 0 key "paused" (pd_ttl_seconds inp) s with
        | (Ok _, s) => (Ok [("root_job_id", juuid (pd_root_job_id inp)); ("pause_key", JStr key);
                            ("ttl_seconds", JInt (pd_ttl_seconds inp)); ("accepted", JBool true)], s)
        | (Err e, s) => (Err e, s)
        end
  end.

Definition pause_dag_chaos (inp : PauseDagInput) (ctx : ToolContext) (s : McpStore) : result exn dict * McpStore :=
  let missing := (Err (NotFoundError ("job not found: " +:+ uuid_str (pd_root_job_id inp))), s) in
  match get_by_id (pd_root_job_id inp) (mc_db s) with
  | None => missing
  | Some root =>
      if negb (bool_decide (job_tenant_id root = pn_tenant_id (cx_principal ctx))) then missing
      else
        let key := pause_key_for (pd_root_job_id inp) in
        match redis_set ctx 0 key "paused" (pd_ttl_seconds inp) s with
        | (Ok _, s) => (Ok [("root_job_id", juuid (pd_root_job_id inp)); ("pause_key", JStr key);
                            ("ttl_seconds", JInt (pd_ttl_seconds inp)); ("accepted", JBool true)], s)
        | (Err e, s) => (Err e, s)
        end
  end.

(** *** _cache_scope.py and invalidate_cache_key.py *)

Definition TENANT_SCOPED_PREFIXES : list string := ["cache:job:"].

(** [key[len(prefix):]] when the key starts with it. *)
Fixpoint after_prefix (prefix key : string) : option string :=
  match prefix, key with
  | "", _ => Some key
  | String a p, String b k => if bool_decide (a = b) then after_prefix p k else None
  | String _ _, "" => None
  end.

(** [s.split(":", 1)]: the head, and the rest when there is a colon. *)
Fixpoint split_once (s : string) : string * option string :=
  match s with
  | "" => ("", None)
  | String c s' => if bool_decide (c = ":"%char) then ("", Some s') else let '(a, b) := split_once s' in (String c a, b)
  end.

Definition tenant_segment (key : string) : option string :=
  head (omap (λ p, (λ rest, (split_once rest).1) <$> after_prefix p key) TENANT_SCOPED_PREFIXES).

Definition job_segment (key : string) : option string :=
  rest ← head (omap (λ p, after_prefix p key) TENANT_SCOPED_PREFIXES);
  match (split_once rest).2 with Some j => if bool_decide (j = "") then None else Some j | None => None end.

(** [assert_key_in_tenant], with the caller's own refusal. *)
Definition assert_key_in_tenant (key : string) (tenant : uuid) (refuse : string → exn) : result exn unit :=
  let refusal := refuse ("Key " +:+ repr_str key +:+ " is not scoped to a tenant this principal can reach.") in
  match tenant_segment key with
  | None => Ok tt
  | Some segment =>
      match uuid_parse segment with
      | None => Err refusal
      | Some supplied => if bool_decide (supplied = tenant) then Ok tt else Err refusal
      end
  end.

Definition ALLOWED_PREFIXES : list string := ["cache:"; "jobs:cache:"; "kafka:consumer_lag:"; "read_model:"].

Definition validate_invalidate (d : dict) : result json string :=
  validated "InvalidateCacheKeyInput" d
    (if only_fields ["key"; "idempotency_key"] d then k ← required (str_between 1 512) (dget d "key"); _ ← key_field d; Some k else None).

Definition InvalidateCacheKeyError (m : string) : exn := ToolError 400 "cache_key_forbidden" m.

Definition invalidate_cache_key (key : string) (ctx : ToolContext) (s : McpStore) : result exn dict * McpStore :=
  if negb (existsb (λ p, String.prefix p key) ALLOWED_PREFIXES) then
    (Err (InvalidateCacheKeyError ("Key " +:+ repr_str key +:+ " is not under an allowlisted prefix. Allowed: " +:+
                                   py_repr (JList (JStr <$> ALLOWED_PREFIXES)))), s)
  else
    match assert_key_in_tenant key (pn_tenant_id (cx_principal ctx)) InvalidateCacheKeyError with
    | Err e => (Err e, s)
    | Ok _ =>
        match redis_delete ctx 0 key s with
        | (Ok deleted, s) => (Ok [("key", JStr key); ("deleted", JBool deleted)], s)
        | (Err e, s) => (Err e, s)
        end
    end.

(** *** restart_consumer_group.py and chaos/kill_consumer.py *)

(** [_known_groups]: the groups of the settings and the ones [get_consumer_lag] names. *)
Context (known_groups : list string).

Definition validate_restart (d : dict) : result json string :=
  validated "RestartConsumerGroupInput" d
    (if only_fields ["consumer_group"; "idempotency_key"] d then g ← required (str_between 1 128) (dget d "consumer_group"); _ ← key_field d; Some g
     else None).

Definition restart_consumer_group (group : string) (ctx : ToolContext) (s : McpStore) : result exn dict * McpStore :=
  match redis_delete ctx 0 (Kill.kill_key_for group) s with
  | (Err e, s) => (Err e, s)
  | (Ok kill_cleared, s) =>
      match redis_delete ctx 1 (Kill.latency_key_for group) s with
      | (Err e, s) => (Err e, s)
      | (Ok latency_cleared, s) =>
          (Ok [("consumer_group", JStr group); ("kill_key_cleared", JBool kill_cleared); ("latency_key_cleared", JBool latency_cleared);
               ("group_recognized", JBool (bool_decide (group ∈ known_groups))); ("accepted", JBool true)], s)
      end
  end.

Record KillConsumerInput := mkKill { kc_consumer_group : string; kc_ttl_seconds : Z; kc_sticky : bool }.

Definition validate_kill (d : dict) : result json KillConsumerInput :=
  validated "KillConsumerInput" d
    (if only_fields ["consumer_group"; "ttl_seconds"; "sticky"] d then
       g ← required (str_between 1 128) (dget d "consumer_group");
       t ← defaulted 300%Z (int_between 1 3600) (dget d "ttl_seconds");
       b ← defaulted false pyd_bool (dget d "sticky");
       Some (mkKill g t b)
     else None).

(** [f"{x:.3f}"] of a time in microseconds: whole milliseconds, ties to even. *)
Definition fixed3 (us : Z) : string :=
  let ms := py_round (Qmake us 1000) in
  show_Z (ms / 1000) +:+ "." +:+
  (let f := (ms mod 1000)%Z in (if (f <? 100)%Z then "0" else "") +:+ (if (f <? 10)%Z then "0" else "") +:+ show_Z f).

Definition kill_consumer (inp : KillConsumerInput) (ctx : ToolContext) (s : McpStore) : result exn dict * McpStore :=
  let group := kc_consumer_group inp in
  let key := Kill.kill_key_for group in
  let expires_at := (cx_now ctx 0%nat + kc_ttl_seconds inp * 1000000)%Z in
  let reply sticky_key := [("consumer_group", JStr group); ("kill_key", JStr key); ("ttl_seconds", JInt (kc_ttl_seconds inp));
                           ("sticky", JBool (kc_sticky inp)); ("sticky_key", jstr_opt sticky_key);
                           ("expires_at", JStr (pyd_datetime expires_at)); ("accepted", JBool true)] in
  match redis_set ctx 0 key Kill.KILL_FLAG_VALUE (kc_ttl_seconds inp) s with
  | (Err e, s) => (Err e, s)
  | (Ok _, s) =>
      if kc_sticky inp then
        let sticky_key := Kill.sticky_kill_key_for group in
        match redis_set ctx 1 sticky_key (fixed3 expires_at) (kc_ttl_seconds inp) s with
        | (Err e, s) => (Err e, s)
        | (Ok _, s) => (Ok (reply (Some sticky_key)), s)
        end
      else (Ok (reply None), s)
  end.

End Actions.
