(* ===== verification/McpReads.v ===== *)
(** * The read tools of the MCP server (mcp/tools/list_dlq_messages.py, dag_state.py,
      list_audit_events.py, cache_key_info.py) and the registry of
      the modelled tools *)
From stdpp Require Import base tactics numbers option list gmap strings sorting.
From Stdlib Require Import ZArith QArith Ascii.
From S2P Require Import Prelude PyData Codec Models Database JobRepo Redis DagPause JobService ControlLoops Accounts Auth EventLog McpServer McpActions.

Section Reads.
Context `{SqlOrder, UuidSource, !Pydantic, !PyCodec} (cfg : Settings).
Context (float_repr : Q → string) (validation_errors : string → dict → json) (doc : string → string) (schema : string → dict).
Context (known_groups : list string).
(** The key and the correlation id of the n-th audit row, and the triage row of a job. *)
Context (audit_id : nat → uuid) (audit_request_id : nat → option string) (triage_of : uuid → option dict).

Definition audit_table (db : DB) : list StoredAudit := imap (λ n r, mkStoredAudit (audit_id n) (audit_request_id n) r) (db_audit db).

(** ** list_audit_events.py *)

Record ListAuditEventsInput := mkAuditEvents {
  le_action : option string;
  le_action_prefix : option string;
  le_principal_type : option string;
  le_limit : Z
}.

Definition principal_type_field (v : json) : option string :=
  match v with JStr s => if bool_decide (s ∈ ["user"; "service_account"]) then Some s else None | _ => None end.

Definition validate_audit_events (d : dict) : result json ListAuditEventsInput :=
  validated validation_errors "ListAuditEventsInput" d
    (if only_fields ["action"; "action_prefix"; "principal_type"; "limit"] d then
       a ← nullable plain_str (dget d "action");
       p ← nullable plain_str (dget d "action_prefix");
       t ← nullable principal_type_field (dget d "principal_type");
       l ← defaulted 50%Z (int_between 1 200) (dget d "limit");
       Some (mkAuditEvents a p t l)
     else None).

Definition audit_event_entry (x : StoredAudit) : json :=
  let r := sa_row x in
  JObj [("id", juuid (sa_id x)); ("action", JStr (audit_action r)); ("principal_type", JStr (audit_principal_type r));
        ("principal_id", match audit_principal_id r with Some i => juuid i | None => JNull end);
        ("resource_type", jstr_opt (audit_resource_type r)); ("resource_id", jstr_opt (audit_resource_id r));
        ("request_id", jstr_opt (sa_request_id x)); ("created_at", JStr (pyd_datetime (audit_created_at r)));
        ("extra_data", match audit_extra_data r with Some d => JObj d | None => JNull end)].

Definition audit_filter (inp : ListAuditEventsInput) (p : Principal) : AuditFilter :=
  mkAuditFilter None None (le_action inp) (match le_action inp with None => le_action_prefix inp | Some _ => None end) []
    (hidden_audit_action_prefixes p) (le_principal_type inp) (Some (pn_tenant_id p)) None.

Definition list_audit_events (inp : ListAuditEventsInput) (ctx : ToolContext) (s : McpStore) : result exn dict * McpStore :=
  let '(rows, total) := list_logs 0 (Z.to_nat (le_limit inp)) (audit_filter inp (cx_principal ctx)) (audit_table (mc_db s)) in
  (Ok [("total", JInt (Z.of_nat total)); ("events", JList (audit_event_entry <$> rows))], s).

(** ** list_dlq_messages.py *)

Record ListDlqMessagesInput := mkListDlq {
  ld_job_type : option string;
  ld_remediation_hint : option string;
  ld_limit : Z;
  ld_offset : Z
}.

Definition validate_list_dlq (d : dict) : result json ListDlqMessagesInput :=
  validated validation_errors "ListDlqMessagesInput" d
    (if only_fields ["job_type"; "remediation_hint"; "limit"; "offset"] d then
       t ← nullable plain_str (dget d "job_type");
       h ← nullable plain_str (dget d "remediation_hint");
       l ← defaulted 50%Z (int_between 1 200) (dget d "limit");
       o ← defaulted 0%Z (λ v, z ← pyd_int v; if (0 <=? z)%Z then Some z else None) (dget d "offset");
       Some (mkListDlq t h l o)
     else None).

Definition jdatetime_opt (o : option Z) : json := match o with Some t => JStr (pyd_datetime t) | None => JNull end.

Definition dlq_entry (j : Job) : json :=
  JObj [("id", juuid (job_id j)); ("type", JStr (job_type j)); ("error_message", jstr_opt (job_error_message j));
        ("retry_count", JInt (job_retry_count j)); ("remediation_hint", jstr_opt (job_remediation_hint j));
        ("created_at", JStr (pyd_datetime (job_created_at j))); ("dead_lettered_at", jdatetime_opt (job_completed_at j));
        ("fenced_at", jdatetime_opt (job_fenced_at j)); ("fenced_by", jstr_opt (job_fenced_by j));
        ("updated_at", JStr (pyd_datetime (job_updated_at j))); ("trace_id", jstr_opt (job_trace_id j));
        ("triage", match triage_of (job_id j) with Some d => JObj d | None => JNull end); ("extra", JNull)].

Definition list_dlq_messages (inp : ListDlqMessagesInput) (ctx : ToolContext) (s : McpStore) : result exn dict * McpStore :=
  let '(jobs, total) := list_jobs (pn_tenant_id (cx_principal ctx)) (Z.to_nat (ld_offset inp)) (Z.to_nat (ld_limit inp))
                          (dead_letters (ld_job_type inp) (ld_remediation_hint inp) []) DEAD_LETTERED_AT (mc_db s) in
  (Ok [("total", JInt (Z.of_nat total)); ("items", JList (dlq_entry <$> jobs))], s).

(** ** dag_state.py *)

Definition validate_dag_state (d : dict) : result json uuid :=
  validated validation_errors "GetDagStateInput" d (if only_fields ["job_id"] d then required pyd_uuid (dget d "job_id") else None).

Definition dag_node (j : Job) : json :=
  JObj [("id", juuid (job_id j)); ("type", JStr (job_type j)); ("status", JStr (job_status_value (job_status j)));
        ("retry_count", JInt (job_retry_count j)); ("created_at", JStr (pyd_datetime (job_created_at j)))].

(** [_load]: another tenant's row is skipped. *)
Definition load_node (tenant : uuid) (db : DB) (nodes : dict) (i : uuid) : dict :=
  match get_by_id i db with
  | Some j => if bool_decide (job_tenant_id j = tenant) then dset nodes (uuid_str (job_id j)) (dag_node j) else nodes
  | None => nodes
  end.

Definition dag_edge (from to : uuid) : json := JObj [("from_id", juuid from); ("to_id", juuid to)].

Definition get_dag_state (i : uuid) (ctx : ToolContext) (s : McpStore) : result exn dict * McpStore :=
  let tenant := pn_tenant_id (cx_principal ctx) in
  let db := mc_db s in
  let missing := (Err (NotFoundError ("job not found: " +:+ uuid_str i)), s) in
  match get_by_id i db with
  | None => missing
  | Some seed =>
      if negb (bool_decide (job_tenant_id seed = tenant)) then missing
      else
        let parents := dep_parents (job_id seed) db in
        let children := dep_children_of (job_id seed) db in
        let nodes := foldl (load_node tenant db) [] (job_id seed :: parents ++ children) in
        let redis n := match cx_reach ctx n with Answered => Some (mc_redis s) | _ => None end in
        let '(paused, expires) := pause_state (cx_time ctx 0%nat) (redis 0%nat) (job_id seed) in
        let blocking := find_blocking_pause (cx_time ctx 1%nat) (redis 1%nat) db (job_id seed) in
        (Ok [("seed_id", juuid (job_id seed)); ("nodes", JList nodes.*2);
             ("edges", JList ((dag_edge (job_id seed) <$> parents) ++ ((λ c, dag_edge c (job_id seed)) <$> children)));
             ("paused", JBool paused);
             ("paused_expires_in_seconds", match expires with Some q => JInt (Qround.Qfloor (q + (1 # 2))) | None => JNull end);
             ("paused_by", match blocking with Some b => juuid b | None => JNull end)], s)
  end.

(** ** cache_key_info.py *)

Definition READABLE_PREFIXES : list string := ["cache:"; "jobs:cache:"; "kafka:consumer_lag:"; "read_model:"].
Definition MAX_REFERENCES_CHECKED : nat := 500.
Definition CacheKeyInfoError (m : string) : exn := ToolError 400 "cache_key_forbidden" m.

Definition validate_key_info (d : dict) : result json string :=
  validated validation_errors "GetCacheKeyInfoInput" d (if only_fields ["key"] d then required (str_between 1 512) (dget d "key") else None).

(** [TYPE] and the size command of a value. *)
Definition redis_type (v : rval) : string := match v with RStr _ | RInt _ => "string" | RZset _ => "zset" | RSet _ => "set" end.
Definition redis_size (v : rval) : Z :=
  match v with
  | RStr x => Z.of_nat (String.length x)
  | RInt z => Z.of_nat (String.length (show_Z z))
  | RZset m => Z.of_nat (size m)
  | RSet m => Z.of_nat (size m)
  end.

(** One command that only reads: its answer, or the raise of a connection that failed. *)
Definition redis_read {A} (ctx : ToolContext) (n : nat) (f : Q → Redis → A) (s : McpStore) : result exn A :=
  match cx_reach ctx n with Answered => Ok (f (cx_time ctx n) (mc_redis s)) | _ => Err ServiceError end.

(** [_referenced_names]: what the entry says it is a copy of. *)
Definition referenced_names (ctx : ToolContext) (key type_name : string) (s : McpStore) : result exn (option (list string)) :=
  match job_segment key with
  | Some j => Ok (Some [j])
  | None =>
      if negb (bool_decide (type_name = "string")) then Ok None
      else
        raw ← redis_read ctx 3 (λ t r, r_get t key r) s;
        raw ← raw;
        Ok match raw with
           | Some (RStr raw) =>
               match json_loads raw with
               | Some (JList l) =>
                   if (MAX_REFERENCES_CHECKED <? length l)%nat then None
                   else mapM (λ v, match v with JStr x => Some x | _ => None end) l
               | _ => None
               end
           | _ => None
           end
  end.

(** [existing_ids_for_tenant]. *)
Definition job_exists (tenant : uuid) (db : DB) (i : uuid) : bool :=
  match get_by_id i db with Some j => bool_decide (job_tenant_id j = tenant) | None => false end.

(** [resolve_record_references]; a failing query leaves both halves unknown. *)
Definition resolve_record_references (ctx : ToolContext) (key type_name : string) (s : McpStore) : result exn (option (Z * Z)) * McpStore :=
  match referenced_names ctx key type_name s with
  | Err e => (Err e, s)
  | Ok None => (Ok None, s)
  | Ok (Some names) =>
      match savepoint (λ s, if cx_fails ctx 0%nat then (Err ServiceError, s)
                            else (Ok (filter (λ i, job_exists (pn_tenant_id (cx_principal ctx)) (mc_db s) i = true) (omap uuid_parse names)), s)) s with
      | (Ok present, s) => (Ok (Some (Z.of_nat (length names), Z.of_nat (length present))), s)
      | (Err _, s) => (Ok None, s)
      end
  end.

Definition key_info_reply (key : string) (exists_ : bool) (type_ ttl size_ : json) (refs : option (Z * Z)) : dict :=
  [("key", JStr key); ("exists", JBool exists_); ("type", type_); ("ttl_seconds", ttl); ("size", size_);
   ("records_referenced", match refs with Some (a, _) => JInt a | None => JNull end);
   ("records_found", match refs with Some (_, b) => JInt b | None => JNull end)].

(** The refusals, then [TYPE], [TTL] and the size of the key. *)
Definition probe_key (key : string) (ctx : ToolContext) (s : McpStore) : result exn (option (string * Z * Z)) :=
  if negb (existsb (λ p, String.prefix p key) READABLE_PREFIXES) then
    Err (CacheKeyInfoError ("Key " +:+ repr_str key +:+ " is not under a readable namespace. Allowed: " +:+
                            py_repr (JList (JStr <$> READABLE_PREFIXES))))
  else
    _ ← assert_key_in_tenant key (pn_tenant_id (cx_principal ctx)) CacheKeyInfoError;
    e ← redis_read ctx 0 (λ t r, live t r key) s;
    match e with
    | None => Ok None
    | Some e =>
        ttl ← redis_read ctx 1 (λ t r, r_ttl t key r) s;
        size_ ← redis_read ctx 2 (λ t r, match live t r key with Some e => redis_size (e_val e) | None => 0%Z end) s;
        Ok (Some (redis_type (e_val e), ttl, size_))
    end.

Definition get_cache_key_info (key : string) (ctx : ToolContext) (s : McpStore) : result exn dict * McpStore :=
  match probe_key key ctx s with
  | Err e => (Err e, s)
  | Ok None => (Ok (key_info_reply key false JNull JNull JNull None), s)
  | Ok (Some (type_name, ttl, size_)) =>
      match resolve_record_references ctx key type_name s with
      | (Err e, s) => (Err e, s)
      | (Ok refs, s) => (Ok (key_info_reply key true (JStr type_name) (if (0 <=? ttl)%Z then JInt ttl else JNull) (JInt size_) refs), s)
      end
  end.

(** ** The registry of the modelled tools *)

Definition tool_spec {A} (name : string) (validate : dict → result json A) (h : A → ToolContext → McpStore → result exn dict * McpStore) : ToolSpec :=
  mkSpec name (doc name) A validate (schema (name +:+ ".input")) (schema (name +:+ ".output")) h.

Definition modelled_tools : list tool_decl :=
  [PlainTool (tool_spec "replay_dlq_by_ids" (validate_by_ids validation_errors) (replay_dlq_by_ids cfg float_repr)) (Some ACTIONS_EXECUTE) true;
   PlainTool (tool_spec "replay_dlq_messages" (validate_messages validation_errors) (replay_dlq_messages cfg)) (Some ACTIONS_EXECUTE) true;
   PlainTool (tool_spec "replay_dlq_by_category" (validate_by_category validation_errors) (replay_dlq_by_category cfg float_repr)) (Some ACTIONS_EXECUTE) true;
   PlainTool (tool_spec "mark_dlq_permanent" (validate_mark validation_errors) mark_dlq_permanent) (Some ACTIONS_EXECUTE) true;
   PlainTool (tool_spec "pause_dag" (validate_pause_dag validation_errors) pause_dag) (Some ACTIONS_EXECUTE) true;
   PlainTool (tool_spec "invalidate_cache_key" (validate_invalidate validation_errors) invalidate_cache_key) (Some ACTIONS_EXECUTE) true;
   PlainTool (tool_spec "restart_consumer_group" (validate_restart validation_errors) (restart_consumer_group known_groups)) (Some ACTIONS_EXECUTE) true;
   PlainTool (tool_spec "list_dlq_messages" validate_list_dlq list_dlq_messages) (Some INCIDENTS_READ) false;
   PlainTool (tool_spec "get_dag_state" validate_dag_state get_dag_state) (Some INCIDENTS_READ) false;
   PlainTool (tool_spec "list_audit_events" validate_audit_events list_audit_events) (Some INCIDENTS_READ) false;
   PlainTool (tool_spec "get_cache_key_info" validate_key_info get_cache_key_info) (Some TELEMETRY_READ) false;
   ChaosTool SINGLE_CONSUMER (tool_spec "kill_consumer" (validate_kill validation_errors) kill_consumer);
   ChaosTool ENVIRONMENT_WIDE (tool_spec "pause_dag_chaos" (validate_pause_dag_chaos validation_errors) pause_dag_chaos)].
End Reads.
