(* ===== verification/McpActionsProps.v ===== *)
(** * Theorems about the tools of the MCP server

    The replay tools touch only dead jobs of the caller's tenant, and the blind ones never
    a fenced job; a batch is the sequence of its items, each in a transaction of its own;
    an armed replay is audited; no cache key of another tenant is read or deleted; a pause
    holds replays back; and the audit log an agent reads does not depend on the rows
    withheld from it. *)
From stdpp Require Import base tactics numbers option list gmap strings sorting.
From Stdlib Require Import ZArith QArith Ascii Lia.
From S2P Require Import Prelude PyData Codec Models Database JobEvents JobRepo Cascade Redis Queue DagPause JobService Dispatcher Supervision EventLog Idempotency IdempotencyProps Cache OpsInv Fixtures Accounts Auth AuthProps McpServer McpServerProps McpActions McpReads.

(** ** Batches *)

Lemma item_loop_ind {A} (f : nat → A → McpStore → item_outcome * McpStore) (R : McpStore → Prop) items n s :
  R s → (∀ n a s, a ∈ items → R s → R (f n a s).2) → R (item_loop f n items s).2.
Proof.
  revert n s. induction items as [|a items IH]; intros n s Hs Hf; [done|]. cbn.
  pose proof (Hf n a s ltac:(by left) Hs) as H1. destruct (f n a s) as [o s1]. cbn in H1.
  specialize (IH (S n) s1 H1 ltac:(intros; apply Hf; [by right|done])). by destruct (item_loop f (S n) items s1).
Qed.

Lemma item_loop_fst {A} (f : nat → A → McpStore → item_outcome * McpStore) items n s : (item_loop f n items s).1.*1 = items.
Proof.
  revert n s. induction items as [|a items IH]; intros n s; [done|]. cbn. destruct (f n a s) as [o s1].
  specialize (IH (S n) s1). destruct (item_loop f (S n) items s1) as [os s2]. cbn in *. by rewrite IH.
Qed.

(** Every item ends in exactly one of the three ways. *)
Lemma count_items_sum {A} (os : list (A * item_outcome)) :
  (count_items is_replayed os + count_items is_scheduled os + count_items is_failed os = Z.of_nat (length os))%Z.
Proof.
  unfold count_items. induction os as [|[a o] os IH]; [done|]. cbn [length]. rewrite !filter_cons.
  destruct o; cbn [snd is_replayed is_scheduled is_failed]; repeat case_decide; try done; cbn [length]; lia.
Qed.

Section Props.
Context `{SqlOrder, UuidSource, !Pydantic} (cfg : Settings) (float_repr : Q → string).

(** What a successful replay needs and does. *)
Lemma replay_job_inv rq b i tenant who db j' db' fx :
  replay_job cfg rq b i tenant who db = Ok (j', db', fx) →
  ∃ j, db_jobs db !! i = Some j ∧ job_tenant_id j = tenant ∧ replayable (job_status j) = true ∧
    (b = true → find_blocking_pause (rq_time rq) (rq_redis rq) db i = None) ∧
    db_jobs db' = <[i := j']> (db_jobs db) ∧ db_deps db' = db_deps db ∧ fx = [PostCommitInvalidate i tenant] ∧
    ∃ r, db_audit db' = db_audit db ++ [r] ∧ audit_resource_type r = Some "job".
Proof.
  unfold replay_job. intros Hr. destruct (get_for_tenant i tenant db) as [j|] eqn:Eg; [|done].
  apply get_for_tenant_some in Eg as [Ej Ht]. destruct (replayable (job_status j)) eqn:Er; [|done]. cbn [negb] in Hr.
  destruct (if b then find_blocking_pause _ _ db i else None) as [n|] eqn:Ep; [done|].
  unfold update_status, update_job in Hr. rewrite Ej in Hr. cbn [no_guard default bool_decide negb andb] in Hr.
  unfold get_by_id in Hr. cbn [with_jobs db_jobs] in Hr. rewrite lookup_insert_eq in Hr. cbn [emits_terminal_event cascade_source] in Hr.
  injection Hr as <- <- <-. exists j. split; [done|]. split; [done|]. split; [done|]. split; [by intros ->|].
  split; [done|]. split; [done|]. split; [done|]. eexists. split; reflexivity.
Qed.

(** One item: what it writes, or nothing at all. *)
Lemma replay_item_cases ctx n i s :
  let out := replay_item cfg ctx n i s in
  match out.1 with
  | Ok j' =>
      ∃ j, db_jobs (mc_db s) !! i = Some j ∧ job_tenant_id j = pn_tenant_id (cx_principal ctx) ∧ replayable (job_status j) = true ∧
        db_jobs (mc_db out.2) = <[i := j']> (db_jobs (mc_db s)) ∧ mc_redis out.2 = mc_redis s ∧
        mc_hooks out.2 = mc_hooks s ++ [PostCommitInvalidate i (pn_tenant_id (cx_principal ctx))] ∧ mcp_rows (mc_db out.2) = mcp_rows (mc_db s)
  | Err _ => out.2 = with_mcp_hooks [] s
  end.
Proof.
  unfold replay_item, savepoint. destruct (cx_fails ctx n); [by destruct s as [[] ? ? ?]|].
  destruct (replay_job cfg _ true i _ _ (mc_db s)) as [[[j' db'] fx]|e] eqn:Er; [|by destruct s as [[] ? ? ?]].
  apply replay_job_inv in Er as (j & Hj & Ht & Hs & _ & Hjobs & _ & -> & r & Ha & Hrt). cbn [fst snd]. exists j. split_and!; try done.
  unfold mcp_rows. cbn [with_mcp_hooks with_mcp_db mc_db mc_auth with_auth_db au_db]. rewrite Ha, filter_app, filter_cons_False.
  - by rewrite filter_nil, app_nil_r.
  - by rewrite Hrt.
Qed.

(** Arming one replay never touches a job. *)
Lemma schedule_one_audited_jobs ctx n i delay extra s :
  let s' := (schedule_one_audited float_repr ctx n i delay extra s).2 in
  db_jobs (mc_db s') = db_jobs (mc_db s) ∧ mcp_rows (mc_db s') = mcp_rows (mc_db s).
Proof.
  unfold schedule_one_audited, savepoint. destruct (cx_fails ctx n); [done|].
  destruct (redis_cmd (cx_reach ctx (2 * n)) _ _) as [[[]|e] r].
  - cbn [snd]. split; [done|]. unfold mcp_rows. cbn [mc_db mc_auth with_mcp_redis with_mcp_db with_auth_db with_auth_redis au_db]. unfold audit_log.
    cbn [with_audit db_audit]. by rewrite filter_app, filter_cons_False, filter_nil, app_nil_r.
  - by destruct (redis_cmd (cx_reach ctx (2 * n + 1)) _ _).
Qed.

Lemma schedule_one_jobs ctx n i delay s :
  let s' := (schedule_one float_repr ctx n i delay s).2 in
  db_jobs (mc_db s') = db_jobs (mc_db s) ∧ mcp_rows (mc_db s') = mcp_rows (mc_db s).
Proof.
  unfold schedule_one. destruct (get_for_tenant _ _ _); [|done]. destruct (negb _); [done|]. apply schedule_one_audited_jobs.
Qed.

(** A job the item cannot be: another one, another tenant's, or one that is not dead. *)
Definition out_of_reach (ctx : ToolContext) (j : Job) : Prop :=
  job_tenant_id j ≠ pn_tenant_id (cx_principal ctx) ∨ replayable (job_status j) = false.

Lemma replay_item_keeps ctx n i s k j :
  db_jobs (mc_db s) !! k = Some j → k ≠ i ∨ out_of_reach ctx j → db_jobs (mc_db (replay_item cfg ctx n i s).2) !! k = Some j.
Proof.
  intros Hk Hor. pose proof (replay_item_cases ctx n i s) as Hc. destruct (replay_item cfg ctx n i s) as [[j'|e] s']; cbn [fst snd] in *.
  - destruct Hc as (x & Hx & Ht & Hs & -> & _). destruct (decide (k = i)) as [->|Hne]; [|by rewrite lookup_insert_ne].
    exfalso. rewrite Hx in Hk. simplify_eq. destruct Hor as [Hn|[Hn|Hn]]; congruence.
  - by rewrite Hc.
Qed.

Lemma replay_job_item_keeps ctx n x s k j :
  db_jobs (mc_db s) !! k = Some j → k ≠ job_id x ∨ out_of_reach ctx j → db_jobs (mc_db (replay_job_item cfg ctx n x s).2) !! k = Some j.
Proof.
  intros Hk Hor. pose proof (replay_item_keeps ctx n (job_id x) s k j Hk Hor) as Hc. unfold replay_job_item.
  by destruct (replay_item cfg ctx n (job_id x) s) as [[j'|e] s'].
Qed.

(** The page a replay tool asks for: the rows of the table that match. *)
Lemma list_jobs_elem tenant off lim f sort db j :
  keys_ok db → j ∈ (list_jobs tenant off lim f sort db).1 → db_jobs db !! job_id j = Some j ∧ job_matches tenant f j = true.
Proof.
  intros Hk Hj. unfold list_jobs in Hj. cbn [fst] in Hj.
  assert (Hin : j ∈ merge_sort (job_newer sort) (filter (λ j, job_matches tenant f j = true) (map_to_list (db_jobs db)).*2)).
  { set (l := merge_sort _ _) in *. rewrite <- (take_drop off l). apply elem_of_app. right.
    rewrite <- (take_drop lim (drop off l)). apply elem_of_app. by left. }
  rewrite merge_sort_Permutation in Hin. apply list_elem_of_filter in Hin as [Hm Hin].
  apply list_elem_of_fmap in Hin as ([k x] & -> & Hin). apply elem_of_map_to_list in Hin. cbn in *. by rewrite (Hk _ _ Hin).
Qed.

Lemma matches_dead_letter tenant t h ex j :
  job_matches tenant (dead_letters t h ex) j = true →
  job_tenant_id j = tenant ∧ replayable (job_status j) = true ∧ (∀ c, h = Some c → job_remediation_hint j = Some c) ∧
  (∀ c, c ∈ ex → job_remediation_hint j ≠ Some c).
Proof.
  unfold job_matches, dead_letters. cbn [jf_user_id jf_status jf_job_type jf_trace_id jf_created_after jf_created_before jf_retry_count_min
    jf_retry_count_max jf_remediation_hint jf_exclude_remediation_hints jf_require_trace_id when_some]. rewrite !andb_true_iff.
  intros (((((((((([M1 _] & M2) & _) & _) & _) & _) & _) & _) & M3) & M4) & _).
  apply bool_decide_eq_true_1 in M1, M2. split_and!.
  - done.
  - by destruct (job_status j).
  - intros c ->. by apply bool_decide_eq_true_1 in M3.
  - intros c Hc Hh. rewrite Hh in M4. destruct ex as [|x ex]; [by apply not_elem_of_nil in Hc|].
    by rewrite bool_decide_true in M4.
Qed.

Section Confined.
Context (ctx : ToolContext) (s : McpStore) (k : uuid) (j : Job) (Hkeys : keys_ok (mc_db s)) (Hk : db_jobs (mc_db s) !! k = Some j).

Lemma by_ids_keeps inp :
  out_of_reach ctx j ∨ k ∉ bi_job_ids inp → db_jobs (mc_db (replay_dlq_by_ids cfg float_repr inp ctx s).2) !! k = Some j.
Proof.
  intros Hor. unfold replay_dlq_by_ids.
  pose proof (item_loop_ind (replay_or_schedule cfg float_repr ctx (bi_delay_seconds inp)) (λ s, db_jobs (mc_db s) !! k = Some j)
                (bi_job_ids inp) 0 s Hk) as Hl.
  destruct (item_loop _ 0 (bi_job_ids inp) s) as [os s']. apply Hl. clear Hl. intros n i s1 Hi Hs1. unfold replay_or_schedule.
  destruct (bi_delay_seconds inp) as [delay|].
  - destruct (schedule_one_jobs ctx n i delay s1) as [Hj _]. destruct (schedule_one float_repr ctx n i delay s1) as [[q|e] s2]; cbn [snd] in *; by rewrite Hj.
  - assert (Hor' : k ≠ i ∨ out_of_reach ctx j) by (destruct Hor; [by right|left; congruence]).
    pose proof (replay_item_keeps ctx n i s1 k j Hs1 Hor') as Hc. by destruct (replay_item cfg ctx n i s1) as [[j'|e] s2].
Qed.

(** The loop over a page of dead jobs none of which is [j]. *)
Lemma page_keeps (f : nat → Job → McpStore → item_outcome * McpStore) jobs :
  (∀ x, x ∈ jobs → job_id x = k → out_of_reach ctx j) →
  (∀ n x s1, x ∈ jobs → db_jobs (mc_db s1) !! k = Some j → k ≠ job_id x ∨ out_of_reach ctx j → db_jobs (mc_db (f n x s1).2) !! k = Some j) →
  db_jobs (mc_db (item_loop f 0 jobs s).2) !! k = Some j.
Proof.
  intros Hnot Hf. apply item_loop_ind; [done|]. intros n x s1 Hx Hs1. apply Hf; [done|done|].
  destruct (decide (job_id x = k)) as [E|]; [right; by apply (Hnot x)|left; congruence].
Qed.

(** A job that matches no page is on none. *)
Lemma page_misses t h ex lim x :
  out_of_reach ctx j ∨ (∃ c, h = Some c ∧ job_remediation_hint j ≠ Some c) ∨ (∃ c, c ∈ ex ∧ job_remediation_hint j = Some c) →
  x ∈ (list_jobs (pn_tenant_id (cx_principal ctx)) 0 lim (dead_letters t h ex) CREATED_AT (mc_db s)).1 → job_id x = k → out_of_reach ctx j.
Proof.
  intros Hor Hx E. apply list_jobs_elem in Hx as [Hrow Hm]; [|done]. rewrite E, Hk in Hrow. injection Hrow as <-.
  apply matches_dead_letter in Hm as (Ht & Hs & Hh & Hex). destruct Hor as [?|[(c & -> & Hc)|(c & Hc & Hj)]]; [done|..].
  - destruct Hc. by apply Hh.
  - by destruct (Hex c Hc).
Qed.

Lemma messages_keeps inp :
  out_of_reach ctx j ∨ ms_include_human_required inp = false ∧ job_remediation_hint j = Some HUMAN_REQUIRED →
  db_jobs (mc_db (replay_dlq_messages cfg inp ctx s).2) !! k = Some j.
Proof.
  intros Hor. unfold replay_dlq_messages.
  set (fenced := if ms_include_human_required inp then [] else [HUMAN_REQUIRED]).
  set (jobs := (list_jobs _ 0 _ (dead_letters (ms_job_type inp) None fenced) CREATED_AT (mc_db s)).1).
  pose proof (page_keeps (replay_job_item cfg ctx) jobs) as Hl. destruct (item_loop _ 0 jobs s) as [os s']. apply Hl; clear Hl.
  - intros x Hx. eapply page_misses; [|exact Hx]. destruct Hor as [|[Hi Hh]]; [by left|]. right; right. exists HUMAN_REQUIRED.
    subst fenced. rewrite Hi. split; [by left|done].
  - intros n x s1 _. apply replay_job_item_keeps.
Qed.

Lemma by_category_keeps inp :
  out_of_reach ctx j ∨ job_remediation_hint j = Some HUMAN_REQUIRED →
  db_jobs (mc_db (replay_dlq_by_category cfg float_repr inp ctx s).2) !! k = Some j.
Proof.
  intros Hor. unfold replay_dlq_by_category. destruct (bool_decide (bc_category inp ∈ _)) eqn:Ec; [|done]. cbn [negb].
  apply bool_decide_eq_true_1 in Ec.
  set (jobs := (list_jobs _ 0 _ (dead_letters (bc_job_type inp) (Some (bc_category inp)) []) CREATED_AT (mc_db s)).1).
  pose proof (page_keeps (replay_category_item cfg float_repr ctx (bc_category inp) (bc_delay_seconds inp)) jobs) as Hl.
  destruct (item_loop _ 0 jobs s) as [os s']. apply Hl; clear Hl.
  - intros x Hx. eapply page_misses; [|exact Hx]. destruct Hor as [|Hh]; [by left|]. right; left. exists (bc_category inp). split; [done|].
    rewrite Hh. intros [= E]. rewrite <- E in Ec. by repeat (apply elem_of_cons in Ec as [Ec|Ec]; [done|]); apply elem_of_nil in Ec.
  - intros n x s1 _ Hs1 Hn. unfold replay_category_item. destruct (bc_delay_seconds inp) as [delay|]; [|by apply replay_job_item_keeps].
    destruct (schedule_one_audited_jobs ctx n (job_id x) delay [("category", JStr (bc_category inp))] s1) as [Hj _].
    destruct (schedule_one_audited _ ctx n (job_id x) delay _ s1) as [[q|e] s2]; cbn [snd] in *; by rewrite Hj.
Qed.
End Confined.

(** C26: The replay tools keep to their own.  Whatever their arguments, and whichever Redis
    command or database step fails on the way, none of the three replay tools changes a
    job of another tenant or a job that is not FAILED or DEAD_LETTER; a replay by ids
    changes no job it was not given; and the two blind tools, by category and in bulk
    without the explicit consent, never change a job fenced as [human_required]. *)
Theorem replays_keep_to_their_own ctx s k j by_ids messages by_category :
  keys_ok (mc_db s) → db_jobs (mc_db s) !! k = Some j →
  (out_of_reach ctx j ∨ k ∉ bi_job_ids by_ids → db_jobs (mc_db (replay_dlq_by_ids cfg float_repr by_ids ctx s).2) !! k = Some j) ∧
  (out_of_reach ctx j ∨ ms_include_human_required messages = false ∧ job_remediation_hint j = Some HUMAN_REQUIRED →
     db_jobs (mc_db (replay_dlq_messages cfg messages ctx s).2) !! k = Some j) ∧
  (out_of_reach ctx j ∨ job_remediation_hint j = Some HUMAN_REQUIRED →
     db_jobs (mc_db (replay_dlq_by_category cfg float_repr by_category ctx s).2) !! k = Some j).
Proof. intros Hkeys Hk. split_and!; intros; [by apply by_ids_keeps|by apply messages_keeps|by apply by_category_keeps]. Qed.

(** ** A batch is the sequence of its items *)

(** One replay in a transaction of its own: committed, or nothing. *)
Definition own_transaction (ctx : ToolContext) (n : nat) (i : uuid) (r : Redis) (db : DB) : item_outcome * DB :=
  if cx_fails ctx n then (ItemFailed ServiceError, db)
  else
    match replay_job cfg (mkRequest (cx_now ctx n) (cx_time ctx n) (match cx_reach ctx n with Answered => Some r | _ => None end) (cx_otel ctx) "")
            true i (pn_tenant_id (cx_principal ctx)) (machine_caller (cx_principal ctx)) db with
    | Ok (_, db', _) => (ItemReplayed, db')
    | Err e => (ItemFailed e, db)
    end.

Fixpoint own_transactions (ctx : ToolContext) (n : nat) (ids : list uuid) (r : Redis) (db : DB) : list (uuid * item_outcome) * DB :=
  match ids with
  | [] => ([], db)
  | i :: ids => let '(o, db) := own_transaction ctx n i r db in
                let '(os, db) := own_transactions ctx (S n) ids r db in ((i, o) :: os, db)
  end.

Lemma batch_loop ctx n ids s :
  let '(os, s') := item_loop (replay_or_schedule cfg float_repr ctx None) n ids s in
  own_transactions ctx n ids (mc_redis s) (mc_db s) = (os, mc_db s') ∧ mc_redis s' = mc_redis s ∧
  au_users (mc_auth s') = au_users (mc_auth s) ∧ au_tenants (mc_auth s') = au_tenants (mc_auth s) ∧
  mc_accounts s' = mc_accounts s ∧ mc_idem s' = mc_idem s.
Proof.
  revert n s. induction ids as [|i ids IH]; intros n s; [done|]. cbn [item_loop own_transactions].
  assert (Hone : let '(o, s1) := replay_or_schedule cfg float_repr ctx None n i s in
            own_transaction ctx n i (mc_redis s) (mc_db s) = (o, mc_db s1) ∧ mc_redis s1 = mc_redis s ∧
            au_users (mc_auth s1) = au_users (mc_auth s) ∧ au_tenants (mc_auth s1) = au_tenants (mc_auth s) ∧
            mc_accounts s1 = mc_accounts s ∧ mc_idem s1 = mc_idem s).
  { unfold replay_or_schedule, replay_item, savepoint, own_transaction, item_request. destruct (cx_fails ctx n); [done|].
    by destruct (replay_job _ _ _ _ _ _ _) as [[[j db] fx]|e]. }
  destruct (replay_or_schedule cfg float_repr ctx None n i s) as [o s1]. destruct Hone as (-> & R1 & U1 & T1 & A1 & I1).
  specialize (IH (S n) s1). rewrite R1 in IH. destruct (item_loop _ (S n) ids s1) as [os s2].
  destruct IH as (-> & R2 & U2 & T2 & A2 & I2). split_and!; congruence.
Qed.

Lemma own_transactions_outcomes ctx n ids r db : Forall (λ x, is_scheduled x.2 = false) (own_transactions ctx n ids r db).1.
Proof.
  revert n db. induction ids as [|i ids IH]; intros n db; [constructor|]. cbn.
  assert (Hs : is_scheduled (own_transaction ctx n i r db).1 = false).
  { unfold own_transaction. destruct (cx_fails ctx n); [done|]. by destruct (replay_job _ _ _ _ _ _ _) as [[[j db'] fx]|e]. }
  destruct (own_transaction ctx n i r db) as [o db1]. specialize (IH (S n) db1). destruct (own_transactions ctx (S n) ids r db1) as [os db2].
  constructor; done.
Qed.

Lemma count_items_none {A} f (os : list (A * item_outcome)) : Forall (λ x, f x.2 = false) os → count_items f os = 0%Z.
Proof. intros Hf. unfold count_items. induction Hf as [|x os Hx Hos IH]; [done|]. rewrite filter_cons_False; [done|]. by rewrite Hx. Qed.

(** An immediate replay by ids is the sequence of its items.  The database it leaves
    and the outcome it reports for each id, in order, are those of replaying the ids one
    after the other, each in a transaction of its own that commits or leaves nothing;
    nothing else in the store changes but the queued cache work, and the counts it
    returns add up to the number of ids. *)
Theorem batch_is_its_items ids ctx s :
  let '(os, db) := own_transactions ctx 0 ids (mc_redis s) (mc_db s) in
  ∃ s', replay_dlq_by_ids cfg float_repr (mkByIds ids None) ctx s =
    (Ok [("requested", JInt (Z.of_nat (length ids))); ("replayed", JInt (count_items is_replayed os)); ("scheduled", JInt 0);
         ("failed", JInt (count_items is_failed os)); ("results", JList ((λ x, replay_result float_repr x.1 x.2) <$> os))], s') ∧
    os.*1 = ids ∧ (count_items is_replayed os + count_items is_failed os = Z.of_nat (length ids))%Z ∧
    s' = with_mcp_hooks (mc_hooks s') (with_mcp_db db s).
Proof.
  unfold replay_dlq_by_ids. cbn [bi_delay_seconds bi_job_ids]. pose proof (batch_loop ctx 0 ids s) as Hb.
  pose proof (item_loop_fst (replay_or_schedule cfg float_repr ctx None) ids 0 s) as Hfst.
  pose proof (own_transactions_outcomes ctx 0 ids (mc_redis s) (mc_db s)) as Ho.
  destruct (item_loop _ 0 ids s) as [os s']. destruct Hb as (E & Hr & Hu & Ht & Ha & Hi). rewrite E in *. cbn [fst] in *.
  pose proof (count_items_none is_scheduled os Ho) as Hz. pose proof (count_items_sum os) as Hsum.
  exists s'. rewrite Hz. split; [done|]. split; [done|]. split.
  - rewrite <- Hfst, length_fmap. lia.
  - destruct s' as [[u t d r] a i h], s as [[u0 t0 d0 r0] a0 i0 h0]. cbn in *. by subst.
Qed.

(** ** Armed replays *)

(** The scheduled replays: a sorted set without expiry, or nothing. *)
Definition armed (r : Redis) : gmap string Q :=
  match r !! SCHEDULED_KEY with Some (mkEntry (RZset m) None) => m | _ => ∅ end.
Definition plain_set (r : Redis) : Prop :=
  match r !! SCHEDULED_KEY with None | Some (mkEntry (RZset _) None) => True | _ => False end.

Lemma zset_plain t r : plain_set r → r_zset t SCHEDULED_KEY r = Ok (armed r).
Proof.
  unfold plain_set, armed, r_zset, live. destruct (r !! SCHEDULED_KEY) as [[[] []]|]; try done.
Qed.

Lemma put_plain t m r : plain_set r → plain_set (put_zset t SCHEDULED_KEY m r) ∧ armed (put_zset t SCHEDULED_KEY m r) = m.
Proof.
  intros Hp. unfold put_zset. case_bool_decide as Hm.
  - unfold plain_set, armed. rewrite lookup_delete_eq. by subst.
  - unfold plain_set in Hp. unfold plain_set, armed, live. rewrite lookup_insert_eq.
    destruct (r !! SCHEDULED_KEY) as [[[] []]|]; done.
Qed.

(** The audit row of a replay armed for [q]. *)
Definition scheduled_row (p : Principal) (job : uuid) (q : Q) (r : AuditLog) : Prop :=
  audit_action r = "job.replay_scheduled" ∧ audit_job_id r = Some job ∧ audit_principal_id r = Some (pn_id p) ∧
  audit_tenant_id r = pn_tenant_id p ∧ dget (default [] (audit_extra_data r)) "execute_at" = Some (JFloat (float_repr q)).

(** Everything armed since [s0] has its row. *)
Definition armed_ok (p : Principal) (s0 s : McpStore) : Prop :=
  plain_set (mc_redis s) ∧
  ∀ m q, armed (mc_redis s) !! m = Some q →
    armed (mc_redis s0) !! m = Some q ∨
    ∃ job row, m = replay_member (pn_tenant_id p) (pn_id p) job ∧ row ∈ db_audit (mc_db s) ∧ scheduled_row p job q row.

Lemma armed_ok_disarm p s0 s t m :
  armed_ok p s0 s → armed_ok p s0 (with_mcp_redis (put_zset t SCHEDULED_KEY (delete m (armed (mc_redis s))) (mc_redis s)) s).
Proof.
  intros [Hp Ha]. destruct (put_plain t (delete m (armed (mc_redis s))) (mc_redis s) Hp) as [Hp' E]. split; [done|].
  cbn [mc_redis mc_auth with_mcp_redis with_auth_redis au_redis]. rewrite E. intros m' q Hq. apply lookup_delete_Some in Hq as [_ Hq]. by apply Ha.
Qed.

Lemma schedule_one_armed ctx n i delay extra s0 s :
  cx_reach ctx (2 * n + 1) = Answered →
  dget (foldl (λ d kv, dset d kv.1 kv.2)
          [("delay_seconds", JInt delay); ("execute_at", JFloat (float_repr (cx_time ctx n + inject_Z delay)%Q))] extra) "execute_at" =
    Some (JFloat (float_repr (cx_time ctx n + inject_Z delay)%Q)) →
  armed_ok (cx_principal ctx) s0 s → armed_ok (cx_principal ctx) s0 (schedule_one_audited float_repr ctx n i delay extra s).2.
Proof.
  intros Hans Hex Hok. pose proof Hok as [Hp Ha]. unfold schedule_one_audited, savepoint.
  destruct (cx_fails ctx n); [exact Hok|].
  set (p := cx_principal ctx). set (t := cx_time ctx n). set (m := replay_member (pn_tenant_id p) (pn_id p) i).
  set (r1 := put_zset t SCHEDULED_KEY (<[m := (t + inject_Z delay)%Q]> (armed (mc_redis s))) (mc_redis s)).
  destruct (put_plain t (<[m := (t + inject_Z delay)%Q]> (armed (mc_redis s))) (mc_redis s) Hp) as [Hp1 E1]. fold r1 in Hp1, E1.
  assert (Harm : (r' ← arm_replay t (pn_tenant_id p) (pn_id p) i (t + inject_Z delay)%Q (mc_redis s); Ok (tt, r')) = Ok (E := exn) (tt, r1)).
  { unfold arm_replay, r_zadd. by rewrite zset_plain by done. }
  assert (Hcancel : ∀ r, plain_set r →
    (r' ← cancel_scheduled_replay t (pn_tenant_id p) (pn_id p) i r; Ok (tt, r')) = Ok (E := exn) (tt, put_zset t SCHEDULED_KEY (delete m (armed r)) r)).
  { intros r Hr. unfold cancel_scheduled_replay, r_zrem. by rewrite zset_plain by done. }
  unfold redis_cmd at 1. rewrite Harm. destruct (cx_reach ctx (2 * n)).
  - cbn [snd]. split; [exact Hp1|]. cbn [mc_redis mc_auth with_mcp_redis with_auth_redis au_redis]. rewrite E1. intros m' q Hq.
    apply lookup_insert_Some in Hq as [[<- <-]|[_ Hq]].
    + right. eexists i, _. split; [done|]. split; [apply elem_of_app; right; left|]. split_and!; done.
    + destruct (Ha m' q Hq) as [?|(job & row & ? & Hrow & ?)]; [by left|right]. exists job, row. split_and!; try done.
      apply elem_of_app. by left.
  - cbn [mc_redis mc_auth roll_back with_mcp_hooks with_mcp_redis with_auth_redis au_redis]. unfold redis_cmd. rewrite Hans, Hcancel by done.
    cbn [snd]. exact (armed_ok_disarm p s0 s t m Hok).
  - cbn [mc_redis mc_auth roll_back with_mcp_hooks with_mcp_redis with_auth_redis au_redis]. unfold redis_cmd. rewrite Hans, Hcancel by done.
    cbn [snd]. rewrite E1, delete_insert_eq. destruct (put_plain t (delete m (armed (mc_redis s))) r1 Hp1) as [Hp2 E2]. split; [exact Hp2|].
    cbn [mc_redis mc_auth with_mcp_redis with_auth_redis au_redis]. rewrite E2. intros m' q Hq. apply lookup_delete_Some in Hq as [_ Hq]. by apply Ha.
Qed.

Lemma replay_item_armed ctx n i s0 s : armed_ok (cx_principal ctx) s0 s → armed_ok (cx_principal ctx) s0 (replay_item cfg ctx n i s).2.
Proof.
  intros [Hp Ha]. unfold replay_item, savepoint. destruct (cx_fails ctx n); [done|].
  destruct (replay_job cfg _ true i _ _ (mc_db s)) as [[[j' db'] fx]|e] eqn:Er; [|done].
  apply replay_job_inv in Er as (_ & _ & _ & _ & _ & _ & _ & _ & r & Hr & _). split; [done|]. cbn [snd]. intros m q Hq.
  destruct (Ha m q Hq) as [?|(job & row & ? & Hrow & ?)]; [by left|right]. exists job, row. split_and!; try done.
  cbn. rewrite Hr. apply elem_of_app. by left.
Qed.

(** C27: No replay is armed without its audit row.  As long as the disarming command of a
    failed item reaches Redis: whatever else fails while a replay tool schedules its
    items, every replay that is armed afterwards was armed before with the same time, or
    the log has a row by this principal that names that job and that time. *)
Theorem armed_replays_are_audited ctx s by_ids by_category :
  plain_set (mc_redis s) → (∀ n, cx_reach ctx (2 * n + 1) = Answered) →
  let p := cx_principal ctx in
  ∀ s', s' = (replay_dlq_by_ids cfg float_repr by_ids ctx s).2 ∨ s' = (replay_dlq_by_category cfg float_repr by_category ctx s).2 →
  ∀ m q, armed (mc_redis s') !! m = Some q →
    armed (mc_redis s) !! m = Some q ∨
    ∃ job row, m = replay_member (pn_tenant_id p) (pn_id p) job ∧ row ∈ db_audit (mc_db s') ∧ scheduled_row p job q row.
Proof.
  intros Hp Hans p s' Hs'. cut (armed_ok p s s'); [by intros [_ Ha]|].
  assert (H0' : armed_ok p s s) by (split; [done|by left]). destruct Hs' as [-> | ->].
  - unfold replay_dlq_by_ids.
    pose proof (item_loop_ind (replay_or_schedule cfg float_repr ctx (bi_delay_seconds by_ids)) (armed_ok p s) (bi_job_ids by_ids) 0 s H0') as Hl.
    destruct (item_loop _ 0 _ s) as [os s']. apply Hl. clear Hl. intros n i s1 _ Hs1. unfold replay_or_schedule.
    destruct (bi_delay_seconds by_ids) as [delay|].
    + unfold schedule_one. destruct (get_for_tenant _ _ _); [|done]. destruct (negb _); [done|].
      pose proof (schedule_one_armed ctx n i delay [] s s1 (Hans n) eq_refl Hs1) as Hc. by destruct (schedule_one_audited _ _ _ _ _ _ s1) as [[] s2].
    + pose proof (replay_item_armed ctx n i s s1 Hs1) as Hc. by destruct (replay_item cfg ctx n i s1) as [[] s2].
  - unfold replay_dlq_by_category. destruct (negb _); [done|].
    set (jobs := (list_jobs _ 0 _ _ _ _).1).
    pose proof (item_loop_ind (replay_category_item cfg float_repr ctx (bc_category by_category) (bc_delay_seconds by_category)) (armed_ok p s) jobs 0 s H0') as Hl.
    destruct (item_loop _ 0 jobs s) as [os s']. apply Hl. clear Hl. intros n x s1 _ Hs1. unfold replay_category_item.
    destruct (bc_delay_seconds by_category) as [delay|].
    + pose proof (schedule_one_armed ctx n (job_id x) delay [("category", JStr (bc_category by_category))] s s1 (Hans n) eq_refl Hs1) as Hc.
      by destruct (schedule_one_audited _ _ _ _ _ _ s1) as [[] s2].
    + unfold replay_job_item. pose proof (replay_item_armed ctx n (job_id x) s s1 Hs1) as Hc. by destruct (replay_item cfg ctx n (job_id x) s1) as [[] s2].
Qed.

(** ** Cache keys *)

Lemma split_once_go (a rest : string) :
  Forall (λ c, c ≠ ":"%char) (chars a) → split_once (a +:+ (":" +:+ rest)) = (a, Some rest).
Proof.
  intros Ha. induction a as [|c a IH]; [done|]. apply Forall_cons in Ha as [Hc Ha].
  change (split_once (String c (a +:+ (":" +:+ rest))) = (String c a, Some rest)). cbn [split_once].
  rewrite bool_decide_false by done. by rewrite (IH Ha).
Qed.

Lemma tenant_segment_cache_key j t : tenant_segment (cache_key j t) = Some (uuid_str t).
Proof.
  unfold tenant_segment, cache_key. change TENANT_SCOPED_PREFIXES with ["cache:job:"]. cbn [omap list_omap].
  replace (after_prefix "cache:job:" ("cache:job:" +:+ uuid_str t +:+ ":" +:+ uuid_str j)) with (Some (uuid_str t +:+ ":" +:+ uuid_str j)) by reflexivity.
  cbn [fmap option_fmap option_map head]. rewrite split_once_go; [done|]. unfold chars. rewrite list_ascii_of_uuid_str. apply uuid_chars_no_colon.
Qed.

Definition key_refusal (key : string) : exn :=
  ToolError 400 "cache_key_forbidden" ("Key " +:+ repr_str key +:+ " is not scoped to a tenant this principal can reach.").

Lemma assert_key_foreign j t tenant refuse :
  (t < uuid_bound)%N → t ≠ tenant →
  assert_key_in_tenant (cache_key j t) tenant refuse =
  Err (refuse ("Key " +:+ repr_str (cache_key j t) +:+ " is not scoped to a tenant this principal can reach.")).
Proof. intros Hb Hne. unfold assert_key_in_tenant. rewrite tenant_segment_cache_key, uuid_parse_str by done. by rewrite bool_decide_false. Qed.

Lemma cache_key_prefixed j t : existsb (λ p, String.prefix p (cache_key j t)) ["cache:"; "jobs:cache:"; "kafka:consumer_lag:"; "read_model:"] = true.
Proof. unfold cache_key. reflexivity. Qed.

Lemma invalidate_foreign j t ctx s :
  (t < uuid_bound)%N → t ≠ pn_tenant_id (cx_principal ctx) → invalidate_cache_key (cache_key j t) ctx s = (Err (key_refusal (cache_key j t)), s).
Proof.
  intros Hb Hne. unfold invalidate_cache_key, ALLOWED_PREFIXES. rewrite cache_key_prefixed. cbn [negb]. by rewrite assert_key_foreign.
Qed.

(** The cache tools stay inside the caller's tenant.  For any cache entry of a job in
    another tenant: deleting any key leaves it as it is, and asking for it by name is
    refused by both tools with one and the same error whatever Redis holds, so neither
    tells whether the entry exists.  A key outside the listed namespaces is never deleted. *)
Theorem cache_tools_stay_in_tenant `{!PyCodec} ctx t j key s :
  (t < uuid_bound)%N → t ≠ pn_tenant_id (cx_principal ctx) →
  mc_redis (invalidate_cache_key key ctx s).2 !! cache_key j t = mc_redis s !! cache_key j t ∧
  invalidate_cache_key (cache_key j t) ctx s = (Err (key_refusal (cache_key j t)), s) ∧
  get_cache_key_info (cache_key j t) ctx s = (Err (key_refusal (cache_key j t)), s) ∧
  (existsb (λ p, String.prefix p key) ALLOWED_PREFIXES = false → ∀ k, mc_redis (invalidate_cache_key key ctx s).2 !! k = mc_redis s !! k).
Proof.
  intros Hb Hne. split_and!.
  - destruct (decide (key = cache_key j t)) as [->|Hk]; [by rewrite invalidate_foreign|].
    unfold invalidate_cache_key. destruct (negb _); [done|]. destruct (assert_key_in_tenant _ _ _); [|done].
    unfold redis_delete, redis_cmd. destruct (cx_reach ctx 0); cbn -[cache_key]; unfold r_del; by rewrite ?lookup_delete_ne.
  - by apply invalidate_foreign.
  - unfold get_cache_key_info, probe_key, READABLE_PREFIXES. rewrite cache_key_prefixed. cbn [negb]. by rewrite assert_key_foreign.
  - intros Hno k. unfold invalidate_cache_key. by rewrite Hno.
Qed.

(** ** Pauses *)

Lemma pause_dag_ok inp ctx s out s' :
  pause_dag inp ctx s = (Ok out, s') →
  (∃ root, db_jobs (mc_db s) !! pd_root_job_id inp = Some root ∧ job_tenant_id root = pn_tenant_id (cx_principal ctx)) ∧
  s' = with_mcp_redis (<[pause_key_for (pd_root_job_id inp) :=
         mkEntry (RStr "paused") (Some (cx_time ctx 0%nat + inject_Z (pd_ttl_seconds inp))%Q)]> (mc_redis s)) s.
Proof.
  unfold pause_dag, get_by_id. destruct (db_jobs (mc_db s) !! pd_root_job_id inp) as [root|]; [|done].
  destruct (bool_decide (job_tenant_id root = _)) eqn:Et; [|done]. apply bool_decide_eq_true_1 in Et. cbn [negb].
  unfold redis_set, redis_cmd. destruct (cx_reach ctx 0); try done. intros [= _ <-]. split; [by exists root|done].
Qed.

(** A pause holds replays back.  After [pause_dag] has answered, and until its time is
    up: the root reads as paused, and a replay of any job below it (among the 64 nearest
    ancestors the walk visits), by any principal, is refused with nothing written. *)
Theorem pause_holds_replays inp ctx s out s' i ctx' n :
  pause_dag inp ctx s = (Ok out, s') → pd_root_job_id inp ∈ collect_ancestors (mc_db s) i →
  cx_reach ctx' n = Answered → (cx_time ctx' n < cx_time ctx 0%nat + inject_Z (pd_ttl_seconds inp))%Q →
  (∃ e, replay_item cfg ctx' n i s' = (Err e, with_mcp_hooks [] s')) ∧
  (pause_state (cx_time ctx' n) (Some (mc_redis s')) (pd_root_job_id inp)).1 = true.
Proof.
  intros Hp Hanc Hreach Ht. apply pause_dag_ok in Hp as [_ ->].
  set (r := <[pause_key_for (pd_root_job_id inp) := _]> (mc_redis s)).
  assert (Hlive : live (cx_time ctx' n) r (pause_key_for (pd_root_job_id inp)) =
                  Some (mkEntry (RStr "paused") (Some (cx_time ctx 0%nat + inject_Z (pd_ttl_seconds inp))%Q))).
  { unfold live, r. rewrite lookup_insert_eq. unfold expired. cbn [e_exp].
    destruct (Qle_bool _ _) eqn:E; [|done]. apply Qle_bool_iff in E. exfalso. by apply (Qlt_not_le _ _ Ht). }
  split.
  - unfold replay_item, savepoint. destruct (cx_fails ctx' n); [eexists; by destruct s as [[] ? ? ?]|].
    destruct (replay_job cfg _ true i _ _ _) as [[[j' db'] fx]|e] eqn:Er; [|eexists; by destruct s as [[] ? ? ?]].
    exfalso. apply replay_job_inv in Er as (j & _ & _ & _ & Hb & _). specialize (Hb eq_refl).
    unfold item_request in Hb. rewrite Hreach in Hb. cbn [rq_time rq_redis] in Hb.
    eapply (find_blocking_pause_none _ _ _ _ _ Hb Hanc). exists (RStr "paused").
    unfold r_get. cbn [mc_redis mc_auth with_mcp_redis with_auth_redis au_redis]. by rewrite Hlive.
  - unfold pause_state. cbn [mc_redis mc_auth with_mcp_redis with_auth_redis au_redis]. by rewrite Hlive.
Qed.
End Props.

(** ** The audit log an agent reads *)

Lemma like_any p s : like p s = true → like ("%"%char :: p) s = true.
Proof. intros Hp. cbn. rewrite bool_decide_true by done. destruct s; by rewrite Hp. Qed.

Lemma like_nil_any s : like ["%"%char] s = true.
Proof. cbn. induction s as [|c s IH]; [done|]. exact IH. Qed.

(** A pattern without [%] and escapes matches what it is a prefix of. *)
Lemma like_app p rest :
  Forall (λ c, c ≠ "%"%char ∧ c ≠ "\"%char) p → like (p ++ ["%"%char]) (p ++ rest) = true.
Proof.
  induction p as [|c p IH]; intros Hp; [apply like_nil_any|]. apply Forall_cons in Hp as [[Hc1 Hc2] Hp]. specialize (IH Hp).
  cbn [app like]. rewrite (bool_decide_false (c = "%"%char)) by done.
  rewrite (bool_decide_false (c = ascii_of_nat 92)) by done. rewrite (bool_decide_true (c = c)) by done. by rewrite orb_true_r, IH.
Qed.

Lemma prefix_chars p a : String.prefix p a = true → ∃ rest, chars a = chars p ++ rest.
Proof.
  revert a. induction p as [|c p IH]; intros a Hp; [by exists (chars a)|]. destruct a as [|d a]; [done|]. cbn in Hp.
  destruct (Ascii.ascii_dec c d) as [->|]; [|done]. destruct (IH a Hp) as [rest Hr]. exists rest. cbn. by rewrite Hr.
Qed.

Lemma hidden_like p pre a :
  pre ∈ hidden_audit_action_prefixes p → String.prefix pre a = true → like_prefix pre a = true.
Proof.
  intros Hin Hp. apply prefix_chars in Hp as [rest Hr]. unfold like_prefix.
  change (like (chars (pre +:+ "%")) (chars a) = true). rewrite chars_app, Hr. apply like_app.
  unfold hidden_audit_action_prefixes in Hin. apply elem_of_app in Hin as [Hin|Hin]; case_bool_decide;
    repeat (apply elem_of_cons in Hin as [->|Hin]; [refine (bool_decide_eq_true_1 _ _); vm_compute; reflexivity|]); by apply elem_of_nil in Hin.
Qed.

(** A row the principal may see: of its tenant and of no stream withheld from it. *)
Definition visible (p : Principal) (x : StoredAudit) : bool :=
  bool_decide (audit_tenant_id (sa_row x) = pn_tenant_id p) &&
  forallb (λ pre, negb (String.prefix pre (audit_action (sa_row x)))) (hidden_audit_action_prefixes p).

Lemma matches_visible inp p x : audit_matches (audit_filter inp p) x = true → visible p x = true.
Proof.
  unfold audit_matches, audit_filter. cbn [af_user_id af_job_id af_action af_action_prefix af_action_prefixes af_exclude_action_prefixes
    af_principal_type af_tenant_id af_request_id opt_is]. rewrite !andb_true_iff. intros ((((_ & Hex) & _) & Hten) & _).
  apply bool_decide_eq_true_1 in Hten as [= Hten2]. unfold visible. rewrite (bool_decide_true _ Hten2). cbn [andb]. rewrite forallb_forall in *. intros pre Hpre. specialize (Hex pre Hpre).
  apply negb_true_iff in Hex. apply negb_true_iff. destruct (String.prefix pre _) eqn:E; [|done].
  apply list_elem_of_In in Hpre. by rewrite (hidden_like p pre _ Hpre E) in Hex.
Qed.

Lemma list_logs_visible inp p lim rows :
  list_logs 0 lim (audit_filter inp p) rows = list_logs 0 lim (audit_filter inp p) (filter (λ x, visible p x = true) rows).
Proof.
  unfold list_logs. rewrite list_filter_filter_l; [done|]. intros x. apply matches_visible.
Qed.

Section Audit.
Context `{!Pydantic} (audit_id : nat → uuid) (audit_request_id : nat → option string).
Abbreviation table := (audit_table audit_id audit_request_id).

(** C28: The withheld streams do not show.  Whatever the filters, what [list_audit_events]
    answers a principal, the page and the total both, is a function of the rows of its
    tenant outside the streams withheld from it: without the chaos scope that is every
    [chaos.] and [lab.] row, and with the telemetry scope every [agent.run_reported] row.
    Two logs that agree on the rest give the same answer. *)
Theorem withheld_rows_do_not_show inp ctx s s2 :
  filter (λ x, visible (cx_principal ctx) x = true) (table (mc_db s)) = filter (λ x, visible (cx_principal ctx) x = true) (table (mc_db s2)) →
  (list_audit_events audit_id audit_request_id inp ctx s).1 = (list_audit_events audit_id audit_request_id inp ctx s2).1 ∧
  Forall (λ x, visible (cx_principal ctx) x = true)
    (list_logs 0 (Z.to_nat (le_limit inp)) (audit_filter inp (cx_principal ctx)) (table (mc_db s))).1.
Proof.
  intros Heq. unfold list_audit_events. split.
  - rewrite (list_logs_visible inp _ _ (table (mc_db s))), (list_logs_visible inp _ _ (table (mc_db s2))), Heq.
    by destruct (list_logs _ _ _ _).
  - apply Forall_forall. intros x Hx. unfold list_logs in Hx. cbn [fst] in Hx. rewrite drop_0 in Hx.
    assert (Hin : x ∈ merge_sort audit_newer (filter (λ x, audit_matches (audit_filter inp (cx_principal ctx)) x = true) (table (mc_db s)))).
    { set (l := merge_sort _ _) in *. rewrite <- (take_drop (Z.to_nat (le_limit inp)) l). apply elem_of_app. by left. }
    rewrite merge_sort_Permutation in Hin. apply list_elem_of_filter in Hin as [Hm _]. by apply (matches_visible inp).
Qed.
End Audit.

(** ** The modelled tools are honest *)

Section Honest.
Context `{SqlOrder, UuidSource, !Pydantic, !PyCodec} (cfg : Settings).
Context (float_repr : Q → string) (validation_errors : string → dict → json) (doc : string → string) (schema : string → dict)
        (known_groups : list string) (audit_id : nat → uuid) (audit_request_id : nat → option string) (triage_of : uuid → option dict).

Lemma with_redis_rows r s : mcp_rows (mc_db (with_mcp_redis r s)) = mcp_rows (mc_db s).
Proof. done. Qed.

Lemma redis_set_rows ctx n k v ttl s : mcp_rows (mc_db (redis_set ctx n k v ttl s).2) = mcp_rows (mc_db s).
Proof. unfold redis_set. by destruct (redis_cmd _ _ _). Qed.
Lemma redis_delete_rows ctx n k s : mcp_rows (mc_db (redis_delete ctx n k s).2) = mcp_rows (mc_db s).
Proof. unfold redis_delete. by destruct (redis_cmd _ _ _). Qed.

Lemma replay_item_rows ctx n i s : mcp_rows (mc_db (replay_item cfg ctx n i s).2) = mcp_rows (mc_db s).
Proof.
  pose proof (replay_item_cases cfg ctx n i s) as Hc. destruct (replay_item cfg ctx n i s) as [[j|e] s']; cbn [fst snd] in *.
  - by destruct Hc as (? & _ & _ & _ & _ & _ & _ & ?).
  - by rewrite Hc.
Qed.

Lemma replay_or_schedule_rows ctx delay n i s : mcp_rows (mc_db (replay_or_schedule cfg float_repr ctx delay n i s).2) = mcp_rows (mc_db s).
Proof.
  unfold replay_or_schedule. destruct delay as [delay|].
  - destruct (schedule_one_jobs float_repr ctx n i delay s) as [_ Hr]. by destruct (schedule_one _ _ _ _ _ s) as [[] ?].
  - pose proof (replay_item_rows ctx n i s) as Hr. by destruct (replay_item _ _ _ _ s) as [[] ?].
Qed.

Lemma replay_category_item_rows ctx c delay n j s : mcp_rows (mc_db (replay_category_item cfg float_repr ctx c delay n j s).2) = mcp_rows (mc_db s).
Proof.
  unfold replay_category_item, replay_job_item. destruct delay as [delay|].
  - destruct (schedule_one_audited_jobs float_repr ctx n (job_id j) delay [("category", JStr c)] s) as [_ Hr]. by destruct (schedule_one_audited _ _ _ _ _ _ s) as [[] ?].
  - pose proof (replay_item_rows ctx n (job_id j) s) as Hr. by destruct (replay_item _ _ _ _ s) as [[] ?].
Qed.

Lemma loop_rows {A} (f : nat → A → McpStore → item_outcome * McpStore) items s :
  (∀ n a s, mcp_rows (mc_db (f n a s).2) = mcp_rows (mc_db s)) → mcp_rows (mc_db (item_loop f 0 items s).2) = mcp_rows (mc_db s).
Proof. intros Hf. apply (item_loop_ind f (λ s', mcp_rows (mc_db s') = mcp_rows (mc_db s))); [done|]. intros n a s1 _ Hs1. by rewrite Hf. Qed.

(** A handler that leaves the rows alone however it ends. *)
Lemma honest_of {A} name validate (h : A → ToolContext → McpStore → result exn dict * McpStore) :
  (∀ input ctx s, mcp_rows (mc_db (h input ctx s).2) = mcp_rows (mc_db s)) → honest (tool_spec doc schema name validate h).
Proof. intros Hh input ctx s out s' E. specialize (Hh input ctx s). cbn in E. by rewrite E in Hh. Qed.

Lemma mark_rows inp ctx s : mcp_rows (mc_db (mark_dlq_permanent inp ctx s).2) = mcp_rows (mc_db s).
Proof.
  unfold mark_dlq_permanent, get_by_id. destruct (db_jobs (mc_db s) !! mk_job_id inp) as [j|]; [|done]. destruct (negb _); [done|].
  destruct (negb _); [done|].
  assert (Hu : ∀ now sets, db_audit (update_job now (job_id j) no_guard sets (mc_db s)).2 = db_audit (mc_db s)).
  { intros now sets. unfold update_job. by destruct (db_jobs (mc_db s) !! job_id j). }
  specialize (Hu (cx_now ctx 1%nat)). destruct (update_job _ (job_id j) no_guard _ (mc_db s)) as [hit db] eqn:E.
  apply (f_equal (λ x, db_audit x.2)) in E. rewrite Hu in E. cbn [snd] in E. unfold mcp_rows. cbn [snd].
  change (db_audit (mc_db (with_mcp_db ?d s))) with (db_audit d). unfold audit_log. cbn [with_audit db_audit].
  by rewrite filter_app, filter_cons_False, filter_nil, app_nil_r, <- E.
Qed.

Lemma key_info_rows key ctx s : mcp_rows (mc_db (get_cache_key_info key ctx s).2) = mcp_rows (mc_db s).
Proof.
  unfold get_cache_key_info. destruct (probe_key key ctx s) as [[[[ty ttl] sz]|]|]; [|done..].
  unfold resolve_record_references, savepoint. destruct (referenced_names ctx key ty s) as [[names|]|]; [|done..]. by destruct (cx_fails ctx 0).
Qed.

(** So what is proved of any honest tools holds of these. *)
Lemma modelled_tools_honest :
  Forall (λ d, honest (decl_spec d))
    (modelled_tools cfg float_repr validation_errors doc schema known_groups audit_id audit_request_id triage_of).
Proof.
  repeat (apply Forall_cons_2; [apply honest_of; intros input ctx s|]); [..|apply Forall_nil_2].
  - unfold replay_dlq_by_ids. pose proof (loop_rows (replay_or_schedule cfg float_repr ctx (bi_delay_seconds input)) (bi_job_ids input) s
      (replay_or_schedule_rows ctx _)) as Hl. by destruct (item_loop _ _ _ _).
  - unfold replay_dlq_messages. cbv zeta. pose proof (loop_rows (replay_category_item cfg float_repr ctx "" None)
      (list_jobs (pn_tenant_id (cx_principal ctx)) 0 (Z.to_nat (ms_limit input))
         (dead_letters (ms_job_type input) None (if ms_include_human_required input then [] else [HUMAN_REQUIRED])) CREATED_AT (mc_db s)).1 s
      (replay_category_item_rows ctx "" None)) as Hl. change (replay_category_item cfg float_repr ctx "" None) with (replay_job_item cfg ctx) in Hl.
    by destruct (item_loop _ _ _ _).
  - unfold replay_dlq_by_category. destruct (negb _); [done|]. cbv zeta.
    pose proof (loop_rows (replay_category_item cfg float_repr ctx (bc_category input) (bc_delay_seconds input))
      (list_jobs (pn_tenant_id (cx_principal ctx)) 0 (Z.to_nat (bc_max_replays input))
                   (dead_letters (bc_job_type input) (Some (bc_category input)) []) CREATED_AT (mc_db s)).1 s (replay_category_item_rows ctx _ _)) as Hl.
    by destruct (item_loop _ _ _ _).
  - apply mark_rows.
  - unfold pause_dag. destruct (get_by_id _ _); [|done]. destruct (negb _); [done|].
    pose proof (redis_set_rows ctx 0 (pause_key_for (pd_root_job_id input)) "paused" (pd_ttl_seconds input) s) as Hr. by destruct (redis_set _ _ _ _ _ s) as [[] ?].
  - unfold invalidate_cache_key. destruct (negb _); [done|]. destruct (assert_key_in_tenant _ _ _); [|done].
    pose proof (redis_delete_rows ctx 0 input s) as Hr. by destruct (redis_delete _ _ _ s) as [[] ?].
  - unfold restart_consumer_group. pose proof (redis_delete_rows ctx 0 (Kill.kill_key_for input) s) as Hr. destruct (redis_delete _ _ _ s) as [[b|] s1]; [|done].
    pose proof (redis_delete_rows ctx 1 (Kill.latency_key_for input) s1) as Hr1. destruct (redis_delete _ _ _ s1) as [[b1|] s2]; cbn [snd] in *; congruence.
  - unfold list_dlq_messages. by destruct (list_jobs _ _ _ _ _ _).
  - unfold get_dag_state. destruct (get_by_id _ _); [|done]. destruct (negb _); [done|]. by destruct (pause_state _ _ _).
  - unfold list_audit_events. by destruct (list_logs _ _ _ _).
  - apply key_info_rows.
  - unfold kill_consumer. pose proof (redis_set_rows ctx 0 (Kill.kill_key_for (kc_consumer_group input)) Kill.KILL_FLAG_VALUE (kc_ttl_seconds input) s) as Hr.
    destruct (redis_set _ _ _ _ _ s) as [[b|] s1]; [|done]. destruct (kc_sticky input); [|done].
    pose proof (redis_set_rows ctx 1 (Kill.sticky_kill_key_for (kc_consumer_group input)) (fixed3 (cx_now ctx 0%nat + kc_ttl_seconds input * 1000000)%Z)
                  (kc_ttl_seconds input) s1) as Hr1. destruct (redis_set _ _ _ _ _ s1) as [[b1|] s2]; cbn [snd] in *; congruence.
  - unfold pause_dag_chaos. destruct (get_by_id _ _); [|done]. destruct (negb _); [done|].
    pose proof (redis_set_rows ctx 0 (pause_key_for (pd_root_job_id input)) "paused" (pd_ttl_seconds input) s) as Hr. by destruct (redis_set _ _ _ _ _ s) as [[] ?].
Qed.
End Honest.

(** ** Worked examples *)

Module ActionExample.
#[local] Existing Instance counted_uuids.
#[local] Existing Instance heap_order.
#[local] Existing Instance AuthExample.clear_jwt.
#[local] Existing Instance printed_codec.

(** Fields that arrive with their own type. *)
Definition strict_int (v : json) : option Z := match v with JInt z => Some z | _ => None end.
Definition strict_bool (v : json) : option bool := match v with JBool b => Some b | _ => None end.
Definition strict_uuid (v : json) : option uuid := match v with JStr s => uuid_parse s | _ => None end.
Definition strict_pydantic : Pydantic :=
  {| pyd_int := strict_int; pyd_bool := strict_bool; pyd_uuid := strict_uuid; pyd_datetime := isoformat;
     pyd_int_int := λ z, eq_refl; pyd_bool_bool := λ b, eq_refl; pyd_uuid_uuid := uuid_parse_str |}.
#[local] Existing Instance strict_pydantic.

Definition whole (q : Q) : string := show_Z (Qround.Qfloor q) +:+ ".0".

(** Three jobs of tenant 1: a dead one, a fenced one, a running one. *)
Definition job (i : uuid) (s : JobStatus) (hint : option string) : Job :=
  mkJob i 1 2 "csv_upload" s None (Some []) None None 0 3 hint None None None 0 None None (Some 5%Z) None None None None 0 0.
Definition dead : Job := job 7 DEAD_LETTER None.
Definition fenced : Job := job 8 DEAD_LETTER (Some HUMAN_REQUIRED).
Definition running : Job := job 9 RUNNING None.
Definition db : DB := mkDB {[7%N := dead; 8%N := fenced; 9%N := running]} [] [] [] ∅ 0.
Definition cached : Redis := {[cache_key 7 1 := mkEntry (RStr "old") (Some 10%Q)]}.
Definition start : McpStore := mkMcp (mkAuth ∅ ∅ db cached) McpExample.accounts (mkIdemStore ∅ 0) [].

Definition ctx_with (reaches : nat → reach) : ToolContext := mkCtx McpExample.caller (λ _, 5%Z) (λ _, 0%Q) reaches (λ _, false) [].
Definition ctx : ToolContext := ctx_with (λ _, Answered).

Lemma start_keys : keys_ok (mc_db start).
Proof.
  intros i j Hj. assert (Hall : forallb (λ kv, bool_decide (job_id kv.2 = kv.1)) (map_to_list (db_jobs (mc_db start))) = true) by (vm_compute; reflexivity).
  apply elem_of_map_to_list, list_elem_of_In in Hj. rewrite forallb_forall in Hall. apply Hall in Hj. by apply bool_decide_eq_true_1 in Hj.
Qed.

Lemma replays_keep_to_their_own_witness :
  db_jobs (mc_db (replay_dlq_by_ids Fixtures.cfg whole (mkByIds [7%N; 9%N] None) ctx start).2) !! 9%N = Some running ∧
  db_jobs (mc_db (replay_dlq_messages Fixtures.cfg (mkMessages None 25 false) ctx start).2) !! 8%N = Some fenced ∧
  db_jobs (mc_db (replay_dlq_by_category Fixtures.cfg whole (mkByCategory REPLAY_SAFE None 20 None) ctx start).2) !! 8%N = Some fenced.
Proof.
  split.
  - apply (replays_keep_to_their_own Fixtures.cfg whole ctx start 9 running (mkByIds [7%N; 9%N] None) (mkMessages None 25 false)
             (mkByCategory REPLAY_SAFE None 20 None) start_keys eq_refl). left. right. reflexivity.
  - destruct (replays_keep_to_their_own Fixtures.cfg whole ctx start 8 fenced (mkByIds [] None) (mkMessages None 25 false)
             (mkByCategory REPLAY_SAFE None 20 None) start_keys eq_refl) as (_ & Hm & Hc). split; [apply Hm|apply Hc]; right; [split|]; reflexivity.
Defined.

Definition arming : McpStore := (replay_dlq_by_ids Fixtures.cfg whole (mkByIds [7%N] (Some 60%Z)) ctx start).2.

Lemma armed_replays_are_audited_witness :
  armed (mc_redis arming) !! replay_member 1 10 7 = Some (0 + inject_Z 60)%Q ∧
  ∃ job row, replay_member 1 10 7 = replay_member 1 10 job ∧ row ∈ db_audit (mc_db arming) ∧ scheduled_row whole McpExample.caller job (0 + inject_Z 60)%Q row.
Proof.
  assert (Ha : armed (mc_redis arming) !! replay_member 1 10 7 = Some (0 + inject_Z 60)%Q) by (vm_compute; reflexivity).
  split; [exact Ha|].
  destruct (armed_replays_are_audited Fixtures.cfg whole ctx start (mkByIds [7%N] (Some 60%Z)) (mkByCategory REPLAY_SAFE None 20 None) I (λ _, eq_refl)
              arming (or_introl eq_refl) (replay_member 1 10 7) _ Ha) as [Hb|Hrow]; [|exact Hrow].
  vm_compute in Hb. discriminate Hb.
Defined.

Lemma cache_tools_stay_in_tenant_witness :
  invalidate_cache_key (cache_key 3 2) ctx start = (Err (key_refusal (cache_key 3 2)), start).
Proof.
  destruct (cache_tools_stay_in_tenant ctx 2 3 "cache:x" start) as (_ & Hi & _); [vm_compute; reflexivity|vm_compute; discriminate|exact Hi].
Defined.

Definition pausing : McpStore := (pause_dag (mkPauseDag 7 600) ctx start).2.

Lemma pause_holds_replays_witness : ∃ e, replay_item Fixtures.cfg ctx 0 7 pausing = (Err e, with_mcp_hooks [] pausing).
Proof.
  refine (proj1 (pause_holds_replays Fixtures.cfg (mkPauseDag 7 600) ctx start _ pausing 7 ctx 0 eq_refl _ eq_refl _)).
  - vm_compute. left.
  - reflexivity.
Defined.

(** The agent's audit log with and without a chaos row. *)
Definition chaos_row : AuditLog := mkAudit "chaos.tool_invoked" 1 None "service_account" (Some 11%N) None (Some "mcp_tool") (Some "kill") None 5.
Definition own_row : AuditLog := mkAudit "agent.tool_invoked" 1 None "service_account" (Some 10%N) None (Some "mcp_tool") (Some "flag") None 5.
Definition log_store (rows : list AuditLog) : McpStore := with_mcp_db (mkDB ∅ [] [] rows ∅ 0) start.

Lemma withheld_rows_do_not_show_witness :
  (list_audit_events N.of_nat (λ _, None) (mkAuditEvents None None None 50) ctx (log_store [own_row; chaos_row])).1 =
  (list_audit_events N.of_nat (λ _, None) (mkAuditEvents None None None 50) ctx (log_store [own_row])).1.
Proof.
  refine (proj1 (withheld_rows_do_not_show N.of_nat (λ _, None) (mkAuditEvents None None None 50) ctx (log_store [own_row; chaos_row]) (log_store [own_row]) _)).
  vm_compute. reflexivity.
Defined.

(** *** What the batch tools lose *)

Definition tools : Registry :=
  match load_tools true (modelled_tools Fixtures.cfg whole McpExample.errors (λ n, n) (λ _, []) [] N.of_nat (λ _, None) (λ _, None)) ∅ with
  | Ok r => r | Err _ => ∅ end.

Definition ids_request (ids : list uuid) (delay : option Z) : dict :=
  [("method", JStr "tools/call");
   ("params", JObj [("name", JStr "replay_dlq_by_ids");
                    ("arguments", JObj ([("job_ids", JList (juuid <$> ids)); ("idempotency_key", JStr "key-0001")] ++
                                        match delay with Some d => [("delay_seconds", JInt d)] | None => [] end))])].
Definition send (env : CallEnv) (q : dict) (s : McpStore) : (Z * dict) * McpStore :=
  mcp_endpoint McpExample.acfg McpExample.hash McpExample.cfg McpExample.errors McpExample.malformed McpExample.compact env tools q
    (Some "Bearer sa_agent") None s.
Definition status_of (i : uuid) (s : McpStore) : option JobStatus := job_status <$> db_jobs (mc_db s) !! i.

(** A failing item drops the cache work of the items before it: the replay of job 7 is
    committed either way, but its cached copy is dropped only when the missing job comes
    first.  The rollback listener clears the whole queue on a savepoint's rollback. *)
Theorem later_failure_loses_invalidation :
  let s1 := (send (McpExample.env 5) (ids_request [7%N; 99%N] None) start).2 in
  let s2 := (send (McpExample.env 5) (ids_request [99%N; 7%N] None) start).2 in
  status_of 7 s1 = Some PENDING ∧ status_of 7 s2 = Some PENDING ∧
  mc_redis s1 !! cache_key 7 1 = Some (mkEntry (RStr "old") (Some 10%Q)) ∧
  e_val <$> mc_redis s2 !! cache_key 7 1 = Some (RStr INVALIDATED).
Proof. vm_compute. repeat split; reflexivity. Qed.

(** A second attempt to arm a job that does not reach Redis disarms the first one: its
    compensation removes the entry the earlier, audited call armed. *)
Theorem failed_rearm_cancels_earlier :
  let lost := ctx_with (λ n, if (n =? 0)%nat then NotReached else Answered) in
  let s1 := arming in
  let s2 := (replay_dlq_by_ids Fixtures.cfg whole (mkByIds [7%N] (Some 90%Z)) lost s1).2 in
  armed (mc_redis s1) !! replay_member 1 10 7 = Some (0 + inject_Z 60)%Q ∧ length (db_audit (mc_db s1)) = 1%nat ∧
  armed (mc_redis s2) !! replay_member 1 10 7 = None ∧ db_audit (mc_db s2) = db_audit (mc_db s1).
Proof. vm_compute. repeat split; reflexivity. Qed.

(** When the row of the call itself cannot be written, the request rolls back and the
    scheduled row with it, but the armed entry stays and will fire. *)
Definition unaudited (now : Z) : CallEnv :=
  mkCallEnv (λ _, now) "1.5" false false false (IdempotencyProps.IdempotencyExample.quiet now) true (λ _, now) (λ _, 0%Q) (λ _, Answered) (λ _, false) [] 0 (λ _, Answered).

Theorem unaudited_call_leaves_replay_armed :
  let out := send (unaudited 5) (ids_request [7%N] (Some 60%Z)) start in
  out.1.1 = 500%Z ∧ db_audit (mc_db out.2) = [] ∧ armed (mc_redis out.2) !! replay_member 1 10 7 = Some (0 + inject_Z 60)%Q.
Proof. vm_compute. repeat split; reflexivity. Qed.
End ActionExample.
