(* ===== verification/LabFixtures.v ===== *)
(** * The lab's fixtures (lab/dlq_failure_stories.py and mcp/tools/chaos: seed_dlq_messages.py,
      create_bad_data_job.py, create_mislabeled_dlq_job.py, create_stuck_dag.py,
      create_stale_cache.py, degrade_downstream.py, inject_latency.py)

    The texts a manufactured dead letter may carry and the rule they obey, and the chaos
    tools that write fixtures: rows of [jobs] and [job_dependencies], and Redis flags.  A
    character outside Latin-1 stands as its UTF-8 bytes. *)
From stdpp Require Import base tactics numbers option list gmap strings sorting.
From Stdlib Require Import ZArith QArith Ascii.
From S2P Require Import Prelude PyData Codec Models Database JobEvents JobRepo Redis DagPause JobService Dispatcher Supervision CircuitBreaker ControlLoops Processors Accounts Auth McpServer McpActions McpReads.

(** ** Failure stories *)

Record DlqTriage := mkTriage {
  tg_root_cause_category : string;
  tg_summary : string;
  tg_suggested_fix : string;
  tg_is_retryable : bool;
  tg_confidence : Q
}.

Record DlqFailureStory := mkStory {
  st_key : string;
  st_hint : option string;
  st_error_message : string;
  st_triage : option DlqTriage
}.

Definition UPSTREAM_TIMEOUT : DlqFailureStory :=
  mkStory "upstream_timeout" (Some REPLAY_SAFE)
    "UpstreamTimeout: bulk_api_sync POST https://partner-api.internal/v2/sync timed out after 30s on attempt 3/3 — the request was never acknowledged, so no downstream write was recorded"
    (Some (mkTriage "upstream_timeout"
    "partner-api.internal did not answer inside the 30s deadline on any of the three attempts. The payload was accepted by validation and nothing was committed downstream."
    "Re-run the job as it stands: the call is idempotent, no partial write survived the timeout, and a fresh attempt is the entire remedy. Neither the payload nor the producer needs changing."
    true (88 # 100))).

Definition PARTNER_RATE_LIMITED : DlqFailureStory :=
  mkStory "partner_rate_limited" (Some WAIT_AND_REPLAY)
    "RateLimited: partner-api.internal answered 429 Too Many Requests on attempt 3/3 (retry-after: 120s); the per-tenant quota window has not rolled over yet"
    (Some (mkTriage "rate_limited"
    "All three attempts landed inside one quota window. The partner is shedding load, not rejecting the payload."
    "Let the 120s retry-after window pass before the next attempt. An immediate re-run spends another attempt against the same closed window and comes back 429."
    true (86 # 100))).

Definition SMTP_UNREACHABLE : DlqFailureStory :=
  mkStory "smtp_unreachable" (Some WAIT_AND_REPLAY)
    "send_email downstream call failed: ConnectionRefusedError('smtp.mailer.internal:587')"
    (Some (mkTriage "downstream_unavailable"
    "SMTP relay unreachable — connection refused at TCP layer."
    "Check smtp.mailer.internal ECS task health; recent billing hotfix (v0.4.2) may have changed VPC egress rules — cross-reference `get_deploy_history`. Re-run once the dependency answers."
    true (82 # 100))).

Definition SCHEMA_MISSING_FIELD : DlqFailureStory :=
  mkStory "schema_missing_field" (Some HUMAN_REQUIRED)
    "SchemaValidationError: payload missing required field 'user_id' (received keys: ['tenant_id', 'action', 'ts'])"
    (Some (mkTriage "schema_violation"
    "The producer omitted user_id. All three attempts failed on the same missing field, and the stored payload still lacks it."
    "Not recoverable as stored — a fresh attempt fails on the same field. The producer has to be corrected to include user_id and re-emit the work; a person owns that change."
    false (91 # 100))).

Definition CSV_BAD_ROW : DlqFailureStory :=
  mkStory "csv_bad_row" (Some HUMAN_REQUIRED)
    "ValueError: invalid literal for int() with base 10: 'not-a-number' at row 15,382"
    (Some (mkTriage "bad_input"
    "Non-numeric value in a supposedly-integer CSV column."
    "Not retryable — data quality issue. Notify the uploader; add a validation step in the CSV importer that fails the whole upload with a clear error rather than half-processing."
    false (94 # 100))).

Definition UNCLASSIFIED_WORKER_EXIT : DlqFailureStory :=
  mkStory "unclassified_worker_exit" (None)
    "WorkerExit: the processor handling this job stopped on attempt 3/3 without recording an outcome; no exception was captured and the failure has not been categorised"
    None.

Definition UNCLASSIFIED_CSV_BAD_ROW : DlqFailureStory :=
  mkStory "unclassified_csv_bad_row" (None)
    "ValueError: invalid literal for int() with base 10: 'N/A' in column 'quantity' at row 8,214 of 12,000 — csv_upload aborted on attempt 3/3"
    None.

Definition UNCLASSIFIED_SCHEMA_MISSING_FIELD : DlqFailureStory :=
  mkStory "unclassified_schema_missing_field" (None)
    "SchemaValidationError: payload missing required field 'job_id' (received keys: []) — rejected on attempt 3/3 and the failure has not been categorised"
    None.

Definition MISLABELED_BAD_DATA : DlqFailureStory :=
  mkStory "mislabeled_bad_data" (Some REPLAY_SAFE)
    (st_error_message CSV_BAD_ROW)
    None.

(** The stories of each hint, the canonical one first. *)
Definition DLQ_FAILURE_STORIES : list (option string * list DlqFailureStory) :=
  [(Some REPLAY_SAFE, [UPSTREAM_TIMEOUT]);
   (Some WAIT_AND_REPLAY, [PARTNER_RATE_LIMITED; SMTP_UNREACHABLE]);
   (Some HUMAN_REQUIRED, [SCHEMA_MISSING_FIELD; CSV_BAD_ROW]);
   (None, [UNCLASSIFIED_WORKER_EXIT; UNCLASSIFIED_CSV_BAD_ROW; UNCLASSIFIED_SCHEMA_MISSING_FIELD])].

Definition ALL_STORIES : list DlqFailureStory := DLQ_FAILURE_STORIES ≫= snd.

(** The dictionary by key: a later story of the same key would replace an earlier one. *)
Definition STORIES_BY_KEY (key : string) : option DlqFailureStory := last (filter (λ s, st_key s = key) ALL_STORIES).

Definition repr_opt (o : option string) : string := match o with Some s => repr_str s | None => "None" end.

Definition stories_for (hint : option string) : result exn (list DlqFailureStory) :=
  match snd <$> find (λ e, bool_decide (e.1 = hint)) DLQ_FAILURE_STORIES with
  | Some stories => Ok stories
  | None =>
      let known := String.concat ", " (repr_str <$> omap fst DLQ_FAILURE_STORIES) in
      Err (KeyError ("no failure story for remediation_hint " +:+ repr_opt hint +:+ "; known hints: " +:+ known +:+
                     ", or None for uncategorised"))
  end.

Definition story_for (hint : option string) : result exn DlqFailureStory :=
  stories ← stories_for hint;
  match stories with s :: _ => Ok s | [] => Err (RuntimeError "IndexError: tuple index out of range") end.

Definition default_error_for (hint : option string) : result exn string := s ← story_for hint; Ok (st_error_message s).

Definition story (key : string) : result exn DlqFailureStory :=
  match STORIES_BY_KEY key with
  | Some s => Ok s
  | None =>
      let known := String.concat ", " (merge_sort string_le (st_key <$> ALL_STORIES)) in
      Err (KeyError ("no failure story keyed " +:+ repr_str key +:+ "; known: " +:+ known))
  end.

Definition sanctioned_incoherent_story : DlqFailureStory := MISLABELED_BAD_DATA.

(** *** The coherence rule *)

Definition PERMANENT_MARKERS : list string :=
  ["schemavalidationerror"; "valueerror"; "invalid literal"; "missing required field"; "malformed"; "corrupt"].
Definition BACKOFF_MARKERS : list string :=
  ["429"; "retry-after"; "ratelimited"; "rate limited"; "connectionrefusederror"; "connection refused"; "serviceunavailable"; "503"].
Definition TRANSIENT_MARKERS : list string :=
  ["timed out"; "timeouterror"; "upstreamtimeout"; "connectionreseterror"; "reset by peer"].

(** [m in text]. *)
Fixpoint contains (m text : string) : bool :=
  String.prefix m text || match text with String _ rest => contains m rest | EmptyString => false end.

Definition present (markers : list string) (text : string) : list string := filter (λ m, contains m (py_lower text) = true) markers.

Definition reason_if (b : bool) (reason : string) : list string := if b then [reason] else [].
Definition some_of (l : list string) : bool := negb (bool_decide (l = [])).
Definition comma_joined (l : list string) : string := String.concat ", " l.

Definition coherence_violations (hint : option string) (error_message : string) : list string :=
  let permanent := present PERMANENT_MARKERS error_message in
  let backoff := present BACKOFF_MARKERS error_message in
  let transient := present TRANSIENT_MARKERS error_message in
  match hint with
  | None =>
      let routable := transient ++ backoff in
      reason_if (some_of routable)
        ("uncategorised row's text reads as a fault a replay would clear (" +:+ comma_joined routable +:+ ") while the hint says " +:+
         "nothing has classified it — a null hint is UNKNOWN and explicitly not replay-safe, so a text that invites a " +:+
         "replay contradicts it")
  | Some h =>
      if bool_decide (h = REPLAY_SAFE) then
        reason_if (some_of permanent) ("replay_safe row reads as a permanent data fault (" +:+ comma_joined permanent +:+ ") — a replay cannot fix it") ++
        reason_if (some_of backoff) ("replay_safe row reads as a dependency refusing work (" +:+ comma_joined backoff +:+ ") — that is wait_and_replay") ++
        reason_if (negb (some_of transient))
          "replay_safe row names no transient fault, so nothing in the text says a replay would behave differently"
      else if bool_decide (h = WAIT_AND_REPLAY) then
        reason_if (some_of permanent) ("wait_and_replay row reads as a permanent data fault (" +:+ comma_joined permanent +:+ ") — waiting changes nothing") ++
        reason_if (negb (some_of backoff))
          "wait_and_replay row names nothing that would clear on its own, so the text does not say why to wait"
      else if bool_decide (h = HUMAN_REQUIRED) then
        reason_if (negb (some_of permanent))
          "human_required row names no permanent fault, so the text reads as something a replay could fix" ++
        reason_if (some_of transient || some_of backoff)
          ("human_required row reads as a transient fault (" +:+ comma_joined (transient ++ backoff) +:+ ") — that invites a replay the hint forbids")
      else ["unknown remediation_hint " +:+ repr_str h]
  end.

Definition triage_violations (hint : option string) (triage : option DlqTriage) : list string :=
  match hint, triage with
  | None, Some _ => ["uncategorised row carries a triage classification, which is itself a category"]
  | _, None => []
  | Some h, Some t =>
      reason_if (bool_decide (h ∈ [REPLAY_SAFE; WAIT_AND_REPLAY]) && negb (tg_is_retryable t)) (h +:+ " row's triage says is_retryable=False") ++
      reason_if (bool_decide (h = HUMAN_REQUIRED) && tg_is_retryable t) "human_required row's triage says is_retryable=True"
  end.

(** ** Shared by the tools *)

Section Tools.
Context `{SqlOrder, UuidSource, !Pydantic} (cfg : Settings).
(** [uuid.uuid5], the texts pydantic reports, and [repr] of a float. *)
Context (uuid5 : uuid → string → uuid) (validation_errors : string → dict → json) (float_repr : Q → string).
Context (doc : string → string) (schema : string → dict).

#[local] Abbreviation validated := (validated validation_errors).

Definition SEEDED_FIXTURE_MARKER : string := "seeded_fixture".

(** A field with [Literal] values, and one with the pattern of a fixture's name. *)
Definition literal (values : list string) (v : json) : option string := s ← plain_str v; if bool_decide (s ∈ values) then Some s else None.

Definition name_char (c : ascii) : bool :=
  let n := N_of_ascii c in ((97 <=? n) && (n <=? 122) || (48 <=? n) && (n <=? 57))%N.
Definition fixture_name_field (v : json) : option string :=
  s ← str_between 1 63 v;
  match chars s with
  | c :: rest => if name_char c && forallb (λ c, name_char c || bool_decide (c = "-"%char)) rest then Some s else None
  | [] => None
  end.

(** [_validated_hint]. *)
Definition SeedDlqHintError (m : string) : exn := ToolError 400 "unknown_remediation_hint" m.
Definition validated_hint (raw : string) : result exn string :=
  if bool_decide (raw ∈ [REPLAY_SAFE; WAIT_AND_REPLAY; HUMAN_REQUIRED]) then Ok raw
  else Err (SeedDlqHintError ("unknown remediation_hint " +:+ repr_str raw +:+ "; expected one of: " +:+
              String.concat ", " (merge_sort string_le [REPLAY_SAFE; WAIT_AND_REPLAY; HUMAN_REQUIRED]))).

(** *** The owner of a fixture *)

Definition CHAOS_OWNER_EMAIL_PREFIX : string := "chaos-owner".
Definition CHAOS_UNUSABLE_PASSWORD : string := "!chaos-owner-no-login".

(** [_ensure_chaos_owner]: a user nobody can log in as, one per tenant. *)
Definition chaos_owner_email (tenant : uuid) : string := CHAOS_OWNER_EMAIL_PREFIX +:+ "+" +:+ uuid_str tenant +:+ "@chaos.local".
Definition ensure_chaos_owner (now : Z) (tenant : uuid) (s : AuthStore) : result exn (User * AuthStore) :=
  match get_by_email (chaos_owner_email tenant) s with
  | Some u => Ok (u, s)
  | None =>
      let '(i, db) := draw_uuid (au_db s) in
      let u := mkUser i tenant (chaos_owner_email tenant) CHAOS_UNUSABLE_PASSWORD "user" false false now in
      if bool_decide (is_Some (au_users s !! i)) then Err IntegrityError
      else Ok (u, with_users (<[i := u]> (au_users s)) (with_auth_db db s))
  end.

(** [_fixture_owner]: any user of the tenant, whichever row the scan finds first. *)
Definition fixture_owner (now : Z) (tenant : uuid) (s : AuthStore) : result exn (User * AuthStore) :=
  match head (filter (λ u, us_tenant_id u = tenant) (sql_scan (map_to_list (au_users s)).*2)) with
  | Some u => Ok (u, s)
  | None => ensure_chaos_owner now tenant s
  end.

Definition with_mcp_auth (a : AuthStore) (s : McpStore) : McpStore := mkMcp a (mc_accounts s) (mc_idem s) (mc_hooks s).

(** A row with every column the tools leave to its default. *)
Definition fixture_row (i tenant user : uuid) (ty : string) (status : JobStatus) (payload : dict) (retry_count : Z)
    (error_message hint trace_id : option string) (at_ : Z) : Job :=
  mkJob i tenant user ty status None (Some payload) None error_message retry_count (max_job_attempts cfg) hint None None None 0
    trace_id None None None None None None at_ at_.

(** [a or b] for a text. *)
Definition text_or (a : option string) (b : result exn string) : result exn string :=
  match a with Some m => if bool_decide (m = "") then b else Ok m | None => b end.

(** ** seed_dlq_messages *)

Record SeedDlqMessagesInput := mkSeed { sd_hint : string; sd_count : Z; sd_job_type : string; sd_error_message : option string }.

Definition validate_seed (d : dict) : result json SeedDlqMessagesInput :=
  validated "SeedDlqMessagesInput" d
    (if only_fields ["remediation_hint"; "count"; "job_type"; "error_message"] d then
       h ← required (literal [REPLAY_SAFE; WAIT_AND_REPLAY; HUMAN_REQUIRED]) (dget d "remediation_hint");
       n ← defaulted 1%Z (int_between 1 50) (dget d "count");
       t ← defaulted "bulk_api_sync" plain_str (dget d "job_type");
       e ← nullable (str_between 0 2048) (dget d "error_message");
       Some (mkSeed h n t e)
     else None).

(** The loop: each row draws its own identifier at the flush. *)
Fixpoint seed_rows (n : nat) (row : uuid → Job) (db : DB) : result exn (list uuid * DB) :=
  match n with
  | O => Ok ([], db)
  | S n =>
      let '(i, db) := draw_uuid db in
      db ← insert_job (row i) db;
      rest ← seed_rows n row db;
      Ok (i :: rest.1, rest.2)
  end.

Definition seed_dlq_messages (inp : SeedDlqMessagesInput) (ctx : ToolContext) (s : McpStore) : result exn dict * McpStore :=
  let tenant := pn_tenant_id (cx_principal ctx) in
  let now := cx_now ctx 0%nat in
  match validated_hint (sd_hint inp) with
  | Err e => (Err e, s)
  | Ok hint =>
      match fixture_owner now tenant (mc_auth s) with
      | Err e => (Err e, s)
      | Ok (user, auth) =>
          let s := with_mcp_auth auth s in
          match (msg ← text_or (sd_error_message inp) (default_error_for (Some hint));
                 seed_rows (Z.to_nat (sd_count inp))
                   (λ i, fixture_row i tenant (us_id user) (sd_job_type inp) DEAD_LETTER [(SEEDED_FIXTURE_MARKER, JBool true)] 3
                           (Some msg) (Some hint) None now) (mc_db s)) with
          | Err e => (Err e, s)
          | Ok (ids, db) =>
              (Ok [("job_ids", JList (juuid <$> ids)); ("remediation_hint", JStr hint); ("count", JInt (sd_count inp)); ("accepted", JBool true)],
               with_mcp_db db s)
          end
      end
  end.

(** ** create_bad_data_job and create_mislabeled_dlq_job *)

(** Both write one row under an identifier of their own, or find it and compare. *)
Definition fixture_id (ns tenant : uuid) (fixture_name : string) : uuid := uuid5 ns (uuid_str tenant +:+ ":" +:+ fixture_name).

(** How a row found differs from the one declared; the two tools word it differently. *)
Definition row_drift (tenant : uuid) (hint : option string) (status_note : string) (hint_text : string) (existing : Job) : list string :=
  reason_if (bool_decide (job_tenant_id existing ≠ tenant)) "owned by another tenant" ++
  reason_if (bool_decide (job_status existing ≠ DEAD_LETTER))
    ("status is " +:+ repr_str (job_status_value (job_status existing)) +:+ ", not " +:+ repr_str (job_status_value DEAD_LETTER) +:+ status_note) ++
  reason_if (bool_decide (job_remediation_hint existing ≠ hint))
    ("remediation_hint is " +:+ repr_opt (job_remediation_hint existing) +:+ ", not the " +:+ hint_text).

Definition in_use (fixture_name : string) (existing : Job) (drift : list string) (advice : string) : string :=
  "fixture_name " +:+ repr_str fixture_name +:+ " is already in use by job " +:+ uuid_str (job_id existing) +:+
  " and no longer matches the declared fixture (" +:+ String.concat "; " drift +:+ "). " +:+ advice.

(** The row is there already: the idempotent repeat or the refusal.  It is not: the owner,
    then the row. *)
Definition place_row (i tenant : uuid) (now : Z) (drift : Job → list string) (refuse : Job → exn) (row : uuid → result exn Job)
    (reply : bool → dict) (s : McpStore) : result exn dict * McpStore :=
  match get_by_id i (mc_db s) with
  | Some existing => if some_of (drift existing) then (Err (refuse existing), s) else (Ok (reply false), s)
  | None =>
      match fixture_owner now tenant (mc_auth s) with
      | Err e => (Err e, s)
      | Ok (user, auth) =>
          let s := with_mcp_auth auth s in
          match (j ← row (us_id user); insert_job j (mc_db s)) with
          | Err e => (Err e, s)
          | Ok db => (Ok (reply true), with_mcp_db db s)
          end
      end
  end.

Definition BAD_DATA_NAMESPACE : uuid := 0xddddddddbad040008000000000000000.
Definition UNCLASSIFIED : string := "unclassified".

Record CreateBadDataJobInput := mkBadData { bd_fixture_name : string; bd_job_type : string; bd_hint : option string; bd_error_message : option string }.

Definition validate_bad_data (d : dict) : result json CreateBadDataJobInput :=
  validated "CreateBadDataJobInput" d
    (if only_fields ["fixture_name"; "job_type"; "remediation_hint"; "error_message"] d then
       n ← defaulted "bad-data-job" fixture_name_field (dget d "fixture_name");
       t ← defaulted "csv_upload" plain_str (dget d "job_type");
       h ← match dget d "remediation_hint" with
           | None => Some (Some HUMAN_REQUIRED)
           | v => nullable (literal [HUMAN_REQUIRED; UNCLASSIFIED]) v
           end;
       e ← nullable (str_between 0 2048) (dget d "error_message");
       Some (mkBadData n t h e)
     else None).

(** [_declared_hint]. *)
Definition declared_hint (raw : option string) : result exn (option string) :=
  match raw with
  | None => Ok None
  | Some r => if bool_decide (r = UNCLASSIFIED) then Ok None else h ← validated_hint r; Ok (Some h)
  end.

(** [_default_error_for]: a hint without a story is a [KeyError]. *)
Definition STORY_KEY_FOR_HINT (hint : option string) : result exn string :=
  match hint with
  | None => Ok "unclassified_csv_bad_row"
  | Some h => if bool_decide (h = HUMAN_REQUIRED) then Ok "csv_bad_row" else Err (KeyError h)
  end.
Definition bad_data_error_for (hint : option string) : result exn string :=
  k ← STORY_KEY_FOR_HINT hint; st ← story k; Ok (st_error_message st).

Definition CreateBadDataJobError (m : string) : exn := ToolError 409 "bad_data_fixture_name_in_use" m.

Definition create_bad_data_job (inp : CreateBadDataJobInput) (ctx : ToolContext) (s : McpStore) : result exn dict * McpStore :=
  let tenant := pn_tenant_id (cx_principal ctx) in
  let now := cx_now ctx 0%nat in
  let name := bd_fixture_name inp in
  match declared_hint (bd_hint inp) with
  | Err e => (Err e, s)
  | Ok hint =>
      let i := fixture_id BAD_DATA_NAMESPACE tenant name in
      let drift := row_drift tenant hint "" ("declared " +:+ repr_opt hint) in
      let refuse j := CreateBadDataJobError (in_use name j (drift j)
        "Pick a different fixture_name or reset the environment; this hook never rewrites existing rows.") in
      let reply created := [("job_id", juuid i); ("fixture_name", JStr name); ("remediation_hint", jstr_opt hint);
                            ("created", JBool created); ("accepted", JBool true)] in
      place_row i tenant now drift refuse
        (λ u, msg ← text_or (bd_error_message inp) (bad_data_error_for hint);
              Ok (fixture_row i tenant u (bd_job_type inp) DEAD_LETTER
                    [(SEEDED_FIXTURE_MARKER, JBool true); ("chaos_fixture", JStr "bad_data_job"); ("fixture_name", JStr name)] 3
                    (Some msg) hint None now)) reply s
  end.

Definition MISLABELED_NAMESPACE : uuid := 0xffffffff11ed40008000000000000000.

Record CreateMislabeledDlqJobInput := mkMislabeled { ml_fixture_name : string; ml_job_type : string }.

(** [mislabel: Literal[True]], without a default. *)
Definition literal_true (v : json) : option unit := match v with JBool true => Some tt | _ => None end.

Definition validate_mislabeled (d : dict) : result json CreateMislabeledDlqJobInput :=
  validated "CreateMislabeledDlqJobInput" d
    (if only_fields ["mislabel"; "fixture_name"; "job_type"] d then
       _ ← required literal_true (dget d "mislabel");
       n ← defaulted "mislabeled-dlq-job" fixture_name_field (dget d "fixture_name");
       t ← defaulted "csv_upload" plain_str (dget d "job_type");
       Some (mkMislabeled n t)
     else None).

Definition CreateMislabeledDlqJobError (m : string) : exn := ToolError 409 "mislabeled_fixture_name_in_use" m.

Definition create_mislabeled_dlq_job (inp : CreateMislabeledDlqJobInput) (ctx : ToolContext) (s : McpStore) : result exn dict * McpStore :=
  let tenant := pn_tenant_id (cx_principal ctx) in
  let now := cx_now ctx 0%nat in
  let name := ml_fixture_name inp in
  let i := fixture_id MISLABELED_NAMESPACE tenant name in
  let lie := sanctioned_incoherent_story in
  let drift := row_drift tenant (st_hint lie) " — something replayed it" ("mislabel " +:+ repr_opt (st_hint lie) +:+ " — something re-classified it") in
  let refuse j := CreateMislabeledDlqJobError (in_use name j (drift j)
    "That row is a run's result; this hook never rewrites it. Pick a different fixture_name or reset the environment.") in
  let reply created := [("job_id", juuid i); ("fixture_name", JStr name); ("remediation_hint", jstr_opt (st_hint lie));
                        ("error_message", JStr (st_error_message lie)); ("created", JBool created); ("accepted", JBool true)] in
  place_row i tenant now drift refuse
    (λ u, Ok (fixture_row i tenant u (ml_job_type inp) DEAD_LETTER
                [(SEEDED_FIXTURE_MARKER, JBool true); ("chaos_fixture", JStr "mislabeled_dlq_job"); ("fixture_name", JStr name)] 3
                (Some (st_error_message lie)) (st_hint lie) None now)) reply s.

(** ** create_stuck_dag *)

Definition CHAIN_NAMESPACE : uuid := 0xcccccccc57ac40008000000000000000.
Definition MAX_WAITING_STEPS : nat := 10.
Definition MAX_CHILD_AGE_SECONDS : Z := 86400.

Definition chain_id (tenant : uuid) (chain_name role : string) : uuid :=
  uuid5 CHAIN_NAMESPACE (uuid_str tenant +:+ ":" +:+ chain_name +:+ ":" +:+ role).

Record CreateStuckDagInput := mkStuck {
  sk_chain_name : string;
  sk_waiting_steps : Z;
  sk_job_type : string;
  sk_hint : string;
  sk_error_message : option string;
  sk_root_completed : bool;  (** [root_status == "completed"] *)
  sk_child_age_seconds : Z;
  sk_failed_step : option Z
}.

(** The model validator: a failed step needs a completed root and lies in the chain. *)
Definition failed_step_ok (inp : CreateStuckDagInput) : bool :=
  match sk_failed_step inp with
  | None => true
  | Some k => sk_root_completed inp && (k <=? sk_waiting_steps inp)%Z
  end.

Definition validate_stuck_dag (d : dict) : result json CreateStuckDagInput :=
  validated "CreateStuckDagInput" d
    (if only_fields ["chain_name"; "waiting_steps"; "job_type"; "remediation_hint"; "error_message"; "root_status"; "child_age_seconds"; "failed_step"] d then
       n ← defaulted "stuck-dag" fixture_name_field (dget d "chain_name");
       w ← defaulted 2%Z (int_between 1 (Z.of_nat MAX_WAITING_STEPS)) (dget d "waiting_steps");
       t ← defaulted "bulk_api_sync" plain_str (dget d "job_type");
       h ← defaulted WAIT_AND_REPLAY plain_str (dget d "remediation_hint");
       e ← nullable (str_between 0 2048) (dget d "error_message");
       r ← defaulted "dead_letter" (literal ["dead_letter"; "completed"]) (dget d "root_status");
       a ← defaulted 0%Z (int_between 0 MAX_CHILD_AGE_SECONDS) (dget d "child_age_seconds");
       f ← nullable (int_between 1 (Z.of_nat MAX_WAITING_STEPS)) (dget d "failed_step");
       let inp := mkStuck n w t h e (bool_decide (r = "completed")) a f in
       if failed_step_ok inp then Some inp else None
     else None).

(** [_step_status]: the descendant at a position counted from 1. *)
Definition step_status (position : Z) (failed_step : option Z) : JobStatus :=
  match failed_step with
  | None => WAITING
  | Some k => if (k <? position)%Z then WAITING else if (position =? k)%Z then DEAD_LETTER else COMPLETED
  end.

(** [d[k] = v] on a dictionary of rows. *)
Fixpoint row_set (k : uuid) (v : JobStatus) (l : list (uuid * JobStatus)) : list (uuid * JobStatus) :=
  match l with
  | [] => [(k, v)]
  | (k', v') :: l => if bool_decide (k = k') then (k, v) :: l else (k', v') :: row_set k v l
  end.
Definition row_get (k : uuid) (l : list (uuid * JobStatus)) : option JobStatus := snd <$> find (λ e, bool_decide (e.1 = k)) l.

(** The identifiers and the shape of the chain a call declares. *)
Definition step_role (n : nat) : string := "step-" +:+ show_Z (Z.of_nat n + 1).
Definition all_step_ids (tenant : uuid) (name : string) : list uuid := (λ n, chain_id tenant name (step_role n)) <$> seq 0 MAX_WAITING_STEPS.
Definition step_ids (tenant : uuid) (inp : CreateStuckDagInput) : list uuid :=
  take (Z.to_nat (sk_waiting_steps inp)) (all_step_ids tenant (sk_chain_name inp)).
Definition upstream_id (tenant : uuid) (name : string) : uuid := chain_id tenant name "upstream".
Definition root_id (tenant : uuid) (name : string) : uuid := chain_id tenant name "root".

Definition expected_rows (tenant : uuid) (inp : CreateStuckDagInput) : list (uuid * JobStatus) :=
  let name := sk_chain_name inp in
  let start := row_set (root_id tenant name) (if sk_root_completed inp then COMPLETED else DEAD_LETTER) [(upstream_id tenant name, COMPLETED)] in
  foldl (λ l x, row_set x.2 (step_status (Z.of_nat x.1 + 1) (sk_failed_step inp)) l) start (imap pair (step_ids tenant inp)).

(** The row the hint and the text belong to. *)
Definition dead_letter_id (tenant : uuid) (inp : CreateStuckDagInput) : option uuid :=
  if sk_root_completed inp then k ← sk_failed_step inp; step_ids tenant inp !! Z.to_nat (k - 1)
  else Some (root_id tenant (sk_chain_name inp)).

(** [_assert_intact]: what of the stored rows differs from the declared chain. *)
Definition expected_drift (tenant : uuid) (by_id : uuid → option Job) (e : uuid * JobStatus) : option string :=
  match by_id e.1 with
  | None => Some (uuid_str e.1 +:+ ": missing")
  | Some row =>
      if bool_decide (job_tenant_id row ≠ tenant) then Some (uuid_str e.1 +:+ ": owned by another tenant")
      else if bool_decide (job_status row ≠ e.2) then
        Some (uuid_str e.1 +:+ ": " +:+ repr_str (job_status_value (job_status row)) +:+ " != " +:+ repr_str (job_status_value e.2))
      else None
  end.
Definition uuid_text_le (a b : uuid) : Prop := string_le (uuid_str a) (uuid_str b).
#[local] Instance uuid_text_le_dec : RelDecision uuid_text_le.
Proof. intros a b. unfold uuid_text_le. apply _. Defined.

Definition chain_drift (tenant : uuid) (expected : list (uuid * JobStatus)) (ids : list uuid) (by_id : uuid → option Job) : list string :=
  omap (expected_drift tenant by_id) expected ++
  omap (λ i, (λ row, uuid_str i +:+ ": unexpected extra descendant (status " +:+ repr_str (job_status_value (job_status row)) +:+
                     ") — the stored chain is longer than the one requested") <$> by_id i)
    (merge_sort uuid_text_le (remove_dups (filter (λ i, is_Some (by_id i) ∧ i ∉ expected.*1) ids))).

Definition CreateStuckDagError (m : string) : exn := ToolError 409 "stuck_chain_name_in_use" m.

(** The rows, then the edges, each from the row before it. *)
Definition insert_rows (rows : list Job) (db : DB) : result exn DB := foldl (λ acc j, db ← acc; insert_job j db) (Ok db) rows.

Fixpoint link_chain (parent : uuid) (chain : list uuid) (deps : list JobDependency) : result exn (list JobDependency) :=
  match chain with
  | [] => Ok deps
  | c :: chain => deps ← dep_add c [parent] deps; link_chain c chain deps
  end.

Definition chain_row (tenant user : uuid) (inp : CreateStuckDagInput) (hint msg : string) (at_ : Z) (e : uuid * JobStatus) : Job :=
  let dead := bool_decide (dead_letter_id tenant inp = Some e.1) in
  fixture_row e.1 tenant user (sk_job_type inp) e.2 [(SEEDED_FIXTURE_MARKER, JBool true); ("chain", JStr (sk_chain_name inp))]
    (if dead then 3 else 0) (if dead then Some msg else None) (if dead then Some hint else None)
    (Some (uuid_str (chain_id tenant (sk_chain_name inp) ("trace:" +:+ uuid_str e.1)))) at_.

Definition stuck_reply (tenant : uuid) (inp : CreateStuckDagInput) (created : bool) : dict :=
  let expected := expected_rows tenant inp in
  let steps := step_ids tenant inp in
  [("root_job_id", juuid (root_id tenant (sk_chain_name inp))); ("completed_parent_id", juuid (upstream_id tenant (sk_chain_name inp)));
   ("waiting_job_ids", JList (juuid <$> filter (λ i, row_get i expected = Some WAITING) steps)); ("step_job_ids", JList (juuid <$> steps));
   ("dead_letter_job_id", match dead_letter_id tenant inp with Some i => juuid i | None => JNull end);
   ("chain_name", JStr (sk_chain_name inp)); ("created", JBool created); ("accepted", JBool true)].

Definition build_chain (tenant user : uuid) (inp : CreateStuckDagInput) (hint msg : string) (at_ : Z) (db : DB) : result exn DB :=
  db ← insert_rows (chain_row tenant user inp hint msg at_ <$> expected_rows tenant inp) db;
  deps ← link_chain (upstream_id tenant (sk_chain_name inp)) (root_id tenant (sk_chain_name inp) :: step_ids tenant inp) (db_deps db);
  Ok (with_deps deps db).

Definition create_stuck_dag (inp : CreateStuckDagInput) (ctx : ToolContext) (s : McpStore) : result exn dict * McpStore :=
  let tenant := pn_tenant_id (cx_principal ctx) in
  let now := cx_now ctx 0%nat in
  let name := sk_chain_name inp in
  let ids := upstream_id tenant name :: root_id tenant name :: all_step_ids tenant name in
  let by_id i := if bool_decide (i ∈ ids) then get_by_id i (mc_db s) else None in
  match validated_hint (sk_hint inp) with
  | Err e => (Err e, s)
  | Ok hint =>
      if existsb (λ i, bool_decide (is_Some (by_id i))) ids then
        let drift := chain_drift tenant (expected_rows tenant inp) ids by_id in
        if some_of drift then
          (Err (CreateStuckDagError ("chain_name " +:+ repr_str name +:+ " is already in use and no longer matches the manufactured chain (" +:+
                  String.concat "; " drift +:+ "). Pick a different chain_name or reset the environment; this hook never rewrites existing rows.")), s)
        else (Ok (stuck_reply tenant inp false), s)
      else
        match fixture_owner now tenant (mc_auth s) with
        | Err e => (Err e, s)
        | Ok (user, auth) =>
            let s := with_mcp_auth auth s in
            let at_ := (now - sk_child_age_seconds inp * 1000000)%Z in
            match (msg ← text_or (sk_error_message inp) (default_error_for (Some hint));
                   build_chain tenant (us_id user) inp hint msg at_ (mc_db s)) with
            | Err e => (Err e, s)
            | Ok db => (Ok (stuck_reply tenant inp true), with_mcp_db db s)
            end
        end
  end.

(** ** Redis faults *)

(** *** create_stale_cache *)

Definition DEFAULT_HOT_SET_KEY : string := "cache:jobs:worker-dispatcher:hot_set".
Definition STALE_ALLOWED_PREFIXES : list string := ["cache:"; "jobs:cache:"; "read_model:"].
Definition FORBIDDEN_PREFIXES : list string := ["cache:job:"].

Definition key_admitted (key : string) : bool :=
  negb (existsb (λ p, String.prefix p key) FORBIDDEN_PREFIXES) && existsb (λ p, String.prefix p key) STALE_ALLOWED_PREFIXES.

Record CreateStaleCacheInput := mkStale { sc_key : string; sc_stale_count : Z; sc_ttl_seconds : Z }.

Definition validate_stale (d : dict) : result json CreateStaleCacheInput :=
  validated "CreateStaleCacheInput" d
    (if only_fields ["key"; "stale_count"; "ttl_seconds"] d then
       k ← defaulted DEFAULT_HOT_SET_KEY (str_between 1 512) (dget d "key");
       n ← defaulted 3%Z (int_between 1 100) (dget d "stale_count");
       t ← defaulted 600%Z (int_between 1 3600) (dget d "ttl_seconds");
       Some (mkStale k n t)
     else None).

Definition CreateStaleCacheError (m : string) : exn := ToolError 400 "stale_cache_key_forbidden" m.

(** [f"stale-fixture-{uuid.uuid4().hex[:12]}"], drawn anew for each entry. *)
Definition stale_entry (u : uuid) : string := "stale-fixture-" +:+ String.string_of_list_ascii (take 12 (hex_digits 32 u)).
Definition draw_stale (n : Z) (db : DB) : list string * DB :=
  Nat.iter (Z.to_nat n) (λ acc, let '(u, db) := draw_uuid acc.2 in (acc.1 ++ [stale_entry u], db)) ([], db).

Definition create_stale_cache (inp : CreateStaleCacheInput) (ctx : ToolContext) (s : McpStore) : result exn dict * McpStore :=
  let key := sc_key inp in
  if existsb (λ p, String.prefix p key) FORBIDDEN_PREFIXES then
    (Err (CreateStaleCacheError ("Key " +:+ repr_str key +:+ " is inside the platform's live per-job read cache (" +:+
            py_repr (JList (JStr <$> FORBIDDEN_PREFIXES)) +:+ "), which serves `GET /jobs/{id}`. This hook writes a JSON array, so the " +:+
            "write would break that endpoint for real users until the TTL lapsed. Use the default hot_set fixture key instead.")), s)
  else if negb (key_admitted key) then
    (Err (CreateStaleCacheError ("Key " +:+ repr_str key +:+ " is not under an allowlisted prefix. Allowed: " +:+
            py_repr (JList (JStr <$> STALE_ALLOWED_PREFIXES)) +:+ ". `invalidate_cache_key` (the compensator) would refuse to clear a key outside " +:+
            "these prefixes, so the round-trip would be broken.")), s)
  else
    let '(entries, db) := draw_stale (sc_stale_count inp) (mc_db s) in
    let payload := json_dumps (JList (JStr <$> entries)) in
    match redis_set ctx 0 key payload (sc_ttl_seconds inp) (with_mcp_db db s) with
    | (Err e, s) => (Err e, s)
    | (Ok _, s) => (Ok [("key", JStr key); ("size_bytes", JInt (Z.of_nat (String.length payload))); ("ttl_seconds", JInt (sc_ttl_seconds inp));
                        ("accepted", JBool true)], s)
    end.

(** *** degrade_downstream *)

Definition MAX_DELAY_MS : Z := 30000.
Record DegradeDownstreamInput := mkDegrade { dd_mode : string; dd_delay_ms : Z; dd_ttl_seconds : Z }.

Definition validate_degrade (d : dict) : result json DegradeDownstreamInput :=
  validated "DegradeDownstreamInput" d
    (if only_fields ["mode"; "delay_ms"; "ttl_seconds"] d then
       m ← defaulted "fail" (literal ["fail"; "slow"]) (dget d "mode");
       n ← defaulted 2000%Z (int_between 1 MAX_DELAY_MS) (dget d "delay_ms");
       t ← defaulted 300%Z (int_between 1 3600) (dget d "ttl_seconds");
       Some (mkDegrade m n t)
     else None).

Definition degrade_downstream (inp : DegradeDownstreamInput) (ctx : ToolContext) (s : McpStore) : result exn dict * McpStore :=
  let key := Bulk.DOWNSTREAM_FLAG_KEY in
  match redis_set ctx 0 key (dd_mode inp +:+ ":" +:+ show_Z (dd_delay_ms inp)) (dd_ttl_seconds inp) s with
  | (Err e, s) => (Err e, s)
  | (Ok _, s) =>
      (Ok [("dependency", JStr (bc_name Bulk.bulk_api_breaker)); ("flag_key", JStr key); ("mode", JStr (dd_mode inp));
           ("delay_ms", JInt (if bool_decide (dd_mode inp = Bulk.DEGRADE_SLOW) then dd_delay_ms inp else 0));
           ("ttl_seconds", JInt (dd_ttl_seconds inp)); ("failure_threshold", JInt (bc_failure_threshold Bulk.bulk_api_breaker));
           ("recovery_timeout_seconds", JFloat (float_repr (bc_recovery_timeout Bulk.bulk_api_breaker))); ("accepted", JBool true)], s)
  end.

(** *** inject_latency *)

Record InjectLatencyInput := mkLatency { il_consumer_group : string; il_latency_ms : Z; il_ttl_seconds : Z }.

Definition validate_latency (d : dict) : result json InjectLatencyInput :=
  validated "InjectLatencyInput" d
    (if only_fields ["consumer_group"; "latency_ms"; "ttl_seconds"] d then
       g ← required (str_between 1 128) (dget d "consumer_group");
       n ← required (int_between 1 60000) (dget d "latency_ms");
       t ← defaulted 300%Z (int_between 1 3600) (dget d "ttl_seconds");
       Some (mkLatency g n t)
     else None).

Definition inject_latency (inp : InjectLatencyInput) (ctx : ToolContext) (s : McpStore) : result exn dict * McpStore :=
  let key := Kill.latency_key_for (il_consumer_group inp) in
  match redis_set ctx 0 key (show_Z (il_latency_ms inp)) (il_ttl_seconds inp) s with
  | (Err e, s) => (Err e, s)
  | (Ok _, s) => (Ok [("consumer_group", JStr (il_consumer_group inp)); ("latency_key", JStr key); ("latency_ms", JInt (il_latency_ms inp));
                      ("ttl_seconds", JInt (il_ttl_seconds inp)); ("accepted", JBool true)], s)
  end.

(** ** The declarations *)

#[local] Abbreviation spec := (tool_spec doc schema).

Definition lab_tools : list tool_decl :=
  [ChaosTool ENVIRONMENT_WIDE (spec "seed_dlq_messages" validate_seed seed_dlq_messages);
   ChaosTool ENVIRONMENT_WIDE (spec "create_bad_data_job" validate_bad_data create_bad_data_job);
   ChaosTool ENVIRONMENT_WIDE (spec "create_mislabeled_dlq_job" validate_mislabeled create_mislabeled_dlq_job);
   ChaosTool ENVIRONMENT_WIDE (spec "create_stuck_dag" validate_stuck_dag create_stuck_dag);
   ChaosTool ENVIRONMENT_WIDE (spec "create_stale_cache" validate_stale create_stale_cache);
   ChaosTool SINGLE_SERVICE (spec "degrade_downstream" validate_degrade degrade_downstream);
   ChaosTool SINGLE_CONSUMER (spec "inject_latency" validate_latency inject_latency)].
End Tools.
