(* ===== verification/LabFixturesProps.v ===== *)
(** * Theorems about the lab's fixtures

    A fixture tool only adds marked rows of the caller's tenant, whose texts agree with
    their hints; a chain behind a dead letter is promoted by nobody; a repeated call finds
    its own rows; and what the faults write is what their readers and their compensator
    expect. *)
From stdpp Require Import base tactics numbers option list gmap strings sorting relations.
From Stdlib Require Import ZArith QArith Ascii.
From S2P Require Import Prelude PyData Codec Models Database JobEvents JobRepo Cascade Redis DagPause JobService Dispatcher Sweeps Resolver DbInv OpsInv SweepProps Fixtures Supervision CircuitBreaker Processors Accounts Auth McpServer McpServerProps McpActions McpReads McpActionsProps LabFixtures.

(** ** The story table *)

Definition coherent (hint : option string) (msg : string) : bool := bool_decide (coherence_violations hint msg = []).

(** Every declared story is coherent, filed under its own hint and its own key. *)
Lemma table_checked :
  forallb (λ e, forallb (λ s, bool_decide (st_hint s = e.1) && coherent (st_hint s) (st_error_message s) &&
                              bool_decide (triage_violations (st_hint s) (st_triage s) = [])) e.2) DLQ_FAILURE_STORIES &&
  bool_decide (NoDup (st_key <$> ALL_STORIES)) = true.
Proof. vm_compute. reflexivity. Qed.

Lemma lie_checked : coherent (st_hint sanctioned_incoherent_story) (st_error_message sanctioned_incoherent_story) = false.
Proof. vm_compute. reflexivity. Qed.

Lemma default_text_coherent hint msg : default_error_for hint = Ok msg → coherent hint msg = true.
Proof.
  unfold default_error_for, story_for, stories_for. destruct (find _ _) as [[h stories]|] eqn:Ef; [|done].
  apply find_some in Ef as [Hin Hh]. apply bool_decide_eq_true in Hh. cbn in Hh. subst h.
  pose proof table_checked as Ht. apply andb_true_iff in Ht as [Ht _].
  cbn [option_fmap option_map fmap snd]. cbn [mbind result_mbind]. destruct stories as [|st stories]; [done|]. cbn [mbind result_mbind].
  intros [= <-]. eapply forallb_forall in Ht; [|exact Hin]. cbn [snd fst forallb] in Ht.
  apply andb_true_iff in Ht as [Ht _]. apply andb_true_iff in Ht as [Ht _]. apply andb_true_iff in Ht as [Hs Hc].
  apply bool_decide_eq_true in Hs. by rewrite Hs in Hc.
Qed.

Lemma bad_data_text_coherent hint msg : bad_data_error_for hint = Ok msg → coherent hint msg = true.
Proof.
  assert (E1 : bad_data_error_for (Some HUMAN_REQUIRED) = Ok (st_error_message CSV_BAD_ROW)) by (vm_compute; reflexivity).
  assert (E2 : bad_data_error_for None = Ok (st_error_message UNCLASSIFIED_CSV_BAD_ROW)) by (vm_compute; reflexivity).
  destruct hint as [h|].
  - destruct (decide (h = HUMAN_REQUIRED)) as [->|Hne].
    + rewrite E1. intros [= <-]. vm_compute. reflexivity.
    + unfold bad_data_error_for, STORY_KEY_FOR_HINT. by rewrite bool_decide_false.
  - rewrite E2. intros [= <-]. vm_compute. reflexivity.
Qed.

Section Props.
Context `{SqlOrder, UuidSource, !Pydantic, !PyCodec} (cfg : Settings).
Context (uuid5 : uuid → string → uuid) (validation_errors : string → dict → json) (float_repr : Q → string).
Context (doc : string → string) (schema : string → dict).

(** ** What a fixture call may change *)

Definition no_text (o : option string) : Prop := o = None ∨ o = Some "".

Definition seeded (tenant : uuid) (j : Job) : Prop :=
  job_tenant_id j = tenant ∧ dget (default [] (job_payload j)) SEEDED_FIXTURE_MARKER = Some (JBool true).

(** Jobs are only added, each a marked row of the tenant that satisfies [ok]; edges are
    only added; nothing is queued for Kafka and no audit row is written. *)
Record adds (tenant : uuid) (ok : Job → Prop) (db db' : DB) : Prop := {
  ad_old : ∀ i j, db_jobs db !! i = Some j → db_jobs db' !! i = Some j;
  ad_new : ∀ i j, db_jobs db' !! i = Some j → db_jobs db !! i = None → job_id j = i ∧ seeded tenant j ∧ ok j;
  ad_deps : ∀ d, d ∈ db_deps db → d ∈ db_deps db';
  ad_outbox : db_outbox db' = db_outbox db;
  ad_audit : db_audit db' = db_audit db
}.

Lemma adds_refl tenant ok db : adds tenant ok db db.
Proof. split; try done. intros i j -> ?. done. Qed.

Lemma adds_trans tenant ok a b c : adds tenant ok a b → adds tenant ok b c → adds tenant ok a c.
Proof.
  intros [O1 N1 D1 B1 A1] [O2 N2 D2 B2 A2]. split; [auto| |auto|congruence|congruence].
  intros i j Hc Ha. destruct (db_jobs b !! i) as [x|] eqn:Eb; [|by apply N2]. rewrite (O2 i x Eb) in Hc. simplify_eq. by apply N1.
Qed.

Lemma adds_insert tenant ok j db db' : seeded tenant j → ok j → insert_job j db = Ok db' → adds tenant ok db db'.
Proof.
  intros Hs Hok Hi. apply insert_job_ok in Hi as (Hn & _ & ->). split; try done; cbn.
  - intros i x Hx. rewrite lookup_insert_ne; [done|]. intros <-. congruence.
  - intros i x. rewrite lookup_insert. case_decide; [|congruence]. intros [= <-]. done.
Qed.

Lemma adds_draw tenant ok db u db' : draw_uuid db = (u, db') → adds tenant ok db db'.
Proof. intros [= <- <-]. split; try done; cbn. congruence. Qed.

Lemma owner_adds tenant ok now t a u a' : fixture_owner now t a = Ok (u, a') → adds tenant ok (au_db a) (au_db a') ∧ db_jobs (au_db a') = db_jobs (au_db a) ∧ db_deps (au_db a') = db_deps (au_db a).
Proof.
  unfold fixture_owner, ensure_chaos_owner. case_match; [intros [= <- <-]; by split; [apply adds_refl|]|].
  case_match; [intros [= <- <-]; by split; [apply adds_refl|]|]. destruct (draw_uuid (au_db a)) as [i db] eqn:Ed.
  case_bool_decide; [done|]. intros [= <- <-]. split; [by eapply adds_draw|]. by injection Ed as _ <-.
Qed.

Lemma insert_rows_spec rows db db' :
  insert_rows rows db = Ok db' →
  (∀ j, j ∈ rows → db_jobs db' !! job_id j = Some j) ∧ (∀ i j, db_jobs db !! i = Some j → db_jobs db' !! i = Some j) ∧
  (∀ i j, db_jobs db' !! i = Some j → db_jobs db !! i = None → job_id j = i ∧ j ∈ rows) ∧
  db_deps db' = db_deps db ∧ db_outbox db' = db_outbox db ∧ db_audit db' = db_audit db.
Proof.
  unfold insert_rows. revert db. induction rows as [|j rows IH]; intros db Hi.
  { injection Hi as <-. split_and!; try done; [set_solver|]. intros i j -> ?. done. }
  cbn [foldl mbind result_mbind] in Hi. destruct (insert_job j db) as [db1|e] eqn:E1.
  2:{ exfalso. clear -Hi. induction rows as [|x rows IH]; [done|by apply IH]. }
  destruct (IH db1 Hi) as (R & O & N & D & B & A). apply insert_job_ok in E1 as (Hn & _ & ->). cbn in *.
  assert (Hj : db_jobs db' !! job_id j = Some j) by (apply O; by rewrite lookup_insert_eq). split_and!; try done.
  - intros x [->|Hx]%elem_of_cons; [done|by apply R].
  - intros i x Hx. apply O. rewrite lookup_insert_ne; [done|]. intros <-. congruence.
  - intros i x Hx Hnone. destruct (decide (i = job_id j)) as [->|Hne].
    + rewrite Hj in Hx. simplify_eq. split; [done|left].
    + destruct (N i x Hx) as [? ?]; [by rewrite lookup_insert_ne|]. split; [done|by right].
Qed.

Lemma dep_add_one c p deps deps' : dep_add c [p] deps = Ok deps' → deps' = deps ++ [mkDep c p].
Proof. cbn. case_bool_decide; [done|]. by intros [= <-]. Qed.

Lemma link_chain_spec parent chain deps deps' :
  link_chain parent chain deps = Ok deps' →
  (∀ d, d ∈ deps → d ∈ deps') ∧ (∀ n c p, chain !! n = Some c → (parent :: chain) !! n = Some p → mkDep c p ∈ deps').
Proof.
  revert parent deps. induction chain as [|c chain IH]; intros parent deps Hl; [by injection Hl as <-|].
  apply bind_ok in Hl as (deps1 & Hd1 & Hd2). apply dep_add_one in Hd1 as ->. destruct (IH _ _ Hd2) as [K E]. split.
  - intros d Hd. apply K, elem_of_app. by left.
  - intros [|n] c' p Hc Hp; cbn in *; simplify_eq; [apply K, elem_of_app; right; by apply list_elem_of_singleton|].
    by eapply E.
Qed.

(** *** The declared chain *)

Lemma row_set_elem k v l e : e ∈ row_set k v l → e = (k, v) ∨ e ∈ l.
Proof.
  induction l as [|[k' v'] l IH]; cbn; [intros ->%list_elem_of_singleton; by left|].
  case_bool_decide; intros [->|He]%elem_of_cons; [by left|right; by right|right; left|].
  destruct (IH He) as [?|?]; [by left|right; by right].
Qed.

Lemma expected_elem tenant inp e :
  e ∈ expected_rows uuid5 tenant inp →
  e = (upstream_id uuid5 tenant (sk_chain_name inp), COMPLETED) ∨
  e = (root_id uuid5 tenant (sk_chain_name inp), if sk_root_completed inp then COMPLETED else DEAD_LETTER) ∨
  ∃ n i, step_ids uuid5 tenant inp !! n = Some i ∧ e = (i, step_status (Z.of_nat n + 1) (sk_failed_step inp)).
Proof.
  unfold expected_rows. cbv zeta. set (start := row_set _ _ _).
  assert (Hgen : ∀ xs l, e ∈ foldl (λ l x, row_set x.2 (step_status (Z.of_nat x.1 + 1) (sk_failed_step inp)) l) l xs →
                         e ∈ l ∨ ∃ x, x ∈ xs ∧ e = (x.2, step_status (Z.of_nat x.1 + 1) (sk_failed_step inp))).
  { intros xs. induction xs as [|x xs IH]; intros l He; [by left|]. cbn [foldl] in He. destruct (IH _ He) as [Hr|(y & Hy & ->)].
    - apply row_set_elem in Hr as [->|Hr]; [right; exists x; split; [left|done]|by left].
    - right. exists y. split; [by right|done]. }
  intros He. destruct (Hgen _ _ He) as [Hs|(x & Hx & ->)].
  - apply row_set_elem in Hs as [->|Hs%list_elem_of_singleton]; [by right; left|by left].
  - right. right. apply elem_of_lookup_imap in Hx as (n & i & -> & Hi). by exists n, i.
Qed.

(** The one dead-lettered row of the chain is the one the text belongs to. *)
Lemma dead_row tenant inp e :
  failed_step_ok inp = true → e ∈ expected_rows uuid5 tenant inp → e.2 = DEAD_LETTER → dead_letter_id uuid5 tenant inp = Some e.1.
Proof.
  intros Hf He Hd. unfold dead_letter_id, failed_step_ok in *.
  apply expected_elem in He as [->|[->|(n & i & Hi & ->)]]; cbn [fst snd] in *; [done|by destruct (sk_root_completed inp)|].
  unfold step_status in Hd. destruct (sk_failed_step inp) as [k|]; [|done]. destruct (k <? Z.of_nat n + 1)%Z; [done|].
  destruct (Z.eqb_spec (Z.of_nat n + 1) k) as [<-|]; [|done]. apply andb_true_iff in Hf as [-> _]. cbn.
  replace (Z.to_nat (Z.of_nat n + 1 - 1)) with n by lia. done.
Qed.

(** *** The tools *)

Definition coherent_row (j : Job) : Prop :=
  ∃ msg, job_error_message j = Some msg ∧ coherent (job_remediation_hint j) msg = true.

Lemma text_plain a b msg : no_text a → text_or a b = Ok msg → b = Ok msg.
Proof. by intros [->| ->]. Qed.

Lemma seed_rows_adds tenant ok n row db ids db' :
  (∀ i, seeded tenant (row i) ∧ ok (row i)) → seed_rows n row db = Ok (ids, db') → adds tenant ok db db' ∧ length ids = n.
Proof.
  intros Hrow. revert db ids. induction n as [|n IH]; intros db ids Hs; [injection Hs as <- <-; by split; [apply adds_refl|]|].
  cbn [seed_rows] in Hs. destruct (draw_uuid db) as [i db1] eqn:Ed. apply bind_ok in Hs as (db2 & Hi & Hs).
  apply bind_ok in Hs as ([rest db3] & Hr & Hs). injection Hs as <- <-. destruct (IH _ _ Hr) as [Ha Hl]. destruct (Hrow i). split.
  - eapply adds_trans; [by eapply adds_draw|]. eapply adds_trans; [|exact Ha]. by eapply adds_insert.
  - cbn. by rewrite Hl.
Qed.

Lemma place_row_adds i tenant now drift refuse row reply s out s' ok :
  (∀ u j, row u = Ok j → seeded tenant j ∧ ok j) →
  place_row i tenant now drift refuse row reply s = (Ok out, s') → adds tenant ok (mc_db s) (mc_db s').
Proof.
  intros Hrow. unfold place_row. case_match; [case_match; [done|]; intros [= <- <-]; apply adds_refl|].
  destruct (fixture_owner now tenant (mc_auth s)) as [[u a]|] eqn:Eo; [|done].
  destruct (row (us_id u)) as [j|] eqn:Er; [|done]. cbn [mbind result_mbind].
  destruct (insert_job j (mc_db (with_mcp_auth a s))) as [db|] eqn:Ei; [|done]. intros [= <- <-].
  destruct (owner_adds tenant ok _ _ _ _ _ Eo) as [Ha _]. destruct (Hrow _ _ Er). eapply adds_trans; [exact Ha|]. by eapply adds_insert.
Qed.

Lemma build_chain_adds tenant user inp hint msg at_ db db' :
  failed_step_ok inp = true → build_chain cfg uuid5 tenant user inp hint msg at_ db = Ok db' →
  adds tenant (λ j, job_status j = DEAD_LETTER → job_error_message j = Some msg ∧ job_remediation_hint j = Some hint) db db'.
Proof.
  intros Hf Hb. apply bind_ok in Hb as (db1 & Hi & Hb). apply bind_ok in Hb as (deps & Hl & Hb). injection Hb as <-.
  destruct (insert_rows_spec _ _ _ Hi) as (_ & O & N & D & B & A). destruct (link_chain_spec _ _ _ _ Hl) as [K _]. split; cbn; try done.
  - intros i j Hj Hn. destruct (N i j Hj Hn) as [Hid Hin]. split; [done|]. apply list_elem_of_fmap in Hin as (e & -> & He). split; [done|].
    cbn. intros Hd. by rewrite (bool_decide_true _ (dead_row tenant inp e Hf He Hd)).
  - intros d Hd. apply K. by rewrite D.
Qed.

(** C36: A fixture call only adds to the platform.  Whatever the store, a call of one of the
    four tools that succeeds leaves every job and every edge as they were, queues nothing
    for Kafka and writes no audit row of its own; each job it adds belongs to the caller's
    tenant and carries the mark by which the environment reset finds it.  Unless the
    caller supplied a text of its own, the text of each dead letter describes a failure of
    the kind its hint prescribes an action for; the one tool that promises a
    contradiction always writes one. *)
Theorem fixtures_only_add ctx s out s' :
  let tenant := pn_tenant_id (cx_principal ctx) in
  (∀ inp, seed_dlq_messages cfg inp ctx s = (Ok out, s') →
     adds tenant (λ j, job_status j = DEAD_LETTER ∧ (no_text (sd_error_message inp) → coherent_row j)) (mc_db s) (mc_db s')) ∧
  (∀ inp, create_bad_data_job cfg uuid5 inp ctx s = (Ok out, s') →
     adds tenant (λ j, job_status j = DEAD_LETTER ∧ (no_text (bd_error_message inp) → coherent_row j)) (mc_db s) (mc_db s')) ∧
  (∀ inp, create_mislabeled_dlq_job cfg uuid5 inp ctx s = (Ok out, s') →
     adds tenant (λ j, job_status j = DEAD_LETTER ∧ ¬ coherent_row j) (mc_db s) (mc_db s')) ∧
  (∀ inp, failed_step_ok inp = true → create_stuck_dag cfg uuid5 inp ctx s = (Ok out, s') →
     adds tenant (λ j, job_status j = DEAD_LETTER → no_text (sk_error_message inp) → coherent_row j) (mc_db s) (mc_db s')).
Proof.
  intros tenant. split_and!.
  - intros inp. unfold seed_dlq_messages. destruct (validated_hint (sd_hint inp)) as [hint|]; [|done].
    destruct (fixture_owner _ _ _) as [[u a]|] eqn:Eo; [|done].
    destruct (text_or (sd_error_message inp) (default_error_for (Some hint))) as [msg|] eqn:Et; [|done]. cbn [mbind result_mbind].
    destruct (seed_rows _ _ _) as [[ids db]|] eqn:Es; [|done]. intros [= <- <-].
    eapply adds_trans; [by eapply owner_adds|]. eapply seed_rows_adds; [|exact Es]. intros i. split; [done|]. split; [done|].
    intros Hp. exists msg. split; [done|]. apply default_text_coherent. by eapply text_plain.
  - intros inp. unfold create_bad_data_job. destruct (declared_hint (bd_hint inp)) as [hint|]; [|done].
    apply place_row_adds. intros u j Hr. apply bind_ok in Hr as (msg & Et & Hr). injection Hr as <-. split; [done|]. split; [done|].
    intros Hp. exists msg. split; [done|]. apply bad_data_text_coherent. by eapply text_plain.
  - intros inp. unfold create_mislabeled_dlq_job. apply place_row_adds. intros u j [= <-]. split; [done|]. split; [done|].
    intros (msg & Hm & Hc). assert (E : msg = st_error_message sanctioned_incoherent_story) by (symmetry; by injection Hm). rewrite E in Hc.
    exact (Bool.diff_false_true (eq_trans (eq_sym lie_checked) Hc)).
  - intros inp Hf. unfold create_stuck_dag. destruct (validated_hint (sk_hint inp)) as [hint|]; [|done].
    case_match; [case_match; [done|]; intros [= <- <-]; apply adds_refl|].
    destruct (fixture_owner _ _ _) as [[u a]|] eqn:Eo; [|done].
    destruct (text_or (sk_error_message inp) (default_error_for (Some hint))) as [msg|] eqn:Et; [|done]. cbn [mbind result_mbind].
    destruct (build_chain _ _ _ _ _ _ _ _ _) as [db|] eqn:Eb; [|done]. intros [= <- <-].
    eapply adds_trans; [by eapply owner_adds|]. destruct (build_chain_adds _ _ _ _ _ _ _ _ Hf Eb) as [? N ? ? ?]. split; try done.
    intros i j Hj Hn. destruct (N i j Hj Hn) as (? & ? & Hok). split_and!; [done|done|]. intros Hd Hp. destruct (Hok Hd) as [Hm Hh].
    exists msg. split; [done|]. rewrite Hh. apply default_text_coherent. by eapply text_plain.
Qed.

(** ** A chain behind a dead letter *)

(** Jobs that wait, each behind one of themselves or behind a dead letter. *)
Definition held (W : list uuid) (db : DB) : Prop :=
  ∀ c, c ∈ W → (∃ j, db_jobs db !! c = Some j ∧ job_status j = WAITING) ∧
    ∃ p jp, edge db p c ∧ db_jobs db !! p = Some jp ∧ (p ∈ W ∨ job_status jp = DEAD_LETTER).

(** Edges are kept, and rows that are held or do not wait are left alone. *)
Definition spares (W : list uuid) (db db' : DB) : Prop :=
  (∀ d, d ∈ db_deps db → d ∈ db_deps db') ∧
  ∀ k j, db_jobs db !! k = Some j → k ∈ W ∨ job_status j ≠ WAITING → db_jobs db' !! k = Some j.

Lemma spares_refl W db : spares W db db.
Proof. by split. Qed.

Lemma held_spared W db db' : held W db → spares W db db' → held W db'.
Proof.
  intros Hh [Hd Hr] c Hc. destruct (Hh c Hc) as [(j & Hj & Hw) (p & jp & He & Hp & Hs)]. split.
  - exists j. split; [apply Hr; [done|by left]|done].
  - exists p, jp. split_and!; [by apply Hd| |done]. apply Hr; [done|]. destruct Hs as [?|Hdl]; [by left|right; by rewrite Hdl].
Qed.

Lemma held_unmet W db c : held W db → c ∈ W → dep_unmet_count c db ≠ 0%nat.
Proof.
  intros Hh Hc Hz. destruct (Hh c Hc) as [_ (p & jp & He & Hp & Hs)].
  pose proof (proj1 (unmet_count_zero c db) Hz _ jp He eq_refl Hp) as Hcomp. destruct Hs as [HW|Hdl]; [|by rewrite Hdl in Hcomp].
  destruct (Hh p HW) as [(j & Hj & Hw) _]. simplify_eq. by rewrite Hw in Hcomp.
Qed.

Lemma promote_spares W now i db (k : bool → DB → DB) :
  i ∉ W → (∀ ok d, db_jobs (k ok d) = db_jobs d ∧ db_deps (k ok d) = db_deps d) →
  spares W db (let '(ok, d) := promote_waiting_to_pending now i db in k ok d).
Proof.
  intros Hi Hk. pose proof (update_job_frame now i (λ j, bool_decide (job_status j = WAITING)) [SetStatus PENDING; SetErrorMessage None] db) as (Hd & _).
  pose proof (update_job_jobs now i (λ j, bool_decide (job_status j = WAITING)) [SetStatus PENDING; SetErrorMessage None] db) as Hl.
  unfold promote_waiting_to_pending. destruct (update_job _ _ _ _ _) as [ok d]. destruct (Hk ok d) as [Ej Ed]. split.
  - intros x. rewrite Ed. cbn in Hd. by rewrite Hd.
  - intros x j Hx Hor. rewrite Ej. cbn in Hl. rewrite Hl, Hx. do 2 f_equal.
    case_bool_decide as Hix; [subst x|done]. cbn. destruct Hor as [?|Hw]; [done|]. by rewrite bool_decide_false.
Qed.

Lemma resolve_child_held W now t r c db : held W db → held W (resolve_child cfg now t r (λ d, d) c db).
Proof.
  intros Hh. eapply held_spared; [exact Hh|]. unfold resolve_child, get_by_id.
  destruct (db_jobs db !! c) as [child|]; [|apply spares_refl]. case_bool_decide; [apply spares_refl|].
  destruct (decide (c ∈ W)) as [Hc|Hc].
  - pose proof (held_unmet W db c Hh Hc). destruct (Nat.ltb_spec 0 (dep_unmet_count c db)); [apply spares_refl|lia].
  - case_match; [apply spares_refl|]. case_match; [apply spares_refl|].
    apply (promote_spares W now c db (λ ok d, if ok then submit_event cfg now child d else d)); [done|]. by intros [].
Qed.

Lemma resume_row_spares W now t r child db : job_id child ∉ W → spares W db (resume_row cfg now t r child db).
Proof.
  intros Hc. unfold resume_row. case_match; [apply spares_refl|].
  pose proof (promote_spares W now (job_id child) db (λ ok d, if ok then submit_event cfg now child d else d) Hc) as Hp.
  destruct (promote_waiting_to_pending now (job_id child) db) as [[] d]; [|apply spares_refl]. apply Hp. by intros [].
Qed.

Lemma resume_held W now t lookup cursor db : held W db → held W (resume_unblocked_waiting_once cfg now t lookup cursor db).2.
Proof.
  intros Hh. unfold resume_unblocked_waiting_once. cbn [snd].
  assert (Hrows : ∀ j, j ∈ promotable_waiting cursor db → job_id j ∉ W).
  { intros j Hj Hin. unfold promotable_waiting in Hj. apply elem_of_take in Hj as (n & Hn & _). apply list_elem_of_lookup_2 in Hn.
    rewrite merge_sort_Permutation, list_elem_of_filter in Hn. destruct Hn as [[Hp _] _]. unfold promotable in Hp.
    apply andb_true_iff in Hp as [_ Hu]. apply Nat.eqb_eq in Hu. by apply (held_unmet W db (job_id j)). }
  revert Hrows Hh. generalize (promotable_waiting cursor db) as rows. intros rows. revert db.
  induction rows as [|j rows IH]; intros db Hrows Hh; [done|]. cbn [foldl]. apply IH; [intros x Hx; apply Hrows; by right|].
  eapply held_spared; [exact Hh|]. apply resume_row_spares. apply Hrows. left.
Qed.

(** The two promoters of the platform, and whatever else leaves these rows and the ones
    they wait for alone. *)
Inductive promoter_step (W : list uuid) : DB → DB → Prop :=
  | by_resolver now t redis m db : promoter_step W db (resolver_handle_message cfg now t redis (λ _ d, d) m db)
  | by_sweep now t lookup cursor db : promoter_step W db (resume_unblocked_waiting_once cfg now t lookup cursor db).2
  | by_others db db' : (∀ c, c ∈ W → db_jobs db' !! c = db_jobs db !! c) →
      (∀ c p, c ∈ W → edge db p c → edge db' p c ∧ db_jobs db' !! p = db_jobs db !! p) → promoter_step W db db'.

Lemma promoter_held W db db' : promoter_step W db db' → held W db → held W db'.
Proof.
  intros Hstep Hh. destruct Hstep as [now t redis m db|now t lookup cursor db|db db' Hrows Hedges].
  - unfold resolver_handle_message. destruct (m ≫= uuid_parse) as [parent|]; [|done].
    generalize (dep_children_of parent db) as cs. intros cs. revert db Hh. induction cs as [|c cs IH]; intros db Hh; [done|].
    cbn [foldl]. apply IH. by apply resolve_child_held.
  - by apply resume_held.
  - intros c Hc. destruct (Hh c Hc) as [(j & Hj & Hw) (p & jp & He & Hp & Hs)]. destruct (Hedges c p Hc He) as [He' Hp'].
    split; [exists j; by rewrite Hrows|]. exists p, jp. split_and!; [done|by rewrite Hp'|done].
Qed.

(** *** The rows and edges a call writes *)

Lemma row_set_new k v l : k ∉ l.*1 → row_set k v l = l ++ [(k, v)].
Proof.
  induction l as [|[k' v'] l IH]; cbn; intros Hk; [done|]. apply not_elem_of_cons in Hk as [Hne Hk].
  rewrite bool_decide_false by done. by rewrite IH.
Qed.

Lemma rows_set_new (f : nat → JobStatus) xs l :
  NoDup (l.*1 ++ xs.*2) → foldl (λ l x, row_set x.2 (f x.1) l) l xs = l ++ ((λ x, (x.2, f x.1)) <$> xs).
Proof.
  revert l. induction xs as [|x xs IH]; intros l Hnd; [by rewrite app_nil_r|]. cbn [foldl fmap list_fmap].
  rewrite row_set_new.
  - rewrite IH; [by rewrite <- app_assoc|]. rewrite fmap_app, <- app_assoc. exact Hnd.
  - intros Hin. apply NoDup_app in Hnd as (_ & Hnd & _). apply (Hnd x.2 Hin). left.
Qed.

Definition chain_ids (tenant : uuid) (name : string) : list uuid :=
  upstream_id uuid5 tenant name :: root_id uuid5 tenant name :: all_step_ids uuid5 tenant name.

Lemma imap_pair_snd (l : list uuid) : (imap pair l).*2 = l.
Proof. apply list_eq. intros n. rewrite list_lookup_fmap, list_lookup_imap. by destruct (l !! n). Qed.

Lemma expected_explicit tenant inp :
  NoDup (chain_ids tenant (sk_chain_name inp)) →
  expected_rows uuid5 tenant inp =
    [(upstream_id uuid5 tenant (sk_chain_name inp), COMPLETED);
     (root_id uuid5 tenant (sk_chain_name inp), if sk_root_completed inp then COMPLETED else DEAD_LETTER)] ++
    ((λ x, (x.2, step_status (Z.of_nat x.1 + 1) (sk_failed_step inp))) <$> imap pair (step_ids uuid5 tenant inp)).
Proof.
  intros Hnd. unfold expected_rows. cbv zeta. unfold chain_ids in Hnd. apply NoDup_cons in Hnd as [Hu Hnd]. apply NoDup_cons in Hnd as [Hr Hnd].
  rewrite row_set_new.
  2:{ cbn. intros Hx%list_elem_of_singleton. apply Hu. rewrite Hx. left. }
  apply (rows_set_new (λ n, step_status (Z.of_nat n + 1) (sk_failed_step inp))). rewrite imap_pair_snd. cbn [fmap list_fmap app fst].
  assert (Hsub : step_ids uuid5 tenant inp `sublist_of` all_step_ids uuid5 tenant (sk_chain_name inp)) by apply sublist_take.
  apply NoDup_cons. split.
  - intros Hx. apply Hu. apply elem_of_cons in Hx as [Hx|Hx]; [rewrite Hx; left|right]. by eapply elem_of_sublist.
  - apply NoDup_cons. split; [|by eapply sublist_NoDup]. intros Hx. apply Hr. by eapply elem_of_sublist.
Qed.

Lemma nullable_int lo hi v k : nullable (int_between lo hi) v = Some (Some k) → (lo ≤ k)%Z.
Proof.
  unfold nullable, int_between. intros Hn.
  assert (Hb : ∀ w, (z ← pyd_int w; if (lo <=? z)%Z && (z <=? hi)%Z then Some z else None) = Some k → (lo ≤ k)%Z).
  { intros w Hw. apply bind_Some in Hw as (z & _ & Hw). case_match eqn:El; [|done]. injection Hw as <-.
    apply andb_true_iff in El as [El _]. lia. }
  destruct v as [[]|]; try done; apply fmap_Some in Hn as (k0 & Hz & [= ->]); by eapply Hb.
Qed.

(** What the input model guarantees of a parsed chain. *)
Lemma validated_chain d inp :
  validate_stuck_dag validation_errors d = Ok inp →
  failed_step_ok inp = true ∧ match sk_failed_step inp with Some k => (1 ≤ k)%Z | None => True end.
Proof.
  unfold validate_stuck_dag, validated. case_match eqn:Em; [|done]. intros [= <-]. revert Em. destruct (only_fields _ d); [|done].
  intros Em. do 8 (apply bind_Some in Em as (? & ?E & Em)). case_match eqn:Ef; [|done]. injection Em as <-. split; [done|]. cbn.
  case_match; [|done]. subst. by eapply (nullable_int 1 (Z.of_nat MAX_WAITING_STEPS)).
Qed.

(** What a call that built the chain left in the store. *)
Lemma stuck_built inp ctx s out s' :
  let tenant := pn_tenant_id (cx_principal ctx) in
  (∀ i, i ∈ chain_ids tenant (sk_chain_name inp) → db_jobs (mc_db s) !! i = None) →
  create_stuck_dag cfg uuid5 inp ctx s = (Ok out, s') →
  ∃ user hint msg at_ db1, build_chain cfg uuid5 tenant user inp hint msg at_ db1 = Ok (mc_db s') ∧
    db_jobs db1 = db_jobs (mc_db s).
Proof.
  intros tenant Hfresh. unfold create_stuck_dag. destruct (validated_hint (sk_hint inp)) as [hint|]; [|done].
  match goal with |- (if ?b then _ else _) = _ → _ => assert (Hb : b = false) end.
  { apply not_true_iff_false. intros Hx. apply existsb_exists in Hx as (i & Hi & Hs). apply bool_decide_eq_true in Hs.
    apply list_elem_of_In in Hi. case_bool_decide; [|by destruct Hs]. unfold get_by_id in Hs. rewrite Hfresh in Hs by done. by destruct Hs. }
  rewrite Hb. destruct (fixture_owner _ _ _) as [[u a]|] eqn:Eo; [|done].
  destruct (text_or _ _) as [msg|]; [|done]. cbn [mbind result_mbind].
  destruct (build_chain _ _ _ _ _ _ _ _ _) as [db|] eqn:Eb; [|done]. intros [= <- <-].
  do 5 eexists. split; [exact Eb|]. apply (owner_adds tenant (λ _, True) _ _ _ _ _ Eo).
Qed.

Lemma chain_rows tenant user inp hint msg at_ db db' :
  NoDup (chain_ids tenant (sk_chain_name inp)) →
  build_chain cfg uuid5 tenant user inp hint msg at_ db = Ok db' →
  (∀ e, e ∈ expected_rows uuid5 tenant inp → db_jobs db' !! e.1 = Some (chain_row cfg uuid5 tenant user inp hint msg at_ e)) ∧
  (∀ n c p, (root_id uuid5 tenant (sk_chain_name inp) :: step_ids uuid5 tenant inp) !! n = Some c →
            (upstream_id uuid5 tenant (sk_chain_name inp) :: root_id uuid5 tenant (sk_chain_name inp) :: step_ids uuid5 tenant inp) !! n = Some p →
            edge db' p c) ∧
  (∀ i j, db_jobs db' !! i = Some j → db_jobs db !! i = None → i ∈ (expected_rows uuid5 tenant inp).*1).
Proof.
  intros Hnd Hb. apply bind_ok in Hb as (db1 & Hi & Hb). apply bind_ok in Hb as (deps & Hl & Hb). injection Hb as <-.
  destruct (insert_rows_spec _ _ _ Hi) as (R & _ & N & _). destruct (link_chain_spec _ _ _ _ Hl) as [_ E]. split_and!.
  - intros e He. exact (R (chain_row cfg uuid5 tenant user inp hint msg at_ e) ltac:(by apply list_elem_of_fmap_2)).
  - exact E.
  - intros i j Hj Hn. destruct (N i j Hj Hn) as [<- Hin]. apply list_elem_of_fmap in Hin as (e & -> & He). cbn. by apply list_elem_of_fmap_2.
Qed.

(** The steps a call declares to be waiting. *)
Definition waiting_ids (tenant : uuid) (inp : CreateStuckDagInput) : list uuid :=
  omap (λ x, if bool_decide (step_status (Z.of_nat x.1 + 1) (sk_failed_step inp) = WAITING) then Some x.2 else None)
    (imap pair (step_ids uuid5 tenant inp)).

Lemma waiting_ids_elem tenant inp i :
  i ∈ waiting_ids tenant inp ↔ ∃ n, step_ids uuid5 tenant inp !! n = Some i ∧ step_status (Z.of_nat n + 1) (sk_failed_step inp) = WAITING.
Proof.
  unfold waiting_ids. rewrite list_elem_of_omap. split.
  - intros (x & Hx & Hf). apply elem_of_lookup_imap in Hx as (n & y & -> & Hy). cbn in Hf. case_bool_decide; [|done]. simplify_eq. by exists n.
  - intros (n & Hn & Hw). exists (n, i). split; [|by rewrite bool_decide_true]. apply elem_of_lookup_imap. by exists n, i.
Qed.

(** C35: A chain manufactured behind a dead letter is stuck by the platform's own rules.  Take
    any input the tool accepts with a dead-lettered root or a failed step, on a store that
    holds none of the chain's rows.  After the call, however the resolver's messages and
    the resume sweep's passes are interleaved with anything that leaves the chain's own
    rows alone, every descendant the call declared waiting is still WAITING. *)
Theorem stuck_chain_holds d inp ctx s out s' db i :
  let tenant := pn_tenant_id (cx_principal ctx) in
  validate_stuck_dag validation_errors d = Ok inp → sk_root_completed inp = false ∨ is_Some (sk_failed_step inp) →
  NoDup (chain_ids tenant (sk_chain_name inp)) →
  (∀ i, i ∈ chain_ids tenant (sk_chain_name inp) → db_jobs (mc_db s) !! i = None) →
  create_stuck_dag cfg uuid5 inp ctx s = (Ok out, s') →
  rtc (promoter_step (waiting_ids tenant inp)) (mc_db s') db →
  i ∈ waiting_ids tenant inp → ∃ j, db_jobs db !! i = Some j ∧ job_status j = WAITING.
Proof.
  intros tenant Hv Hshape Hnd Hfresh Hcall Hrun Hi. destruct (validated_chain d inp Hv) as [Hok Hk].
  destruct (stuck_built inp ctx s out s' Hfresh Hcall) as (user & hint & msg & at_ & db1 & Hb & _).
  destruct (chain_rows _ _ _ _ _ _ _ _ Hnd Hb) as (Hrows & Hedges & _). fold tenant in Hb, Hrows, Hedges.
  rewrite (expected_explicit tenant inp Hnd) in Hrows.
  assert (Hstep : ∀ n c, step_ids uuid5 tenant inp !! n = Some c →
            ∃ j, db_jobs (mc_db s') !! c = Some j ∧ job_status j = step_status (Z.of_nat n + 1) (sk_failed_step inp)).
  { intros n c Hc. eexists. split; [apply (Hrows (c, step_status (Z.of_nat n + 1) (sk_failed_step inp)))|done].
    apply elem_of_app. right. apply list_elem_of_fmap. exists (n, c). split; [done|]. apply elem_of_lookup_imap. by exists n, c. }
  assert (Hroot : sk_root_completed inp = false → ∃ j, db_jobs (mc_db s') !! root_id uuid5 tenant (sk_chain_name inp) = Some j ∧ job_status j = DEAD_LETTER).
  { intros Hr. set (e := (root_id uuid5 tenant (sk_chain_name inp), if sk_root_completed inp then COMPLETED else DEAD_LETTER)).
    exists (chain_row cfg uuid5 tenant user inp hint msg at_ e). split; [apply (Hrows e); right; left|cbn; by rewrite Hr]. }
  assert (Hheld : held (waiting_ids tenant inp) (mc_db s')).
  { intros c Hc. pose proof Hc as (n & Hn & Hw)%waiting_ids_elem. destruct (Hstep n c Hn) as (j & Hj & Hs). split; [exists j; by rewrite Hs|].
    destruct n as [|n].
    - unfold step_status in Hw. destruct (sk_failed_step inp) as [k|] eqn:Ek.
      { exfalso. destruct (Z.ltb_spec k (Z.of_nat 0 + 1)); [lia|]. by destruct (Z.of_nat 0 + 1 =? k)%Z. }
      destruct Hshape as [Hr|[? ?]]; [|done]. destruct (Hroot Hr) as (jr & Hjr & Hdl).
      exists (root_id uuid5 tenant (sk_chain_name inp)), jr. split_and!; [by apply (Hedges 1%nat)|done|by right].
    - assert (Hlt : (n < length (step_ids uuid5 tenant inp))%nat) by (apply lookup_lt_Some in Hn; lia).
      destruct (lookup_lt_is_Some_2 _ _ Hlt) as [p Hp]. destruct (Hstep n p Hp) as (jp & Hjp & Hsp). exists p, jp.
      split_and!; [by apply (Hedges (S (S n)))|done|]. rewrite waiting_ids_elem, Hsp.
      unfold step_status in *. destruct (sk_failed_step inp) as [k|] eqn:Ek; [|left; by exists n].
      destruct (Z.ltb_spec k (Z.of_nat (S n) + 1)); [|by destruct (Z.of_nat (S n) + 1 =? k)%Z].
      destruct (Z.ltb_spec k (Z.of_nat n + 1)) as [Hl|Hl]; [left; exists n; split; [done|]; by rewrite (proj2 (Z.ltb_lt _ _) Hl)|].
      right. by rewrite (proj2 (Z.eqb_eq _ _)) by lia. }
  assert (Hend : held (waiting_ids tenant inp) db).
  { clear -Hrun Hheld. induction Hrun as [|a b c Hab _ IH]; [done|]. apply IH. by eapply promoter_held. }
  apply Hend. exact Hi.
Qed.

(** ** A repeated call *)

Lemma place_row_repeat i tenant now drift refuse row reply s out s' :
  (∀ u j, row u = Ok j → job_id j = i ∧ drift j = []) →
  place_row i tenant now drift refuse row reply s = (Ok out, s') →
  ∀ now' refuse' row', place_row i tenant now' drift refuse' row' reply s' = (Ok (reply false), s').
Proof.
  intros Hrow Hc now' refuse' row'.
  assert (Hj : ∃ j, get_by_id i (mc_db s') = Some j ∧ drift j = []).
  { unfold place_row in Hc. destruct (get_by_id i (mc_db s)) as [x|] eqn:Ei.
    - destruct (some_of (drift x)) eqn:Ed; [done|]. injection Hc as <- <-. exists x. split; [done|].
      unfold some_of in Ed. apply negb_false_iff, bool_decide_eq_true in Ed. done.
    - destruct (fixture_owner now tenant (mc_auth s)) as [[u a]|]; [|done].
      destruct (row (us_id u)) as [j|] eqn:Er; [|done]. cbn [mbind result_mbind] in Hc.
      destruct (insert_job j (mc_db (with_mcp_auth a s))) as [db|] eqn:Eins; [|done]. injection Hc as <- <-.
      apply insert_job_ok in Eins as (_ & _ & ->). destruct (Hrow _ _ Er) as [Hid Hd]. exists j. split; [|done].
      unfold get_by_id. cbn. rewrite Hid. apply lookup_insert_eq. }
  destruct Hj as (j & Hj & Hd). unfold place_row. by rewrite Hj, Hd.
Qed.

Lemma chain_drift_nil tenant expected ids by_id :
  (∀ e, e ∈ expected → ∃ j, by_id e.1 = Some j ∧ job_tenant_id j = tenant ∧ job_status j = e.2) →
  (∀ i, i ∈ ids → is_Some (by_id i) → i ∈ expected.*1) → chain_drift tenant expected ids by_id = [].
Proof.
  intros He Hi. unfold chain_drift.
  assert (Hnone : filter (λ i, is_Some (by_id i) ∧ i ∉ expected.*1) ids = []).
  { destruct (filter _ ids) as [|x l] eqn:Ef; [done|]. assert (Hx : x ∈ filter (λ i, is_Some (by_id i) ∧ i ∉ expected.*1) ids) by (rewrite Ef; left).
    apply list_elem_of_filter in Hx as [[Hs Hni] Hx]. by destruct Hni; apply Hi. }
  rewrite Hnone. cbn. rewrite app_nil_r. clear Hi Hnone. induction expected as [|e expected IH]; [done|]. cbn.
  destruct (He e ltac:(left)) as (j & Hj & Hjt & Hs). unfold expected_drift at 1. rewrite Hj, !bool_decide_false by (intros Hx; by apply Hx).
  apply IH. intros e' He'. apply He. by right.
Qed.

(** A repeated fixture call is idempotent while its rows are intact, and refused once they
    have drifted.  After a call of one of the three named tools has succeeded, the same
    call again, at any time, by any principal of the tenant, answers with the same
    identifiers and [created = false] and leaves the whole store as it is; and a call that
    finds its single row moved out of [dead_letter], or with another hint, is refused with
    the tool's own 409 and changes nothing. *)
Theorem fixture_calls_repeat ctx ctx' s out s' :
  let tenant := pn_tenant_id (cx_principal ctx) in
  pn_tenant_id (cx_principal ctx') = tenant →
  (∀ inp, create_bad_data_job cfg uuid5 inp ctx s = (Ok out, s') →
     ∃ out', create_bad_data_job cfg uuid5 inp ctx' s' = (Ok out', s') ∧ dget out' "created" = Some (JBool false) ∧ dget out' "job_id" = dget out "job_id") ∧
  (∀ inp, create_mislabeled_dlq_job cfg uuid5 inp ctx s = (Ok out, s') →
     ∃ out', create_mislabeled_dlq_job cfg uuid5 inp ctx' s' = (Ok out', s') ∧ dget out' "created" = Some (JBool false) ∧ dget out' "job_id" = dget out "job_id") ∧
  (∀ inp, NoDup (chain_ids tenant (sk_chain_name inp)) →
     (∀ i, i ∈ chain_ids tenant (sk_chain_name inp) → db_jobs (mc_db s) !! i = None) →
     create_stuck_dag cfg uuid5 inp ctx s = (Ok out, s') →
     create_stuck_dag cfg uuid5 inp ctx' s' = (Ok (stuck_reply uuid5 tenant inp false), s')) ∧
  (∀ inp j, db_jobs (mc_db s) !! fixture_id uuid5 MISLABELED_NAMESPACE tenant (ml_fixture_name inp) = Some j →
     job_status j ≠ DEAD_LETTER ∨ job_remediation_hint j ≠ Some REPLAY_SAFE →
     ∃ msg, create_mislabeled_dlq_job cfg uuid5 inp ctx s = (Err (ToolError 409 "mislabeled_fixture_name_in_use" msg), s)).
Proof.
  intros tenant Ht. split_and!.
  - intros inp Hc. unfold create_bad_data_job in *. destruct (declared_hint (bd_hint inp)) as [hint|]; [|done]. cbv zeta in *.
    rewrite Ht. fold tenant in Hc. eexists. split; [eapply place_row_repeat; [|exact Hc]|].
    + intros u j Hr. apply bind_ok in Hr as (msg & _ & Hr). injection Hr as <-. split; [done|]. unfold row_drift, fixture_row. cbn.
      by rewrite !bool_decide_false by (intros Hx; by apply Hx).
    + split; [done|]. unfold place_row in Hc. repeat case_match; simplify_eq; done.
  - intros inp Hc. unfold create_mislabeled_dlq_job in *. cbv zeta in *. rewrite Ht. fold tenant in Hc.
    eexists. split; [eapply place_row_repeat; [|exact Hc]|].
    + intros u j [= <-]. split; [done|]. unfold row_drift, fixture_row. cbn. by rewrite !bool_decide_false by (intros Hx; by apply Hx).
    + split; [done|]. unfold place_row in Hc. repeat case_match; simplify_eq; done.
  - intros inp Hnd Hfresh Hc. destruct (stuck_built inp ctx s out s' Hfresh Hc) as (user & hint' & msg & at_ & db1 & Hb & Hj1).
    destruct (chain_rows _ _ _ _ _ _ _ _ Hnd Hb) as (Hrows & _ & Honly). fold tenant in Hb, Hrows, Honly.
    unfold create_stuck_dag in Hc |- *. destruct (validated_hint (sk_hint inp)) as [hint|]; [|done]. cbv zeta. rewrite Ht.
    set (ids := upstream_id uuid5 tenant (sk_chain_name inp) :: root_id uuid5 tenant (sk_chain_name inp) :: all_step_ids uuid5 tenant (sk_chain_name inp)).
    assert (Hin : ∀ e, e ∈ expected_rows uuid5 tenant inp → e.1 ∈ ids).
    { intros e He. apply expected_elem in He as [->|[->|(n & i & Hi & ->)]]; [left|right; left|right; right].
      apply list_elem_of_lookup_2 in Hi. eapply elem_of_sublist; [exact Hi|apply sublist_take]. }
    assert (Hup : (upstream_id uuid5 tenant (sk_chain_name inp), COMPLETED) ∈ expected_rows uuid5 tenant inp).
    { rewrite expected_explicit by done. left. }
    rewrite (proj2 (existsb_exists _ ids)).
    2:{ exists (upstream_id uuid5 tenant (sk_chain_name inp)). split; [by left|]. rewrite (bool_decide_true (_ ∈ ids)) by left. apply bool_decide_eq_true.
        eexists. exact (Hrows _ Hup). }
    match goal with |- context [some_of ?l] => assert (Hd : l = []) end.
    { apply chain_drift_nil.
      - intros e He. rewrite bool_decide_true by (by apply Hin). eexists. split; [by apply Hrows|done].
      - intros i Hi [j Hj]. case_bool_decide; [|done]. eapply Honly; [exact Hj|]. rewrite Hj1. by apply Hfresh. }
    by rewrite Hd.
  - intros inp j Hj Hor. unfold create_mislabeled_dlq_job. cbv zeta. fold tenant. unfold place_row, get_by_id. rewrite Hj.
    assert (Hd : some_of (row_drift tenant (st_hint sanctioned_incoherent_story) " — something replayed it"
        ("mislabel " +:+ repr_opt (st_hint sanctioned_incoherent_story) +:+ " — something re-classified it") j) = true); [|rewrite Hd; by eexists].
    unfold row_drift, some_of. apply negb_true_iff, bool_decide_eq_false. intros [_ [H1' H2']%app_eq_nil]%app_eq_nil.
    destruct Hor as [Hs|Hh]; [by rewrite (bool_decide_true _ Hs) in H1'|]. by rewrite (bool_decide_true (_ ≠ _) Hh) in H2'.
Qed.

(** ** Redis faults and the code that meets them *)

Lemma redis_set_ok ctx n k v ttl s x s' :
  redis_set ctx n k v ttl s = (Ok x, s') →
  s' = with_mcp_redis (r_set (cx_time ctx n) k (RStr v) (Some (inject_Z ttl)) (mc_redis s)) s.
Proof. unfold redis_set, redis_cmd. by destruct (cx_reach ctx n); intros [= <- <-]. Qed.

Lemma prefix_after p k : String.prefix p k = false → after_prefix p k = None.
Proof.
  revert k. induction p as [|a p IH]; intros [|b k] Hp; try done. cbn in *. destruct (Ascii.ascii_dec a b) as [->|Hne].
  - rewrite bool_decide_true by done. by apply IH.
  - by rewrite bool_decide_false.
Qed.

Lemma set_live t t' k v ttl r :
  (t' < t + inject_Z ttl)%Q → live t' (r_set t k v (Some (inject_Z ttl)) r) k = Some (mkEntry v (Some (t + inject_Z ttl)%Q)).
Proof.
  intros Ht. unfold live, r_set. rewrite lookup_insert_eq. unfold expired. cbn [e_exp fmap option_fmap option_map].
  destruct (Qle_bool (t + inject_Z ttl) t') eqn:E; [|done]. apply Qle_bool_iff in E. by destruct (Qlt_not_le _ _ Ht).
Qed.

(** Whatever the stale-cache fault writes, its compensator takes away.  For every key the
    tool accepts, as long as the entry lives, any principal of any tenant who invalidates
    the key is allowed to, is told that something was deleted, and leaves Redis as it was
    before the fault, without the key; and the tool never accepts a key of the per-job
    read cache. *)
Theorem stale_cache_is_cleared inp ctx ctx' s out s' :
  create_stale_cache inp ctx s = (Ok out, s') → cx_reach ctx' 0%nat = Answered →
  (cx_time ctx' 0%nat < cx_time ctx 0%nat + inject_Z (sc_ttl_seconds inp))%Q →
  String.prefix "cache:job:" (sc_key inp) = false ∧
  ∃ s'', invalidate_cache_key (sc_key inp) ctx' s' = (Ok [("key", JStr (sc_key inp)); ("deleted", JBool true)], s'') ∧
    mc_redis s'' = delete (sc_key inp) (mc_redis s).
Proof.
  intros Hc Hr Ht. unfold create_stale_cache in Hc. destruct (existsb _ FORBIDDEN_PREFIXES) eqn:Ef; [done|].
  destruct (key_admitted (sc_key inp)) eqn:Ea; cbn [negb] in Hc; [|done]. destruct (draw_stale _ _) as [entries db].
  destruct (redis_set _ _ _ _ _ _) as [[x|] s1] eqn:Es; [|done]. injection Hc as _ <-. apply redis_set_ok in Es as ->.
  assert (Hp : String.prefix "cache:job:" (sc_key inp) = false).
  { unfold FORBIDDEN_PREFIXES in Ef. cbn [existsb] in Ef. by apply orb_false_iff in Ef as [? _]. }
  split; [done|]. unfold invalidate_cache_key.
  assert (Hal : existsb (λ p, String.prefix p (sc_key inp)) ALLOWED_PREFIXES = true).
  { unfold key_admitted in Ea. apply andb_true_iff in Ea as [_ Ea]. apply existsb_exists in Ea as (p & Hin & Hpk).
    apply existsb_exists. exists p. split; [|done]. repeat (destruct Hin as [<-|Hin]; [by cbn; tauto|]). done. }
  rewrite Hal. cbn [negb]. unfold assert_key_in_tenant, tenant_segment, TENANT_SCOPED_PREFIXES. cbn [omap list_omap].
  rewrite (prefix_after _ _ Hp). cbn [fmap option_fmap option_map head]. unfold redis_delete, redis_cmd. rewrite Hr.
  change (mc_redis (with_mcp_redis ?r ?st)) with r. rewrite set_live by done. cbn.
  eexists. split; [reflexivity|]. unfold r_set. apply delete_insert_eq.
Qed.

(** The flag the tool writes is the degradation a sync reads: for every input the tool
    accepts, each bulk sync that reads the flag before it expires, in an environment with
    chaos on, finds exactly the mode and the delay that were asked for, and none without
    chaos; after its time it finds no degradation. *)
Theorem degradation_is_read d inp ctx s out s' t :
  validate_degrade validation_errors d = Ok inp → degrade_downstream float_repr inp ctx s = (Ok out, s') →
  let read on := Bulk.read_degradation on Answered t (mc_redis s') in
  read false = None ∧
  ((t < cx_time ctx 0%nat + inject_Z (dd_ttl_seconds inp))%Q → read true = Some (Bulk.mkDegradation (dd_mode inp) (dd_delay_ms inp))) ∧
  ((cx_time ctx 0%nat + inject_Z (dd_ttl_seconds inp) <= t)%Q → read true = None).
Proof.
  intros Hv Hc read. unfold degrade_downstream in Hc. destruct (redis_set _ _ _ _ _ _) as [[x|] s1] eqn:Es; [|done]. injection Hc as _ <-.
  apply redis_set_ok in Es as ->. split; [done|].
  assert (Hin : dd_mode inp ∈ ["fail"; "slow"] ∧ (1 ≤ dd_delay_ms inp ≤ MAX_DELAY_MS)%Z).
  { revert Hv. unfold validate_degrade, validated. case_match eqn:Em; [|done]. intros [= <-]. revert Em. destruct (only_fields _ d); [|done].
    intros Em. do 3 (apply bind_Some in Em as (? & ?E & Em)). injection Em as <-. cbn. split.
    - revert E. unfold defaulted, literal. case_match; [|intros [= <-]; left]. intros Hl. apply bind_Some in Hl as (m & _ & Hl).
      case_bool_decide; [|done]. by injection Hl as <-.
    - revert E0. unfold defaulted, int_between, MAX_DELAY_MS. case_match; [|intros [= <-]; lia]. intros Hl. apply bind_Some in Hl as (m & _ & Hl).
      case_match eqn:El; [|done]. injection Hl as <-. apply andb_true_iff in El as [? ?]. lia. }
  destruct Hin as [Hmode Hdelay].
  pose proof (py_int_show (dd_delay_ms inp)) as Hn.
  unfold read, Bulk.read_degradation. cbn [negb]. unfold redis_cmd, r_get. change (mc_redis (with_mcp_redis ?r ?st)) with r. split.
  - intros Ht. rewrite set_live by done. cbn [e_val mbind result_mbind fst]. unfold Bulk.parse_degradation. cbn [mbind option_bind].
    rewrite chars_app. change (chars (":" +:+ show_Z (dd_delay_ms inp))) with (":"%char :: chars (show_Z (dd_delay_ms inp))).
    assert (Hpart : Bulk.partition_colon (chars (dd_mode inp) ++ ":"%char :: chars (show_Z (dd_delay_ms inp))) =
                    (chars (dd_mode inp), chars (show_Z (dd_delay_ms inp)))).
    { repeat (apply elem_of_cons in Hmode as [->|Hmode]; [reflexivity|]). by apply not_elem_of_nil in Hmode. }
    rewrite Hpart, !String.string_of_list_ascii_of_string, Hn. change (default 0%Z (Some ?x)) with x. rewrite bool_decide_true by done. rewrite Z.max_r by lia. done.
  - intros Ht. unfold live, r_set. rewrite lookup_insert_eq. cbn. by rewrite (proj2 (Qle_bool_iff _ _) Ht).
Qed.

(** ** The tools leave the rows of tool calls alone *)

Lemma lab_tools_honest : Forall (λ d, honest (decl_spec d)) (lab_tools cfg uuid5 validation_errors float_repr doc schema).
Proof.
  assert (Hplace : ∀ i tenant now drift refuse row reply s out s',
            place_row i tenant now drift refuse row reply s = (Ok out, s') → db_audit (mc_db s') = db_audit (mc_db s)).
  { intros i tenant now drift refuse row reply s out s' Hp. unfold place_row in Hp. repeat case_match; simplify_eq; try done.
    match goal with E : fixture_owner _ _ _ = _ |- _ => destruct (owner_adds tenant (λ _, True) _ _ _ _ _ E) as [[_ _ _ _ Ha] _] end.
    match goal with E : mbind _ _ = Ok _ |- _ => apply bind_ok in E as (j & _ & E); apply insert_job_ok in E as (_ & _ & ->) end. exact Ha. }
  assert (Hset : ∀ ctx n k v ttl s x s', redis_set ctx n k v ttl s = (Ok x, s') → db_audit (mc_db s') = db_audit (mc_db s))
    by (intros * E; by apply redis_set_ok in E as ->).
  assert (Hdraw : ∀ n db, db_audit (draw_stale n db).2 = db_audit db).
  { intros n db. unfold draw_stale. apply (Nat.iter_invariant _ _ _ (λ acc, db_audit acc.2 = db_audit db)); [|done]. by intros [l d]. }
  repeat (apply Forall_cons_2; [intros input ctx s out s' Hc; unfold mcp_rows; f_equal; cbn [decl_spec ts_handler tool_spec] in *|]); [..|apply Forall_nil_2].
  - unfold seed_dlq_messages in Hc. destruct (validated_hint _) as [hint|]; [|done]. destruct (fixture_owner _ _ _) as [[u a]|] eqn:Eo; [|done].
    destruct (mbind _ _) as [[ids db]|] eqn:Em; [|done]. injection Hc as _ <-. apply bind_ok in Em as (msg & _ & Em).
    destruct (owner_adds 0 (λ _, True) _ _ _ _ _ Eo) as [[_ _ _ _ Ho] _]. etrans; [|exact Ho].
    eapply (seed_rows_adds (pn_tenant_id (cx_principal ctx)) (λ _, True)) in Em as [[_ _ _ _ Ha] _]; [exact Ha|by intros].
  - unfold create_bad_data_job in Hc. destruct (declared_hint _) as [hint|]; [|done]. by eapply Hplace.
  - unfold create_mislabeled_dlq_job in Hc. by eapply Hplace.
  - unfold create_stuck_dag in Hc. destruct (validated_hint _) as [hint|]; [|done]. case_match; [case_match; [done|]; by injection Hc as _ <-|].
    destruct (fixture_owner _ _ _) as [[u a]|] eqn:Eo; [|done]. destruct (mbind _ _) as [db|] eqn:Em; [|done]. injection Hc as _ <-.
    destruct (owner_adds 0 (λ _, True) _ _ _ _ _ Eo) as [[_ _ _ _ Ho] _]. etrans; [|exact Ho]. apply bind_ok in Em as (msg & _ & Em).
    apply bind_ok in Em as (db1 & Hi & Em). apply bind_ok in Em as (deps & _ & Em). injection Em as <-.
    by destruct (insert_rows_spec _ _ _ Hi) as (_ & _ & _ & _ & _ & Ha).
  - unfold create_stale_cache in Hc. case_match; [done|]. case_match; [done|]. pose proof (Hdraw (sc_stale_count input) (mc_db s)) as Hd.
    destruct (draw_stale _ _) as [entries db]. destruct (redis_set _ _ _ _ _ _) as [[x|] s1] eqn:Es; [|done]. injection Hc as _ <-.
    by rewrite (Hset _ _ _ _ _ _ _ _ Es).
  - unfold degrade_downstream in Hc. destruct (redis_set _ _ _ _ _ _) as [[x|] s1] eqn:Es; [|done]. injection Hc as _ <-. by eapply Hset.
  - unfold inject_latency in Hc. destruct (redis_set _ _ _ _ _ _) as [[x|] s1] eqn:Es; [|done]. injection Hc as _ <-. by eapply Hset.
Qed.
End Props.

(** ** Worked examples *)

Module LabExample.
#[local] Existing Instance counted_uuids.
#[local] Existing Instance heap_order.
#[local] Existing Instance printed_codec.
#[local] Existing Instance ActionExample.strict_pydantic.

(** A digest in place of SHA-1. *)
Definition digest (ns : uuid) (name : string) : uuid := foldl (λ a c, (a * 257 + N_of_ascii c) mod uuid_bound)%N ns (chars name).
Definition ctx : ToolContext := ActionExample.ctx.
Definition start : McpStore := ActionExample.start.
Definition tenant : uuid := pn_tenant_id (cx_principal ctx).
Definition reply_of (r : result exn dict * McpStore) : dict := match r.1 with Ok d => d | Err _ => [] end.

Definition seeding : SeedDlqMessagesInput := mkSeed WAIT_AND_REPLAY 2 "bulk_api_sync" None.
Definition seeded_store : McpStore := (seed_dlq_messages Fixtures.cfg seeding ctx start).2.

Lemma fixtures_only_add_witness :
  adds tenant (λ j, job_status j = DEAD_LETTER ∧ (no_text None → coherent_row j)) (mc_db start) (mc_db seeded_store) ∧
  size (db_jobs (mc_db seeded_store)) = 5%nat.
Proof.
  split; [|vm_compute; reflexivity].
  apply (proj1 (fixtures_only_add Fixtures.cfg digest ctx start (reply_of (seed_dlq_messages Fixtures.cfg seeding ctx start)) seeded_store) seeding).
  vm_compute. reflexivity.
Defined.

(** A chain of two steps behind a dead root. *)
Definition arguments : dict := [("chain_name", JStr "c1"); ("waiting_steps", JInt 2)].
Definition chain : CreateStuckDagInput := mkStuck "c1" 2 "bulk_api_sync" WAIT_AND_REPLAY None false 0 None.
Definition built : result exn dict * McpStore := create_stuck_dag Fixtures.cfg digest chain ctx start.
Definition after_resolver : DB :=
  resolver_handle_message Fixtures.cfg 6 0 None (λ _ d, d) (Some (uuid_str (upstream_id digest tenant "c1"))) (mc_db built.2).
Definition after_sweep : DB := (resume_unblocked_waiting_once Fixtures.cfg 7 0 (λ _, None) None after_resolver).2.
Definition first_step : uuid := chain_id digest tenant "c1" "step-1".

Lemma chain_distinct : NoDup (chain_ids digest tenant "c1").
Proof. apply (bool_decide_eq_true_1 _). vm_compute. reflexivity. Qed.

Lemma chain_fresh i : i ∈ chain_ids digest tenant "c1" → db_jobs (mc_db start) !! i = None.
Proof.
  intros Hi. assert (Hall : forallb (λ i, bool_decide (db_jobs (mc_db start) !! i = None)) (chain_ids digest tenant "c1") = true) by (vm_compute; reflexivity).
  apply list_elem_of_In in Hi. rewrite forallb_forall in Hall. specialize (Hall i Hi). by apply bool_decide_eq_true_1 in Hall.
Qed.

Lemma stuck_chain_holds_witness : ∃ j, db_jobs after_sweep !! first_step = Some j ∧ job_status j = WAITING.
Proof.
  apply (stuck_chain_holds Fixtures.cfg digest McpExample.errors arguments chain ctx start (reply_of built) built.2).
  - vm_compute. reflexivity.
  - left. reflexivity.
  - exact chain_distinct.
  - exact chain_fresh.
  - vm_compute. reflexivity.
  - eapply rtc_l; [apply by_resolver|]. eapply rtc_l; [apply by_sweep|]. apply rtc_refl.
  - apply waiting_ids_elem. exists 0%nat. split; vm_compute; reflexivity.
Defined.

Lemma fixture_calls_repeat_witness :
  dget (reply_of built) "created" = Some (JBool true) ∧
  create_stuck_dag Fixtures.cfg digest chain ctx built.2 = (Ok (stuck_reply digest tenant chain false), built.2).
Proof.
  split; [vm_compute; reflexivity|].
  refine (proj1 (proj2 (proj2 (fixture_calls_repeat Fixtures.cfg digest ctx ctx start (reply_of built) built.2 eq_refl))) chain _ _ _).
  - exact chain_distinct.
  - exact chain_fresh.
  - vm_compute. reflexivity.
Defined.

Definition stale : CreateStaleCacheInput := mkStale DEFAULT_HOT_SET_KEY 3 600.
Definition faulted : result exn dict * McpStore := create_stale_cache stale ctx start.

Lemma stale_cache_is_cleared_witness :
  ∃ s, invalidate_cache_key DEFAULT_HOT_SET_KEY ctx faulted.2 = (Ok [("key", JStr DEFAULT_HOT_SET_KEY); ("deleted", JBool true)], s) ∧
    mc_redis s = delete DEFAULT_HOT_SET_KEY (mc_redis start).
Proof.
  refine (proj2 (stale_cache_is_cleared stale ctx ctx start (reply_of faulted) faulted.2 _ eq_refl eq_refl)).
  vm_compute. reflexivity.
Defined.

Definition slow : DegradeDownstreamInput := mkDegrade "slow" 1500 60.
Definition degraded : result exn dict * McpStore := degrade_downstream ActionExample.whole slow ctx start.

Lemma degradation_is_read_witness :
  Bulk.read_degradation true Answered 59 (mc_redis degraded.2) = Some (Bulk.mkDegradation "slow" 1500) ∧
  Bulk.read_degradation true Answered 60 (mc_redis degraded.2) = None.
Proof.
  split.
  - apply (degradation_is_read McpExample.errors ActionExample.whole
             [("mode", JStr "slow"); ("delay_ms", JInt 1500); ("ttl_seconds", JInt 60)] slow ctx start (reply_of degraded)); vm_compute; reflexivity.
  - apply (degradation_is_read McpExample.errors ActionExample.whole
             [("mode", JStr "slow"); ("delay_ms", JInt 1500); ("ttl_seconds", JInt 60)] slow ctx start (reply_of degraded)); [vm_compute; reflexivity..|].
    vm_compute. discriminate.
Defined.
End LabExample.
