(* ===== verification/PoolGauge.v ===== *)
(** * Connection pools as they are reported (core/db_pool_stats.py, core/pool_state.py,
      core/db_degrade.py, mcp/tools/health.py)

    A process counts the callers that gave up waiting for a connection, reads its own
    pool, and publishes the reading in Redis under a key of its own; the health tools put
    together what the database, this process and the published readings say.  Monotonic
    readings and Redis times are seconds ([Q]), stamps are microseconds ([Z]). *)
From stdpp Require Import base tactics numbers option list gmap strings sorting.
From Stdlib Require Import ZArith QArith SpecFloat.
From S2P Require Import Prelude PyData Codec Models Redis Slo Progress BreakerState.

(** ** Callers that gave up *)

Definition WAIT_TIMEOUT_WINDOW_SECONDS : Q := inject_Z 60.
Definition POOL_STATS_UNKNOWN_POOL_KIND : string :=
  "the connection pool behind this reading does not report its counters, so pool use is unknown".

(** [_wait_timeouts]: the stamps of the timeouts, oldest first. *)
Abbreviation Window := (list Q).

Definition record_pool_wait_timeout (now : Q) (w : Window) : Window := w ++ [now].

Fixpoint prune (at_ : Q) (w : Window) : Window :=
  match w with
  | x :: w' => if Qle_bool (at_ - x) WAIT_TIMEOUT_WINDOW_SECONDS then w else prune at_ w'
  | [] => []
  end.

Definition pool_wait_timeouts_in_window (at_ : Q) (w : Window) : Z * Window :=
  let w := prune at_ w in (Z.of_nat (length w), w).

(** The handler of one frame of [CountingQueuePool._do_get]: the mark on the error and the
    window. *)
Definition on_pool_timeout (now : Q) (s : bool * Window) : bool * Window :=
  if s.1 then s else (true, record_pool_wait_timeout now s.2).

(** [_do_get]: a connection, or a timeout that passes through [frames] calls. *)
Inductive checkout : Type := CheckedOut | TimedOut (frames : nat).
Definition do_get (now : Q) (c : checkout) (w : Window) : Window :=
  match c with
  | CheckedOut => w
  | TimedOut frames => (Nat.iter frames (on_pool_timeout now) (false, w)).2
  end.

(** ** The pool of this process *)

(** A pool as it is probed: its three counters, each absent, raising or a number, and the
    ceiling it keeps privately. *)
Record Pool := mkPool {
  po_size : option (result exn Z);
  po_checked_out : option (result exn Z);
  po_overflow : option (result exn Z);
  po_max_overflow : option Z
}.

(** No pool at all, as [getattr(None, ...)] sees it. *)
Definition absent_pool : Pool := mkPool None None None None.

Record PoolStats := mkPoolStats {
  ps_size : Z;
  ps_checked_out : Z;
  ps_overflow : Z;
  ps_max_overflow : option Z;
  ps_wait_timeouts_1m : Z
}.

(** [read_pool_stats]: the reading or why there is none, and the window it pruned. *)
Definition read_pool_stats (now : Q) (pool : Pool) (w : Window) : option PoolStats * option string * Window :=
  match po_size pool, po_checked_out pool, po_overflow pool with
  | Some size, Some checked_out, Some overflow =>
      match (s ← size; c ← checked_out; o ← overflow; Ok (s, c, o)) with
      | Ok (s, c, o) =>
          let '(n, w) := pool_wait_timeouts_in_window now w in
          (Some (mkPoolStats s c (Z.max 0 o) (po_max_overflow pool) n), None, w)
      | Err _ => (None, Some POOL_STATS_UNKNOWN_POOL_KIND, w)
      end
  | _, _, _ => (None, Some POOL_STATS_UNKNOWN_POOL_KIND, w)
  end.

(** ** What each process publishes *)

Definition POOL_STATE_KEY_PREFIX : string := "pool:state:".
Definition PROCESS_API_WORKER : string := "api_worker".
Definition PROCESS_MCP : string := "mcp".
Definition POOL_PROCESSES : list string := [PROCESS_API_WORKER; PROCESS_MCP].
Definition POOL_STATE_TTL_SECONDS : Q := inject_Z 60.

Definition POOL_GAUGES_UNKNOWN_NONE_PUBLISHED : string :=
  "no process has reported its connection pool: either this platform publishes none, or none has reported for longer than the platform keeps".
Definition POOL_GAUGES_UNKNOWN_UNREACHABLE : string :=
  "the platform could not reach the store that holds per-process pool readings, so no process's pool is known".
Definition POOL_GAUGES_UNKNOWN_UNREADABLE : string :=
  "per-process pool readings exist but could not be read, so no process's pool is known".

Record PoolRecord := mkPoolRecord {
  pr_process : string;
  pr_stats : PoolStats;
  pr_written_at : Z
}.

Definition pool_key_for (process : string) : result exn string :=
  if bool_decide (process ∈ POOL_PROCESSES) then Ok (POOL_STATE_KEY_PREFIX +:+ process)
  else Err (ValueError ("unknown process " +:+ repr_str process +:+ "; declare it in POOL_PROCESSES first")).

Section Gauges.
Context `{PyCodec}.

Definition pool_dict (p : PoolRecord) : dict :=
  let s := pr_stats p in
  [("process", JStr (pr_process p)); ("size", JInt (ps_size s)); ("checked_out", JInt (ps_checked_out s));
   ("overflow", JInt (ps_overflow s)); ("max_overflow", match ps_max_overflow s with Some n => JInt n | None => JNull end);
   ("wait_timeouts_1m", JInt (ps_wait_timeouts_1m s)); ("written_at", JStr (isoformat (pr_written_at p)))].

(** [publish_pool_state]: whatever fails is logged and dropped. *)
Definition publish_pool_state (o : reach) (t : Q) (p : PoolRecord) (r : Redis) : Redis :=
  match pool_key_for (pr_process p) with
  | Err _ => r
  | Ok key => (redis_cmd o (λ r, Ok (tt, r_set t key (RStr (json_dumps (JObj (pool_dict p)))) (Some POOL_STATE_TTL_SECONDS) r)) r).2
  end.

(** What one pass of a publisher meets: the pool its getter returns, or its exception, the
    monotonic clock, the wall clock, and how the write ended and when. *)
Record PassEnv := mkPass {
  pe_pool : result exn Pool;
  pe_mono : Q;
  pe_now : Z;
  pe_reach : reach;
  pe_time : Q
}.

(** [record_process_pool]: whether there was a reading to publish. *)
Definition record_process_pool (process : string) (pool : Pool) (e : PassEnv) (w : Window) (r : Redis) : bool * Window * Redis :=
  match read_pool_stats (pe_mono e) pool w with
  | (None, _, w) => (false, w, r)
  | (Some stats, _, w) => (true, w, publish_pool_state (pe_reach e) (pe_time e) (mkPoolRecord process stats (pe_now e)) r)
  end.

(** One pass of [_gauge_loop]; every error is swallowed. *)
Definition gauge_pass (process : string) (e : PassEnv) (s : Window * Redis) : Window * Redis :=
  match pe_pool e with
  | Err _ => s
  | Ok pool => let '(_, w, r) := record_process_pool process pool e s.1 s.2 in (w, r)
  end.

Definition gauge_loop (process : string) (passes : list PassEnv) (s : Window * Redis) : Window * Redis :=
  foldl (λ s e, gauge_pass process e s) s passes.

(** The one publisher of a process: none, running under a name, or ended. *)
Inductive gauge_task : Type := GaugeRunning (process : string) | GaugeDone.

Definition start_pool_gauge (process : string) (task : option gauge_task) : result exn (option gauge_task) :=
  _ ← pool_key_for process;
  Ok (match task with Some (GaugeRunning p) => Some (GaugeRunning p) | _ => Some (GaugeRunning process) end).

Definition stop_pool_gauge (task : option gauge_task) : option gauge_task := None.

(** ** Reading what was published *)

(** [_record_from]: [Ok None] is a record that cannot be read as one; a count of another
    type raises. *)
Definition pool_record_from (raw : option rval) : result exn (option PoolRecord) :=
  match raw with
  | Some (RStr s) =>
      match json_loads s with
      | Some (JObj d) =>
          match dget d "process", parse_stamp (dget d "written_at") with
          | Some (JStr process), Some written_at =>
              size_ ← int_or_zero (dget d "size");
              checked_out ← int_or_zero (dget d "checked_out");
              overflow ← int_or_zero (dget d "overflow");
              let max_overflow := match dget d "max_overflow" with
                                  | Some (JInt n) => Some n
                                  | Some (JBool b) => Some (if b then 1 else 0)%Z
                                  | _ => None
                                  end in
              timeouts ← int_or_zero (dget d "wait_timeouts_1m");
              Ok (Some (mkPoolRecord process (mkPoolStats size_ checked_out overflow max_overflow timeouts) written_at))
          | _, _ => Ok None
          end
      | _ => Ok None
      end
  | _ => Ok None
  end.

(** [_scan_keys]: every live key of the namespace, sorted. *)
Definition pool_scan_keys (t : Q) (r : Redis) : list string :=
  merge_sort string_le (filter (λ k, String.prefix POOL_STATE_KEY_PREFIX k = true ∧ is_Some (live t r k)) (elements (dom r))).

(** [_listing_order]: the place in [POOL_PROCESSES], unknown names last, then the name. *)
Definition listing_order (p : PoolRecord) : nat * string :=
  (match list_find (λ x, x = pr_process p) POOL_PROCESSES with Some (i, _) => i | None => length POOL_PROCESSES end, pr_process p).
Definition listing_le (a b : PoolRecord) : Prop :=
  ((listing_order a).1 < (listing_order b).1)%nat ∨
  (listing_order a).1 = (listing_order b).1 ∧ string_le (listing_order a).2 (listing_order b).2.
#[export] Instance listing_le_dec : RelDecision listing_le.
Proof. intros a b. unfold listing_le. apply _. Defined.

(** The loop over the keys from the [n]-th command on: [Ok None] is an unreachable store. *)
Fixpoint read_pool_records (env : StoreEnv) (n : nat) (keys : list string) (r : Redis) : result exn (option (list PoolRecord)) :=
  match keys with
  | [] => Ok (Some [])
  | k :: keys =>
      match (redis_cmd (se_reach env n) (λ r, v ← r_get (se_time env n) k r; Ok (v, r)) r).1 with
      | Err _ => Ok None
      | Ok raw =>
          record ← pool_record_from raw;
          rest ← read_pool_records env (S n) keys r;
          Ok (option_map (λ l, option_list record ++ l) rest)
      end
  end.

Definition read_pool_states (env : StoreEnv) (r : Redis) : result exn (list PoolRecord * option string) :=
  match se_reach env 0 with
  | Answered =>
      let keys := pool_scan_keys (se_time env 0) r in
      if bool_decide (keys = []) then Ok ([], Some POOL_GAUGES_UNKNOWN_NONE_PUBLISHED)
      else
        records ← read_pool_records env 1 keys r;
        Ok (match records with
            | None => ([], Some POOL_GAUGES_UNKNOWN_UNREACHABLE)
            | Some [] => ([], Some POOL_GAUGES_UNKNOWN_UNREADABLE)
            | Some l => (merge_sort listing_le l, None)
            end)
  | _ => Ok ([], Some POOL_GAUGES_UNKNOWN_UNREACHABLE)
  end.
End Gauges.
