(* ===== verification/Health.v ===== *)
(** * The health tools (core/db_degrade.py, mcp/tools/health.py)

    What the two tools answer, given what Redis, the database server and the pools say.
    The server's view of its sessions ([pg_stat_activity]) is a list of rows, and the two
    queries on it are functions of that list and of the server's clock. *)
From stdpp Require Import base tactics numbers option list gmap strings sorting.
From Stdlib Require Import ZArith QArith SpecFloat.
From S2P Require Import Prelude PyData Codec Models Database Redis Dispatcher Slo Progress BreakerState PoolGauge.

(** ** Degrading on a database error *)

(** [degrade_on_db_error]: the block runs inside a savepoint; an error of a class that is
    caught undoes the block and is kept on the probe, another one undoes it and is raised. *)
Definition degrade_on_db_error {A} (catch : exn → bool) (block : DB → result exn (A * DB)) (db : DB)
    : result exn (result exn A) * DB :=
  match block db with
  | Ok (a, db') => (Ok (Ok a), db')
  | Err e => (if catch e then Ok (Err e) else Err e, db)
  end.

(** ** get_redis_health *)

(** [_maybe_int] and [_maybe_str] of a field of [INFO]; a value of a field is never an
    infinity. *)
Definition maybe_int (v : option json) : json :=
  match v with
  | None | Some JNull => JNull
  | Some j => match py_int_json j with Ok z => JInt z | Err _ => JNull end
  end.
Definition maybe_str (str : json → string) (v : option json) : json :=
  match v with None | Some JNull => JNull | Some j => JStr (str j) end.

(** How long something took: the difference of two clock readings, in milliseconds. *)
Definition latency_ms (elapsed : spec_float) : json := JFloat (repr_rounded 3 (f64_mul elapsed (f64_of_Z 1000))).

Definition redis_health_reply (ok : bool) (ping clients bytes human hits misses error : json) : dict :=
  [("ok", JBool ok); ("ping_latency_ms", ping); ("connected_clients", clients); ("used_memory_bytes", bytes);
   ("used_memory_human", human); ("keyspace_hits", hits); ("keyspace_misses", misses); ("error", error)].

Definition redis_unhealthy (error : string) : dict :=
  redis_health_reply false JNull JNull JNull JNull JNull JNull (JStr error).

Definition get_redis_health (str : json → string) (elapsed : spec_float) (ping : result exn bool) (info : result exn dict) : dict :=
  match ping with
  | Err e => redis_unhealthy (exn_message e)
  | Ok false => redis_unhealthy "ping returned falsy"
  | Ok true =>
      match info with
      | Err e => redis_unhealthy (exn_message e)
      | Ok d =>
          redis_health_reply true (latency_ms elapsed) (maybe_int (dget d "connected_clients")) (maybe_int (dget d "used_memory"))
            (maybe_str str (dget d "used_memory_human")) (maybe_int (dget d "keyspace_hits")) (maybe_int (dget d "keyspace_misses")) JNull
      end
  end.

(** ** What the database server shows *)

Definition SLOW_QUERY_THRESHOLD_US : Z := 500000.
Definition QUERY_STATS_UNKNOWN_NOT_POSTGRES : string :=
  "this database is not PostgreSQL, so it collects no per-query timing statistics".
Definition QUERY_STATS_UNKNOWN_EXTENSION_ABSENT : string :=
  "the PostgreSQL extension that records per-query timings is not installed on this database, so no per-query timing history exists".
Definition QUERY_STATS_UNKNOWN_NO_WINDOWED_HISTORY : string :=
  "the platform keeps no per-minute history of query timings: the statistics it can read are totals since they were last reset, which cannot be narrowed to one minute".

(** A row of [pg_stat_activity]. *)
Record Backend := mkBackend {
  bk_pid : Z;
  bk_state : option string;
  bk_query_start : option Z;
  bk_datname : option string
}.

Record PgServer := mkPgServer {
  pg_activity : list Backend;
  pg_backend_pid : Z;  (** the session that asks *)
  pg_current_database : string;
  pg_clock : Z;
  pg_extensions : list string
}.

Definition is_active (b : Backend) : bool := bool_decide (bk_state b = Some "active").

(** [SELECT count( * ) FROM pg_stat_activity WHERE state = 'active']. *)
Definition active_connections (s : PgServer) : Z := Z.of_nat (length (filter (λ b, is_active b = true) (pg_activity s))).

(** The ages [_ACTIVE_QUERY_AGES] ranges over, in microseconds. *)
Definition active_query_ages (s : PgServer) : list Z :=
  omap (λ b, match bk_query_start b with
             | Some start => if is_active b && bool_decide (bk_datname b = Some (pg_current_database s)) &&
                                bool_decide (bk_pid b ≠ pg_backend_pid s)
                             then Some (pg_clock s - start)%Z else None
             | None => None
             end) (pg_activity s).

Definition longest_age (ages : list Z) : option Z :=
  match ages with [] => None | a :: ages => Some (foldl Z.max a ages) end.
Definition over_threshold (ages : list Z) : Z := Z.of_nat (length (filter (λ a, (SLOW_QUERY_THRESHOLD_US < a)%Z) ages)).

(** ** get_postgres_health *)

(** What the probe meets: the name of the bind's dialect if there is a bind, how long the
    ping took, the server, and which of its statements fails. *)
Record ProbeEnv := mkProbe {
  pb_dialect : option string;
  pb_elapsed : spec_float;
  pb_server : PgServer;
  pb_fails : nat → option exn
}.

Record QueryReading := mkQueryReading {
  qr_ping : json;
  qr_active : option Z;
  qr_longest_us : option Z;
  qr_over : option Z;
  qr_unknown : string
}.

Definition statement {A} (e : ProbeEnv) (n : nat) (a : A) : result exn A :=
  match pb_fails e n with Some x => Err x | None => Ok a end.

Definition probe_dialect (e : ProbeEnv) : string := default "unknown" (pb_dialect e).

(** The statements of the probe, in order. *)
Definition probe_block (e : ProbeEnv) (db : DB) : result exn (QueryReading * DB) :=
  _ ← statement e 0 tt;
  let ping := latency_ms (pb_elapsed e) in
  if bool_decide (probe_dialect e = "postgresql") then
    active ← statement e 1 (active_connections (pb_server e));
    ages ← statement e 2 (active_query_ages (pb_server e));
    installed ← statement e 3 (bool_decide ("pg_stat_statements" ∈ pg_extensions (pb_server e)));
    Ok (mkQueryReading ping (Some active) (longest_age ages) (Some (over_threshold ages))
          (if (installed : bool) then QUERY_STATS_UNKNOWN_NO_WINDOWED_HISTORY else QUERY_STATS_UNKNOWN_EXTENSION_ABSENT), db)
  else Ok (mkQueryReading ping None None None QUERY_STATS_UNKNOWN_NOT_POSTGRES, db).

(** The reading of a probe that failed. *)
Definition failed_reading (e : ProbeEnv) : QueryReading :=
  mkQueryReading JNull None None None
    (if bool_decide (probe_dialect e = "postgresql") then QUERY_STATS_UNKNOWN_NO_WINDOWED_HISTORY else QUERY_STATS_UNKNOWN_NOT_POSTGRES).

Definition int_opt (o : option Z) : json := match o with Some z => JInt z | None => JNull end.
Definition str_opt (o : option string) : json := match o with Some s => JStr s | None => JNull end.

(** [_pool_fields], as they stand in the reply. *)
Definition pool_fields (stats : option PoolStats) (unknown : option string) : dict :=
  match stats with
  | None => [("pool_size", JNull); ("pool_checked_out", JNull); ("pool_overflow", JNull); ("pool_max_overflow", JNull);
             ("pool_wait_timeouts_1m", JNull); ("pool_stats_unknown_reason", str_opt unknown)]
  | Some s => [("pool_size", JInt (ps_size s)); ("pool_checked_out", JInt (ps_checked_out s)); ("pool_overflow", JInt (ps_overflow s));
               ("pool_max_overflow", int_opt (ps_max_overflow s)); ("pool_wait_timeouts_1m", JInt (ps_wait_timeouts_1m s));
               ("pool_stats_unknown_reason", JNull)]
  end.

Section Health.
Context `{PyCodec} (datetime_text : Z → string).

(** [_gauge_reading]. *)
Definition gauge_reading (measured_at : Z) (p : PoolRecord) : json :=
  let s := pr_stats p in
  JObj [("process", JStr (pr_process p)); ("size", JInt (ps_size s)); ("checked_out", JInt (ps_checked_out s));
        ("overflow", JInt (ps_overflow s)); ("max_overflow", int_opt (ps_max_overflow s));
        ("wait_timeouts_1m", JInt (ps_wait_timeouts_1m s)); ("written_at", JStr (datetime_text (pr_written_at p)));
        ("reported_age_s", default (JFloat "0.0") (age_seconds measured_at (Some (pr_written_at p))))].

Definition postgres_health_reply (e : ProbeEnv) (error : option exn) (q : QueryReading) (pool : dict) (gauges : dict) : dict :=
  [("ok", JBool (bool_decide (error = None))); ("ping_latency_ms", qr_ping q); ("active_connections", int_opt (qr_active q));
   ("dialect", JStr (probe_dialect e)); ("error", str_opt (exn_message <$> error))] ++ pool ++
  [("longest_active_query_ms", match qr_longest_us q with
                               | Some us => JFloat (repr_rounded 3 (f64_div (f64_of_Z us) (f64_of_Z 1000)))
                               | None => JNull
                               end);
   ("active_queries_over_slow_threshold", int_opt (qr_over q)); ("slow_query_threshold_ms", JFloat "500.0");
   ("p95_query_ms_1m", JNull); ("slow_query_count_1m", JNull); ("query_stats_unknown_reason", JStr (qr_unknown q))] ++ gauges.

(** [get_postgres_health]: the probe inside its savepoint, then this process's pool, then
    what every process published.  [pool] is the pool of the bind. *)
Definition get_postgres_health (e : ProbeEnv) (pool : Pool) (mono : Q) (env : StoreEnv) (measured_at : Z)
    (db : DB) (w : Window) (r : Redis) : result exn dict * DB * Window :=
  let '(probe, db) := degrade_on_db_error (λ _, true) (probe_block e) db in
  let '(stats, unknown, w) := read_pool_stats mono (match pb_dialect e with Some _ => pool | None => absent_pool end) w in
  (match read_pool_states env r with
   | Err x => Err x
   | Ok (gauges, gauges_unknown) =>
       let gauge_fields := [("pools", JList (gauge_reading measured_at <$> gauges)); ("pool_gauges_unknown_reason", str_opt gauges_unknown)] in
       Ok (match probe with
           | Ok (Ok q) => postgres_health_reply e None q (pool_fields stats unknown) gauge_fields
           | Ok (Err x) | Err x => postgres_health_reply e (Some x) (failed_reading e) (pool_fields stats unknown) gauge_fields
           end)
   end, db, w).
End Health.
