(* ===== verification/PoolFaults.v ===== *)
(** * Database faults of the lab (workers/db_pool_hold.py, workers/db_slow_query.py,
      mcp/tools/chaos/saturate_db_pool.py, slow_query.py)

    Two flags in Redis and the two tasks of the worker process that obey them: one holds
    connections of the pool, the other keeps long queries running.  Durations of the
    sleepers are microseconds ([Z]): half of a whole number of milliseconds is one. *)
From stdpp Require Import base tactics numbers option list gmap strings.
From Stdlib Require Import ZArith QArith Ascii.
From S2P Require Import Prelude PyData Codec Models Database Redis Processors Accounts McpServer McpActions McpReads LabFixtures PoolGauge Health.

(** ** Holding connections *)

Definition HOLD_KEY : string := "chaos:db_pool:hold".
Definition MAX_HELD_CONNECTIONS : Z := 10.
Definition MIN_FREE_CONNECTIONS : Z := 4.
Definition POLL_INTERVAL_US : Z := 1000000.

Definition requested_hold (chaos_enabled : bool) (o : reach) (t : Q) (r : Redis) : Z :=
  if negb chaos_enabled then 0%Z
  else match (redis_cmd o (λ r, v ← r_get t HOLD_KEY r; Ok (v, r)) r).1 with
       | Ok (Some raw) => match int_of_reply raw with Some wanted => Z.max 0 (Z.min wanted MAX_HELD_CONNECTIONS) | None => 0%Z end
       | _ => 0%Z
       end.

(** [pool_capacity]: what the pool can have checked out at once, if it can say. *)
Definition pool_capacity (pool : Pool) : option Z :=
  match po_size pool with
  | Some (Ok size) => Some (size + default 0 (po_max_overflow pool))%Z
  | _ => None
  end.

Definition clamp_to_pool (wanted : Z) (capacity : option Z) : Z :=
  let bounded := Z.max 0 (Z.min wanted MAX_HELD_CONNECTIONS) in
  match capacity with
  | None => bounded
  | Some c => Z.max 0 (Z.min bounded (c - MIN_FREE_CONNECTIONS))
  end.

(** The connections a task holds, oldest first, as the numbers of their checkouts. *)
Abbreviation Held := (list nat).

(** The first loop of [reconcile_held]: give back the newest ones. *)
Definition release_down (wanted : Z) (held : Held) : Held := take (Z.to_nat wanted) held.

(** The second loop: take connections until there are [wanted] or one is refused.
    [takes n] is whether the [n]-th checkout ever tried gives a connection. *)
Fixpoint acquire_up (takes : nat → bool) (missing : nat) (next : nat) (held : Held) : Held * nat :=
  match missing with
  | O => (held, next)
  | S missing => if takes next then acquire_up takes missing (S next) (held ++ [next]) else (held, S next)
  end.

Definition reconcile_held (takes : nat → bool) (wanted : Z) (next : nat) (held : Held) : Held * nat :=
  let held := release_down wanted held in acquire_up takes (Z.to_nat wanted - length held) next held.

(** One pass of [hold_db_pool]: how its read of the flag ends, and when. *)
Record HoldPass := mkHoldPass { hp_reach : reach; hp_time : Q; hp_redis : Redis }.

Definition hold_pass (takes : nat → bool) (capacity : option Z) (p : HoldPass) (s : Held * nat) : Held * nat :=
  reconcile_held takes (clamp_to_pool (requested_hold true (hp_reach p) (hp_time p) (hp_redis p)) capacity) s.2 s.1.

(** [hold_db_pool] after some passes; [None] when it ended at once.  Cancelled, it gives
    everything back. *)
Definition hold_db_pool (chaos_enabled : bool) (pool : Pool) (takes : nat → bool) (passes : list HoldPass) : option Held :=
  if negb chaos_enabled then None
  else Some (foldl (λ s p, hold_pass takes (pool_capacity pool) p s) ([], 0%nat) passes).1.

(** ** Keeping queries running *)

Definition SLOW_QUERY_KEY : string := "chaos:db_query:slow".
Definition TARGET_RELATIONS : list (string * string) :=
  [("job_reads", "jobs"); ("audit_reads", "audit_logs"); ("outbox_reads", "outbox_events")].
Definition SLEEPER_COUNT : nat := 2.
Definition MIN_QUERY_MS : Z := 1100.
Definition MAX_QUERY_MS : Z := 10000.
Definition DEFAULT_QUERY_MS : Z := 2000.

Definition relation_of (target : string) : option string :=
  snd <$> (snd <$> list_find (λ kv, kv.1 = target) TARGET_RELATIONS).

Record SlowQueryRequest := mkSlow { sq_target : string; sq_query_ms : Z }.

Definition encode_request (target : string) (query_ms : Z) : string := target +:+ ":" +:+ show_Z query_ms.

Definition parse_request (raw : option rval) : option SlowQueryRequest :=
  value ← match raw with Some (RStr s) => Some s | Some (RInt z) => Some (show_Z z) | _ => None end;
  let '(target, chunk) := Bulk.partition_colon (chars value) in
  let target := String.string_of_list_ascii target in
  _ ← relation_of target;
  query_ms ← py_int (String.string_of_list_ascii chunk);
  if (MIN_QUERY_MS <=? query_ms)%Z && (query_ms <=? MAX_QUERY_MS)%Z then Some (mkSlow target query_ms) else None.

Definition requested_slow_query (chaos_enabled : bool) (o : reach) (t : Q) (r : Redis) : option SlowQueryRequest :=
  if negb chaos_enabled then None
  else match (redis_cmd o (λ r, v ← r_get t SLOW_QUERY_KEY r; Ok (v, r)) r).1 with
       | Ok raw => parse_request raw
       | Err _ => None
       end.

Definition sleeper_budget (capacity : option Z) : nat :=
  match capacity with
  | None => SLEEPER_COUNT
  | Some c => if (Z.of_nat SLEEPER_COUNT <=? c - MIN_FREE_CONNECTIONS)%Z then SLEEPER_COUNT else 0%nat
  end.

Definition statement_for (target : string) : result exn string :=
  match relation_of target with
  | Some relation => Ok ("SELECT pg_sleep(CAST(:seconds AS double precision)) AS waited, (SELECT count(*) FROM " +:+ relation +:+ ") AS rows_read")
  | None => Err (KeyError target)
  end.

(** A query of a sleeper: when it started and when it ended. *)
Record Run := mkRun { rn_start : Z; rn_end : Z }.

(** What one pass of [_sleeper] meets: what the flag asks for, how long the pass spends
    before its query starts (reading the flag, taking a connection), and, of a query that
    does not run, how long it took to be refused. *)
Record SleeperPass := mkSleeperPass { sp_request : option SlowQueryRequest; sp_delay : Z; sp_refused : option Z }.

(** [run_one_slow_query] at an instant: the query it ran, if it did, and when it is over. *)
Definition run_one_slow_query (t : Z) (p : SleeperPass) (request : SlowQueryRequest) : option Run * Z :=
  match statement_for (sq_target request), sp_refused p with
  | Ok _, None => (Some (mkRun t (t + 1000 * sq_query_ms request)), t + 1000 * sq_query_ms request)%Z
  | _, refused => (None, t + default 0 refused)%Z
  end.

(** The phase of a sleeper within a chunk: [query_ms / 1000 * index / SLEEPER_COUNT]. *)
Definition sleeper_phase (index : nat) (request : SlowQueryRequest) : Z :=
  (1000 * sq_query_ms request * Z.of_nat index / Z.of_nat SLEEPER_COUNT)%Z.

(** One pass of [_sleeper] from the instant [t]: its query, whether it is armed, and when
    the next pass begins. *)
Definition sleeper_pass (index budget : nat) (p : SleeperPass) (armed : bool) (t : Z) : option Run * bool * Z :=
  match sp_request p with
  | Some request =>
      if bool_decide (index < budget)%nat then
        let t := (t + sp_delay p + (if armed then 0 else sleeper_phase index request))%Z in
        match run_one_slow_query t p request with
        | (Some run, t) => (Some run, true, t)
        | (None, t) => (None, true, t + POLL_INTERVAL_US)%Z
        end
      else (None, false, t + sp_delay p + POLL_INTERVAL_US)%Z
  | None => (None, false, t + sp_delay p + POLL_INTERVAL_US)%Z
  end.

(** The queries of one sleeper over its passes. *)
Fixpoint sleeper (index budget : nat) (passes : list SleeperPass) (armed : bool) (t : Z) : list Run :=
  match passes with
  | [] => []
  | p :: passes => let '(run, armed, t) := sleeper_pass index budget p armed t in option_list run ++ sleeper index budget passes armed t
  end.

(** [run_slow_queries] started at [t]: the queries of each sleeper; none when the task
    ends at once. *)
Definition run_slow_queries (chaos_enabled : bool) (pool : Pool) (passes : nat → list SleeperPass) (t : Z) : list (list Run) :=
  if negb chaos_enabled then []
  else
    let budget := sleeper_budget (pool_capacity pool) in
    if bool_decide (budget = 0%nat) then []
    else (λ i, sleeper i budget (passes i) false t) <$> seq 0 SLEEPER_COUNT.

(** The rows of [pg_stat_activity] a sleeper's queries are at an instant. *)
Definition in_flight (t : Z) (runs : list Run) : list Run := filter (λ x, (rn_start x ≤ t < rn_end x)%Z) runs.
Definition sleeper_backends (database : string) (first_pid : Z) (t : Z) (sleepers : list (list Run)) : list Backend :=
  imap (λ i x, mkBackend (first_pid + Z.of_nat i) (Some "active") (Some (rn_start x)) (Some database)) (concat (in_flight t <$> sleepers)).

(** ** The tools *)

Section Tools.
Context `{!Pydantic} (validation_errors : string → dict → json) (doc : string → string) (schema : string → dict).

#[local] Abbreviation validated := (validated validation_errors).

Record SaturateDbPoolInput := mkSaturate { sd_connections : Z; sd_ttl_seconds : Z }.

Definition validate_saturate (d : dict) : result json SaturateDbPoolInput :=
  validated "SaturateDbPoolInput" d
    (if only_fields ["connections"; "ttl_seconds"] d then
       n ← defaulted MAX_HELD_CONNECTIONS (int_between 1 MAX_HELD_CONNECTIONS) (dget d "connections");
       t ← defaulted 300%Z (int_between 1 3600) (dget d "ttl_seconds");
       Some (mkSaturate n t)
     else None).

Definition saturate_db_pool (inp : SaturateDbPoolInput) (ctx : ToolContext) (s : McpStore) : result exn dict * McpStore :=
  match redis_set ctx 0 HOLD_KEY (show_Z (sd_connections inp)) (sd_ttl_seconds inp) s with
  | (Err e, s) => (Err e, s)
  | (Ok _, s) =>
      (Ok [("hold_key", JStr HOLD_KEY); ("connections", JInt (sd_connections inp)); ("ttl_seconds", JInt (sd_ttl_seconds inp));
           ("poll_interval_seconds", JFloat "1.0"); ("min_free_connections", JInt MIN_FREE_CONNECTIONS); ("accepted", JBool true)], s)
  end.

Record SlowQueryInput := mkSlowInput { si_target : string; si_query_ms : Z; si_ttl_seconds : Z }.

Definition validate_slow (d : dict) : result json SlowQueryInput :=
  validated "SlowQueryInput" d
    (if only_fields ["target"; "query_ms"; "ttl_seconds"] d then
       g ← defaulted "job_reads" (literal ["job_reads"; "audit_reads"; "outbox_reads"]) (dget d "target");
       n ← defaulted DEFAULT_QUERY_MS (int_between MIN_QUERY_MS MAX_QUERY_MS) (dget d "query_ms");
       t ← defaulted 300%Z (int_between 1 3600) (dget d "ttl_seconds");
       Some (mkSlowInput g n t)
     else None).

Definition slow_db_queries (inp : SlowQueryInput) (ctx : ToolContext) (s : McpStore) : result exn dict * McpStore :=
  match redis_set ctx 0 SLOW_QUERY_KEY (encode_request (si_target inp) (si_query_ms inp)) (si_ttl_seconds inp) s with
  | (Err e, s) => (Err e, s)
  | (Ok _, s) =>
      match relation_of (si_target inp) with
      | None => (Err (KeyError (si_target inp)), s)
      | Some relation =>
          (Ok [("flag_key", JStr SLOW_QUERY_KEY); ("target", JStr (si_target inp)); ("relation", JStr relation);
               ("query_ms", JInt (si_query_ms inp)); ("ttl_seconds", JInt (si_ttl_seconds inp));
               ("concurrent_queries", JInt (Z.of_nat SLEEPER_COUNT)); ("poll_interval_seconds", JFloat "1.0");
               ("slow_query_threshold_ms", JFloat "500.0"); ("accepted", JBool true)], s)
      end
  end.

(** *** saturate_redis *)

Definition MAX_TOTAL_BYTES : Z := 256 * 1024 * 1024.
Record SaturateRedisInput := mkSaturateRedis { sr_num_keys : Z; sr_value_bytes : Z; sr_ttl_seconds : Z }.

Definition validate_saturate_redis (d : dict) : result json SaturateRedisInput :=
  validated "SaturateRedisInput" d
    (if only_fields ["num_keys"; "value_bytes"; "ttl_seconds"] d then
       n ← defaulted 1000%Z (int_between 1 100000) (dget d "num_keys");
       b ← defaulted 1024%Z (int_between 16 1048576) (dget d "value_bytes");
       t ← defaulted 60%Z (int_between 1 3600) (dget d "ttl_seconds");
       if (MAX_TOTAL_BYTES <? n * b)%Z then None else Some (mkSaturateRedis n b t)
     else None).

(** The keys one run writes, all with the same filler; [run_id] is twelve digits of a fresh
    UUID. *)
Definition sat_key (run_id : string) (i : nat) : string := "chaos:sat:" +:+ run_id +:+ ":" +:+ show_Z (Z.of_nat i).
Definition write_fillers (t : Q) (run_id : string) (inp : SaturateRedisInput) (r : Redis) : Redis :=
  let filler := String.string_of_list_ascii (replicate (Z.to_nat (sr_value_bytes inp)) "x"%char) in
  foldl (λ r i, r_set t (sat_key run_id i) (RStr filler) (Some (inject_Z (sr_ttl_seconds inp))) r) r (seq 0 (Z.to_nat (sr_num_keys inp))).

(** The pipeline is one round trip, and executed whole. *)
Definition saturate_redis `{UuidSource} (inp : SaturateRedisInput) (ctx : ToolContext) (s : McpStore) : result exn dict * McpStore :=
  let '(u, db) := draw_uuid (mc_db s) in
  let s := with_mcp_db db s in
  let run_id := String.string_of_list_ascii (take 12 (hex_digits 32 u)) in
  match redis_cmd (cx_reach ctx 0) (λ r, Ok (tt, write_fillers (cx_time ctx 0) run_id inp r)) (mc_redis s) with
  | (Err e, r) => (Err e, with_mcp_redis r s)
  | (Ok _, r) =>
      (Ok [("run_id", JStr run_id); ("key_prefix", JStr ("chaos:sat:" +:+ run_id)); ("keys_written", JInt (sr_num_keys inp));
           ("total_value_bytes", JInt (sr_num_keys inp * sr_value_bytes inp)); ("ttl_seconds", JInt (sr_ttl_seconds inp))],
       with_mcp_redis r s)
  end.

#[local] Abbreviation spec := (tool_spec doc schema).

Definition pressure_tools `{UuidSource} : list tool_decl :=
  [ChaosTool SHARED_DEPENDENCY (spec "saturate_db_pool" validate_saturate saturate_db_pool);
   ChaosTool SHARED_DEPENDENCY (spec "slow_db_queries" validate_slow slow_db_queries);
   ChaosTool SHARED_DEPENDENCY (spec "saturate_redis" validate_saturate_redis saturate_redis)].
End Tools.
