(* ===== verification/PoolProps.v ===== *)
(** * Properties of the pool readings, the health tools and the database faults

    The published readings are the latest ones of the processes that still report; a hold
    keeps its floor of free connections; the slow queries of the lab show in every
    reading as long as the sleepers keep step, and do not when they drift apart. *)
From stdpp Require Import base tactics numbers option list gmap strings sorting relations.
From Stdlib Require Import ZArith QArith Ascii Lia SpecFloat.
From S2P Require Import Prelude PyData Codec Models Database Redis Dispatcher Slo Progress BreakerState BreakerStateProps Processors Accounts Auth McpServer McpServerProps McpActions McpReads McpActionsProps LabFixtures LabFixturesProps PoolGauge Health PoolFaults.

(** ** Callers that gave up *)

(** What happens to the window: a checkout, or a reading. *)
Inductive window_event : Type := Checkout (at_ : Q) (c : checkout) | Reading (at_ : Q).

Definition event_at (e : window_event) : Q := match e with Checkout t _ | Reading t => t end.

Definition window_step (w : Window) (e : window_event) : Window :=
  match e with
  | Checkout t c => do_get t c w
  | Reading t => (pool_wait_timeouts_in_window t w).2
  end.

(** The stamps of the callers that gave up. *)
Definition gave_up (e : window_event) : option Q :=
  match e with Checkout t (TimedOut (S _)) => Some t | _ => None end.

Definition within_window (at_ x : Q) : bool := Qle_bool (at_ - x) WAIT_TIMEOUT_WINDOW_SECONDS.

Lemma counted_once now frames w :
  (Nat.iter frames (on_pool_timeout now) (false, w)).2 = match frames with O => w | S _ => record_pool_wait_timeout now w end.
Proof.
  destruct frames as [|n]; [done|].
  assert (Hn : Nat.iter (S n) (on_pool_timeout now) (false, w) = (true, record_pool_wait_timeout now w)); [|by rewrite Hn].
  induction n as [|n IH]; [done|]. change (on_pool_timeout now (Nat.iter (S n) (on_pool_timeout now) (false, w)) = (true, record_pool_wait_timeout now w)).
  by rewrite IH.
Qed.

Lemma within_later a b x : (a <= b)%Q → within_window b x = true → within_window a x = true.
Proof.
  unfold within_window. rewrite !Qle_bool_iff. intros Hab Hb. eapply Qle_trans; [|exact Hb].
  unfold Qminus. by apply Qplus_le_compat; [|apply Qle_refl].
Qed.

Lemma within_younger a x y : (x <= y)%Q → within_window a x = true → within_window a y = true.
Proof.
  unfold within_window. rewrite !Qle_bool_iff. intros Hxy Ha. eapply Qle_trans; [|exact Ha].
  unfold Qminus. apply Qplus_le_compat; [apply Qle_refl|]. by apply Qopp_le_compat.
Qed.

Lemma prune_sorted at_ w : StronglySorted Qle w → prune at_ w = filter (λ x, within_window at_ x = true) w.
Proof.
  induction 1 as [|x w Hs IH Hx]; [done|]. rewrite filter_cons. unfold prune; fold prune.
  change (Qle_bool (at_ - x) WAIT_TIMEOUT_WINDOW_SECONDS) with (within_window at_ x).
  destruct (decide (within_window at_ x = true)) as [Hin|Hin].
  - rewrite Hin. f_equal. symmetry. apply filter_all. intros y Hy. eapply within_younger; [|exact Hin].
    by eapply (proj1 (Forall_forall _ _) Hx).
  - apply not_true_is_false in Hin. by rewrite Hin.
Qed.

Lemma sorted_snoc l (x : Q) : StronglySorted Qle l → Forall (λ y, y <= x)%Q l → StronglySorted Qle (l ++ [x]).
Proof.
  induction 1 as [|y l Hs IH Hy]; intros Hl; [by repeat constructor|]. apply Forall_cons in Hl as [Hyx Hl]. cbn. constructor; [by apply IH|].
  apply Forall_app. split; [done|]. by apply Forall_singleton.
Qed.

Lemma sorted_snoc_inv l (x : Q) : StronglySorted Qle (l ++ [x]) → StronglySorted Qle l ∧ Forall (λ y, y <= x)%Q l.
Proof.
  induction l as [|y l IH]; intros Hs; [by repeat constructor|]. cbn in Hs. apply StronglySorted_inv in Hs as [Hs Hy].
  destruct (IH Hs) as [Hl Hx]. apply Forall_app in Hy as [Hy Hyx]. apply Forall_cons in Hyx as [Hyx _].
  split; by constructor.
Qed.

Lemma Forall_filtered {A} (P Q : A → Prop) `{!∀ x, Decision (Q x)} (l : list A) : Forall P l → Forall P (filter Q l).
Proof. rewrite !Forall_forall. intros Hl x Hx. apply list_elem_of_filter in Hx as [_ Hx]. by apply Hl. Qed.

(** What the window holds is what a later reading can count. *)
Lemma window_holds events :
  StronglySorted Qle (event_at <$> events) →
  let w := foldl window_step [] events in
  StronglySorted Qle w ∧ (∀ a, Forall (λ y, y <= a)%Q (event_at <$> events) → Forall (λ y, y <= a)%Q w ∧
    filter (λ x, within_window a x = true) w = filter (λ x, within_window a x = true) (omap gave_up events)).
Proof.
  induction events as [|e events IH] using rev_ind; intros Hs w; [by repeat constructor|].
  rewrite fmap_app in Hs. apply sorted_snoc_inv in Hs as [Hs Hle]. destruct (IH Hs) as [Hw Hf]. unfold w. rewrite foldl_app. cbn [foldl].
  destruct (Hf (event_at e) Hle) as [Hwe Hfe]. set (w0 := foldl window_step [] events) in *. clearbody w0. rewrite omap_app.
  assert (Hsame : window_step w0 e = w0 → gave_up e = None →
    StronglySorted Qle (window_step w0 e) ∧ ∀ a, Forall (λ y, y <= a)%Q (event_at <$> events ++ [e]) → Forall (λ y, y <= a)%Q (window_step w0 e) ∧
      filter (λ x, within_window a x = true) (window_step w0 e) = filter (λ x, within_window a x = true) (omap gave_up events ++ omap gave_up [e])).
  { intros -> Hg. split; [done|]. intros a Ha. rewrite fmap_app in Ha. apply Forall_app in Ha as [Ha _]. cbn. rewrite Hg, app_nil_r. by apply Hf. }
  destruct e as [t [|[|n]]|t]; [by apply Hsame..| |].
  - cbn [window_step do_get]. rewrite counted_once. unfold record_pool_wait_timeout. cbn [event_at] in *. split; [by apply sorted_snoc|].
    intros a Ha. rewrite fmap_app in Ha. apply Forall_app in Ha as [Ha Hta]. apply Forall_cons in Hta as [Hta _]. destruct (Hf a Ha) as [Hwa Hfa].
    split; [by apply Forall_app; split; [|apply Forall_singleton]|]. by rewrite !filter_app, Hfa.
  - cbn [window_step pool_wait_timeouts_in_window snd event_at] in *. rewrite prune_sorted by done. split.
    { clear -Hw. induction Hw as [|x l Hl IH Hx]; [constructor|]. rewrite filter_cons. case_decide; [|done]. constructor; [done|]. by apply Forall_filtered. }
    intros a Ha. rewrite fmap_app in Ha. apply Forall_app in Ha as [Ha Hta]. apply Forall_cons in Hta as [Hta _]. destruct (Hf a Ha) as [Hwa Hfa].
    split; [by apply Forall_filtered|]. cbn. rewrite app_nil_r, <- Hfa, list_filter_filter_l; [done|].
    intros x Hx. by eapply within_later.
Qed.

(** A process that counts its waits reports exactly the callers that gave up in the last
    sixty seconds: however many readings came before and pruned the window, and through
    however many frames of the pool each timeout passed, each caller counts once. *)
Theorem timeouts_counted_exactly events at_ :
  StronglySorted Qle ((event_at <$> events) ++ [at_]) →
  (pool_wait_timeouts_in_window at_ (foldl window_step [] events)).1 =
  Z.of_nat (length (filter (λ x, within_window at_ x = true) (omap gave_up events))).
Proof.
  intros [Hs Hle]%sorted_snoc_inv. destruct (window_holds events Hs) as [Hw Hf]. cbn [pool_wait_timeouts_in_window fst].
  rewrite prune_sorted by done. by rewrite (proj2 (Hf at_ Hle)).
Qed.

(** ** Published readings *)

Section Published.
Context `{PyCodec}.

Definition pool_text (p : PoolRecord) : string := json_dumps (JObj (pool_dict p)).

(** What a process publishes is what another one reads. *)
Lemma pool_record_roundtrip p : valid_datetime (pr_written_at p) = true → pool_record_from (Some (RStr (pool_text p))) = Ok (Some p).
Proof.
  intros Hv. unfold pool_record_from, pool_text. rewrite loads_dumps.
  - set (d := pool_dict p).
    change (dget d "process") with (Some (JStr (pr_process p))).
    change (dget d "written_at") with (Some (JStr (isoformat (pr_written_at p)))).
    change (dget d "size") with (Some (JInt (ps_size (pr_stats p)))).
    change (dget d "checked_out") with (Some (JInt (ps_checked_out (pr_stats p)))).
    change (dget d "overflow") with (Some (JInt (ps_overflow (pr_stats p)))).
    change (dget d "max_overflow") with (Some (match ps_max_overflow (pr_stats p) with Some n => JInt n | None => JNull end)).
    change (dget d "wait_timeouts_1m") with (Some (JInt (ps_wait_timeouts_1m (pr_stats p)))).
    cbn [parse_stamp]. rewrite !int_or_zero_int, iso_roundtrip by done. cbn [mbind result_mbind].
    destruct p as [process [size_ out over [m|] waits] at_]; done.
  - cbn [json_plain pool_dict]. rewrite bool_decide_true.
    + cbn. by case_match.
    + cbn. repeat constructor; set_solver.
Qed.

(** A write of a reading: how the command ended, and when. *)
Abbreviation publication := (reach * Q * PoolRecord)%type.
Definition publish_all (pubs : list publication) (r : Redis) : Redis :=
  foldl (λ r x, publish_pool_state x.1.1 x.1.2 x.2 r) r pubs.

Definition stores (process : string) (x : publication) : option (Q * PoolRecord) :=
  match x with
  | (NotReached, _, _) => None
  | (_, t, p) => if bool_decide (pr_process p = process) then Some (t, p) else None
  end.

(** The last reading of a process that reached the store, as long as it is kept. *)
Definition current (t : Q) (pubs : list publication) (process : string) : option PoolRecord :=
  match last (omap (stores process) pubs) with
  | Some (t0, p) => if Qle_bool (t0 + POOL_STATE_TTL_SECONDS) t then None else Some p
  | None => None
  end.

(** The reference listing: every process that still reports, in the declared order. *)
Definition listing (t : Q) (pubs : list publication) : list PoolRecord := omap (current t pubs) POOL_PROCESSES.

Definition pool_entry (x : Q * PoolRecord) : rentry := mkEntry (RStr (pool_text x.2)) (Some (x.1 + POOL_STATE_TTL_SECONDS)%Q).

Lemma declared_cases process : process ∈ POOL_PROCESSES → process = PROCESS_API_WORKER ∨ process = PROCESS_MCP.
Proof. unfold POOL_PROCESSES. set_solver. Qed.

Lemma publish_lookup o t p r k :
  publish_pool_state o t p r !! k =
  match stores (pr_process p) (o, t, p) with
  | Some x => if bool_decide (pr_process p ∈ POOL_PROCESSES ∧ k = POOL_STATE_KEY_PREFIX +:+ pr_process p) then Some (pool_entry x) else r !! k
  | None => r !! k
  end.
Proof.
  unfold publish_pool_state, pool_key_for, stores. rewrite (bool_decide_true (pr_process p = pr_process p)) by done.
  destruct (decide (pr_process p ∈ POOL_PROCESSES)) as [Hd|Hd].
  - rewrite (bool_decide_true (_ ∈ _)) by done. destruct (decide (k = POOL_STATE_KEY_PREFIX +:+ pr_process p)) as [->|Hk].
    + rewrite bool_decide_true by done. destruct o; cbn; unfold r_set; by rewrite ?lookup_insert_eq.
    + rewrite bool_decide_false by tauto. destruct o; cbn; unfold r_set; by rewrite ?lookup_insert_ne.
  - rewrite (bool_decide_false (_ ∈ _)) by done. rewrite bool_decide_false by tauto. by destruct o.
Qed.

Lemma published_lookup pubs r0 process :
  process ∈ POOL_PROCESSES → r0 !! (POOL_STATE_KEY_PREFIX +:+ process) = None →
  publish_all pubs r0 !! (POOL_STATE_KEY_PREFIX +:+ process) = pool_entry <$> last (omap (stores process) pubs).
Proof.
  intros Hp H0. induction pubs as [|[[o t] p] pubs IH] using rev_ind; [done|]. unfold publish_all. rewrite foldl_app. cbn [foldl fst snd].
  rewrite publish_lookup. fold (publish_all pubs r0). rewrite IH, omap_app. cbn [omap list_omap].
  destruct (decide (pr_process p = process)) as [<-|Hne].
  - destruct (stores (pr_process p) (o, t, p)) as [x|]; [|by rewrite app_nil_r]. rewrite bool_decide_true by done. by rewrite last_snoc.
  - assert (Hs : stores process (o, t, p) = None) by (unfold stores; rewrite (bool_decide_false (pr_process p = process)) by done; by destruct o).
    rewrite Hs, app_nil_r. destruct (stores (pr_process p) (o, t, p)) as [x|]; [|done]. rewrite bool_decide_false; [done|]. intros [Hd Hk]. apply Hne.
    destruct (declared_cases _ Hp) as [-> | ->], (declared_cases _ Hd) as [Ep | Ep]; rewrite Ep in *; done.
Qed.

Lemma published_other pubs r0 k :
  (∀ process, process ∈ POOL_PROCESSES → k ≠ POOL_STATE_KEY_PREFIX +:+ process) → publish_all pubs r0 !! k = r0 !! k.
Proof.
  intros Hk. induction pubs as [|[[o t] p] pubs IH] using rev_ind; [done|]. unfold publish_all. rewrite foldl_app. cbn [foldl fst snd].
  rewrite publish_lookup. fold (publish_all pubs r0). rewrite IH. destruct (stores _ _); [|done].
  rewrite bool_decide_false; [done|]. intros [Hd ->]. by apply (Hk _ Hd).
Qed.
(** *** The listing *)

Lemma prefixed_key process : String.prefix POOL_STATE_KEY_PREFIX (POOL_STATE_KEY_PREFIX +:+ process) = true.
Proof. apply prefix_app. Qed.

Section Listing.
Context (r0 : Redis) (pubs : list publication) (t : Q).
Hypothesis clean : ∀ k, String.prefix POOL_STATE_KEY_PREFIX k = true → r0 !! k = None.
Hypothesis stamped : Forall (λ x : publication, valid_datetime (pr_written_at x.2) = true) pubs.

Abbreviation store := (publish_all pubs r0).
Abbreviation key process := (POOL_STATE_KEY_PREFIX +:+ process).

Lemma live_current process : process ∈ POOL_PROCESSES →
  match live t store (key process) with
  | Some e => ∃ p, current t pubs process = Some p ∧ e_val e = RStr (pool_text p)
  | None => current t pubs process = None
  end.
Proof.
  intros Hp. unfold live, current. rewrite (published_lookup pubs r0 process Hp (clean _ (prefixed_key _))).
  destruct (last _) as [[t0 p]|]; cbn; [|done]. unfold expired. cbn. destruct (Qle_bool _ t); [done|]. by exists p.
Qed.

Lemma current_stored process p : current t pubs process = Some p → pr_process p = process ∧ valid_datetime (pr_written_at p) = true.
Proof.
  unfold current. destruct (last _) as [[t0 q]|] eqn:El; [|done]. destruct (Qle_bool _ t); [done|]. intros [= ->].
  apply last_Some_elem_of in El. apply list_elem_of_omap in El as ([[o t1] q] & Hin & Hs).
  pose proof (proj1 (Forall_forall _ _) stamped _ Hin) as Hv. unfold stores in Hs.
  destruct o; [|done|]; case_bool_decide; simplify_eq; done.
Qed.

Definition live_keys : list string := omap (λ process, (λ _, key process) <$> current t pubs process) POOL_PROCESSES.

Lemma scanned_keys :
  filter (λ k, String.prefix POOL_STATE_KEY_PREFIX k = true ∧ is_Some (live t store k)) (elements (dom store)) ≡ₚ live_keys.
Proof.
  apply NoDup_Permutation.
  - apply NoDup_filter, NoDup_elements.
  - unfold live_keys, POOL_PROCESSES. cbn. destruct (current t pubs PROCESS_API_WORKER), (current t pubs PROCESS_MCP); cbn; repeat constructor; set_solver.
  - intros k. unfold live_keys. rewrite list_elem_of_filter, elem_of_elements, list_elem_of_omap, elem_of_dom. split.
    + intros ([Hk Hl] & Hd). destruct (decide (k ∈ (λ process, key process) <$> POOL_PROCESSES)) as [(process & -> & Hp)%list_elem_of_fmap|Hn].
      * exists process. split; [done|]. pose proof (live_current process Hp) as Hc. destruct (live t store (key process)); [|by destruct Hl].
        by destruct Hc as (p & -> & _).
      * destruct Hd as [e He]. rewrite published_other in He; [by rewrite clean in He|]. intros process Hp ->. apply Hn.
        by apply (list_elem_of_fmap_2 (λ process, key process)).
    + intros (process & Hp & Hc). destruct (current t pubs process) as [p|] eqn:Ec; [|done]. injection Hc as <-.
      pose proof (live_current process Hp) as Hl. destruct (live t store (key process)) as [e|] eqn:El; [|congruence].
      split_and!; [apply prefixed_key|done|]. unfold live in El. by destruct (store !! key process).
Qed.

Lemma scan_is_live_keys : pool_scan_keys t store = live_keys.
Proof.
  unfold pool_scan_keys. pose proof scanned_keys as Hp. revert Hp. generalize (filter (λ k, String.prefix POOL_STATE_KEY_PREFIX k = true ∧ is_Some (live t store k)) (elements (dom store))).
  unfold live_keys, POOL_PROCESSES. cbn.
  destruct (current t pubs PROCESS_API_WORKER), (current t pubs PROCESS_MCP); cbn; intros l Hl.
  - symmetry in Hl. apply Permutation_length_2_inv in Hl as [-> | ->]; vm_compute; reflexivity.
  - symmetry in Hl. apply Permutation_length_1_inv in Hl as ->. reflexivity.
  - symmetry in Hl. apply Permutation_length_1_inv in Hl as ->. reflexivity.
  - symmetry in Hl. apply Permutation_nil in Hl as ->. reflexivity.
Qed.

Lemma read_live_keys env ps n :
  Forall (λ process, process ∈ POOL_PROCESSES) ps → (∀ n, se_reach env n = Answered ∧ se_time env n = t) →
  read_pool_records env n (omap (λ process, (λ _, key process) <$> current t pubs process) ps) store = Ok (Some (omap (current t pubs) ps)).
Proof.
  intros Hps He. revert n. induction Hps as [|process ps Hp Hps IH]; intros n; [done|]. cbn [omap list_omap].
  destruct (current t pubs process) as [p|] eqn:Ec; cbn [fmap option_fmap option_map]; [|by apply IH]. cbn [read_pool_records].
  destruct (He n) as [-> ->]. pose proof (live_current process Hp) as Hl. unfold redis_cmd, r_get.
  destruct (live t store (key process)) as [e|]; [|congruence]. destruct Hl as (p' & Hp' & ->). simplify_eq. cbn [mbind result_mbind fst].
  rewrite pool_record_roundtrip by (by eapply current_stored). cbn [mbind result_mbind]. by rewrite IH.
Qed.

Lemma listing_sorted : merge_sort listing_le (listing t pubs) = listing t pubs.
Proof.
  unfold listing, POOL_PROCESSES. cbn [omap list_omap].
  destruct (current t pubs PROCESS_API_WORKER) as [a|] eqn:Ea, (current t pubs PROCESS_MCP) as [b|] eqn:Eb; try done.
  apply current_stored in Ea as [Ha _]. apply current_stored in Eb as [Hb _]. destruct a, b. cbn in *. subst. reflexivity.
Qed.
End Listing.

(** C38: The pools another process sees are the latest ones.  After any interleaving of the
    publishers of all processes, with some writes lost, a reader of the store is given
    exactly the last reading of every process that reached the store less than sixty
    seconds ago, in the declared order, each as it was written; and a reason instead
    exactly when there is none. *)
Theorem gauges_are_latest r0 (pubs : list publication) env t :
  (∀ k, String.prefix POOL_STATE_KEY_PREFIX k = true → r0 !! k = None) →
  Forall (λ x : publication, valid_datetime (pr_written_at x.2) = true) pubs →
  (∀ n, se_reach env n = Answered ∧ se_time env n = t) →
  read_pool_states env (publish_all pubs r0) =
  Ok (listing t pubs, if bool_decide (listing t pubs = []) then Some POOL_GAUGES_UNKNOWN_NONE_PUBLISHED else None).
Proof.
  intros Hc Hs He. unfold read_pool_states. destruct (He 0%nat) as [-> ->]. rewrite scan_is_live_keys by done.
  pose proof (read_live_keys r0 pubs t Hc Hs env POOL_PROCESSES 1) as Hr.
  specialize (Hr ltac:(repeat constructor; set_solver) He). fold (live_keys pubs t) in Hr. rewrite Hr. clear Hr.
  pose proof (listing_sorted pubs t Hs) as Hl. fold (listing t pubs).
  assert (Hn : live_keys pubs t = [] ↔ listing t pubs = []).
  { unfold live_keys, listing, POOL_PROCESSES. cbn. destruct (current _ _ PROCESS_API_WORKER), (current _ _ PROCESS_MCP); done. }
  destruct (decide (listing t pubs = [])) as [E|E].
  - rewrite !bool_decide_true by tauto. by rewrite E.
  - rewrite !bool_decide_false by tauto. cbn [mbind result_mbind]. rewrite <- Hl at 2. by destruct (listing t pubs).
Qed.

(** Whatever the store answers, a reader gets readings or a reason, never both and never
    neither. *)
Lemma gauges_or_reason env r l why : read_pool_states env r = Ok (l, why) → l = [] ↔ is_Some why.
Proof.
  unfold read_pool_states. intros Hr.
  assert (Hm : ∀ (x : PoolRecord) k, merge_sort listing_le (x :: k) ≠ []).
  { intros x k Hk. pose proof (merge_sort_Permutation listing_le (x :: k)) as Hp. rewrite Hk in Hp. by apply Permutation_nil_cons in Hp. }
  destruct (se_reach env 0); [|by simplify_eq..]. case_bool_decide; [by simplify_eq|].
  apply bind_ok in Hr as ([[|x k]|] & _ & Hr); simplify_eq; try done. split; [intros Hk; by apply Hm in Hk|by intros [? ?]].
Qed.
End Published.

(** ** Held connections and running queries *)

Lemma acquired takes missing : ∀ next held held' next', acquire_up takes missing next held = (held', next') →
  (length held' ≤ length held + missing)%nat ∧ ((∀ n, takes n = true) → held' = held ++ seq next missing).
Proof.
  induction missing as [|m IH]; intros next held held' next'; cbn; [intros [= <- <-]; rewrite app_nil_r; split; [lia|done]|].
  destruct (takes next) eqn:Et; [|intros [= <- <-]; split; [lia|]; intros Ha; by rewrite Ha in Et].
  intros [Hl Ha]%IH. rewrite length_app in Hl. cbn in Hl. split; [lia|]. intros Hall. rewrite Ha by done. by rewrite <- app_assoc.
Qed.

(** One pass: never more than the clamp allows, and exactly that when no checkout is
    refused. *)
Lemma held_after takes capacity p s : let wanted := clamp_to_pool (requested_hold true (hp_reach p) (hp_time p) (hp_redis p)) capacity in
  (Z.of_nat (length (hold_pass takes capacity p s).1) ≤ wanted)%Z ∧
  ((∀ n, takes n = true) → Z.of_nat (length (hold_pass takes capacity p s).1) = wanted).
Proof.
  intros wanted. assert (Hw : (0 ≤ wanted)%Z) by (unfold wanted, clamp_to_pool; destruct capacity; lia).
  unfold hold_pass, reconcile_held. fold wanted. set (kept := release_down wanted s.1).
  assert (Hk : (length kept ≤ Z.to_nat wanted)%nat) by (unfold kept, release_down; rewrite length_take; lia).
  destruct (acquire_up takes _ s.2 kept) as [held next] eqn:Ea. apply acquired in Ea as [Hl Ha]. cbn. split; [lia|].
  intros Hall. rewrite (Ha Hall), length_app, length_seq. lia.
Qed.

Lemma clamp_bounds wanted c : (0 ≤ clamp_to_pool wanted (Some c) ≤ Z.max 0 (c - MIN_FREE_CONNECTIONS))%Z.
Proof. unfold clamp_to_pool. lia. Qed.

Lemma hold_bound pool takes passes c held :
  pool_capacity pool = Some c → hold_db_pool true pool takes passes = Some held →
  (Z.of_nat (length held) ≤ Z.max 0 (c - MIN_FREE_CONNECTIONS))%Z.
Proof.
  unfold hold_db_pool. cbn [negb]. intros Hc [= <-]. rewrite Hc. destruct passes as [|p passes _] using rev_ind; [cbn; lia|].
  rewrite foldl_app. cbn [foldl]. destruct (held_after takes (Some c) p (foldl (λ s p, hold_pass takes (Some c) p s) ([], 0%nat) passes)) as [Hl _].
  pose proof (clamp_bounds (requested_hold true (hp_reach p) (hp_time p) (hp_redis p)) c). lia.
Qed.

(** A pass as the code meets it: time does not run backwards, and a request is one the flag
    can carry. *)
Definition good_pass (p : SleeperPass) : Prop :=
  (0 ≤ sp_delay p)%Z ∧ (0 ≤ default 0 (sp_refused p))%Z ∧ (∀ rq, sp_request p = Some rq → (MIN_QUERY_MS ≤ sq_query_ms rq)%Z).

Lemma phase_nonneg i rq : (MIN_QUERY_MS ≤ sq_query_ms rq)%Z → (0 ≤ sleeper_phase i rq)%Z.
Proof. unfold MIN_QUERY_MS, sleeper_phase, SLEEPER_COUNT. intros Hq. apply Z.div_pos; lia. Qed.

Lemma pass_forward i b p armed t run armed' t' : good_pass p → sleeper_pass i b p armed t = (run, armed', t') →
  (t ≤ t')%Z ∧ match run with Some x => (t ≤ rn_start x)%Z ∧ rn_end x = t' | None => True end.
Proof.
  unfold good_pass, MIN_QUERY_MS. intros (Hd & Hr & Hq). unfold sleeper_pass, POLL_INTERVAL_US.
  destruct (sp_request p) as [rq|]; [|intros [= <- <- <-]; split; [lia|done]].
  case_bool_decide; [|intros [= <- <- <-]; split; [lia|done]]. specialize (Hq _ eq_refl). pose proof (phase_nonneg i rq Hq) as Hph.
  unfold run_one_slow_query. destruct (statement_for _), (sp_refused p); intros [= <- <- <-]; cbn in *; destruct armed; (split; [lia|]); try done; lia.
Qed.

Lemma in_flight_nil t runs : Forall (λ x, (t < rn_start x)%Z) runs → in_flight t runs = [].
Proof. intros Hr. unfold in_flight. apply filter_none. intros x Hx Hin. pose proof (proj1 (Forall_forall _ _) Hr x Hx). cbn in *. lia. Qed.

(** A sleeper has at most one query in flight. *)
Lemma one_in_flight i b passes : ∀ armed t s, Forall good_pass passes →
  Forall (λ x, (t ≤ rn_start x)%Z) (sleeper i b passes armed t) ∧ (length (in_flight s (sleeper i b passes armed t)) ≤ 1)%nat.
Proof.
  induction passes as [|p passes IH]; intros armed t s Hp; [by split; [constructor|cbn; lia]|].
  apply Forall_cons in Hp as [Hp Hps]. cbn [sleeper]. destruct (sleeper_pass i b p armed t) as [[run armed'] t'] eqn:Es.
  apply pass_forward in Es as [Ht Hx]; [|done]. destruct (IH armed' t' s Hps) as [Hs Hn].
  assert (Hs' : Forall (λ x, (t ≤ rn_start x)%Z) (sleeper i b passes armed' t')) by (eapply Forall_impl; [exact Hs|]; cbn; lia).
  destruct run as [x|]; [|done]. destruct Hx as [Hx He]. change (option_list (Some x) ++ ?l) with (x :: l). split; [by constructor|].
  unfold in_flight at 1. rewrite (filter_cons (λ x, (rn_start x ≤ s < rn_end x)%Z) x). case_decide as Hin; [|done]. cbn [length].
  fold (in_flight s (sleeper i b passes armed' t')). rewrite in_flight_nil; [cbn; lia|]. eapply Forall_impl; [exact Hs|]. cbn. lia.
Qed.

Lemma queries_bound pool passes t0 s c : pool_capacity pool = Some c → (∀ i, Forall good_pass (passes i)) →
  (length (concat (in_flight s <$> run_slow_queries true pool passes t0)) ≤ sleeper_budget (Some c))%nat.
Proof.
  intros Hc Hp. unfold run_slow_queries. cbn [negb]. rewrite Hc. case_bool_decide as Hb; [cbn; lia|]. unfold sleeper_budget in *.
  destruct (Z.of_nat SLEEPER_COUNT <=? c - MIN_FREE_CONNECTIONS)%Z; [|done].
  change SLEEPER_COUNT with 2%nat in *. cbn [seq fmap list_fmap concat].
  rewrite !length_app. pose proof (proj2 (one_in_flight 0 2 (passes 0%nat) false t0 s (Hp 0%nat))).
  pose proof (proj2 (one_in_flight 1 2 (passes 1%nat) false t0 s (Hp 1%nat))). cbn [length]. lia.
Qed.


(** ** The flags the tools write *)

Lemma set_expired t t' k v ttl r : (t + inject_Z ttl <= t')%Q → live t' (r_set t k v (Some (inject_Z ttl)) r) k = None.
Proof. intros Ht. unfold live, r_set. rewrite lookup_insert_eq. cbn. by rewrite (proj2 (Qle_bool_iff _ _) Ht). Qed.

Lemma int_between_ok `{Pydantic} lo hi v z : int_between lo hi v = Some z → (lo ≤ z ≤ hi)%Z.
Proof. unfold int_between. intros (m & _ & Hl)%bind_Some. case_match eqn:El; [|done]. injection Hl as <-. apply andb_true_iff in El. lia. Qed.

Lemma defaulted_ok {A} (P : A → Prop) a f v x : P a → (∀ v x, f v = Some x → P x) → defaulted a f v = Some x → P x.
Proof. intros Ha Hf. unfold defaulted. destruct v; [by apply Hf|by intros [= <-]]. Qed.

Section Flags.
Context `{!Pydantic} (validation_errors : string → dict → json).

Lemma saturate_bounds d inp : validate_saturate validation_errors d = Ok inp → (1 ≤ sd_connections inp ≤ MAX_HELD_CONNECTIONS)%Z.
Proof.
  unfold validate_saturate, validated. case_match eqn:Em; [|done]. intros [= <-]. destruct (only_fields _ d); [|done].
  apply bind_Some in Em as (n & Hn & Em). apply bind_Some in Em as (t & _ & Em). injection Em as <-. cbn.
  by eapply (defaulted_ok (λ n, 1 ≤ n ≤ MAX_HELD_CONNECTIONS)%Z) in Hn; [|done|apply int_between_ok].
Qed.

Lemma slow_bounds d inp : validate_slow validation_errors d = Ok inp →
  is_Some (relation_of (si_target inp)) ∧ (MIN_QUERY_MS ≤ si_query_ms inp ≤ MAX_QUERY_MS)%Z.
Proof.
  unfold validate_slow, validated. case_match eqn:Em; [|done]. intros [= <-]. destruct (only_fields _ d); [|done].
  apply bind_Some in Em as (g & Hg & Em). apply bind_Some in Em as (n & Hn & Em). apply bind_Some in Em as (t & _ & Em). injection Em as <-. cbn. split.
  - eapply (defaulted_ok (λ g, is_Some (relation_of g))) in Hg; [done|by eexists|]. intros v x. unfold literal. intros (m & _ & Hm)%bind_Some.
    case_bool_decide as Hin; [|done]. injection Hm as <-. repeat (apply elem_of_cons in Hin as [->|Hin]; [by eexists|]). by apply not_elem_of_nil in Hin.
  - by eapply (defaulted_ok (λ n, MIN_QUERY_MS ≤ n ≤ MAX_QUERY_MS)%Z) in Hn; [|done|apply int_between_ok].
Qed.

(** A hold follows its flag: while the flag lives, each pass of the holder ends with
    exactly the connections the tool was asked for, clamped to the pool; on the first pass
    after it expired, or without chaos, nothing is held. *)
Theorem hold_follows_flag d inp ctx s out s' capacity takes t prev :
  validate_saturate validation_errors d = Ok inp → saturate_db_pool inp ctx s = (Ok out, s') → (∀ n, takes n = true) →
  let held := (hold_pass takes capacity (mkHoldPass Answered t (mc_redis s')) prev).1 in
  ((t < cx_time ctx 0%nat + inject_Z (sd_ttl_seconds inp))%Q → Z.of_nat (length held) = clamp_to_pool (sd_connections inp) capacity) ∧
  ((cx_time ctx 0%nat + inject_Z (sd_ttl_seconds inp) <= t)%Q → held = []).
Proof.
  intros Hv Hc Ht held. apply saturate_bounds in Hv. unfold saturate_db_pool in Hc.
  destruct (redis_set _ _ _ _ _ _) as [[x|] s1] eqn:Es; [|done]. injection Hc as _ <-. apply redis_set_ok in Es as ->.
  destruct (held_after takes capacity (mkHoldPass Answered t (mc_redis (with_mcp_redis (r_set (cx_time ctx 0%nat) HOLD_KEY (RStr (show_Z (sd_connections inp))) (Some (inject_Z (sd_ttl_seconds inp))) (mc_redis s)) s))) prev) as [_ Hh].
  specialize (Hh Ht). fold held in Hh. revert Hh. cbn [hp_reach hp_time hp_redis]. change (mc_redis (with_mcp_redis ?r ?st)) with r.
  unfold requested_hold. cbn [negb]. unfold redis_cmd, r_get. split; intros Hl.
  - rewrite Hh, set_live by done. cbn [e_val mbind result_mbind fst int_of_reply]. rewrite py_int_show. f_equal. lia.
  - rewrite set_expired in Hh by done. cbn in Hh. assert (Hz : length held = 0%nat); [|by destruct held].
    unfold clamp_to_pool in Hh. destruct capacity; lia.
Qed.

(** Only the declared read paths can be made slow: whatever the flag holds, a request that
    is read names one of them and a duration within the bounds, so the statement that is
    run is one of three. *)
Lemma parsed_is_declared raw rq : parse_request raw = Some rq →
  (MIN_QUERY_MS ≤ sq_query_ms rq ≤ MAX_QUERY_MS)%Z ∧ sq_target rq ∈ ["job_reads"; "audit_reads"; "outbox_reads"] ∧ ∃ text, statement_for (sq_target rq) = Ok text.
Proof.
  unfold parse_request. intros (value & _ & Hp)%bind_Some. destruct (Bulk.partition_colon _) as [target chunk].
  apply bind_Some in Hp as (rel & Hr & Hp). apply bind_Some in Hp as (ms & _ & Hp). case_match eqn:Eb; [|done]. injection Hp as <-. cbn.
  apply andb_true_iff in Eb. split; [lia|]. unfold statement_for. rewrite Hr. split; [|by eexists]. clear -Hr.
  unfold relation_of in Hr. destruct (list_find _ _) as [[i kv]|] eqn:El; [|done]. apply list_find_Some in El as (Hl & Hk & _). cbn in Hk. rewrite <- Hk.
  apply list_elem_of_lookup_2 in Hl. unfold TARGET_RELATIONS in Hl. set_solver.
Qed.

(** The slow-query flag round trip: what the tool writes is what the sleepers are asked for
    until it expires. *)
Lemma slow_flag_is_read d inp ctx s out s' t :
  validate_slow validation_errors d = Ok inp → slow_db_queries inp ctx s = (Ok out, s') →
  let read on := requested_slow_query on Answered t (mc_redis s') in
  read false = None ∧
  ((t < cx_time ctx 0%nat + inject_Z (si_ttl_seconds inp))%Q → read true = Some (mkSlow (si_target inp) (si_query_ms inp))) ∧
  ((cx_time ctx 0%nat + inject_Z (si_ttl_seconds inp) <= t)%Q → read true = None).
Proof.
  intros Hv Hc read. apply slow_bounds in Hv as [Hg Hn]. unfold slow_db_queries in Hc. destruct (redis_set _ _ _ _ _ _) as [[x|] s1] eqn:Es; [|done].
  destruct (relation_of (si_target inp)) as [rel|] eqn:Er; [|done]. injection Hc as _ <-. apply redis_set_ok in Es as ->. split; [done|].
  unfold read, requested_slow_query. cbn [negb]. unfold redis_cmd, r_get. change (mc_redis (with_mcp_redis ?r ?st)) with r.
  split; intros Hl; [rewrite set_live by done|by rewrite set_expired]. cbn [e_val mbind result_mbind fst].
  unfold parse_request. cbn [mbind option_bind]. unfold encode_request. rewrite chars_app.
  change (chars (":" +:+ show_Z (si_query_ms inp))) with (":"%char :: chars (show_Z (si_query_ms inp))).
  assert (Hpart : Bulk.partition_colon (chars (si_target inp) ++ ":"%char :: chars (show_Z (si_query_ms inp))) =
                  (chars (si_target inp), chars (show_Z (si_query_ms inp)))).
  { clear -Er. unfold relation_of in Er. destruct (list_find _ _) as [[i kv]|] eqn:El; [|done]. apply list_find_Some in El as (Hl & Hk & _). cbn in Hk.
    rewrite <- Hk. apply list_elem_of_lookup_2 in Hl. unfold TARGET_RELATIONS in Hl.
    repeat (apply elem_of_cons in Hl as [->|Hl]; [reflexivity|]). by apply not_elem_of_nil in Hl. }
  rewrite Hpart, !String.string_of_list_ascii_of_string, Er, py_int_show. cbn [mbind option_bind].
  by rewrite (proj2 (Z.leb_le _ _)), (proj2 (Z.leb_le _ _)) by lia.
Qed.
End Flags.

(** ** Slow queries in the reading *)

(** A pass that finds the same request, spends [g] before its query and has it run. *)
Definition steady (rq : SlowQueryRequest) (g : Z) : SleeperPass := mkSleeperPass (Some rq) g None.

(** The [k]-th query of a sleeper that keeps step, from the start of its first. *)
Definition nth_run (rq : SlowQueryRequest) (g first : Z) (k : nat) : Run :=
  let q := (1000 * sq_query_ms rq)%Z in mkRun (first + Z.of_nat k * (q + g)) (first + Z.of_nat k * (q + g) + q).

Lemma steady_armed i b rq g n : (i < b)%nat → is_Some (relation_of (sq_target rq)) → ∀ t,
  sleeper i b (replicate n (steady rq g)) true t = nth_run rq g (t + g) <$> seq 0 n.
Proof.
  intros Hi [rel Hr]. induction n as [|n IH]; intros t; [done|]. cbn [replicate sleeper]. unfold sleeper_pass. cbn [sp_request steady sp_delay].
  rewrite bool_decide_true by done. unfold run_one_slow_query, statement_for. rewrite Hr. cbn [sp_refused steady].
  change (option_list (Some ?x) ++ ?l) with (x :: l). rewrite IH. cbn [seq fmap list_fmap]. f_equal.
  rewrite <- seq_shift, <- list_fmap_compose. apply list_fmap_ext. intros k x _. unfold nth_run. cbn [compose].
  rewrite Nat2Z.inj_succ, Z.mul_succ_l. f_equal; lia.
Qed.

Lemma steady_runs i b rq g n t : (i < b)%nat → is_Some (relation_of (sq_target rq)) →
  sleeper i b (replicate n (steady rq g)) false t = nth_run rq g (t + g + sleeper_phase i rq) <$> seq 0 n.
Proof.
  intros Hi Hr. destruct n as [|n]; [done|]. cbn [replicate sleeper]. unfold sleeper_pass. cbn [sp_request steady sp_delay].
  rewrite bool_decide_true by done. unfold run_one_slow_query, statement_for. destruct Hr as [rel Hr]. rewrite Hr. cbn [sp_refused steady].
  change (option_list (Some ?x) ++ ?l) with (x :: l). rewrite steady_armed by (done || by eexists). cbn [seq fmap list_fmap]. f_equal.
  - unfold nth_run. cbn [Z.of_nat]. rewrite Z.mul_0_l. f_equal; lia.
  - rewrite <- seq_shift, <- list_fmap_compose. apply list_fmap_ext. intros k x _. unfold nth_run. cbn [compose].
    rewrite Nat2Z.inj_succ, Z.mul_succ_l. f_equal; lia.
Qed.

(** Two queries half a chunk apart: at every instant one of them is old. *)
Lemma one_is_old rq g first n t :
  let q := (1000 * sq_query_ms rq)%Z in
  (MIN_QUERY_MS ≤ sq_query_ms rq)%Z → (0 ≤ g)%Z → (2 * (SLOW_QUERY_THRESHOLD_US + g) < q)%Z →
  (first + q / 2 ≤ t < first + Z.of_nat n * (q + g))%Z →
  ∃ k, (k < n)%nat ∧ ∃ off, (off = 0 ∨ off = q / 2)%Z ∧
    let x := nth_run rq g (first + off) k in (rn_start x ≤ t < rn_end x)%Z ∧ (SLOW_QUERY_THRESHOLD_US < t - rn_start x)%Z.
Proof.
  intros q Hms Hg Hq Ht. assert (Hhalf : (q = 2 * (q / 2))%Z).
  { unfold q. replace (1000 * sq_query_ms rq)%Z with (500 * sq_query_ms rq * 2)%Z by lia. rewrite Z.div_mul by lia. lia. }
  set (h := (q / 2)%Z) in *. set (P := (q + g)%Z). set (u := (t - first)%Z).
  assert (HP : (0 < P)%Z) by (unfold P, SLOW_QUERY_THRESHOLD_US in *; lia).
  pose proof (Z.div_mod u P ltac:(lia)) as Hu. pose proof (Z.mod_pos_bound u P HP) as Hm.
  assert (Hk0 : (0 ≤ u / P)%Z) by (apply Z.div_pos; unfold u, SLOW_QUERY_THRESHOLD_US in *; lia).
  assert (Hkn : (u / P < Z.of_nat n)%Z) by (apply Z.div_lt_upper_bound; unfold u, P; lia).
  set (k := (u / P)%Z) in *. set (m := (u mod P)%Z) in *. clearbody k m h. unfold u, P in Hu, Hm. unfold SLOW_QUERY_THRESHOLD_US in *.
  destruct (decide (h - g ≤ m < q)%Z) as [Hin|Hout]; [|destruct (decide (q ≤ m)%Z) as [Hgap|Hlow]].
  - exists (Z.to_nat k). split; [lia|]. exists 0%Z. split; [by left|]. unfold nth_run. fold q. cbn. rewrite Z2Nat.id by lia. nia.
  - exists (Z.to_nat k). split; [lia|]. exists h. split; [by right|]. unfold nth_run. fold q. cbn. rewrite Z2Nat.id by lia. nia.
  - assert (Hk1 : (1 ≤ k)%Z). { destruct (decide (k = 0)%Z) as [->|]; [|lia]. lia. }
    exists (Z.to_nat (k - 1)). split; [lia|]. exists h. split; [by right|]. unfold nth_run. fold q. cbn. rewrite Z2Nat.id by lia. nia.
Qed.

Lemma flight_is_seen database pid t sleepers srv runs x :
  runs ∈ sleepers → x ∈ runs → (rn_start x ≤ t < rn_end x)%Z →
  sleeper_backends database pid t sleepers ⊆ pg_activity srv → pg_clock srv = t → pg_current_database srv = database →
  (∀ b, b ∈ sleeper_backends database pid t sleepers → bk_pid b ≠ pg_backend_pid srv) →
  (t - rn_start x)%Z ∈ active_query_ages srv.
Proof.
  intros Hr Hx Ht Hsub Hc Hd Hpid.
  assert (Hin : x ∈ concat (in_flight t <$> sleepers)).
  { apply list_elem_of_In, in_concat. exists (in_flight t runs). split; apply list_elem_of_In; [by apply (list_elem_of_fmap_2 (in_flight t))|].
    by apply list_elem_of_filter. }
  apply list_elem_of_lookup in Hin as [i Hi].
  set (b := mkBackend (pid + Z.of_nat i) (Some "active") (Some (rn_start x)) (Some database)).
  assert (Hb : b ∈ sleeper_backends database pid t sleepers).
  { apply list_elem_of_lookup. exists i. unfold sleeper_backends. by rewrite list_lookup_imap, Hi. }
  apply list_elem_of_omap. exists b. split; [by apply Hsub|]. cbn [bk_query_start b]. unfold is_active. cbn [bk_state bk_datname bk_pid b].
  rewrite !bool_decide_true; [by rewrite Hc|by apply (Hpid _ Hb)|by rewrite Hd|done].
Qed.

Lemma seen_is_counted ages a : a ∈ ages → (SLOW_QUERY_THRESHOLD_US < a)%Z →
  (1 ≤ over_threshold ages)%Z ∧ ∃ l, longest_age ages = Some l ∧ (SLOW_QUERY_THRESHOLD_US < l)%Z.
Proof.
  intros Ha Hs. split.
  - unfold over_threshold. assert (Hf : a ∈ filter (λ a, SLOW_QUERY_THRESHOLD_US < a)%Z ages) by (by apply list_elem_of_filter).
    destruct (filter _ ages); [by apply not_elem_of_nil in Hf|cbn; lia].
  - destruct ages as [|b ages]; [by apply not_elem_of_nil in Ha|]. eexists. split; [reflexivity|].
    assert (Hmax : ∀ l m, (m ≤ foldl Z.max m l)%Z ∧ ∀ x, x ∈ l → (x ≤ foldl Z.max m l)%Z).
    { induction l as [|y l IH]; intros m; cbn; [split; [lia|intros x Hx; by apply not_elem_of_nil in Hx]|]. destruct (IH (Z.max m y)) as [H1 H2].
      split; [lia|]. intros x [->|Hx]%elem_of_cons; [lia|by apply H2]. }
    destruct (Hmax ages b) as [H1 H2]. apply elem_of_cons in Ha as [->|Ha]; [lia|]. specialize (H2 _ Ha). lia.
Qed.

(** The slow-query fault shows in every reading while its two sleepers keep step.  For
    every request the flag can carry, when each pass spends the same time [g] before its
    query and half a query exceeds the slow threshold by more than [g], every reading of
    the server from half a query after the start until the last pass counts a query over
    the threshold and reports a longest query over it, whatever else the server runs. *)
Theorem slow_reading_is_continuous pool raw rq g n t0 t database pid srv :
  parse_request raw = Some rq → (0 ≤ g)%Z → (SLOW_QUERY_THRESHOLD_US + g < 500 * sq_query_ms rq)%Z →
  sleeper_budget (pool_capacity pool) ≠ 0%nat →
  let sleepers := run_slow_queries true pool (λ _, replicate n (steady rq g)) t0 in
  (t0 + g + 500 * sq_query_ms rq ≤ t < t0 + Z.of_nat n * (1000 * sq_query_ms rq + g))%Z →
  sleeper_backends database pid t sleepers ⊆ pg_activity srv → pg_clock srv = t → pg_current_database srv = database →
  (∀ b, b ∈ sleeper_backends database pid t sleepers → bk_pid b ≠ pg_backend_pid srv) →
  (1 ≤ over_threshold (active_query_ages srv))%Z ∧
  ∃ l, longest_age (active_query_ages srv) = Some l ∧ (SLOW_QUERY_THRESHOLD_US < l)%Z.
Proof.
  intros Hp Hg Hq Hb sleepers Ht Hsub Hc Hd Hpid. apply parsed_is_declared in Hp as (Hms & _ & text & Htext).
  assert (Hrel : is_Some (relation_of (sq_target rq))) by (unfold statement_for in Htext; by destruct (relation_of _)).
  assert (Hb2 : sleeper_budget (pool_capacity pool) = 2%nat) by (unfold sleeper_budget in *; by repeat case_match).
  assert (Hs : sleepers = (λ i, nth_run rq g (t0 + g + sleeper_phase i rq) <$> seq 0 n) <$> seq 0 2).
  { unfold sleepers, run_slow_queries. cbn [negb]. rewrite Hb2, bool_decide_false by done. unfold SLEEPER_COUNT. cbn [seq fmap list_fmap].
    by rewrite !steady_runs by (done || lia). }
  assert (Hhalf : (1000 * sq_query_ms rq / 2 = 500 * sq_query_ms rq)%Z)
    by (replace (1000 * sq_query_ms rq)%Z with (500 * sq_query_ms rq * 2)%Z by lia; by rewrite Z.div_mul).
  destruct (one_is_old rq g (t0 + g) n t) as (k & Hk & off & Hoff & Hin & Hold); [lia|done|lia|lia|].
  assert (Hx : nth_run rq g (t0 + g + off) k ∈ (nth_run rq g (t0 + g + off) <$> seq 0 n)) by (apply list_elem_of_fmap_2, elem_of_seq; lia).
  rewrite Hhalf in Hoff. eapply seen_is_counted; [|exact Hold]. eapply (flight_is_seen database pid t sleepers srv); [|exact Hx|done..].
  rewrite Hs. apply list_elem_of_fmap. unfold sleeper_phase. destruct Hoff as [-> | ->].
  - exists 0%nat. split; [|by left]. by rewrite Z.mul_0_r.
  - exists 1%nat. split; [|by right; left]. rewrite Z.mul_1_r. change (Z.of_nat SLEEPER_COUNT) with 2%Z. by rewrite Hhalf.
Qed.

(** ** The health tool *)

(** The first statement of the probe that fails. *)
Definition probe_failure (e : ProbeEnv) : option exn :=
  head (omap (pb_fails e) (if bool_decide (probe_dialect e = "postgresql") then [0; 1; 2; 3]%nat else [0]%nat)).

Lemma probe_ends e db :
  (probe_failure e = None ∧ ∃ q, probe_block e db = Ok (q, db) ∧
     (probe_dialect e = "postgresql" → qr_over q = Some (over_threshold (active_query_ages (pb_server e))) ∧
                                        qr_longest_us q = longest_age (active_query_ages (pb_server e)))) ∨
  ∃ x, probe_failure e = Some x ∧ probe_block e db = Err x.
Proof.
  unfold probe_failure, probe_block, statement. destruct (pb_fails e 0) as [x|] eqn:E0; [right; exists x; split; [|done]; case_bool_decide; cbn; by rewrite E0|].
  cbn [mbind result_mbind]. case_bool_decide as Hd; cbn [omap list_omap]; rewrite E0; [|by left; split; [|eexists]].
  destruct (pb_fails e 1) as [x|]; [by right; exists x|]. cbn [mbind result_mbind].
  destruct (pb_fails e 2) as [x|]; [by right; exists x|]. cbn [mbind result_mbind].
  destruct (pb_fails e 3) as [x|]; [by right; exists x|]. cbn [mbind result_mbind]. left. split; [done|]. by eexists.
Qed.

Section HealthProps.
Context `{PyCodec} (datetime_text : Z → string).

(** What the database health tool reports.  It leaves the transaction as it found it,
    and it raises only when a published reading does.  Otherwise [ok] says whether every
    statement of the probe ran and [error] which message the first failing one had; the
    query readings are those of the server when it is PostgreSQL and all ran, and unknown
    when one failed; and the pool of this process and the published pools are reported
    either way. *)
Theorem health_reports e pool mono env measured_at db w r :
  let '(res, db', _) := get_postgres_health datetime_text e pool mono env measured_at db w r in
  let '(stats, unknown, _) := read_pool_stats mono (match pb_dialect e with Some _ => pool | None => absent_pool end) w in
  db' = db ∧
  match read_pool_states env r with
  | Err x => res = Err x
  | Ok (gauges, why) =>
      ∃ reply, res = Ok reply ∧
        dget reply "ok" = Some (JBool (bool_decide (probe_failure e = None))) ∧
        dget reply "error" = Some (str_opt (exn_message <$> probe_failure e)) ∧
        (probe_failure e = None → probe_dialect e = "postgresql" →
           dget reply "active_queries_over_slow_threshold" = Some (JInt (over_threshold (active_query_ages (pb_server e))))) ∧
        (probe_failure e ≠ None →
           dget reply "active_queries_over_slow_threshold" = Some JNull ∧ dget reply "longest_active_query_ms" = Some JNull) ∧
        dget reply "pool_checked_out" = Some (int_opt (ps_checked_out <$> stats)) ∧
        dget reply "pool_stats_unknown_reason" = Some (str_opt unknown) ∧
        dget reply "pools" = Some (JList (gauge_reading datetime_text measured_at <$> gauges)) ∧
        dget reply "pool_gauges_unknown_reason" = Some (str_opt why)
  end.
Proof.
  unfold get_postgres_health, degrade_on_db_error.
  destruct (read_pool_stats mono _ w) as [[stats unknown] w'] eqn:Es.
  assert (Hu : stats = None ∨ unknown = None) by (unfold read_pool_stats in Es; repeat case_match; simplify_eq; auto).
  destruct (probe_ends e db) as [(Hf & q & Hb & Hq)|(x & Hf & Hb)]; rewrite Hb, Hf; (split; [done|]); destruct (read_pool_states env r) as [[gauges why]|]; try done;
    (eexists; split; [reflexivity|]); rewrite ?(bool_decide_true (@None exn = None)), ?(bool_decide_false (Some _ = None)) by done;
    destruct stats as [st|]; (destruct Hu as [Hu| ->]; [try done|]); unfold postgres_health_reply, pool_fields; cbn; split_and!; try done.
  all: intros _ Hd; by destruct (Hq Hd) as [-> _].
Qed.
End HealthProps.

(** ** Memory pressure *)

Section Pressure.
Context `{!Pydantic, UuidSource} (validation_errors : string → dict → json) (doc : string → string) (schema : string → dict).

Lemma show_nat_inj (i j : nat) : show_Z (Z.of_nat i) = show_Z (Z.of_nat j) → i = j.
Proof. intros Hs%show_Z_inj. lia. Qed.

Lemma sat_key_inj run i j : sat_key run i = sat_key run j → i = j.
Proof.
  unfold sat_key. intros Hk. apply show_nat_inj. apply (f_equal chars) in Hk. rewrite !chars_app in Hk.
  repeat (apply app_inv_head in Hk). apply (f_equal String.string_of_list_ascii) in Hk. by rewrite !chars_inj in Hk.
Qed.

(** A run writes its own keys with their time to live, and no other key. *)
Lemma fillers_written t run inp r :
  let filler := RStr (String.string_of_list_ascii (replicate (Z.to_nat (sr_value_bytes inp)) "x"%char)) in
  (∀ i, (i < Z.to_nat (sr_num_keys inp))%nat →
     write_fillers t run inp r !! sat_key run i = Some (mkEntry filler (Some (t + inject_Z (sr_ttl_seconds inp))%Q))) ∧
  (∀ k, (∀ i, (i < Z.to_nat (sr_num_keys inp))%nat → k ≠ sat_key run i) → write_fillers t run inp r !! k = r !! k).
Proof.
  intros filler. unfold write_fillers. fold filler. induction (Z.to_nat (sr_num_keys inp)) as [|n IH]; [split; [lia|done]|].
  destruct IH as [IHin IHout]. rewrite seq_S, foldl_app. cbn [foldl]. unfold r_set. cbn [fmap option_fmap option_map]. split.
  - intros i Hi. destruct (decide (i = n)) as [->|Hne]; [by rewrite lookup_insert_eq|].
    rewrite lookup_insert_ne by (intros He; apply Hne; by apply sat_key_inj in He). apply IHin. lia.
  - intros k Hk. rewrite lookup_insert_ne by (intros He; by apply (Hk n); [lia|]). apply IHout. intros i Hi. apply Hk. lia.
Qed.

(** No accepted run writes more than 256 MiB of values, and a run leaves every key of the
    platform alone. *)
Theorem saturation_is_bounded d inp ctx s out s' :
  validate_saturate_redis validation_errors d = Ok inp → saturate_redis inp ctx s = (Ok out, s') →
  (16 ≤ sr_num_keys inp * sr_value_bytes inp ≤ MAX_TOTAL_BYTES)%Z ∧
  dget out "total_value_bytes" = Some (JInt (sr_num_keys inp * sr_value_bytes inp)) ∧
  ∀ k, String.prefix "chaos:sat:" k = false → mc_redis s' !! k = mc_redis s !! k.
Proof.
  intros Hv Hc. unfold saturate_redis in Hc. destruct (draw_uuid (mc_db s)) as [u db].
  destruct (redis_cmd _ _ _) as [[x|] r] eqn:Er; [|done]. injection Hc as <- <-. split; [|split; [done|]].
  - revert Hv; unfold validate_saturate_redis, validated; case_match eqn:Em; [|done]; intros [= <-]; destruct (only_fields _ d); [|done];
      apply bind_Some in Em as (n & Hn & Em); apply bind_Some in Em as (b & Hb & Em); apply bind_Some in Em as (t & _ & Em);
      case_match eqn:El; [done|]; injection Em as <-; cbn; apply Z.ltb_ge in El;
      eapply (defaulted_ok (λ n, 1 ≤ n ≤ 100000)%Z) in Hn; [|done|apply int_between_ok];
      eapply (defaulted_ok (λ n, 16 ≤ n ≤ 1048576)%Z) in Hb; [|done|apply int_between_ok]; nia.
  - intros k Hk. change (mc_redis (with_mcp_redis r ?st)) with r. unfold redis_cmd in Er.
    destruct (cx_reach ctx 0); simplify_eq. change (mc_redis (with_mcp_db db s)) with (mc_redis s). apply fillers_written.
    intros i _ ->. unfold sat_key in Hk. by rewrite prefix_app in Hk.
Qed.

Lemma pressure_tools_honest : Forall (λ d, honest (decl_spec d)) (pressure_tools validation_errors doc schema).
Proof.
  assert (Hset : ∀ ctx n k v ttl s x s', redis_set ctx n k v ttl s = (Ok x, s') → db_audit (mc_db s') = db_audit (mc_db s))
    by (intros * E; by apply redis_set_ok in E as ->).
  repeat (apply Forall_cons_2; [intros input ctx s out s' Hc; unfold mcp_rows; f_equal; cbn [decl_spec ts_handler tool_spec] in *|]); [..|apply Forall_nil_2].
  - unfold saturate_db_pool in Hc. destruct (redis_set _ _ _ _ _ _) as [[x|] s1] eqn:Es; [|done]. injection Hc as _ <-. by eapply Hset.
  - unfold slow_db_queries in Hc. destruct (redis_set _ _ _ _ _ _) as [[x|] s1] eqn:Es; [|done]. case_match; [|done]. injection Hc as _ <-. by eapply Hset.
  - unfold saturate_redis in Hc. destruct (draw_uuid (mc_db s)) as [u db] eqn:Ed. destruct (redis_cmd _ _ _) as [[x|] r]; [|done]. injection Hc as _ <-.
    cbn. unfold draw_uuid in Ed. by injection Ed as _ <-.
Qed.
End Pressure.

(** ** Worked examples *)

Module PoolExample.
#[local] Existing Instance printed_codec.

(** The stock pool: five connections and ten more. *)
Definition stock : Pool := mkPool (Some (Ok 5%Z)) (Some (Ok 1%Z)) (Some (Ok (-4)%Z)) (Some 10%Z).

(** Three callers give up, one through two frames; a reading in between prunes the first. *)
Definition waits : list window_event :=
  [Checkout 0 (TimedOut 1); Checkout 10 CheckedOut; Checkout 30 (TimedOut 2); Reading 61; Checkout 80 (TimedOut 1)].

Lemma timeouts_counted_exactly_witness : (pool_wait_timeouts_in_window 85 (foldl window_step [] waits)).1 = 2%Z.
Proof. rewrite timeouts_counted_exactly; [reflexivity|]. repeat constructor; vm_compute; discriminate. Defined.

(** The worker reports at 0 and 10 and its third write is lost; the server reports at 5. *)
Definition reading (process : string) (n : Z) (at_ : Z) : PoolRecord := mkPoolRecord process (mkPoolStats 5 n 0 (Some 10%Z) 0) at_.
Definition pubs : list (reach * Q * PoolRecord) :=
  [(Answered, 0, reading PROCESS_API_WORKER 1 0); (ReplyLost, 5, reading PROCESS_MCP 2 5000000);
   (Answered, 10, reading PROCESS_API_WORKER 3 10000000); (NotReached, 20, reading PROCESS_API_WORKER 4 20000000)]%Q.
Definition asks (t : Q) : StoreEnv := mkStoreEnv (λ _, Answered) (λ _, t) (λ _, 0%Z).

Lemma gauges_are_latest_witness :
  read_pool_states (asks 66) (publish_all pubs ∅) = Ok ([reading PROCESS_API_WORKER 3 10000000], None).
Proof. rewrite (gauges_are_latest ∅ pubs (asks 66) 66); [reflexivity|by intros k _|by repeat constructor|done]. Defined.

(** A record whose count is not a number: the read raises, and the health tool with it. *)
Definition odd_record : string := json_dumps (JObj [("process", JStr "mcp"); ("written_at", JStr (isoformat 0)); ("size", JStr "five")]).
Definition odd_store : Redis := r_set 0 "pool:state:mcp" (RStr odd_record) (Some POOL_STATE_TTL_SECONDS) ∅.

Theorem odd_record_raises datetime_text e pool mono db w :
  ∃ x, (get_postgres_health datetime_text e pool mono (asks 1) 0 db w odd_store).1.1 = Err x.
Proof.
  assert (Hr : ∃ x, read_pool_states (asks 1) odd_store = Err x) by (eexists; vm_compute; reflexivity).
  destruct Hr as [x Hr]. exists x. unfold get_postgres_health. destruct (degrade_on_db_error _ _ _) as [p db'].
  destruct (read_pool_stats _ _ w) as [[s u] w']. rewrite Hr. reflexivity.
Qed.

(** The stock pool with both faults on: ten held, two queries, three connections left. *)
Definition rq : SlowQueryRequest := mkSlow "job_reads" 1100.
Definition flag : Redis := r_set 0 HOLD_KEY (RStr "10") (Some 300%Q) ∅.
Definition always (n : nat) : bool := true.


(** The tool asks for seven connections for a minute. *)
#[local] Existing Instance ActionExample.strict_pydantic.
#[local] Existing Instance counted_uuids.
Definition ctx : ToolContext := ActionExample.ctx.
Definition start : McpStore := ActionExample.start.
Definition held_now : result exn dict * McpStore := saturate_db_pool (mkSaturate 7 60) ctx start.
Definition after (t : Q) : Held := (hold_pass always (pool_capacity stock) (mkHoldPass Answered t (mc_redis held_now.2)) ([], 0%nat)).1.
Definition reply_of (r : result exn dict * McpStore) : dict := match r.1 with Ok d => d | Err _ => [] end.

Lemma hold_follows_flag_witness : Z.of_nat (length (after 59)) = 7%Z ∧ after 60 = [].
Proof.
  split.
  - apply (hold_follows_flag McpExample.errors [("connections", JInt 7); ("ttl_seconds", JInt 60)] (mkSaturate 7 60) ctx start (reply_of held_now));
      vm_compute; reflexivity.
  - apply (hold_follows_flag McpExample.errors [("connections", JInt 7); ("ttl_seconds", JInt 60)] (mkSaturate 7 60) ctx start (reply_of held_now));
      [vm_compute; reflexivity..|]. vm_compute. discriminate.
Defined.

(** The shortest query the tool accepts, 40 ms before each: 20 seconds in, the reading is
    over the threshold. *)
Definition raw : option rval := Some (RStr (encode_request "job_reads" 1100)).
Definition in_step : list (list Run) := run_slow_queries true stock (λ _, replicate 30 (steady rq 40000)) 0.
Definition server (t : Z) (sleepers : list (list Run)) : PgServer := mkPgServer (sleeper_backends "incident" 100 t sleepers) 7 "incident" t [].

Lemma slow_reading_is_continuous_witness :
  (1 ≤ over_threshold (active_query_ages (server 20000000 in_step)))%Z ∧
  ∃ l, longest_age (active_query_ages (server 20000000 in_step)) = Some l ∧ (SLOW_QUERY_THRESHOLD_US < l)%Z.
Proof.
  apply (slow_reading_is_continuous stock raw rq 40000 30 0 20000000 "incident" 100 (server 20000000 in_step));
    [vm_compute; reflexivity|lia|vm_compute; reflexivity|done|cbn; lia|done|done|done|].
  assert (Hp : forallb (λ b, bool_decide (bk_pid b ≠ 7%Z)) (sleeper_backends "incident" 100 20000000 in_step) = true) by (vm_compute; reflexivity).
  rewrite forallb_forall in Hp. intros b Hb. specialize (Hp b (proj1 (list_elem_of_In _ _) Hb)). by apply bool_decide_eq_true in Hp.
Defined.

(** The sleepers are put in step once, when they are armed.  One pass of the second that is
    late by half a query brings both into phase, and nothing parts them again: from then on
    the reading drops below the threshold in the first part of every query. *)
Definition late (i : nat) : list SleeperPass :=
  match i with O => replicate 60 (steady rq 0) | _ => steady rq 0 :: steady rq 550000 :: replicate 60 (steady rq 0) end.
Definition in_phase : list (list Run) := run_slow_queries true stock late 0.

Theorem late_pass_hides_queries k :
  (3 ≤ k < 50)%nat → let t := (1100000 * Z.of_nat k + 400000)%Z in
  length (concat (in_flight t <$> in_phase)) = 2%nat ∧ over_threshold (active_query_ages (server t in_phase)) = 0%Z.
Proof.
  intros Hk t. assert (Hall : forallb (λ k, let t := (1100000 * Z.of_nat k + 400000)%Z in
    bool_decide (length (concat (in_flight t <$> in_phase)) = 2%nat ∧ over_threshold (active_query_ages (server t in_phase)) = 0%Z)) (seq 3 47) = true)
    by (vm_compute; reflexivity).
  rewrite forallb_forall in Hall. specialize (Hall k). apply bool_decide_eq_true in Hall; [done|]. apply in_seq. lia.
Qed.

(** Three keys of sixteen bytes. *)
Definition small : SaturateRedisInput := mkSaturateRedis 3 16 60.
Definition pressed : result exn dict * McpStore := saturate_redis small ctx start.

Lemma saturation_is_bounded_witness : (16 ≤ 3 * 16 ≤ MAX_TOTAL_BYTES)%Z.
Proof.
  apply (saturation_is_bounded McpExample.errors [("num_keys", JInt 3); ("value_bytes", JInt 16)] small ctx start (reply_of pressed) pressed.2);
    vm_compute; reflexivity.
Defined.
End PoolExample.
